(* ===== verification/_CoqProject ===== *)
-Q . S2P
Prelude.v
Aeabi.v
Murmur3.v
Mac.v
Demod.v
Flash.v
Updater.v
Main.v
Random.v
Pins.v
Irqs.v
Timers.v
SoftPwm.v
Callbacks.v
Heap.v
Streams.v
Printf.v
Queues.v
Ring.v
Sched.v
SchedOk.v
Kernel.v
Mutex.v
IOQueues.v
Events.v
Mailboxes.v
Messages.v
I2c.v
SchedFrames.v
Clock.v
Serial.v
SchedCold.v
Lifecycle.v
Sketch.v
