(* ===== verification/Prelude.v ===== *)
(** * LTC-OS: a verification library

    LTC-OS is the firmware of the Chibi "Love to Code" board, a KL02 microcontroller
    (Cortex-M0+).  It is a boot loader that is programmed by sound, on a ChibiOS/RT
    kernel, with an Arduino layer that the programs it loads call.  This library
    translates its C code into Rocq definitions and proves what makes it correct.

    ** The program and its parts

    Sound arrives as follows.  The ADC interrupt (esplanade_analog.c) fills one half of
    a sample buffer while the thread of main.c copies and demodulates the other
    (esplanade_demod.c); every bit goes to a MAC layer (esplanade_mac.c), which
    assembles packets; a packet is unstriped (main.c), checked by its hash (murmur3.c),
    and handed to the updater (esplanade_updater.c), which programs the flash through
    flash.c and starts the program when all of it has arrived and its hash is right.
    The program then calls the Arduino layer: pins, interrupts, pulses, random numbers,
    timer callbacks, memory; these use the kernel's virtual timers and its heap.  Text
    is formatted by chprintf.c on streams and leaves through the serial driver, whose
    queues make threads wait and whose interrupt tells listeners through kernel events.

    ** Files, in dependency order (sources under src/)

    - [Prelude]: machine integers, bit-level reasoning, byte memories, arrays.
    - [Aeabi]: orchard/__aeabi.c and math.c, the C runtime.
    - [Murmur3]: orchard/murmur3.c, the hash.
    - [Mac]: orchard/esplanade_mac.c, [putBitMac] on the state [mac].
    - [Demod]: orchard/esplanade_demod.c, [FSKdemod] on the state [demod], with the
      calls it makes as a trace of events.
    - [Flash]: orchard/flash.c on the device [ftfx]; the flash controller is the class
      [FlashController] with the laws [FlashLaws], of which [flaky] is an instance.
    - [Updater]: orchard/esplanade_updater.c and appIsValid of esplanade_app.c,
      [updaterPacketProcess] on the state [updater].
    - [Main]: orchard/main.c and esplanade_analog.c, the composition of the above as
      the interleaving of the thread's steps and the interrupts ([sys_step]).
    - [Random]: orchard/arduino-math.c.
    - [Pins]: orchard/arduino-io.c, the pad driver of the KL02, and ledShow of ws2812b.c.
    - [Irqs]: orchard/arduino-irqs.c and the interrupt priorities of esplanade_app.c.
    - [Timers]: os/rt/src/chvt.c, the delta list of the virtual timers.
    - [SoftPwm]: orchard/arduino-pwm.c, arduino-tone.c, lptmr.c.
    - [Callbacks]: orchard/arduino-chibios.c, timer callbacks, on [Timers].
    - [Heap]: os/rt/src/chheap.c, chmemcore.c and malloc, free, realloc of
      esplanade_app.c.
    - [Streams], [Printf]: os/hal/lib/streams/memstreams.c and the streams as the class
      [Stream]; chprintf.c on any stream, orchard/printf.c and the itoa family.
    - [Queues]: the doubly linked thread queues of os/rt/include/chschd.h, on the memory
      [links], and the abstract queues they represent ([linked]).
    - [Sched]: os/rt/src/chschd.c, chthreads.c, chsem.c and the signals of chcond.c on the
      state [kernel]: the scheduler, threads and semaphores.
    - [SchedOk]: the invariant of [kernel], kept by every operation.
    - [Kernel]: [kernel] run by system calls and interrupts ([event]) from its start.
    - [Mutex]: os/rt/src/chmtx.c and the waits of chcond.c on the state [mkernel]: mutexes
      with priority inheritance, run with the events of [Kernel] ([mevent]).
    - [Events]: os/rt/src/chevents.c on the state [estate]: sources, listeners, signals and
      waits, run with the events of [Kernel] ([eevent]).
    - [Ring], [IOQueues]: circular buffers, and os/rt/src/chqueues.c on them.
    - [Mailboxes]: os/rt/src/chmboxes.c on the semaphores of [Sched], run with the events of
      [Kernel] ([mb_op]).
    - [Messages]: os/rt/src/chmsg.c on the queues of [Sched] ([msg_op]), with the abstract
      state [post].
    - [Serial]: os/hal/src/serial.c and the KL02 driver serial_lld.c on the state [serial],
      run with the threads, the interrupts and the UART, which is the class [Uart] with the
      laws [UartLaws] ([sd_op]).
    - [I2c]: os/hal/src/i2c.c, the KINETIS driver i2c_lld.c and the start of the driver in
      orchard/arduino-i2c.c on the state [i2c], run with the calling threads, interrupts and
      the controller, which is the class [I2cBus] with the laws [I2cLaws] ([i2c_op]).
    - [SchedFrames]: which timers and thread references the operations of [Sched] leave
      alone.
    - [Clock]: [kernel] and the timers of [Timers] in one state [tkernel] ([tevent]): the
      waits with a time-out of chschd.c, the tick of chsys.c and st_lld.c, the sleeps of
      chthreads.c, the conversions of chvt.h, orchard/arduino-time.c.
    - [SchedCold]: which links, states and messages of threads that are in no queue the
      operations of [Sched] leave alone.
    - [Lifecycle]: the end of threads: the rest of os/rt/src/chthreads.c, chdynamic.c and
      chregistry.c on the state [lstate], run with the events of [Kernel] ([life_op]), with
      the abstract state [life].
    - [Sketch]: the rest of orchard/arduino-chibios.c, the calls of a sketch to the kernel.

    The state of a component is a Record whose fields have the names of the C
    variables; a C function is a Definition of the same name that takes and returns the
    state.  Integers are [Z] and wrap where the C type does ([u8], [u16], [u32], [s8],
    [s32] below).  Memory is a function from addresses to bytes where addresses matter
    (runtime, flash, heap) and a list where an array is enough.  [None] stands for what
    the C code must not do, such as a store outside of an array, a division by zero or
    running out of fuel; theorems show that it does not happen, or exactly when it does.

    ** What the theorems show

    - The update path: every session of packets, in any order, repeated, and with power
      cycles between packets, ends with the transmitted image programmed and started
      ([Updater.session_refines], a refinement of "the set of received blocks"); on any
      device, faulty ones included, the boot loader's own sectors never change and
      nothing is started that is not complete and valid; damaged packets change nothing.
    - The receiver: the demodulator's compacting buffer is a sliding window, its
      arithmetic is exact, the bit rate is bounded; the MAC is memory safe on any bits
      and receives every frame after a preamble; no interleaving of thread and
      interrupts leaves the bounds of an array, tears a buffer or overwrites a packet.
    - The flash driver: exact effect and return code, confinement to the addressed range.
    - Timers, callbacks and heap: refinements of abstract specifications (a set of
      timers with the ticks they have left; a list of blocks) for any sequence of calls,
      and from these the properties a caller wants: a timer fires exactly once and at
      its delay; allocated blocks are fresh, disjoint and keep their contents; freeing
      restores the heap.
    - The scheduler: every operation on the linked queues is the list operation it means
      ([Queues.queues_refine]); after any sequence of system calls and interrupts the
      ready list is sorted and holds the ready threads, the running thread is one of the
      highest priority, and the counters of semaphores agree with their queues
      ([Kernel.scheduler_invariant]); semaphores serve in order of arrival; threads of
      equal priority share the processor by time slices; every thread has exactly the
      greatest of its own priority and those of the threads that wait for its mutexes
      ([Mutex.priority_inheritance]), except after chThdSetPriority in a case that
      [Mutex.set_priority_inverts] describes.
    - Communication: no event is lost and a wait ends only when its condition holds or its
      time is over ([Events.no_event_lost], [Events.event_wait_returns]); the serial
      driver neither loses, invents nor reorders bytes, whatever waits, interrupts and
      transfers are interleaved ([Serial.serial_in_order]); a mailbox is a bounded
      double-ended queue under the same conditions ([Mailboxes.mailbox_is_deque]), unless
      it is reset while a woken thread has not run yet ([Mailboxes.mailbox_reset_race]);
      every message is received in order by the thread it was sent to and answered once
      ([Messages.messages_answered]).  A thread that waits for the end of another returns
      once with its exit code, all that wait are woken, and the memory of a thread is freed
      once, when it has ended and nobody refers to it ([Lifecycle.thread_lifecycle]); the
      registry can show a thread that is gone ([Lifecycle.dead_thread_listed]).
      The I2C driver makes on the bus exactly the dialogue of each request, or reports why
      it stopped ([I2c.transfers_correct]), and a transfer that is acknowledged succeeds
      ([I2c.transfer_succeeds]).
    - Time: the virtual timers implement the time-outs that [Sched] treats as flags
      ([Clock.timers_implement_timeouts]); a thread in delay() or chThdSleepUntil becomes
      ready at the tick it asked for and not before ([Clock.delay_wakes_on_time],
      [Clock.sleep_until_wakes]); millis() counts the ticks.
    - Formatted output: chvprintf writes exactly the text that a specification of the
      directives gives, on any stream; chsnprintf stays in its buffer; itoa is read back.
    - The Arduino layer: pin protection, pad modes, waveforms, ranges.
    - Where the code does not do what it means to, a theorem states what it does; these
      are the findings of the manifest (for example [Flash.flashProgram_masks_failure],
      [Timers.zero_delay_stalls], [Heap.malloc_wraps], [Mutex.set_priority_inverts],
      [Serial.put_without_reschedule], [I2c.zero_bytes_overrun],
      [I2c.second_start_truncates], [Clock.delay_zero_stalls], [Sketch.createThread_returns]).

    ** Fuel and bounds

    A loop over a linked structure or a string takes a fuel.  The theorems give the
    amount that is enough, and that the result is then a result: the length of the
    string ([Aeabi]), one more than the number of armed timers ([Timers], [Clock]), one per
    eight bytes of the heap area ([Heap]), one more than the number of threads
    ([Queues], [SchedOk], [Lifecycle]) or of objects ([Mutex]).  All other loops are structural on a count
    the code computes.

    ** What is not modelled

    - Assembly (svc_handler.s, ws2812b_ll.s), empty functions, and the register-level
      drivers of the HAL beyond the pads, the UART and I2C: the effect of the hardware
      registers on the hardware is not described by the sources.  Of the clock gates and the
      interrupt controller only what a driver reads back is modelled; the I2C controller is
      the only master of its bus, and the mutex that i2cTransceive takes is not composed
      with the driver (it is one of [Mutex]).
    - The floating-point generation of the filter tables at build time: they are
      arguments, of which only size and amplitude are assumed.
    - The conversion of a float to text (assembly), and the trace and assertion macros the
      build disables.
    - The rest of the kernel: the names of threads and the layout record for debuggers in
      the registry; the use of freed memory for another thread; memory pools, statistics and
      tracing, which the configuration disables; the stack and registers of a thread (the
      switch is assembly).  The scheduler assumes what the kernel's documentation asks: the idle
      thread (the main thread, in this configuration) does not block, and priorities are
      positive.
    - The Nil kernel, the ports for other chips, the vendor headers, demos and tests of
      the ChibiOS tree: the firmware does not contain them. *)
From Stdlib Require Export ZArith Lia Bool List.
From stdpp Require Export base list gmap option.
Export ListNotations.
#[export] Set Default Goal Selector "!".
Global Open Scope Z_scope.

(** ** Machine integers

    A C integer of width [w] is a [Z]; every arithmetic operation whose C type
    is unsigned wraps with [u8]/[u16]/[u32]/[u64], every signed one that the
    compiler wraps (gcc on ARM, two's complement) with [s8]/[s16]/[s32]. *)

Definition u8 (z : Z) : Z := z mod 2 ^ 8.
Definition u16 (z : Z) : Z := z mod 2 ^ 16.
Definition u32 (z : Z) : Z := z mod 2 ^ 32.
Definition u64 (z : Z) : Z := z mod 2 ^ 64.
Definition s8 (z : Z) : Z := (z + 2 ^ 7) mod 2 ^ 8 - 2 ^ 7.
Definition s16 (z : Z) : Z := (z + 2 ^ 15) mod 2 ^ 16 - 2 ^ 15.
Definition s32 (z : Z) : Z := (z + 2 ^ 31) mod 2 ^ 32 - 2 ^ 31.
Definition s64 (z : Z) : Z := (z + 2 ^ 63) mod 2 ^ 64 - 2 ^ 63.

(** Ranges of the machine types. *)
Abbreviation is_u8 z := (0 <= z < 256).
Abbreviation is_u16 z := (0 <= z < 65536).
Abbreviation is_u32 z := (0 <= z < 4294967296).

(** A proof of a goal about wrapped arithmetic: unfold the wraps, evaluate the
    powers and let [lia] decide the [mod]/[div] equations. *)
Ltac wrap_unfold :=
  unfold u8, u16, u32, u64, s8, s16, s32, s64 in *;
  change (2 ^ 7) with 128 in *; change (2 ^ 8) with 256 in *;
  change (2 ^ 15) with 32768 in *; change (2 ^ 16) with 65536 in *;
  change (2 ^ 31) with 2147483648 in *; change (2 ^ 32) with 4294967296 in *;
  change (2 ^ 63) with 9223372036854775808 in *;
  change (2 ^ 64) with 18446744073709551616 in *.
Ltac wrap_lia := wrap_unfold; Z.div_mod_to_equations; lia.

Lemma u8_range z : is_u8 (u8 z).
Proof. wrap_lia. Qed.
Lemma u16_range z : is_u16 (u16 z).
Proof. wrap_lia. Qed.
Lemma u32_range z : is_u32 (u32 z).
Proof. wrap_lia. Qed.
Lemma u8_id z : is_u8 z -> u8 z = z.
Proof. intros. apply Z.mod_small. lia. Qed.
Lemma u16_id z : is_u16 z -> u16 z = z.
Proof. intros. apply Z.mod_small. lia. Qed.
Lemma u32_id z : is_u32 z -> u32 z = z.
Proof. intros. apply Z.mod_small. lia. Qed.
Lemma s32_id z : -2147483648 <= z < 2147483648 -> s32 z = z.
Proof. intros. wrap_lia. Qed.
Lemma s8_id z : -128 <= z < 128 -> s8 z = z.
Proof. intros. wrap_lia. Qed.
Lemma u32_u32 z : u32 (u32 z) = u32 z.
Proof. apply u32_id, u32_range. Qed.

(** ** Bit-level reasoning

    [bits] collects the [testbit] equations of the operators the code uses;
    [bit_ext] reduces an equality of two [n]-bit numbers to their bits. *)

Create HintDb bits.
#[export] Hint Rewrite Z.lxor_spec Z.lor_spec Z.land_spec : bits.
#[export] Hint Rewrite Z.shiftr_spec Z.shiftl_spec using lia : bits.
#[export] Hint Rewrite Z.bits_0 : bits.

Lemma testbit_high (n a i : Z) : 0 <= a < 2 ^ n -> n <= i -> Z.testbit a i = false.
Proof.
  intros Ha Hi. destruct (decide (0 <= n)) as [Hn|Hn].
  - rewrite <- (Z.mod_small a (2 ^ n)) by lia. apply Z.mod_pow2_bits_high. lia.
  - rewrite Z.pow_neg_r in Ha by lia. lia.
Qed.

Lemma bit_ext (n a b : Z) :
  0 <= a < 2 ^ n -> 0 <= b < 2 ^ n ->
  (forall i, 0 <= i < n -> Z.testbit a i = Z.testbit b i) -> a = b.
Proof.
  intros Ha Hb H. apply Z.bits_inj'. intros i Hi.
  destruct (decide (i < n)) as [Hlt|Hge].
  - apply H. lia.
  - rewrite !(testbit_high n) by lia. done.
Qed.

Lemma range_by_bits (n a : Z) :
  0 <= n -> 0 <= a -> (forall i, n <= i -> Z.testbit a i = false) -> 0 <= a < 2 ^ n.
Proof.
  intros Hn Ha H. split; [done|].
  assert (a = a mod 2 ^ n) as ->.
  { apply Z.bits_inj'. intros i Hi. destruct (decide (i < n)).
    - by rewrite Z.mod_pow2_bits_low by lia.
    - rewrite Z.mod_pow2_bits_high by lia. apply H. lia. }
  apply Z.mod_pos_bound. lia.
Qed.

Lemma lxor_range (n a b : Z) :
  0 <= n -> 0 <= a < 2 ^ n -> 0 <= b < 2 ^ n -> 0 <= Z.lxor a b < 2 ^ n.
Proof.
  intros Hn Ha Hb. apply range_by_bits; [done| |].
  - apply Z.lxor_nonneg. lia.
  - intros i Hi. rewrite Z.lxor_spec, !(testbit_high n) by lia. done.
Qed.

Lemma lor_range (n a b : Z) :
  0 <= n -> 0 <= a < 2 ^ n -> 0 <= b < 2 ^ n -> 0 <= Z.lor a b < 2 ^ n.
Proof.
  intros Hn Ha Hb. apply range_by_bits; [done| |].
  - apply Z.lor_nonneg. lia.
  - intros i Hi. rewrite Z.lor_spec, !(testbit_high n) by lia. done.
Qed.

Lemma land_range (n a b : Z) : 0 <= n -> 0 <= b < 2 ^ n -> 0 <= Z.land a b < 2 ^ n.
Proof.
  intros Hn Hb. apply range_by_bits; [done| |].
  - apply Z.land_nonneg. lia.
  - intros i Hi. rewrite Z.land_spec, (testbit_high n b) by lia. apply andb_false_r.
Qed.

Lemma shiftr_range (n a k : Z) :
  0 <= n -> 0 <= k -> 0 <= a < 2 ^ n -> 0 <= Z.shiftr a k < 2 ^ n.
Proof.
  intros Hn Hk Ha. rewrite Z.shiftr_div_pow2 by lia.
  assert (0 < 2 ^ k) by lia. split.
  - apply Z.div_pos; lia.
  - apply Z.le_lt_trans with a; [|lia]. apply Z.div_le_upper_bound; nia.
Qed.

Lemma lxor_u32 a b : is_u32 a -> is_u32 b -> is_u32 (Z.lxor a b).
Proof. apply (lxor_range 32). lia. Qed.
Lemma lxor_u8 a b : is_u8 a -> is_u8 b -> is_u8 (Z.lxor a b).
Proof. apply (lxor_range 8). lia. Qed.
Lemma lor_u8 a b : is_u8 a -> is_u8 b -> is_u8 (Z.lor a b).
Proof. apply (lor_range 8). lia. Qed.

(** A product by an odd constant is undone by the product by its inverse. *)
Lemma u32_mul_inv (x c d : Z) :
  is_u32 x -> u32 (c * d) = 1 -> u32 (u32 (x * c) * d) = x.
Proof.
  unfold u32. intros Hx Hcd.
  rewrite Z.mul_mod_idemp_l by lia. rewrite <- Z.mul_assoc.
  rewrite <- Z.mul_mod_idemp_r, Hcd, Z.mul_1_r by lia. apply Z.mod_small. lia.
Qed.

(** ** Byte memories

    A byte-addressed memory (RAM image, flash array, or the bytes of one packet
    buffer) is a total function from addresses to bytes; the code's pointer
    dereference [p[i]] is [m (p + i)].  The target (Cortex-M0) is
    little-endian: [get16]/[get32] read the bytes of an aligned halfword/word. *)

Abbreviation mem := (Z -> Z).

Definition get16 (m : mem) (a : Z) : Z := m a + 2 ^ 8 * m (a + 1).
Definition get32 (m : mem) (a : Z) : Z :=
  m a + 2 ^ 8 * m (a + 1) + 2 ^ 16 * m (a + 2) + 2 ^ 24 * m (a + 3).

Definition put8 (m : mem) (a v : Z) : mem := fun x => if x =? a then v else m x.

(** The interval tests [(a <=? x) && (x <? b)] of the definitions below. *)
Lemma in_range a x b : a <= x < b -> (a <=? x) && (x <? b) = true.
Proof. lia. Qed.
Lemma out_of_range a x b : x < a \/ b <= x -> (a <=? x) && (x <? b) = false.
Proof. lia. Qed.

(** Byte [k] of a word. *)
Definition byte_of (w k : Z) : Z := u8 (Z.shiftr w (8 * k)).

Definition put32 (m : mem) (a w : Z) : mem :=
  fun x => if (a <=? x) && (x <? a + 4) then byte_of w (x - a) else m x.

(** A packet buffer, an array or a RAM image kept as a list of bytes. *)
Definition bytes_at (l : list Z) : mem := fun i => nth (Z.to_nat i) l 0.

(** All bytes of a region are bytes. *)
Definition byte_mem (m : mem) : Prop := forall a, is_u8 (m a).

(** Two memories agree outside of [lo, hi). *)
Definition same_outside (lo hi : Z) (m m' : mem) : Prop :=
  forall x, x < lo \/ hi <= x -> m' x = m x.

Lemma get32_range m a : byte_mem m -> is_u32 (get32 m a).
Proof.
  intros H. unfold get32.
  pose proof (H a). pose proof (H (a + 1)). pose proof (H (a + 2)). pose proof (H (a + 3)).
  change (2 ^ 8) with 256. change (2 ^ 16) with 65536. change (2 ^ 24) with 16777216. lia.
Qed.

Lemma get16_range m a : byte_mem m -> is_u16 (get16 m a).
Proof. intros H. unfold get16. pose proof (H a). pose proof (H (a + 1)). lia. Qed.

Lemma get32_ext m m' a :
  (forall k, 0 <= k < 4 -> m (a + k) = m' (a + k)) -> get32 m a = get32 m' a.
Proof.
  intros H. unfold get32.
  rewrite <- (Z.add_0_r a) at 1 5. rewrite !H by lia. done.
Qed.

Lemma byte_of_range w k : is_u8 (byte_of w k).
Proof. apply u8_range. Qed.

Lemma byte_of_div w k : 0 <= k -> byte_of w k = (w / 2 ^ (8 * k)) mod 256.
Proof. intros. unfold byte_of, u8. rewrite Z.shiftr_div_pow2 by lia. done. Qed.

(** The four bytes of a word determine it. *)
Lemma word_of_bytes w :
  is_u32 w ->
  byte_of w 0 + 2 ^ 8 * byte_of w 1 + 2 ^ 16 * byte_of w 2 + 2 ^ 24 * byte_of w 3 = w.
Proof.
  intros Hw. rewrite !byte_of_div by lia.
  change (2 ^ (8 * 0)) with 1. change (2 ^ (8 * 1)) with 256.
  change (2 ^ (8 * 2)) with 65536. change (2 ^ (8 * 3)) with 16777216.
  change (2 ^ 8) with 256. change (2 ^ 16) with 65536. change (2 ^ 24) with 16777216.
  Z.div_mod_to_equations. lia.
Qed.

Lemma get32_bytes_inj m m' a a' :
  byte_mem m -> byte_mem m' -> get32 m a = get32 m' a' ->
  forall k, 0 <= k < 4 -> m (a + k) = m' (a' + k).
Proof.
  intros Hm Hm' H k Hk. unfold get32 in H.
  change (2 ^ 8) with 256 in H. change (2 ^ 16) with 65536 in H.
  change (2 ^ 24) with 16777216 in H.
  pose proof (Hm a). pose proof (Hm (a + 1)). pose proof (Hm (a + 2)). pose proof (Hm (a + 3)).
  pose proof (Hm' a'). pose proof (Hm' (a' + 1)). pose proof (Hm' (a' + 2)).
  pose proof (Hm' (a' + 3)).
  assert (k = 0 \/ k = 1 \/ k = 2 \/ k = 3) as [->|[->|[->| ->]]] by lia;
    rewrite ?Z.add_0_r; lia.
Qed.

Lemma get32_put32 m a w : is_u32 w -> get32 (put32 m a w) a = w.
Proof.
  intros Hw. unfold get32, put32.
  repeat match goal with
         | |- context [(?x <=? ?y) && (?z <? ?t)] =>
             replace ((x <=? y) && (z <? t)) with true by (symmetry; lia)
         end.
  rewrite Z.sub_diag.
  replace (a + 1 - a) with 1 by lia. replace (a + 2 - a) with 2 by lia.
  replace (a + 3 - a) with 3 by lia. by apply word_of_bytes.
Qed.

Lemma put32_other m a w x : x < a \/ a + 4 <= x -> put32 m a w x = m x.
Proof.
  intros H. unfold put32.
  replace ((a <=? x) && (x <? a + 4)) with false; [done|symmetry; lia].
Qed.

Lemma put32_byte_mem m a w : byte_mem m -> byte_mem (put32 m a w).
Proof. intros H x. unfold put32. case_match; [apply byte_of_range|apply H]. Qed.

Lemma bytes_at_byte_mem l : Forall (fun b => is_u8 b) l -> byte_mem (bytes_at l).
Proof.
  intros H a. unfold bytes_at.
  destruct (decide (Z.to_nat a < length l)%nat) as [Hl|Hl].
  - rewrite List.Forall_forall in H. apply H, nth_In. done.
  - rewrite nth_overflow by lia. lia.
Qed.

Lemma same_outside_refl lo hi m : same_outside lo hi m m.
Proof. intros x _. done. Qed.
Lemma same_outside_trans lo hi m1 m2 m3 :
  same_outside lo hi m1 m2 -> same_outside lo hi m2 m3 -> same_outside lo hi m1 m3.
Proof. intros H12 H23 x Hx. rewrite (H23 x Hx). by apply H12. Qed.
Lemma same_outside_weaken lo hi lo' hi' m m' :
  same_outside lo hi m m' -> lo' <= lo -> hi <= hi' -> same_outside lo' hi' m m'.
Proof. intros H ? ? x Hx. apply H. lia. Qed.
Lemma put32_outside m a w lo hi :
  lo <= a -> a + 4 <= hi -> same_outside lo hi m (put32 m a w).
Proof. intros ? ? x Hx. apply put32_other. lia. Qed.

#[export] Hint Resolve same_outside_refl put32_byte_mem byte_of_range get32_range : core.

(** ** Arrays

    A C array of fixed size is a list; a store or a load outside of its bounds
    is [None]. *)

(** An array store [a[i] = v]; [None] when [i] is outside of the array. *)
Definition store (a : list Z) (i v : Z) : option (list Z) :=
  if (0 <=? i) && (i <? Z.of_nat (length a)) then Some (<[Z.to_nat i := v]> a) else None.

(** An array load [a[i]]. *)
Definition load (a : list Z) (i : Z) : option Z :=
  if 0 <=? i then a !! Z.to_nat i else None.

Lemma store_in a i v :
  0 <= i < Z.of_nat (length a) -> store a i v = Some (<[Z.to_nat i := v]> a).
Proof.
  intros H. unfold store.
  replace ((0 <=? i) && (i <? Z.of_nat (length a))) with true; [done|symmetry; lia].
Qed.

Lemma store_length a i v a' : store a i v = Some a' -> length a' = length a.
Proof. unfold store. case_match; [|done]. intros [= <-]. apply length_insert. Qed.

Lemma bytes_at_lookup l i : bytes_at l i = default 0 (l !! Z.to_nat i).
Proof. unfold bytes_at. by rewrite nth_lookup. Qed.

Lemma bytes_at_take l n i : (Z.to_nat i < n)%nat -> bytes_at (take n l) i = bytes_at l i.
Proof. intros H. by rewrite !bytes_at_lookup, lookup_take_lt. Qed.


(** The bytes of a word read from memory. *)
Lemma byte_of_get32 m a k : byte_mem m -> 0 <= k < 4 -> byte_of (get32 m a) k = m (a + k).
Proof.
  intros Hm Hk. rewrite byte_of_div by lia. unfold get32.
  pose proof (Hm a). pose proof (Hm (a + 1)). pose proof (Hm (a + 2)). pose proof (Hm (a + 3)).
  change (2 ^ 8) with 256. change (2 ^ 16) with 65536. change (2 ^ 24) with 16777216.
  assert (k = 0 \/ k = 1 \/ k = 2 \/ k = 3) as [->|[->|[->| ->]]] by lia;
    [change (2 ^ (8 * 0)) with 1; rewrite Z.add_0_r|change (2 ^ (8 * 1)) with 256
    |change (2 ^ (8 * 2)) with 65536|change (2 ^ (8 * 3)) with 16777216];
    Z.div_mod_to_equations; lia.
Qed.
