(* ===== verification/Aeabi.v ===== *)
(** The C runtime of the boot loader (orchard/__aeabi.c, orchard/math.c):
    character classes, number parsing, block and string functions, and the 64-bit
    comparisons of the ARM run-time ABI.

    Memory is a byte memory [mem]; a pointer is its address and NULL is 0; a C
    [char] is an unsigned byte (the ARM ABI's default).  The functions that scan
    for a terminator take a [fuel]; [None] is "not terminated within the fuel", and
    a theorem gives the fuel that is enough for a terminated string.

    Proved: memcpy copies exactly when the destination does not start inside of
    the source, memmove is the same forward copy and therefore replicates the
    first bytes periodically when it does; strncmp is the lexicographic order for
    every bound but 0; simple_strtoul evaluates every numeral modulo 2^32;
    __aeabi_ulcmp is the order of 64-bit numbers, __aeabi_lcmp is not. *)
From S2P Require Import Prelude.
Local Open Scope Z_scope.

(** ** Character classes *)

Definition chr_0 : Z := 48.
Definition chr_9 : Z := 57.
Definition chr_A : Z := 65.
Definition chr_F : Z := 70.
Definition chr_Z : Z := 90.
Definition chr_a : Z := 97.
Definition chr_f : Z := 102.
Definition chr_x : Z := 120.
Definition chr_z : Z := 122.
Definition chr_minus : Z := 45.

Definition _isspace (c : Z) : bool :=
  (c =? 32) || (c =? 12) || (c =? 10) || (c =? 13) || (c =? 9) || (c =? 11).
Definition _isdigit (c : Z) : bool := (chr_0 <=? c) && (c <=? chr_9).
Definition _isxdigit (c : Z) : bool :=
  ((chr_0 <=? c) && (c <=? chr_9)) || ((chr_a <=? c) && (c <=? chr_f))
  || ((chr_A <=? c) && (c <=? chr_F)).
Definition _isupper (c : Z) : bool := (chr_A <=? c) && (c <=? chr_Z).
Definition _islower (c : Z) : bool := (chr_a <=? c) && (c <=? chr_z).
Definition _isalpha (c : Z) : bool := _isupper c || _islower c.
Definition _isalnum (c : Z) : bool := _isalpha c || _isdigit c.
Definition _toupper (c : Z) : Z := if negb (_islower c) then c else c - (chr_a - chr_A).

(** ** Numbers *)

(** The value of one digit in the condition of the loop of [simple_strtoul]. *)
Definition digit_value (c : Z) : Z :=
  if _isdigit c then c - chr_0
  else (if _islower c then _toupper c else c) - chr_A + 10.

Fixpoint strtoul_loop (fuel : nat) (m : mem) (cp base result : Z) : option (Z * Z) :=
  match fuel with
  | O => None
  | S fuel =>
      if _isxdigit (m cp) && (digit_value (m cp) <? base)
      then strtoul_loop fuel m (cp + 1) base (u32 (result * base + digit_value (m cp)))
      else Some (result, cp)
  end.

(** The prefixes: the pointer and the base the loop starts with. *)
Definition strtoul_prefix (m : mem) (cp base : Z) : Z * Z :=
  let '(cp, base) :=
    if m cp =? chr_0 then
      let cp := cp + 1 in
      let '(cp, base) :=
        if (m cp =? chr_x) && _isxdigit (m (cp + 1)) then (cp + 1, 16) else (cp, base) in
      let base := if base =? 0 then 8 else base in
      (cp, base)
    else (cp, base) in
  (cp, if base =? 0 then 10 else base).

(** Returns the value and the pointer stored to [*endp]. *)
Definition simple_strtoul (fuel : nat) (m : mem) (cp base : Z) : option (Z * Z) :=
  if cp =? 0 then Some (0, 0)
  else let '(cp, base) := strtoul_prefix m cp base in strtoul_loop fuel m cp base 0.

Definition simple_strtol (fuel : nat) (m : mem) (cp base : Z) : option (Z * Z) :=
  if m cp =? chr_minus then
    match simple_strtoul fuel m (cp + 1) base with
    | None => None
    | Some (v, e) => Some (s32 (u32 (- v)), e)
    end
  else
    match simple_strtoul fuel m cp base with
    | None => None
    | Some (v, e) => Some (s32 v, e)
    end.

(** ** Blocks of memory *)

(** [while (length--) *ptr++ = val;] on words, and on bytes. *)
Fixpoint memset_words (n : nat) (ptr val : Z) (m : mem) : mem :=
  match n with O => m | S n => memset_words n (ptr + 4) val (put32 m ptr val) end.
Definition memset_aligned (dst0 val length : Z) (m : mem) : mem :=
  memset_words (Z.to_nat (length / 4)) dst0 (u32 val) m.

Fixpoint memset_bytes (n : nat) (ptr val : Z) (m : mem) : mem :=
  match n with O => m | S n => memset_bytes n (ptr + 1) val (put8 m ptr val) end.
Definition memset (dst0 val length : Z) (m : mem) : mem :=
  memset_bytes (Z.to_nat length) dst0 (u8 val) m.
Definition memclr (dst0 length : Z) (m : mem) : mem := memset dst0 0 length m.

(** [for (i = 0; i < n; i++) d[i] = s[i];] on bytes, and on words. *)
Fixpoint copy_bytes (n : nat) (d s : Z) (m : mem) : mem :=
  match n with O => m | S n => copy_bytes n (d + 1) (s + 1) (put8 m d (m s)) end.
Definition memcpy (dest src n : Z) (m : mem) : mem := copy_bytes (Z.to_nat n) dest src m.
Definition memmove (dest src n : Z) (m : mem) : mem := memcpy dest src n m.

Fixpoint copy_words (n : nat) (d s : Z) (m : mem) : mem :=
  match n with O => m | S n => copy_words n (d + 4) (s + 4) (put32 m d (get32 m s)) end.
Definition memcpy_aligned (dest src n : Z) (m : mem) : mem :=
  copy_words (Z.to_nat (n / 4)) dest src m.
Definition memmove_aligned (dest src n : Z) (m : mem) : mem := memcpy_aligned dest src n m.

(** The loop of memcmp; [n] is the value of [n] before [n--]. *)
Fixpoint memcmp_loop (n : nat) (m1 : mem) (s1 : Z) (m2 : mem) (s2 : Z) : Z :=
  match n with
  | O => 0
  | S n => if negb (m1 s1 =? m2 s2) then m1 s1 - m2 s2
           else memcmp_loop n m1 (s1 + 1) m2 (s2 + 1)
  end.

(** The two operands may be in different memories (flash and RAM). *)
Definition memcmp (m1 : mem) (s1 : Z) (m2 : mem) (s2 : Z) (n : Z) : Z :=
  if (s1 =? 0) && (s2 =? 0) then 0
  else if s1 =? 0 then -1
  else if s2 =? 0 then 1
  else memcmp_loop (Z.to_nat n) m1 s1 m2 s2.

(** ** Strings *)

(** The two loops of strncpy; [n] is [n - i]. *)
Fixpoint strncpy_loop (n : nat) (copying : bool) (d s : Z) (m : mem) : mem :=
  match n with
  | O => m
  | S n => if copying && negb (m s =? 0)
           then strncpy_loop n true (d + 1) (s + 1) (put8 m d (m s))
           else strncpy_loop n false (d + 1) s (put8 m d 0)
  end.
Definition strncpy (dest src n : Z) (m : mem) : Z * mem :=
  if (dest =? 0) || (src =? 0) then (0, m)
  else (dest, strncpy_loop (Z.to_nat n) true dest src m).

Fixpoint strcpy_loop (fuel : nat) (d s : Z) (m : mem) : option mem :=
  match fuel with
  | O => None
  | S fuel => if negb (m s =? 0) then strcpy_loop fuel (d + 1) (s + 1) (put8 m d (m s))
              else Some (put8 m d 0)
  end.
Definition strcpy (fuel : nat) (dest src : Z) (m : mem) : option (Z * mem) :=
  if (dest =? 0) || (src =? 0) then Some (0, m)
  else match strcpy_loop fuel dest src m with None => None | Some m => Some (dest, m) end.

Fixpoint strchr (fuel : nat) (m : mem) (s c : Z) : option Z :=
  match fuel with
  | O => None
  | S fuel => if negb (m s =? 0) && negb (m s =? c) then strchr fuel m (s + 1) c
              else Some (if m s =? c then s else 0)
  end.

(** The loop of strncmp; [--n] wraps because [n] is a [size_t]. *)
Fixpoint strncmp_loop (fuel : nat) (m : mem) (s1 s2 n : Z) : option Z :=
  match fuel with
  | O => None
  | S fuel =>
      if m s1 =? m s2 then
        if m s1 =? 0 then Some 0
        else
          let n := u32 (n - 1) in
          if n <=? 0 then Some 0 else strncmp_loop fuel m (s1 + 1) (s2 + 1) n
      else Some (m s1 - m s2)
  end.
Definition strncmp (fuel : nat) (m : mem) (s1 s2 n : Z) : option Z :=
  if (s1 =? 0) && (s2 =? 0) then Some 0
  else if s1 =? 0 then Some (-1)
  else if s2 =? 0 then Some 1
  else strncmp_loop fuel m s1 s2 n.
Definition strcmp (fuel : nat) (m : mem) (s1 s2 : Z) : option Z :=
  strncmp fuel m s1 s2 (u32 (-1)).

Fixpoint strlen_loop (fuel : nat) (m : mem) (s i : Z) : option Z :=
  match fuel with
  | O => None
  | S fuel => if negb (m (s + i) =? 0) then strlen_loop fuel m s (s32 (i + 1)) else Some (u32 i)
  end.
Definition strlen (fuel : nat) (m : mem) (s : Z) : option Z :=
  if s =? 0 then Some 0 else strlen_loop fuel m s 0.

(** ** 64-bit comparison (math.c) *)

(** The members of [union uu]: two signed and two unsigned words. *)
Definition uu_sl_L (q : Z) : Z := s32 q.
Definition uu_sl_H (q : Z) : Z := s32 (Z.shiftr q 32).
Definition uu_ul_L (q : Z) : Z := u32 q.
Definition uu_ul_H (q : Z) : Z := u32 (Z.shiftr q 32).

Definition __aeabi_lcmp (a b : Z) : Z :=
  if uu_sl_H a <? uu_sl_H b then -1
  else if uu_sl_H b <? uu_sl_H a then 1
  else if uu_sl_L a <? uu_sl_L b then -1
  else if uu_sl_L b <? uu_sl_L a then 1
  else 0.

Definition __aeabi_ulcmp (a b : Z) : Z :=
  if uu_ul_H a <? uu_ul_H b then -1
  else if uu_ul_H b <? uu_ul_H a then 1
  else if uu_ul_L a <? uu_ul_L b then -1
  else if uu_ul_L b <? uu_ul_L a then 1
  else 0.

(** ** Lemmas: blocks *)

Lemma put8_eq m a v : put8 m a v a = v.
Proof. unfold put8. by rewrite Z.eqb_refl. Qed.
Lemma put8_ne m a v x : x <> a -> put8 m a v x = m x.
Proof. intros H. unfold put8. by apply Z.eqb_neq in H as ->. Qed.

Lemma copy_bytes_outside n : forall d s m x,
  x < d \/ d + Z.of_nat n <= x -> copy_bytes n d s m x = m x.
Proof.
  induction n as [|n IH]; intros d s m x Hx; cbn [copy_bytes]; [done|].
  rewrite IH by lia. apply put8_ne. lia.
Qed.

(** The forward copy, for every position of the two blocks: byte [i] of the result
    is byte [i] of the source as the copy found it, which is an earlier byte of the
    destination when the destination starts inside of the source. *)
Lemma copy_bytes_at n : forall d s m i,
  0 <= i < Z.of_nat n ->
  copy_bytes n d s m (d + i) =
  (if (d <=? s + i) && (s + i <? d + i) then copy_bytes n d s m (s + i) else m (s + i)).
Proof.
  induction n as [|n IH]; intros d s m i Hi; [lia|]. cbn [copy_bytes].
  destruct (decide (i = 0)) as [->|Hn0].
  - rewrite !Z.add_0_r, copy_bytes_outside, put8_eq by lia.
    by replace ((d <=? s) && (s <? d)) with false by lia.
  - replace (d + i) with (d + 1 + (i - 1)) by lia. rewrite IH by lia.
    replace (s + 1 + (i - 1)) with (s + i) by lia.
    destruct (decide (s + i = d)) as [Hd|Hd].
    + replace ((d + 1 <=? s + i) && (s + i <? d + 1 + (i - 1))) with false by lia.
      replace ((d <=? s + i) && (s + i <? d + 1 + (i - 1))) with true by lia.
      rewrite Hd, put8_eq, copy_bytes_outside, put8_eq by lia. done.
    + replace (d + 1 <=? s + i) with (d <=? s + i) by lia.
      destruct (_ && _); [done|]. by rewrite put8_ne by lia.
Qed.

(** The copy is exact when the destination does not start inside of the source. *)
Lemma memcpy_exact dest src n m :
  0 <= n -> dest <= src \/ src + n <= dest ->
  (forall i, 0 <= i < n -> memcpy dest src n m (dest + i) = m (src + i)) /\
  same_outside dest (dest + n) m (memcpy dest src n m).
Proof.
  intros Hn Hd. unfold memcpy. split.
  - intros i Hi. rewrite copy_bytes_at by lia.
    replace ((dest <=? src + i) && (src + i <? dest + i)) with false by lia. done.
  - intros x Hx. apply copy_bytes_outside. lia.
Qed.

(** When it does start inside, the first [dest - src] bytes are replicated. *)
Lemma memcpy_periodic dest src n m i :
  0 <= i < n -> src < dest -> memcpy dest src n m (dest + i) = m (src + i mod (dest - src)).
Proof.
  intros Hi Hd. unfold memcpy.
  assert (H : forall (k : nat) j, (Z.to_nat j < k)%nat -> 0 <= j < n ->
    copy_bytes (Z.to_nat n) dest src m (dest + j) = m (src + j mod (dest - src))).
  { induction k as [|k IHk]; intros j Hk Hj; [lia|].
    rewrite copy_bytes_at by lia.
    destruct (decide (j < dest - src)) as [Hlt|Hge].
    - replace ((dest <=? src + j) && (src + j <? dest + j)) with false by lia.
      by rewrite Z.mod_small by lia.
    - replace ((dest <=? src + j) && (src + j <? dest + j)) with true by lia.
      replace (src + j) with (dest + (j - (dest - src))) by lia.
      rewrite IHk by lia. f_equal. f_equal.
      rewrite <- (Z.mod_add (j - (dest - src)) 1 (dest - src)) by lia. f_equal. lia. }
  by apply (H (S (Z.to_nat i))); [lia|].
Qed.

Lemma memset_bytes_spec n : forall p v m x,
  memset_bytes n p v m x = if (p <=? x) && (x <? p + Z.of_nat n) then v else m x.
Proof.
  induction n as [|n IH]; intros p v m x; cbn [memset_bytes].
  - by rewrite out_of_range by lia.
  - rewrite IH. unfold put8. destruct (Z.eqb_spec x p) as [->|Hne].
    + by rewrite out_of_range, in_range by lia.
    + destruct (decide (p <= x < p + Z.of_nat (S n))).
      * by rewrite !in_range by lia.
      * by rewrite !out_of_range by lia.
Qed.

Lemma memset_words_spec n : forall p v m x,
  memset_words n p v m x =
  if (p <=? x) && (x <? p + 4 * Z.of_nat n) then byte_of v ((x - p) mod 4) else m x.
Proof.
  induction n as [|n IH]; intros p v m x; cbn [memset_words].
  - by rewrite out_of_range by lia.
  - rewrite IH. unfold put32. destruct (decide (p <= x < p + 4)) as [Hin|Hout].
    + rewrite out_of_range, !in_range by lia. by rewrite Z.mod_small by lia.
    + rewrite (out_of_range p x (p + 4)) by lia.
      destruct (decide (p <= x < p + 4 * Z.of_nat (S n))).
      * rewrite !in_range by lia. f_equal.
        rewrite <- (Z.mod_add (x - (p + 4)) 1 4) by lia. f_equal. lia.
      * by rewrite !out_of_range by lia.
Qed.

Lemma memcmp_loop_eq n : forall m1 s1 m2 s2,
  memcmp_loop n m1 s1 m2 s2 = 0 <-> forall k, 0 <= k < Z.of_nat n -> m1 (s1 + k) = m2 (s2 + k).
Proof.
  induction n as [|n IH]; intros m1 s1 m2 s2; cbn [memcmp_loop].
  { split; [intros _ k Hk; lia|done]. }
  destruct (Z.eqb_spec (m1 s1) (m2 s2)) as [E|E]; simpl negb; cbv iota.
  - rewrite IH. split; intros H k Hk.
    + destruct (decide (k = 0)) as [->|]; [by rewrite !Z.add_0_r|].
      specialize (H (k - 1) ltac:(lia)).
      by replace (s1 + 1 + (k - 1)) with (s1 + k) in H by lia;
         replace (s2 + 1 + (k - 1)) with (s2 + k) in H by lia.
    + specialize (H (k + 1) ltac:(lia)).
      by replace (s1 + (k + 1)) with (s1 + 1 + k) in H by lia;
         replace (s2 + (k + 1)) with (s2 + 1 + k) in H by lia.
  - split; [lia|]. intros H. destruct E. specialize (H 0 ltac:(lia)).
    by rewrite !Z.add_0_r in H.
Qed.

Lemma memcmp_eq m1 s1 m2 s2 n :
  s1 <> 0 -> s2 <> 0 -> 0 <= n ->
  memcmp m1 s1 m2 s2 n = 0 <-> forall k, 0 <= k < n -> m1 (s1 + k) = m2 (s2 + k).
Proof.
  intros H1 H2 Hn. unfold memcmp. apply Z.eqb_neq in H1, H2. rewrite H1, H2. simpl.
  rewrite memcmp_loop_eq. by rewrite Z2Nat.id.
Qed.

(** memset_aligned stores the whole [int], so it is memset only for byte values
    whose word replicates the byte; the program only uses it with 0. *)
Lemma memset_aligned_zero dst length m x :
  0 <= length -> length mod 4 = 0 -> memset_aligned dst 0 length m x = memset dst 0 length m x.
Proof.
  intros Hl Hm. unfold memset_aligned, memset. rewrite memset_words_spec, memset_bytes_spec.
  rewrite !Z2Nat.id by (Z.div_mod_to_equations; lia).
  replace (4 * (length / 4)) with length by (Z.div_mod_to_equations; lia).
  destruct (_ && _); [|done]. change (u32 0) with 0. change (u8 0) with 0.
  unfold byte_of. by rewrite Z.shiftr_0_l.
Qed.

(** ** Lemmas: strings *)

(** The C string [l] is stored at [s]. *)
Definition cstr (m : mem) (s : Z) (l : list Z) : Prop :=
  (forall i c, l !! i = Some c -> m (s + Z.of_nat i) = c /\ 0 < c < 256) /\
  m (s + Z.of_nat (length l)) = 0.

Lemma cstr_nil m s : cstr m s [] -> m s = 0.
Proof. intros [_ H]. by rewrite Z.add_0_r in H. Qed.

Lemma cstr_cons m s c l : cstr m s (c :: l) -> m s = c /\ 0 < c < 256 /\ cstr m (s + 1) l.
Proof.
  intros [H H0]. destruct (H 0%nat c eq_refl) as [Hc Hr]. rewrite Z.add_0_r in Hc.
  split_and!; try done; try lia. split.
  - intros i d Hi. destruct (H (S i) d Hi) as [Hd Hd']. split; [|done].
    rewrite <- Hd. f_equal. lia.
  - rewrite <- H0. f_equal. simpl. lia.
Qed.

Lemma strlen_spec l : forall m s i fuel,
  cstr m (s + i) l -> 0 <= i -> i + Z.of_nat (length l) < 2147483648 -> (length l < fuel)%nat ->
  strlen_loop fuel m s i = Some (i + Z.of_nat (length l)).
Proof.
  induction l as [|c l IH]; intros m s i fuel H Hi Hl Hf; destruct fuel as [|fuel];
    simpl length in *; try lia; cbn [strlen_loop].
  - rewrite (cstr_nil _ _ H). simpl. rewrite u32_id by lia. f_equal. lia.
  - destruct (cstr_cons _ _ _ _ H) as (Hc & Hr & H'). rewrite Hc.
    replace (c =? 0) with false by lia. simpl. rewrite s32_id by lia.
    rewrite IH; [f_equal; lia| |lia|lia|lia]. by replace (s + (i + 1)) with (s + i + 1) by lia.
Qed.

(** Lexicographic comparison of at most [n] characters. *)
Fixpoint lexcmp (n : Z) (l1 l2 : list Z) : Z :=
  if n <=? 0 then 0
  else match l1, l2 with
       | [], [] => 0
       | [], c :: _ => - c
       | c :: _, [] => c
       | a :: l1, b :: l2 => if a =? b then lexcmp (n - 1) l1 l2 else a - b
       end.

Lemma strncmp_loop_spec l1 : forall l2 m s1 s2 n fuel,
  cstr m s1 l1 -> cstr m s2 l2 -> 0 < n < 4294967296 -> (length l1 < fuel)%nat ->
  strncmp_loop fuel m s1 s2 n = Some (lexcmp n l1 l2).
Proof.
  induction l1 as [|a l1 IH]; intros l2 m s1 s2 n fuel H1 H2 Hn Hf;
    destruct fuel as [|fuel]; simpl length in Hf; try lia; cbn [strncmp_loop].
  - rewrite (cstr_nil _ _ H1). destruct l2 as [|b l2]; cbn [lexcmp];
      replace (n <=? 0) with false by lia.
    + by rewrite (cstr_nil _ _ H2).
    + destruct (cstr_cons _ _ _ _ H2) as (-> & Hb & _). by replace (0 =? b) with false by lia.
  - destruct (cstr_cons _ _ _ _ H1) as (-> & Ha & H1'). cbn [lexcmp].
    replace (n <=? 0) with false by lia. replace (a =? 0) with false by lia.
    destruct l2 as [|b l2].
    + rewrite (cstr_nil _ _ H2). replace (a =? 0) with false by lia. f_equal. lia.
    + destruct (cstr_cons _ _ _ _ H2) as (-> & Hb & H2'). rewrite u32_id by lia.
      destruct (Z.eqb_spec a b) as [->|]; [|done].
      destruct (Z.leb_spec (n - 1) 0).
      * f_equal. destruct l1; cbn [lexcmp]; by replace (n - 1 <=? 0) with true by lia.
      * apply IH; [done|done|lia|lia].
Qed.

(** With [n = 0] the counter wraps before it is tested. *)
Lemma strncmp_loop_zero l1 l2 m s1 s2 fuel :
  cstr m s1 l1 -> cstr m s2 l2 -> Z.of_nat (length l1) < 4294967296 -> (length l1 < fuel)%nat ->
  strncmp_loop fuel m s1 s2 0 = Some (lexcmp 4294967296 l1 l2).
Proof.
  intros H1 H2 Hl Hf. destruct fuel as [|fuel]; [lia|]. cbn [strncmp_loop].
  destruct l1 as [|a l1].
  - rewrite (cstr_nil _ _ H1). destruct l2 as [|b l2]; cbn [lexcmp].
    + by rewrite (cstr_nil _ _ H2).
    + destruct (cstr_cons _ _ _ _ H2) as (-> & Hb & _). by replace (0 =? b) with false by lia.
  - destruct (cstr_cons _ _ _ _ H1) as (-> & Ha & H1'). cbn [lexcmp].
    change (4294967296 <=? 0) with false. change (u32 (0 - 1)) with 4294967295.
    replace (a =? 0) with false by lia. destruct l2 as [|b l2].
    + rewrite (cstr_nil _ _ H2). replace (a =? 0) with false by lia. f_equal. lia.
    + destruct (cstr_cons _ _ _ _ H2) as (-> & Hb & H2').
      destruct (Z.eqb_spec a b) as [->|]; [|done].
      change (4294967295 <=? 0) with false. simpl length in Hf.
      change (4294967296 - 1) with 4294967295.
      apply strncmp_loop_spec; [done|done|lia|lia].
Qed.

(** ** Lemmas: numbers *)

Lemma digit_value_range c : _isxdigit c = true -> 0 <= digit_value c < 16.
Proof.
  unfold digit_value, _isxdigit, _isdigit, _islower, _toupper, _islower, chr_0, chr_9, chr_a,
    chr_f, chr_A, chr_F, chr_z. intros H. repeat case_match; lia.
Qed.

(** The characters [cs] are at [p], each is a digit of [base], and the numeral ends
    there. *)
Definition numeral (m : mem) (base p : Z) (cs : list Z) : Prop :=
  (forall i c, cs !! i = Some c ->
     m (p + Z.of_nat i) = c /\ _isxdigit c = true /\ digit_value c < base) /\
  _isxdigit (m (p + Z.of_nat (length cs)))
    && (digit_value (m (p + Z.of_nat (length cs))) <? base) = false.

(** The value of a numeral, without overflow. *)
Definition horner (base : Z) (cs : list Z) (r : Z) : Z :=
  fold_left (fun r c => r * base + digit_value c) cs r.

Lemma horner_u32 base cs : forall r, u32 (horner base cs (u32 r)) = u32 (horner base cs r).
Proof.
  induction cs as [|c cs IH]; intros r; cbn [horner fold_left]; [apply u32_u32|].
  fold (horner base cs (u32 r * base + digit_value c)).
  fold (horner base cs (r * base + digit_value c)).
  rewrite <- IH, <- (IH (r * base + digit_value c)). f_equal. f_equal.
  unfold u32. rewrite <- Z.add_mod_idemp_l, Z.mul_mod_idemp_l, Z.add_mod_idemp_l by lia. done.
Qed.

Lemma strtoul_loop_spec base cs : forall m p r fuel,
  numeral m base p cs -> is_u32 r -> (length cs < fuel)%nat ->
  strtoul_loop fuel m p base r = Some (u32 (horner base cs r), p + Z.of_nat (length cs)).
Proof.
  induction cs as [|c cs IH]; intros m p r fuel [H He] Hr Hf; destruct fuel as [|fuel];
    simpl length in *; try lia; cbn [strtoul_loop].
  - rewrite Z.add_0_r in *. rewrite He. by rewrite u32_id by done.
  - destruct (H 0%nat c eq_refl) as (Hc & Hx & Hb). rewrite Z.add_0_r in Hc.
    rewrite Hc, Hx. replace (digit_value c <? base) with true by lia. simpl.
    rewrite IH; [|split|apply u32_range|lia].
    + cbn [horner fold_left]. fold (horner base cs (r * base + digit_value c)).
      rewrite horner_u32. do 2 f_equal. lia.
    + intros i d Hi. specialize (H (S i) d Hi).
      by replace (p + 1 + Z.of_nat i) with (p + Z.of_nat (S i)) by lia.
    + by replace (p + 1 + Z.of_nat (length cs)) with (p + Z.of_nat (S (length cs))) by lia.
Qed.

(** The two words of a 64-bit number. *)
Lemma uu_unsigned q : 0 <= q < 2 ^ 64 ->
  exists h l, q = 4294967296 * h + l /\ is_u32 l /\ uu_ul_H q = h /\ uu_ul_L q = l.
Proof.
  intros Hq. exists (q / 4294967296), (q mod 4294967296).
  unfold uu_ul_H, uu_ul_L. rewrite Z.shiftr_div_pow2 by lia.
  change (2 ^ 64) with 18446744073709551616 in Hq.
  split_and!; try done; wrap_lia.
Qed.

Lemma uu_signed q : - 2 ^ 63 <= q < 2 ^ 63 ->
  exists h l, q = 4294967296 * h + l /\ is_u32 l /\ uu_sl_H q = h /\
    uu_sl_L q = (if l <? 2147483648 then l else l - 4294967296).
Proof.
  intros Hq. exists (q / 4294967296), (q mod 4294967296).
  unfold uu_sl_H, uu_sl_L. rewrite Z.shiftr_div_pow2 by lia.
  change (2 ^ 63) with 9223372036854775808 in Hq.
  split_and!; try (wrap_lia).
  destruct (Z.ltb_spec (q mod 4294967296) 2147483648); wrap_lia.
Qed.

(** ** Properties *)

(** memmove is a forward byte copy: its result is the C library's (the source
    block as it was before the call) when the destination does not start inside of
    the source; when it does, the first [dest - src] bytes are repeated over the
    whole destination.  Nothing outside of the destination changes. *)
Theorem memmove_spec dest src n m :
  0 <= n ->
  (dest <= src \/ src + n <= dest ->
     forall i, 0 <= i < n -> memmove dest src n m (dest + i) = m (src + i)) /\
  (src < dest < src + n ->
     forall i, 0 <= i < n -> memmove dest src n m (dest + i) = m (src + i mod (dest - src))) /\
  same_outside dest (dest + n) m (memmove dest src n m).
Proof.
  intros Hn. unfold memmove. split_and!.
  - intros Hd. by apply memcpy_exact.
  - intros Hd i Hi. apply memcpy_periodic; lia.
  - intros x Hx. apply copy_bytes_outside. lia.
Qed.

(** Moving "abcd" up by one byte gives "aaaa". *)
Lemma memmove_spec_witness :
  memmove 1 0 4 (bytes_at [97; 98; 99; 100; 0]) (1 + 3) = 97.
Proof.
  destruct (memmove_spec 1 0 4 (bytes_at [97; 98; 99; 100; 0]) ltac:(lia)) as (_ & H & _).
  rewrite (H ltac:(lia) 3 ltac:(lia)). reflexivity.
Defined.

(** strncmp returns for terminated strings and is the lexicographic order on
    their first [n] characters for every [n] but 0; with [n = 0] the bound is ignored
    and the whole strings are compared. *)
Theorem strncmp_spec fuel m s1 s2 n l1 l2 :
  s1 <> 0 -> s2 <> 0 -> is_u32 n -> cstr m s1 l1 -> cstr m s2 l2 ->
  Z.of_nat (length l1) < 4294967296 -> (length l1 < fuel)%nat ->
  strncmp fuel m s1 s2 n = Some (lexcmp (if n =? 0 then 4294967296 else n) l1 l2).
Proof.
  intros Hs1 Hs2 Hn H1 H2 Hl Hf. unfold strncmp.
  apply Z.eqb_neq in Hs1, Hs2. rewrite Hs1, Hs2. simpl.
  destruct (Z.eqb_spec n 0) as [->|]; [by apply strncmp_loop_zero|].
  apply strncmp_loop_spec; [done|done|lia|done].
Qed.

(** "ab" and "b" differ although no character is to be compared. *)
Lemma strncmp_spec_witness :
  strncmp 3 (bytes_at [0; 97; 98; 0; 98; 0]) 1 4 0 = Some (-1) /\
  lexcmp 0 [97; 98] [98] = 0.
Proof.
  split; [|done].
  apply (strncmp_spec 3 (bytes_at [0; 97; 98; 0; 98; 0]) 1 4 0 [97; 98] [98]);
    try lia; try (simpl; lia);
    (split; [intros [|[|i]] c; simpl; intros [= <-]; vm_compute; done|reflexivity]).
Defined.

(** simple_strtoul returns on every numeral, with its value modulo 2^32 in the
    base selected by the prefix, and the pointer to its first character that is not a
    digit of that base. *)
Theorem simple_strtoul_spec fuel m cp base cp' base' cs :
  cp <> 0 -> strtoul_prefix m cp base = (cp', base') -> numeral m base' cp' cs ->
  (length cs < fuel)%nat ->
  simple_strtoul fuel m cp base
  = Some (u32 (horner base' cs 0), cp' + Z.of_nat (length cs)).
Proof.
  intros Hcp Hp Hn Hf. unfold simple_strtoul. apply Z.eqb_neq in Hcp. rewrite Hcp, Hp.
  apply strtoul_loop_spec; [done|lia|done].
Qed.

(** "0x1F;" with base 0. *)
Lemma simple_strtoul_spec_witness :
  simple_strtoul 3 (bytes_at [0; 48; 120; 49; 70; 59]) 1 0 = Some (31, 5).
Proof.
  rewrite (simple_strtoul_spec 3 (bytes_at [0; 48; 120; 49; 70; 59]) 1 0 3 16 [49; 70]);
    [reflexivity|lia|reflexivity| |simpl; lia].
  split; [intros [|[|i]] c; simpl; intros [= <-]; done|reflexivity].
Defined.

(** The 64-bit comparisons: __aeabi_ulcmp is the order of unsigned 64-bit
    numbers; __aeabi_lcmp, which compares the low words as signed, is the order of
    signed 64-bit numbers except exactly when the high words are equal and bit 31
    of the low words differs, where its answer is reversed. *)
Theorem aeabi_cmp_spec a b :
  (0 <= a < 2 ^ 64 -> 0 <= b < 2 ^ 64 -> __aeabi_ulcmp a b = Z.sgn (a - b)) /\
  (- 2 ^ 63 <= a < 2 ^ 63 -> - 2 ^ 63 <= b < 2 ^ 63 ->
     __aeabi_lcmp a b =
       if (uu_sl_H a =? uu_sl_H b) && xorb (uu_sl_L a <? 0) (uu_sl_L b <? 0)
       then - Z.sgn (a - b) else Z.sgn (a - b)).
Proof.
  unfold __aeabi_ulcmp, __aeabi_lcmp. split; intros Ha Hb.
  - destruct (uu_unsigned a Ha) as (ha & la & -> & Hla & -> & ->).
    destruct (uu_unsigned b Hb) as (hb & lb & -> & Hlb & -> & ->). repeat case_match; lia.
  - destruct (uu_signed a Ha) as (ha & la & -> & Hla & -> & ->).
    destruct (uu_signed b Hb) as (hb & lb & -> & Hlb & -> & ->).
    destruct (Z.ltb_spec la 2147483648), (Z.ltb_spec lb 2147483648);
      rewrite ?(proj2 (Z.ltb_ge la 0)), ?(proj2 (Z.ltb_ge lb 0)),
        ?(proj2 (Z.ltb_lt (la - 4294967296) 0)), ?(proj2 (Z.ltb_lt (lb - 4294967296) 0)) by lia;
      destruct (Z.eqb_spec ha hb) as [->|]; cbn [andb xorb]; repeat case_match; lia.
Qed.

Lemma aeabi_cmp_spec_witness : __aeabi_lcmp 0x80000000 1 = -1 /\ __aeabi_ulcmp 0x80000000 1 = 1.
Proof.
  destruct (aeabi_cmp_spec 0x80000000 1) as [H1 H2].
  rewrite H1, H2 by lia. split; reflexivity.
Defined.
