(* ===== verification/Murmur3.v ===== *)
(** MurmurHash3 (orchard/murmur3.c): the 32-bit hash that protects every
    packet and the whole program image.

    [MurmurHash3_x86_32 rd len seed] reads the key through [rd] (the
    dereference [data[i]]) and returns the word stored to [*out].  [len] is the
    C [int] argument; the callers pass a value between 0 and 2^31-1.

    Proved: the result is a 32-bit word, the finaliser and every block round
    are bijections on 32-bit words (with explicit inverses), and therefore two
    keys of the same length that differ in exactly one aligned 32-bit word never
    collide.  The published test vectors are checked by evaluation. *)
From S2P Require Import Prelude.
Local Open Scope Z_scope.

Definition rotl32 (x r : Z) : Z := Z.lor (u32 (Z.shiftl x r)) (Z.shiftr x (32 - r)).

Definition rotl64 (x r : Z) : Z := Z.lor (u64 (Z.shiftl x r)) (Z.shiftr x (64 - r)).

(** [p[i]] on [const uint32_t *]: the word at byte offset [4*i]. *)
Definition getblock32 (rd : mem) (p i : Z) : Z := get32 rd (p + 4 * i).

Definition fmix32 (h : Z) : Z :=
  let h := Z.lxor h (Z.shiftr h 16) in
  let h := u32 (h * 0x85ebca6b) in
  let h := Z.lxor h (Z.shiftr h 13) in
  let h := u32 (h * 0xc2b2ae35) in
  Z.lxor h (Z.shiftr h 16).

Definition fmix64 (k : Z) : Z :=
  let k := Z.lxor k (Z.shiftr k 33) in
  let k := u64 (k * 0xff51afd7ed558ccd) in
  let k := Z.lxor k (Z.shiftr k 33) in
  let k := u64 (k * 0xc4ceb9fe1a85ec53) in
  Z.lxor k (Z.shiftr k 33).

Definition c1 : Z := 0xcc9e2d51.
Definition c2 : Z := 0x1b873593.

(** The three statements that scramble one block. *)
Definition mix_k1 (k1 : Z) : Z :=
  let k1 := u32 (k1 * c1) in
  let k1 := rotl32 k1 15 in
  u32 (k1 * c2).

(** The three statements that fold a scrambled block into the state. *)
Definition mix_h1 (h1 k1 : Z) : Z :=
  let h1 := Z.lxor h1 k1 in
  let h1 := rotl32 h1 13 in
  u32 (h1 * 5 + 0xe6546b64).

(** [for (int i = -nblocks; i; i++)]: [n] is the number of iterations left,
    so that [i = -n]. *)
Fixpoint murmur_body (rd : mem) (blocks : Z) (n : nat) (h1 : Z) : Z :=
  match n with
  | O => h1
  | S n' =>
      let k1 := getblock32 rd blocks (- Z.of_nat n) in
      murmur_body rd blocks n' (mix_h1 h1 (mix_k1 k1))
  end.

(** The fall-through [switch (len & 3)] over the 0 to 3 trailing bytes. *)
Definition murmur_tail (rd : mem) (tail rest h1 : Z) : Z :=
  let k1 := 0 in
  let k1 := if rest =? 3 then Z.lxor k1 (Z.shiftl (rd (tail + 2)) 16) else k1 in
  let k1 := if (rest =? 3) || (rest =? 2) then Z.lxor k1 (Z.shiftl (rd (tail + 1)) 8)
            else k1 in
  if (rest =? 3) || (rest =? 2) || (rest =? 1)
  then Z.lxor h1 (mix_k1 (Z.lxor k1 (rd tail)))
  else h1.

Definition MurmurHash3_x86_32 (rd : mem) (key len seed : Z) : Z :=
  let nblocks := Z.quot len 4 in
  let blocks := key + nblocks * 4 in
  let h1 := murmur_body rd blocks (Z.to_nat nblocks) seed in
  let h1 := murmur_tail rd blocks (Z.land len 3) h1 in
  let h1 := Z.lxor h1 (u32 len) in
  fmix32 h1.

(** ** Test vectors of the reference implementation *)

Example murmur_empty : MurmurHash3_x86_32 (bytes_at []) 0 0 0 = 0.
Proof. vm_compute. reflexivity. Qed.
Example murmur_empty_seed1 : MurmurHash3_x86_32 (bytes_at []) 0 0 1 = 0x514E28B7.
Proof. vm_compute. reflexivity. Qed.
(* "test" *)
Example murmur_test : MurmurHash3_x86_32 (bytes_at [116; 101; 115; 116]) 0 4 0 = 0xba6bd213.
Proof. vm_compute. reflexivity. Qed.
(* "Hello, world!": three blocks and one trailing byte *)
Example murmur_hello :
  MurmurHash3_x86_32
    (bytes_at [72; 101; 108; 108; 111; 44; 32; 119; 111; 114; 108; 100; 33]) 0 13 0x9747b28c
  = 0x24884CBA.
Proof. vm_compute. reflexivity. Qed.

(** ** Ranges *)

Lemma rotl32_u32 x r : 0 <= r <= 32 -> is_u32 x -> is_u32 (rotl32 x r).
Proof.
  intros Hr Hx. unfold rotl32. apply (lor_range 32); [lia|apply u32_range|].
  apply (shiftr_range 32); lia.
Qed.

Lemma fmix32_u32 h : is_u32 h -> is_u32 (fmix32 h).
Proof.
  intros Hh. unfold fmix32. cbv zeta.
  apply lxor_u32; [apply u32_range|]. apply (shiftr_range 32); try lia. apply u32_range.
Qed.

Lemma mix_k1_u32 k : is_u32 (mix_k1 k).
Proof. apply u32_range. Qed.
Lemma mix_h1_u32 h k : is_u32 (mix_h1 h k).
Proof. apply u32_range. Qed.
#[export] Hint Resolve mix_k1_u32 mix_h1_u32 lxor_u32 lxor_u8 lor_u8 u32_range : core.

Lemma murmur_body_u32 rd b n : forall h, is_u32 h -> is_u32 (murmur_body rd b n h).
Proof. induction n as [|n IH]; cbn [murmur_body]; intros h Hh; [done|]. apply IH. auto. Qed.

Lemma murmur_tail_u32 rd t r h : is_u32 h -> is_u32 (murmur_tail rd t r h).
Proof. intros Hh. unfold murmur_tail. cbv zeta. case_match; auto. Qed.

(** ** Inverses *)

(** A right xor-shift by at least half of the width is an involution. *)
Lemma xorshift_involutive h s :
  16 <= s -> is_u32 h ->
  Z.lxor (Z.lxor h (Z.shiftr h s)) (Z.shiftr (Z.lxor h (Z.shiftr h s)) s) = h.
Proof.
  intros Hs Hh. apply Z.bits_inj'. intros i Hi.
  rewrite !Z.lxor_spec, !Z.shiftr_spec, !Z.lxor_spec, !Z.shiftr_spec by lia.
  rewrite (testbit_high 32 h (i + s + s)) by lia.
  destruct (Z.testbit h i), (Z.testbit h (i + s)); done.
Qed.

(** The xor-shift by 13 needs a second correction step. *)
Lemma xorshift13_inv h :
  is_u32 h ->
  let y := Z.lxor h (Z.shiftr h 13) in
  Z.lxor (Z.lxor y (Z.shiftr y 13)) (Z.shiftr y 26) = h.
Proof.
  intros Hh y. apply Z.bits_inj'. intros i Hi. subst y.
  rewrite !Z.lxor_spec, !Z.shiftr_spec, !Z.lxor_spec, !Z.shiftr_spec by lia.
  rewrite (testbit_high 32 h (i + 26 + 13)) by lia.
  replace (i + 13 + 13) with (i + 26) by lia.
  destruct (Z.testbit h i), (Z.testbit h (i + 13)), (Z.testbit h (i + 26)); done.
Qed.

Definition unfmix32 (y : Z) : Z :=
  let y := Z.lxor y (Z.shiftr y 16) in
  let y := u32 (y * 0x7ed1b41d) in
  let y := Z.lxor (Z.lxor y (Z.shiftr y 13)) (Z.shiftr y 26) in
  let y := u32 (y * 0xa5cb9243) in
  Z.lxor y (Z.shiftr y 16).

Lemma xorshift_u32 h s : 0 <= s -> is_u32 h -> is_u32 (Z.lxor h (Z.shiftr h s)).
Proof. intros Hs Hh. apply lxor_u32; [done|]. apply (shiftr_range 32); lia. Qed.
#[export] Hint Resolve xorshift_u32 : core.

Lemma unfmix32_fmix32 h : is_u32 h -> unfmix32 (fmix32 h) = h.
Proof.
  intros Hh. unfold unfmix32, fmix32. cbv zeta.
  rewrite xorshift_involutive by (auto; lia).
  rewrite u32_mul_inv by (auto with lia || (vm_compute; reflexivity)).
  rewrite xorshift13_inv by auto.
  rewrite u32_mul_inv by (auto with lia || (vm_compute; reflexivity)).
  apply xorshift_involutive; auto; lia.
Qed.

Lemma rotl32_bits x r i :
  0 < r < 32 -> is_u32 x -> 0 <= i < 32 ->
  Z.testbit (rotl32 x r) i = Z.testbit x (if i <? r then i + 32 - r else i - r).
Proof.
  intros Hr Hx Hi. unfold rotl32, u32.
  rewrite Z.lor_spec, Z.mod_pow2_bits_low, Z.shiftl_spec, Z.shiftr_spec by lia.
  destruct (Z.ltb_spec i r) as [H|H].
  - rewrite Z.testbit_neg_r by lia. simpl. f_equal. lia.
  - rewrite (testbit_high 32 x (i + (32 - r))) by lia. apply orb_false_r.
Qed.

Lemma rotl32_inv x r : 0 < r < 32 -> is_u32 x -> rotl32 (rotl32 x r) (32 - r) = x.
Proof.
  intros Hr Hx. apply (bit_ext 32); [| |].
  - apply rotl32_u32; [lia|]. apply rotl32_u32; [lia|done].
  - done.
  - intros i Hi. rewrite rotl32_bits by (try apply rotl32_u32; lia).
    destruct (Z.ltb_spec i (32 - r)) as [H|H].
    + rewrite rotl32_bits by lia. destruct (Z.ltb_spec (i + 32 - (32 - r)) r); [lia|].
      f_equal. lia.
    + rewrite rotl32_bits by lia. destruct (Z.ltb_spec (i - (32 - r)) r); [|lia].
      f_equal. lia.
Qed.

Definition unmix_k1 (k : Z) : Z := u32 (rotl32 (u32 (k * 0x56ed309b)) 17 * 0xdee13bb1).

Lemma unmix_mix_k1 k : is_u32 k -> unmix_k1 (mix_k1 k) = k.
Proof.
  intros Hk. unfold unmix_k1, mix_k1. cbv zeta.
  rewrite u32_mul_inv.
  2: { apply rotl32_u32; [lia|auto]. }
  2: { vm_compute. reflexivity. }
  rewrite (rotl32_inv _ 15) by (auto; lia).
  apply u32_mul_inv; [done|vm_compute; reflexivity].
Qed.

(** Undoing one round: recover the state before the block [k] was folded in. *)
Definition unmix_h1 (h k : Z) : Z :=
  Z.lxor (rotl32 (u32 ((h - 0xe6546b64) * 0xcccccccd)) 19) k.

Lemma unmix_mix_h1 h k : is_u32 h -> is_u32 k -> unmix_h1 (mix_h1 h k) k = h.
Proof.
  intros Hh Hk. unfold unmix_h1, mix_h1. cbv zeta.
  set (x := rotl32 (Z.lxor h k) 13).
  assert (Hx : is_u32 x) by (apply rotl32_u32; [lia|auto]).
  replace (u32 ((u32 (x * 5 + 0xe6546b64) - 0xe6546b64) * 0xcccccccd)) with x.
  2: { unfold u32. rewrite <- Z.mul_mod_idemp_l by lia.
       rewrite Zminus_mod_idemp_l. replace (x * 5 + 3864292196 - 3864292196) with (x * 5) by lia.
       symmetry. apply (u32_mul_inv x 5); [done|vm_compute; reflexivity]. }
  subst x. rewrite (rotl32_inv _ 13) by (auto; lia).
  rewrite Z.lxor_assoc, Z.lxor_nilpotent, Z.lxor_0_r. done.
Qed.

Lemma mix_h1_inj_k h k k' :
  is_u32 h -> is_u32 k -> is_u32 k' -> mix_h1 h k = mix_h1 h k' -> k = k'.
Proof.
  intros Hh Hk Hk' H.
  assert (E : forall k, mix_h1 h k = mix_h1 k h) by (intros; unfold mix_h1; by rewrite Z.lxor_comm).
  rewrite (E k), (E k') in H.
  rewrite <- (unmix_mix_h1 k h), <- (unmix_mix_h1 k' h), H by done. done.
Qed.

Lemma mix_h1_inj_h h h' k :
  is_u32 h -> is_u32 h' -> is_u32 k -> mix_h1 h k = mix_h1 h' k -> h = h'.
Proof.
  intros Hh Hh' Hk H.
  rewrite <- (unmix_mix_h1 h k), <- (unmix_mix_h1 h' k), H by done. done.
Qed.

Lemma mix_k1_inj k k' : is_u32 k -> is_u32 k' -> mix_k1 k = mix_k1 k' -> k = k'.
Proof. intros Hk Hk' H. rewrite <- (unmix_mix_k1 k), <- (unmix_mix_k1 k'), H by done. done. Qed.

Lemma fmix32_inj h h' : is_u32 h -> is_u32 h' -> fmix32 h = fmix32 h' -> h = h'.
Proof. intros Hh Hh' H. rewrite <- (unfmix32_fmix32 h), <- (unfmix32_fmix32 h'), H by done. done. Qed.

(** ** Error detection *)

(** The loop is injective in the incoming state. *)
Lemma murmur_body_inj rd b n : forall h h',
  is_u32 h -> is_u32 h' -> murmur_body rd b n h = murmur_body rd b n h' -> h = h'.
Proof.
  induction n as [|n IH]; cbn [murmur_body]; intros h h' Hh Hh' H; [done|].
  eapply mix_h1_inj_h; [done|done| |eapply IH; [| |exact H]]; auto.
Qed.

Lemma murmur_body_ext rd rd' b n : forall h,
  (forall m : nat, (1 <= m <= n)%nat ->
     getblock32 rd b (- Z.of_nat m) = getblock32 rd' b (- Z.of_nat m)) ->
  murmur_body rd b n h = murmur_body rd' b n h.
Proof.
  induction n as [|n IH]; cbn [murmur_body]; intros h H; [done|].
  rewrite (H (S n)) by lia. apply IH. intros m Hm. apply H. lia.
Qed.

(** One differing block separates the states for good. *)
Lemma murmur_body_diff rd rd' b n j : forall h,
  (1 <= j <= n)%nat -> is_u32 h -> byte_mem rd -> byte_mem rd' ->
  getblock32 rd b (- Z.of_nat j) <> getblock32 rd' b (- Z.of_nat j) ->
  (forall m : nat, (1 <= m <= n)%nat -> m <> j ->
     getblock32 rd b (- Z.of_nat m) = getblock32 rd' b (- Z.of_nat m)) ->
  murmur_body rd b n h <> murmur_body rd' b n h.
Proof.
  induction n as [|n IH]; cbn [murmur_body]; intros h Hj Hh Hb Hb' Hd He; [lia|].
  destruct (decide (j = S n)) as [->|Hne].
  - rewrite <- (murmur_body_ext rd rd') by (intros m Hm; apply He; lia).
    intros H. apply Hd. apply murmur_body_inj in H; [|auto|auto].
    apply mix_h1_inj_k in H; [|auto|auto|auto].
    apply mix_k1_inj in H; [done| |]; by apply get32_range.
  - rewrite <- (He (S n)) by lia. apply IH; try done; [lia|].
    intros m Hm. apply He. lia.
Qed.

Lemma murmur_tail_inj rd t r h h' :
  murmur_tail rd t r h = murmur_tail rd t r h' -> h = h'.
Proof.
  unfold murmur_tail. cbv zeta. case_match; [|done].
  intros E. apply (f_equal (fun z => Z.lxor z (mix_k1 (Z.lxor (if (r =? 3) || (r =? 2)
    then Z.lxor (if r =? 3 then Z.lxor 0 (Z.shiftl (rd (t + 2)) 16) else 0)
           (Z.shiftl (rd (t + 1)) 8)
    else if r =? 3 then Z.lxor 0 (Z.shiftl (rd (t + 2)) 16) else 0) (rd t))))) in E.
  by rewrite !Z.lxor_assoc, !Z.lxor_nilpotent, !Z.lxor_0_r in E.
Qed.

Lemma murmur_tail_ext rd rd' t r h :
  (forall k, 0 <= k < r -> rd (t + k) = rd' (t + k)) -> 0 <= r < 4 ->
  murmur_tail rd t r h = murmur_tail rd' t r h.
Proof.
  intros H Hr. unfold murmur_tail. cbv zeta.
  destruct (Z.eqb_spec r 3) as [E3|E3]; destruct (Z.eqb_spec r 2) as [E2|E2];
    destruct (Z.eqb_spec r 1) as [E1|E1]; simpl; try lia; try done;
    rewrite ?(H 2), ?(H 1) by lia;
    (rewrite <- (Z.add_0_r t), (H 0) by lia); done.
Qed.

Lemma len_split len : 0 <= len ->
  0 <= Z.quot len 4 /\ Z.land len 3 = len mod 4 /\ len = 4 * Z.quot len 4 + len mod 4.
Proof.
  intros H. rewrite Z.quot_div_nonneg by lia.
  change 3 with (Z.ones 2). rewrite Z.land_ones by lia. change (2 ^ 2) with 4.
  Z.div_mod_to_equations. lia.
Qed.

Lemma MurmurHash3_ext rd rd' key len seed :
  0 <= len -> (forall k, 0 <= k < len -> rd (key + k) = rd' (key + k)) ->
  MurmurHash3_x86_32 rd key len seed = MurmurHash3_x86_32 rd' key len seed.
Proof.
  intros Hlen H. destruct (len_split len Hlen) as (Hq & Hr & Hs).
  unfold MurmurHash3_x86_32. cbv zeta. do 2 f_equal. rewrite Hr.
  rewrite (murmur_body_ext rd rd').
  - apply murmur_tail_ext; [|Z.div_mod_to_equations; lia].
    intros k Hk. replace (key + Z.quot len 4 * 4 + k) with (key + (4 * Z.quot len 4 + k)) by lia.
    apply H. lia.
  - intros m Hm. unfold getblock32. apply get32_ext. intros k Hk.
    replace (key + Z.quot len 4 * 4 + 4 * - Z.of_nat m + k)
      with (key + (4 * Z.quot len 4 - 4 * Z.of_nat m + k)) by lia.
    apply H. pose proof (Z.mod_pos_bound len 4). lia.
Qed.

(** MurmurHash3_x86_32 returns a 32-bit word for every key, length and
    32-bit seed: the truncations of the C code are all accounted for. *)
Theorem MurmurHash3_range rd key len seed :
  is_u32 seed -> is_u32 (MurmurHash3_x86_32 rd key len seed).
Proof.
  intros Hs. unfold MurmurHash3_x86_32. cbv zeta.
  apply fmix32_u32, lxor_u32; [|apply u32_range].
  apply murmur_tail_u32, murmur_body_u32. done.
Qed.

Lemma MurmurHash3_range_witness :
  is_u32 0xdeadbeef /\ is_u32 (MurmurHash3_x86_32 (bytes_at [1; 2; 3]) 0 3 0xdeadbeef).
Proof. split; [lia|]. apply MurmurHash3_range. lia. Defined.

(** Two keys of the same length that differ inside exactly one aligned
    32-bit word never have the same hash: any corruption confined to one word of
    a packet is always detected by the packet hash. *)
Theorem MurmurHash3_detects_word rd rd' key len seed j :
  byte_mem rd -> byte_mem rd' -> is_u32 seed ->
  0 <= j -> 4 * j + 4 <= len ->
  (exists k, 0 <= k < 4 /\ rd (key + 4 * j + k) <> rd' (key + 4 * j + k)) ->
  (forall x, 0 <= x < len -> x < 4 * j \/ 4 * j + 4 <= x -> rd (key + x) = rd' (key + x)) ->
  MurmurHash3_x86_32 rd key len seed <> MurmurHash3_x86_32 rd' key len seed.
Proof.
  intros Hb Hb' Hseed Hj Hlen (k & Hk & Hd) Hsame.
  destruct (len_split len ltac:(lia)) as (Hq & Hr & Hs).
  pose proof (Z.mod_pos_bound len 4 eq_refl) as Hmod.
  unfold MurmurHash3_x86_32. cbv zeta. rewrite Hr.
  set (q := Z.quot len 4) in *. intros H.
  apply fmix32_inj in H;
    [|apply lxor_u32; [by apply murmur_tail_u32, murmur_body_u32|auto]..].
  apply (f_equal (fun z => Z.lxor z (u32 len))) in H.
  rewrite !Z.lxor_assoc, !Z.lxor_nilpotent, !Z.lxor_0_r in H.
  rewrite (murmur_tail_ext rd rd') in H.
  2: { intros i Hi. replace (key + q * 4 + i) with (key + (4 * q + i)) by lia. apply Hsame; lia. }
  2: { lia. }
  apply murmur_tail_inj in H. revert H.
  apply (murmur_body_diff rd rd' _ _ (Z.to_nat (q - j))); try done; [lia| |].
  - intros E. apply Hd. unfold getblock32 in E.
    replace (key + q * 4 + 4 * - Z.of_nat (Z.to_nat (q - j))) with (key + 4 * j) in E by lia.
    eapply get32_bytes_inj; eauto.
  - intros m Hm Hne. unfold getblock32. apply get32_ext. intros i Hi.
    replace (key + q * 4 + 4 * - Z.of_nat m + i)
      with (key + (4 * q - 4 * Z.of_nat m + i)) by lia.
    apply Hsame; lia.
Qed.

Lemma MurmurHash3_detects_word_witness :
  MurmurHash3_x86_32 (bytes_at [1; 2; 3; 4; 5; 6; 7; 8; 9]) 0 9 0xdeadbeef
  <> MurmurHash3_x86_32 (bytes_at [1; 2; 3; 4; 5; 0; 7; 0; 9]) 0 9 0xdeadbeef.
Proof.
  apply (MurmurHash3_detects_word _ _ 0 9 _ 1); try lia.
  - apply bytes_at_byte_mem. repeat constructor; lia.
  - apply bytes_at_byte_mem. repeat constructor; lia.
  - exists 1. split; [lia|]. vm_compute. discriminate.
  - intros x Hx Hout.
    assert (x = 0 \/ x = 1 \/ x = 2 \/ x = 3 \/ x = 8) as [->|[->|[->|[->| ->]]]] by lia;
      reflexivity.
Defined.
