(* ===== verification/Mac.v ===== *)
(** The MAC layer (orchard/esplanade_mac.c): a bit-serial state machine that
    finds the preamble and the sync word in the demodulated bit stream and
    assembles a control or data packet into the buffer [pkt].

    [putBitMac] is one call of the C function.  It returns [None] exactly where
    the C code would store outside of [mac_sync] or [pkt]; the invariant
    [mac_inv] shows that this never happens.

    Proved: memory safety and the invariant on every bit, reception of every
    well-formed frame sent after a preamble of at least 32 zero bits, recovery
    from any state within 2169 zero bits, and the window of 63 bits in which a
    completed packet cannot be overwritten. *)
From S2P Require Import Prelude.
Local Open Scope Z_scope.

(** ** Packet layout (esplanade_mac.h) *)

Definition PAYLOAD_LEN : Z := 256.
Definition MURMUR_SEED_BLOCK : Z := 0xdeadbeef.
Definition MURMUR_SEED_TOTAL : Z := 0x32d0babe.
Definition PKTTYPE_CTRL : Z := 0x01.
Definition PKTTYPE_DATA : Z := 0x02.
Definition PKT_VER_1 : Z := 0x01.
Definition PKT_VER_2 : Z := 0x02.

(** [sizeof] of the packed structures. *)
Definition sizeof_demod_pkt_header_t : Z := 1 + 1.
Definition sizeof_demod_pkt_data_t : Z := sizeof_demod_pkt_header_t + 2 + PAYLOAD_LEN + 4.
Definition sizeof_demod_pkt_ctrl_t : Z := sizeof_demod_pkt_header_t + 2 + 4 + 4 + 16 + 4.
Definition DATA_LEN : Z := sizeof_demod_pkt_data_t.
Definition CTRL_LEN : Z := sizeof_demod_pkt_ctrl_t.
(** [sizeof(demod_pkt_t)]: the union is as large as its largest member. *)
Definition sizeof_demod_pkt_t : Z :=
  Z.max sizeof_demod_pkt_header_t (Z.max sizeof_demod_pkt_ctrl_t sizeof_demod_pkt_data_t).

(** ** State: the file's variables *)

Inductive mac_state_t : Set := MAC_IDLE | MAC_SYNC | MAC_PACKET.

#[export] Instance mac_state_t_eq_dec : EqDecision mac_state_t.
Proof. solve_decision. Defined.

Record mac : Type := Mac {
  mstate : mac_state_t;
  pkt_ptr : Z;
  pkt : list Z;
  pktReady : Z;
  g_bitpos : Z;
  g_curbyte : Z;
  idle_zeros : Z;
  mac_sync : list Z;
  sync_count : Z;
  pkt_len : Z;
  pkt_read : Z
}.

(** The initial values: [.bldata] initialisers and zeroed [.blbss]. *)
Definition mac_init : mac :=
  {| mstate := MAC_IDLE; pkt_ptr := 0; pkt := replicate (Z.to_nat sizeof_demod_pkt_t) 0;
     pktReady := 0; g_bitpos := 9; g_curbyte := 0; idle_zeros := 0;
     mac_sync := replicate 4 0; sync_count := 0; pkt_len := 0; pkt_read := 0 |}.

Definition set_mstate v m := Mac v (pkt_ptr m) (pkt m) (pktReady m) (g_bitpos m)
  (g_curbyte m) (idle_zeros m) (mac_sync m) (sync_count m) (pkt_len m) (pkt_read m).
Definition set_pkt_ptr v m := Mac (mstate m) v (pkt m) (pktReady m) (g_bitpos m)
  (g_curbyte m) (idle_zeros m) (mac_sync m) (sync_count m) (pkt_len m) (pkt_read m).
Definition set_pkt v m := Mac (mstate m) (pkt_ptr m) v (pktReady m) (g_bitpos m)
  (g_curbyte m) (idle_zeros m) (mac_sync m) (sync_count m) (pkt_len m) (pkt_read m).
Definition set_pktReady v m := Mac (mstate m) (pkt_ptr m) (pkt m) v (g_bitpos m)
  (g_curbyte m) (idle_zeros m) (mac_sync m) (sync_count m) (pkt_len m) (pkt_read m).
Definition set_g_bitpos v m := Mac (mstate m) (pkt_ptr m) (pkt m) (pktReady m) v
  (g_curbyte m) (idle_zeros m) (mac_sync m) (sync_count m) (pkt_len m) (pkt_read m).
Definition set_g_curbyte v m := Mac (mstate m) (pkt_ptr m) (pkt m) (pktReady m) (g_bitpos m)
  v (idle_zeros m) (mac_sync m) (sync_count m) (pkt_len m) (pkt_read m).
Definition set_idle_zeros v m := Mac (mstate m) (pkt_ptr m) (pkt m) (pktReady m) (g_bitpos m)
  (g_curbyte m) v (mac_sync m) (sync_count m) (pkt_len m) (pkt_read m).
Definition set_mac_sync v m := Mac (mstate m) (pkt_ptr m) (pkt m) (pktReady m) (g_bitpos m)
  (g_curbyte m) (idle_zeros m) v (sync_count m) (pkt_len m) (pkt_read m).
Definition set_sync_count v m := Mac (mstate m) (pkt_ptr m) (pkt m) (pktReady m) (g_bitpos m)
  (g_curbyte m) (idle_zeros m) (mac_sync m) v (pkt_len m) (pkt_read m).
Definition set_pkt_len v m := Mac (mstate m) (pkt_ptr m) (pkt m) (pktReady m) (g_bitpos m)
  (g_curbyte m) (idle_zeros m) (mac_sync m) (sync_count m) v (pkt_read m).
Definition set_pkt_read v m := Mac (mstate m) (pkt_ptr m) (pkt m) (pktReady m) (g_bitpos m)
  (g_curbyte m) (idle_zeros m) (mac_sync m) (sync_count m) (pkt_len m) v.

(** [pkt.header.version] and [pkt.header.type]. *)
Definition header_version (p : list Z) : Z := bytes_at p 0.
Definition header_type (p : list Z) : Z := bytes_at p 1.

(** The label [make_idle]. *)
Definition make_idle (m : mac) : mac := set_idle_zeros 0 (set_mstate MAC_IDLE m).

(** [case MAC_IDLE] *)
Definition put_bit_idle (m : mac) (bit : Z) : mac :=
  if 32 <? idle_zeros m then
    if negb (bit =? 0) then
      set_sync_count 0 (set_g_curbyte 0x80 (set_g_bitpos 6 (set_mstate MAC_SYNC m)))
    else if idle_zeros m <? 255 then set_idle_zeros (u8 (idle_zeros m + 1)) m
    else m
  else if negb (bit =? 0) then set_idle_zeros 0 m
  else set_idle_zeros (u8 (idle_zeros m + 1)) m.

(** [g_curbyte >>= 1; g_bitpos--; if (bit) g_curbyte |= 0x80;] *)
Definition shift_in (m : mac) (bit : Z) : mac :=
  let m := set_g_curbyte (Z.shiftr (g_curbyte m) 1) m in
  let m := set_g_bitpos (g_bitpos m - 1) m in
  if negb (bit =? 0) then set_g_curbyte (Z.lor (g_curbyte m) 0x80) m else m.

(** [case MAC_SYNC] *)
Definition put_bit_sync (m : mac) (bit : Z) : option mac :=
  let m := shift_in m bit in
  if negb (g_bitpos m =? 0) then Some m
  else if g_curbyte m =? 0x00 then Some (set_idle_zeros 8 (set_mstate MAC_IDLE m))
  else
    match store (mac_sync m) (sync_count m) (g_curbyte m) with
    | None => None
    | Some a =>
        let m := set_sync_count (u8 (sync_count m + 1)) (set_mac_sync a m) in
        let m :=
          if 3 <=? sync_count m then
            if (bytes_at (mac_sync m) 0 =? 0xAA) && (bytes_at (mac_sync m) 1 =? 0x55)
               && (bytes_at (mac_sync m) 2 =? 0x42)
            then set_pkt_read 0 (set_pkt_len 0 (set_pkt_ptr 0 (set_mstate MAC_PACKET m)))
            else set_idle_zeros 0 (set_mstate MAC_IDLE m)
          else m in
        Some (set_g_curbyte 0 (set_g_bitpos 8 m))
    end.

(** The first statement of [case MAC_PACKET]: the length of the packet, once
    the header is complete.  [None] is [goto make_idle]. *)
Definition packet_length (m : mac) : option mac :=
  if (pkt_len m =? 0) && (sizeof_demod_pkt_header_t <? pkt_read m) then
    if negb (header_version (pkt m) =? PKT_VER_1) && negb (header_version (pkt m) =? PKT_VER_2)
    then None
    else if header_type (pkt m) =? PKTTYPE_CTRL then Some (set_pkt_len CTRL_LEN m)
    else if header_type (pkt m) =? PKTTYPE_DATA then Some (set_pkt_len DATA_LEN m)
    else None
  else Some m.

(** [case MAC_PACKET] *)
Definition put_bit_packet (m : mac) (bit : Z) : option mac :=
  match packet_length m with
  | None => Some (make_idle m)
  | Some m =>
      let m := shift_in m bit in
      match (if g_bitpos m =? 0
             then match store (pkt m) (pkt_read m) (g_curbyte m) with
                  | None => None
                  | Some a => Some (set_g_curbyte 0 (set_g_bitpos 8
                                (set_pkt_read (u32 (pkt_read m + 1)) (set_pkt a m))))
                  end
             else Some m) with
      | None => None
      | Some m =>
          if negb (pkt_len m =? 0) && (pkt_len m <=? pkt_read m)
          then Some (make_idle (set_pktReady 1 m))
          else Some m
      end
  end.

(** put_bit with a MAC layer on it *)
Definition putBitMac (m : mac) (bit : Z) : option mac :=
  match mstate m with
  | MAC_IDLE => Some (put_bit_idle m bit)
  | MAC_SYNC => put_bit_sync m bit
  | MAC_PACKET => put_bit_packet m bit
  end.

(** A run of the demodulator's callbacks. *)
Fixpoint put_bits (bits : list Z) (m : mac) : option mac :=
  match bits with
  | [] => Some m
  | b :: bits => match putBitMac m b with None => None | Some m => put_bits bits m end
  end.

Lemma put_bits_app l1 l2 m :
  put_bits (l1 ++ l2) m = match put_bits l1 m with None => None | Some m' => put_bits l2 m' end.
Proof.
  revert m. induction l1 as [|b l1 IH]; intros m; cbn [app put_bits]; [done|].
  destruct (putBitMac m b); [apply IH|done].
Qed.

Lemma CTRL_LEN_val : CTRL_LEN = 32.
Proof. reflexivity. Qed.
Lemma DATA_LEN_val : DATA_LEN = 264.
Proof. reflexivity. Qed.

(** Arithmetic on packet lengths: replace the [sizeof]s by their values. *)
Ltac mac_lia :=
  unfold sizeof_demod_pkt_header_t in *; rewrite ?CTRL_LEN_val, ?DATA_LEN_val in *; lia.

(** ** Invariant *)

Definition packet_progress (m : mac) : Prop :=
  (pkt_len m = 0 /\ 0 <= pkt_read m <= 3) \/
  ((pkt_len m = CTRL_LEN \/ pkt_len m = DATA_LEN) /\ 3 <= pkt_read m < pkt_len m).

Record mac_inv (m : mac) : Prop := {
  inv_pkt : length (pkt m) = Z.to_nat sizeof_demod_pkt_t;
  inv_pkt_bytes : Forall (fun b => is_u8 b) (pkt m);
  inv_sync : length (mac_sync m) = 4%nat;
  inv_zeros : is_u8 (idle_zeros m);
  inv_curbyte : is_u8 (g_curbyte m);
  inv_bitpos : mstate m <> MAC_IDLE -> 1 <= g_bitpos m <= 8;
  inv_sync_count : mstate m = MAC_SYNC -> 0 <= sync_count m <= 2;
  inv_progress : mstate m = MAC_PACKET -> packet_progress m
}.

Lemma mac_init_inv : mac_inv mac_init.
Proof.
  split; try done; try (simpl; lia).
  apply Forall_replicate. lia.
Qed.

Lemma shift_in_byte c bit : is_u8 c ->
  is_u8 (if negb (bit =? 0) then Z.lor (Z.shiftr c 1) 0x80 else Z.shiftr c 1).
Proof.
  intros Hc. assert (is_u8 (Z.shiftr c 1)) by (apply (shiftr_range 8); lia).
  case_match; [apply lor_u8; lia|done].
Qed.

Lemma shift_in_eq m bit :
  shift_in m bit =
  set_g_curbyte (if negb (bit =? 0) then Z.lor (Z.shiftr (g_curbyte m) 1) 0x80
                 else Z.shiftr (g_curbyte m) 1)
    (set_g_bitpos (g_bitpos m - 1) m).
Proof. unfold shift_in. by destruct (negb (bit =? 0)), m. Qed.

Lemma put_bit_idle_inv m bit :
  mac_inv m -> mstate m = MAC_IDLE -> mac_inv (put_bit_idle m bit).
Proof.
  intros [] Hst. unfold put_bit_idle.
  repeat case_match; split; simpl; try done; try lia; try apply u8_range; congruence.
Qed.

Lemma shift_in_inv m bit :
  mac_inv m -> g_bitpos m <> 1 -> mac_inv (shift_in m bit).
Proof.
  intros [] Hne. rewrite shift_in_eq. split; simpl; try done.
  - by apply shift_in_byte.
  - intros Hst. specialize (inv_bitpos0 Hst). lia.
Qed.

Lemma put_bit_sync_inv m bit :
  mac_inv m -> mstate m = MAC_SYNC ->
  exists m', put_bit_sync m bit = Some m' /\ mac_inv m'.
Proof.
  intros Hinv Hst. pose proof Hinv as [? ? ? ? Hcb Hbp Hsc _]. unfold put_bit_sync.
  destruct (Z.eqb_spec (g_bitpos (shift_in m bit)) 0) as [E|E]; simpl.
  2: { eexists. split; [done|]. apply shift_in_inv; [done|].
       rewrite shift_in_eq in E. simpl in E. lia. }
  pose proof (shift_in_byte _ bit Hcb) as Hc. rewrite shift_in_eq in *. simpl in *.
  assert (Hne : mstate m <> MAC_IDLE) by congruence.
  specialize (Hbp Hne). specialize (Hsc Hst).
  set (cb := if negb (bit =? 0) then _ else _) in *. destruct (Z.eqb_spec cb 0x00) as [E0|E0].
  - eexists. split; [done|]. split; simpl; try done; try lia; intros; congruence.
  - rewrite store_in by lia. eexists. split; [done|].
    unfold u8. rewrite Z.mod_small by lia.
    repeat case_match; split; simpl; try done; try rewrite length_insert; try done;
      try lia; try congruence.
    intros _. left. simpl. lia.
Qed.

Lemma packet_length_inv m m' :
  mac_inv m -> mstate m = MAC_PACKET -> packet_length m = Some m' ->
  mac_inv m' /\ mstate m' = MAC_PACKET /\ pkt m' = pkt m /\ g_bitpos m' = g_bitpos m /\
  g_curbyte m' = g_curbyte m /\ pkt_read m' = pkt_read m /\ pktReady m' = pktReady m /\
  (pkt_len m' = 0 -> pkt_read m' <= 2).
Proof.
  intros Hinv Hst. pose proof Hinv as [? ? ? ? ? ? ? Hp]. specialize (Hp Hst).
  unfold packet_length, sizeof_demod_pkt_header_t, packet_progress in *.
  destruct (Z.eqb_spec (pkt_len m) 0) as [E|E];
    destruct (Z.ltb_spec (1 + 1) (pkt_read m)) as [E'|E']; simpl.
  2-4: intros H'; injection H' as <-; intuition lia.
  destruct (_ && _); [done|].
  assert (Hr : pkt_read m = 3) by (unfold CTRL_LEN, DATA_LEN in *; intuition lia).
  destruct (header_type (pkt m) =? PKTTYPE_CTRL);
    [|destruct (header_type (pkt m) =? PKTTYPE_DATA); [|done]];
    intros H'; injection H' as <-; (split; [|by split_and!]);
    split; simpl; try done; intros _; right; simpl; rewrite Hr;
    unfold CTRL_LEN, DATA_LEN, sizeof_demod_pkt_ctrl_t, sizeof_demod_pkt_data_t,
      sizeof_demod_pkt_header_t, PAYLOAD_LEN; lia.
Qed.

Lemma make_idle_inv m : mac_inv m -> mac_inv (make_idle m).
Proof. intros []. unfold make_idle. split; simpl; try done; try lia; intros; congruence. Qed.

Lemma packet_read_bound m :
  mac_inv m -> mstate m = MAC_PACKET -> 0 <= pkt_read m < 264.
Proof.
  intros [? ? ? ? ? ? ? Hp] Hst. specialize (Hp Hst). unfold packet_progress in Hp.
  unfold CTRL_LEN, DATA_LEN, sizeof_demod_pkt_ctrl_t, sizeof_demod_pkt_data_t,
    sizeof_demod_pkt_header_t, PAYLOAD_LEN in Hp. lia.
Qed.

Lemma put_bit_packet_inv m bit :
  mac_inv m -> mstate m = MAC_PACKET ->
  exists m', put_bit_packet m bit = Some m' /\ mac_inv m'.
Proof.
  intros Hinv Hst. unfold put_bit_packet.
  destruct (packet_length m) as [m1|] eqn:El.
  2: { eexists. split; [done|]. by apply make_idle_inv. }
  destruct (packet_length_inv _ _ Hinv Hst El) as (Hinv1 & Hst1 & _ & _ & _ & _ & _ & Hlen).
  pose proof (packet_read_bound _ Hinv1 Hst1) as Hb.
  pose proof Hinv1 as [Hpl Hpb ? ? Hcb Hbp _ Hp]. specialize (Hp Hst1).
  assert (Hbp' := Hbp ltac:(congruence)).
  pose proof (shift_in_byte _ bit Hcb) as Hc.
  destruct (Z.eqb_spec (g_bitpos (shift_in m1 bit)) 0) as [E|E].
  - rewrite shift_in_eq in *. simpl in *.
    rewrite store_in by (rewrite Hpl; change (Z.of_nat (Z.to_nat sizeof_demod_pkt_t)) with 264; lia). simpl.
    rewrite (u32_id (pkt_read m1 + 1)) by lia.
    assert (Hf : Forall (fun b => is_u8 b)
      (<[Z.to_nat (pkt_read m1) := (if negb (bit =? 0) then Z.lor (Z.shiftr (g_curbyte m1) 1) 0x80
                 else Z.shiftr (g_curbyte m1) 1)]> (pkt m1))) by (by apply Forall_insert).
    destruct (negb (pkt_len m1 =? 0) && (pkt_len m1 <=? pkt_read m1 + 1)) eqn:Ed;
      eexists; (split; [done|]); split; simpl; rewrite ?length_insert; try done; try lia; try congruence.
    intros _. unfold packet_progress in *. simpl. mac_lia.
  - eexists. rewrite (shift_in_eq m1 bit) in *. simpl in *.
    assert (negb (pkt_len m1 =? 0) && (pkt_len m1 <=? pkt_read m1) = false) as ->.
    { unfold packet_progress in Hp. mac_lia. }
    split; [done|]. split; simpl; try done; try lia; intros; congruence.
Qed.

Lemma putBitMac_total m bit :
  mac_inv m -> exists m', putBitMac m bit = Some m' /\ mac_inv m'.
Proof.
  intros Hinv. unfold putBitMac. destruct (mstate m) eqn:Hst.
  - eexists. split; [done|]. by apply put_bit_idle_inv.
  - by apply put_bit_sync_inv.
  - by apply put_bit_packet_inv.
Qed.

Lemma put_bits_total bits : forall m,
  mac_inv m -> exists m', put_bits bits m = Some m' /\ mac_inv m'.
Proof.
  induction bits as [|b bits IH]; intros m Hinv; cbn [put_bits]; [by eexists|].
  destruct (putBitMac_total m b Hinv) as (m1 & -> & H1). by apply IH.
Qed.

(** C7. Memory safety of the MAC: whatever bits the demodulator delivers after
    reset, no call of putBitMac stores outside of [mac_sync] or of the packet
    buffer, and the state invariant holds after each of them. *)
Theorem putBitMac_safe bits :
  exists m, put_bits bits mac_init = Some m /\ mac_inv m.
Proof. apply put_bits_total, mac_init_inv. Qed.

(** ** The window in which a completed packet is stable

    [bits_to_write m] is a lower bound on the number of bits that must still
    arrive before the packet buffer is written. *)

Definition bits_to_write (m : mac) : Z :=
  match mstate m with
  | MAC_IDLE => Z.max 0 (33 - idle_zeros m) + 31
  | MAC_SYNC => g_bitpos m + 8 * (2 - sync_count m) + 8
  | MAC_PACKET => g_bitpos m
  end.

(** Not in the middle of a packet. *)
Definition quiet (m : mac) : Prop :=
  mstate m = MAC_PACKET -> pkt_read m = 0 /\ pkt_len m = 0.

Lemma packet_length_stable m :
  pkt_len m <> 0 \/ pkt_read m <= 2 -> packet_length m = Some m.
Proof.
  intros H. unfold packet_length.
  replace ((pkt_len m =? 0) && (sizeof_demod_pkt_header_t <? pkt_read m)) with false; [done|].
  symmetry. mac_lia.
Qed.

(** A bit that does not complete a byte only shifts. *)
Lemma packet_bit m bit :
  mstate m = MAC_PACKET -> packet_length m = Some m -> g_bitpos m <> 1 ->
  pkt_len m = 0 \/ pkt_read m < pkt_len m ->
  putBitMac m bit = Some (shift_in m bit).
Proof.
  intros Hst Hl Hbp Hlen. unfold putBitMac, put_bit_packet. rewrite Hst, Hl.
  rewrite shift_in_eq. simpl.
  replace (g_bitpos m - 1 =? 0) with false by (symmetry; lia).
  simpl. replace (negb (pkt_len m =? 0) && (pkt_len m <=? pkt_read m)) with false; [done|].
  symmetry. lia.
Qed.

Lemma quiet_step m bit m' :
  mac_inv m -> quiet m -> 1 < bits_to_write m -> putBitMac m bit = Some m' ->
  pkt m' = pkt m /\ pktReady m' = pktReady m /\ quiet m' /\
  bits_to_write m - 1 <= bits_to_write m'.
Proof.
  intros Hinv Hq Hb Hm. destruct (mstate m) eqn:Hst.
  - unfold putBitMac in Hm. rewrite Hst in Hm. injection Hm as <-.
    unfold put_bit_idle, bits_to_write, quiet in *. rewrite Hst in *.
    pose proof (inv_zeros _ Hinv).
    repeat case_match; simpl in *; rewrite ?u8_id by lia;
      rewrite ?Hst; split_and!; try done; try congruence; try lia.
  - pose proof Hinv as [? ? Hs ? Hcb Hbp Hsc _].
    assert (Hbp' := Hbp ltac:(congruence)). specialize (Hsc Hst).
    unfold putBitMac in Hm. rewrite Hst in Hm. unfold put_bit_sync in Hm.
    unfold bits_to_write in Hb |- *. rewrite Hst in *.
    rewrite shift_in_eq in Hm. simpl in Hm.
    set (cb := if negb (bit =? 0) then _ else _) in *.
    destruct (Z.eqb_spec (g_bitpos m - 1) 0) as [E|E]; simpl in Hm.
    2: { injection Hm as <-. simpl. rewrite Hst. unfold quiet. simpl.
         split_and!; [done|done|congruence|lia]. }
    destruct (Z.eqb_spec cb 0) as [E0|E0].
    { injection Hm as <-. simpl. split_and!; [done..|unfold quiet; simpl; congruence|lia]. }
    rewrite store_in in Hm by lia. unfold u8 in Hm. rewrite Z.mod_small in Hm by lia.
    destruct (Z.leb_spec 3 (sync_count m + 1)); simpl in Hm;
      [destruct (_ && _)|]; injection Hm as <-; simpl; rewrite ?Hst; unfold quiet; simpl;
      split_and!; try done; try congruence; lia.
  - destruct (Hq Hst) as [Hr Hl].
    assert (Hbp := inv_bitpos _ Hinv ltac:(congruence)).
    unfold bits_to_write in Hb |- *. rewrite Hst in *.
    rewrite packet_bit in Hm; [|done|apply packet_length_stable; lia|lia|lia].
    injection Hm as <-. rewrite shift_in_eq. simpl. rewrite Hst. unfold quiet. simpl.
    split_and!; [done|done|by rewrite Hr, Hl|lia].
Qed.

Lemma quiet_run bits : forall m,
  mac_inv m -> quiet m -> Z.of_nat (length bits) < bits_to_write m ->
  exists m', put_bits bits m = Some m' /\ mac_inv m' /\ pkt m' = pkt m /\
             pktReady m' = pktReady m /\ quiet m' /\
             bits_to_write m - Z.of_nat (length bits) <= bits_to_write m'.
Proof.
  induction bits as [|b bits IH]; intros m Hinv Hq Hlen; cbn [put_bits length] in *.
  { exists m. split_and!; try done. lia. }
  destruct (putBitMac_total m b Hinv) as (m1 & E & H1). rewrite E.
  destruct (quiet_step _ _ _ Hinv Hq ltac:(lia) E) as (Hp & Hr & Hq1 & Hw).
  destruct (IH m1 H1 Hq1 ltac:(lia)) as (m' & E' & Hi' & Hp' & Hr' & Hq' & Hw').
  exists m'. split_and!; try done; try congruence. lia.
Qed.

(** The step that completes a packet ends in a fresh idle state. *)
Lemma completion_idle m bit m' :
  mac_inv m -> putBitMac m bit = Some m' -> pktReady m' <> pktReady m ->
  mstate m' = MAC_IDLE /\ idle_zeros m' = 0 /\ pktReady m' = 1.
Proof.
  intros Hinv Hm Hr. unfold putBitMac in Hm. destruct (mstate m) eqn:Hst.
  - injection Hm as <-. contradict Hr. unfold put_bit_idle. by repeat case_match.
  - exfalso. apply Hr. unfold put_bit_sync in Hm. rewrite shift_in_eq in Hm. simpl in Hm.
    unfold store in Hm.
    repeat (case_match; simplify_eq; simpl; try done).
  - unfold put_bit_packet in Hm. destruct (packet_length m) as [m1|] eqn:El.
    2: { injection Hm as <-. done. }
    destruct (packet_length_inv _ _ Hinv Hst El) as (_ & _ & _ & _ & _ & _ & Hr1 & _).
    rewrite shift_in_eq in Hm. simpl in Hm. unfold store in Hm.
    repeat (case_match; simplify_eq; simpl in *; try done).
Qed.

(** Once putBitMac has raised [pktReady], the next 63 bits leave the packet
    buffer and the flag untouched whatever they are: at least 33 zeros, the sync
    word and one byte must be received before the buffer is written again. *)
Theorem packet_stable_63 m bit m' bits :
  mac_inv m -> putBitMac m bit = Some m' -> pktReady m = 0 -> pktReady m' = 1 ->
  (length bits <= 63)%nat ->
  exists m'', put_bits bits m' = Some m'' /\ pkt m'' = pkt m' /\ pktReady m'' = 1.
Proof.
  intros Hinv Hm H0 H1 Hlen.
  destruct (completion_idle _ _ _ Hinv Hm ltac:(lia)) as (Hst & Hz & _).
  destruct (putBitMac_total m bit Hinv) as (mx & Ex & Hinv'). simplify_eq.
  destruct (quiet_run bits m') as (m'' & E & _ & Hp & Hr & _); try done.
  - unfold quiet. by rewrite Hst.
  - unfold bits_to_write. rewrite Hst, Hz. lia.
  - exists m''. split_and!; congruence.
Qed.

(** ** Reception of a frame

    The transmission format of the comment at the top of
    orchard/esplanade_updater.c: a preamble of zero bytes, the sync bytes
    0xAA 0x55 0x42 and the packet, each byte least significant bit first. *)

Definition bits_of_byte (b : Z) : list Z :=
  map (fun i => Z.b2z (Z.testbit b i)) [0; 1; 2; 3; 4; 5; 6; 7].
Definition bits_of_bytes (l : list Z) : list Z := concat (map bits_of_byte l).
Definition sync_bytes : list Z := [0xAA; 0x55; 0x42].
Definition frame (zeros : nat) (p : list Z) : list Z :=
  replicate zeros 0 ++ bits_of_bytes sync_bytes ++ bits_of_bytes p.

(** A packet the MAC accepts: a known version, and the length of its type. *)
Definition wf_packet (p : list Z) : Prop :=
  Forall (fun b => is_u8 b) p /\
  (header_version p = PKT_VER_1 \/ header_version p = PKT_VER_2) /\
  ((header_type p = PKTTYPE_CTRL /\ Z.of_nat (length p) = CTRL_LEN) \/
   (header_type p = PKTTYPE_DATA /\ Z.of_nat (length p) = DATA_LEN)).

Lemma idle_zeros_run n : forall m,
  mac_inv m -> mstate m = MAC_IDLE ->
  put_bits (replicate n 0) m
  = Some (set_idle_zeros (Z.min 255 (idle_zeros m + Z.of_nat n)) m).
Proof.
  induction n as [|n IH]; intros m Hinv Hst; cbn [replicate put_bits].
  { pose proof (inv_zeros _ Hinv). rewrite Z.add_0_r, Z.min_r by lia. by destruct m. }
  pose proof (inv_zeros _ Hinv) as Hz.
  assert (E : putBitMac m 0 = Some (set_idle_zeros (Z.min 255 (idle_zeros m + 1)) m)).
  { unfold putBitMac, put_bit_idle. rewrite Hst. simpl.
    destruct (Z.ltb_spec 32 (idle_zeros m)); [destruct (Z.ltb_spec (idle_zeros m) 255)|];
      rewrite ?u8_id by lia; [by rewrite Z.min_r by lia| |by rewrite Z.min_r by lia].
    rewrite Z.min_l by lia. replace 255 with (idle_zeros m) by lia. by destruct m. }
  destruct (putBitMac_total m 0 Hinv) as (mx & Ex & Hx). rewrite E in *. simplify_eq.
  rewrite IH by first [done | simpl; congruence]. simpl. f_equal. unfold set_idle_zeros. simpl.
  f_equal. lia.
Qed.

(** The last 21 bits of the sync word, once its second bit has ended the idle
    state. *)
Lemma sync_tail pp pk pr z a b c d pl prd :
  put_bits (tail (tail (bits_of_bytes sync_bytes)))
    (Mac MAC_SYNC pp pk pr 6 0x80 z [a; b; c; d] 0 pl prd)
  = Some (Mac MAC_PACKET 0 pk pr 8 0 z [0xAA; 0x55; 0x42; d] 3 0 0).
Proof. vm_compute. reflexivity. Qed.

(** The sync word: from an idle state that has seen 32 zeros (or more) to the
    first bit of the packet. *)
Lemma sync_run m :
  mac_inv m -> mstate m = MAC_IDLE -> 32 <= idle_zeros m ->
  exists m', put_bits (bits_of_bytes sync_bytes) m = Some m' /\
    mac_inv m' /\ mstate m' = MAC_PACKET /\ g_bitpos m' = 8 /\ g_curbyte m' = 0 /\
    pkt_read m' = 0 /\ pkt_len m' = 0 /\ pkt m' = pkt m /\ pktReady m' = pktReady m.
Proof.
  intros Hinv Hst Hz. pose proof (inv_zeros _ Hinv). pose proof (inv_sync _ Hinv) as Hs.
  destruct (put_bits_total (bits_of_bytes sync_bytes) m Hinv) as (m' & E & Hinv').
  exists m'. split; [done|]. split; [done|]. revert E.
  change (bits_of_bytes sync_bytes) with (0 :: 1 :: tail (tail (bits_of_bytes sync_bytes))).
  cbn [put_bits]. pose proof (idle_zeros_run 1 m Hinv Hst) as E1.
  cbn [replicate put_bits] in E1. destruct (putBitMac m 0) as [m1|]; [|done].
  injection E1 as ->.
  assert (Hz' : 32 < Z.min 255 (idle_zeros m + Z.of_nat 1)) by lia. revert Hz'.
  generalize (Z.min 255 (idle_zeros m + Z.of_nat 1)). intros z Hz'.
  destruct m as [st pp pk pr bp cb iz ms sc pl prd]. simpl in Hs, Hst. subst st.
  destruct ms as [|a [|b [|c [|d [|]]]]]; try done.
  unfold putBitMac, put_bit_idle, set_idle_zeros. cbn [mstate idle_zeros].
  replace (32 <? z) with true by (symmetry; lia).
  intros E. assert (E2 := sync_tail pp pk pr z a b c d pl prd).
  unfold set_sync_count, set_g_curbyte, set_g_bitpos, set_mstate in E.
  cbn [Z.eqb negb mstate pkt_ptr pkt pktReady g_bitpos g_curbyte idle_zeros mac_sync sync_count pkt_len
       pkt_read] in E, E2.
  rewrite E2 in E. injection E as <-. by split_and!.
Qed.

Lemma shift_in_bits b : is_u8 b ->
  forall m, g_bitpos m = 8 -> g_curbyte m = 0 ->
  fold_left shift_in (bits_of_byte b) m = set_g_curbyte b (set_g_bitpos 0 m).
Proof.
  intros Hb m Hp Hc.
  assert (Eb : b = Z.b2z (Z.testbit b 0) + 2 * Z.b2z (Z.testbit b 1)
     + 4 * Z.b2z (Z.testbit b 2) + 8 * Z.b2z (Z.testbit b 3) + 16 * Z.b2z (Z.testbit b 4)
     + 32 * Z.b2z (Z.testbit b 5) + 64 * Z.b2z (Z.testbit b 6) + 128 * Z.b2z (Z.testbit b 7)).
  { rewrite !Z.testbit_spec' by lia.
    change (2 ^ 0) with 1. change (2 ^ 1) with 2. change (2 ^ 2) with 4.
    change (2 ^ 3) with 8. change (2 ^ 4) with 16. change (2 ^ 5) with 32.
    change (2 ^ 6) with 64. change (2 ^ 7) with 128.
    clear Hp Hc. Z.div_mod_to_equations. lia. }
  rewrite Eb at 2. clear Eb. destruct m. simpl in Hp, Hc. subst.
  unfold bits_of_byte. cbn [map fold_left].
  generalize (Z.testbit b 0) (Z.testbit b 1) (Z.testbit b 2) (Z.testbit b 3)
    (Z.testbit b 4) (Z.testbit b 5) (Z.testbit b 6) (Z.testbit b 7).
  intros [] [] [] [] [] [] [] []; reflexivity.
Qed.

(** The length of the packet is settled, or not needed yet. *)
Definition length_known (m : mac) : Prop := pkt_len m <> 0 \/ pkt_read m <= 2.

Lemma packet_bits7 l : forall m,
  mstate m = MAC_PACKET -> length_known m ->
  pkt_len m = 0 \/ pkt_read m < pkt_len m ->
  Z.of_nat (length l) < g_bitpos m ->
  put_bits l m = Some (fold_left shift_in l m).
Proof.
  induction l as [|b l IH]; intros m Hst Hl Hlen Hbp; cbn [put_bits fold_left length] in *; [done|].
  rewrite packet_bit by (done || lia || by apply packet_length_stable).
  apply IH; rewrite shift_in_eq; simpl; [done|done|done|lia].
Qed.

Lemma fold_shift_fields l : forall m,
  let m' := fold_left shift_in l m in
  mstate m' = mstate m /\ pkt_len m' = pkt_len m /\ pkt_read m' = pkt_read m /\
  pkt m' = pkt m /\ g_bitpos m' = g_bitpos m - Z.of_nat (length l).
Proof.
  induction l as [|b l IH]; intros m; cbn [fold_left length]; cbv zeta.
  { split_and!; (done || lia). }
  destruct (IH (shift_in m b)) as (-> & -> & -> & -> & ->).
  rewrite shift_in_eq. simpl. split_and!; (done || lia).
Qed.

(** One whole byte of a packet. *)
Lemma packet_byte m m1 b :
  mac_inv m -> mstate m = MAC_PACKET -> g_bitpos m = 8 -> g_curbyte m = 0 -> is_u8 b ->
  packet_length m = Some m1 ->
  put_bits (bits_of_byte b) m
  = Some (let m2 := set_g_curbyte 0 (set_g_bitpos 8 (set_pkt_read (pkt_read m + 1)
                      (set_pkt (<[Z.to_nat (pkt_read m) := b]> (pkt m)) m1))) in
          if negb (pkt_len m1 =? 0) && (pkt_len m1 <=? pkt_read m + 1)
          then make_idle (set_pktReady 1 m2) else m2).
Proof.
  intros Hinv Hst Hbp Hcb Hb Hl.
  destruct (packet_length_inv _ _ Hinv Hst Hl) as (Hinv1 & Hst1 & Hpk & Hbp1 & Hcb1 & Hrd & _ & Hk).
  assert (Hl1 : packet_length m1 = Some m1).
  { apply packet_length_stable. destruct (decide (pkt_len m1 = 0)); [right|left]; auto. }
  pose proof (packet_read_bound _ Hinv1 Hst1) as Hr.
  assert (Hprog : pkt_len m1 = 0 \/ pkt_read m1 < pkt_len m1).
  { pose proof (inv_progress _ Hinv1 Hst1) as Hp. unfold packet_progress in Hp. mac_lia. }
  set (l7 := map (fun i => Z.b2z (Z.testbit b i)) [0; 1; 2; 3; 4; 5; 6]).
  change (bits_of_byte b) with (l7 ++ [Z.b2z (Z.testbit b 7)]).
  assert (put_bits (l7 ++ [Z.b2z (Z.testbit b 7)]) m = put_bits (l7 ++ [Z.b2z (Z.testbit b 7)]) m1) as ->.
  { assert (Hsame : forall x, putBitMac m x = putBitMac m1 x).
    { intros x. unfold putBitMac, put_bit_packet. by rewrite Hst, Hst1, Hl, Hl1. }
    subst l7. cbn [put_bits app map]. by rewrite Hsame. }
  rewrite put_bits_app.
  rewrite packet_bits7; [|done| |done|rewrite Hbp1, Hbp; simpl; lia].
  2: { unfold length_known. destruct (decide (pkt_len m1 = 0)); [right|left]; auto. }
  destruct (fold_shift_fields l7 m1) as (E1 & E2 & E3 & E4 & E5).
  assert (Hlast := shift_in_bits b Hb m1 ltac:(congruence) ltac:(congruence)).
  change (bits_of_byte b) with (l7 ++ [Z.b2z (Z.testbit b 7)]) in Hlast.
  rewrite fold_left_app in Hlast.
  set (s := fold_left shift_in l7 m1) in *. set (x7 := Z.b2z (Z.testbit b 7)) in *.
  change (fold_left shift_in [x7] s) with (shift_in s x7) in Hlast. clearbody x7 s.
  cbn [put_bits]. unfold putBitMac, put_bit_packet. rewrite E1, Hst1.
  rewrite packet_length_stable.
  2: { rewrite E2, E3. destruct (decide (pkt_len m1 = 0)); lia. }
  rewrite Hlast. simpl.
  rewrite store_in by (rewrite (inv_pkt _ Hinv1);
    change (Z.of_nat (Z.to_nat sizeof_demod_pkt_t)) with 264; lia).
  rewrite u32_id by lia. simpl. rewrite Hrd, Hpk.
  destruct (negb (pkt_len m1 =? 0) && (pkt_len m1 <=? pkt_read m + 1)); reflexivity.
Qed.

(** The receiver has stored the prefix [d] of the packet [p]. *)
Record receiving (p d : list Z) (m : mac) : Prop := {
  rc_inv : mac_inv m;
  rc_state : mstate m = MAC_PACKET;
  rc_bitpos : g_bitpos m = 8;
  rc_curbyte : g_curbyte m = 0;
  rc_read : pkt_read m = Z.of_nat (length d);
  rc_bytes : take (length d) (pkt m) = d;
  rc_len : pkt_len m = if (length d <=? 3)%nat then 0 else Z.of_nat (length p)
}.

Lemma wf_packet_length p : wf_packet p ->
  Z.of_nat (length p) = CTRL_LEN \/ Z.of_nat (length p) = DATA_LEN.
Proof. intros (_ & _ & [[_ H]|[_ H]]); auto. Qed.

Lemma receiving_length p d b rest m :
  wf_packet p -> p = d ++ b :: rest -> receiving p d m ->
  exists m1, packet_length m = Some m1 /\ pkt m1 = pkt m /\ pktReady m1 = pktReady m /\
    mstate m1 = MAC_PACKET /\
    pkt_len m1 = if (length d <=? 2)%nat then 0 else Z.of_nat (length p).
Proof.
  intros Hwf Hp [Hinv Hst _ _ Hr Hb Hl].
  assert (Hlp : (length p = length d + S (length rest))%nat) by (rewrite Hp, length_app; done).
  pose proof (wf_packet_length p Hwf) as Hlen.
  destruct (decide (length d = 3)%nat) as [E3|N3].
  - rewrite E3 in *. simpl in Hl. simpl.
    unfold packet_length. rewrite Hl, Hr. simpl.
    assert (Hh : forall i, 0 <= i < 3 -> bytes_at (pkt m) i = bytes_at p i).
    { intros i Hi. rewrite <- (bytes_at_take _ 3), Hb by lia. rewrite Hp.
      unfold bytes_at. rewrite app_nth1 by lia. done. }
    destruct Hwf as (_ & Hv & Ht). unfold header_version, header_type in *.
    rewrite (Hh 0), (Hh 1) by lia.
    assert (negb (bytes_at p 0 =? PKT_VER_1) && negb (bytes_at p 0 =? PKT_VER_2) = false) as ->.
    { destruct Hv as [-> | ->]; reflexivity. }
    destruct Ht as [[-> Ht]|[-> Ht]]; simpl; eexists; by split_and!.
  - exists m. rewrite packet_length_stable.
    2: { rewrite Hl, Hr. destruct (Nat.leb_spec (length d) 3); [right; lia|left; mac_lia]. }
    split_and!; try done. rewrite Hl.
    destruct (Nat.leb_spec (length d) 3), (Nat.leb_spec (length d) 2); done || lia.
Qed.

Lemma receive_bytes p rest : forall d m,
  wf_packet p -> p = d ++ rest -> rest <> [] -> receiving p d m ->
  exists m', put_bits (bits_of_bytes rest) m = Some m' /\ mac_inv m' /\
    mstate m' = MAC_IDLE /\ pktReady m' = 1 /\ take (length p) (pkt m') = p.
Proof.
  induction rest as [|b rest IH]; intros d m Hwf Hp Hne Hrc; [done|].
  destruct (receiving_length _ _ _ _ _ Hwf Hp Hrc) as (m1 & El & Hpk & Hpr & Hst1 & Hlen1).
  pose proof Hrc as [Hinv Hst Hbp Hcb Hr Hb _].
  assert (Hlp : (length p = length d + S (length rest))%nat) by (rewrite Hp, length_app; done).
  assert (Hb8 : is_u8 b).
  { destruct Hwf as (Hf & _ & _). rewrite List.Forall_forall in Hf. apply Hf.
    rewrite Hp. apply in_elt. }
  assert (Hpl := wf_packet_length p Hwf).
  change (bits_of_bytes (b :: rest)) with (bits_of_byte b ++ bits_of_bytes rest).
  assert (E := packet_byte m m1 b Hinv Hst Hbp Hcb Hb8 El). rewrite Hr, Nat2Z.id in E.
  destruct (put_bits_total (bits_of_byte b) m Hinv) as (mx & Ex & Hx).
  rewrite put_bits_app. rewrite Ex. rewrite E in Ex. clear E. rewrite Hlen1 in Ex.
  assert (Hk : (length d < length (pkt m))%nat) by
    (rewrite (inv_pkt _ Hinv); change (Z.to_nat sizeof_demod_pkt_t) with 264%nat; mac_lia).
  assert (Htake : take (S (length d)) (<[length d:=b]> (pkt m)) = d ++ [b]).
  { rewrite (take_S_r _ _ b) by (apply list_lookup_insert_eq; lia).
    rewrite take_insert_ge by lia. by rewrite Hb. }
  destruct rest as [|b' rest].
  - replace (negb _ && _) with true in Ex.
    2: { symmetry. destruct (Nat.leb_spec (length d) 2); simpl in *; mac_lia. }
    injection Ex as <-. eexists. split; [done|]. split; [done|]. simpl.
    split_and!; [done|done|]. rewrite Hlp, Nat.add_1_r. by rewrite Htake, Hp.
  - replace (negb _ && _) with false in Ex.
    2: { symmetry. destruct (Nat.leb_spec (length d) 2); simpl in *; mac_lia. }
    injection Ex as <-. apply (IH (d ++ [b])); [done| |done|].
    { by rewrite Hp, <- app_assoc. }
    split; simpl; try done; rewrite ?length_app; simpl; try lia.
    + by rewrite Nat.add_1_r.
    + rewrite Hlen1.
      destruct (Nat.leb_spec (length d) 2), (Nat.leb_spec (length d + 1) 3); done || lia.
Qed.

(** The whole frame, from an idle state. *)
Lemma receive_frame_idle n p m :
  mac_inv m -> mstate m = MAC_IDLE -> (32 <= n)%nat -> wf_packet p ->
  exists m', put_bits (frame n p) m = Some m' /\ mac_inv m' /\
    mstate m' = MAC_IDLE /\ pktReady m' = 1 /\ take (length p) (pkt m') = p.
Proof.
  intros Hinv Hst Hn Hwf. unfold frame.
  destruct (put_bits_total (replicate n 0) m Hinv) as (m0 & E0 & H0).
  rewrite put_bits_app, E0. rewrite (idle_zeros_run n m Hinv Hst) in E0. simplify_eq.
  pose proof (inv_zeros _ Hinv).
  destruct (sync_run _ H0) as (m1 & E1 & Hinv1 & Hst1 & Hb1 & Hc1 & Hr1 & Hl1 & _);
    [done|simpl; lia|].
  rewrite put_bits_app, E1.
  destruct (receive_bytes p p [] m1) as (m' & E' & ?); try done.
  { intros ->. destruct (wf_packet_length _ Hwf) as [E|E]; done. }
  exists m'. done.
Qed.

(** ** Recovery: the pilot tone resynchronises the receiver from any state *)

(** Upper bound on the zero bits needed to reach the idle state with more than
    32 zeros counted. *)
Definition bits_to_idle (m : mac) : Z :=
  match mstate m with
  | MAC_IDLE => Z.max 0 (33 - idle_zeros m)
  | MAC_SYNC => 33 + 8 * 264 + g_bitpos m + 8 * (2 - sync_count m)
  | MAC_PACKET => 33 + 8 * (263 - pkt_read m) + g_bitpos m
  end.

Lemma bits_to_idle_bound m : mac_inv m -> 0 <= bits_to_idle m <= 2169.
Proof.
  intros Hinv. pose proof (inv_zeros _ Hinv). unfold bits_to_idle.
  destruct (mstate m) eqn:Hst; [lia| |];
    pose proof (inv_bitpos _ Hinv ltac:(congruence)).
  - pose proof (inv_sync_count _ Hinv Hst). lia.
  - pose proof (packet_read_bound _ Hinv Hst). lia.
Qed.

Lemma bits_to_idle_step m m' :
  mac_inv m -> putBitMac m 0 = Some m' -> bits_to_idle m' <= Z.max 0 (bits_to_idle m - 1).
Proof.
  intros Hinv Hm. destruct (putBitMac_total m 0 Hinv) as (mx & Ex & Hinv'). simplify_eq.
  unfold putBitMac in Hm. destruct (mstate m) eqn:Hst; [| |].
  - injection Hm as <-. pose proof (inv_zeros _ Hinv).
    unfold put_bit_idle. cbn [Z.eqb negb].
    destruct (Z.ltb_spec 32 (idle_zeros m));
      [destruct (Z.ltb_spec (idle_zeros m) 255)|];
      unfold bits_to_idle; simpl; rewrite Hst, ?u8_id by lia; lia.
  - pose proof (inv_bitpos _ Hinv ltac:(congruence)) as Hbp.
    pose proof (inv_sync_count _ Hinv Hst) as Hsc. pose proof (inv_sync _ Hinv) as Hs.
    unfold put_bit_sync in Hm. rewrite shift_in_eq in Hm. simpl in Hm.
    unfold bits_to_idle. rewrite Hst.
    destruct (Z.eqb_spec (g_bitpos m - 1) 0) as [E|E]; simpl in Hm.
    2: { injection Hm as <-. simpl. rewrite Hst. lia. }
    destruct (Z.eqb_spec (Z.shiftr (g_curbyte m) 1) 0); [injection Hm as <-; simpl; lia|].
    rewrite store_in in Hm by lia. unfold u8 in Hm. rewrite Z.mod_small in Hm by lia.
    destruct (Z.leb_spec 3 (sync_count m + 1)); [destruct (_ && _)|]; injection Hm as <-;
      simpl; rewrite ?Hst; lia.
  - pose proof (inv_bitpos _ Hinv ltac:(congruence)) as Hbp.
    unfold put_bit_packet in Hm. unfold bits_to_idle at 2. rewrite Hst.
    pose proof (packet_read_bound _ Hinv Hst).
    destruct (packet_length m) as [m1|] eqn:El.
    2: { injection Hm as <-. unfold bits_to_idle. simpl. lia. }
    destruct (packet_length_inv _ _ Hinv Hst El) as (Hinv1 & Hst1 & _ & Hb1 & _ & Hr1 & _).
    rewrite shift_in_eq in Hm. simpl in Hm.
    destruct (Z.eqb_spec (g_bitpos m1 - 1) 0) as [E|E].
    + rewrite store_in in Hm by (rewrite (inv_pkt _ Hinv1);
        change (Z.of_nat (Z.to_nat sizeof_demod_pkt_t)) with 264; lia).
      simpl in Hm. rewrite u32_id in Hm by lia.
      destruct (_ && _); injection Hm as <-; unfold bits_to_idle; simpl; rewrite ?Hst1; lia.
    + simpl in Hm. destruct (_ && _); injection Hm as <-; unfold bits_to_idle; simpl;
        rewrite ?Hst1; lia.
Qed.

Lemma drain n : forall m,
  mac_inv m -> bits_to_idle m <= Z.of_nat n ->
  exists m', put_bits (replicate n 0) m = Some m' /\ mac_inv m' /\
    mstate m' = MAC_IDLE /\ 32 < idle_zeros m'.
Proof.
  induction n as [|n IH]; intros m Hinv Hn; cbn [replicate put_bits].
  - pose proof (bits_to_idle_bound _ Hinv). exists m. split; [done|]. split; [done|].
    unfold bits_to_idle in Hn. destruct (mstate m) eqn:Hst; [split; [done|lia]| |].
    + pose proof (inv_bitpos _ Hinv ltac:(congruence)).
      pose proof (inv_sync_count _ Hinv Hst). lia.
    + pose proof (inv_bitpos _ Hinv ltac:(congruence)).
      pose proof (packet_read_bound _ Hinv Hst). lia.
  - destruct (putBitMac_total m 0 Hinv) as (m1 & E & H1). rewrite E.
    pose proof (bits_to_idle_step _ _ Hinv E). apply IH; [done|lia].
Qed.

Lemma receive_frame_any n p m :
  mac_inv m -> (2201 <= n)%nat -> wf_packet p ->
  exists m', put_bits (frame n p) m = Some m' /\ mac_inv m' /\
    mstate m' = MAC_IDLE /\ pktReady m' = 1 /\ take (length p) (pkt m') = p.
Proof.
  intros Hinv Hn Hwf.
  assert (n = 2169 + (n - 2169))%nat as -> by lia.
  unfold frame. rewrite replicate_add, <- app_assoc, put_bits_app.
  pose proof (bits_to_idle_bound _ Hinv).
  destruct (drain 2169 m Hinv) as (m1 & E1 & H1 & Hst1 & _); [lia|]. rewrite E1.
  apply receive_frame_idle; [done|done|lia|done].
Qed.

(** C5. Reception: from every state the receiver can be in, a preamble of at
    least 2201 zero bits (the pilot tone sends 4000) followed by the sync word and
    a well-formed control or data packet ends with [pktReady] raised and exactly
    the transmitted bytes in [pkt]. *)
Theorem receive_frame n p m :
  mac_inv m -> (2201 <= n)%nat -> wf_packet p ->
  exists m', put_bits (frame n p) m = Some m' /\ mac_inv m' /\
    mstate m' = MAC_IDLE /\ pktReady m' = 1 /\ take (length p) (pkt m') = p.
Proof. apply receive_frame_any. Qed.

(** A control packet used by the witnesses. *)
Definition sample_ctrl : list Z :=
  [1; 1; 0; 0; 0; 1; 0; 0; 9; 9; 9; 9; 1; 2; 3; 4; 5; 6; 7; 8; 9; 10; 11; 12; 13; 14; 15; 16;
   0xde; 0xad; 0xbe; 0xef].

Lemma sample_ctrl_wf : wf_packet sample_ctrl.
Proof.
  split_and!; [repeat constructor; lia|by left|by left].
Qed.

Lemma receive_frame_witness :
  exists m', put_bits (frame 2201 sample_ctrl) mac_init = Some m' /\ mac_inv m' /\
    mstate m' = MAC_IDLE /\ pktReady m' = 1 /\ take (length sample_ctrl) (pkt m') = sample_ctrl.
Proof. apply receive_frame; [apply mac_init_inv|lia|apply sample_ctrl_wf]. Defined.

(** The state one bit before the end of a frame. *)
Definition almost_received : mac :=
  match put_bits (removelast (frame 32 sample_ctrl)) mac_init with
  | Some m => m
  | None => mac_init
  end.

Lemma almost_received_inv : mac_inv almost_received.
Proof.
  unfold almost_received.
  destruct (put_bits_total (removelast (frame 32 sample_ctrl)) mac_init mac_init_inv)
    as (m & -> & H). done.
Qed.

Lemma almost_received_bit :
  pktReady almost_received = 0 /\ option_map pktReady (putBitMac almost_received 1) = Some 1.
Proof. vm_compute. split; reflexivity. Qed.

Lemma packet_stable_63_witness :
  exists m' m'', putBitMac almost_received 1 = Some m' /\ pktReady m' = 1 /\
    put_bits (replicate 63 1) m' = Some m'' /\ pkt m'' = pkt m' /\ pktReady m'' = 1.
Proof.
  pose proof almost_received_bit as [H0 H1]. pose proof almost_received_inv as Hinv.
  generalize dependent almost_received. intros m H0 H1 Hinv.
  destruct (putBitMac m 1) as [m'|] eqn:E; [|discriminate H1].
  injection H1 as H1.
  destruct (packet_stable_63 m 1 m' (replicate 63 1) Hinv E H0 H1 (le_n _)) as (m'' & ? & ? & ?).
  exists m', m''. auto.
Defined.
