(* ===== verification/Demod.v ===== *)
(** The FSK demodulator (orchard/esplanade_demod.c, esplanade_demod.h and the
    table layout of dsptable_gen.c).

    One [demod_step] is one iteration of the sample loop of [FSKdemod]; [FSKdemod]
    is the whole loop.  The calls the loop makes to the outside are returned as a
    trace of [event]s in order: a demodulated bit handed to [put_bit], and the two
    reconfigurations of the ADC (adcStop + adcStartConversion with the low-baud or
    high-baud group).  [None] is a load or store outside of [filter_buf].

    The filter tables are generated at build time with floating-point [cos]/[sin]
    (dsptables.h): they are fields of the constant record [FSK_demod_const], and
    the theorems ask only for their size and amplitude ([wf_const]).

    Proved: the compacting buffer always presents the last [FSK_FILTER_SIZE]
    samples, the correlator never overflows on 12-bit samples, the bit clock stays
    in range and bounds the number of bits per buffer, and the preamble detector's
    counters stay in range. *)
From S2P Require Import Prelude.
Local Open Scope Z_scope.

(** ** Constants of esplanade_demod.h *)

Definition NB_SAMPLES : Z := 8.
Definition NB_FRAMES : Z := 32.
Definition BAUD_RATE : Z := 8000.
Definition SAMPLE_RATE : Z := 74957.
Definition COS_BITS : Z := 14.
Definition COS_BASE : Z := Z.shiftl 1 COS_BITS.
Definition F_LO : Z := 8666.
Definition F_HI : Z := 12500.
Definition FSK_FILTER_SIZE : Z := Z.quot SAMPLE_RATE BAUD_RATE.
Definition FSK_FILTER_BUF_SIZE : Z := FSK_FILTER_SIZE * 2.
Definition DMBUF_DEPTH : Z := NB_SAMPLES * NB_FRAMES.
Definition RUN_THRESH : Z := 1500.
Definition HOLDOVER_THRESH : Z := 80.
Definition LBR_HOLDOUT : Z := 48000.

Record FSK_demod_const : Type := {
  f_lo : Z; f_hi : Z; sample_rate : Z; baud_rate : Z; filter_size : Z;
  filter_lo_i : list Z; filter_lo_q : list Z; filter_hi_i : list Z; filter_hi_q : list Z
}.

(** [gen_filter_tab]: the fields it computes without floating point. *)
Definition gen_filter_tab (lo_i lo_q hi_i hi_q : list Z) : FSK_demod_const :=
  {| f_lo := F_LO; f_hi := F_HI; sample_rate := SAMPLE_RATE; baud_rate := BAUD_RATE;
     filter_size := SAMPLE_RATE / BAUD_RATE;
     filter_lo_i := lo_i; filter_lo_q := lo_q; filter_hi_i := hi_i; filter_hi_q := hi_q |}.

(** ** State *)

Record demod : Type := Demod {
  filter_buf : list Z;
  buf_ptr : Z;
  baud_incr : Z;
  baud_pll : Z;
  baud_pll_adj : Z;
  lastsample : Z;
  shift : Z;
  (* file-scope counters *)
  runcount : Z;
  lbr_time : Z;
  holdover : Z
}.

(** [.blbss]: everything is zero until [demodInit]. *)
Definition demod_bss : demod :=
  Demod (replicate (Z.to_nat FSK_FILTER_BUF_SIZE) 0) 0 0 0 0 0 0 0 0 0.

Inductive event : Set :=
| PutBit (bit : Z)   (* put_bit(fsk_state.lastsample) *)
| StartLBR           (* adcStop; adcStartConversion(adcgrplbr) *)
| StartHBR.          (* adcStop; adcStartConversion(adcgrphbr) *)

Definition set_filter b p d := Demod b p (baud_incr d) (baud_pll d) (baud_pll_adj d)
  (lastsample d) (shift d) (runcount d) (lbr_time d) (holdover d).
Definition set_pll v d := Demod (filter_buf d) (buf_ptr d) (baud_incr d) v (baud_pll_adj d)
  (lastsample d) (shift d) (runcount d) (lbr_time d) (holdover d).
Definition set_lastsample v d := Demod (filter_buf d) (buf_ptr d) (baud_incr d) (baud_pll d)
  (baud_pll_adj d) v (shift d) (runcount d) (lbr_time d) (holdover d).
Definition set_runs r h d := Demod (filter_buf d) (buf_ptr d) (baud_incr d) (baud_pll d)
  (baud_pll_adj d) (lastsample d) (shift d) r (lbr_time d) h.
Definition set_lbr_time v d := Demod (filter_buf d) (buf_ptr d) (baud_incr d) (baud_pll d)
  (baud_pll_adj d) (lastsample d) (shift d) (runcount d) v (holdover d).

(** ** Operations *)

(** memmove_aligned of __aeabi.c on one array of words: a plain ascending copy
    of [n] words from index [s] to index [d]. *)
Fixpoint memmove_aligned (n : nat) (d s : Z) (a : list Z) : option (list Z) :=
  match n with
  | O => Some a
  | S n' =>
      match load a s with
      | None => None
      | Some v => match store a d v with
                  | None => None
                  | Some a => memmove_aligned n' (d + 1) (s + 1) a
                  end
      end
  end.

(** One correlation of the loop of [FSK_core]: [corr += b[j] * tab[j]]. *)
Fixpoint correlate (b tab : list Z) (corr : Z) : Z :=
  match b, tab with
  | x :: b, t :: tab => correlate b tab (s32 (corr + s32 (x * t)))
  | _, _ => corr
  end.

Definition FSK_core (fc : FSK_demod_const) (b : list Z) : Z :=
  let n := Z.to_nat (filter_size fc) in
  let c0 := correlate (take n b) (filter_hi_i fc) 0 in
  let c1 := correlate (take n b) (filter_hi_q fc) 0 in
  let c2 := correlate (take n b) (filter_lo_i fc) 0 in
  let c3 := correlate (take n b) (filter_lo_q fc) 0 in
  let c0 := Z.shiftr c0 COS_BITS in
  let c1 := Z.shiftr c1 COS_BITS in
  let c2 := Z.shiftr c2 COS_BITS in
  let c3 := Z.shiftr c3 COS_BITS in
  let sum := s32 (0 + s32 (c0 * c0)) in
  let sum := s32 (sum + s32 (c1 * c1)) in
  let sum := s32 (sum - s32 (c2 * c2)) in
  s32 (sum - s32 (c3 * c3)).

(** "add a new sample in the demodulation filter" *)
Definition add_sample (fc : FSK_demod_const) (d : demod) (sample : Z) : option demod :=
  match store (filter_buf d) (buf_ptr d) (Z.shiftr sample (shift d)) with
  | None => None
  | Some buf =>
      let p := u8 (buf_ptr d + 1) in
      if p =? FSK_FILTER_BUF_SIZE then
        match memmove_aligned (Z.to_nat (filter_size fc)) 0
                (FSK_FILTER_BUF_SIZE - filter_size fc) buf with
        | None => None
        | Some buf => Some (set_filter buf (u8 (filter_size fc)) d)
        end
      else Some (set_filter buf p d)
  end.

(** [b = filter_buf + buf_ptr - filter_size]: the [filter_size] words FSK_core
    reads from there; [None] if they are not all inside of the buffer. *)
Definition window (fc : FSK_demod_const) (d : demod) : option (list Z) :=
  let off := buf_ptr d - filter_size fc in
  if (0 <=? off) && (off + filter_size fc <=? Z.of_nat (length (filter_buf d)))
  then Some (take (Z.to_nat (filter_size fc)) (drop (Z.to_nat off) (filter_buf d)))
  else None.

(** "figure out the ratio of 0:1" *)
Definition count_runs (sum : Z) (d : demod) : demod :=
  if sum <? 0 then set_runs (u32 (runcount d + 1)) (holdover d) d
  else if runcount d <? RUN_THRESH then set_runs 0 0 d
  else if HOLDOVER_THRESH <? holdover d then set_runs 0 0 d
  else set_runs (runcount d) (u16 (holdover d + 1)) d.

(** The switch to low baud rate on a pilot tone. *)
Definition enter_lbr (d : demod) : demod * list event :=
  if runcount d =? RUN_THRESH then (set_lbr_time 1 d, [StartLBR]) else (d, []).

(** The time-out back to high baud rate; [idle] is [astate == APP_IDLE]. *)
Definition leave_lbr (idle : bool) (d : demod) : demod * list event :=
  if idle then
    let d := if 0 <? lbr_time d then set_lbr_time (u32 (lbr_time d + 1)) d else d in
    if LBR_HOLDOUT <? lbr_time d then (set_lbr_time 0 (set_runs 0 0 d), [StartHBR])
    else (d, [])
  else (d, []).

(** "baud PLL synchronisation" *)
Definition baud_sync (newsample : Z) (d : demod) : demod :=
  if negb (lastsample d =? newsample) then
    let d := set_lastsample newsample d in
    if baud_pll d <? 0x8000 then set_pll (s32 (baud_pll d + baud_pll_adj d)) d
    else set_pll (s32 (baud_pll d - baud_pll_adj d)) d
  else d.

(** The bit clock. *)
Definition baud_clock (d : demod) : demod * list event :=
  let d := set_pll (s32 (baud_pll d + baud_incr d)) d in
  if 0x10000 <=? baud_pll d
  then (set_pll (s32 (baud_pll d - 0x10000)) d, [PutBit (lastsample d)])
  else (d, []).

(** Everything the loop does once [sum] is known. *)
Definition control (idle : bool) (sum : Z) (d : demod) : demod * list event :=
  let newsample := if 0 <? sum then 1 else 0 in
  let d := count_runs sum d in
  let (d, ev1) := enter_lbr d in
  let (d, ev2) := leave_lbr idle d in
  let d := baud_sync newsample d in
  let (d, ev3) := baud_clock d in
  (d, ev1 ++ ev2 ++ ev3).

(** One iteration of the sample loop. *)
Definition demod_step (fc : FSK_demod_const) (idle : bool) (d : demod) (sample : Z)
  : option (demod * list event) :=
  match add_sample fc d sample with
  | None => None
  | Some d =>
      match window fc d with
      | None => None
      | Some b => Some (control idle (FSK_core fc b) d)
      end
  end.

Fixpoint FSKdemod (fc : FSK_demod_const) (idle : bool) (d : demod) (samples : list Z)
  : option (demod * list event) :=
  match samples with
  | [] => Some (d, [])
  | s :: samples =>
      match demod_step fc idle d s with
      | None => None
      | Some (d, ev) =>
          match FSKdemod fc idle d samples with
          | None => None
          | Some (d, ev') => Some (d, ev ++ ev')
          end
      end
  end.

(** [while (a != 0) { shift++; a /= 2; }]; an [int32_t] is halved at most 32
    times. *)
Fixpoint shift_loop (fuel : nat) (a sh : Z) : Z :=
  match fuel with
  | O => sh
  | S fuel => if negb (a =? 0) then shift_loop fuel (Z.quot a 2) (s16 (sh + 1)) else sh
  end.

Definition demodInit (fc : FSK_demod_const) (d : demod) : demod :=
  let incr := Z.quot (s32 (baud_rate fc * 0x10000)) (s32 (sample_rate fc)) in
  Demod (replicate (Z.to_nat FSK_FILTER_BUF_SIZE) 0) (u8 (filter_size fc))
    incr 0 (Z.quot incr 4) 0 (shift_loop 32 (filter_size fc) (-2))
    (runcount d) (lbr_time d) (holdover d).

(** ** The tables *)

Definition table_ok (t : list Z) : Prop :=
  length t = Z.to_nat FSK_FILTER_SIZE /\ Forall (fun x => - COS_BASE <= x <= COS_BASE) t.

Record wf_const (fc : FSK_demod_const) : Prop := {
  wf_size : filter_size fc = FSK_FILTER_SIZE;
  wf_rate : sample_rate fc = SAMPLE_RATE;
  wf_baud : baud_rate fc = BAUD_RATE;
  wf_lo_i : table_ok (filter_lo_i fc);
  wf_lo_q : table_ok (filter_lo_q fc);
  wf_hi_i : table_ok (filter_hi_i fc);
  wf_hi_q : table_ok (filter_hi_q fc)
}.

(** The tables the generator computes for the header's parameters. *)
Definition fsk_const_sample : FSK_demod_const :=
  gen_filter_tab
    [16384; 12248; 1928; -9365; -15930; -14452; -5677; 5963; 14593]
    [0; 10882; 16270; 13443; 3829; -7717; -15368; -15260; -7447]
    [16384; 8183; -8209; -16383; -8157; 8234; 16383; 8132; -8260]
    [0; 14193; 14179; -29; -14208; -14164; 59; 14223; 14149].

Lemma fsk_const_sample_wf : wf_const fsk_const_sample.
Proof.
  split; try reflexivity;
    (split; [reflexivity|apply (bool_decide_unpack _); vm_compute; exact I]).
Qed.

Lemma FSK_FILTER_SIZE_val : FSK_FILTER_SIZE = 9.
Proof. reflexivity. Qed.

Lemma demodInit_eq fc d : wf_const fc ->
  demodInit fc d
  = Demod (replicate 18 0) 9 6994 0 1748 0 2 (runcount d) (lbr_time d) (holdover d).
Proof. intros [Hs Hr Hb _ _ _ _]. unfold demodInit. rewrite Hs, Hr, Hb. reflexivity. Qed.

(** ** The correlator *)

(** The specification: an exact dot product. *)
Fixpoint dot (b tab : list Z) : Z :=
  match b, tab with
  | x :: b, t :: tab => x * t + dot b tab
  | _, _ => 0
  end.

(** Non-coherent FSK: energy at the high tone minus energy at the low tone. *)
Definition fsk_energy (fc : FSK_demod_const) (b : list Z) : Z :=
  (dot b (filter_hi_i fc) / 2 ^ COS_BITS) ^ 2 + (dot b (filter_hi_q fc) / 2 ^ COS_BITS) ^ 2
  - (dot b (filter_lo_i fc) / 2 ^ COS_BITS) ^ 2 - (dot b (filter_lo_q fc) / 2 ^ COS_BITS) ^ 2.

(** A sample of the 12-bit ADC after [>> shift]. *)
Abbreviation is_sample z := (-512 <= z <= 511).

Lemma dot_bound b : forall tab,
  Forall (fun x => is_sample x) b -> Forall (fun x => - COS_BASE <= x <= COS_BASE) tab ->
  - (8388608 * Z.of_nat (length b)) <= dot b tab <= 8388608 * Z.of_nat (length b).
Proof.
  change COS_BASE with 16384.
  induction b as [|x b IH]; intros [|t tab] Hb Ht; simpl; try lia.
  inversion_clear Hb; inversion_clear Ht. specialize (IH tab ltac:(done) ltac:(done)). nia.
Qed.

Lemma correlate_exact b : forall tab corr,
  Forall (fun x => is_sample x) b -> Forall (fun x => - COS_BASE <= x <= COS_BASE) tab ->
  Z.abs corr + 8388608 * Z.of_nat (length b) < 2 ^ 31 ->
  correlate b tab corr = corr + dot b tab.
Proof.
  change COS_BASE with 16384. change (2 ^ 31) with 2147483648.
  induction b as [|x b IH]; intros [|t tab] corr Hb Ht Hc; simpl; try lia.
  inversion_clear Hb; inversion_clear Ht. cbn [length] in Hc.
  assert (- 8388608 <= x * t <= 8388608) by nia.
  rewrite (s32_id (x * t)) by lia. rewrite (s32_id (corr + x * t)) by lia.
  rewrite IH by (done || lia). lia.
Qed.

Lemma correlation_exact b tab :
  length b = 9%nat -> Forall (fun x => is_sample x) b -> table_ok tab ->
  correlate b tab 0 = dot b tab /\ -4608 <= dot b tab / 2 ^ COS_BITS <= 4608.
Proof.
  intros Hl Hb [_ Ht]. pose proof (dot_bound b tab Hb Ht) as Hd. rewrite Hl in Hd.
  split; [rewrite correlate_exact; rewrite ?Hl; (done || lia)|].
  change (2 ^ COS_BITS) with 16384. Z.div_mod_to_equations. lia.
Qed.

(** C9. On 12-bit samples no accumulation, square or difference of FSK_core
    overflows a 32-bit integer: it returns the exact difference between the energy
    at the high tone and the energy at the low tone. *)
Theorem FSK_core_exact fc b :
  wf_const fc -> length b = 9%nat -> Forall (fun x => is_sample x) b ->
  FSK_core fc b = fsk_energy fc b.
Proof.
  intros Hwf Hl Hb. unfold FSK_core, fsk_energy.
  rewrite (wf_size _ Hwf). change (Z.to_nat FSK_FILTER_SIZE) with 9%nat.
  rewrite take_ge by lia. cbv zeta.
  destruct (correlation_exact b _ Hl Hb (wf_hi_i _ Hwf)) as [-> H1].
  destruct (correlation_exact b _ Hl Hb (wf_hi_q _ Hwf)) as [-> H2].
  destruct (correlation_exact b _ Hl Hb (wf_lo_i _ Hwf)) as [-> H3].
  destruct (correlation_exact b _ Hl Hb (wf_lo_q _ Hwf)) as [-> H4].
  rewrite !Z.shiftr_div_pow2 by (unfold COS_BITS; lia). rewrite !Z.pow_2_r.
  set (x := dot b (filter_hi_i fc) / _) in *. set (y := dot b (filter_hi_q fc) / _) in *.
  set (z := dot b (filter_lo_i fc) / _) in *. set (t := dot b (filter_lo_q fc) / _) in *.
  assert (0 <= x * x <= 21233664) by nia. assert (0 <= y * y <= 21233664) by nia.
  assert (0 <= z * z <= 21233664) by nia. assert (0 <= t * t <= 21233664) by nia.
  rewrite (s32_id (x * x)), (s32_id (y * y)), (s32_id (z * z)), (s32_id (t * t)) by lia.
  rewrite Z.add_0_l, (s32_id (x * x)) by lia.
  rewrite (s32_id (x * x + y * y)), (s32_id (x * x + y * y - z * z)) by lia.
  apply s32_id. lia.
Qed.

Lemma FSK_core_exact_witness :
  FSK_core fsk_const_sample [511; -512; 3; 100; -100; 511; -512; 0; 17]
  = fsk_energy fsk_const_sample [511; -512; 3; 100; -100; 511; -512; 0; 17].
Proof.
  apply FSK_core_exact; [apply fsk_const_sample_wf|reflexivity|repeat constructor; lia].
Defined.

(** ** The sample buffer *)

(** The last [n] elements of a list. *)
Definition lastn {A} (n : nat) (l : list A) : list A := drop (length l - n) l.

(** [hist]: all (shifted) samples since [demodInit]; the filter starts with
    zeros. *)
Definition history (hist : list Z) : list Z := replicate 9 0 ++ hist.

Record demod_ok (fc : FSK_demod_const) (hist : list Z) (d : demod) : Prop := {
  ok_len : length (filter_buf d) = 18%nat;
  ok_ptr : 9 <= buf_ptr d <= 17;
  ok_window : window fc d = Some (lastn 9 (history hist));
  ok_shift : shift d = 2;
  ok_incr : baud_incr d = 6994;
  ok_adj : baud_pll_adj d = 1748;
  ok_pll : 0 <= baud_pll d < 65536
}.

Lemma lastn_snoc {A} n (l : list A) x :
  (S n <= length l)%nat -> lastn (S n) (l ++ [x]) = drop 1 (lastn (S n) l) ++ [x].
Proof.
  intros H. unfold lastn. rewrite length_app, drop_drop. simpl.
  rewrite drop_app_le by lia. f_equal. f_equal. lia.
Qed.

Lemma window_eq fc d : wf_const fc -> length (filter_buf d) = 18%nat -> 9 <= buf_ptr d <= 18 ->
  window fc d = Some (take 9 (drop (Z.to_nat (buf_ptr d) - 9) (filter_buf d))).
Proof.
  intros Hwf Hl Hp. unfold window. rewrite (wf_size _ Hwf), FSK_FILTER_SIZE_val, Hl.
  change (Z.of_nat 18) with 18.
  replace ((0 <=? buf_ptr d - 9) && (buf_ptr d - 9 + 9 <=? 18)) with true
    by (symmetry; lia).
  do 3 f_equal. lia.
Qed.

(** Appending a sample slides the window by one. *)
Lemma window_insert (buf : list Z) (k : nat) x :
  length buf = 18%nat -> (9 <= k < 18)%nat ->
  take 9 (drop (k - 8) (<[k := x]> buf)) = drop 1 (take 9 (drop (k - 9) buf)) ++ [x].
Proof.
  intros Hl Hk. apply list_eq. intros i.
  destruct (decide (i < 8)%nat) as [Hi|Hi]; [|destruct (decide (i = 8)%nat) as [->|Hi']].
  - rewrite lookup_take_lt, lookup_drop, list_lookup_insert_ne by lia.
    rewrite lookup_app_l by (rewrite length_drop, length_take, length_drop; lia).
    rewrite lookup_drop, lookup_take_lt, lookup_drop by lia. f_equal. lia.
  - rewrite lookup_take_lt, lookup_drop by lia.
    replace (k - 8 + 8)%nat with k by lia. rewrite list_lookup_insert_eq by lia.
    rewrite lookup_app_r by (rewrite length_drop, length_take, length_drop; lia).
    rewrite length_drop, length_take, length_drop, Hl.
    by replace (8 - (9 `min` (18 - (k - 9)) - 1))%nat with 0%nat by lia.
  - rewrite !lookup_ge_None_2; [done| |].
    + rewrite length_app, length_drop, length_take, length_drop. cbn [length]. lia.
    + rewrite length_take. lia.
Qed.

(** The compaction copies the upper half over the lower one. *)
Lemma compact_half (a : list Z) :
  length a = 18%nat -> memmove_aligned 9 0 9 a = Some (drop 9 a ++ drop 9 a).
Proof.
  intros H. do 18 (destruct a as [|? a]; [done|]). destruct a; [reflexivity|done].
Qed.

Lemma demodInit_ok fc d : wf_const fc -> demod_ok fc [] (demodInit fc d).
Proof.
  intros Hwf. rewrite demodInit_eq by done. split; simpl; try done; try lia.
  rewrite window_eq by (done || simpl; lia). reflexivity.
Qed.

Lemma add_sample_ok fc hist d s :
  wf_const fc -> demod_ok fc hist d ->
  exists d', add_sample fc d s = Some d' /\ demod_ok fc (hist ++ [Z.shiftr s 2]) d' /\
    d' = set_filter (filter_buf d') (buf_ptr d') d.
Proof.
  intros Hwf [Hl Hp Hw Hs Hi Ha Hpll]. unfold add_sample.
  rewrite store_in by lia. rewrite u8_id by lia.
  change FSK_FILTER_BUF_SIZE with 18. rewrite (wf_size _ Hwf), FSK_FILTER_SIZE_val, Hs.
  set (x := Z.shiftr s 2). set (buf := <[Z.to_nat (buf_ptr d) := x]> (filter_buf d)).
  assert (Hlb : length buf = 18%nat) by (unfold buf; by rewrite length_insert).
  rewrite window_eq in Hw by (done || lia). injection Hw as Hw.
  assert (E : take 9 (drop (Z.to_nat (buf_ptr d) - 8) buf) = lastn 9 (history (hist ++ [x]))).
  { unfold buf. rewrite window_insert by lia. rewrite Hw. unfold history.
    rewrite app_assoc. rewrite (lastn_snoc 8); [done|]. rewrite length_app. simpl. lia. }
  destruct (Z.eqb_spec (buf_ptr d + 1) 18) as [Ep|Ep].
  - change (Z.to_nat 9) with 9%nat. change (18 - 9) with 9.
    rewrite compact_half by done. eexists. split; [done|]. split; [|done].
    split; simpl; try done; try (change (u8 9) with 9; lia).
    + rewrite length_app, length_drop. lia.
    + rewrite window_eq; simpl; [|done|rewrite length_app, length_drop; lia|change (u8 9) with 9; lia].
      change (Z.to_nat (u8 9) - 9)%nat with 0%nat. rewrite drop_0.
      rewrite <- E. replace (Z.to_nat (buf_ptr d) - 8)%nat with 9%nat by lia.
      rewrite take_app_le by (rewrite length_drop; lia). done.
  - eexists. split; [done|]. split; [|done]. split; simpl; try done; try lia.
    rewrite window_eq; [|done|done|simpl; lia]. cbn [buf_ptr filter_buf set_filter].
    replace (Z.to_nat (buf_ptr d + 1) - 9)%nat with (Z.to_nat (buf_ptr d) - 8)%nat by lia.
    by rewrite E.
Qed.

(** ** The control part *)

Definition nbits (ev : list event) : Z :=
  Z.of_nat (length (List.filter (fun e => match e with PutBit _ => true | _ => false end) ev)).

Lemma nbits_app e1 e2 : nbits (e1 ++ e2) = nbits e1 + nbits e2.
Proof. unfold nbits. rewrite List.filter_app, length_app. lia. Qed.

(** The control part does not look at the sample buffer. *)
Lemma count_runs_set_filter sum b p d :
  count_runs sum (set_filter b p d) = set_filter b p (count_runs sum d).
Proof.
  unfold count_runs. simpl. destruct (sum <? 0); [done|].
  destruct (runcount d <? RUN_THRESH); [done|]. by destruct (HOLDOVER_THRESH <? holdover d).
Qed.
Lemma enter_lbr_set_filter b p d :
  enter_lbr (set_filter b p d) = (set_filter b p (enter_lbr d).1, (enter_lbr d).2).
Proof. unfold enter_lbr. simpl. by destruct (runcount d =? RUN_THRESH). Qed.
Lemma leave_lbr_set_filter idle b p d :
  leave_lbr idle (set_filter b p d)
  = (set_filter b p (leave_lbr idle d).1, (leave_lbr idle d).2).
Proof.
  unfold leave_lbr. destruct idle; [|done]. simpl.
  destruct (0 <? lbr_time d); simpl; by case_match.
Qed.
Lemma baud_sync_set_filter ns b p d :
  baud_sync ns (set_filter b p d) = set_filter b p (baud_sync ns d).
Proof.
  unfold baud_sync. simpl. destruct (negb _); [|done]. by destruct (baud_pll d <? 0x8000).
Qed.
Lemma baud_clock_set_filter b p d :
  baud_clock (set_filter b p d) = (set_filter b p (baud_clock d).1, (baud_clock d).2).
Proof. unfold baud_clock. simpl. by case_match. Qed.

Lemma control_set_filter idle sum b p d :
  control idle sum (set_filter b p d)
  = (set_filter b p (control idle sum d).1, (control idle sum d).2).
Proof.
  unfold control. rewrite count_runs_set_filter, enter_lbr_set_filter.
  destruct (enter_lbr (count_runs sum d)) as [d1 e1]. simpl.
  rewrite leave_lbr_set_filter. destruct (leave_lbr idle d1) as [d2 e2]. simpl.
  rewrite baud_sync_set_filter, baud_clock_set_filter.
  by destruct (baud_clock _).
Qed.

(** The fields the preamble detector leaves alone. *)
Definition same_clock (d d' : demod) : Prop :=
  filter_buf d' = filter_buf d /\ buf_ptr d' = buf_ptr d /\ baud_incr d' = baud_incr d /\
  baud_pll_adj d' = baud_pll_adj d /\ shift d' = shift d /\ baud_pll d' = baud_pll d.

Lemma count_runs_clock sum d : same_clock d (count_runs sum d).
Proof. unfold count_runs. by repeat case_match. Qed.
Lemma enter_lbr_clock d : same_clock d (enter_lbr d).1 /\ nbits (enter_lbr d).2 = 0.
Proof. unfold enter_lbr. by case_match. Qed.
Lemma leave_lbr_clock idle d : same_clock d (leave_lbr idle d).1 /\ nbits (leave_lbr idle d).2 = 0.
Proof. unfold leave_lbr. by repeat case_match. Qed.

(** The bit clock: it stays in [0, 2^16) and pays 2^16 per delivered bit. *)
Lemma control_clock idle sum d :
  baud_incr d = 6994 -> baud_pll_adj d = 1748 -> 0 <= baud_pll d < 65536 ->
  let (d', ev) := control idle sum d in
  filter_buf d' = filter_buf d /\ buf_ptr d' = buf_ptr d /\ shift d' = shift d /\
  baud_incr d' = 6994 /\ baud_pll_adj d' = 1748 /\ 0 <= baud_pll d' < 65536 /\
  baud_pll d' + 65536 * nbits ev <= baud_pll d + 8742.
Proof.
  intros Hi Ha Hp. unfold control.
  destruct (count_runs_clock sum d) as (F1 & P1 & I1 & A1 & S1 & L1).
  set (d1 := count_runs sum d) in *.
  destruct (enter_lbr_clock d1) as ((F2 & P2 & I2 & A2 & S2 & L2) & N2).
  destruct (enter_lbr d1) as [d2 ev2]. simpl in *.
  destruct (leave_lbr_clock idle d2) as ((F3 & P3 & I3 & A3 & S3 & L3) & N3).
  destruct (leave_lbr idle d2) as [d3 ev3]. simpl in *.
  set (ns := if 0 <? sum then 1 else 0).
  assert (Hs : exists l, baud_sync ns d3 = set_pll l (set_lastsample ns d3) /\
                         0 <= l < 65536 /\ l <= baud_pll d + 1748).
  { unfold baud_sync. destruct (Z.eqb_spec (lastsample d3) ns) as [E|E]; simpl.
    - exists (baud_pll d3). split; [by destruct d3; simpl in *; subst|lia].
    - destruct (Z.ltb_spec (baud_pll d3) 0x8000); eexists; (split; [done|]);
        rewrite s32_id; lia. }
  destruct Hs as (l & -> & Hl & Hl'). unfold baud_clock. simpl.
  rewrite I3, I2, I1, Hi. rewrite (s32_id (l + 6994)) by lia.
  destruct (Z.leb_spec 0x10000 (l + 6994)); simpl; rewrite !nbits_app, N2, N3;
    [change (nbits [PutBit ns]) with 1|change (nbits []) with 0];
    rewrite ?s32_id by lia; split_and!; try congruence; lia.
Qed.

Lemma demod_step_ok fc idle hist d s :
  wf_const fc -> demod_ok fc hist d ->
  exists d1 d' ev, demod_step fc idle d s = Some (d', ev) /\
    d1 = set_filter (filter_buf d1) (buf_ptr d1) d /\
    control idle (FSK_core fc (lastn 9 (history (hist ++ [Z.shiftr s 2])))) d1 = (d', ev) /\
    demod_ok fc (hist ++ [Z.shiftr s 2]) d' /\
    baud_pll d' + 65536 * nbits ev <= baud_pll d + 8742.
Proof.
  intros Hwf Hok. destruct (add_sample_ok fc hist d s Hwf Hok) as (d1 & E & Hok1 & Hd1).
  pose proof Hok1 as [Hl Hp Hw Hs Hi Ha Hpll].
  unfold demod_step. rewrite E, Hw.
  set (sum := FSK_core fc _).
  pose proof (control_clock idle sum d1 Hi Ha Hpll) as Hc.
  destruct (control idle sum d1) as [d' ev] eqn:Ec.
  destruct Hc as (F & P & S & I & A & R & L).
  exists d1, d', ev. split_and!; try done.
  - split; try congruence. unfold window in *. by rewrite F, P.
  - rewrite Hd1 in L. simpl in L. done.
Qed.

Lemma FSKdemod_ok fc idle samples : forall hist d,
  wf_const fc -> demod_ok fc hist d ->
  exists d' ev, FSKdemod fc idle d samples = Some (d', ev) /\
    demod_ok fc (hist ++ map (fun s => Z.shiftr s 2) samples) d' /\
    baud_pll d' + 65536 * nbits ev <= baud_pll d + 8742 * Z.of_nat (length samples).
Proof.
  induction samples as [|s samples IH]; intros hist d Hwf Hok; cbn [FSKdemod map length].
  { exists d, []. rewrite app_nil_r. split_and!; [done|done|change (nbits []) with 0; lia]. }
  destruct (demod_step_ok fc idle hist d s Hwf Hok) as (_ & d' & ev & -> & _ & _ & Hok' & Hb).
  destruct (IH _ _ Hwf Hok') as (d'' & ev' & -> & Hok'' & Hb').
  exists d'', (ev ++ ev'). rewrite <- app_assoc in Hok''. rewrite nbits_app.
  split_and!; [done|done|lia].
Qed.

(** ** Equivalence with a demodulator that keeps the whole history *)

(** The specification: at every sample the discriminator is the exact FSK energy
    of the last nine samples received since [demodInit]. *)
Fixpoint demod_ref (fc : FSK_demod_const) (idle : bool) (hist : list Z) (d : demod)
    (samples : list Z) : list event :=
  match samples with
  | [] => []
  | s :: samples =>
      let hist := hist ++ [Z.shiftr s 2] in
      let (d, ev) := control idle (fsk_energy fc (lastn 9 (history hist))) d in
      ev ++ demod_ref fc idle hist d samples
  end.

Lemma lastn_history_ok hist :
  Forall (fun x => is_sample x) hist ->
  length (lastn 9 (history hist)) = 9%nat /\
  Forall (fun x => is_sample x) (lastn 9 (history hist)).
Proof.
  intros H. unfold lastn, history. split.
  - rewrite length_drop, !length_app. cbn [length replicate]. lia.
  - apply Forall_drop, Forall_app. split; [|done]. apply Forall_replicate. lia.
Qed.

Lemma FSKdemod_ref_gen fc idle samples : forall hist d dref,
  wf_const fc -> demod_ok fc hist d -> Forall (fun x => is_sample x) hist ->
  Forall (fun x => -2048 <= x < 2048) samples ->
  d = set_filter (filter_buf d) (buf_ptr d) dref ->
  exists d', FSKdemod fc idle d samples = Some (d', demod_ref fc idle hist dref samples).
Proof.
  induction samples as [|s samples IH]; intros hist d dref Hwf Hok Hh Hs Hd;
    cbn [FSKdemod demod_ref]; [by eexists|].
  inversion_clear Hs as [|? ? Hs1 Hs2].
  destruct (demod_step_ok fc idle hist d s Hwf Hok) as (d1 & d' & ev & -> & E1 & Ec & Hok' & _).
  assert (Hh' : Forall (fun x => is_sample x) (hist ++ [Z.shiftr s 2])).
  { apply Forall_app. split; [done|]. constructor; [|constructor].
    rewrite Z.shiftr_div_pow2 by lia. change (2 ^ 2) with 4. Z.div_mod_to_equations. lia. }
  destruct (lastn_history_ok _ Hh') as [Hl Hf].
  rewrite (FSK_core_exact fc _ Hwf Hl Hf) in Ec.
  rewrite E1, Hd, !control_set_filter in Ec.
  destruct (control idle _ dref) as [dref' ev'] eqn:Er. simpl in Ec. injection Ec as Ed Ee.
  subst ev'.
  destruct (IH (hist ++ [Z.shiftr s 2]) d' dref' Hwf Hok' Hh' Hs2) as (d'' & ->).
  { by rewrite <- Ed. }
  by eexists.
Qed.

(** C8. From [demodInit] on, FSKdemod never leaves the bounds of [filter_buf], and
    on 12-bit samples the bits and ADC commands it produces are exactly those of the
    reference demodulator that recomputes the FSK energy over the last nine samples
    of the whole history: the circular buffer with its memmove compaction is
    transparent. *)
Theorem FSKdemod_sliding_window fc idle d samples :
  wf_const fc -> Forall (fun x => -2048 <= x < 2048) samples ->
  exists d', FSKdemod fc idle (demodInit fc d) samples
             = Some (d', demod_ref fc idle [] (demodInit fc d) samples).
Proof.
  intros Hwf Hs. apply FSKdemod_ref_gen; try done.
  by apply demodInit_ok.
Qed.

(** Twenty full-scale samples: the buffer is compacted twice. *)
Definition sample_wave : list Z :=
  [2047; 1000; -1000; -2048; -1000; 1000; 2047; 1000; -1000; -2048;
   2047; 1000; -1000; -2048; -1000; 1000; 2047; 1000; -1000; -2048].

Lemma sample_wave_range : Forall (fun x => -2048 <= x < 2048) sample_wave.
Proof. repeat constructor; lia. Qed.

Lemma FSKdemod_sliding_window_witness :
  exists d', FSKdemod fsk_const_sample true (demodInit fsk_const_sample demod_bss) sample_wave
             = Some (d', demod_ref fsk_const_sample true [] (demodInit fsk_const_sample demod_bss)
                           sample_wave).
Proof. apply FSKdemod_sliding_window; [apply fsk_const_sample_wf|apply sample_wave_range]. Defined.

(** The bit clock stays in [0, 2^16) and n samples deliver at most
    (n * (baud_incr + baud_pll_adj) + 2^16 - 1) / 2^16 bits, however often the
    phase is adjusted; in particular a 256-sample buffer delivers at most 35. *)
Theorem FSKdemod_bit_rate fc idle d0 prefix samples :
  wf_const fc ->
  exists d ev0 d' ev, FSKdemod fc idle (demodInit fc d0) prefix = Some (d, ev0) /\
    FSKdemod fc idle d samples = Some (d', ev) /\ 0 <= baud_pll d' < 65536 /\
    nbits ev <= (8742 * Z.of_nat (length samples) + 65535) / 65536 /\
    (Z.of_nat (length samples) = DMBUF_DEPTH -> nbits ev <= 35).
Proof.
  intros Hwf.
  destruct (FSKdemod_ok fc idle prefix [] _ Hwf (demodInit_ok fc d0 Hwf))
    as (d & ev0 & E0 & Hok & _).
  destruct (FSKdemod_ok fc idle samples _ d Hwf Hok) as (d' & ev & E & Hok' & Hb).
  exists d, ev0, d', ev. pose proof (ok_pll _ _ _ Hok). pose proof (ok_pll _ _ _ Hok').
  split_and!; try done; try lia.
  - apply Z.div_le_lower_bound; lia.
  - change DMBUF_DEPTH with 256. lia.
Qed.

Lemma FSKdemod_bit_rate_witness :
  exists d ev0 d' ev,
    FSKdemod fsk_const_sample true (demodInit fsk_const_sample demod_bss) sample_wave = Some (d, ev0) /\
    FSKdemod fsk_const_sample true d sample_wave = Some (d', ev) /\ 0 <= baud_pll d' < 65536 /\
    nbits ev <= (8742 * Z.of_nat (length sample_wave) + 65535) / 65536 /\
    (Z.of_nat (length sample_wave) = DMBUF_DEPTH -> nbits ev <= 35).
Proof. apply FSKdemod_bit_rate. apply fsk_const_sample_wf. Defined.

(** ** The pilot-tone detector *)

(** [n] decisions with the given discriminator values, from the state [d]. *)
Fixpoint decisions (sums : list Z) (d : demod) : demod * list event :=
  match sums with
  | [] => (d, [])
  | sum :: sums =>
      let (d, ev) := enter_lbr (count_runs sum d) in
      let (d, ev') := decisions sums d in (d, ev ++ ev')
  end.

Lemma decisions_negative sums : forall d,
  Forall (fun s => s < 0) sums -> 0 <= runcount d ->
  runcount d + Z.of_nat (length sums) < RUN_THRESH ->
  (decisions sums d).2 = [] /\
  runcount (decisions sums d).1 = runcount d + Z.of_nat (length sums).
Proof.
  change RUN_THRESH with 1500.
  induction sums as [|s sums IH]; intros d Hs Hd Hl; cbn [decisions length] in *;
    [split; [done|simpl; lia]|].
  inversion_clear Hs. unfold count_runs. replace (s <? 0) with true by (symmetry; lia).
  rewrite u32_id by lia. unfold enter_lbr. simpl.
  change RUN_THRESH with 1500. replace (runcount d + 1 =? 1500) with false by (symmetry; lia).
  destruct (IH (set_runs (runcount d + 1) (holdover d) d)) as [E1 E2]; simpl; try done; try lia.
  destruct (decisions _ _) as [d' ev]. simpl in *. subst. split; [done|lia].
Qed.

(** A run of zero decisions that starts from a cleared counter starts the
    low-baud mode at its 1500th sample and not before. *)
Theorem pilot_tone_detected sums s d :
  Forall (fun x => x < 0) sums -> s < 0 -> runcount d = 0 ->
  Z.of_nat (length sums) = RUN_THRESH - 1 ->
  (decisions sums d).2 = [] /\
  enter_lbr (count_runs s (decisions sums d).1)
  = (set_lbr_time 1 (count_runs s (decisions sums d).1), [StartLBR]).
Proof.
  intros Hs Hs1 Hd Hl. change RUN_THRESH with 1500 in Hl.
  destruct (decisions_negative sums d Hs) as [E1 E2];
    [lia|change RUN_THRESH with 1500; lia|].
  split; [done|]. unfold enter_lbr, count_runs.
  replace (s <? 0) with true by (symmetry; lia). simpl. rewrite E2, u32_id by lia.
  change RUN_THRESH with 1500. replace (runcount d + Z.of_nat (length sums) + 1) with 1500 by lia.
  done.
Qed.

Lemma pilot_tone_detected_witness :
  (decisions (replicate 1499 (-1)) demod_bss).2 = [] /\
  enter_lbr (count_runs (-5) (decisions (replicate 1499 (-1)) demod_bss).1)
  = (set_lbr_time 1 (count_runs (-5) (decisions (replicate 1499 (-1)) demod_bss).1), [StartLBR]).
Proof.
  apply pilot_tone_detected; [apply Forall_replicate; lia|lia|reflexivity|].
  rewrite length_replicate. reflexivity.
Defined.

(** The comment above the test says the condition holds "exactly once per
    proper preamble".  It does not: while the counter sits at the threshold, every
    glitch (a one decision that the hold-over tolerates) restarts the ADC again. *)
Theorem lbr_retriggered sum d :
  runcount d = RUN_THRESH -> 0 <= sum -> holdover d <= HOLDOVER_THRESH ->
  runcount (count_runs sum d) = RUN_THRESH /\
  (enter_lbr (count_runs sum d)).2 = [StartLBR].
Proof.
  intros Hr Hs Hh. unfold count_runs.
  replace (sum <? 0) with false by (symmetry; lia). rewrite Hr, Z.ltb_irrefl.
  replace (HOLDOVER_THRESH <? holdover d) with false by (symmetry; lia).
  unfold enter_lbr. by rewrite Z.eqb_refl.
Qed.

Lemma lbr_retriggered_witness :
  let d := (decisions (replicate 1500 (-1)) demod_bss).1 in
  runcount (count_runs 7 d) = RUN_THRESH /\ (enter_lbr (count_runs 7 d)).2 = [StartLBR].
Proof.
  apply lbr_retriggered; [vm_compute; reflexivity|lia|vm_compute; discriminate].
Defined.
