(* ===== verification/Flash.v ===== *)
(** The flash driver (orchard/flash.c, flash.h): erase sectors and program
    longwords through the FTFA flash controller of the KL02.

    The controller is hardware.  It is an interface: the class
    [FlashController] has the two operations the driver triggers (starting the
    command loaded in the FCCOB registers, and busy-waiting for FSTAT.CCIF), and
    [FlashLaws] states their documented behaviour, faults included: a command that
    reports an error may leave its own target in any state, but no command touches
    anything else.  [ReliableFlash] adds that commands succeed.  [flaky bad] is a
    concrete controller that fails on the addresses selected by [bad]; the healthy
    device is [flaky (fun _ => false)].

    Proved: every return code of [flashProgram] and [flashEraseSectors] in terms of
    their arguments, their exact effect on a healthy device, and that on any device
    nothing outside of the addressed range of the user sectors ever changes. *)
From S2P Require Import Prelude.
Local Open Scope Z_scope.

(** ** Constants of flash.h and flash.c *)

Definition P_FLASH_BASE : Z := 0x00000000.
Definition P_FLASH_SIZE : Z := 32768.
Definition READ_USER_MARGIN : Z := 0x01.
Definition FTFx_PSECTOR_SIZE : Z := 1024.

(** The linker symbols of KL02P20.ld. *)
Definition storage_start : Z := 0x5800.
Definition storage_size : Z := 10 * 1024.
Definition storage_end : Z := storage_start + storage_size - 1.

Definition F_USER_SECTOR_START : Z := storage_start / FTFx_PSECTOR_SIZE.

Definition F_ERR_OK : Z := 0.
Definition F_ERR_NOTBLANK : Z := -1.
Definition F_ERR_NOTALIGN : Z := -2.
Definition F_ERR_LOWLEVEL : Z := -3.
Definition F_ERR_RANGE : Z := -4.
Definition F_ERR_U_MARGIN : Z := -6.

Definition FTFx_FSTAT_CCIF : Z := 128.
Definition FTFx_FSTAT_ACCERR : Z := 32.
Definition FTFx_FSTAT_FPVIOL : Z := 16.
Definition FTFx_FSTAT_MGSTAT0 : Z := 1.
Definition FTFx_CMD_SECTSTAT : Z := 0x01.
Definition FTFx_CMD_PROGCHECK : Z := 0x02.
Definition FTFx_CMD_LWORDPROG : Z := 0x06.
Definition FTFx_CMD_SECTERASE : Z := 0x09.

Definition MAKE_FCCOB (a b c d : Z) : Z :=
  Z.lor (Z.lor (Z.lor (Z.land (Z.shiftl a 24) 0xff000000) (Z.land (Z.shiftl b 16) 0x00ff0000))
               (Z.land (Z.shiftl c 8) 0x0000ff00))
        (Z.land d 0x000000ff).

(** ** The device *)

Record ftfx : Type := Ftfx {
  fx_mem : mem;       (* the flash array *)
  fx_fstat : Z;       (* FTFx_FSTAT *)
  fx_fccob3 : Z;      (* command and address *)
  fx_fccob7 : Z;
  fx_fccobb : Z
}.

Class FlashController : Type := {
  fc_start : ftfx -> ftfx;   (* FSTAT.CCIF is written with 1 *)
  fc_wait : ftfx -> ftfx     (* the state in which FSTAT.CCIF reads 1 *)
}.

(** [writeb(v, FTFx_FSTAT)] on the error flags: they are write-1-to-clear. *)
Definition fstat_clear (v : Z) (f : ftfx) : ftfx :=
  Ftfx (fx_mem f) (Z.ldiff (fx_fstat f) v) (fx_fccob3 f) (fx_fccob7 f) (fx_fccobb f).

Definition fccob_load (a b c : Z) (f : ftfx) : ftfx := Ftfx (fx_mem f) (fx_fstat f) a b c.

Definition fstat_errors : Z :=
  Z.lor (Z.lor FTFx_FSTAT_ACCERR FTFx_FSTAT_FPVIOL) FTFx_FSTAT_MGSTAT0.

(** ** The driver *)

Section Driver.
Context {C : FlashController}.

(** The command and address word of [kinetis_flash_cmd]. *)
Definition fccob_addr (cmd addr : Z) : Z :=
  Z.lor (Z.land addr 0xffffff) (u32 (Z.shiftl cmd 24)).

Definition kinetis_flash_cmd (cmd addr data1 data2 : Z) (f : ftfx) : Z * ftfx :=
  let f := fc_wait f in
  let f := if negb (Z.land (fx_fstat f) (Z.lor FTFx_FSTAT_ACCERR FTFx_FSTAT_FPVIOL) =? 0)
           then fstat_clear (Z.lor FTFx_FSTAT_ACCERR FTFx_FSTAT_FPVIOL) f else f in
  let f := fccob_load (fccob_addr cmd addr) data1 data2 f in
  let f := fc_start f in
  let f := fc_wait f in
  let fstat := u8 (fx_fstat f) in
  let ret := if negb (Z.land fstat fstat_errors =? 0) then F_ERR_LOWLEVEL else F_ERR_OK in
  (ret, f).

(** [for (margin_read_level = 0; margin_read_level <= 2; margin_read_level++)]:
    the three margin reads after an erase; [n] iterations are left. *)
Fixpoint margin_reads (n : nat) (destination margin : Z) (retval : Z) (f : ftfx) : Z * ftfx :=
  match n with
  | O => (retval, f)
  | S n =>
      let number := u16 (FTFx_PSECTOR_SIZE / 4) in
      let '(retval, f) :=
        kinetis_flash_cmd FTFx_CMD_SECTSTAT (u32 (destination * FTFx_PSECTOR_SIZE))
          (MAKE_FCCOB (Z.shiftr number 8) number margin 0) 0 f in
      margin_reads n destination (margin + 1) retval f
  end.

(** [while (destination < end)]; [fuel] is the number of sectors. *)
Fixpoint erase_loop (fuel : nat) (destination end_ retval : Z) (f : ftfx) : Z * ftfx :=
  match fuel with
  | O => (retval, f)
  | S fuel =>
      if destination <? end_ then
        let '(retval, f) := kinetis_flash_cmd FTFx_CMD_SECTERASE
                              (u32 (destination * FTFx_PSECTOR_SIZE)) 0 0 f in
        if negb (F_ERR_OK =? retval) then (retval, f)
        else
          let '(retval, f) := margin_reads 3 destination 0 retval f in
          erase_loop fuel (u32 (destination + 1)) end_ retval f
      else (retval, f)
  end.

Definition flashEraseSectors (offset sectorCount : Z) (f : ftfx) : Z * ftfx :=
  let destination := offset in
  let end_ := u32 (destination + sectorCount) in
  if destination <? F_USER_SECTOR_START then (s8 F_ERR_RANGE, f)
  else if (P_FLASH_BASE + P_FLASH_SIZE) / FTFx_PSECTOR_SIZE <? end_ then (s8 F_ERR_RANGE, f)
  else
    let '(retval, f) := erase_loop (Z.to_nat (end_ - destination)) destination end_ F_ERR_OK f in
    (s8 retval, f).

(** [for (i = 0; i < count; i++) if (dest[i] != 0xFF) return F_ERR_NOTBLANK;] *)
Fixpoint blank_check (n : nat) (m : mem) (a : Z) : bool :=
  match n with
  | O => true
  | S n => if negb (m a =? 0xFF) then false else blank_check n m (a + 1)
  end.

(** [for (i = 0; i < count; i += 4)] over the longword-program command; [n]
    longwords are left. *)
Fixpoint program_loop (n : nat) (srcm : mem) (src dest i : Z) (ret : Z) (f : ftfx) : Z * ftfx :=
  match n with
  | O => (ret, f)
  | S n =>
      let '(r, f) := kinetis_flash_cmd FTFx_CMD_LWORDPROG (dest + i) (get32 srcm (src + i)) 0 f in
      program_loop n srcm src dest (i + 4) (u32 r) f
  end.

(** The same loop over the program-check command at user margin. *)
Fixpoint verify_loop (n : nat) (srcm : mem) (src dest i : Z) (ret : Z) (f : ftfx) : Z * ftfx :=
  match n with
  | O => (ret, f)
  | S n =>
      let '(r, f) := kinetis_flash_cmd FTFx_CMD_PROGCHECK (dest + i)
                       (MAKE_FCCOB READ_USER_MARGIN 0 0 0) (get32 srcm (src + i)) f in
      verify_loop n srcm src dest (i + 4) (u32 r) f
  end.

(** [srcm] is the memory [src] points into; the result is the [int8_t] code. *)
Definition flashProgram (srcm : mem) (src dest count : Z) (f : ftfx) : Z * ftfx :=
  if count =? 0 then (s8 F_ERR_OK, f)
  else if (dest <? F_USER_SECTOR_START * FTFx_PSECTOR_SIZE)
          || (P_FLASH_BASE + P_FLASH_SIZE <? u32 (dest + count))
  then (F_ERR_RANGE, f)
  else if negb (count mod 4 =? 0) || negb (dest mod 4 =? 0) || negb (src mod 4 =? 0)
  then (F_ERR_NOTALIGN, f)
  else if negb (blank_check (Z.to_nat count) (fx_mem f) dest) then (F_ERR_NOTBLANK, f)
  else
    let n := Z.to_nat (count / 4) in
    let '(ret, f) := program_loop n srcm src dest 0 F_ERR_OK f in
    if negb (ret =? 0) then (s8 ret, f)
    else
      let '(ret, f) := verify_loop n srcm src dest 0 ret f in
      if negb (ret =? 0) then (F_ERR_U_MARGIN, f) else (s8 ret, f).
End Driver.

(** ** The documented behaviour of the controller *)

Definition exec `{FlashController} (f : ftfx) : ftfx := fc_wait (fc_start f).
Definition cmd_of (f : ftfx) : Z := Z.shiftr (fx_fccob3 f) 24.
Definition addr_of (f : ftfx) : Z := Z.land (fx_fccob3 f) 0xffffff.
Definition ready (f : ftfx) : Prop := Z.testbit (fx_fstat f) 7 = true.
Definition no_error (f : ftfx) : Prop := Z.land (u8 (fx_fstat f)) fstat_errors = 0.

Class FlashLaws (C : FlashController) : Prop := {
  (** An idle controller answers the poll at once; a started command ends. *)
  wait_ready f : ready f -> fc_wait f = f;
  exec_ready f : ready (exec f);
  (** Only erase and program change the array, and only at their target. *)
  exec_other f : cmd_of f <> FTFx_CMD_LWORDPROG -> cmd_of f <> FTFx_CMD_SECTERASE ->
    fx_mem (exec f) = fx_mem f;
  exec_prog_frame f : cmd_of f = FTFx_CMD_LWORDPROG ->
    same_outside (addr_of f) (addr_of f + 4) (fx_mem f) (fx_mem (exec f));
  exec_erase_frame f : cmd_of f = FTFx_CMD_SECTERASE ->
    same_outside (addr_of f) (addr_of f + FTFx_PSECTOR_SIZE) (fx_mem f) (fx_mem (exec f));
  (** A program command without error stores the longword over blank bytes. *)
  exec_prog_ok f : cmd_of f = FTFx_CMD_LWORDPROG -> no_error (exec f) ->
    forall k, 0 <= k < 4 -> fx_mem f (addr_of f + k) = 0xFF ->
    fx_mem (exec f) (addr_of f + k) = byte_of (fx_fccob7 f) k;
  (** An erase command without error blanks the sector. *)
  exec_erase_ok f : cmd_of f = FTFx_CMD_SECTERASE -> no_error (exec f) ->
    forall k, 0 <= k < FTFx_PSECTOR_SIZE -> fx_mem (exec f) (addr_of f + k) = 0xFF;
  exec_bytes f : byte_mem (fx_mem f) -> byte_mem (fx_mem (exec f))
}.

(** A device on which no command fails. *)
Class ReliableFlash (C : FlashController) : Prop := {
  exec_no_error f : no_error (exec f)
}.

(** ** A concrete controller: fails (MGSTAT0) on the addresses of [bad] *)

Definition flaky_start (bad : Z -> bool) (f : ftfx) : ftfx :=
  let a := addr_of f in
  if bad a then Ftfx (fx_mem f) (Z.lor FTFx_FSTAT_CCIF FTFx_FSTAT_MGSTAT0)
                  (fx_fccob3 f) (fx_fccob7 f) (fx_fccobb f)
  else
    Ftfx (if cmd_of f =? FTFx_CMD_LWORDPROG then put32 (fx_mem f) a (fx_fccob7 f)
          else if cmd_of f =? FTFx_CMD_SECTERASE
          then fun x => if (a <=? x) && (x <? a + FTFx_PSECTOR_SIZE) then 0xFF else fx_mem f x
          else fx_mem f)
         FTFx_FSTAT_CCIF (fx_fccob3 f) (fx_fccob7 f) (fx_fccobb f).

Definition flaky (bad : Z -> bool) : FlashController :=
  {| fc_start := flaky_start bad; fc_wait := fun f => f |}.
Definition healthy : FlashController := flaky (fun _ => false).

(** The array after a command of the concrete controller. *)
Lemma flaky_exec_mem bad f :
  fx_mem (@exec (flaky bad) f) =
  if bad (addr_of f) then fx_mem f
  else if cmd_of f =? FTFx_CMD_LWORDPROG then put32 (fx_mem f) (addr_of f) (fx_fccob7 f)
  else if cmd_of f =? FTFx_CMD_SECTERASE
  then fun x => if (addr_of f <=? x) && (x <? addr_of f + FTFx_PSECTOR_SIZE) then 0xFF
                else fx_mem f x
  else fx_mem f.
Proof.
  unfold exec, flaky. cbn [fc_start fc_wait]. unfold flaky_start. by destruct (bad _).
Qed.

Lemma flaky_exec_error bad f :
  ready (@exec (flaky bad) f) /\ (no_error (@exec (flaky bad) f) -> bad (addr_of f) = false).
Proof.
  unfold exec, flaky, ready, no_error. cbn [fc_start fc_wait]. unfold flaky_start.
  by destruct (bad _).
Qed.

Lemma flaky_laws bad : FlashLaws (flaky bad).
Proof.
  split; try done; intros f; rewrite ?flaky_exec_mem.
  - apply flaky_exec_error.
  - intros H1 H2. apply Z.eqb_neq in H1, H2. rewrite H1, H2. by destruct (bad _).
  - intros ->. rewrite Z.eqb_refl. destruct (bad _); [apply same_outside_refl|].
    apply put32_outside; lia.
  - intros ->. destruct (bad _); [apply same_outside_refl|].
    change (FTFx_CMD_SECTERASE =? FTFx_CMD_LWORDPROG) with false. rewrite Z.eqb_refl.
    intros x Hx. replace ((addr_of f <=? x) && (x <? addr_of f + FTFx_PSECTOR_SIZE)) with false;
      [done|symmetry; lia].
  - intros -> He. rewrite Z.eqb_refl. apply flaky_exec_error in He. rewrite He.
    intros k Hk _. unfold put32.
    replace ((addr_of f <=? addr_of f + k) && (addr_of f + k <? addr_of f + 4)) with true
      by (symmetry; lia). f_equal. lia.
  - intros -> He. apply flaky_exec_error in He. rewrite He.
    change (FTFx_CMD_SECTERASE =? FTFx_CMD_LWORDPROG) with false. rewrite Z.eqb_refl.
    intros k Hk.
    replace ((addr_of f <=? addr_of f + k) && (addr_of f + k <? addr_of f + FTFx_PSECTOR_SIZE))
      with true by (symmetry; lia). done.
  - intros H. destruct (bad _); [done|]. destruct (_ =? _); [by apply put32_byte_mem|].
    destruct (_ =? _); [|done]. intros x. destruct (_ && _); [lia|apply H].
Qed.

#[export] Instance healthy_laws : FlashLaws healthy := flaky_laws _.
#[export] Instance healthy_reliable : ReliableFlash healthy.
Proof. split. intros f. unfold exec, healthy, flaky, no_error. reflexivity. Qed.

(** ** One command *)

Lemma fccob_addr_decode cmd addr :
  is_u8 cmd -> 0 <= addr < 16777216 ->
  Z.shiftr (fccob_addr cmd addr) 24 = cmd /\ Z.land (fccob_addr cmd addr) 0xffffff = addr.
Proof.
  intros Hc Ha. change 16777216 with (2 ^ 24) in Ha. unfold fccob_addr, u32.
  change 0xffffff with (Z.ones 24).
  rewrite (Z.land_ones addr) by lia. rewrite (Z.mod_small addr) by lia.
  assert (Hs : Z.shiftl cmd 24 mod 2 ^ 32 = Z.shiftl cmd 24).
  { apply Z.mod_small. rewrite Z.shiftl_mul_pow2 by lia. lia. }
  rewrite Hs. split; apply Z.bits_inj'; intros i Hi.
  - rewrite Z.shiftr_spec, Z.lor_spec, Z.shiftl_spec by lia.
    rewrite (testbit_high 24 addr) by lia. simpl. f_equal. lia.
  - rewrite Z.land_spec, Z.lor_spec, Z.shiftl_spec by lia.
    destruct (decide (i < 24)).
    + rewrite Z.ones_spec_low, (Z.testbit_neg_r cmd) by lia.
      by rewrite orb_false_r, andb_true_r.
    + rewrite Z.ones_spec_high, (testbit_high 24 addr) by lia. apply andb_false_r.
Qed.

Section Commands.
Context {C : FlashController} {L : FlashLaws C}.

(** What one command of the driver does to the device. *)
Lemma kinetis_flash_cmd_spec cmd addr d1 d2 f ret f' :
  kinetis_flash_cmd cmd addr d1 d2 f = (ret, f') ->
  ready f -> is_u8 cmd -> 0 <= addr < 16777216 ->
  exists g, f' = exec g /\ fx_mem g = fx_mem f /\ cmd_of g = cmd /\ addr_of g = addr /\
    fx_fccob7 g = d1 /\ ready f' /\
    ((ret = F_ERR_OK /\ no_error f') \/ (ret = F_ERR_LOWLEVEL /\ ~ no_error f')).
Proof.
  intros E Hr Hc Ha. unfold kinetis_flash_cmd in E. rewrite (wait_ready _ Hr) in E.
  set (f1 := if negb _ then _ else f) in E. injection E as Eret <-.
  set (g := fccob_load _ _ _ f1) in *.
  destruct (fccob_addr_decode cmd addr Hc Ha) as [D1 D2].
  exists g. split_and!; try done.
  - unfold g, f1. by destruct (negb _).
  - apply (exec_ready g).
  - unfold no_error. change (fc_wait (fc_start g)) with (exec g) in *.
    destruct (Z.eqb_spec (Z.land (u8 (fx_fstat (exec g))) fstat_errors) 0);
      simpl in Eret; [left|right]; done.
Qed.

(** The read-only commands. *)
Lemma kinetis_flash_cmd_check cmd addr d1 d2 f ret f' :
  kinetis_flash_cmd cmd addr d1 d2 f = (ret, f') ->
  ready f -> cmd = FTFx_CMD_SECTSTAT \/ cmd = FTFx_CMD_PROGCHECK -> 0 <= addr < 16777216 ->
  ready f' /\ fx_mem f' = fx_mem f.
Proof.
  intros E Hr Hc Ha.
  assert (Hc8 : is_u8 cmd).
  { unfold FTFx_CMD_SECTSTAT, FTFx_CMD_PROGCHECK in Hc. lia. }
  destruct (kinetis_flash_cmd_spec _ _ _ _ _ _ _ E Hr Hc8 Ha)
    as (g & -> & Hm & Hcg & _ & _ & Hr' & _).
  split; [exact Hr'|]. rewrite <- Hm. apply exec_other; rewrite Hcg;
    unfold FTFx_CMD_SECTSTAT, FTFx_CMD_PROGCHECK, FTFx_CMD_LWORDPROG, FTFx_CMD_SECTERASE in *;
    lia.
Qed.

Lemma kinetis_flash_cmd_ok `{!ReliableFlash C} cmd addr d1 d2 f ret f' :
  kinetis_flash_cmd cmd addr d1 d2 f = (ret, f') ->
  ready f -> is_u8 cmd -> 0 <= addr < 16777216 -> ret = F_ERR_OK.
Proof.
  intros E Hr Hc Ha.
  destruct (kinetis_flash_cmd_spec _ _ _ _ _ _ _ E Hr Hc Ha)
    as (g & -> & _ & _ & _ & _ & _ & [[-> _]|[_ Hn]]); [done|].
  destruct Hn. apply exec_no_error.
Qed.
End Commands.

(** ** The loops *)

Section Loops.
Context {C : FlashController} {L : FlashLaws C}.

(** A command word is in the 24-bit address space of the controller. *)
Ltac cmd_u8 := unfold FTFx_CMD_SECTSTAT, FTFx_CMD_PROGCHECK, FTFx_CMD_LWORDPROG,
  FTFx_CMD_SECTERASE; lia.

Lemma margin_reads_spec n : forall d m r f r' f',
  margin_reads n d m r f = (r', f') -> ready f -> 0 <= d < 32 ->
  ready f' /\ fx_mem f' = fx_mem f /\
  (ReliableFlash C -> r = F_ERR_OK -> r' = F_ERR_OK).
Proof.
  induction n as [|n IH]; intros d m r f r' f' E Hr Hd; cbn [margin_reads] in E.
  { injection E as <- <-. done. }
  unfold FTFx_PSECTOR_SIZE in E. rewrite u32_id in E by lia.
  destruct (kinetis_flash_cmd FTFx_CMD_SECTSTAT (d * 1024) _ _ f) as [r1 f1] eqn:E1.
  destruct (kinetis_flash_cmd_check _ _ _ _ _ _ _ E1 Hr ltac:(by left) ltac:(lia)) as [Hr1 Hm1].
  destruct (IH _ _ _ _ _ _ E Hr1 Hd) as (Hr' & Hm' & Hok).
  split_and!; [done|congruence|]. intros Hrel _. apply Hok; [done|].
  exact (kinetis_flash_cmd_ok _ _ _ _ _ _ _ E1 Hr ltac:(cmd_u8) ltac:(lia)).
Qed.

Lemma erase_loop_frame n : forall d e r f r' f',
  erase_loop n d e r f = (r', f') -> ready f -> 0 <= d -> d <= e -> e <= 32 ->
  ready f' /\
  same_outside (d * FTFx_PSECTOR_SIZE) (e * FTFx_PSECTOR_SIZE) (fx_mem f) (fx_mem f') /\
  (byte_mem (fx_mem f) -> byte_mem (fx_mem f')).
Proof.
  unfold FTFx_PSECTOR_SIZE.
  induction n as [|n IH]; intros d e r f r' f' E Hr H0 Hde He; cbn [erase_loop] in E.
  { injection E as <- <-. done. }
  destruct (Z.ltb_spec d e); [|injection E as <- <-; done].
  unfold FTFx_PSECTOR_SIZE in E. rewrite u32_id in E by lia.
  destruct (kinetis_flash_cmd FTFx_CMD_SECTERASE (d * 1024) 0 0 f) as [r1 f1] eqn:E1.
  destruct (kinetis_flash_cmd_spec _ _ _ _ _ _ _ E1 Hr ltac:(cmd_u8) ltac:(lia))
    as (g & -> & Hg & Hc & Ha & _ & Hr1 & _).
  pose proof (exec_erase_frame g Hc) as Hf. rewrite Ha, Hg in Hf.
  unfold FTFx_PSECTOR_SIZE in Hf.
  assert (Hf' : same_outside (d * 1024) (e * 1024) (fx_mem f) (fx_mem (exec g)))
    by (eapply same_outside_weaken; [exact Hf|lia|lia]).
  assert (Hb : byte_mem (fx_mem f) -> byte_mem (fx_mem (exec g))).
  { rewrite <- Hg. apply exec_bytes. }
  destruct (negb (F_ERR_OK =? r1)); [injection E as <- <-; done|].
  destruct (margin_reads 3 d 0 r1 (exec g)) as [r2 f2] eqn:E2.
  destruct (margin_reads_spec _ _ _ _ _ _ _ E2 Hr1 ltac:(lia)) as (Hr2 & Hm2 & _).
  rewrite u32_id in E by lia.
  destruct (IH _ _ _ _ _ _ E Hr2 ltac:(lia) ltac:(lia) He) as (Hr3 & Hm3 & Hb3).
  rewrite Hm2 in *. split_and!; [done| |auto].
  eapply same_outside_trans; [exact Hf'|].
  eapply same_outside_weaken; [exact Hm3|lia|lia].
Qed.

Lemma erase_loop_ok `{!ReliableFlash C} n : forall d e f r' f',
  erase_loop n d e F_ERR_OK f = (r', f') ->
  ready f -> 0 <= d -> d <= e -> e <= 32 -> Z.of_nat n = e - d ->
  r' = F_ERR_OK /\
  (forall x, d * FTFx_PSECTOR_SIZE <= x < e * FTFx_PSECTOR_SIZE -> fx_mem f' x = 0xFF).
Proof.
  unfold FTFx_PSECTOR_SIZE.
  induction n as [|n IH]; intros d e f r' f' E Hr H0 Hde He Hn; cbn [erase_loop] in E.
  { injection E as <- <-. split; [done|lia]. }
  destruct (Z.ltb_spec d e); [|lia].
  unfold FTFx_PSECTOR_SIZE in E. rewrite u32_id in E by lia.
  destruct (kinetis_flash_cmd FTFx_CMD_SECTERASE (d * 1024) 0 0 f) as [r1 f1] eqn:E1.
  pose proof (kinetis_flash_cmd_ok _ _ _ _ _ _ _ E1 Hr ltac:(cmd_u8) ltac:(lia)) as ->.
  destruct (kinetis_flash_cmd_spec _ _ _ _ _ _ _ E1 Hr ltac:(cmd_u8) ltac:(lia))
    as (g & -> & Hg & Hc & Ha & _ & Hr1 & Hok).
  pose proof (exec_erase_ok g Hc (exec_no_error g)) as He'. rewrite Ha in He'.
  cbn [Z.eqb negb F_ERR_OK] in E.
  destruct (margin_reads 3 d 0 F_ERR_OK (exec g)) as [r2 f2] eqn:E2.
  destruct (margin_reads_spec _ _ _ _ _ _ _ E2 Hr1 ltac:(lia)) as (Hr2 & Hm2 & Hr2ok).
  rewrite (Hr2ok ltac:(done) eq_refl) in E. rewrite u32_id in E by lia.
  destruct (IH _ _ _ _ _ E Hr2 ltac:(lia) ltac:(lia) He ltac:(lia)) as [-> Hm3].
  split; [done|]. intros x Hx.
  destruct (erase_loop_frame _ _ _ _ _ _ _ E Hr2 ltac:(lia) ltac:(lia) He) as (_ & Hfr & _).
  destruct (decide (x < (d + 1) * 1024)) as [Hlt|Hge]; [|apply Hm3; lia].
  rewrite Hfr by (unfold FTFx_PSECTOR_SIZE; lia). rewrite Hm2.
  replace x with (d * 1024 + (x - d * 1024)) by lia. apply He'.
  unfold FTFx_PSECTOR_SIZE. lia.
Qed.

Lemma program_loop_frame n : forall srcm src dest i r f r' f',
  program_loop n srcm src dest i r f = (r', f') ->
  ready f -> 0 <= dest + i -> dest + i + 4 * Z.of_nat n <= 32768 ->
  ready f' /\ same_outside (dest + i) (dest + i + 4 * Z.of_nat n) (fx_mem f) (fx_mem f') /\
  (byte_mem (fx_mem f) -> byte_mem (fx_mem f')).
Proof.
  induction n as [|n IH]; intros srcm src dest i r f r' f' E Hr H0 H1; cbn [program_loop] in E.
  { injection E as <- <-. done. }
  destruct (kinetis_flash_cmd FTFx_CMD_LWORDPROG (dest + i) _ 0 f) as [r1 f1] eqn:E1.
  destruct (kinetis_flash_cmd_spec _ _ _ _ _ _ _ E1 Hr ltac:(cmd_u8) ltac:(lia))
    as (g & -> & Hg & Hc & Ha & _ & Hr1 & _).
  pose proof (exec_prog_frame g Hc) as Hf. rewrite Ha, Hg in Hf.
  pose proof (exec_bytes g) as Hb. rewrite Hg in Hb.
  destruct (IH _ _ _ _ _ _ _ _ E Hr1 ltac:(lia) ltac:(lia)) as (Hr3 & Hm3 & Hb3).
  split_and!; [done| |auto].
  eapply same_outside_trans; (eapply same_outside_weaken; [eassumption|lia|lia]).
Qed.

Lemma program_loop_ok `{!ReliableFlash C} n : forall srcm src dest i f r' f',
  program_loop n srcm src dest i 0 f = (r', f') ->
  ready f -> byte_mem srcm -> 0 <= dest + i -> dest + i + 4 * Z.of_nat n <= 32768 ->
  (forall k, 0 <= k < 4 * Z.of_nat n -> fx_mem f (dest + i + k) = 0xFF) ->
  r' = 0 /\
  (forall k, 0 <= k < 4 * Z.of_nat n -> fx_mem f' (dest + i + k) = srcm (src + i + k)).
Proof.
  induction n as [|n IH]; intros srcm src dest i f r' f' E Hr Hs H0 H1 Hb;
    cbn [program_loop] in E.
  { injection E as <- <-. split; [done|lia]. }
  destruct (kinetis_flash_cmd FTFx_CMD_LWORDPROG (dest + i) _ 0 f) as [r1 f1] eqn:E1.
  pose proof (kinetis_flash_cmd_ok _ _ _ _ _ _ _ E1 Hr ltac:(cmd_u8) ltac:(lia)) as ->.
  destruct (kinetis_flash_cmd_spec _ _ _ _ _ _ _ E1 Hr ltac:(cmd_u8) ltac:(lia))
    as (g & -> & Hg & Hc & Ha & Hd & Hr1 & _).
  pose proof (exec_prog_frame g Hc) as Hf. rewrite Ha, Hg in Hf.
  pose proof (exec_prog_ok g Hc (exec_no_error g)) as Hw. rewrite Ha, Hg, Hd in Hw.
  change (u32 F_ERR_OK) with 0 in E.
  destruct (IH _ _ _ _ _ _ _ E Hr1 Hs ltac:(lia) ltac:(lia)) as [-> Hm3].
  { intros k Hk. rewrite Hf by lia.
    replace (dest + (i + 4) + k) with (dest + i + (4 + k)) by lia. apply Hb. lia. }
  split; [done|]. intros k Hk.
  destruct (program_loop_frame _ _ _ _ _ _ _ _ _ E Hr1 ltac:(lia) ltac:(lia)) as (_ & Hfr & _).
  destruct (decide (k < 4)) as [Hlt|Hge].
  - rewrite Hfr by lia. rewrite Hw by first [lia | apply Hb; lia].
    by rewrite byte_of_get32 by (done || lia).
  - specialize (Hm3 (k - 4) ltac:(lia)).
    replace (dest + i + k) with (dest + (i + 4) + (k - 4)) by lia. rewrite Hm3. f_equal. lia.
Qed.

Lemma verify_loop_spec n : forall srcm src dest i r f r' f',
  verify_loop n srcm src dest i r f = (r', f') ->
  ready f -> 0 <= dest + i -> dest + i + 4 * Z.of_nat n <= 32768 ->
  ready f' /\ fx_mem f' = fx_mem f /\ (ReliableFlash C -> r = 0 -> r' = 0).
Proof.
  induction n as [|n IH]; intros srcm src dest i r f r' f' E Hr H0 H1; cbn [verify_loop] in E.
  { injection E as <- <-. done. }
  destruct (kinetis_flash_cmd FTFx_CMD_PROGCHECK (dest + i) _ _ f) as [r1 f1] eqn:E1.
  destruct (kinetis_flash_cmd_check _ _ _ _ _ _ _ E1 Hr ltac:(by right) ltac:(lia))
    as [Hr1 Hm1].
  destruct (IH _ _ _ _ _ _ _ _ E Hr1 ltac:(lia) ltac:(lia)) as (Hr' & Hm' & Hok).
  split_and!; [done|congruence|]. intros Hrel _. apply Hok; [done|].
  rewrite (kinetis_flash_cmd_ok _ _ _ _ _ _ _ E1 Hr ltac:(cmd_u8) ltac:(lia)). done.
Qed.
End Loops.

(** ** The driver's contract *)

Definition blank_range (m : mem) (a n : Z) : Prop := forall k, 0 <= k < n -> m (a + k) = 0xFF.

Lemma blank_check_spec n : forall m a,
  blank_check n m a = true <-> blank_range m a (Z.of_nat n).
Proof.
  induction n as [|n IH]; intros m a; cbn [blank_check].
  { split; [intros _ k Hk; lia|done]. }
  destruct (Z.eqb_spec (m a) 0xFF) as [E|E]; simpl.
  - rewrite IH. split.
    + intros H k Hk. destruct (decide (k = 0)) as [->|]; [by rewrite Z.add_0_r|].
      replace (a + k) with (a + 1 + (k - 1)) by lia. apply H. lia.
    + intros H k Hk. replace (a + 1 + k) with (a + (k + 1)) by lia. apply H. lia.
  - split; [done|]. intros H. destruct E. rewrite <- (H 0) by lia. by rewrite Z.add_0_r.
Qed.

Lemma blank_check_dec (m : mem) a n : 0 <= n ->
  blank_check (Z.to_nat n) m a = true <-> blank_range m a n.
Proof. intros Hn. rewrite blank_check_spec. by rewrite Z2Nat.id by lia. Qed.

Lemma flash_limits :
  F_USER_SECTOR_START * FTFx_PSECTOR_SIZE = 0x5800 /\ P_FLASH_BASE + P_FLASH_SIZE = 32768 /\
  (P_FLASH_BASE + P_FLASH_SIZE) / FTFx_PSECTOR_SIZE = 32 /\ F_USER_SECTOR_START = 22.
Proof. by split_and!. Qed.

(** The user sectors of the flash. *)
Definition user_lo : Z := 0x5800.
Definition user_hi : Z := 0x8000.

(** The arguments [flashProgram] accepts. *)
Definition program_args (src dest count : Z) : Prop :=
  user_lo <= dest /\ dest + count <= user_hi /\ count mod 4 = 0 /\ dest mod 4 = 0 /\
  src mod 4 = 0.

Section Contract.
Context {C : FlashController} {L : FlashLaws C}.

(** The argument checks, on any device. *)
Lemma flashProgram_cases srcm src dest count f :
  is_u32 count -> 0 <= dest -> dest + count < 2 ^ 32 ->
  (count = 0 /\ flashProgram srcm src dest count f = (F_ERR_OK, f)) \/
  (count <> 0 /\ (dest < user_lo \/ user_hi < dest + count) /\
     flashProgram srcm src dest count f = (F_ERR_RANGE, f)) \/
  (count <> 0 /\ user_lo <= dest /\ dest + count <= user_hi /\
     ~ program_args src dest count /\
     flashProgram srcm src dest count f = (F_ERR_NOTALIGN, f)) \/
  (count <> 0 /\ program_args src dest count /\ ~ blank_range (fx_mem f) dest count /\
     flashProgram srcm src dest count f = (F_ERR_NOTBLANK, f)) \/
  (count <> 0 /\ program_args src dest count /\ blank_range (fx_mem f) dest count /\
     flashProgram srcm src dest count f
     = let n := Z.to_nat (count / 4) in
       let '(ret, f) := program_loop n srcm src dest 0 F_ERR_OK f in
       if negb (ret =? 0) then (s8 ret, f)
       else let '(ret, f) := verify_loop n srcm src dest 0 ret f in
            if negb (ret =? 0) then (F_ERR_U_MARGIN, f) else (s8 ret, f)).
Proof.
  intros Hc Hd Hw. unfold flashProgram. change (2 ^ 32) with 4294967296 in Hw.
  destruct flash_limits as (-> & -> & _ & _). unfold program_args, user_lo, user_hi.
  destruct (Z.eqb_spec count 0) as [->|Hn]; [by left|right].
  rewrite u32_id by lia.
  destruct (Z.ltb_spec dest 0x5800); [left; split_and!; [done|lia|done]|].
  destruct (Z.ltb_spec 32768 (dest + count)); [left; split_and!; [done|lia|done]|].
  right. simpl.
  destruct (Z.eqb_spec (count mod 4) 0); simpl;
    [|left; split_and!; [done|done|done| |done]; tauto].
  destruct (Z.eqb_spec (dest mod 4) 0); simpl;
    [|left; split_and!; [done|done|done| |done]; tauto].
  destruct (Z.eqb_spec (src mod 4) 0); simpl;
    [|left; split_and!; [done|done|done| |done]; tauto].
  right. destruct (blank_check _ _ _) eqn:Eb; simpl.
  - right. apply blank_check_dec in Eb; [|lia]. by split_and!.
  - left. split_and!; try done. intros Hb. apply blank_check_dec in Hb; [|lia]. congruence.
Qed.

Lemma flashProgram_run_frame srcm src dest count f ret f' :
  flashProgram srcm src dest count f = (ret, f') ->
  ready f -> is_u32 count -> 0 <= dest -> dest + count < 2 ^ 32 ->
  ready f' /\ same_outside dest (dest + count) (fx_mem f) (fx_mem f') /\
  same_outside user_lo user_hi (fx_mem f) (fx_mem f') /\
  (byte_mem (fx_mem f) -> byte_mem (fx_mem f')).
Proof.
  intros E Hr Hc Hd Hw.
  assert (Hsame : f' = f -> ready f' /\
    same_outside dest (dest + count) (fx_mem f) (fx_mem f') /\
    same_outside user_lo user_hi (fx_mem f) (fx_mem f') /\
    (byte_mem (fx_mem f) -> byte_mem (fx_mem f'))) by (by intros ->).
  destruct (flashProgram_cases srcm src dest count f Hc Hd Hw)
    as [(_ & E')|[(_ & _ & E')|[(_ & _ & _ & _ & E')|[(_ & _ & _ & E')|(_ & Ha & _ & E')]]]];
    rewrite E' in E; try (injection E as _ <-; by apply Hsame). clear Hsame.
  destruct Ha as (Hlo & Hhi & H4 & _). unfold user_lo, user_hi in *. cbv zeta in E.
  assert (Hn : 4 * Z.of_nat (Z.to_nat (count / 4)) = count) by (Z.div_mod_to_equations; lia).
  destruct (program_loop _ _ _ _ _ _ f) as [r1 f1] eqn:E1.
  destruct (program_loop_frame _ _ _ _ _ _ _ _ _ E1 Hr ltac:(lia) ltac:(lia))
    as (Hr1 & Hf1 & Hb1). rewrite Z.add_0_r, Hn in Hf1.
  assert (Hgoal : fx_mem f' = fx_mem f1 -> ready f' -> ready f' /\
    same_outside dest (dest + count) (fx_mem f) (fx_mem f') /\
    same_outside 0x5800 0x8000 (fx_mem f) (fx_mem f') /\
    (byte_mem (fx_mem f) -> byte_mem (fx_mem f'))).
  { intros -> Hr'. split_and!; try done.
    eapply same_outside_weaken; [exact Hf1|lia|lia]. }
  destruct (negb (r1 =? 0)); [injection E as _ <-; by apply Hgoal|].
  destruct (verify_loop _ _ _ _ _ _ f1) as [r2 f2] eqn:E2.
  destruct (verify_loop_spec _ _ _ _ _ _ _ _ _ E2 Hr1 ltac:(lia) ltac:(lia))
    as (Hr2 & Hm2 & _).
  destruct (negb (r2 =? 0)); injection E as _ <-; by apply Hgoal.
Qed.

Lemma flashProgram_run_ok `{!ReliableFlash C} srcm src dest count f :
  ready f -> byte_mem srcm -> 0 < count -> program_args src dest count ->
  blank_range (fx_mem f) dest count ->
  exists f', flashProgram srcm src dest count f = (F_ERR_OK, f') /\ ready f' /\
    (forall k, 0 <= k < count -> fx_mem f' (dest + k) = srcm (src + k)) /\
    same_outside dest (dest + count) (fx_mem f) (fx_mem f').
Proof.
  intros Hr Hs Hc Ha Hb. pose proof Ha as (Hlo & Hhi & H4 & _).
  unfold user_lo, user_hi in *.
  destruct (flashProgram srcm src dest count f) as [ret f'] eqn:E.
  destruct (flashProgram_run_frame _ _ _ _ _ _ _ E Hr) as (Hr' & Hf & _ & _); [lia..|].
  destruct (flashProgram_cases srcm src dest count f)
    as [(? & _)|[(_ & Hx & _)|[(_ & _ & _ & Hx & _)|[(_ & _ & Hx & _)|(_ & _ & _ & E')]]]];
    try lia; try (unfold user_lo, user_hi in Hx; lia); try done.
  rewrite E' in E. cbv zeta in E.
  assert (Hn : 4 * Z.of_nat (Z.to_nat (count / 4)) = count) by (Z.div_mod_to_equations; lia).
  destruct (program_loop _ _ _ _ _ _ f) as [r1 f1] eqn:E1.
  destruct (program_loop_ok _ _ _ _ _ _ _ _ E1 Hr Hs ltac:(lia) ltac:(lia)) as [-> Hok].
  { intros k Hk. rewrite Z.add_0_r. apply Hb. lia. }
  destruct (program_loop_frame _ _ _ _ _ _ _ _ _ E1 Hr ltac:(lia) ltac:(lia)) as (Hr1 & _ & _).
  simpl in E.
  destruct (verify_loop _ _ _ _ _ _ f1) as [r2 f2] eqn:E2.
  destruct (verify_loop_spec _ _ _ _ _ _ _ _ _ E2 Hr1 ltac:(lia) ltac:(lia))
    as (Hr2 & Hm2 & Hz). rewrite (Hz ltac:(done) eq_refl) in E. injection E as <- <-.
  exists f2. split_and!; try done. intros k Hk. rewrite Hm2.
  specialize (Hok k ltac:(lia)). by rewrite !Z.add_0_r in Hok.
Qed.

(** ** Erase *)

Lemma flashEraseSectors_frame offset cnt f ret f' :
  flashEraseSectors offset cnt f = (ret, f') ->
  ready f -> 0 <= offset -> is_u16 cnt -> offset + cnt < 2 ^ 32 ->
  ready f' /\ same_outside user_lo user_hi (fx_mem f) (fx_mem f') /\
  same_outside (offset * FTFx_PSECTOR_SIZE) ((offset + cnt) * FTFx_PSECTOR_SIZE)
    (fx_mem f) (fx_mem f') /\
  (byte_mem (fx_mem f) -> byte_mem (fx_mem f')).
Proof.
  intros E Hr Ho Hc Hw. change (2 ^ 32) with 4294967296 in Hw. revert E.
  unfold flashEraseSectors. rewrite u32_id by lia.
  destruct flash_limits as (_ & _ & -> & ->).
  destruct (Z.ltb_spec offset 22); [intros [= _ <-]; done|].
  destruct (Z.ltb_spec 32 (offset + cnt)); [intros [= _ <-]; done|].
  destruct (erase_loop _ _ _ _ f) as [r1 f1] eqn:E1. intros [= _ <-].
  destruct (erase_loop_frame _ _ _ _ _ _ _ E1 Hr ltac:(lia) ltac:(lia) ltac:(lia))
    as (Hr1 & Hf & Hb).
  split_and!; try done. unfold FTFx_PSECTOR_SIZE, user_lo, user_hi in *.
  eapply same_outside_weaken; [exact Hf|lia|lia].
Qed.

Lemma flashEraseSectors_ok `{!ReliableFlash C} offset cnt f :
  ready f -> F_USER_SECTOR_START <= offset -> 0 <= cnt -> offset + cnt <= 32 ->
  exists f', flashEraseSectors offset cnt f = (F_ERR_OK, f') /\ ready f' /\
    blank_range (fx_mem f') (offset * FTFx_PSECTOR_SIZE) (cnt * FTFx_PSECTOR_SIZE) /\
    same_outside (offset * FTFx_PSECTOR_SIZE) ((offset + cnt) * FTFx_PSECTOR_SIZE)
      (fx_mem f) (fx_mem f').
Proof.
  intros Hr Ho Hc Hw. destruct (flashEraseSectors offset cnt f) as [ret f'] eqn:E.
  destruct flash_limits as (_ & _ & _ & E22). rewrite E22 in Ho.
  destruct (flashEraseSectors_frame _ _ _ _ _ E Hr) as (Hr' & _ & Hf & _); [lia..|].
  revert E. unfold flashEraseSectors. rewrite u32_id by lia.
  destruct flash_limits as (_ & _ & -> & ->).
  destruct (Z.ltb_spec offset 22); [lia|]. destruct (Z.ltb_spec 32 (offset + cnt)); [lia|].
  destruct (erase_loop _ _ _ _ f) as [r1 f1] eqn:E1. intros [= <- <-].
  destruct (erase_loop_ok _ _ _ _ _ _ E1 Hr) as [-> Hb]; [lia..|].
  exists f1. split_and!; try done.
  intros k Hk. apply Hb. unfold FTFx_PSECTOR_SIZE in *. lia.
Qed.


(** On every device, faulty ones included, flashProgram leaves everything
    outside of the addressed range unchanged, and everything outside of the user
    sectors: no argument makes it touch the boot loader. *)
Theorem flashProgram_confined srcm src dest count f ret f' :
  ready f -> is_u32 count -> 0 <= dest -> dest + count < 2 ^ 32 ->
  flashProgram srcm src dest count f = (ret, f') ->
  same_outside dest (dest + count) (fx_mem f) (fx_mem f') /\
  same_outside user_lo user_hi (fx_mem f) (fx_mem f').
Proof.
  intros Hr Hc Hd Hw E.
  by destruct (flashProgram_run_frame _ _ _ _ _ _ _ E Hr Hc Hd Hw) as (_ & ? & ? & _).
Qed.

(** flashEraseSectors refuses every range that is not inside of the user
    sectors without touching the device, and on a healthy device blanks exactly
    the requested sectors. *)
Theorem flashEraseSectors_spec `{!ReliableFlash C} offset cnt f ret f' :
  ready f -> 0 <= offset -> is_u16 cnt -> offset + cnt < 2 ^ 32 ->
  flashEraseSectors offset cnt f = (ret, f') ->
  (F_USER_SECTOR_START <= offset /\ offset + cnt <= 32 ->
     ret = F_ERR_OK /\
     blank_range (fx_mem f') (offset * FTFx_PSECTOR_SIZE) (cnt * FTFx_PSECTOR_SIZE) /\
     same_outside (offset * FTFx_PSECTOR_SIZE) ((offset + cnt) * FTFx_PSECTOR_SIZE)
       (fx_mem f) (fx_mem f')) /\
  (~ (F_USER_SECTOR_START <= offset /\ offset + cnt <= 32) -> ret = F_ERR_RANGE /\ f' = f).
Proof.
  intros Hr Ho Hc Hw E. split.
  - intros [H1 H2]. destruct (flashEraseSectors_ok offset cnt f Hr H1 ltac:(lia) H2)
      as (f2 & E2 & _ & Hb & Hf). rewrite E2 in E. by injection E as <- <-.
  - intros Hn. change (2 ^ 32) with 4294967296 in Hw. revert E. unfold flashEraseSectors.
    rewrite u32_id by lia. destruct flash_limits as (_ & _ & E32 & E22).
    rewrite E32. rewrite E22 in *.
    destruct (Z.ltb_spec offset 22); [by intros [= <- <-]|].
    destruct (Z.ltb_spec 32 (offset + cnt)); [by intros [= <- <-]|lia].
Qed.
End Contract.

(** ** Failures that the loops lose

    On the concrete controller a command fails exactly on the bad addresses, so the
    value a loop ends with is that of its last command alone. *)

Section Masked.
Variable bad : Z -> bool.
#[local] Instance bad_laws : FlashLaws (flaky bad) := flaky_laws bad.
Local Existing Instance bad_laws.

Lemma flaky_cmd cmd addr d1 d2 f ret f' :
  @kinetis_flash_cmd (flaky bad) cmd addr d1 d2 f = (ret, f') ->
  ready f -> is_u8 cmd -> 0 <= addr < 16777216 ->
  ready f' /\ ret = (if bad addr then F_ERR_LOWLEVEL else F_ERR_OK) /\
  (bad addr = true -> fx_mem f' = fx_mem f).
Proof.
  intros E Hr Hc Ha.
  destruct (kinetis_flash_cmd_spec _ _ _ _ _ _ _ E Hr Hc Ha)
    as (g & -> & Hm & _ & Hg & _ & Hr' & Hret).
  split; [exact Hr'|]. rewrite flaky_exec_mem, Hg, Hm. split; [|by intros ->].
  destruct Hret as [[-> Hn]|[-> Hn]].
  - apply flaky_exec_error in Hn. by rewrite Hg in Hn; rewrite Hn.
  - destruct (bad addr) eqn:Eb; [done|]. destruct Hn.
    unfold exec, flaky, no_error. cbn [fc_start fc_wait]. unfold flaky_start.
    by rewrite Hg, Eb.
Qed.

Definition last_ret (a : Z) : Z := u32 (if bad a then F_ERR_LOWLEVEL else F_ERR_OK).

Lemma program_loop_S `{FlashController} n srcm src dest i ret f :
  program_loop (S n) srcm src dest i ret f =
  let '(r, f) := kinetis_flash_cmd FTFx_CMD_LWORDPROG (dest + i) (get32 srcm (src + i)) 0 f in
  program_loop n srcm src dest (i + 4) (u32 r) f.
Proof. reflexivity. Qed.
Lemma verify_loop_S `{FlashController} n srcm src dest i ret f :
  verify_loop (S n) srcm src dest i ret f =
  let '(r, f) := kinetis_flash_cmd FTFx_CMD_PROGCHECK (dest + i)
                   (MAKE_FCCOB READ_USER_MARGIN 0 0 0) (get32 srcm (src + i)) f in
  verify_loop n srcm src dest (i + 4) (u32 r) f.
Proof. reflexivity. Qed.

Lemma flaky_program_loop n : forall srcm src dest i r f r' f',
  @program_loop (flaky bad) (S n) srcm src dest i r f = (r', f') ->
  ready f -> 0 <= dest + i -> dest + i + 4 * Z.of_nat (S n) <= 32768 ->
  r' = last_ret (dest + i + 4 * Z.of_nat n) /\
  forall j k, 0 <= j <= Z.of_nat n -> bad (dest + i + 4 * j) = true -> 0 <= k < 4 ->
    fx_mem f' (dest + i + 4 * j + k) = fx_mem f (dest + i + 4 * j + k).
Proof.
  induction n as [|n IH]; intros srcm src dest i r f r' f' E Hr H0 H1;
    rewrite program_loop_S in E;
    destruct (kinetis_flash_cmd FTFx_CMD_LWORDPROG (dest + i) _ 0 f) as [r1 f1] eqn:E1;
    destruct (flaky_cmd _ _ _ _ _ _ _ E1 Hr ltac:(unfold FTFx_CMD_LWORDPROG; lia) ltac:(lia))
      as (Hr1 & -> & Hm1).
  - cbn [program_loop] in E. injection E as <- <-.
    fold (last_ret (dest + i)).
    split; [f_equal; lia|].
    intros j k Hj Hb Hk. assert (j = 0) as -> by lia. rewrite Z.mul_0_r, Z.add_0_r in *.
    by rewrite Hm1.
  - destruct (IH _ _ _ _ _ _ _ _ E Hr1 ltac:(lia) ltac:(lia)) as (-> & Hm2).
    split; [f_equal; lia|]. intros j k Hj Hb Hk.
    destruct (decide (j = 0)) as [->|Hn0].
    + destruct (program_loop_frame _ _ _ _ _ _ _ _ _ E Hr1 ltac:(lia) ltac:(lia))
        as (_ & Hfr & _).
      rewrite Hfr by lia. rewrite Z.mul_0_r, Z.add_0_r in *. by rewrite Hm1.
    + specialize (Hm2 (j - 1) k ltac:(lia)).
      replace (dest + (i + 4) + 4 * (j - 1)) with (dest + i + 4 * j) in Hm2 by lia.
      rewrite Hm2 by done.
      assert (Hone : @program_loop (flaky bad) 1 srcm src dest i r f = (last_ret (dest + i), f1)).
      { cbn [program_loop]. by rewrite E1. }
      destruct (program_loop_frame _ _ _ _ _ _ _ _ _ Hone Hr ltac:(lia) ltac:(lia))
        as (_ & Hfr & _).
      apply Hfr. lia.
Qed.

Lemma flaky_verify_loop n : forall srcm src dest i r f r' f',
  @verify_loop (flaky bad) (S n) srcm src dest i r f = (r', f') ->
  ready f -> 0 <= dest + i -> dest + i + 4 * Z.of_nat (S n) <= 32768 ->
  r' = last_ret (dest + i + 4 * Z.of_nat n).
Proof.
  induction n as [|n IH]; intros srcm src dest i r f r' f' E Hr H0 H1;
    rewrite verify_loop_S in E;
    destruct (kinetis_flash_cmd FTFx_CMD_PROGCHECK (dest + i) _ _ f) as [r1 f1] eqn:E1;
    destruct (flaky_cmd _ _ _ _ _ _ _ E1 Hr ltac:(unfold FTFx_CMD_PROGCHECK; lia) ltac:(lia))
      as (Hr1 & -> & Hm1).
  - cbn [verify_loop] in E. injection E as <- <-.
    fold (last_ret (dest + i)). f_equal. lia.
  - rewrite (IH _ _ _ _ _ _ _ _ E Hr1 ltac:(lia) ltac:(lia)). f_equal. lia.
Qed.

(** The result of each command overwrites the previous one in both loops of
    flashProgram: when only the last longword can be programmed, the function
    reports success although every other longword that failed is still blank. *)
Theorem flashProgram_masks_failure srcm src dest count f :
  ready f -> 0 < count -> program_args src dest count -> blank_range (fx_mem f) dest count ->
  bad (dest + count - 4) = false ->
  let '(ret, f') := @flashProgram (flaky bad) srcm src dest count f in
  ret = F_ERR_OK /\
  forall j k, 0 <= j < count / 4 -> bad (dest + 4 * j) = true -> 0 <= k < 4 ->
    fx_mem f' (dest + 4 * j + k) = 0xFF.
Proof.
  intros Hr Hc Ha Hb Hlast. pose proof Ha as (Hlo & Hhi & H4 & _).
  unfold user_lo, user_hi in *.
  destruct (flashProgram srcm src dest count f) as [ret f'] eqn:E.
  destruct (@flashProgram_cases (flaky bad) srcm src dest count f)
    as [(? & _)|[(_ & Hx & _)|[(_ & _ & _ & Hx & _)|[(_ & _ & Hx & _)|(_ & _ & _ & E')]]]];
    try lia; try (unfold user_lo, user_hi in Hx; lia); try done.
  rewrite E' in E. cbv zeta in E.
  destruct (Z.to_nat (count / 4)) as [|n] eqn:En; [Z.div_mod_to_equations; lia|].
  assert (Hn : 4 * Z.of_nat n = count - 4) by (Z.div_mod_to_equations; lia).
  assert (Hz : last_ret (dest + 0 + 4 * Z.of_nat n) = 0).
  { unfold last_ret. replace (dest + 0 + 4 * Z.of_nat n) with (dest + count - 4) by lia.
    by rewrite Hlast. }
  destruct (program_loop _ _ _ _ _ _ f) as [r1 f1] eqn:E1.
  destruct (flaky_program_loop _ _ _ _ _ _ _ _ _ E1 Hr ltac:(lia) ltac:(lia)) as (-> & Hm1).
  destruct (program_loop_frame _ _ _ _ _ _ _ _ _ E1 Hr ltac:(lia) ltac:(lia)) as (Hr1 & _ & _).
  rewrite Hz in E. change (negb (0 =? 0)) with false in E. cbv iota in E.
  destruct (verify_loop _ _ _ _ _ _ f1) as [r2 f2] eqn:E2.
  pose proof (flaky_verify_loop _ _ _ _ _ _ _ _ _ E2 Hr1 ltac:(lia) ltac:(lia)) as ->.
  destruct (verify_loop_spec _ _ _ _ _ _ _ _ _ E2 Hr1 ltac:(lia) ltac:(lia))
    as (_ & Hm2 & _).
  rewrite Hz in E. injection E as <- <-. split; [done|].
  intros j k Hj Hbad Hk. rewrite Hm2. rewrite Z.add_0_r in Hm1. rewrite Hm1; [|lia|done|lia].
  rewrite <- Z.add_assoc. apply Hb. Z.div_mod_to_equations; lia.
Qed.
End Masked.

(** An erased device. *)
Definition blank_device : ftfx := Ftfx (fun _ => 0xFF) FTFx_FSTAT_CCIF 0 0 0.

Lemma blank_device_ready : ready blank_device.
Proof. reflexivity. Qed.

Lemma sample_bytes_ok : byte_mem (bytes_at [1; 2; 3; 4; 5; 6; 7; 8]).
Proof. apply bytes_at_byte_mem. repeat constructor; lia. Qed.


Lemma flashProgram_confined_witness :
  same_outside 0x5900 (0x5900 + 8) (fx_mem blank_device)
    (fx_mem (@flashProgram (flaky (fun a => a =? 0x5904)) (bytes_at [1; 2; 3; 4; 5; 6; 7; 8])
               0 0x5900 8 blank_device).2).
Proof.
  pose proof (flaky_laws (fun a => a =? 0x5904)) as HL.
  destruct (@flashProgram _ _ _ _ _ _) as [ret f'] eqn:E.
  apply (flashProgram_confined (L := HL) _ 0 0x5900 8 blank_device ret f' blank_device_ready
           ltac:(lia) ltac:(lia) ltac:(lia) E).
Defined.

Lemma flashEraseSectors_spec_witness :
  let '(ret, f') := @flashEraseSectors healthy 22 10 blank_device in
  ret = F_ERR_OK /\ blank_range (fx_mem f') (22 * FTFx_PSECTOR_SIZE) (10 * FTFx_PSECTOR_SIZE).
Proof.
  destruct (@flashEraseSectors healthy _ _ _) as [ret f'] eqn:E.
  destruct (flashEraseSectors_spec (C := healthy) 22 10 blank_device ret f' blank_device_ready
              ltac:(lia) ltac:(lia) ltac:(lia) E) as [H _].
  destruct H as (H1 & H2 & _); [split; [vm_compute; discriminate|lia]|].
  split; [exact H1|exact H2].
Defined.

Lemma flashProgram_masks_failure_witness :
  let '(ret, f') := @flashProgram (flaky (fun a => a =? 0x5900))
                      (bytes_at [1; 2; 3; 4; 5; 6; 7; 8]) 0 0x5900 8 blank_device in
  ret = F_ERR_OK /\ fx_mem f' 0x5900 = 0xFF.
Proof.
  pose proof (flashProgram_masks_failure (fun a => a =? 0x5900) (bytes_at [1; 2; 3; 4; 5; 6; 7; 8])
                0 0x5900 8 blank_device blank_device_ready ltac:(lia)) as H.
  destruct (@flashProgram _ _ _ _ _ _) as [ret f'].
  destruct H as [H1 H2].
  - unfold program_args, user_lo, user_hi. split_and!; (lia || done).
  - intros k _. done.
  - done.
  - split; [exact H1|]. apply (H2 0 0); [done|done|lia].
Defined.
