(* ===== verification/Updater.v ===== *)
(** The over-the-air updater (orchard/esplanade_updater.c, esplanade_updater.h and
    appIsValid of esplanade_app.c): the handler of received packets, which erases and
    programs the storage area of the flash and starts the user program.

    The state is [updater]: the variables [astate] and [led_state], the two
    status LEDs and the flash device.  The storage header and the application header
    are structures overlaid on the flash, so every field is a word of the array.  An
    invocation of [updaterPacketProcess] ends in an [outcome]: it returns, the calling
    thread exits to start the program, it hangs in errorCondition, or it reads outside
    of the flash array ([OutOfFlash], where the source says nothing).

    The flash is the interface of Flash.v.  Proved: on any device the boot loader's
    sectors are never changed; the program is only started when it is valid and
    complete; packets with a wrong hash change nothing; and, against the abstract
    specification "the set of received blocks", that every session of packets in any
    order, with repetitions and power cycles between packets, ends in the program
    being started with exactly the transmitted image in flash. *)
From S2P Require Import Prelude Aeabi Murmur3 Mac Flash.
Local Open Scope Z_scope.

(** ** Layout *)

Definition SECTOR_SIZE : Z := FTFx_PSECTOR_SIZE.
Definition BLOCK_SIZE : Z := PAYLOAD_LEN.
Definition SECTOR_MAX : Z := storage_end / SECTOR_SIZE.
Definition SECTOR_MIN : Z := storage_start / SECTOR_SIZE.
Definition SECTOR_COUNT : Z := SECTOR_MAX - SECTOR_MIN + 1.
Definition STORAGE_PROGRAM_OFFSET : Z := storage_start + 256.
Definition STORAGE_VERSION : Z := 0.
Definition STORAGE_MAGIC : Z := 0x62696843.
Definition GUID_BYTES : Z := 16.

(** Addresses of the fields of [storageHdr]. *)
Definition hdr_version : Z := storage_start.
Definition hdr_magic : Z := storage_start + 4.
Definition hdr_fullhash : Z := storage_start + 8.
Definition hdr_length : Z := storage_start + 12.
Definition hdr_guid : Z := storage_start + 16.
Definition hdr_complete : Z := storage_start + 16 + GUID_BYTES.
Definition hdr_blockmap (i : Z) : Z := hdr_complete + 4 + 4 * i.

(** The application header at the start of the program. *)
Definition app_header : Z := storage_start + 256.
Definition app_magic : Z := app_header + 24.
Definition app_version : Z := app_header + 28.
Definition APP_MAGIC : Z := 0xd3fbf67a.
Definition APP_VERSION : Z := 0x00000100.

(** Fields of the packets. *)
Definition cpkt_length (p : list Z) : Z := get32 (bytes_at p) 4.
Definition cpkt_fullhash (p : list Z) : Z := get32 (bytes_at p) 8.
Definition cpkt_guid : Z := 12.
Definition cpkt_hash (p : list Z) : Z := get32 (bytes_at p) 28.
Definition dpkt_block (p : list Z) : Z := get16 (bytes_at p) 2.
Definition dpkt_payload : Z := 4.
Definition dpkt_hash (p : list Z) : Z := get32 (bytes_at p) 260.

(** ** State *)

Inductive app_state : Set := APP_IDLE | APP_GOT_ID | APP_UPDATING | APP_UPDATED | APP_FAIL.

#[export] Instance app_state_eq_dec : EqDecision app_state.
Proof. solve_decision. Defined.

Record updater : Type := Updater {
  astate : app_state;
  led_state : bool;
  statr : bool;       (* PROG_STATR is on *)
  statg : bool;       (* PROG_STATG is on *)
  dev : ftfx
}.

Definition set_astate v u := Updater v (led_state u) (statr u) (statg u) (dev u).
Definition set_led_state v u := Updater (astate u) v (statr u) (statg u) (dev u).
Definition set_statr v u := Updater (astate u) (led_state u) v (statg u) (dev u).
Definition set_statg v u := Updater (astate u) (led_state u) (statr u) v (dev u).
Definition set_dev v u := Updater (astate u) (led_state u) (statr u) (statg u) v.

Inductive outcome : Type :=
| Returned (err : Z) (m : mac) (u : updater)
| Booted (u : updater)
| ErrorLoop (u : updater)
| OutOfFlash.

(** A word of the flash array; [None] outside of it. *)
Definition flash_word (m : mem) (a : Z) : option Z :=
  if (0 <=? a) && (a + 4 <=? P_FLASH_SIZE) then Some (get32 m a) else None.

Definition appIsValid (m : mem) : bool :=
  (get32 m app_magic =? APP_MAGIC) && (get32 m app_version =? APP_VERSION).

(** [true] when the calling thread exits. *)
Definition bootToUserApp (u : updater) : updater * bool :=
  let u := set_statg true u in   (* GPIOB pin 6 *)
  (u, appIsValid (fx_mem (dev u))).

(** PROG_STATG_OFF, then the flashing loop. *)
Definition errorCondition (u : updater) : outcome := ErrorLoop (set_statg false u).

(** The bytes of [storage_header_ram proto]. *)
Definition proto_header (p : list Z) : mem :=
  let m := put32 (fun _ => 0) 0 STORAGE_VERSION in
  let m := put32 m 4 STORAGE_MAGIC in
  let m := put32 m 8 (cpkt_fullhash p) in
  let m := put32 m 12 (cpkt_length p) in
  (* memcpy_aligned(proto.guid, cpkt->guid, GUID_BYTES) *)
  let m := put32 m 16 (get32 (bytes_at p) cpkt_guid) in
  let m := put32 m 20 (get32 (bytes_at p) (cpkt_guid + 4)) in
  let m := put32 m 24 (get32 (bytes_at p) (cpkt_guid + 8)) in
  put32 m 28 (get32 (bytes_at p) (cpkt_guid + 12)).

Definition sizeof_storage_header_ram : Z := 16 + GUID_BYTES.

(** The loop over the block map; [n] entries are left. *)
Fixpoint scan_blocks (n : nat) (m : mem) (i : Z) (alldone : bool) : option bool :=
  match n with
  | O => Some alldone
  | S n =>
      match flash_word m (hdr_blockmap i) with
      | None => None
      | Some w => scan_blocks n m (i + 1) (if w =? 0xFFFFFFFF then false else alldone)
      end
  end.

Definition block_count (length : Z) : Z := u32 (u32 (length - 1) / BLOCK_SIZE + 1).

(** The hash of the stored program; [None] when it runs past the flash. *)
Definition program_hash (m : mem) : option Z :=
  let length := s32 (get32 m hdr_length) in
  if (0 <=? length) && (STORAGE_PROGRAM_OFFSET + length <=? P_FLASH_SIZE)
  then Some (MurmurHash3_x86_32 m STORAGE_PROGRAM_OFFSET length MURMUR_SEED_TOTAL)
  else None.

(** [uint32_t dummy = 0;] *)
Definition dummy : mem := fun _ => 0.

Section Handler.
Context {C : FlashController}.

Definition init_storage_header (p : list Z) (u : updater) : updater :=
  let '(_, f) := flashProgram (proto_header p) 0 storage_start sizeof_storage_header_ram (dev u) in
  set_dev f u.

(** The end of every [break]. *)
Definition return_ (err : Z) (m : mac) (u : updater) : outcome :=
  Returned err (set_pktReady 0 m) u.

Definition erase_storage (u : updater) : Z * updater :=
  let '(err, f) := flashEraseSectors SECTOR_MIN SECTOR_COUNT (dev u) in (err, set_dev f u).

(** [case APP_IDLE] *)
Definition process_idle (m : mac) (u : updater) : outcome :=
  let p := pkt m in
  let u := set_statr true (set_statg false u) in
  if negb (header_type p =? PKTTYPE_CTRL) then return_ 0 m u
  else if negb (MurmurHash3_x86_32 (bytes_at p) 0 (sizeof_demod_pkt_ctrl_t - 4) MURMUR_SEED_BLOCK
                =? cpkt_hash p)
  then return_ 0 m u
  else if memcmp (fx_mem (dev u)) hdr_guid (bytes_at p) cpkt_guid GUID_BYTES =? 0 then
    if get32 (fx_mem (dev u)) hdr_complete =? 0xFFFFFFFF
    then return_ 0 m (set_astate APP_UPDATING u)
    else return_ 0 m (set_astate APP_UPDATED u)
  else
    let '(err, u) := erase_storage u in
    let u := init_storage_header p u in
    return_ err m (set_astate APP_UPDATING u).

(** Record and program a block that the block map says is missing. *)
Definition program_block (p : list Z) (block : Z) (u : updater) : Z * updater :=
  let '(_, f) := flashProgram dummy 0 (hdr_blockmap block) 4 (dev u) in
  let '(err, f) := flashProgram (bytes_at p) dpkt_payload
                     (STORAGE_PROGRAM_OFFSET + block * BLOCK_SIZE) BLOCK_SIZE f in
  (err, set_dev f u).

(** From "check if the entire block map ... has been programmed" on. *)
Definition check_complete (err : Z) (m : mac) (u : updater) : outcome :=
  let fm := fx_mem (dev u) in
  match scan_blocks (Z.to_nat (block_count (get32 fm hdr_length))) fm 0 true with
  | None => OutOfFlash
  | Some false => return_ err m u
  | Some true =>
      match program_hash fm with
      | None => OutOfFlash
      | Some hash =>
          if hash =? get32 fm hdr_fullhash then
            let '(err, f) := flashProgram dummy 0 hdr_complete 4 (dev u) in
            let u := set_astate APP_UPDATED (set_dev f u) in
            let u := set_statr false (set_statg false u) in
            let '(u, exits) := bootToUserApp u in
            if exits then Booted u else return_ err m (set_astate APP_FAIL u)
          else
            let '(err, u) := erase_storage u in
            return_ err m (set_astate APP_FAIL u)
      end
  end.

(** [case APP_UPDATING] *)
Definition process_updating (m : mac) (u : updater) : outcome :=
  let p := pkt m in
  let u := set_statg false u in
  let u := set_statr (negb (led_state u)) u in
  let u := set_led_state (negb (led_state u)) u in
  if negb (get32 (fx_mem (dev u)) hdr_magic =? STORAGE_MAGIC) then
    let '(err, u) := erase_storage u in
    return_ err m (set_astate APP_IDLE u)
  else if negb (header_type p =? PKTTYPE_DATA) then return_ 0 m u
  else if negb (MurmurHash3_x86_32 (bytes_at p) 0 (sizeof_demod_pkt_data_t - 4) MURMUR_SEED_BLOCK
                =? dpkt_hash p)
  then return_ 0 m u
  else
    let block := dpkt_block p in
    match flash_word (fx_mem (dev u)) (hdr_blockmap block) with
    | None => OutOfFlash
    | Some w =>
        let '(err, u) := if w =? 0xFFFFFFFF then program_block p block u else (0, u) in
        check_complete err m u
    end.

(** The packet is [pkt m], the MAC's buffer. *)
Definition updaterPacketProcess (m : mac) (u : updater) : outcome :=
  match astate u with
  | APP_IDLE => process_idle m u
  | APP_UPDATING => process_updating m u
  | APP_UPDATED =>
      let u := set_statr false (set_statg true u) in
      let '(u, exits) := bootToUserApp u in
      if exits then Booted u else return_ 0 m (set_astate APP_FAIL u)
  | APP_FAIL => errorCondition u
  | APP_GOT_ID => return_ 0 m u
  end.
End Handler.

(** ** Addresses *)

Lemma layout_vals :
  storage_start = 22528 /\ SECTOR_MIN = 22 /\ SECTOR_COUNT = 10 /\
  STORAGE_PROGRAM_OFFSET = 22784 /\ hdr_magic = 22532 /\ hdr_fullhash = 22536 /\
  hdr_length = 22540 /\ hdr_guid = 22544 /\ hdr_complete = 22560 /\ BLOCK_SIZE = 256 /\
  sizeof_storage_header_ram = 32 /\ app_magic = 22808 /\ app_version = 22812.
Proof. by split_and!. Qed.

Lemma hdr_blockmap_val i : hdr_blockmap i = 22564 + 4 * i.
Proof. reflexivity. Qed.

(** Arithmetic on addresses of the storage area. *)
Ltac layout :=
  destruct layout_vals as (?Estart & ?Emin & ?Ecount & ?Eprog & ?Emagic & ?Ehash & ?Elen & ?Eguid
    & ?Ecompl & ?Eblock & ?Esize & ?Eam & ?Eav);
  rewrite ?hdr_blockmap_val in *; unfold user_lo, user_hi, program_args in *.

Lemma get32_outside m m' lo hi a :
  same_outside lo hi m m' -> a + 4 <= lo \/ hi <= a -> get32 m' a = get32 m a.
Proof. intros H Ha. apply get32_ext. intros k Hk. apply H. lia. Qed.

(** A word that reads all ones is four blank bytes. *)
Lemma get32_blank m a : byte_mem m -> get32 m a = 0xFFFFFFFF <-> blank_range m a 4.
Proof.
  intros Hm. split.
  - intros H k Hk. rewrite <- (byte_of_get32 m a k Hm Hk), H.
    assert (k = 0 \/ k = 1 \/ k = 2 \/ k = 3) as [->|[->|[->| ->]]] by lia; reflexivity.
  - intros H. unfold get32. rewrite <- (Z.add_0_r a) at 1. by rewrite !H by lia.
Qed.

Lemma blank_range_sub m a n a' n' :
  blank_range m a n -> a <= a' -> a' + n' <= a + n -> blank_range m a' n'.
Proof.
  intros H H1 H2 k Hk. replace (a' + k) with (a + (a' + k - a)) by lia. apply H. lia.
Qed.

Lemma blank_range_outside m m' lo hi a n :
  same_outside lo hi m m' -> blank_range m a n -> a + n <= lo \/ hi <= a -> blank_range m' a n.
Proof. intros H Hb Ha k Hk. rewrite H by lia. by apply Hb. Qed.

(** The first word of a zero memory, and of the header prototype. *)
Lemma dummy_bytes : byte_mem dummy.
Proof. intros a. unfold dummy. lia. Qed.

Lemma proto_header_bytes p : byte_mem (proto_header p).
Proof. unfold proto_header. cbv zeta. repeat apply put32_byte_mem. apply dummy_bytes. Qed.

Lemma get32_copy m m' a a' w :
  (forall k, 0 <= k < 4 -> m' (a' + k) = m (a + k)) -> get32 m a = w -> get32 m' a' = w.
Proof.
  intros H <-. unfold get32. rewrite <- (Z.add_0_r a), <- (Z.add_0_r a') at 1.
  by rewrite !H by lia.
Qed.

Lemma proto_header_words p :
  byte_mem (bytes_at p) ->
  get32 (proto_header p) 0 = STORAGE_VERSION /\ get32 (proto_header p) 4 = STORAGE_MAGIC /\
  get32 (proto_header p) 8 = cpkt_fullhash p /\ get32 (proto_header p) 12 = cpkt_length p /\
  (forall k, 0 <= k < 16 -> proto_header p (16 + k) = bytes_at p (12 + k)).
Proof.
  intros Hp. unfold proto_header. cbv zeta.
  assert (Hlow : forall m a w b v, b + 4 <= a \/ a + 4 <= b ->
    get32 m b = v -> get32 (put32 m a w) b = v).
  { intros m a w b v Hb <-. apply (get32_outside _ _ a (a + 4)); [|lia].
    apply put32_outside; lia. }
  split_and!; repeat (apply Hlow; [lia|]); rewrite ?get32_put32; try done;
    try (unfold cpkt_fullhash, cpkt_length; auto).
  intros k Hk. unfold cpkt_guid.
  assert (Hput : forall m a w b, a <= b < a + 4 -> put32 m a w b = byte_of w (b - a)).
  { intros. unfold put32. by rewrite in_range by lia. }
  destruct (decide (12 <= k)); [|rewrite put32_other by lia].
  { rewrite Hput, byte_of_get32 by (done || lia). f_equal. lia. }
  destruct (decide (8 <= k)); [|rewrite put32_other by lia].
  { rewrite Hput, byte_of_get32 by (done || lia). f_equal. lia. }
  destruct (decide (4 <= k)); [|rewrite put32_other by lia].
  { rewrite Hput, byte_of_get32 by (done || lia). f_equal. lia. }
  rewrite Hput, byte_of_get32 by (done || lia). f_equal. lia.
Qed.

(** ** What may change *)

(** A transition of the device that keeps it ready and keeps everything outside of
    the user sectors. *)
Definition confined (f f' : ftfx) : Prop :=
  (ready f -> ready f') /\
  (ready f -> same_outside user_lo user_hi (fx_mem f) (fx_mem f')) /\
  (ready f -> byte_mem (fx_mem f) -> byte_mem (fx_mem f')).

Lemma confined_refl f : confined f f.
Proof. split_and!; done. Qed.
Lemma confined_trans f g h : confined f g -> confined g h -> confined f h.
Proof.
  intros (R1 & S1 & B1) (R2 & S2 & B2). split_and!; [auto| |auto].
  intros Hr. eapply same_outside_trans; [by apply S1|]. by apply S2, R1.
Qed.
#[export] Hint Resolve confined_refl : core.

Definition outcome_dev (o : outcome) : option ftfx :=
  match o with
  | Returned _ _ u => Some (dev u) | Booted u => Some (dev u) | ErrorLoop u => Some (dev u)
  | OutOfFlash => None
  end.

Lemma dpkt_block_range p : byte_mem (bytes_at p) -> is_u16 (dpkt_block p).
Proof. intros H. by apply get16_range. Qed.

Section Confined.
Context {C : FlashController} {L : FlashLaws C}.

Lemma flashProgram_confine srcm src dest count f ret f' :
  flashProgram srcm src dest count f = (ret, f') ->
  is_u32 count -> 0 <= dest -> dest + count < 4294967296 -> confined f f'.
Proof.
  intros E Hc Hd Hw.
  assert (ready f -> ready f' /\ same_outside user_lo user_hi (fx_mem f) (fx_mem f') /\
    (byte_mem (fx_mem f) -> byte_mem (fx_mem f'))) as H.
  { intros Hr. by destruct (flashProgram_run_frame _ _ _ _ _ _ _ E Hr Hc Hd Hw) as (? & _ & ?). }
  unfold confined. tauto.
Qed.

Lemma erase_storage_confine u err u' :
  erase_storage u = (err, u') -> confined (dev u) (dev u').
Proof.
  unfold erase_storage. destruct (flashEraseSectors _ _ _) as [e f] eqn:E. intros [= <- <-].
  simpl. layout. rewrite Emin, Ecount in E.
  assert (ready (dev u) -> ready f /\ same_outside user_lo user_hi (fx_mem (dev u)) (fx_mem f) /\
    (byte_mem (fx_mem (dev u)) -> byte_mem (fx_mem f))) as H.
  { intros Hr. destruct (flashEraseSectors_frame _ _ _ _ _ E Hr) as (? & ? & ? & ?); try lia.
    done. }
  unfold confined, user_lo, user_hi in *. tauto.
Qed.

Lemma init_storage_header_confine p u : confined (dev u) (dev (init_storage_header p u)).
Proof.
  unfold init_storage_header. destruct (flashProgram _ _ _ _ _) as [e f] eqn:E. simpl.
  layout. rewrite Estart, Esize in E. eapply flashProgram_confine; [exact E|lia|lia|lia].
Qed.

Lemma program_block_confine p b u err u' :
  program_block p b u = (err, u') -> is_u16 b -> confined (dev u) (dev u').
Proof.
  unfold program_block. destruct (flashProgram dummy _ _ _ _) as [e1 f1] eqn:E1.
  destruct (flashProgram _ _ _ _ f1) as [e2 f2] eqn:E2. intros [= <- <-] Hb. simpl.
  layout. rewrite Eprog, Eblock in E2.
  eapply confined_trans;
    [eapply flashProgram_confine; [exact E1|lia..]|eapply flashProgram_confine; [exact E2|lia..]].
Qed.

Lemma check_complete_confine err m u f :
  outcome_dev (check_complete err m u) = Some f -> confined (dev u) f.
Proof.
  unfold check_complete. cbv zeta. destruct (scan_blocks _ _ _ _) as [[|]|]; [|by intros [= <-]|done].
  destruct (program_hash _); [|done]. destruct (_ =? _).
  - destruct (flashProgram _ _ _ _ _) as [e g] eqn:E. layout. rewrite Ecompl in E.
    assert (confined (dev u) g) by (eapply flashProgram_confine; [exact E|lia..]).
    cbn [bootToUserApp]. unfold bootToUserApp. destruct (appIsValid _); by intros [= <-].
  - destruct (erase_storage u) as [e u'] eqn:E. intros [= <-]. by eapply erase_storage_confine.
Qed.
Lemma updater_confine m u f :
  byte_mem (bytes_at (pkt m)) -> outcome_dev (updaterPacketProcess m u) = Some f ->
  confined (dev u) f.
Proof.
  intros Hp. unfold updaterPacketProcess, process_idle, process_updating, bootToUserApp,
    errorCondition, return_. cbv zeta.
  destruct (astate u); repeat case_match; intros E; simplify_eq; cbn in *; simplify_eq; auto;
    repeat match goal with
      | H : erase_storage ?v = _ |- _ => apply erase_storage_confine in H; cbn in H
      | H : program_block _ _ ?v = _ |- _ =>
          apply program_block_confine in H; [cbn in H|by apply dpkt_block_range]
      | H : outcome_dev (check_complete _ _ _) = Some _ |- _ => apply check_complete_confine in H
      end; eauto using confined_trans.
  eapply confined_trans; [eassumption|]. apply init_storage_header_confine.
Qed.

(** A handler that returns has freed the packet buffer and changed nothing else of
    the MAC. *)
Lemma updater_returned m u err m' u' :
  updaterPacketProcess m u = Returned err m' u' -> m' = set_pktReady 0 m.
Proof.
  unfold updaterPacketProcess, process_idle, process_updating, bootToUserApp, errorCondition,
    check_complete, return_. cbv zeta.
  destruct (astate u); repeat case_match; intros E; by simplify_eq.
Qed.
End Confined.

(** ** The block map *)

(** No entry of the block map below [n] is blank. *)
Definition all_marked (m : mem) (n : Z) : Prop :=
  forall i, 0 <= i < n -> get32 m (hdr_blockmap i) <> 0xFFFFFFFF.

Lemma scan_blocks_in n : forall m i d,
  0 <= i -> hdr_blockmap (i + Z.of_nat n) <= P_FLASH_SIZE ->
  exists r, scan_blocks n m i d = Some r /\
    (r = true <-> d = true /\
       forall j, i <= j < i + Z.of_nat n -> get32 m (hdr_blockmap j) <> 0xFFFFFFFF).
Proof.
  unfold P_FLASH_SIZE.
  induction n as [|n IH]; intros m i d Hi Hn; cbn [scan_blocks].
  { exists d. split; [done|]. split; [|tauto]. intros ->. split; [done|lia]. }
  rewrite hdr_blockmap_val in Hn. unfold flash_word, P_FLASH_SIZE.
  rewrite (hdr_blockmap_val i), (proj2 (Z.leb_le 0 _)), (proj2 (Z.leb_le _ 32768)) by lia.
  cbn [andb]. rewrite <- hdr_blockmap_val.
  edestruct (IH m (i + 1)) as (r & -> & Hr); [lia|rewrite hdr_blockmap_val; lia|].
  exists r. split; [done|]. rewrite Hr. destruct (Z.eqb_spec (get32 m (hdr_blockmap i)) 0xFFFFFFFF).
  - split; [by intros [? _]|]. intros [_ H]. by destruct (H i ltac:(lia)).
  - split; intros [Hd H]; (split; [exact Hd|]); intros j Hj; [|apply H; lia].
    destruct (decide (j = i)) as [->|]; [done|]. apply H. lia.
Qed.

Lemma scan_blocks_out n : forall m i d,
  0 <= i -> P_FLASH_SIZE < hdr_blockmap (i + Z.of_nat n) -> (0 < n)%nat ->
  scan_blocks n m i d = None.
Proof.
  unfold P_FLASH_SIZE.
  induction n as [|n IH]; intros m i d Hi Hn Hpos; [lia|]. cbn [scan_blocks].
  rewrite hdr_blockmap_val in Hn. unfold flash_word, P_FLASH_SIZE. rewrite (hdr_blockmap_val i).
  rewrite (proj2 (Z.leb_le 0 _)) by lia. cbn [andb].
  destruct (Z.leb_spec (22564 + 4 * i + 4) 32768); [|done].
  destruct n as [|n]; [lia|]. apply IH; [lia|rewrite hdr_blockmap_val; lia|lia].
Qed.

Lemma scan_blocks_true n m :
  scan_blocks n m 0 true = Some true -> all_marked m (Z.of_nat n).
Proof.
  intros E i Hi. destruct (Z.le_gt_cases (hdr_blockmap (0 + Z.of_nat n)) P_FLASH_SIZE) as [Hle|Hgt].
  - destruct (scan_blocks_in n m 0 true ltac:(lia) Hle) as (r & E' & Hr).
    rewrite E in E'. injection E' as <-. apply Hr; [done|lia].
  - rewrite scan_blocks_out in E by lia. discriminate.
Qed.

Lemma block_count_range l : is_u32 l ->
  0 <= block_count l <= 16777216 /\ (1 <= l -> block_count l = (l - 1) / 256 + 1).
Proof.
  intros Hl. unfold block_count. layout. rewrite Eblock. split; [wrap_lia|].
  intros H1. rewrite (u32_id (l - 1)) by lia. apply u32_id. Z.div_mod_to_equations. lia.
Qed.

(** ** The hash over a copy of the key *)

Lemma murmur_body_shift rd k b n : forall h,
  murmur_body rd (k + b) n h = murmur_body (fun x => rd (k + x)) b n h.
Proof.
  induction n as [|n IH]; intros h; cbn [murmur_body]; [done|]. rewrite IH. do 3 f_equal.
  unfold getblock32, get32. by rewrite !Z.add_assoc.
Qed.

Lemma MurmurHash3_shift rd key len seed :
  MurmurHash3_x86_32 rd key len seed = MurmurHash3_x86_32 (fun x => rd (key + x)) 0 len seed.
Proof.
  unfold MurmurHash3_x86_32. cbv zeta. rewrite Z.add_0_l, murmur_body_shift.
  unfold murmur_tail. by rewrite <- !Z.add_assoc.
Qed.

(** The hash depends on the bytes of the key only. *)
Lemma MurmurHash3_copy rd rd' key key' len seed :
  0 <= len -> (forall k, 0 <= k < len -> rd (key + k) = rd' (key' + k)) ->
  MurmurHash3_x86_32 rd key len seed = MurmurHash3_x86_32 rd' key' len seed.
Proof.
  intros Hl H. rewrite (MurmurHash3_shift rd key), (MurmurHash3_shift rd' key').
  apply MurmurHash3_ext; [done|]. intros k Hk. rewrite !Z.add_0_l. by apply H.
Qed.

Lemma program_hash_eq m len :
  get32 m hdr_length = len -> 0 <= len <= 9984 ->
  program_hash m = Some (MurmurHash3_x86_32 m STORAGE_PROGRAM_OFFSET len MURMUR_SEED_TOTAL).
Proof.
  intros E Hl. unfold program_hash. layout. rewrite E, Eprog, s32_id by lia. unfold P_FLASH_SIZE.
  by rewrite (proj2 (Z.leb_le 0 _)), (proj2 (Z.leb_le _ 32768)) by lia.
Qed.

(** ** Refinement: a session that transfers an image *)

(** What the host sends: the bytes of the program, padded to whole blocks, its length
    and its GUID. *)
Record image : Type := {
  im_bytes : mem;
  im_len : Z;
  im_guid : mem
}.

Record wf_image (im : image) : Prop := {
  wf_bytes : byte_mem (im_bytes im);
  wf_guid : byte_mem (im_guid im);
  wf_len : 1 <= im_len im <= 39 * 256
}.

Definition im_blocks (im : image) : Z := (im_len im - 1) / 256 + 1.
Definition im_hash (im : image) : Z :=
  MurmurHash3_x86_32 (im_bytes im) 0 (im_len im) MURMUR_SEED_TOTAL.

(** The control packet and the data packets of an image, as they are in [pkt]
    (unstriped). *)
Record is_ctrl (im : image) (p : list Z) : Prop := {
  ct_bytes : byte_mem (bytes_at p);
  ct_type : header_type p = PKTTYPE_CTRL;
  ct_length : cpkt_length p = im_len im;
  ct_fullhash : cpkt_fullhash p = im_hash im;
  ct_guid : forall k, 0 <= k < 16 -> bytes_at p (12 + k) = im_guid im k;
  ct_hash : MurmurHash3_x86_32 (bytes_at p) 0 28 MURMUR_SEED_BLOCK = cpkt_hash p
}.

Record is_data (im : image) (b : Z) (p : list Z) : Prop := {
  dt_bytes : byte_mem (bytes_at p);
  dt_type : header_type p = PKTTYPE_DATA;
  dt_block : dpkt_block p = b;
  dt_payload : forall k, 0 <= k < 256 -> bytes_at p (4 + k) = im_bytes im (256 * b + k);
  dt_hash : MurmurHash3_x86_32 (bytes_at p) 0 260 MURMUR_SEED_BLOCK = dpkt_hash p
}.

(** The simulation relation: the flash holds the header of the image and exactly the
    blocks [R]. *)
Record holds (im : image) (R : gset Z) (f : ftfx) : Prop := {
  ho_ready : ready f;
  ho_bytes : byte_mem (fx_mem f);
  ho_magic : get32 (fx_mem f) hdr_magic = STORAGE_MAGIC;
  ho_fullhash : get32 (fx_mem f) hdr_fullhash = im_hash im;
  ho_length : get32 (fx_mem f) hdr_length = im_len im;
  ho_guid : forall k, 0 <= k < 16 -> fx_mem f (hdr_guid + k) = im_guid im k;
  ho_complete : get32 (fx_mem f) hdr_complete = 0xFFFFFFFF;
  ho_map : forall i, 0 <= i < im_blocks im ->
    get32 (fx_mem f) (hdr_blockmap i) = if decide (i ∈ R) then 0 else 0xFFFFFFFF;
  ho_in : forall i k, 0 <= i < im_blocks im -> i ∈ R -> 0 <= k < 256 ->
    fx_mem f (STORAGE_PROGRAM_OFFSET + (256 * i + k)) = im_bytes im (256 * i + k);
  ho_out : forall i k, 0 <= i < im_blocks im -> i ∉ R -> 0 <= k < 256 ->
    fx_mem f (STORAGE_PROGRAM_OFFSET + (256 * i + k)) = 0xFF
}.

(** Every block of the image has been received. *)
Definition covers (im : image) (R : gset Z) : Prop := forall i, 0 <= i < im_blocks im -> i ∈ R.

#[export] Instance covers_dec im R : Decision (covers im R).
Proof.
  destruct (decide (Forall (fun i => Z.of_nat i ∈ R) (seq 0 (Z.to_nat (im_blocks im))))) as [H|H].
  - left. intros i Hi. rewrite List.Forall_forall in H.
    specialize (H (Z.to_nat i)). rewrite Z2Nat.id in H by lia. apply H.
    apply in_seq. lia.
  - right. intros Hc. apply H. rewrite List.Forall_forall. intros i Hi%in_seq. apply Hc. lia.
Defined.

Lemma im_blocks_range im : wf_image im ->
  1 <= im_blocks im <= 39 /\ im_len im <= 256 * im_blocks im /\ is_u32 (im_len im).
Proof. intros []. unfold im_blocks. Z.div_mod_to_equations. lia. Qed.

Lemma im_block_count im : wf_image im -> block_count (im_len im) = im_blocks im.
Proof.
  intros Hw. destruct (im_blocks_range im Hw) as (_ & _ & H).
  by apply block_count_range, wf_len.
Qed.

Lemma received_again (b : Z) (Rs : gset Z) : b ∈ Rs -> {[b]} ∪ Rs = Rs.
Proof. intros H. by apply leibniz_equiv, subseteq_union_1, singleton_subseteq_l. Qed.

Section Session.
Context {C : FlashController} {L : FlashLaws C} {R : ReliableFlash C}.

(** Programming one longword with zero, over a blank word of the storage area. *)
Lemma program_zero a f :
  ready f -> byte_mem (fx_mem f) -> user_lo <= a -> a + 4 <= user_hi -> a mod 4 = 0 ->
  get32 (fx_mem f) a = 0xFFFFFFFF ->
  exists f', flashProgram dummy 0 a 4 f = (F_ERR_OK, f') /\ ready f' /\
    byte_mem (fx_mem f') /\ get32 (fx_mem f') a = 0 /\
    same_outside a (a + 4) (fx_mem f) (fx_mem f').
Proof.
  intros Hr Hb Hlo Hhi Ha Hw. unfold user_lo, user_hi in *.
  destruct (flashProgram_run_ok dummy 0 a 4 f Hr dummy_bytes) as (f' & E & Hr' & Hm & Hs);
    [lia|unfold program_args, user_lo, user_hi; done|by apply get32_blank|].
  exists f'. destruct (flashProgram_confine _ _ _ _ _ _ _ E) as (_ & _ & Hb'); [lia..|].
  split_and!; try done; [by apply Hb'|].
  apply (get32_copy dummy _ 0); [exact Hm|reflexivity].
Qed.

(** One new block: the block map entry first, then the data. *)
Lemma program_block_holds im Rs p b u :
  wf_image im -> holds im Rs (dev u) -> is_data im b p -> 0 <= b < im_blocks im -> b ∉ Rs ->
  exists err f', program_block p b u = (err, set_dev f' u) /\ holds im ({[b]} ∪ Rs) f'.
Proof.
  intros Hw Hh Hd Hb HR. destruct (im_blocks_range im Hw) as (Hn & _ & _). layout.
  unfold program_block.
  destruct (program_zero (hdr_blockmap b) (dev u)) as (f1 & E1 & Hr1 & Hb1 & Hz1 & Hs1);
    [apply Hh|apply Hh|unfold user_lo; rewrite hdr_blockmap_val; lia
    |unfold user_hi; rewrite hdr_blockmap_val; lia
    |rewrite hdr_blockmap_val; Z.div_mod_to_equations; lia
    |rewrite (ho_map _ _ _ Hh) by lia; by rewrite decide_False|].
  rewrite E1, Eprog, Eblock. rewrite hdr_blockmap_val in *.
  destruct (flashProgram_run_ok (bytes_at p) dpkt_payload (22784 + b * 256) 256 f1 Hr1
              (dt_bytes _ _ _ Hd)) as (f2 & E2 & Hr2 & Hm2 & Hs2); [lia| | |].
  { unfold program_args, user_lo, user_hi, dpkt_payload.
    split_and!; try lia; try done; Z.div_mod_to_equations; lia. }
  { intros k Hk. rewrite Hs1 by lia. rewrite <- Z.add_assoc, (Z.mul_comm b 256), <- Eprog.
    apply (ho_out _ _ _ Hh); (done || lia). }
  destruct (flashProgram_confine _ _ _ _ _ _ _ E2) as (_ & _ & Hb2); [lia..|].
  rewrite E2. exists F_ERR_OK, f2. split; [done|].
  assert (Hword : forall a, a + 4 <= 22564 + 4 * b \/ (22564 + 4 * b + 4 <= a /\ a + 4 <= 22784) ->
    get32 (fx_mem f2) a = get32 (fx_mem (dev u)) a).
  { intros a Ha. rewrite (get32_outside _ _ _ _ _ Hs2) by lia.
    apply (get32_outside _ _ _ _ _ Hs1). lia. }
  split; rewrite ?Emagic, ?Ehash, ?Elen, ?Eguid, ?Ecompl, ?Eprog.
  - done.
  - by apply Hb2.
  - rewrite Hword by lia. rewrite <- Emagic. apply Hh.
  - rewrite Hword by lia. rewrite <- Ehash. apply Hh.
  - rewrite Hword by lia. rewrite <- Elen. apply Hh.
  - intros k Hk. rewrite Hs2, Hs1 by lia. rewrite <- Eguid. by apply Hh.
  - rewrite Hword by lia. rewrite <- Ecompl. apply Hh.
  - intros i Hi. rewrite hdr_blockmap_val. destruct (decide (i = b)) as [->|Hib].
    + rewrite decide_True by (apply elem_of_union; left; by apply elem_of_singleton). by rewrite (get32_outside _ _ _ _ _ Hs2) by lia.
    + rewrite Hword by lia. rewrite <- hdr_blockmap_val, (ho_map _ _ _ Hh) by lia.
      by destruct (decide (i ∈ Rs)), (decide (i ∈ {[b]} ∪ Rs)) as [E|E];
        rewrite elem_of_union, elem_of_singleton in E; try tauto.
  - intros i k Hi HiR%elem_of_union Hk. rewrite elem_of_singleton in HiR. destruct (decide (i = b)) as [->|Hib].
    + replace (22784 + (256 * b + k)) with (22784 + b * 256 + k) by lia.
      rewrite Hm2 by lia. unfold dpkt_payload. by apply Hd.
    + rewrite Hs2, Hs1 by lia. rewrite <- Eprog. apply (ho_in _ _ _ Hh); [lia|tauto|lia].
  - intros i k Hi HiR Hk. rewrite elem_of_union, elem_of_singleton in HiR.
    rewrite Hs2, Hs1 by lia. rewrite <- Eprog. apply (ho_out _ _ _ Hh); [lia|tauto|lia].
Qed.

(** The stored program is the image once every block is there. *)
Lemma holds_program im Rs f : wf_image im -> holds im Rs f -> covers im Rs ->
  forall k, 0 <= k < 256 * im_blocks im -> fx_mem f (STORAGE_PROGRAM_OFFSET + k) = im_bytes im k.
Proof.
  intros Hw Hh Hc k Hk. pose proof (ho_in _ _ _ Hh (k / 256) (k mod 256)) as H.
  replace (256 * (k / 256) + k mod 256) with k in H by (Z.div_mod_to_equations; lia).
  assert (0 <= k / 256 < im_blocks im) by (Z.div_mod_to_equations; lia).
  apply H; [done|by apply Hc|Z.div_mod_to_equations; lia].
Qed.

Lemma holds_hash im Rs f : wf_image im -> holds im Rs f -> covers im Rs ->
  program_hash (fx_mem f) = Some (im_hash im).
Proof.
  intros Hw Hh Hc. destruct (im_blocks_range im Hw) as (Hn & Hl & _).
  pose proof (wf_len _ Hw).
  rewrite (program_hash_eq _ (im_len im)) by (apply Hh || lia). f_equal.
  apply MurmurHash3_copy; [lia|]. intros k Hk. rewrite Z.add_0_l.
  apply (holds_program im Rs); (done || lia).
Qed.

(** Whether the image is an application that may be started. *)
Definition im_valid (im : image) : Prop :=
  get32 (im_bytes im) 24 = APP_MAGIC /\ get32 (im_bytes im) 28 = APP_VERSION.

Lemma program_valid im f :
  (forall k, 0 <= k < 256 -> fx_mem f (STORAGE_PROGRAM_OFFSET + k) = im_bytes im k) ->
  appIsValid (fx_mem f) = true <-> im_valid im.
Proof.
  intros H. unfold appIsValid, im_valid. layout. rewrite Eprog in H.
  rewrite andb_true_iff, !Z.eqb_eq, Eam, Eav.
  rewrite (get32_copy (im_bytes im) (fx_mem f) 24 22808 (get32 (im_bytes im) 24));
    [rewrite (get32_copy (im_bytes im) (fx_mem f) 28 22812 (get32 (im_bytes im) 28))|..];
    try done; intros k Hk; rewrite <- H by lia; f_equal; lia.
Qed.

(** The end of the handler in a state that holds the blocks [Rs]. *)
Lemma check_complete_wait im Rs err m u :
  wf_image im -> holds im Rs (dev u) -> ~ covers im Rs ->
  check_complete err m u = return_ err m u.
Proof.
  intros Hw Hh Hc. destruct (im_blocks_range im Hw) as (Hn & _ & _).
  unfold check_complete. cbv zeta. rewrite (ho_length _ _ _ Hh), im_block_count by done.
  destruct (scan_blocks_in (Z.to_nat (im_blocks im)) (fx_mem (dev u)) 0 true) as (r & -> & Hr);
    [lia|rewrite hdr_blockmap_val; unfold P_FLASH_SIZE; lia|].
  destruct r; [|done]. destruct Hc. intros i Hi.
  destruct (decide (i ∈ Rs)) as [|HR]; [done|]. exfalso.
  apply (proj2 (proj1 Hr eq_refl) i); [lia|]. rewrite (ho_map _ _ _ Hh) by done.
  by rewrite decide_False by done.
Qed.

(** What the storage contains when the program is started. *)
Definition installed (im : image) (f : ftfx) : Prop :=
  get32 (fx_mem f) hdr_complete = 0 /\
  (forall k, 0 <= k < 16 -> fx_mem f (hdr_guid + k) = im_guid im k) /\
  forall k, 0 <= k < 256 * im_blocks im ->
    fx_mem f (STORAGE_PROGRAM_OFFSET + k) = im_bytes im k.

Lemma check_complete_done im Rs err m u :
  wf_image im -> holds im Rs (dev u) -> covers im Rs ->
  exists u', installed im (dev u') /\
    ((im_valid im /\ check_complete err m u = Booted u') \/
     (~ im_valid im /\ check_complete err m u = return_ F_ERR_OK m u' /\ astate u' = APP_FAIL)).
Proof.
  intros Hw Hh Hc. destruct (im_blocks_range im Hw) as (Hn & _ & _).
  unfold check_complete. cbv zeta. rewrite (ho_length _ _ _ Hh), im_block_count by done.
  destruct (scan_blocks_in (Z.to_nat (im_blocks im)) (fx_mem (dev u)) 0 true) as (r & -> & Hr);
    [lia|rewrite hdr_blockmap_val; unfold P_FLASH_SIZE; lia|].
  replace r with true.
  2: { symmetry. apply Hr. split; [done|]. intros j Hj. rewrite (ho_map _ _ _ Hh) by lia.
       by rewrite decide_True by (apply Hc; lia). }
  rewrite (holds_hash im Rs), (ho_fullhash _ _ _ Hh), Z.eqb_refl by done.
  destruct (program_zero hdr_complete (dev u)) as (f1 & E1 & Hr1 & Hb1 & Hz1 & Hs1);
    try (by apply Hh); try done. rewrite E1. unfold bootToUserApp.
  cbn [set_statr set_statg set_astate set_dev dev astate led_state statr statg].
  assert (Hprog : forall k, 0 <= k < 256 * im_blocks im ->
    fx_mem f1 (STORAGE_PROGRAM_OFFSET + k) = im_bytes im k).
  { intros k Hk. layout. rewrite Hs1 by lia. by apply (holds_program im Rs). }
  assert (Hinst : installed im f1).
  { split_and!; [done| |done]. intros k Hk. layout. rewrite Hs1 by lia. by apply Hh. }
  destruct (appIsValid (fx_mem f1)) eqn:Ev.
  - exists (Updater APP_UPDATED (led_state u) false true f1). split; [exact Hinst|]. left.
    split; [|done].
    apply (program_valid im f1); [|done]. intros k Hk. apply Hprog. lia.
  - exists (Updater APP_FAIL (led_state u) false true f1). split; [exact Hinst|]. right.
    split_and!; [|done|done].
    intros Hv. apply (program_valid im f1) in Hv; [congruence|]. intros k Hk. apply Hprog. lia.
Qed.

(** A data packet of the image, new or repeated. *)
Lemma process_data im Rs b m u :
  wf_image im -> holds im Rs (dev u) -> astate u = APP_UPDATING ->
  is_data im b (pkt m) -> 0 <= b < im_blocks im ->
  exists err u', updaterPacketProcess m u = check_complete err m u' /\
    holds im ({[b]} ∪ Rs) (dev u') /\ astate u' = APP_UPDATING.
Proof.
  intros Hw Hh Ha Hd Hb. destruct (im_blocks_range im Hw) as (Hn & _ & _).
  unfold updaterPacketProcess. rewrite Ha. unfold process_updating. cbv zeta.
  set (u1 := set_led_state _ _).
  assert (Hu1 : dev u1 = dev u) by done. assert (Ha1 : astate u1 = APP_UPDATING) by done.
  clearbody u1. rewrite Hu1, (ho_magic _ _ _ Hh), (dt_type _ _ _ Hd), (dt_block _ _ _ Hd).
  change (sizeof_demod_pkt_data_t - 4) with 260. rewrite (dt_hash _ _ _ Hd), !Z.eqb_refl.
  cbn [negb]. unfold flash_word, P_FLASH_SIZE. rewrite hdr_blockmap_val.
  rewrite (proj2 (Z.leb_le 0 _)), (proj2 (Z.leb_le _ 32768)) by lia. cbn [andb].
  rewrite <- hdr_blockmap_val, (ho_map _ _ _ Hh) by done.
  destruct (decide (b ∈ Rs)) as [HR|HR].
  - exists 0, u1. split; [done|]. rewrite Hu1. split; [|done].
    by rewrite received_again.
  - destruct (program_block_holds im Rs (pkt m) b u1) as (err & f' & E & Hf); try done.
    { by rewrite Hu1. }
    rewrite E. by exists err, (set_dev f' u1).
Qed.

(** The control packet of the image that is being received. *)
Lemma process_resume im Rs m u :
  wf_image im -> holds im Rs (dev u) -> astate u = APP_IDLE -> is_ctrl im (pkt m) ->
  exists u', updaterPacketProcess m u = return_ 0 m u' /\ dev u' = dev u /\
    astate u' = APP_UPDATING.
Proof.
  intros Hw Hh Ha Hc. unfold updaterPacketProcess. rewrite Ha. unfold process_idle. cbv zeta.
  rewrite (ct_type _ _ Hc). change (sizeof_demod_pkt_ctrl_t - 4) with 28.
  rewrite (ct_hash _ _ Hc), !Z.eqb_refl. cbn [negb].
  change (fx_mem (dev (set_statr true (set_statg false u)))) with (fx_mem (dev u)).
  assert (memcmp (fx_mem (dev u)) hdr_guid (bytes_at (pkt m)) cpkt_guid GUID_BYTES = 0) as ->.
  { apply memcmp_eq; [done|done|done|]. intros k Hk.
    rewrite (ho_guid _ _ _ Hh) by done. symmetry. by apply Hc. }
  rewrite (ho_complete _ _ _ Hh). by eexists.
Qed.

(** The control packet of another image: erase, and write the header. *)
Lemma process_new im m u :
  wf_image im -> ready (dev u) -> byte_mem (fx_mem (dev u)) -> astate u = APP_IDLE ->
  is_ctrl im (pkt m) ->
  (exists k, 0 <= k < 16 /\ fx_mem (dev u) (hdr_guid + k) <> im_guid im k) ->
  exists err u', updaterPacketProcess m u = return_ err m u' /\ holds im ∅ (dev u') /\
    astate u' = APP_UPDATING.
Proof.
  intros Hw Hr Hbm Ha Hc (k & Hk & Hg). pose proof (ct_bytes _ _ Hc) as Hp.
  destruct (im_blocks_range im Hw) as (Hn & _ & _).
  unfold updaterPacketProcess. rewrite Ha. unfold process_idle. cbv zeta.
  rewrite (ct_type _ _ Hc). change (sizeof_demod_pkt_ctrl_t - 4) with 28.
  rewrite (ct_hash _ _ Hc), !Z.eqb_refl. cbn [negb].
  set (u1 := set_statr true (set_statg false u)).
  change (fx_mem (dev u1)) with (fx_mem (dev u)).
  destruct (Z.eqb_spec (memcmp (fx_mem (dev u)) hdr_guid (bytes_at (pkt m)) cpkt_guid GUID_BYTES) 0)
    as [E|_].
  { destruct Hg. rewrite <- (ct_guid _ _ Hc) by done.
    by apply (proj1 (memcmp_eq _ hdr_guid (bytes_at (pkt m)) cpkt_guid GUID_BYTES
                       ltac:(done) ltac:(done) ltac:(done)) E). }
  unfold erase_storage. change (dev u1) with (dev u). layout. rewrite Emin, Ecount.
  destruct (flashEraseSectors 22 10 (dev u)) as [e f1] eqn:E1.
  destruct (flashEraseSectors_frame _ _ _ _ _ E1 Hr ltac:(lia) ltac:(lia) ltac:(lia))
    as (_ & _ & _ & Hb1).
  destruct (flashEraseSectors_ok 22 10 (dev u) Hr) as (f1' & E1' & Hr1 & Hbl1 & _); try done.
  rewrite E1' in E1. injection E1 as <- ->. unfold init_storage_header. rewrite Estart, Esize.
  change (dev (set_dev f1 u1)) with f1.
  change (22 * FTFx_PSECTOR_SIZE) with 22528 in Hbl1.
  change (10 * FTFx_PSECTOR_SIZE) with 10240 in Hbl1.
  destruct (flashProgram_run_ok (proto_header (pkt m)) 0 22528 32 f1 Hr1
              (proto_header_bytes _)) as (f2 & E2 & Hr2 & Hm2 & Hs2);
    [lia|by split_and!|apply (blank_range_sub _ _ _ _ _ Hbl1); lia|].
  rewrite E2. eexists _, _. split; [reflexivity|]. split; [|done].
  cbn [dev set_astate set_dev].
  destruct (flashProgram_confine _ _ _ _ _ _ _ E2) as (_ & _ & Hb2); [lia..|].
  destruct (proto_header_words (pkt m) Hp) as (_ & W4 & W8 & W12 & W16).
  assert (Hh : forall a, 0 <= a -> a + 4 <= 32 ->
    get32 (fx_mem f2) (22528 + a) = get32 (proto_header (pkt m)) a).
  { intros a H0 H1. apply (get32_copy (proto_header (pkt m)) _ a); [|done].
    intros j Hj. rewrite <- Z.add_assoc, Hm2 by lia. done. }
  assert (Hbl2 : forall a n, 22528 + 32 <= a -> a + n <= 32768 -> blank_range (fx_mem f2) a n).
  { intros a n H0 H1. apply (blank_range_outside _ _ _ _ _ _ Hs2); [|lia].
    apply (blank_range_sub _ _ _ _ _ Hbl1); lia. }
  split; rewrite ?Emagic, ?Ehash, ?Elen, ?Eguid, ?Ecompl, ?Eprog.
  - done.
  - by apply Hb2, Hb1.
  - change 22532 with (22528 + 4). rewrite (Hh 4) by lia. done.
  - change 22536 with (22528 + 8). rewrite (Hh 8), W8 by lia. by apply Hc.
  - change 22540 with (22528 + 12). rewrite (Hh 12), W12 by lia. by apply Hc.
  - intros j Hj. replace (22544 + j) with (22528 + (16 + j)) by lia.
    rewrite Hm2, Z.add_0_l, W16 by lia. by apply Hc.
  - apply get32_blank; [by apply Hb2, Hb1|]. apply Hbl2; lia.
  - intros i Hi. rewrite hdr_blockmap_val. rewrite decide_False by set_solver.
    apply get32_blank; [by apply Hb2, Hb1|]. apply Hbl2; lia.
  - set_solver.
  - intros i j Hi _ Hj. rewrite <- (Z.add_0_r (22784 + _)).
    apply (Hbl2 (22784 + (256 * i + j)) 1); lia.
Qed.
End Session.

(** ** Sessions *)

(** The state after a reset into programming mode. *)
Definition power_on (f : ftfx) : updater := Updater APP_IDLE false false false f.

Inductive session_event : Type :=
| Receive (p : list Z)   (* a packet completed by the MAC *)
| PowerCycle.            (* a reset between two packets *)

Fixpoint session `{FlashController} (evs : list session_event) (m : mac) (u : updater) : outcome :=
  match evs with
  | [] => Returned 0 m u
  | Receive p :: evs =>
      match updaterPacketProcess (set_pktReady 1 (set_pkt p m)) u with
      | Returned _ m u => session evs m u
      | o => o
      end
  | PowerCycle :: evs => session evs mac_init (power_on (dev u))
  end.

(** A packet that the updating state ignores. *)
Definition is_noise (p : list Z) : Prop :=
  header_type p <> PKTTYPE_DATA \/
  MurmurHash3_x86_32 (bytes_at p) 0 260 MURMUR_SEED_BLOCK <> dpkt_hash p.

(** The abstract specification: the blocks that a run of events receives, in order,
    for given sets of control, data and ignored packets.  After a power cycle the host
    sends the control packet again. *)
Inductive receives (ctrl : list Z -> Prop) (data : Z -> list Z -> Prop) (noise : list Z -> Prop)
  : list session_event -> list Z -> Prop :=
| receives_nil : receives ctrl data noise [] []
| receives_data b p evs Rs :
    data b p -> receives ctrl data noise evs Rs ->
    receives ctrl data noise (Receive p :: evs) (b :: Rs)
| receives_noise p evs Rs :
    noise p -> receives ctrl data noise evs Rs -> receives ctrl data noise (Receive p :: evs) Rs
| receives_resume p evs Rs :
    ctrl p -> receives ctrl data noise evs Rs ->
    receives ctrl data noise (PowerCycle :: Receive p :: evs) Rs.

Definition transfer (im : image) : list session_event -> list Z -> Prop :=
  receives (is_ctrl im) (fun b p => 0 <= b < im_blocks im /\ is_data im b p) is_noise.

Lemma covers_proper im (R1 R2 : gset Z) : R1 ⊆ R2 -> covers im R1 -> covers im R2.
Proof. intros H Hc i Hi. by apply H, Hc. Qed.

Section Refinement.
Context {C : FlashController} {L : FlashLaws C} {R : ReliableFlash C}.

Lemma process_noise im Rs m u :
  holds im Rs (dev u) -> astate u = APP_UPDATING -> is_noise (pkt m) ->
  exists u', updaterPacketProcess m u = return_ 0 m u' /\ dev u' = dev u /\
    astate u' = APP_UPDATING.
Proof.
  intros Hh Ha Hn. unfold updaterPacketProcess. rewrite Ha. unfold process_updating. cbv zeta.
  set (u1 := set_led_state _ _). assert (Hu1 : dev u1 = dev u) by done.
  rewrite Hu1, (ho_magic _ _ _ Hh), Z.eqb_refl. cbn [negb].
  change (sizeof_demod_pkt_data_t - 4) with 260. unfold is_noise in Hn.
  destruct (Z.eqb_spec (header_type (pkt m)) PKTTYPE_DATA); [|by exists u1].
  destruct (Z.eqb_spec (MurmurHash3_x86_32 (bytes_at (pkt m)) 0 260 MURMUR_SEED_BLOCK)
              (dpkt_hash (pkt m))); [tauto|by exists u1].
Qed.

(** The simulation: the handler follows the set of received blocks until it covers
    the image, and then starts the program. *)
Lemma session_run im evs Rs' : transfer im evs Rs' -> wf_image im -> im_valid im ->
  forall m u Rs, holds im Rs (dev u) -> astate u = APP_UPDATING -> ~ covers im Rs ->
  let all := Rs ∪ list_to_set Rs' in
  (covers im all -> exists u', session evs m u = Booted u' /\ installed im (dev u')) /\
  (~ covers im all -> exists err m' u', session evs m u = Returned err m' u' /\
     holds im all (dev u') /\ astate u' = APP_UPDATING).
Proof.
  intros Ht Hw Hv. induction Ht as [|b p evs Rs' [Hb Hd] Ht IH|p evs Rs' Hn Ht IH|p evs Rs' Hc Ht IH];
    intros m u Rs Hh Ha Hnc; cbn [session list_to_set foldr] in *; cbv zeta in *.
  - rewrite (right_id_L ∅ (∪)). split; [done|]. intros _. by exists 0, m, u.
  - destruct (process_data im Rs b (set_pktReady 1 (set_pkt p m)) u) as (err & u1 & E & H1 & A1);
      try done. rewrite E. rewrite (assoc_L (∪)), (comm_L (∪) Rs).
    destruct (decide (covers im ({[b]} ∪ Rs))) as [Hc|Hc].
    + destruct (check_complete_done im _ err (set_pktReady 1 (set_pkt p m)) u1 Hw H1 Hc)
        as (u' & Hi & [[_ ->]|[Hnv _]]); [|done].
      split; [by exists u'|]. intros Hx. destruct Hx. 
      exact (covers_proper im ({[b]} ∪ Rs) _ (union_subseteq_l _ _) Hc).
    + rewrite (check_complete_wait im _ err _ u1 Hw H1 Hc). by apply IH.
  - destruct (process_noise im Rs (set_pktReady 1 (set_pkt p m)) u) as (u1 & E & D1 & A1); try done.
    rewrite E. apply IH; [by rewrite D1|done|done].
  - destruct (process_resume im Rs (set_pktReady 1 (set_pkt p mac_init)) (power_on (dev u)))
      as (u1 & E & D1 & A1); try done.
    rewrite E. apply IH; [by rewrite D1|done|done].
Qed.
End Refinement.

(** ** Starting the program, on any device *)

Section Boot.
Context {C : FlashController} {L : FlashLaws C}.

(** Neither of the two writes of a block touches the words before the block map. *)
Lemma program_block_low p b u err u' a :
  program_block p b u = (err, u') -> ready (dev u) -> is_u16 b -> a + 4 <= hdr_blockmap 0 ->
  ready (dev u') /\ get32 (fx_mem (dev u')) a = get32 (fx_mem (dev u)) a.
Proof.
  unfold program_block. destruct (flashProgram dummy _ _ _ _) as [e1 f1] eqn:E1.
  destruct (flashProgram _ _ _ _ f1) as [e2 f2] eqn:E2. intros [= <- <-] Hr Hb Ha.
  cbn [dev set_dev]. layout. rewrite Eprog, Eblock in E2.
  destruct (flashProgram_run_frame _ _ _ _ _ _ _ E1 Hr ltac:(lia) ltac:(lia) ltac:(lia))
    as (Hr1 & Hs1 & _).
  destruct (flashProgram_run_frame _ _ _ _ _ _ _ E2 Hr1 ltac:(lia) ltac:(lia) ltac:(lia))
    as (Hr2 & Hs2 & _).
  split; [done|]. rewrite (get32_outside _ _ _ _ _ Hs2) by lia.
  apply (get32_outside _ _ _ _ _ Hs1). lia.
Qed.

(** What the flash contains when [check_complete] starts the program. *)
Definition complete_program (m : mem) : Prop :=
  all_marked m (block_count (get32 m hdr_length)) /\
  program_hash m = Some (get32 m hdr_fullhash).

Lemma program_hash_ext m m' :
  same_outside hdr_complete (hdr_complete + 4) m m' -> program_hash m' = program_hash m.
Proof.
  intros Hs. layout. rewrite Ecompl in Hs. unfold program_hash. cbv zeta.
  rewrite Elen, Eprog, (get32_outside _ _ _ _ _ Hs) by lia.
  destruct (Z.leb_spec 0 (s32 (get32 m 22540))); [|done]. cbn [andb].
  case_match; [|done]. f_equal. apply MurmurHash3_ext; [done|].
  intros k Hk. apply Hs. lia.
Qed.

Lemma check_complete_booted err m u u' :
  check_complete err m u = Booted u' -> ready (dev u) ->
  appIsValid (fx_mem (dev u')) = true /\ complete_program (fx_mem (dev u')) /\
  get32 (fx_mem (dev u')) hdr_magic = get32 (fx_mem (dev u)) hdr_magic.
Proof.
  unfold check_complete. cbv zeta.
  destruct (scan_blocks _ _ _ _) as [[|]|] eqn:Es; [|done|done].
  destruct (program_hash _) as [hash|] eqn:Eh; [|done].
  destruct (Z.eqb_spec hash (get32 (fx_mem (dev u)) hdr_fullhash)) as [->|];
    [|by destruct (erase_storage u)].
  destruct (flashProgram _ _ _ _ _) as [e f] eqn:E. unfold bootToUserApp.
  cbn [dev set_dev set_statr set_statg set_astate].
  destruct (appIsValid (fx_mem f)) eqn:Ev; [|done]. intros [= <-] Hr.
  cbn [dev set_dev set_statr set_statg set_astate].
  assert (Hs : same_outside hdr_complete (hdr_complete + 4) (fx_mem (dev u)) (fx_mem f)).
  { layout. rewrite Ecompl in *.
    by destruct (flashProgram_run_frame _ _ _ _ _ _ _ E Hr ltac:(lia) ltac:(lia) ltac:(lia))
      as (_ & ? & _). }
  pose proof (program_hash_ext _ _ Hs) as Hh. layout. rewrite Ecompl in Hs.
  assert (Hw : forall a, a + 4 <= 22560 \/ 22564 <= a ->
    get32 (fx_mem f) a = get32 (fx_mem (dev u)) a).
  { intros a Ha. apply (get32_outside _ _ _ _ _ Hs). lia. }
  split_and!; [done| |rewrite Emagic; apply Hw; lia]. split.
  - rewrite Elen, Hw, <- Elen by lia. apply scan_blocks_true in Es.
    intros i Hi. rewrite hdr_blockmap_val, Hw, <- hdr_blockmap_val by lia. apply Es. lia.
  - rewrite Hh, Eh, Ehash, Hw by lia. done.
Qed.
End Boot.

(** ** Properties *)

Section Properties.
Context {C : FlashController} {L : FlashLaws C}.

(** C1. The update session as a whole, on a healthy device and from any previous
    contents with another GUID: after the control packet of a valid image, any
    sequence of its data packets, in any order, with repetitions, ignored packets
    and power cycles between packets, starts the program as soon as every block has
    been received, with exactly the transmitted image in flash and the storage
    marked complete; until then the flash holds exactly the received blocks. *)
Theorem session_refines `{!ReliableFlash C} im p evs Rs m u :
  wf_image im -> im_valid im -> ready (dev u) -> byte_mem (fx_mem (dev u)) ->
  astate u = APP_IDLE -> is_ctrl im p ->
  (exists k, 0 <= k < 16 /\ fx_mem (dev u) (hdr_guid + k) <> im_guid im k) ->
  transfer im evs Rs ->
  let all := list_to_set Rs in
  (covers im all -> exists u', session (Receive p :: evs) m u = Booted u' /\
     installed im (dev u')) /\
  (~ covers im all -> exists err m' u', session (Receive p :: evs) m u = Returned err m' u' /\
     holds im all (dev u') /\ astate u' = APP_UPDATING).
Proof.
  intros Hw Hv Hr Hb Ha Hc Hg Ht. cbn [session].
  destruct (process_new im (set_pktReady 1 (set_pkt p m)) u) as (err & u1 & -> & H1 & A1);
    try done. cbn [return_].
  assert (Hnc : ~ covers im ∅).
  { intros H. destruct (im_blocks_range im Hw) as (Hn & _). specialize (H 0 ltac:(lia)). set_solver. }
  pose proof (session_run im evs Rs Ht Hw Hv (set_pktReady 0 (set_pktReady 1 (set_pkt p m))) u1 ∅
                H1 A1 Hnc) as Hs.
  by rewrite (left_id_L ∅ (∪)) in Hs.
Qed.


(** C2. The handler starts the user program only when the application header in
    the flash is valid and, unless the same complete program was announced again
    (APP_UPDATED), the storage header has its magic number, every block of the
    program is marked in the block map and the hash over the stored program is the
    announced one.  This holds on every device, faulty ones included. *)
Theorem updater_boot_safe m u u' :
  ready (dev u) -> byte_mem (bytes_at (pkt m)) ->
  updaterPacketProcess m u = Booted u' ->
  appIsValid (fx_mem (dev u')) = true /\
  ((astate u = APP_UPDATED /\ dev u' = dev u) \/
   (astate u = APP_UPDATING /\ get32 (fx_mem (dev u')) hdr_magic = STORAGE_MAGIC /\
    complete_program (fx_mem (dev u')))).
Proof.
  intros Hr Hp. unfold updaterPacketProcess. destruct (astate u) eqn:Ea; [| | | |done].
  - unfold process_idle. cbv zeta. by repeat case_match.
  - done.
  - unfold process_updating. cbv zeta. set (u1 := set_led_state _ _).
    assert (Hu1 : dev u1 = dev u) by done. clearbody u1. rewrite Hu1.
    destruct (Z.eqb_spec (get32 (fx_mem (dev u)) hdr_magic) STORAGE_MAGIC) as [Em|];
      cbn [negb]; [|by destruct (erase_storage u1)].
    destruct (negb _); [done|]. destruct (negb _); [done|].
    destruct (flash_word _ _) as [w|]; [|done]. destruct (w =? 0xFFFFFFFF).
    + destruct (program_block _ _ u1) as [err u2] eqn:E. intros Eb.
      destruct (program_block_low _ _ _ _ _ hdr_magic E) as [Hr2 Hm2];
        [by rewrite Hu1|by apply dpkt_block_range|by compute|].
      destruct (check_complete_booted _ _ _ _ Eb Hr2) as (? & ? & ->).
      split; [done|]. right. split_and!; [done| |done]. by rewrite Hm2, Hu1.
    + intros Eb. destruct (check_complete_booted _ _ _ _ Eb) as (? & ? & ->); [by rewrite Hu1|].
      split; [done|]. right. split_and!; [done| |done]. by rewrite Hu1.
  - unfold bootToUserApp. cbv zeta. cbn [dev set_statr set_statg].
    destruct (appIsValid _) eqn:Ev; [|done]. intros [= <-]. split; [done|]. by left.
Qed.

(** Packets that are damaged or of the wrong type are harmless: in APP_IDLE a
    packet that is not a control packet with a correct hash, and in APP_UPDATING one
    that is not a data packet with a correct hash, changes neither the flash nor the
    state (apart from the LEDs); the handler returns 0 and frees the packet buffer. *)
Theorem updater_ignores_bad_packets m u :
  (astate u = APP_IDLE /\
     (header_type (pkt m) <> PKTTYPE_CTRL \/
      MurmurHash3_x86_32 (bytes_at (pkt m)) 0 28 MURMUR_SEED_BLOCK <> cpkt_hash (pkt m))) \/
  (astate u = APP_UPDATING /\ get32 (fx_mem (dev u)) hdr_magic = STORAGE_MAGIC /\
     is_noise (pkt m)) ->
  exists m' u', updaterPacketProcess m u = Returned 0 m' u' /\ pktReady m' = 0 /\
    dev u' = dev u /\ astate u' = astate u.
Proof.
  unfold updaterPacketProcess.
  intros [(Ha & Hbad)|(Ha & Hm & Hbad)]; rewrite Ha.
  - unfold process_idle. cbv zeta. change (sizeof_demod_pkt_ctrl_t - 4) with 28.
    exists (set_pktReady 0 m), (set_statr true (set_statg false u)).
    destruct (Z.eqb_spec (header_type (pkt m)) PKTTYPE_CTRL); [|done].
    destruct (Z.eqb_spec (MurmurHash3_x86_32 (bytes_at (pkt m)) 0 28 MURMUR_SEED_BLOCK)
                (cpkt_hash (pkt m))); [tauto|done].
  - unfold process_updating, is_noise in *. cbv zeta. set (u1 := set_led_state _ _).
    assert (Hu1 : dev u1 = dev u) by done. rewrite Hu1, Hm, Z.eqb_refl. cbn [negb].
    change (sizeof_demod_pkt_data_t - 4) with 260.
    exists (set_pktReady 0 m), u1.
    destruct (Z.eqb_spec (header_type (pkt m)) PKTTYPE_DATA); [|done].
    destruct (Z.eqb_spec (MurmurHash3_x86_32 (bytes_at (pkt m)) 0 260 MURMUR_SEED_BLOCK)
                (dpkt_hash (pkt m))); [tauto|done].
Qed.

(** A data packet with a correct hash for a block that is marked already. *)
Definition repeated_block (m : mac) (u : updater) : Prop :=
  astate u = APP_UPDATING /\ get32 (fx_mem (dev u)) hdr_magic = STORAGE_MAGIC /\
  header_type (pkt m) = PKTTYPE_DATA /\
  MurmurHash3_x86_32 (bytes_at (pkt m)) 0 260 MURMUR_SEED_BLOCK = dpkt_hash (pkt m) /\
  0 <= dpkt_block (pkt m) < 2551 /\
  get32 (fx_mem (dev u)) (hdr_blockmap (dpkt_block (pkt m))) <> 0xFFFFFFFF.

Lemma process_repeated m u :
  repeated_block m u ->
  exists u1, updaterPacketProcess m u = check_complete 0 m u1 /\ dev u1 = dev u.
Proof.
  intros (Ha & Hm & Ht & Hh & Hb & Hw). unfold updaterPacketProcess. rewrite Ha.
  unfold process_updating. cbv zeta. set (u1 := set_led_state _ _).
  assert (Hu1 : dev u1 = dev u) by done. exists u1. split; [|done]. clearbody u1.
  rewrite Hu1, Hm, Ht, !Z.eqb_refl. change (sizeof_demod_pkt_data_t - 4) with 260.
  rewrite Hh, !Z.eqb_refl. cbn [negb]. unfold flash_word, P_FLASH_SIZE.
  rewrite (hdr_blockmap_val (dpkt_block _)), (proj2 (Z.leb_le 0 _)), (proj2 (Z.leb_le _ 32768)) by lia.
  cbn [andb]. rewrite <- hdr_blockmap_val.
  apply Z.eqb_neq in Hw. by rewrite Hw.
Qed.

(** A program that is marked complete but does not have the announced hash (a
    block was torn by a power failure, or the device failed) is never started: on a
    healthy device the whole storage area is erased, the state becomes APP_FAIL, and
    every later packet ends in the error loop. *)
Theorem updater_rejects_corrupt_program `{!ReliableFlash C} m u len :
  ready (dev u) -> repeated_block m u ->
  get32 (fx_mem (dev u)) hdr_length = len -> 1 <= len <= 9984 ->
  all_marked (fx_mem (dev u)) (block_count len) ->
  program_hash (fx_mem (dev u)) <> Some (get32 (fx_mem (dev u)) hdr_fullhash) ->
  exists m' u', updaterPacketProcess m u = Returned F_ERR_OK m' u' /\ astate u' = APP_FAIL /\
    blank_range (fx_mem (dev u')) user_lo (user_hi - user_lo) /\
    forall m2, exists u2, updaterPacketProcess m2 u' = ErrorLoop u2 /\ dev u2 = dev u'.
Proof.
  intros Hr Hrep Hlen Hl Hall Hhash.
  destruct (process_repeated m u Hrep) as (u1 & -> & Hu1).
  unfold check_complete. cbv zeta. rewrite Hu1, Hlen.
  destruct (block_count_range len ltac:(lia)) as [_ Hbc]. specialize (Hbc ltac:(lia)).
  destruct (scan_blocks_in (Z.to_nat (block_count len)) (fx_mem (dev u)) 0 true) as (r & -> & Hr1);
    [lia|rewrite hdr_blockmap_val; unfold P_FLASH_SIZE; Z.div_mod_to_equations; lia|].
  replace r with true.
  2: { symmetry. apply Hr1. split; [done|]. intros j Hj. apply Hall. lia. }
  rewrite (program_hash_eq _ len) in * by (done || lia).
  destruct (Z.eqb_spec (MurmurHash3_x86_32 (fx_mem (dev u)) STORAGE_PROGRAM_OFFSET len
                          MURMUR_SEED_TOTAL) (get32 (fx_mem (dev u)) hdr_fullhash)); [congruence|].
  unfold erase_storage. rewrite Hu1. layout. rewrite Emin, Ecount.
  destruct (flashEraseSectors_ok 22 10 (dev u) Hr) as (f1 & -> & Hr2 & Hb1 & _); try done.
  eexists _, (set_astate APP_FAIL (set_dev f1 u1)). split_and!; [reflexivity|done| |].
  - exact Hb1.
  - intros m2. by eexists.
Qed.

(** The length announced by a control packet is not checked: with a length of
    0, or one of more than 2551 blocks, the scan of the block map after the first
    accepted data packet runs off the end of the flash. *)
Theorem updater_length_unchecked m u :
  repeated_block m u ->
  get32 (fx_mem (dev u)) hdr_length = 0 \/
    (is_u32 (get32 (fx_mem (dev u)) hdr_length) /\
     653056 < get32 (fx_mem (dev u)) hdr_length) ->
  updaterPacketProcess m u = OutOfFlash.
Proof.
  intros Hrep Hlen. destruct (process_repeated m u Hrep) as (u1 & -> & Hu1).
  unfold check_complete. cbv zeta. rewrite Hu1.
  assert (2551 < block_count (get32 (fx_mem (dev u)) hdr_length)).
  { destruct Hlen as [->|[Hu Hlen]]; [done|].
    rewrite (proj2 (block_count_range _ Hu)) by lia. Z.div_mod_to_equations. lia. }
  rewrite scan_blocks_out; [done|lia|rewrite hdr_blockmap_val; unfold P_FLASH_SIZE; lia|lia].
Qed.

(** The block number of a data packet is not checked against the 40 entries of
    the block map: the entry of block [b >= 55] is word [b - 55] of the stored
    program, which is programmed to 0 although the data itself is refused. *)
Theorem block_index_unchecked `{!ReliableFlash C} p b u :
  ready (dev u) -> byte_mem (fx_mem (dev u)) -> byte_mem (bytes_at p) ->
  55 <= b < 2551 -> get32 (fx_mem (dev u)) (STORAGE_PROGRAM_OFFSET + 4 * (b - 55)) = 0xFFFFFFFF ->
  exists u', program_block p b u = (F_ERR_RANGE, u') /\
    get32 (fx_mem (dev u')) (STORAGE_PROGRAM_OFFSET + 4 * (b - 55)) = 0.
Proof.
  intros Hr Hb Hp Hb55 Hw. unfold program_block.
  replace (STORAGE_PROGRAM_OFFSET + 4 * (b - 55)) with (hdr_blockmap b) in *
    by (layout; rewrite Eprog; lia).
  destruct (program_zero (hdr_blockmap b) (dev u)) as (f1 & -> & Hr1 & Hb1 & Hz1 & _);
    try (rewrite hdr_blockmap_val; unfold user_lo, user_hi; lia); try done.
  { rewrite hdr_blockmap_val. Z.div_mod_to_equations. lia. }
  layout. rewrite Eprog, Eblock.
  destruct (flashProgram_cases (bytes_at p) dpkt_payload (22784 + b * 256) 256 f1)
    as [(? & _)|[(_ & _ & ->)|[(_ & _ & Hx & _)|[(_ & Hx & _)|(_ & Hx & _)]]]];
    try lia; try done; try (unfold program_args, user_lo, user_hi in Hx; lia).
  by exists (set_dev f1 u).
Qed.
End Properties.

(** ** The packets of an image *)

Definition le_bytes (w : Z) : list Z := map (byte_of w) [0; 1; 2; 3].

(** [n] bytes of a memory. *)
Definition block_of (m : mem) (a : Z) (n : nat) : list Z := map (fun i => m (a + Z.of_nat i)) (seq 0 n).

(** A packet body followed by its hash. *)
Definition with_hash (body : list Z) : list Z :=
  body ++ le_bytes (MurmurHash3_x86_32 (bytes_at body) 0 (Z.of_nat (length body)) MURMUR_SEED_BLOCK).

Definition ctrl_packet (im : image) : list Z :=
  with_hash ([1; 1; 0; 0] ++ le_bytes (im_len im) ++ le_bytes (im_hash im)
             ++ block_of (im_guid im) 0 16).

Definition data_packet (im : image) (b : Z) : list Z :=
  with_hash ([1; 2; byte_of b 0; byte_of b 1] ++ block_of (im_bytes im) (256 * b) 256).

Lemma bytes_at_app_l l1 l2 k : 0 <= k < Z.of_nat (length l1) -> bytes_at (l1 ++ l2) k = bytes_at l1 k.
Proof. intros H. unfold bytes_at. apply app_nth1. lia. Qed.

Lemma bytes_at_app_r l1 l2 a k :
  a = Z.of_nat (length l1) -> 0 <= k -> bytes_at (l1 ++ l2) (a + k) = bytes_at l2 k.
Proof.
  intros -> H. unfold bytes_at. rewrite app_nth2 by lia. f_equal. lia.
Qed.

Lemma block_of_length m a n : length (block_of m a n) = n.
Proof. unfold block_of. by rewrite length_map, length_seq. Qed.

Lemma block_of_at m a n k : 0 <= k < Z.of_nat n -> bytes_at (block_of m a n) k = m (a + k).
Proof.
  intros Hk. unfold bytes_at, block_of.
  rewrite nth_indep with (d' := m (a + Z.of_nat 0)) by (rewrite length_map, length_seq; lia).
  rewrite (map_nth (fun i => m (a + Z.of_nat i))), seq_nth by lia. f_equal. lia.
Qed.

Lemma le_bytes_get32 w : is_u32 w -> get32 (bytes_at (le_bytes w)) 0 = w.
Proof. apply word_of_bytes. Qed.

Lemma le_bytes_byte w : Forall (fun b => is_u8 b) (le_bytes w).
Proof. repeat constructor; apply u8_range. Qed.

Lemma block_of_byte m a n : byte_mem m -> Forall (fun b => is_u8 b) (block_of m a n).
Proof.
  intros Hm. unfold block_of. apply List.Forall_forall. intros x Hx.
  apply in_map_iff in Hx as (i & <- & _). apply Hm.
Qed.

Lemma get32_app_r l1 l2 a : a = Z.of_nat (length l1) ->
  get32 (bytes_at (l1 ++ l2)) a = get32 (bytes_at l2) 0.
Proof.
  intros Ha. apply (get32_copy (bytes_at l2) _ 0); [|done]. intros k Hk. rewrite Z.add_0_l.
  apply bytes_at_app_r; [done|lia].
Qed.

(** The hash field of a packet is the hash of what precedes it. *)
Lemma with_hash_ok body n :
  Z.of_nat (length body) = n ->
  MurmurHash3_x86_32 (bytes_at (with_hash body)) 0 n MURMUR_SEED_BLOCK
  = get32 (bytes_at (with_hash body)) n.
Proof.
  intros <-. unfold with_hash. rewrite get32_app_r by done. rewrite le_bytes_get32.
  - apply MurmurHash3_ext; [lia|]. intros k Hk. rewrite Z.add_0_l. by apply bytes_at_app_l.
  - unfold MurmurHash3_x86_32. apply fmix32_u32, lxor_u32; [|auto].
    apply murmur_tail_u32, murmur_body_u32. unfold MURMUR_SEED_BLOCK. lia.
Qed.

Lemma im_hash_u32 im : is_u32 (im_hash im).
Proof.
  unfold im_hash, MurmurHash3_x86_32. apply fmix32_u32, lxor_u32; [|auto].
  apply murmur_tail_u32, murmur_body_u32. unfold MURMUR_SEED_TOTAL. lia.
Qed.

Lemma ctrl_packet_ok im : wf_image im -> is_ctrl im (ctrl_packet im).
Proof.
  intros Hw. destruct (im_blocks_range im Hw) as (_ & _ & Hl). pose proof (im_hash_u32 im) as Hh.
  assert (Hword : forall l1 w l2 a, a = Z.of_nat (length l1) -> is_u32 w ->
    get32 (bytes_at (l1 ++ le_bytes w ++ l2)) a = w).
  { intros l1 w l2 a Ha Hw32. rewrite get32_app_r by done.
    rewrite <- (le_bytes_get32 w Hw32) at 2. apply get32_ext. intros k Hk.
    apply bytes_at_app_l. simpl. lia. }
  unfold ctrl_packet. split.
  - apply bytes_at_byte_mem. unfold with_hash.
    rewrite !Forall_app. split_and!; auto using le_bytes_byte, block_of_byte, wf_guid.
    repeat constructor; lia.
  - done.
  - unfold cpkt_length, with_hash. rewrite <- !app_assoc. by apply (Hword [1; 1; 0; 0]).
  - unfold cpkt_fullhash, with_hash. rewrite <- !app_assoc, (app_assoc [1; 1; 0; 0]).
    by apply Hword.
  - intros k Hk. unfold with_hash. rewrite (app_assoc (le_bytes (im_len im))).
    rewrite (app_assoc [1; 1; 0; 0]).
    rewrite bytes_at_app_l by (rewrite length_app, block_of_length; simpl; lia).
    rewrite bytes_at_app_r by (done || lia). by rewrite block_of_at by lia.
  - apply with_hash_ok. rewrite !length_app, block_of_length. done.
Qed.

Lemma data_packet_ok im b : wf_image im -> is_u16 b -> is_data im b (data_packet im b).
Proof.
  intros Hw Hb. unfold data_packet. split.
  - apply bytes_at_byte_mem. unfold with_hash.
    rewrite !Forall_app. split_and!; auto using le_bytes_byte, block_of_byte, wf_bytes.
    repeat constructor; (lia || apply u8_range).
  - done.
  - change (dpkt_block _) with (byte_of b 0 + 256 * byte_of b 1). rewrite !byte_of_div by lia.
    change (2 ^ (8 * 0)) with 1. change (2 ^ (8 * 1)) with 256. Z.div_mod_to_equations. lia.
  - intros k Hk. unfold with_hash.
    rewrite bytes_at_app_l by (rewrite length_app, block_of_length; simpl; lia).
    rewrite bytes_at_app_r by (done || lia). by apply block_of_at.
  - apply with_hash_ok. rewrite !length_app, block_of_length. done.
Qed.

(** ** Witnesses: a program of 300 bytes, sent to an erased device *)

Definition sample_program : mem :=
  put32 (put32 (fun i => i mod 251) 24 APP_MAGIC) 28 APP_VERSION.

Definition sample_image : image :=
  {| im_bytes := sample_program; im_len := 300; im_guid := fun k => u8 k |}.

Lemma sample_image_wf : wf_image sample_image /\ im_valid sample_image.
Proof.
  split; [split|split; reflexivity].
  - apply put32_byte_mem, put32_byte_mem. intros a. pose proof (Z.mod_pos_bound a 251). lia.
  - intros a. apply u8_range.
  - simpl. lia.
Qed.

Lemma sample_ctrl_ok : is_ctrl sample_image (ctrl_packet sample_image).
Proof. apply ctrl_packet_ok, sample_image_wf. Qed.
Lemma sample_data_ok b : is_u16 b -> is_data sample_image b (data_packet sample_image b).
Proof. apply data_packet_ok, sample_image_wf. Qed.

(** Block 1 twice, a power cycle, then block 0. *)
Definition sample_session : list session_event :=
  [Receive (data_packet sample_image 1); Receive (data_packet sample_image 1); PowerCycle;
   Receive (ctrl_packet sample_image); Receive (data_packet sample_image 0)].

Lemma sample_transfer : transfer sample_image sample_session [1; 1; 0].
Proof.
  assert (H : forall b, 0 <= b < 2 -> 0 <= b < im_blocks sample_image /\
    is_data sample_image b (data_packet sample_image b)).
  { intros b Hb. change (im_blocks sample_image) with 2. split; [done|]. apply sample_data_ok. lia. }
  apply receives_data; [apply H; lia|]. apply receives_data; [apply H; lia|].
  apply receives_resume; [apply sample_ctrl_ok|].
  apply receives_data; [apply H; lia|]. apply receives_nil.
Qed.

Lemma blank_bytes : byte_mem (fx_mem blank_device).
Proof. intros a. simpl. lia. Qed.

Lemma sample_new_guid :
  exists k, 0 <= k < 16 /\ fx_mem (dev (power_on blank_device)) (hdr_guid + k) <> im_guid sample_image k.
Proof. exists 0. split; [lia|discriminate]. Qed.

Lemma session_refines_witness :
  exists u', @session healthy (Receive (ctrl_packet sample_image) :: sample_session) mac_init
               (power_on blank_device) = Booted u' /\ installed sample_image (dev u').
Proof.
  destruct (session_refines (C := healthy) sample_image (ctrl_packet sample_image) sample_session
              [1; 1; 0] mac_init (power_on blank_device)) as [H _];
    [apply sample_image_wf|apply sample_image_wf|reflexivity|apply blank_bytes|reflexivity
    |apply sample_ctrl_ok|apply sample_new_guid|apply sample_transfer|].
  apply H. intros i Hi. change (im_blocks sample_image) with 2 in Hi.
  cbn [list_to_set foldr]. assert (i = 0 \/ i = 1) as [-> | ->] by lia; set_solver.
Defined.


(** The last data packet of an image of one block. *)
Lemma updater_boot_safe_witness :
  exists m u u', @updaterPacketProcess healthy m u = Booted u' /\ astate u = APP_UPDATING /\
    appIsValid (fx_mem (dev u')) = true.
Proof.
  set (im := {| im_bytes := sample_program; im_len := 32; im_guid := fun k => u8 k |}).
  assert (Hw : wf_image im) by (split; [apply sample_image_wf|apply sample_image_wf|simpl; lia]).
  set (m1 := set_pkt (ctrl_packet im) mac_init). set (m2 := set_pkt (data_packet im 0) mac_init).
  destruct (process_new (C := healthy) im m1 (power_on blank_device) Hw) as (e1 & u1 & _ & H1 & A1);
    [reflexivity|apply blank_bytes|reflexivity|by apply ctrl_packet_ok|apply sample_new_guid|].
  destruct (process_data (C := healthy) im ∅ 0 m2 u1 Hw H1 A1) as (e2 & u2 & E2 & H2 & _);
    [by apply data_packet_ok|done|].
  destruct (check_complete_done (C := healthy) im _ e2 m2 u2 Hw H2) as (u3 & _ & [[_ E3]|[Hn _]]).
  { intros i Hi. change (im_blocks im) with 1 in Hi. assert (i = 0) as -> by lia. set_solver. }
  2: { destruct Hn. split; reflexivity. }
  exists m2, u1, u3. rewrite E3 in E2. split; [exact E2|]. split; [exact A1|].
  refine (proj1 (updater_boot_safe (C := healthy) m2 u1 u3 (ho_ready _ _ _ H1) _ E2)).
  apply (dt_bytes im 0). by apply data_packet_ok.
Defined.

Lemma updater_ignores_bad_packets_witness :
  exists m' u', @updaterPacketProcess healthy mac_init (power_on blank_device) = Returned 0 m' u' /\
    pktReady m' = 0 /\ dev u' = dev (power_on blank_device) /\
    astate u' = astate (power_on blank_device).
Proof.
  apply updater_ignores_bad_packets. left. split; [reflexivity|]. left. discriminate.
Defined.

(** A storage header for one block that is marked, over an erased program. *)
Definition torn_device (length : Z) : ftfx :=
  Ftfx (put32 (put32 (put32 (put32 (fun _ => 0xFF) hdr_magic STORAGE_MAGIC) hdr_fullhash 1)
          hdr_length length) (hdr_blockmap 0) 0) FTFx_FSTAT_CCIF 0 0 0.

Definition torn_updater (length : Z) : updater := Updater APP_UPDATING false false false (torn_device length).

Lemma torn_repeated length :
  repeated_block (set_pkt (data_packet sample_image 0) mac_init) (torn_updater length).
Proof.
  pose proof (sample_data_ok 0 ltac:(lia)) as Hd. unfold repeated_block, torn_updater.
  cbn [astate dev pkt set_pkt]. rewrite (dt_block _ _ _ Hd).
  split; [reflexivity|]. split; [vm_compute; reflexivity|].
  split; [exact (dt_type _ _ _ Hd)|]. split; [exact (dt_hash _ _ _ Hd)|].
  split; [lia|vm_compute; discriminate].
Qed.

Lemma updater_rejects_corrupt_program_witness :
  exists m' u', @updaterPacketProcess healthy (set_pkt (data_packet sample_image 0) mac_init)
                  (torn_updater 20) = Returned F_ERR_OK m' u' /\ astate u' = APP_FAIL.
Proof.
  destruct (updater_rejects_corrupt_program (C := healthy)
              (set_pkt (data_packet sample_image 0) mac_init) (torn_updater 20) 20)
    as (m' & u' & H1 & H2 & _); [reflexivity|apply torn_repeated|vm_compute; reflexivity|lia| |
    vm_compute; discriminate|].
  - intros i Hi. change (block_count 20) with 1 in Hi. assert (i = 0) as -> by lia.
    vm_compute. discriminate.
  - exists m', u'. split; [exact H1|exact H2].
Defined.

Lemma updater_length_unchecked_witness :
  @updaterPacketProcess healthy (set_pkt (data_packet sample_image 0) mac_init) (torn_updater 0)
  = OutOfFlash.
Proof.
  apply (updater_length_unchecked (C := healthy)); [apply torn_repeated|].
  left. vm_compute. reflexivity.
Defined.

Lemma block_index_unchecked_witness :
  exists u', @program_block healthy (data_packet sample_image 55) 55 (power_on blank_device)
             = (F_ERR_RANGE, u') /\ get32 (fx_mem (dev u')) (STORAGE_PROGRAM_OFFSET + 4 * (55 - 55)) = 0.
Proof.
  apply (block_index_unchecked (C := healthy)); [reflexivity|apply blank_bytes| |lia|reflexivity].
  apply sample_data_ok. lia.
Defined.
