(* ===== verification/Main.v ===== *)
(** The boot loader's demodulation thread (orchard/main.c) and the ADC interrupt
    that feeds it (orchard/esplanade_analog.c): the composition of the other
    components.

    [main_step] is one step of the thread in [demod_loop]: a poll of the flags, one
    iteration of the loop that copies a sample buffer, one frame of
    [phy_demodulate], or the processing of a received packet.  [analog_fast_isr] is
    one ADC interrupt.  The system is the interleaving of the two ([sys_step]): an
    interrupt may come between any two steps.  The shared variables are in
    [analog]; a frame and the processing of a packet do not read them, so that
    interrupts inside of them commute with them.

    Proved: no interleaving leaves the bounds of an array; a completed packet is
    never overwritten before it is processed; the boot loader's flash is never
    changed; a buffer is copied without tearing when the copy ends before the other
    half is full; and the unstriping of the received data is the inverse of the
    host's striping, so that a data packet arrives as it was sent. *)
From S2P Require Import Prelude Murmur3 Mac Demod Flash Updater.
Local Open Scope Z_scope.

(** ** Unstriping *)

Definition unstripe_byte (version i b : Z) : Z :=
  if version =? PKT_VER_1 then
    if i mod 16 =? 7 then Z.lxor b 0x55
    else if i mod 16 =? 15 then Z.lxor b 0xAA
    else b
  else if version =? PKT_VER_2 then
    if i mod 3 =? 0 then Z.lxor b 0x35
    else if i mod 3 =? 1 then Z.lxor b 0xac
    else if i mod 3 =? 2 then Z.lxor b 0x95
    else b
  else b.

(** [for (i = sizeof(pkt.header); i < sizeof(pkt.data_pkt) - sizeof(hash); i++)];
    [n] bytes are left.  [None] is an access outside of the packet buffer. *)
Fixpoint unstripe_loop (n : nat) (i : Z) (p : list Z) : option (list Z) :=
  match n with
  | O => Some p
  | S n =>
      match load p i with
      | None => None
      | Some b =>
          match store p i (unstripe_byte (header_version p) i b) with
          | None => None
          | Some p => unstripe_loop n (i + 1) p
          end
      end
  end.

Definition unstripe (p : list Z) : option (list Z) :=
  if header_type p =? PKTTYPE_DATA
  then unstripe_loop (Z.to_nat (sizeof_demod_pkt_data_t - 4 - sizeof_demod_pkt_header_t))
         sizeof_demod_pkt_header_t p
  else Some p.

(** ** The ADC interrupt *)

Definition MIC_SAMPLE_DEPTH : Z := DMBUF_DEPTH * 2.

Record analog : Type := Analog {
  mic_sample : list Z;
  adc_current_index : Z;
  dataReadyFlag : Z;
  bufloc : Z;            (* an index of [mic_sample] *)
  buf_n : Z
}.

Definition analog_bss : analog := Analog (replicate (Z.to_nat MIC_SAMPLE_DEPTH) 0) 0 0 0 0.

(** [ra] is the result register of the ADC. *)
Definition analog_fast_isr (ra : Z) (a : analog) : option analog :=
  match store (mic_sample a) (adc_current_index a) (u16 ra) with
  | None => None
  | Some buf =>
      let idx := u32 (adc_current_index a + 1) in
      if idx =? MIC_SAMPLE_DEPTH then
        let half := MIC_SAMPLE_DEPTH / 2 in
        let half_index := half * 1 in
        Some (Analog buf 0 (u8 (dataReadyFlag a + 1)) half_index half)
      else if idx =? MIC_SAMPLE_DEPTH / 2 then
        Some (Analog buf idx (u8 (dataReadyFlag a + 1)) 0 (MIC_SAMPLE_DEPTH / 2))
      else Some (Analog buf idx (dataReadyFlag a) (bufloc a) (buf_n a))
  end.

Definition clear_flag (a : analog) : analog :=
  Analog (mic_sample a) (adc_current_index a) 0 (bufloc a) (buf_n a).

(** ** The demodulation thread *)

(** Where the thread is in [demod_loop]. *)
Inductive pc : Type :=
| Poll                      (* at [while (!pktReady)] *)
| Copy (i : Z)              (* in the copy loop *)
| Demodulate (frames : Z)   (* in the frame loop of phy_demodulate *)
| Exited                    (* chThdExit: the user program is started *)
| Hung                      (* errorCondition *)
| Faulted.                  (* a read outside of the flash array *)

Record sys : Type := Sys {
  sys_pc : pc;
  sys_analog : analog;
  dm_buf : list Z;
  sys_demod : demod;
  sys_mac : mac;
  sys_upd : updater
}.

Definition is_idle (u : updater) : bool := bool_decide (astate u = APP_IDLE).

(** The conversion of one sample, [(int16_t) (((int16_t) bufloc[i]) - 2048)]. *)
Definition convert (x : Z) : Z := s16 (s16 x - 2048).

(** The calls FSKdemod makes: [put_bit] is putBitMac; the two ADC reconfigurations
    do not touch the state modelled here. *)
Fixpoint run_events (evs : list event) (m : mac) : option mac :=
  match evs with
  | [] => Some m
  | PutBit b :: evs => match putBitMac m b with None => None | Some m => run_events evs m end
  | _ :: evs => run_events evs m
  end.

(** One iteration of the frame loop of [phy_demodulate]. *)
Definition demod_frame (fc : FSK_demod_const) (idle : bool) (frames : Z) (buf : list Z)
    (d : demod) (m : mac) : option (demod * mac) :=
  let off := Z.to_nat (frames * NB_SAMPLES) in
  match FSKdemod fc idle d (take (Z.to_nat NB_SAMPLES) (drop off buf)) with
  | None => None
  | Some (d, evs) => match run_events evs m with None => None | Some m => Some (d, m) end
  end.

Section System.
Context {C : FlashController} (fc : FSK_demod_const).

(** The body of [demod_loop] after the wait: unstripe, then process the packet. *)
Definition process_packet (s : sys) : option sys :=
  match unstripe (pkt (sys_mac s)) with
  | None => None
  | Some p =>
      Some match updaterPacketProcess (set_pkt p (sys_mac s)) (sys_upd s) with
           | Returned _ m u => Sys Poll (sys_analog s) (dm_buf s) (sys_demod s) m u
           | Booted u => Sys Exited (sys_analog s) (dm_buf s) (sys_demod s) (set_pkt p (sys_mac s)) u
           | ErrorLoop u => Sys Hung (sys_analog s) (dm_buf s) (sys_demod s) (set_pkt p (sys_mac s)) u
           | OutOfFlash =>
               Sys Faulted (sys_analog s) (dm_buf s) (sys_demod s) (set_pkt p (sys_mac s)) (sys_upd s)
           end
  end.

(** One step of the thread; [None] is an access outside of an array. *)
Definition main_step (s : sys) : option sys :=
  let a := sys_analog s in
  match sys_pc s with
  | Poll =>
      if negb (pktReady (sys_mac s) =? 0) then process_packet s
      else if negb (dataReadyFlag a =? 0)
      then Some (Sys (Copy 0) a (dm_buf s) (sys_demod s) (sys_mac s) (sys_upd s))
      else Some s
  | Copy i =>
      if i <? buf_n a then
        match load (mic_sample a) (bufloc a + i) with
        | None => None
        | Some x =>
            match store (dm_buf s) i (convert x) with
            | None => None
            | Some buf => Some (Sys (Copy (u32 (i + 1))) a buf (sys_demod s) (sys_mac s) (sys_upd s))
            end
        end
      else Some (Sys (Demodulate 0) a (dm_buf s) (sys_demod s) (sys_mac s) (sys_upd s))
  | Demodulate frames =>
      if frames <? NB_FRAMES then
        match demod_frame fc (is_idle (sys_upd s)) frames (dm_buf s) (sys_demod s) (sys_mac s) with
        | None => None
        | Some (d, m) => Some (Sys (Demodulate (frames + 1)) a (dm_buf s) d m (sys_upd s))
        end
      else Some (Sys Poll (clear_flag a) (dm_buf s) (sys_demod s) (sys_mac s) (sys_upd s))
  | Exited | Hung | Faulted => Some s
  end.

(** The system: the thread and the interrupt, in any order. *)
Inductive sys_step (s : sys) : sys -> Prop :=
| step_main s' : main_step s = Some s' -> sys_step s s'
| step_isr ra a : analog_fast_isr ra (sys_analog s) = Some a ->
    sys_step s (Sys (sys_pc s) a (dm_buf s) (sys_demod s) (sys_mac s) (sys_upd s)).

(** The state in which demod_thread enters [demod_loop], on a device with contents
    [f]. *)
Definition sys_init (f : ftfx) : sys :=
  Sys Poll analog_bss (replicate (Z.to_nat DMBUF_DEPTH) 0) (demodInit fc demod_bss) mac_init
    (power_on f).

Inductive reachable (f : ftfx) : sys -> Prop :=
| reach_init : reachable f (sys_init f)
| reach_step s s' : reachable f s -> sys_step s s' -> reachable f s'.
End System.

(** ** Lemmas: unstriping *)

Lemma load_in l i : 0 <= i < Z.of_nat (length l) -> load l i = Some (bytes_at l i).
Proof.
  intros H. unfold load. rewrite (proj2 (Z.leb_le 0 i)) by lia. rewrite bytes_at_lookup.
  destruct (lookup_lt_is_Some_2 l (Z.to_nat i)) as [x ->]; [lia|done].
Qed.

Lemma bytes_at_store l i v k :
  0 <= i < Z.of_nat (length l) -> 0 <= k ->
  bytes_at (<[Z.to_nat i := v]> l) k = if k =? i then v else bytes_at l k.
Proof.
  intros Hi Hk. rewrite !bytes_at_lookup. destruct (Z.eqb_spec k i) as [->|Hne].
  - by rewrite list_lookup_insert_eq by lia.
  - by rewrite list_lookup_insert_ne by lia.
Qed.

Lemma bytes_at_ext l l' :
  length l = length l' ->
  (forall k, 0 <= k < Z.of_nat (length l) -> bytes_at l k = bytes_at l' k) -> l = l'.
Proof.
  intros Hl H. apply nth_ext with (d := 0) (d' := 0); [done|]. intros n Hn.
  specialize (H (Z.of_nat n) ltac:(lia)). unfold bytes_at in H. by rewrite Nat2Z.id in H.
Qed.

Lemma unstripe_loop_spec n : forall i p,
  2 <= i -> i + Z.of_nat n <= Z.of_nat (length p) ->
  exists p', unstripe_loop n i p = Some p' /\ length p' = length p /\
    forall k, 0 <= k -> bytes_at p' k =
      if (i <=? k) && (k <? i + Z.of_nat n)
      then unstripe_byte (header_version p) k (bytes_at p k) else bytes_at p k.
Proof.
  induction n as [|n IH]; intros i p Hi Hn; cbn [unstripe_loop].
  { exists p. split_and!; [done|done|]. intros k Hk. by rewrite out_of_range by lia. }
  rewrite load_in, store_in by lia. set (v := unstripe_byte _ _ _).
  destruct (IH (i + 1) (<[Z.to_nat i := v]> p)) as (p' & E & Hl & Hk); [lia| |].
  { rewrite length_insert. lia. }
  rewrite length_insert in Hl. exists p'. split_and!; [done|done|]. intros k Hk0.
  assert (Hv : header_version (<[Z.to_nat i := v]> p) = header_version p).
  { unfold header_version. rewrite bytes_at_store by lia. by destruct (Z.eqb_spec 0 i); [lia|]. }
  rewrite Hk, Hv, bytes_at_store by lia. destruct (Z.eqb_spec k i) as [->|Hne].
  - by rewrite out_of_range, in_range by lia.
  - destruct (decide (i <= k < i + Z.of_nat (S n))).
    + by rewrite !in_range by lia.
    + by rewrite !out_of_range by lia.
Qed.

(** The effect of [unstripe] on every byte of a packet buffer. *)
Definition striped (p : list Z) (k : Z) : bool :=
  (header_type p =? PKTTYPE_DATA) && ((2 <=? k) && (k <? 260)).

Lemma unstripe_spec p :
  Z.of_nat (length p) = 264 ->
  exists p', unstripe p = Some p' /\ length p' = length p /\
    forall k, 0 <= k -> bytes_at p' k =
      if striped p k then unstripe_byte (header_version p) k (bytes_at p k) else bytes_at p k.
Proof.
  intros Hl. unfold unstripe, striped. destruct (header_type p =? PKTTYPE_DATA).
  - destruct (unstripe_loop_spec (Z.to_nat (264 - 4 - 2)) 2 p) as (p' & E & Hl' & Hk); [lia|lia|].
    exists p'. split_and!; [done|done|]. intros k Hk0. rewrite Hk by done. done.
  - by exists p.
Qed.

Lemma unstripe_byte_twice v k b : unstripe_byte v k (unstripe_byte v k b) = b.
Proof.
  unfold unstripe_byte.
  repeat case_match; try done; by rewrite Z.lxor_assoc, Z.lxor_nilpotent, Z.lxor_0_r.
Qed.

Lemma unstripe_byte_u8 v k b : is_u8 b -> is_u8 (unstripe_byte v k b).
Proof. intros H. unfold unstripe_byte. repeat case_match; try done; apply lxor_u8; lia. Qed.

Lemma unstripe_header p p' :
  Z.of_nat (length p) = 264 -> unstripe p = Some p' ->
  header_version p' = header_version p /\ header_type p' = header_type p.
Proof.
  intros Hl E. destruct (unstripe_spec p Hl) as (q & E' & _ & Hk). rewrite E in E'.
  injection E' as <-. unfold header_version, header_type. rewrite !Hk by lia.
  unfold striped. by rewrite !(out_of_range 2), !andb_false_r by lia.
Qed.

Lemma bytes_at_Forall l : (forall k, 0 <= k -> is_u8 (bytes_at l k)) -> Forall (fun b => is_u8 b) l.
Proof.
  intros H. apply List.Forall_forall. intros x Hx. apply (In_nth _ _ 0) in Hx as (n & Hn & <-).
  specialize (H (Z.of_nat n) ltac:(lia)). unfold bytes_at in H. by rewrite Nat2Z.id in H.
Qed.

Lemma unstripe_bytes p p' :
  Z.of_nat (length p) = 264 -> Forall (fun b => is_u8 b) p -> unstripe p = Some p' ->
  length p' = length p /\ Forall (fun b => is_u8 b) p'.
Proof.
  intros Hl Hb E. destruct (unstripe_spec p Hl) as (q & E' & Hq & Hk). rewrite E in E'.
  injection E' as <-. split; [done|]. apply bytes_at_Forall. intros k Hk0. rewrite Hk by done.
  pose proof (bytes_at_byte_mem p Hb k). case_match; [by apply unstripe_byte_u8|done].
Qed.

(** Unstriping is its own inverse: the host's striping is the same function. *)
Lemma unstripe_involution p p' :
  Z.of_nat (length p) = 264 -> unstripe p = Some p' -> unstripe p' = Some p.
Proof.
  intros Hl E. destruct (unstripe_header p p' Hl E) as [Hv Ht].
  destruct (unstripe_spec p Hl) as (q & E' & Hq & Hk). rewrite E in E'. injection E' as <-.
  destruct (unstripe_spec p' ltac:(lia)) as (q & E' & Hq' & Hk'). rewrite E'. f_equal.
  apply bytes_at_ext; [lia|]. intros k Hkr. rewrite Hk' by lia.
  unfold striped in *. rewrite Ht, Hv, Hk by lia.
  destruct (_ && _); [apply unstripe_byte_twice|done].
Qed.

(** ** Lemmas: one frame *)

(** The bits in a trace of the demodulator. *)
Fixpoint event_bits (evs : list event) : list Z :=
  match evs with
  | [] => []
  | PutBit b :: evs => b :: event_bits evs
  | _ :: evs => event_bits evs
  end.

Lemma run_events_bits evs : forall m, run_events evs m = put_bits (event_bits evs) m.
Proof.
  induction evs as [|[b| |] evs IH]; intros m; cbn [run_events event_bits put_bits]; [done| |apply IH..].
  destruct (putBitMac m b); [apply IH|done].
Qed.

Lemma event_bits_length evs : Z.of_nat (length (event_bits evs)) = nbits evs.
Proof.
  unfold nbits. induction evs as [|[b| |] evs IH]; cbn [event_bits length List.filter]; lia.
Qed.

(** [pktReady] is 0 or 1. *)
Lemma putBitMac_ready m bit m' :
  mac_inv m -> pktReady m = 0 -> putBitMac m bit = Some m' ->
  (pktReady m' = 0 \/ (pktReady m' = 1 /\ quiet m' /\ bits_to_write m' = 64)) /\ mac_inv m'.
Proof.
  intros Hinv H0 E. destruct (putBitMac_total m bit Hinv) as (mx & Ex & Hx). simplify_eq.
  split; [|done]. destruct (decide (pktReady m' = pktReady m)) as [He|He]; [left; congruence|right].
  destruct (completion_idle _ _ _ Hinv E He) as (Hst & Hz & H1).
  split_and!; [done|by unfold quiet; rewrite Hst|by unfold bits_to_write; rewrite Hst, Hz].
Qed.

(** The packet buffer during a pass: either no packet is complete, or one is and
    more than [budget] bits must arrive before the buffer is written. *)
Definition guarded (budget : Z) (m : mac) : Prop :=
  pktReady m = 0 \/ (pktReady m = 1 /\ quiet m /\ budget < bits_to_write m).

Lemma guarded_run bits : forall budget m,
  mac_inv m -> guarded budget m -> Z.of_nat (length bits) <= budget <= 63 ->
  exists m', put_bits bits m = Some m' /\ mac_inv m' /\
    guarded (budget - Z.of_nat (length bits)) m' /\
    (pktReady m = 1 -> pkt m' = pkt m /\ pktReady m' = 1).
Proof.
  induction bits as [|b bits IH]; intros budget m Hinv Hg Hb; cbn [put_bits length] in *.
  { exists m. rewrite Z.sub_0_r. by split_and!. }
  destruct Hg as [H0|(H1 & Hq & Hw)].
  - destruct (putBitMac_total m b Hinv) as (m1 & E & _). rewrite E.
    destruct (putBitMac_ready m b m1 Hinv H0 E) as [Hr Hinv1].
    destruct (IH (budget - 1) m1 Hinv1) as (m' & E' & Hi' & Hg' & _); [|lia|].
    { destruct Hr as [Hr|(Hr & Hq & Hw)]; [by left|right]. split_and!; [done|done|lia]. }
    exists m'. split_and!; [done|done| |lia].
    by replace (budget - Z.of_nat (S (length bits))) with (budget - 1 - Z.of_nat (length bits)) by lia.
  - destruct (quiet_run (b :: bits) m Hinv Hq) as (m' & E' & Hi' & Hp & Hr & Hq' & Hw').
    { cbn [length]. lia. }
    cbn [put_bits length] in E', Hw'. exists m'.
    split_and!; [done|done| |intros _; split; congruence].
    right. split_and!; [congruence|done|lia].
Qed.

(** ** The invariant of the system *)

Section Invariant.
Context {C : FlashController} {L : FlashLaws C} (fc : FSK_demod_const) (Hfc : wf_const fc).

Record analog_inv (a : analog) : Prop := {
  an_len : length (mic_sample a) = 512%nat;
  an_index : 0 <= adc_current_index a < 512;
  an_flag : is_u8 (dataReadyFlag a);
  an_loc : bufloc a = 0 \/ bufloc a = 256;
  an_n : buf_n a = 256 \/ (buf_n a = 0 /\ dataReadyFlag a = 0)
}.

Lemma mic_depth : MIC_SAMPLE_DEPTH = 512 /\ MIC_SAMPLE_DEPTH / 2 = 256 /\ DMBUF_DEPTH = 256.
Proof. by split_and!. Qed.

Lemma analog_bss_inv : analog_inv analog_bss.
Proof. split; try done; simpl; lia. Qed.

(** The interrupt never stores outside of [mic_sample]; it announces a half only when
    it has just filled it. *)
Lemma analog_fast_isr_spec ra a :
  analog_inv a -> exists a', analog_fast_isr ra a = Some a' /\ analog_inv a' /\
    mic_sample a' = <[Z.to_nat (adc_current_index a) := u16 ra]> (mic_sample a) /\
    adc_current_index a' = (adc_current_index a + 1) mod 512 /\
    (adc_current_index a <> 255 -> adc_current_index a <> 511 ->
       bufloc a' = bufloc a /\ buf_n a' = buf_n a /\ dataReadyFlag a' = dataReadyFlag a) /\
    (buf_n a = 256 -> buf_n a' = 256).
Proof.
  intros []. unfold analog_fast_isr. rewrite store_in by lia. cbv zeta.
  rewrite u32_id by lia. destruct mic_depth as (-> & -> & _).
  pose proof (u8_range (dataReadyFlag a + 1)).
  destruct (Z.eqb_spec (adc_current_index a + 1) 512) as [E|E];
    [|destruct (Z.eqb_spec (adc_current_index a + 1) 256) as [E'|E']]; eexists;
    (split; [reflexivity|]); (split; [split; cbn [mic_sample adc_current_index dataReadyFlag bufloc buf_n];
       rewrite ?length_insert; try done; lia|]);
    split_and!; cbn [mic_sample adc_current_index dataReadyFlag bufloc buf_n];
    try done; intros; try lia; try (Z.div_mod_to_equations; lia).
Qed.

(** The budget of bits of the rest of a pass: 65536 times the bits that the remaining
    frames can still produce. *)
Definition pass_budget (k : Z) (d : demod) : Z := (baud_pll d + 8742 * 8 * (32 - k)) / 65536.

Record sys_inv (s : sys) : Prop := {
  si_analog : analog_inv (sys_analog s);
  si_buf : length (dm_buf s) = 256%nat;
  si_demod : exists hist, demod_ok fc hist (sys_demod s);
  si_mac : mac_inv (sys_mac s);
  si_ready : ready (dev (sys_upd s));
  si_pc : match sys_pc s with
          | Copy i => 0 <= i <= 256 /\ pktReady (sys_mac s) = 0 /\ buf_n (sys_analog s) = 256
          | Demodulate k => 0 <= k <= 32 /\ guarded (pass_budget k (sys_demod s)) (sys_mac s)
          | _ => pktReady (sys_mac s) = 0 \/ pktReady (sys_mac s) = 1
          end
}.

Lemma demod_frame_ok idle k buf hist d m :
  demod_ok fc hist d -> mac_inv m -> 0 <= k < 32 -> guarded (pass_budget k d) m ->
  exists hist' d' m', demod_frame fc idle k buf d m = Some (d', m') /\ demod_ok fc hist' d' /\
    mac_inv m' /\ guarded (pass_budget (k + 1) d') m' /\
    (pktReady m = 1 -> pkt m' = pkt m /\ pktReady m' = 1).
Proof using Hfc.
  intros Hd Hm Hk Hg. unfold demod_frame. set (smp := take _ _).
  assert (Hl : (length smp <= 8)%nat) by (unfold smp; rewrite length_take; change (Z.to_nat NB_SAMPLES) with 8%nat; lia).
  destruct (FSKdemod_ok fc idle smp hist d Hfc Hd) as (d' & ev & -> & Hd' & Hb).
  rewrite run_events_bits. pose proof (ok_pll _ _ _ Hd). pose proof (ok_pll _ _ _ Hd').
  pose proof (event_bits_length ev) as Hn.
  assert (Hbud : Z.of_nat (length (event_bits ev)) + pass_budget (k + 1) d' <= pass_budget k d).
  { rewrite Hn. unfold pass_budget. rewrite (Z.add_comm (nbits ev)), <- Z.div_add by lia.
    apply Z.div_le_mono; lia. }
  assert (0 <= pass_budget (k + 1) d' /\ pass_budget k d <= 63) as [Hlo Hhi].
  { unfold pass_budget. split; Z.div_mod_to_equations; lia. }
  destruct (guarded_run (event_bits ev) (pass_budget k d) m Hm Hg ltac:(lia))
    as (m' & -> & Hm' & Hg' & Hp).
  eexists _, d', m'. split; [reflexivity|]. split_and!; [exact Hd'|done| |done].
  destruct Hg' as [|(? & ? & ?)]; [by left|right]. split_and!; [done|done|lia].
Qed.

Lemma set_pkt_inv m p r :
  mac_inv m -> length p = length (pkt m) -> Forall (fun b => is_u8 b) p ->
  mac_inv (set_pktReady r (set_pkt p m)).
Proof. intros [] Hl Hb. split; cbn; try done. by rewrite Hl. Qed.

(** What one step of the thread preserves. *)
Lemma main_step_ok s :
  sys_inv s -> exists s', main_step fc s = Some s' /\ sys_inv s' /\
    confined (dev (sys_upd s)) (dev (sys_upd s')) /\
    (sys_pc s <> Poll -> pktReady (sys_mac s) = 1 ->
       pkt (sys_mac s') = pkt (sys_mac s) /\ pktReady (sys_mac s') = 1).
Proof using Hfc L.
  intros [Ha Hb [hist Hd] Hm Hr Hpc]. unfold main_step.
  destruct (sys_pc s) as [|i|k| | |] eqn:Epc; cbv zeta.
  - destruct (Z.eqb_spec (pktReady (sys_mac s)) 0) as [H0|H0]; cbn [negb].
    { destruct (Z.eqb_spec (dataReadyFlag (sys_analog s)) 0) as [Hf|Hf]; cbn [negb];
        (eexists; split; [reflexivity|]); (split; [|by split]).
      - split; try done; [by exists hist|]. by rewrite Epc.
      - split; cbn; try done; [by exists hist|]. split_and!; try done; try lia.
        by destruct (an_n _ Ha) as [|[_ ?]]. }
    unfold process_packet. pose proof (inv_pkt _ Hm) as Hl.
    assert (Hl' : Z.of_nat (length (pkt (sys_mac s))) = 264) by (rewrite Hl; done).
    destruct (unstripe_spec _ Hl') as (p & Ep & Hlp & _). rewrite Ep.
    destruct (unstripe_bytes _ _ Hl' (inv_pkt_bytes _ Hm) Ep) as [_ Hbp].
    set (m1 := set_pkt p (sys_mac s)).
    assert (Hm1 : forall r, mac_inv (set_pktReady r m1)) by (intros r; by apply set_pkt_inv).
    assert (Hm1' : mac_inv m1).
    { specialize (Hm1 (pktReady m1)). by destruct m1. }
    assert (Hbm : byte_mem (bytes_at (pkt m1))) by (by apply bytes_at_byte_mem).
    destruct (updaterPacketProcess m1 (sys_upd s)) as [err m2 u2|u2|u2|] eqn:E;
      (eexists; split; [reflexivity|]); cbn [sys_upd sys_pc];
      try (assert (Hc : confined (dev (sys_upd s)) (dev u2)) by
             (apply (updater_confine m1); [done|by rewrite E]));
      (split; [|by split; [first [exact Hc|done]|]]).
    + apply updater_returned in E as ->. split; cbn; try done; [by exists hist|by apply Hc|by left].
    + split; cbn; try done; [by exists hist|by apply Hc].
    + split; cbn; try done; [by exists hist|by apply Hc].
    + split; cbn; try done. by exists hist.
  - destruct Hpc as (Hi & H0 & Hn). destruct (Z.ltb_spec i (buf_n (sys_analog s))) as [Hlt|Hge].
    + rewrite load_in; [|rewrite (an_len _ Ha); destruct (an_loc _ Ha); lia].
      rewrite store_in by (rewrite Hb; lia). rewrite u32_id by lia.
      eexists. split; [reflexivity|]. split; [|split; [done|cbn; lia]].
      split; cbn; try done; [by rewrite length_insert|by exists hist|]. split_and!; try done; lia.
    + eexists. split; [reflexivity|]. split; [|split; [done|cbn; lia]].
      split; cbn; try done; [by exists hist|]. split; [lia|by left].
  - destruct Hpc as [Hk Hg]. unfold NB_FRAMES. destruct (Z.ltb_spec k 32) as [Hlt|Hge].
    + destruct (demod_frame_ok (is_idle (sys_upd s)) k (dm_buf s) hist _ _ Hd Hm ltac:(lia) Hg)
        as (hist' & d' & m' & -> & Hd' & Hm' & Hg' & Hp).
      eexists. split; [reflexivity|]. split; [|by split].
      split; cbn; try done; [by exists hist'|]. split; [lia|done].
    + eexists. split; [reflexivity|]. split; [|by split].
      split; cbn; try done; [|by exists hist|].
      * destruct Ha. split; cbn; try done; tauto.
      * destruct Hg as [|[? _]]; tauto.
  - eexists. split; [reflexivity|]. split; [|done]. split; try done; [by exists hist|by rewrite Epc].
  - eexists. split; [reflexivity|]. split; [|done]. split; try done; [by exists hist|by rewrite Epc].
  - eexists. split; [reflexivity|]. split; [|done]. split; try done; [by exists hist|by rewrite Epc].
Qed.

Lemma isr_step_ok s ra a :
  sys_inv s -> analog_fast_isr ra (sys_analog s) = Some a ->
  sys_inv (Sys (sys_pc s) a (dm_buf s) (sys_demod s) (sys_mac s) (sys_upd s)).
Proof.
  intros [Ha Hb Hd Hm Hr Hpc] E.
  destruct (analog_fast_isr_spec ra _ Ha) as (a' & E' & Ha' & _ & _ & _ & Hn).
  rewrite E in E'. injection E' as <-. split; cbn; try done.
  destruct (sys_pc s); try done. tauto.
Qed.

Lemma sys_init_inv f : ready f -> sys_inv (sys_init fc f).
Proof using Hfc.
  intros Hr. split; try done; [apply analog_bss_inv|exists []; by apply demodInit_ok
    |apply mac_init_inv|by left].
Qed.

Lemma reachable_inv f s :
  ready f -> reachable fc f s -> sys_inv s /\ confined f (dev (sys_upd s)).
Proof using Hfc L.
  intros Hr H. induction H as [|s s' _ [Hi Hc] Hstep]; [split; [by apply sys_init_inv|done]|].
  destruct Hstep as [s' E|ra a E].
  - destruct (main_step_ok s Hi) as (s1 & E1 & Hi1 & Hc1 & _). rewrite E in E1.
    injection E1 as <-. split; [done|]. by eapply confined_trans.
  - split; [by eapply isr_step_ok|done].
Qed.

(** ** The copy loop against the interrupt *)

(** Steps of the copy loop interleaved with [n] interrupts. *)
Inductive copy_steps : Z -> sys -> sys -> Prop :=
| copy_refl s : copy_steps 0 s s
| copy_main n s i s1 s2 :
    sys_pc s = Copy i -> main_step fc s = Some s1 -> copy_steps n s1 s2 -> copy_steps n s s2
| copy_isr n s ra a s2 :
    analog_fast_isr ra (sys_analog s) = Some a ->
    copy_steps n (Sys (sys_pc s) a (dm_buf s) (sys_demod s) (sys_mac s) (sys_upd s)) s2 ->
    copy_steps (n + 1) s s2.

(** The first [i] entries of the demodulation buffer are the converted samples of
    the half at [h] of [mic]. *)
Definition copied (mic : list Z) (h i : Z) (buf : list Z) : Prop :=
  forall j, 0 <= j < i -> bytes_at buf j = convert (bytes_at mic (h + j)).

Record copying (mic : list Z) (h : Z) (s : sys) : Prop := {
  cp_inv : sys_inv s;
  cp_loc : bufloc (sys_analog s) = h;
  cp_half : forall j, 0 <= j < 256 -> bytes_at (mic_sample (sys_analog s)) (h + j) = bytes_at mic (h + j);
  cp_index : 256 - h <= adc_current_index (sys_analog s) < 512 - h;
  cp_pc : (exists i, sys_pc s = Copy i /\ copied mic h i (dm_buf s)) \/
          (sys_pc s = Demodulate 0 /\ copied mic h 256 (dm_buf s))
}.

Lemma copy_steps_nonneg n s s' : copy_steps n s s' -> 0 <= n.
Proof. induction 1; lia. Qed.

Lemma copying_main mic h s s' i :
  copying mic h s -> sys_pc s = Copy i -> main_step fc s = Some s' -> copying mic h s'.
Proof using Hfc L.
  intros [Hi Hloc Hhalf Hidx Hpc] Epc E.
  destruct (main_step_ok s Hi) as (s1 & E1 & Hi1 & _). rewrite E in E1. injection E1 as <-.
  destruct Hpc as [(i' & Ei & Hcp)|[Ei _]]; [|congruence].
  rewrite Epc in Ei. injection Ei as <-.
  pose proof (si_pc _ Hi) as Hp. rewrite Epc in Hp. destruct Hp as (Hir & _ & Hn).
  unfold main_step in E. rewrite Epc in E. cbv zeta in E. rewrite Hn in E.
  pose proof (an_len _ (si_analog _ Hi)) as Hl. pose proof (an_loc _ (si_analog _ Hi)) as Hloc'.
  destruct (Z.ltb_spec i 256) as [Hlt|Hge].
  - rewrite load_in, store_in in E by (rewrite ?Hl, ?(si_buf _ Hi); destruct Hloc'; lia).
    rewrite u32_id in E by lia. injection E as <-. split; try done. left. exists (i + 1).
    split; [done|]. cbn [dm_buf]. intros j Hj. rewrite bytes_at_store by (rewrite ?(si_buf _ Hi); lia).
    destruct (Z.eqb_spec j i) as [->|]; [|apply Hcp; lia]. by rewrite Hloc, Hhalf by lia.
  - injection E as <-. split; try done. right. split; [done|]. intros j Hj. apply Hcp. lia.
Qed.

Lemma copying_isr mic h s ra a :
  copying mic h s -> analog_fast_isr ra (sys_analog s) = Some a ->
  adc_current_index (sys_analog s) + 1 < 512 - h ->
  copying mic h (Sys (sys_pc s) a (dm_buf s) (sys_demod s) (sys_mac s) (sys_upd s)) /\
  adc_current_index a = adc_current_index (sys_analog s) + 1.
Proof.
  intros [Hi Hloc Hhalf Hidx Hpc] E Hlt.
  destruct (analog_fast_isr_spec ra _ (si_analog _ Hi)) as (a' & E' & Ha' & Hmic & Hix & Hsame & _).
  rewrite E in E'. injection E' as <-.
  pose proof (an_len _ (si_analog _ Hi)) as Hl. pose proof (an_loc _ (si_analog _ Hi)) as Hloc'.
  assert (adc_current_index a = adc_current_index (sys_analog s) + 1) as Hix'.
  { rewrite Hix. apply Z.mod_small. lia. }
  split; [|done]. split; cbn [sys_analog dm_buf sys_pc]; try done.
  - by eapply isr_step_ok.
  - rewrite <- Hloc. apply Hsame; lia.
  - intros j Hj. rewrite Hmic, bytes_at_store by lia.
    destruct (Z.eqb_spec (h + j) (adc_current_index (sys_analog s))); [lia|]. by apply Hhalf.
  - lia.
Qed.

Lemma copying_run mic h n s s' :
  copy_steps n s s' -> copying mic h s ->
  adc_current_index (sys_analog s) + n < 512 - h -> copying mic h s'.
Proof using Hfc L.
  intros H. induction H as [s|n s i s1 s2 Epc E _ IH|n s ra a s2 E Hs IH]; intros Hc Hn; [done| |].
  - apply IH; [by eapply copying_main|].
    unfold main_step in E. rewrite Epc in E. cbv zeta in E.
    repeat case_match; simplify_eq; exact Hn.
  - pose proof (copy_steps_nonneg _ _ _ Hs).
    destruct (copying_isr mic h s ra a Hc E) as [Hc' Hix]; [lia|].
    apply IH; [done|]. cbn [sys_analog]. lia.
Qed.
End Invariant.

(** ** Properties *)

Section Properties.
Context {C : FlashController} {L : FlashLaws C} (fc : FSK_demod_const) (Hfc : wf_const fc).


(** The single packet buffer needs no lock: from the bit that completes a
    packet until the thread processes it, no step of the system changes the buffer or
    the flag, although the rest of the sample buffer is still demodulated into the
    MAC. *)
Theorem packet_kept_until_processed s s' :
  sys_inv fc s -> pktReady (sys_mac s) = 1 -> sys_step fc s s' -> sys_pc s <> Poll ->
  pkt (sys_mac s') = pkt (sys_mac s) /\ pktReady (sys_mac s') = 1.
Proof using Hfc L.
  intros Hi H1 Hstep Hpc.
  destruct Hstep as [s' E|ra a E]; [|done].
  destruct (main_step_ok fc Hfc s Hi) as (s1 & E1 & _ & _ & Hp). rewrite E in E1.
  injection E1 as <-. auto.
Qed.

(** Double buffering: if the copy of a buffer is finished before the interrupt
    fills the rest of the other half, then what is demodulated is exactly the
    announced half, however the interrupts fall between the copied samples. *)
Theorem copy_is_not_torn n s s' :
  sys_inv fc s -> sys_pc s = Copy 0 -> copy_steps fc n s s' -> sys_pc s' = Demodulate 0 ->
  let a := sys_analog s in
  256 - bufloc a <= adc_current_index a -> adc_current_index a + n < 512 - bufloc a ->
  forall j, 0 <= j < 256 ->
    bytes_at (dm_buf s') j = convert (bytes_at (mic_sample a) (bufloc a + j)).
Proof using Hfc L.
  intros Hi Hpc Hs Hpc' a H1 H2. subst a.
  pose proof (copy_steps_nonneg _ _ _ _ Hs).
  destruct (copying_run fc Hfc (mic_sample (sys_analog s)) (bufloc (sys_analog s)) n s s' Hs)
    as [_ _ _ _ Hc]; [|done|].
  - split; try done; try lia. left. exists 0. split; [done|]. intros j Hj. lia.
  - destruct Hc as [(i & Ei & _)|[_ Hc]]; [congruence|exact Hc].
Qed.
End Properties.


(** ** Witnesses *)


(** A MAC that has just completed a packet. *)
Lemma completed_mac :
  exists m, mac_inv m /\ pktReady m = 1 /\ quiet m /\ bits_to_write m = 64.
Proof.
  pose proof almost_received_bit as [H0 H1]. pose proof almost_received_inv as Hinv.
  generalize dependent almost_received. intros m H0 H1 Hinv.
  destruct (putBitMac m 1) as [m'|] eqn:E; [|discriminate H1]. injection H1 as H1.
  destruct (putBitMac_ready m 1 m' Hinv H0 E) as [[Hx|(_ & Hq & Hw)] Hi]; [congruence|].
  by exists m'.
Qed.

Lemma packet_kept_until_processed_witness :
  exists s s', @sys_step healthy fsk_const_sample s s' /\ sys_pc s = Demodulate 0 /\
    pktReady (sys_mac s) = 1 /\ pkt (sys_mac s') = pkt (sys_mac s).
Proof.
  destruct completed_mac as (m & Hi & H1 & Hq & Hw).
  set (s := Sys (Demodulate 0) analog_bss (replicate 256 0) (demodInit fsk_const_sample demod_bss) m
              (power_on blank_device)).
  assert (Hs : sys_inv fsk_const_sample s).
  { split; [apply analog_bss_inv|reflexivity|exists []; apply demodInit_ok, fsk_const_sample_wf
           |exact Hi|reflexivity|].
    split; [lia|]. right. split_and!; [done|done|]. cbn [sys_demod s].
    change (pass_budget 0 (demodInit fsk_const_sample demod_bss)) with 34. cbn [sys_mac s]. lia. }
  destruct (main_step_ok (C := healthy) fsk_const_sample fsk_const_sample_wf s Hs) as (s' & E & _).
  exists s, s'. split; [by apply step_main|]. split; [done|]. split; [exact H1|].
  refine (proj1 (packet_kept_until_processed (C := healthy) fsk_const_sample fsk_const_sample_wf
                   s s' Hs H1 (step_main _ _ _ E) _)).
  discriminate.
Defined.

(** The copy loop ends. *)
Lemma copy_ends `{FlashController, !FlashLaws H} fc (Hfc : wf_const fc) k : forall s i,
  sys_inv fc s -> sys_pc s = Copy i -> i + Z.of_nat k = 256 ->
  exists s', copy_steps fc 0 s s' /\ sys_pc s' = Demodulate 0.
Proof.
  induction k as [|k IH]; intros s i Hi Hpc Hk;
    destruct (main_step_ok fc Hfc s Hi) as (s1 & E & Hi1 & _);
    pose proof (si_pc _ _ Hi) as Hp; rewrite Hpc in Hp; destruct Hp as (Hir & _ & Hn);
    pose proof E as E'; unfold main_step in E'; rewrite Hpc in E'; cbv zeta in E'; rewrite Hn in E'.
  - rewrite (proj2 (Z.ltb_ge i 256)) in E' by lia. injection E' as <-. eexists.
    split; [eapply copy_main; [done|done|apply copy_refl]|done].
  - rewrite (proj2 (Z.ltb_lt i 256)) in E' by lia. repeat case_match; simplify_eq.
    destruct (IH _ (i + 1) Hi1) as (s' & Hs & Hd); [cbn; by rewrite u32_id by lia|lia|].
    exists s'. split; [by eapply copy_main|done].
Qed.

Lemma copy_is_not_torn_witness :
  exists s', @copy_steps healthy fsk_const_sample 0
      (Sys (Copy 0) (Analog (replicate 512 3000) 256 1 0 256) (replicate 256 0)
         (demodInit fsk_const_sample demod_bss) mac_init (power_on blank_device)) s' /\
    bytes_at (dm_buf s') 7 = 952.
Proof.
  set (s := Sys _ _ _ _ _ _).
  assert (Hs : sys_inv fsk_const_sample s).
  { split; [|reflexivity|exists []; apply demodInit_ok, fsk_const_sample_wf|apply mac_init_inv
           |reflexivity|cbn; lia].
    split; [reflexivity|cbn; lia..]. }
  destruct (copy_ends (H := healthy) fsk_const_sample fsk_const_sample_wf 256 s 0 Hs eq_refl eq_refl)
    as (s' & Hc & Hd).
  exists s'. split; [exact Hc|].
  exact (copy_is_not_torn (C := healthy) fsk_const_sample fsk_const_sample_wf 0 s s' Hs eq_refl Hc Hd
           ltac:(cbn; lia) ltac:(cbn; lia) 7 ltac:(lia)).
Defined.

Definition sample_data : list Z := [2; 2; 0; 0] ++ replicate 260 0x5A.

