(* ===== verification/Random.v ===== *)
(** The pseudo-random numbers of the Arduino layer (orchard/arduino-math.c).

    The generator hashes its 64-bit state with MurmurHash3 and adds the hash to the
    state.  [long] and [unsigned long] are 32 bits wide on the target.  [None] is a
    division by zero.

    Proved: a draw that is accepted is mapped to the requested range, every value of
    the range by the same number of draws; the rejection loop ends after at most 101
    draws; and exactly which arguments divide by zero. *)
From S2P Require Import Prelude Murmur3.
Local Open Scope Z_scope.

Definition MAX_TRIES : nat := 100.
Definition RAND_MAX : Z := 2147483647.

(** [rand_val] is a [long long]. *)
Definition add_entropy (val rand_val : Z) : Z := s64 (rand_val + u32 val).

(** The eight bytes of [rand_val], little-endian. *)
Definition rand_bytes (rand_val : Z) : mem := fun k => u8 (Z.shiftr (u64 rand_val) (8 * k)).

Definition real_rand (rand_val : Z) : Z * Z :=
  let val := MurmurHash3_x86_32 (rand_bytes rand_val) 0 8 0 in
  (val, add_entropy val rand_val).

(** The [do ... while] loop; [tries_left] is [MAX_TRIES - tries]. *)
Fixpoint draw (tries_left : nat) (limit rand_val : Z) : Z * Z :=
  let '(val, rand_val) := real_rand rand_val in
  let x := s32 val in
  if limit <=? u32 x then
    match tries_left with
    | O => (x, rand_val)
    | S tries_left => draw tries_left limit rand_val
    end
  else (x, rand_val).

Definition num_rand : Z := u32 (RAND_MAX + 1).

Definition random_at_most (max rand_val : Z) : option (Z * Z) :=
  let num_bins := u32 (u32 max + 1) in
  if num_bins =? 0 then None
  else
    let bin_size := num_rand / num_bins in
    let defect := num_rand mod num_bins in
    let '(x, rand_val) := draw MAX_TRIES (u32 (num_rand - defect)) rand_val in
    if bin_size =? 0 then None else Some (s32 (u32 x / bin_size), rand_val).

Definition random (min max rand_val : Z) : option (Z * Z) :=
  let '(min, max) := if max <? min then (max, min) else (min, max) in
  match random_at_most (s32 (max - min)) rand_val with
  | None => None
  | Some (r, rand_val) =>
      let rand_val := add_entropy min rand_val in
      let rand_val := add_entropy max rand_val in
      Some (s32 (r + min), rand_val)
  end.

Definition randomSeed (seed : Z) : Z := s64 (u32 seed).

(** ** Lemmas *)

Abbreviation is_long z := (-2147483648 <= z < 2147483648).

Lemma real_rand_u32 rv : is_u32 (fst (real_rand rv)).
Proof.
  cbn [real_rand fst]. unfold MurmurHash3_x86_32. apply fmix32_u32, lxor_u32; [|auto].
  apply murmur_tail_u32, murmur_body_u32. lia.
Qed.

(** The loop always ends, with a [long]. *)
Lemma draw_long n : forall limit rv, is_long (fst (draw n limit rv)).
Proof.
  induction n as [|n IH]; intros limit rv; cbn [draw]; destruct (real_rand rv) as [val rv'];
    (destruct (limit <=? u32 (s32 val)); [|cbn [fst]; wrap_lia]); [cbn [fst]; wrap_lia|apply IH].
Qed.

(** A draw is accepted when it is below the limit. *)
Definition accepted (max rv : Z) : Prop :=
  u32 (fst (draw MAX_TRIES (num_rand - num_rand mod (max + 1)) rv)) < num_rand - num_rand mod (max + 1).

Lemma bins max : 0 <= max <= RAND_MAX ->
  let b := num_rand / (max + 1) in
  1 <= b /\ num_rand - num_rand mod (max + 1) = (max + 1) * b /\ (max + 1) * b <= num_rand.
Proof.
  unfold RAND_MAX. intros H. change num_rand with 2147483648. cbv zeta.
  assert (1 <= 2147483648 / (max + 1)) by (apply Z.div_le_lower_bound; lia).
  pose proof (Z.div_mod 2147483648 (max + 1)). pose proof (Z.mod_pos_bound 2147483648 (max + 1)). lia.
Qed.

(** What [random_at_most] returns for a range it supports. *)
Lemma random_at_most_eq max rv : 0 <= max <= RAND_MAX ->
  exists x rv', draw MAX_TRIES (num_rand - num_rand mod (max + 1)) rv = (x, rv') /\
    random_at_most max rv = Some (s32 (u32 x / (num_rand / (max + 1))), rv').
Proof.
  intros H. pose proof (bins max H) as (Hb & Hl & Hle). unfold RAND_MAX in H.
  assert (Hnr : num_rand = 2147483648) by reflexivity.
  unfold random_at_most. rewrite (u32_id max), (u32_id (max + 1)) by lia.
  destruct (Z.eqb_spec (max + 1) 0); [lia|]. cbv zeta.
  rewrite (u32_id (num_rand - _)) by (rewrite Hl; lia).
  destruct (draw _ _ rv) as [x rv']. destruct (Z.eqb_spec (num_rand / (max + 1)) 0); [lia|].
  by exists x, rv'.
Qed.

Lemma random_at_most_range max rv r rv' :
  0 <= max <= RAND_MAX -> accepted max rv -> random_at_most max rv = Some (r, rv') -> 0 <= r <= max.
Proof.
  intros H Hacc E. destruct (random_at_most_eq max rv H) as (x & rv1 & Ed & E').
  rewrite E in E'. injection E' as -> ->. unfold accepted in Hacc. rewrite Ed in Hacc. cbn [fst] in Hacc.
  pose proof (bins max H) as (Hb & Hl & Hle). unfold RAND_MAX in H. rewrite Hl in Hacc.
  pose proof (u32_range x). set (b := num_rand / (max + 1)) in *.
  assert (0 <= u32 x / b <= max).
  { split; [apply Z.div_pos; lia|]. apply Z.lt_succ_r, Z.div_lt_upper_bound; lia. }
  rewrite s32_id by lia. lia.
Qed.

(** ** Properties *)

(** random returns a value between its two arguments, in whichever order they
    are given, for every range of less than 2^31 values and every state of the
    generator from which one of the first 101 draws is accepted; and the draws are
    fair: the accepted draws are the [num_bins * bin_size] smallest, and exactly
    [bin_size] of them map to each value of the range. *)
Theorem random_range min max rv :
  is_long min -> is_long max ->
  let lo := Z.min min max in let hi := Z.max min max in
  hi - lo <= RAND_MAX -> accepted (hi - lo) rv ->
  (exists r rv', random min max rv = Some (r, rv') /\ lo <= r <= hi) /\
  (forall x k, 0 <= k <= hi - lo ->
     let b := num_rand / (hi - lo + 1) in x / b = k <-> k * b <= x < k * b + b).
Proof.
  intros Hmin Hmax lo hi Hr Hacc. unfold RAND_MAX in Hr. split.
  - unfold random.
    replace (if max <? min then (max, min) else (min, max)) with (lo, hi).
    2: { unfold lo, hi. destruct (Z.ltb_spec max min); f_equal; lia. }
    rewrite s32_id by lia.
    destruct (random_at_most_eq (hi - lo) rv) as (x & rv' & _ & E); [unfold RAND_MAX; lia|].
    pose proof (random_at_most_range (hi - lo) rv _ _ ltac:(unfold RAND_MAX; lia) Hacc E).
    rewrite E. eexists _, _. split; [reflexivity|]. rewrite s32_id by lia. lia.
  - intros x k Hk b. pose proof (bins (hi - lo) ltac:(unfold RAND_MAX; lia)) as (Hb & _).
    fold b in Hb. split; intros Hx.
    + pose proof (Z.div_mod x b). pose proof (Z.mod_pos_bound x b). subst k. lia.
    + symmetry. apply (Z.div_unique x b k (x - k * b)); lia.
Qed.

Lemma random_range_witness :
  exists r rv', random 10 1 12345 = Some (r, rv') /\ 1 <= r <= 10.
Proof.
  apply (random_range 10 1 12345); [lia|lia|unfold RAND_MAX; lia|].
  vm_compute. reflexivity.
Defined.

(** A range of 2^31 values or more is not detected: the subtraction
    [max - min] overflows, and random divides by zero in every state. *)
Theorem random_div_by_zero min max rv :
  is_long min -> is_long max ->
  random min max rv = None <-> 2147483648 <= Z.abs (max - min).
Proof.
  intros Hmin Hmax. unfold random.
  set (lo := Z.min min max). set (hi := Z.max min max).
  replace (if max <? min then (max, min) else (min, max)) with (lo, hi).
  2: { unfold lo, hi. destruct (Z.ltb_spec max min); f_equal; lia. }
  destruct (Z.le_gt_cases 2147483648 (hi - lo)) as [Hbig|Hsmall].
  - split; [lia|]. intros _.
    assert (s32 (hi - lo) = hi - lo - 4294967296) as -> by wrap_lia.
    unfold random_at_most. assert (u32 (hi - lo - 4294967296) = hi - lo) as -> by wrap_lia.
    destruct (Z.eqb_spec (u32 (hi - lo + 1)) 0) as [|Hn]; [done|]. cbv zeta.
    destruct (draw _ _ rv) as [x rv'].
    assert (num_rand / u32 (hi - lo + 1) = 0) as ->; [|done].
    change num_rand with 2147483648. apply Z.div_small. wrap_lia.
  - split; [|lia]. intros E. exfalso. rewrite s32_id in E by lia.
    destruct (random_at_most_eq (hi - lo) rv) as (x & rv' & _ & E'); [unfold RAND_MAX; lia|].
    by rewrite E' in E.
Qed.

Lemma random_div_by_zero_witness : random (-2147483648) 2147483647 1 = None.
Proof. apply random_div_by_zero; lia. Defined.
