(* ===== verification/Pins.v ===== *)
(** Pins and ports (orchard/arduino-io.c, the pin numbers of orchard/Arduino.h, the pad
    driver os/hal/ports/KINETIS/KL02x/pal_lld.c, and ledShow of orchard/ws2812b.c).

    [board] is the state of the two ports (the pin control registers PCR, the data
    direction PDDR and the output latch) and the variables of arduino-io.c.  The
    input levels and the result of an ADC conversion are arguments.  [hw] selects the
    hardware version the firmware is built for.

    Proved: a pad mode that is set reads back, except for the pull-down, which reads
    as a plain input; without sudo mode pinMode and digitalWrite can only touch the
    pads of the six Arduino pins, and ledShow these and the RGB led; and the scaling of analogRead for every
    resolution. *)
From S2P Require Import Prelude.
Local Open Scope Z_scope.

(** ** Pin numbers (Arduino.h) *)

Definition PTA (x : Z) : Z := Z.lor 0x40 x.
Definition PTB (x : Z) : Z := Z.lor 0x40 (32 + x).
Definition A4 : Z := 0x84.
Definition A5 : Z := 0x85.
Definition A6 : Z := 0x86.
Definition A7 : Z := 0x87.
Definition A8 : Z := 0x88.
Definition A9 : Z := 0x89.
Definition A10 : Z := 0x8a.
Definition D4 : Z := 0xa4.
Definition D5 : Z := 0xa5.
Definition LED_BUILTIN : Z := 32.
Definition LED_BUILTIN_RGB : Z := 33.
Definition LED_BUILTIN_RED : Z := 34.
Definition LED_BUILTIN_GREEN : Z := 35.
Definition AUDIO_IN : Z := 36.
Definition UART_TX : Z := 37.
Definition UART_RX : Z := 38.
Definition SWD_CLK : Z := 39.
Definition SWD_DIO : Z := 40.
Definition RST_LEVEL : Z := 41.
Definition PORTA_IRQ : Z := 30.
Definition PORTB_IRQ : Z := 31.
Definition HIGH : Z := 4.
Definition LOW : Z := 0.

Inductive pin_mode : Set := INPUT | OUTPUT | INPUT_PULLUP | INPUT_PULLDOWN.
Inductive hw_version : Set := PVT1C | PVT1E.
Inductive ioport : Set := IOPORT1 | IOPORT2.

#[export] Instance ioport_eq_dec : EqDecision ioport.
Proof. solve_decision. Defined.
#[export] Instance pin_mode_eq_dec : EqDecision pin_mode.
Proof. solve_decision. Defined.

(** ** Pad modes (pal.h, pal_lld.h) *)

Definition PAL_MODE_RESET : Z := 0.
Definition PAL_MODE_UNCONNECTED : Z := 1.
Definition PAL_MODE_INPUT : Z := 2.
Definition PAL_MODE_INPUT_PULLUP : Z := 3.
Definition PAL_MODE_INPUT_PULLDOWN : Z := 4.
Definition PAL_MODE_INPUT_ANALOG : Z := 5.
Definition PAL_MODE_OUTPUT_PUSHPULL : Z := 6.
Definition PAL_MODE_ALTERNATIVE_1 : Z := 0x10.
Definition PAL_MODE_ALTERNATIVE_2 : Z := 0x11.
Definition PAL_MODE_ALTERNATIVE_3 : Z := 0x12.
Definition PAL_MODE_ALTERNATIVE_4 : Z := 0x13.
Definition PAL_MODE_ALTERNATIVE_5 : Z := 0x14.
Definition PAL_MODE_ALTERNATIVE_6 : Z := 0x15.
Definition PAL_MODE_ALTERNATIVE_7 : Z := 0x16.

(** Fields of the pin control register. *)
Definition PORTx_PCRn_MUX_MASK : Z := 0x700.
Definition PORTx_PCRn_MUX (x : Z) : Z := Z.land (Z.shiftl x 8) PORTx_PCRn_MUX_MASK.
Definition PORTx_PCRn_PE : Z := 2.
Definition PORTx_PCRn_PS : Z := 1.

(** ** State *)

Record board : Type := Board {
  PCR : ioport -> Z -> Z;
  PDDR : ioport -> Z;
  PDOR : ioport -> Z;
  sudo_mode : Z;
  soft_pwm : Z * Z;
  analog_read_resolution : Z
}.

(** Update of one port, and of one pad of one port. *)
Definition upd_port (f : ioport -> Z) (port : ioport) (v : Z) : ioport -> Z :=
  fun p => if decide (p = port) then v else f p.
Definition upd_pad (f : ioport -> Z -> Z) (port : ioport) (pad v : Z) : ioport -> Z -> Z :=
  fun p k => if decide (p = port /\ k = pad) then v else f p k.

Definition set_pad (pcr : ioport -> Z -> Z) (pddr : ioport -> Z) b :=
  Board pcr pddr (PDOR b) (sudo_mode b) (soft_pwm b) (analog_read_resolution b).
Definition set_PDOR v b :=
  Board (PCR b) (PDDR b) v (sudo_mode b) (soft_pwm b) (analog_read_resolution b).
Definition set_sudo_mode v b :=
  Board (PCR b) (PDDR b) (PDOR b) v (soft_pwm b) (analog_read_resolution b).
Definition set_soft_pwm v b :=
  Board (PCR b) (PDDR b) (PDOR b) (sudo_mode b) v (analog_read_resolution b).
Definition set_resolution v b :=
  Board (PCR b) (PDDR b) (PDOR b) (sudo_mode b) (soft_pwm b) v.

(** ** The pad driver *)

(** The [switch (mode)]: the new PCR, or [None] for an unknown mode. *)
Definition pcr_of_mode (mode : Z) : option Z :=
  if (mode =? PAL_MODE_RESET) || (mode =? PAL_MODE_INPUT) || (mode =? PAL_MODE_OUTPUT_PUSHPULL)
  then Some (PORTx_PCRn_MUX 1)
  else if mode =? PAL_MODE_INPUT_PULLUP
  then Some (Z.lor (Z.lor (PORTx_PCRn_MUX 1) PORTx_PCRn_PE) PORTx_PCRn_PS)
  else if mode =? PAL_MODE_INPUT_PULLDOWN then Some (Z.lor (PORTx_PCRn_MUX 1) PORTx_PCRn_PE)
  else if (mode =? PAL_MODE_UNCONNECTED) || (mode =? PAL_MODE_INPUT_ANALOG)
  then Some (PORTx_PCRn_MUX 0)
  else if mode =? PAL_MODE_ALTERNATIVE_1 then Some (PORTx_PCRn_MUX 1)
  else if mode =? PAL_MODE_ALTERNATIVE_2 then Some (PORTx_PCRn_MUX 2)
  else if mode =? PAL_MODE_ALTERNATIVE_3 then Some (PORTx_PCRn_MUX 3)
  else if mode =? PAL_MODE_ALTERNATIVE_4 then Some (PORTx_PCRn_MUX 4)
  else if mode =? PAL_MODE_ALTERNATIVE_5 then Some (PORTx_PCRn_MUX 5)
  else if mode =? PAL_MODE_ALTERNATIVE_6 then Some (PORTx_PCRn_MUX 6)
  else if mode =? PAL_MODE_ALTERNATIVE_7 then Some (PORTx_PCRn_MUX 7)
  else None.

Definition _pal_lld_setpadmode (port : ioport) (pad mode : Z) (b : board) : board :=
  let bit := u32 (Z.shiftl 1 pad) in
  let pddr := if mode =? PAL_MODE_OUTPUT_PUSHPULL
              then upd_port (PDDR b) port (Z.lor (PDDR b port) bit)
              else upd_port (PDDR b) port (Z.ldiff (PDDR b port) bit) in
  match pcr_of_mode mode with
  | Some v => set_pad (upd_pad (PCR b) port pad v) pddr b
  | None => set_pad (PCR b) pddr b
  end.

(** [pal_lld_writepad]: the set and clear registers of the output latch. *)
Definition pal_lld_writepad (port : ioport) (pad bit : Z) (b : board) : board :=
  let mask := u32 (Z.shiftl 1 pad) in
  if bit =? 1 then set_PDOR (upd_port (PDOR b) port (Z.lor (PDOR b port) mask)) b
  else set_PDOR (upd_port (PDOR b) port (Z.ldiff (PDOR b port) mask)) b.

Definition pal_lld_readpad (pdir : ioport -> Z) (port : ioport) (pad : Z) : Z :=
  if negb (Z.land (pdir port) (u32 (Z.shiftl 1 pad)) =? 0) then 1 else 0.

(** The ADC driver (os/hal, not modelled): the channel numbers of adc_lld.h, and what
    adcConvert returns and stores in [sample] for a channel. *)
Record adc_driver : Type := AdcDriver {
  ADC_AD9 : Z; ADC_AD8 : Z; ADC_DAD0 : Z; ADC_AD13 : Z; ADC_AD6 : Z; ADC_AD7 : Z;
  ADC_TEMP_SENSOR : Z; ADC_BANDGAP : Z; ADC_VREFSH : Z; ADC_VREFSL : Z; ADC_DAD1 : Z;
  adcConvert : Z -> Z * Z
}.

(** ** Pins *)

Section Pins.
Context (hw : hw_version).

Definition palGetPadMode (port : ioport) (pad : Z) (b : board) : Z :=
  let pcr := PCR b port pad in
  let mux := Z.land pcr PORTx_PCRn_MUX_MASK in
  if mux =? PORTx_PCRn_MUX 0 then PAL_MODE_INPUT_ANALOG
  else if mux =? PORTx_PCRn_MUX 2 then PAL_MODE_ALTERNATIVE_2
  else if mux =? PORTx_PCRn_MUX 3 then PAL_MODE_ALTERNATIVE_3
  else if mux =? PORTx_PCRn_MUX 4 then PAL_MODE_ALTERNATIVE_4
  else if mux =? PORTx_PCRn_MUX 5 then PAL_MODE_ALTERNATIVE_5
  else if mux =? PORTx_PCRn_MUX 6 then PAL_MODE_ALTERNATIVE_6
  else if mux =? PORTx_PCRn_MUX 7 then PAL_MODE_ALTERNATIVE_7
  else if mux =? PORTx_PCRn_MUX 1 then
    if negb (Z.land (PDDR b port) (u32 (Z.shiftl 1 pad)) =? 0) then PAL_MODE_OUTPUT_PUSHPULL
    else
      let pull := Z.land pcr (Z.lor PORTx_PCRn_PE PORTx_PCRn_PS) in
      if pull =? Z.lor PORTx_PCRn_PE PORTx_PCRn_PS then PAL_MODE_INPUT_PULLUP
      else PAL_MODE_INPUT   (* case PE, case PAL_MODE_INPUT_PULLDOWN and default *)
  else PAL_MODE_UNCONNECTED.

Definition canonicalizePin (pin : Z) : Z :=
  let masked_pin := pin in
  let masked_pin := if Z.land masked_pin 0xf0 =? 0xa0 then Z.ldiff masked_pin 0xf0
                    else masked_pin in
  let masked_pin := if Z.land masked_pin 0xf0 =? 0x80 then Z.ldiff masked_pin 0xf0
                    else masked_pin in
  let eqm x := masked_pin =? x in
  if eqm (PTB 10) || eqm (PTA 8) || eqm LED_BUILTIN || eqm 0 then 0
  else if eqm (PTB 11) || eqm (PTA 9) || eqm 1 then 1
  else if eqm (PTA 12) || eqm 2 then 2
  else if eqm (PTB 13) || eqm (match hw with PVT1C => PTB 4 | PVT1E => PTB 3 end) || eqm 3 then 3
  else if eqm (PTB 0) || eqm 4 then 4
  else if eqm (PTA 7) || eqm 5 then 5
  else if eqm (PTA 5) then LED_BUILTIN_RED
  else if eqm (PTA 6) then LED_BUILTIN_RGB
  else if eqm (PTB 6) then LED_BUILTIN_GREEN
  else if eqm (PTB 5) then AUDIO_IN
  else if eqm (PTB 2) then UART_TX
  else if eqm (PTB 1) then UART_RX
  else if eqm (PTA 0) then SWD_CLK
  else if eqm (PTA 2) then SWD_DIO
  else if eqm (PTB 7) then RST_LEVEL
  else pin.

(** [None] is the result -1, with [port] and [pad] not written. *)
Definition pinToPort (pin : Z) : option (ioport * Z) :=
  let c := canonicalizePin pin in
  if c =? 0 then Some (IOPORT2, 10)
  else if c =? 1 then Some (IOPORT2, 11)
  else if c =? 2 then Some (IOPORT1, 12)
  else if c =? 3 then Some (IOPORT2, 13)
  else if c =? 4 then Some (IOPORT2, 0)
  else if c =? 5 then Some (IOPORT1, 7)
  else if c =? LED_BUILTIN_RGB then Some (IOPORT1, 6)
  else if c =? UART_TX then Some (IOPORT2, 2)
  else if c =? UART_RX then Some (IOPORT2, 1)
  else if c =? SWD_CLK then Some (IOPORT1, 0)
  else if c =? SWD_DIO then Some (IOPORT1, 2)
  else if c =? LED_BUILTIN_RED then Some (IOPORT1, 5)
  else if c =? LED_BUILTIN_GREEN then Some (IOPORT2, 6)
  else if c =? AUDIO_IN then Some (IOPORT2, 5)
  else if c =? RST_LEVEL then Some (IOPORT2, 7)
  else if Z.land pin 0xf0 =? 0x40 then Some (IOPORT1, Z.land pin 0x1f)
  else if Z.land pin 0xf0 =? 0x60 then Some (IOPORT2, Z.land pin 0x1f)
  else None.

Definition normal_mode_pins : list Z := [0; 1; 2; 3; 4; 5].

Definition canUsePin (pin : Z) (b : board) : bool :=
  if negb (sudo_mode b =? 0) then true
  else existsb (fun p => p =? canonicalizePin pin) normal_mode_pins.

Definition pinMode (pin : Z) (arduino_mode : pin_mode) (b : board) : board :=
  let pin := canonicalizePin pin in
  match pinToPort pin with
  | None => b
  | Some (port, pad) =>
      if negb (canUsePin pin b) then b
      else
        let b := if pin =? 0 then _pal_lld_setpadmode IOPORT1 8 PAL_MODE_UNCONNECTED b else b in
        let b := if pin =? 1 then _pal_lld_setpadmode IOPORT1 9 PAL_MODE_UNCONNECTED b else b in
        let b := if pin =? 3
                 then _pal_lld_setpadmode IOPORT2 (match hw with PVT1C => 4 | PVT1E => 3 end)
                        PAL_MODE_UNCONNECTED b
                 else b in
        let mode := match arduino_mode with
                    | INPUT_PULLUP => PAL_MODE_INPUT_PULLUP
                    | INPUT_PULLDOWN => PAL_MODE_INPUT_PULLDOWN
                    | INPUT => PAL_MODE_INPUT
                    | OUTPUT => PAL_MODE_OUTPUT_PUSHPULL
                    end in
        _pal_lld_setpadmode port pad mode b
  end.

(** The end of digitalWrite: stop the software PWM of the pin, then write the pad. *)
Definition write_output (pin : Z) (port : ioport) (pad value : Z) (b : board) : board :=
  let b := if (pin =? D4) || (pin =? A4) || (pin =? 4)
           then set_soft_pwm (-1, snd (soft_pwm b)) b else b in
  let b := if (pin =? D5) || (pin =? A5) || (pin =? 5)
           then set_soft_pwm (fst (soft_pwm b), -1) b else b in
  pal_lld_writepad port pad (if negb (value =? 0) then 1 else 0) b.

Definition digitalWrite (pin value : Z) (b : board) : board :=
  match pinToPort pin with
  | None => b
  | Some (port, pad) =>
      if negb (canUsePin pin b) then b
      else
        let mode := palGetPadMode port pad b in
        if (mode =? PAL_MODE_INPUT_PULLDOWN) || (mode =? PAL_MODE_INPUT)
           || (mode =? PAL_MODE_INPUT_PULLUP)
        then if negb (value =? 0)
             then _pal_lld_setpadmode port pad PAL_MODE_INPUT_PULLUP b
             else _pal_lld_setpadmode port pad PAL_MODE_INPUT b
        else
          let b := if mode =? PAL_MODE_ALTERNATIVE_2
                   then _pal_lld_setpadmode port pad PAL_MODE_OUTPUT_PUSHPULL b else b in
          write_output pin port pad value b
  end.

(** [pdir]: the input levels after the pad has been reconfigured. *)
Definition digitalRead (pdir : ioport -> Z) (pin : Z) (b : board) : Z * board :=
  match pinToPort pin with
  | None => (0, b)
  | Some (port, pad) =>
      let mode := palGetPadMode port pad b in
      let b' := if mode =? PAL_MODE_INPUT_ANALOG
                then _pal_lld_setpadmode port pad PAL_MODE_INPUT b else b in
      if (mode =? PAL_MODE_INPUT_ANALOG) || (mode =? PAL_MODE_INPUT)
         || (mode =? PAL_MODE_INPUT_PULLUP) || (mode =? PAL_MODE_INPUT_PULLDOWN)
      then
        if negb (canUsePin pin b') then (0, b')
        else (if negb (pal_lld_readpad pdir port pad =? 0) then HIGH else LOW, b')
      else (0, b)
  end.

Context (adc : adc_driver).

Definition pin_to_adc (pin : Z) : Z :=
  let c := canonicalizePin pin in
  if c =? 0 then ADC_AD9 adc
  else if c =? 1 then ADC_AD8 adc
  else if c =? 2 then ADC_DAD0 adc
  else if c =? 3 then ADC_AD13 adc
  else if c =? 4 then ADC_AD6 adc
  else if c =? 5 then ADC_AD7 adc
  else if c =? A6 then ADC_TEMP_SENSOR adc
  else if c =? A7 then ADC_BANDGAP adc
  else if c =? A8 then ADC_VREFSH adc
  else if c =? A9 then ADC_VREFSL adc
  else if c =? A10 then ADC_DAD1 adc
  else -1.

Definition SYSTEM_ANALOG_RESOLUTION : Z := 12.

Definition analogReadResolution (bits : Z) (b : board) : board :=
  if (bits <? 0) || (31 <? bits) then b else set_resolution (u8 bits) b.

(** "Shift the result up or down to match the requested resolution"; [sample] is an
    [adcsample_t], 16 bits wide. *)
Definition scale_sample (resolution sample : Z) : Z :=
  if SYSTEM_ANALOG_RESOLUTION <? resolution
  then u16 (Z.shiftl sample (resolution - SYSTEM_ANALOG_RESOLUTION))
  else if resolution <? SYSTEM_ANALOG_RESOLUTION
  then u16 (Z.shiftr sample (SYSTEM_ANALOG_RESOLUTION - resolution))
  else sample.

Definition analogRead (pin : Z) (b : board) : Z * board :=
  let convert b :=
    let adc_num := pin_to_adc pin in
    if adc_num =? -1 then (0, b)
    else
      let '(result, sample) := adcConvert adc adc_num in
      let sample := if negb (result =? 0) then 0 else sample in
      (scale_sample (analog_read_resolution b) sample, b) in
  match pinToPort pin with
  | None => convert b
  | Some (port, pad) =>
      let mode := palGetPadMode port pad b in
      if (mode =? PAL_MODE_INPUT) || (mode =? PAL_MODE_INPUT_PULLUP)
         || (mode =? PAL_MODE_INPUT_PULLDOWN)
      then convert (_pal_lld_setpadmode port pad PAL_MODE_INPUT_ANALOG b)
      else if mode =? PAL_MODE_INPUT_ANALOG then convert b
      else (0, b)
  end.

Definition doSudo (b : board) : board := set_sudo_mode 1 b.

(** The pads of setSerialSpeed; the serial driver is not part of the model. *)
Definition setSerialSpeed (b : board) : board :=
  let remux pin b := match pinToPort pin with
                     | Some (port, pad) => _pal_lld_setpadmode port pad PAL_MODE_ALTERNATIVE_3 b
                     | None => b
                     end in
  remux UART_RX (remux UART_TX b).

(** [None] where the C function tests an uninitialised variable. *)
Definition digitalPinToInterrupt (pin : Z) : option Z :=
  match pinToPort pin with
  | Some (IOPORT1, _) => Some PORTA_IRQ
  | Some (IOPORT2, _) => Some PORTB_IRQ
  | None => None
  end.
End Pins.

(** ** The pad modes read back *)

Lemma pad_bit pad : 0 <= pad < 32 -> u32 (Z.shiftl 1 pad) = 2 ^ pad.
Proof.
  intros H. rewrite Z.shiftl_1_l. apply u32_id.
  assert (0 < 2 ^ pad) by lia.
  assert (2 ^ pad <= 2 ^ 31) by (apply Z.pow_le_mono_r; lia). lia.
Qed.

Lemma land_lor_bit x pad : 0 <= pad -> Z.land (Z.lor x (2 ^ pad)) (2 ^ pad) <> 0.
Proof.
  intros H E. assert (Hb : Z.testbit (Z.land (Z.lor x (2 ^ pad)) (2 ^ pad)) pad = true).
  { rewrite Z.land_spec, Z.lor_spec, Z.pow2_bits_true by done. by rewrite orb_true_r. }
  by rewrite E, Z.bits_0 in Hb.
Qed.

Lemma land_ldiff_bit x pad : Z.land (Z.ldiff x (2 ^ pad)) (2 ^ pad) = 0.
Proof.
  apply Z.bits_inj'. intros i Hi. rewrite Z.land_spec, Z.ldiff_spec, Z.bits_0.
  by destruct (Z.testbit x i), (Z.testbit (2 ^ pad) i).
Qed.

Lemma upd_port_same f port v : upd_port f port v port = v.
Proof. unfold upd_port. by rewrite decide_True. Qed.
Lemma upd_pad_same f port pad v : upd_pad f port pad v port pad = v.
Proof. unfold upd_pad. by rewrite decide_True. Qed.

(** The mode palGetPadMode reports for a pad set to [mode]. *)
Definition mode_read_back (mode : Z) : Z :=
  if (mode =? PAL_MODE_RESET) || (mode =? PAL_MODE_INPUT_PULLDOWN)
     || (mode =? PAL_MODE_ALTERNATIVE_1) then PAL_MODE_INPUT
  else if mode =? PAL_MODE_UNCONNECTED then PAL_MODE_INPUT_ANALOG
  else mode.

Definition pad_modes : list Z :=
  [PAL_MODE_RESET; PAL_MODE_UNCONNECTED; PAL_MODE_INPUT; PAL_MODE_INPUT_PULLUP;
   PAL_MODE_INPUT_PULLDOWN; PAL_MODE_INPUT_ANALOG; PAL_MODE_OUTPUT_PUSHPULL;
   PAL_MODE_ALTERNATIVE_1; PAL_MODE_ALTERNATIVE_2; PAL_MODE_ALTERNATIVE_3;
   PAL_MODE_ALTERNATIVE_4; PAL_MODE_ALTERNATIVE_5; PAL_MODE_ALTERNATIVE_6;
   PAL_MODE_ALTERNATIVE_7].

(** [palGetPadMode] inverts [palSetPadMode] on the modes the Arduino layer
    distinguishes (input, input with pull-up, analog, push-pull output, alternate
    functions 2 to 7), but a pad set to input with pull-down reads back as a plain
    input: the case label of the pull-down is the wrong constant and its [return] is
    missing. *)
Theorem palGetPadMode_setpadmode port pad mode b :
  0 <= pad < 32 -> In mode pad_modes ->
  palGetPadMode port pad (_pal_lld_setpadmode port pad mode b) = mode_read_back mode.
Proof.
  intros Hpad Hmode.
  assert (Hclr := land_ldiff_bit (PDDR b port) pad).
  assert (Hset := land_lor_bit (PDDR b port) pad ltac:(lia)).
  unfold palGetPadMode, _pal_lld_setpadmode. rewrite !pad_bit by done.
  cbn in Hmode.
  repeat (destruct Hmode as [<-|Hmode]); try done;
    match goal with
    | |- context [pcr_of_mode ?m] => let v := eval vm_compute in (pcr_of_mode m) in
                                     change (pcr_of_mode m) with v
    end; cbv beta iota zeta; cbn [set_pad PCR PDDR];
    rewrite upd_pad_same; cbv [PAL_MODE_OUTPUT_PUSHPULL]; 
    match goal with
    | |- context [Z.eqb ?a 6] => let v := eval vm_compute in (Z.eqb a 6) in
                                     change (Z.eqb a 6) with v
    end; cbv iota; rewrite ?upd_port_same, ?Hclr, ?(proj2 (Z.eqb_neq _ _) Hset);
    reflexivity.
Qed.

(** ** Which pads the sketch can touch *)

(** The pads of the Arduino pins 0 to 5, and the pads that share a connector pin with
    0, 1 and 3, which pinMode disconnects. *)
Definition arduino_pads (hw : hw_version) : list (ioport * Z) :=
  [(IOPORT2, 10); (IOPORT2, 11); (IOPORT1, 12); (IOPORT2, 13); (IOPORT2, 0); (IOPORT1, 7);
   (IOPORT1, 8); (IOPORT1, 9); (IOPORT2, match hw with PVT1C => 4 | PVT1E => 3 end)].

(** A pad has the same configuration and output level in both states. *)
Definition same_pad (port : ioport) (pad : Z) (b b' : board) : Prop :=
  PCR b' port pad = PCR b port pad /\
  Z.testbit (PDDR b' port) pad = Z.testbit (PDDR b port) pad /\
  Z.testbit (PDOR b' port) pad = Z.testbit (PDOR b port) pad.

(** The state outside of [pads] is the same, and so is the sudo flag. *)
Definition only_pads (pads : list (ioport * Z)) (b b' : board) : Prop :=
  sudo_mode b' = sudo_mode b /\
  forall port pad, 0 <= pad < 32 -> ~ In (port, pad) pads -> same_pad port pad b b'.

Lemma only_pads_refl pads b : only_pads pads b b.
Proof. split; [done|]. intros. by repeat split. Qed.

Lemma only_pads_trans pads b1 b2 b3 :
  only_pads pads b1 b2 -> only_pads pads b2 b3 -> only_pads pads b1 b3.
Proof.
  intros [S1 H1] [S2 H2]. split; [congruence|]. intros port pad Hp Hn.
  destruct (H1 port pad Hp Hn) as (?&?&?), (H2 port pad Hp Hn) as (?&?&?).
  repeat split; congruence.
Qed.

Lemma testbit_or_bit x k i : 0 <= k < 32 -> 0 <= i -> i <> k ->
  Z.testbit (Z.lor x (u32 (Z.shiftl 1 k))) i = Z.testbit x i.
Proof.
  intros. rewrite pad_bit, Z.lor_spec, Z.pow2_bits_false by lia. apply orb_false_r.
Qed.
Lemma testbit_clear_bit x k i : 0 <= k < 32 -> 0 <= i -> i <> k ->
  Z.testbit (Z.ldiff x (u32 (Z.shiftl 1 k))) i = Z.testbit x i.
Proof.
  intros. rewrite pad_bit, Z.ldiff_spec, Z.pow2_bits_false by lia. apply andb_true_r.
Qed.

Lemma upd_port_bit f port k v p i :
  (forall x, 0 <= x -> x <> k -> Z.testbit v x = Z.testbit (f port) x) ->
  0 <= i -> (p, i) <> (port, k) -> Z.testbit (upd_port f port v p) i = Z.testbit (f p) i.
Proof.
  intros H Hi Hne. unfold upd_port. case_decide as E; [subst p|done].
  apply H; [done|]. congruence.
Qed.

Lemma setpadmode_only pads port pad mode b :
  0 <= pad < 32 -> In (port, pad) pads -> only_pads pads b (_pal_lld_setpadmode port pad mode b).
Proof.
  intros Hpad Hin. unfold _pal_lld_setpadmode.
  set (pddr := if mode =? PAL_MODE_OUTPUT_PUSHPULL then _ else _).
  assert (Hd : forall p i, 0 <= i < 32 -> ~ In (p, i) pads ->
                 Z.testbit (pddr p) i = Z.testbit (PDDR b p) i).
  { intros p i Hi Hn. assert ((p, i) <> (port, pad)) by (intros [= -> ->]; done).
    unfold pddr. case_match; (apply (upd_port_bit _ _ pad); [|lia|done]); intros.
    - by apply testbit_or_bit.
    - by apply testbit_clear_bit. }
  case_match; (split; [done|]); intros p i Hi Hn; repeat split; try (by apply Hd).
  cbn [PCR set_pad]. unfold upd_pad. case_decide as E; [|done].
  destruct E as [-> ->]. done.
Qed.

Lemma writepad_only pads port pad v b :
  0 <= pad < 32 -> In (port, pad) pads -> only_pads pads b (pal_lld_writepad port pad v b).
Proof.
  intros Hpad Hin. unfold pal_lld_writepad.
  case_match; (split; [done|]); intros p i Hi Hn; repeat split; cbn [PDOR set_PDOR];
    (apply (upd_port_bit _ _ pad); [|lia|intros [= -> ->]; done]); intros.
  - by apply testbit_or_bit.
  - by apply testbit_clear_bit.
Qed.

Lemma set_soft_pwm_only pads v b : only_pads pads b (set_soft_pwm v b).
Proof. split; [done|]. intros. by repeat split. Qed.

(** A pin the sketch may use is wired to one of the pads of the Arduino pins. *)
Lemma usable_pin_pad hw pin b port pad :
  sudo_mode b = 0 -> canUsePin hw pin b = true -> pinToPort hw pin = Some (port, pad) ->
  In (port, pad) (arduino_pads hw) /\ 0 <= pad < 32.
Proof.
  intros Hs. unfold canUsePin, pinToPort. rewrite Hs. cbn [Z.eqb negb].
  generalize (canonicalizePin hw pin) as c. intros c Hc.
  apply existsb_exists in Hc as (x & Hx & ->%Z.eqb_eq).
  cbn in Hx. repeat (destruct Hx as [<-|Hx]); try done;
    intros [= <- <-]; (split; [cbn; tauto|lia]).
Qed.

(** ** The LED strip (ws2812b.c)

    The assembly routine ledUpdate sends the pixels by storing [la_mask] at [la_set] and at
    [la_clear]; ledShow chooses its arguments, or does not call it ([None]). *)
Definition FGPIOA_BASE : Z := 0xF8000000.
Definition FGPIOB_BASE : Z := 0xF8000040.
Definition GPIO_PSOR : Z := 0x04.
Definition GPIO_PCOR : Z := 0x08.

Record led_update : Type := LedUpdate { la_num : Z; la_pixels : Z; la_mask : Z; la_set : Z; la_clear : Z }.

Definition ledShow (hw : hw_version) (pin pixels num_leds : Z) (b : board) : option led_update :=
  let pin := canonicalizePin hw pin in
  if negb (pin =? LED_BUILTIN_RGB) && negb (canUsePin hw pin b) then None
  else
    match pinToPort hw pin with
    | None => None
    | Some (port, pad) =>
        let base := match port with IOPORT1 => FGPIOA_BASE | IOPORT2 => FGPIOB_BASE end in
        Some (LedUpdate num_leds pixels (u32 (Z.shiftl 1 pad)) (base + GPIO_PSOR) (base + GPIO_PCOR))
    end.

(** Without sudo mode, ledShow drives the pads of the six Arduino pins and the RGB led only:
    the set and the clear register are those of the pad's port, and the mask is its bit. *)
Theorem ledShow_confined hw pin pixels num_leds b u : sudo_mode b = 0 -> ledShow hw pin pixels num_leds b = Some u ->
  exists port pad, In (port, pad) ((IOPORT1, 6) :: arduino_pads hw) /\ 0 <= pad < 32 /\ la_mask u = 2 ^ pad /\
    la_set u = (match port with IOPORT1 => FGPIOA_BASE | IOPORT2 => FGPIOB_BASE end) + GPIO_PSOR /\
    la_clear u = la_set u + 4 /\ la_num u = num_leds /\ la_pixels u = pixels.
Proof.
  intros Hs. unfold ledShow. set (c := canonicalizePin hw pin).
  destruct (pinToPort hw c) as [[port pad]|] eqn:Ep; [|by case_match].
  assert (H : (c =? LED_BUILTIN_RGB) || canUsePin hw c b = true ->
    In (port, pad) ((IOPORT1, 6) :: arduino_pads hw) /\ 0 <= pad < 32).
  { intros [Ec%Z.eqb_eq|Ec]%orb_true_iff.
    - rewrite Ec in Ep. destruct hw; vm_compute in Ep; injection Ep as <- <-; (split; [by left|lia]).
    - destruct (usable_pin_pad _ _ _ _ _ Hs Ec Ep). split; [by right|done]. }
  rewrite <- negb_orb. destruct ((c =? LED_BUILTIN_RGB) || canUsePin hw c b); [|done]. cbn [negb]. intros [= <-].
  destruct (H eq_refl) as [Hin Hr]. exists port, pad. cbn [la_mask la_set la_clear la_num la_pixels].
  split; [done|split; [done|split; [|split; [done|split; [|done]]]]].
  - rewrite Z.shiftl_1_l. apply Z.mod_small. split; [lia|]. apply Z.pow_lt_mono_r; lia.
  - unfold GPIO_PCOR, GPIO_PSOR. lia.
Qed.

(** One call of the sketch's digital output interface. *)
Inductive pin_call : Type :=
| Call_pinMode (pin : Z) (mode : pin_mode)
| Call_digitalWrite (pin value : Z).

Definition run_pin_call (hw : hw_version) (b : board) (c : pin_call) : board :=
  match c with
  | Call_pinMode pin mode => pinMode hw pin mode b
  | Call_digitalWrite pin value => digitalWrite hw pin value b
  end.

Lemma pinMode_only hw pin mode b :
  sudo_mode b = 0 -> only_pads (arduino_pads hw) b (pinMode hw pin mode b).
Proof.
  intros Hs. unfold pinMode.
  destruct (pinToPort hw (canonicalizePin hw pin)) as [[port pad]|] eqn:Ep;
    [|apply only_pads_refl].
  destruct (canUsePin hw (canonicalizePin hw pin) b) eqn:Eu; cbn [negb];
    [|apply only_pads_refl].
  destruct (usable_pin_pad _ _ _ _ _ Hs Eu Ep) as [Hin Hr].
  eapply only_pads_trans; [|by apply setpadmode_only].
  eapply only_pads_trans; [|case_match; [|apply only_pads_refl]].
  - eapply only_pads_trans; [|case_match; [|apply only_pads_refl]].
    + case_match; [apply setpadmode_only; [lia|cbn; tauto]|apply only_pads_refl].
    + apply setpadmode_only; [lia|cbn; tauto].
  - apply setpadmode_only; [destruct hw; lia|cbn; tauto].
Qed.

Lemma write_output_only pads pin port pad value b :
  0 <= pad < 32 -> In (port, pad) pads -> only_pads pads b (write_output pin port pad value b).
Proof.
  intros Hr Hin. unfold write_output. eapply only_pads_trans; [|by apply writepad_only].
  eapply only_pads_trans; [|case_match; [apply set_soft_pwm_only|apply only_pads_refl]].
  case_match; [apply set_soft_pwm_only|apply only_pads_refl].
Qed.

Lemma digitalWrite_only hw pin value b :
  sudo_mode b = 0 -> only_pads (arduino_pads hw) b (digitalWrite hw pin value b).
Proof.
  intros Hs. unfold digitalWrite.
  destruct (pinToPort hw pin) as [[port pad]|] eqn:Ep; [|apply only_pads_refl].
  destruct (canUsePin hw pin b) eqn:Eu; cbn [negb]; [|apply only_pads_refl].
  destruct (usable_pin_pad _ _ _ _ _ Hs Eu Ep) as [Hin Hr].
  case_match; [case_match; by apply setpadmode_only|].
  eapply only_pads_trans; [|by apply write_output_only].
  case_match; [by apply setpadmode_only|apply only_pads_refl].
Qed.

(** C33. Until the sketch calls doSudo, no sequence of pinMode and digitalWrite calls,
    with any pin numbers, changes the configuration or the output level of a pad other
    than those of the six Arduino pins and the pads that share their connector pins:
    the serial port, the debug port, the audio input and the RGB led stay as the system
    set them. *)
Theorem pins_protected hw calls b :
  sudo_mode b = 0 ->
  forall port pad, 0 <= pad < 32 -> ~ In (port, pad) (arduino_pads hw) ->
  same_pad port pad b (fold_left (run_pin_call hw) calls b).
Proof.
  intros Hs. cut (only_pads (arduino_pads hw) b (fold_left (run_pin_call hw) calls b)).
  { intros [_ H]. exact H. }
  revert b Hs. induction calls as [|c calls IH]; intros b Hs; [apply only_pads_refl|].
  cbn [fold_left]. assert (Hc : only_pads (arduino_pads hw) b (run_pin_call hw b c)).
  { destruct c; [by apply pinMode_only|by apply digitalWrite_only]. }
  eapply only_pads_trans; [exact Hc|]. apply IH. rewrite (proj1 Hc). done.
Qed.

Definition pins_protected_board : board :=
  Board (fun _ _ => 0x100) (fun _ => 0) (fun _ => 0) 0 (-1, -1) 10.

Lemma pins_protected_witness :
  same_pad IOPORT1 0 pins_protected_board
    (fold_left (run_pin_call PVT1E)
       [Call_pinMode 3 OUTPUT; Call_pinMode SWD_CLK OUTPUT; Call_digitalWrite SWD_CLK 1]
       pins_protected_board).
Proof.
  apply (pins_protected PVT1E _ pins_protected_board eq_refl); [lia|].
  cbn. intros H. repeat destruct H as [H|H]; try discriminate H; done.
Defined.

Lemma palGetPadMode_setpadmode_witness :
  palGetPadMode IOPORT2 13
    (_pal_lld_setpadmode IOPORT2 13 PAL_MODE_INPUT_PULLDOWN pins_protected_board)
  = PAL_MODE_INPUT.
Proof.
  refine (palGetPadMode_setpadmode IOPORT2 13 PAL_MODE_INPUT_PULLDOWN pins_protected_board _ _);
    [lia|cbn; tauto].
Defined.

(** ** Analog input *)

(** The value analogRead returns for a 12-bit conversion [s]. *)
Definition analog_value (bits s : Z) : Z :=
  if bits <=? 12 then s / 2 ^ (12 - bits)
  else if bits <=? 16 then s * 2 ^ (bits - 12)
  else (s * 2 ^ (bits - 12)) mod 65536.

Lemma scale_sample_value bits s :
  0 <= s < 4096 -> 0 <= bits <= 31 -> scale_sample bits s = analog_value bits s.
Proof.
  intros Hs Hb. unfold scale_sample, analog_value, SYSTEM_ANALOG_RESOLUTION.
  destruct (12 <? bits) eqn:E12.
  - rewrite Z.shiftl_mul_pow2 by lia.
    replace (bits <=? 12) with false by lia. unfold u16. change (2 ^ 16) with 65536.
    destruct (bits <=? 16) eqn:E16; [|done].
    apply Z.mod_small. assert (0 < 2 ^ (bits - 12)) by lia.
    assert (2 ^ (bits - 12) <= 2 ^ 4) by (apply Z.pow_le_mono_r; lia). nia.
  - replace (bits <=? 12) with true by lia.
    destruct (bits <? 12) eqn:E.
    + rewrite Z.shiftr_div_pow2 by lia. apply u16_id.
      assert (0 < 2 ^ (12 - bits)) by lia. split; [apply Z.div_pos; lia|].
      apply Z.div_lt_upper_bound; nia.
    + replace bits with 12 by lia. by rewrite Z.sub_diag, Z.div_1_r.
Qed.

Lemma pinToPort_pad hw pin port pad :
  pinToPort hw pin = Some (port, pad) -> 0 <= pad < 32.
Proof.
  unfold pinToPort. repeat (case_match; [intros [= <- <-]; try lia|]); try done;
    apply (land_range 5); lia.
Qed.

(** analogRead of a pin in one of the input modes, after
    analogReadResolution(bits), turns the pad to analog and returns the 12-bit
    conversion scaled to [bits] bits: exactly for 0 to 16 bits.  From 17 to 31 bits,
    which analogReadResolution accepts, the scaled sample is cut to its low 16 bits
    (so that it is 0 from 28 bits on).  A conversion that fails reads as 0. *)
Theorem analogRead_scaled hw adc pin port pad bits result s b :
  pinToPort hw pin = Some (port, pad) ->
  In (palGetPadMode port pad b)
     [PAL_MODE_INPUT; PAL_MODE_INPUT_PULLUP; PAL_MODE_INPUT_PULLDOWN] ->
  pin_to_adc hw adc pin <> -1 ->
  adcConvert adc (pin_to_adc hw adc pin) = (result, s) ->
  0 <= s < 4096 -> 0 <= bits <= 31 ->
  let '(v, b') := analogRead hw adc pin (analogReadResolution bits b) in
  v = (if result =? 0 then analog_value bits s else 0) /\
  palGetPadMode port pad b' = PAL_MODE_INPUT_ANALOG /\
  (28 <= bits -> v = 0).
Proof.
  intros Hp Hmode Hadc Hconv Hs Hb. unfold analogReadResolution.
  replace ((bits <? 0) || (31 <? bits)) with false by lia.
  rewrite u8_id by lia. unfold analogRead. rewrite Hp.
  change (palGetPadMode port pad (set_resolution bits b)) with (palGetPadMode port pad b).
  replace ((palGetPadMode port pad b =? PAL_MODE_INPUT)
           || (palGetPadMode port pad b =? PAL_MODE_INPUT_PULLUP)
           || (palGetPadMode port pad b =? PAL_MODE_INPUT_PULLDOWN)) with true
    by (cbn in Hmode; destruct Hmode as [<-|[<-|[<-|[]]]]; done).
  rewrite (proj2 (Z.eqb_neq _ _) Hadc), Hconv.
  change (analog_read_resolution (_pal_lld_setpadmode port pad PAL_MODE_INPUT_ANALOG
            (set_resolution bits b))) with bits.
  assert (Hv : scale_sample bits (if negb (result =? 0) then 0 else s)
               = if result =? 0 then analog_value bits s else 0).
  { destruct (result =? 0); cbn [negb]; [by apply scale_sample_value|].
    rewrite scale_sample_value by lia. unfold analog_value.
    destruct (bits <=? 12); [apply Zdiv_0_l|]. by destruct (bits <=? 16). }
  split; [exact Hv|split].
  - assert (0 <= pad < 32) by (eapply pinToPort_pad; eauto).
    unfold palGetPadMode, _pal_lld_setpadmode. cbn [set_pad PCR].
    change (pcr_of_mode PAL_MODE_INPUT_ANALOG) with (Some 0). cbv beta iota.
    cbn [set_pad PCR]. rewrite upd_pad_same. reflexivity.
  - intros H28. rewrite Hv. destruct (result =? 0); [|done].
    unfold analog_value. replace (bits <=? 12) with false by lia.
    replace (bits <=? 16) with false by lia.
    replace (bits - 12) with (16 + (bits - 28)) by lia.
    rewrite Z.pow_add_r by lia. change (2 ^ 16) with 65536.
    replace (s * (65536 * 2 ^ (bits - 28))) with (s * 2 ^ (bits - 28) * 65536) by ring.
    apply Z.mod_mul. lia.
Qed.

Definition analogRead_adc : adc_driver :=
  AdcDriver 9 8 0 13 6 7 26 27 29 30 1 (fun channel => (0, 100 * channel)).

Lemma analogRead_scaled_witness :
  (let '(v, b') := analogRead PVT1E analogRead_adc 0
                     (analogReadResolution 10 pins_protected_board) in
   v = 225 /\ palGetPadMode IOPORT2 10 b' = PAL_MODE_INPUT_ANALOG /\ (28 <= 10 -> v = 0)).
Proof.
  refine (analogRead_scaled PVT1E analogRead_adc 0 IOPORT2 10 10 0 900 pins_protected_board
            _ _ _ _ _ _); [reflexivity|cbn; tauto|discriminate|reflexivity|lia|lia].
Defined.
