(* ===== verification/Irqs.v ===== *)
(** Interrupts (orchard/arduino-irqs.c, the priority registers of the Cortex-M0+ in
    core_cm0plus.h, and the interrupt part of chBootToApp in orchard/esplanade_app.c).

    [vectors] holds the function pointers of the handlers, a C function being its
    address and NULL being 0; [nvic] the priority registers.  The functions the sketch
    installs are arguments of the handlers.

    Proved: NVIC_GetPriority reads back what NVIC_SetPriority wrote and no priority of
    another interrupt changes; and after chBootToApp every interrupt but the system
    call has the lowest priority. *)
From S2P Require Import Prelude.
Local Open Scope Z_scope.

(** ** Interrupt numbers (Arduino.h) *)

Definition PMC_IRQ : Z := 6.
Definition I2C0_IRQ : Z := 8.
Definition I2C_IRQ : Z := 9.
Definition SPI_IRQ : Z := 10.
Definition SERIAL_IRQ : Z := 12.
Definition ADC_IRQ : Z := 15.
Definition PWM0_IRQ : Z := 17.
Definition PWM1_IRQ : Z := 18.
Definition LPTMR_IRQ : Z := 28.
Definition PORTA_IRQ : Z := 30.
Definition PORTB_IRQ : Z := 31.

(** ** Handlers *)

(** The handler pointers: [fast_isr irq] is the one attachFastInterrupt sets
    ([spiFastISR] and so on), [isr irq] the one attachInterrupt sets. *)
Record vectors : Type := Vectors { fast_isr : Z -> Z; isr : Z -> Z }.

Definition vectors_bss : vectors := Vectors (fun _ => 0) (fun _ => 0).

Definition interrupt_numbers : list Z :=
  [PORTA_IRQ; PORTB_IRQ; PWM0_IRQ; PWM1_IRQ; ADC_IRQ; I2C_IRQ; SERIAL_IRQ; LPTMR_IRQ;
   I2C0_IRQ; SPI_IRQ; PMC_IRQ].

(** There is no case for the serial port. *)
Definition fast_interrupt_numbers : list Z :=
  [PORTA_IRQ; PORTB_IRQ; PWM0_IRQ; PWM1_IRQ; ADC_IRQ; I2C_IRQ; LPTMR_IRQ; I2C0_IRQ;
   SPI_IRQ; PMC_IRQ].

Definition set_vector (f : Z -> Z) (irq func : Z) : Z -> Z :=
  fun i => if i =? irq then func else f i.

Definition attachInterrupt (irq func : Z) (v : vectors) : vectors :=
  if existsb (Z.eqb irq) interrupt_numbers
  then Vectors (fast_isr v) (set_vector (isr v) irq func) else v.

Definition detachInterrupt (irq : Z) (v : vectors) : vectors := attachInterrupt irq 0 v.

Definition attachFastInterrupt (irq func : Z) (v : vectors) : vectors :=
  if existsb (Z.eqb irq) fast_interrupt_numbers
  then Vectors (set_vector (fast_isr v) irq func) (isr v) else v.

Definition detachFastInterrupt (irq : Z) (v : vectors) : vectors := attachFastInterrupt irq 0 v.

(** The body of the handlers of this file: [call_fast] and [call] run the function at
    an address. *)
Section Handlers.
Context {S : Type} (call_fast : Z -> S -> Z * S) (call : Z -> S -> S).

Definition irq_handler (irq : Z) (v : vectors) (s : S) : S :=
  let normal s := if negb (isr v irq =? 0) then call (isr v irq) s else s in
  if negb (fast_isr v irq =? 0) then
    let '(r, s) := call_fast (fast_isr v irq) s in
    if r =? 0 then s else normal s
  else normal s.

Definition Vector68 : vectors -> S -> S := irq_handler SPI_IRQ.
Definition Vector60 : vectors -> S -> S := irq_handler I2C0_IRQ.
Definition Vector58 : vectors -> S -> S := irq_handler PMC_IRQ.
End Handlers.

(** ** Priorities *)

Definition SVCall_IRQn : Z := -5.
Definition PendSV_IRQn : Z := -2.
Definition SysTick_IRQn : Z := -1.
Definition __NVIC_PRIO_BITS : Z := 2.
Definition CORTEX_NUM_VECTORS : nat := 32.

(** The words of the priority registers NVIC->IP and SCB->SHP. *)
Record nvic : Type := Nvic { IP : Z -> Z; SHP : Z -> Z }.

Definition _BIT_SHIFT (IRQn : Z) : Z := Z.land (u32 IRQn) 3 * 8.
Definition _SHP_IDX (IRQn : Z) : Z := Z.shiftr (u32 (Z.land (u32 IRQn) 15 - 8)) 2.
Definition _IP_IDX (IRQn : Z) : Z := Z.shiftr (u32 IRQn) 2.

Definition set_word (f : Z -> Z) (i w : Z) : Z -> Z := fun j => if j =? i then w else f j.

(** The new value of a priority word. *)
Definition prio_word (w s priority : Z) : Z :=
  u32 (Z.lor (Z.ldiff w (u32 (Z.shiftl 0xFF s)))
             (u32 (Z.shiftl (Z.land (u32 (Z.shiftl priority (8 - __NVIC_PRIO_BITS))) 0xFF) s))).

Definition NVIC_SetPriority (IRQn priority : Z) (n : nvic) : nvic :=
  let s := _BIT_SHIFT IRQn in
  if IRQn <? 0
  then Nvic (IP n) (set_word (SHP n) (_SHP_IDX IRQn)
                      (prio_word (SHP n (_SHP_IDX IRQn)) s priority))
  else Nvic (set_word (IP n) (_IP_IDX IRQn)
               (prio_word (IP n (_IP_IDX IRQn)) s priority)) (SHP n).

Definition NVIC_GetPriority (IRQn : Z) (n : nvic) : Z :=
  let w := if IRQn <? 0 then SHP n (_SHP_IDX IRQn) else IP n (_IP_IDX IRQn) in
  Z.shiftr (Z.land (Z.shiftr w (_BIT_SHIFT IRQn)) 0xFF) (8 - __NVIC_PRIO_BITS).

Definition setInterruptPriority (irq priority : Z) (n : nvic) : nvic :=
  NVIC_SetPriority irq priority n.

(** [for (irq_num = 0; irq_num < CORTEX_NUM_VECTORS; irq_num++)]; [k] are left. *)
Fixpoint lower_priorities (k : nat) (irq_num : Z) (n : nvic) : nvic :=
  match k with
  | O => n
  | Datatypes.S k =>
      lower_priorities k (irq_num + 1)
        (if NVIC_GetPriority irq_num n <? 3 then NVIC_SetPriority irq_num 3 n else n)
  end.

Definition boot_priorities (n : nvic) : nvic :=
  let n := NVIC_SetPriority SVCall_IRQn 0 n in
  let n := NVIC_SetPriority PendSV_IRQn 3 n in
  let n := NVIC_SetPriority SysTick_IRQn 3 n in
  lower_priorities CORTEX_NUM_VECTORS 0 n.

(** ** Lemmas *)

(** The interrupts of the device: the system exceptions and the vectors. *)
Definition is_irq (i : Z) : Prop := -5 <= i < 32.

(** Byte [s / 8] of a priority word. *)
Definition prio_byte (w s : Z) : Z := Z.shiftr (Z.land (Z.shiftr w s) 0xFF) 6.

Lemma prio_byte_bit w s i : 0 <= s -> 0 <= i ->
  Z.testbit (prio_byte w s) i = (i <? 2) && Z.testbit w (i + 6 + s).
Proof.
  intros Hs Hi. unfold prio_byte. rewrite Z.shiftr_spec, Z.land_spec, Z.shiftr_spec by lia.
  change 255 with (Z.ones 8). rewrite Z.testbit_ones_nonneg by lia.
  replace (i + 6 <? 8) with (i <? 2) by lia. apply andb_comm.
Qed.

Lemma testbit_u32 z i : 0 <= i -> Z.testbit (u32 z) i = (i <? 32) && Z.testbit z i.
Proof.
  intros Hi. unfold u32. destruct (i <? 32) eqn:E; cbn [andb].
  - apply Z.mod_pow2_bits_low. lia.
  - apply Z.mod_pow2_bits_high. lia.
Qed.

Lemma ones8_shifted_bit s i : 0 <= s -> 0 <= i ->
  Z.testbit (Z.shiftl 255 s) i = (s <=? i) && (i <? s + 8).
Proof.
  intros Hs Hi. rewrite Z.shiftl_spec by lia. change 255 with (Z.ones 8).
  destruct (s <=? i) eqn:E; cbn [andb].
  - rewrite Z.testbit_ones_nonneg by lia. lia.
  - apply Z.testbit_neg_r. lia.
Qed.

(** The bits of a priority word: those of the addressed byte come from the priority,
    the others from the old word. *)
Lemma prio_word_bit w s p i : 0 <= s <= 24 -> 0 <= i < 32 ->
  Z.testbit (prio_word w s p) i
  = if (s <=? i) && (i <? s + 8) then (6 <=? i - s) && Z.testbit p (i - s - 6)
    else Z.testbit w i.
Proof.
  intros Hs Hi. unfold prio_word, __NVIC_PRIO_BITS. change (8 - 2) with 6.
  rewrite testbit_u32, Z.lor_spec, Z.ldiff_spec, !testbit_u32, ones8_shifted_bit by lia.
  replace (i <? 32) with true by lia. cbn [andb].
  rewrite (Z.shiftl_spec _ s i) by lia.
  destruct (s <=? i) eqn:Es; cbn [andb negb].
  - rewrite Z.land_spec, testbit_u32 by lia. change 255 with (Z.ones 8).
    rewrite Z.testbit_ones_nonneg by lia.
    replace (i - s <? 32) with true by lia. cbn [andb].
    replace (i <? s + 8) with (i - s <? 8) by lia.
    destruct (i - s <? 8) eqn:E8; cbn [negb andb].
    + rewrite andb_false_r, andb_true_r. cbn [orb]. rewrite Z.shiftl_spec by lia.
      destruct (6 <=? i - s) eqn:E6; [done|]. apply Z.testbit_neg_r. lia.
    + by rewrite andb_false_r, andb_true_r, orb_false_r.
  - rewrite andb_true_r, (Z.testbit_neg_r _ (i - s)) by lia. apply orb_false_r.
Qed.

Lemma prio_byte_same w s p : 0 <= s <= 24 -> prio_byte (prio_word w s p) s = Z.land p 3.
Proof.
  intros Hs. apply Z.bits_inj'. intros i Hi.
  rewrite prio_byte_bit, Z.land_spec by lia. change 3 with (Z.ones 2).
  rewrite Z.testbit_ones_nonneg by lia. rewrite andb_comm.
  destruct (i <? 2) eqn:E; [|by rewrite !andb_false_r]. rewrite !andb_true_r.
  rewrite prio_word_bit, in_range by lia.
  replace (6 <=? i + 6 + s - s) with true by lia. cbn [andb]. f_equal. lia.
Qed.

Lemma prio_byte_other w s s' p :
  0 <= s <= 24 -> 0 <= s' <= 24 -> (s' + 8 <= s \/ s + 8 <= s') ->
  prio_byte (prio_word w s p) s' = prio_byte w s'.
Proof.
  intros Hs Hs' Hd. apply Z.bits_inj'. intros i Hi. rewrite !prio_byte_bit by lia.
  destruct (i <? 2) eqn:E; [|done]. cbn [andb].
  by rewrite prio_word_bit, out_of_range by lia.
Qed.

Lemma get_priority n i :
  NVIC_GetPriority i n = prio_byte (if i <? 0 then SHP n (_SHP_IDX i) else IP n (_IP_IDX i))
                           (_BIT_SHIFT i).
Proof. done. Qed.

Lemma bit_shift_range i : 0 <= _BIT_SHIFT i <= 24.
Proof. unfold _BIT_SHIFT. assert (H := land_range 2 (u32 i) 3 ltac:(lia) ltac:(lia)). lia. Qed.

(** The registers of two different interrupts of the device: another word, or another
    byte of the word. *)
Definition same_word_other_byte_b : bool :=
  let irqs := map (fun k => Z.of_nat k - 5) (seq 0 37) in
  forallb (fun i => forallb (fun j =>
    if i =? j then true
    else if eqb (i <? 0) (j <? 0)
            && ((if i <? 0 then _SHP_IDX i else _IP_IDX i)
                =? (if j <? 0 then _SHP_IDX j else _IP_IDX j))
    then (_BIT_SHIFT j + 8 <=? _BIT_SHIFT i) || (_BIT_SHIFT i + 8 <=? _BIT_SHIFT j)
    else true) irqs) irqs.

Lemma is_irq_in i : is_irq i -> In i (map (fun k => Z.of_nat k - 5) (seq 0 37)).
Proof.
  intros [? ?]. apply in_map_iff. exists (Z.to_nat (i + 5)). split; [lia|].
  apply in_seq. lia.
Qed.

Lemma registers_distinct i j : is_irq i -> is_irq j -> i <> j ->
  (i <? 0) = (j <? 0) ->
  (if i <? 0 then _SHP_IDX i else _IP_IDX i) = (if j <? 0 then _SHP_IDX j else _IP_IDX j) ->
  _BIT_SHIFT j + 8 <= _BIT_SHIFT i \/ _BIT_SHIFT i + 8 <= _BIT_SHIFT j.
Proof.
  intros Hi%is_irq_in Hj%is_irq_in Hne Hsgn Hidx.
  assert (H : same_word_other_byte_b = true) by (vm_compute; reflexivity).
  unfold same_word_other_byte_b in H. rewrite forallb_forall in H.
  specialize (H i Hi). rewrite forallb_forall in H. specialize (H j Hj).
  cbv beta in H. rewrite (proj2 (Z.eqb_neq i j) Hne), Hsgn, eqb_reflx in H. cbn [andb] in H.
  rewrite Hsgn in Hidx. rewrite Hidx, Z.eqb_refl in H. lia.
Qed.

Lemma get_set_same n i p : NVIC_GetPriority i (NVIC_SetPriority i p n) = Z.land p 3.
Proof.
  rewrite get_priority. unfold NVIC_SetPriority, set_word. assert (H := bit_shift_range i).
  destruct (i <? 0); cbn [SHP IP]; rewrite Z.eqb_refl; by apply prio_byte_same.
Qed.

Lemma get_set_other n i j p : is_irq i -> is_irq j -> i <> j ->
  NVIC_GetPriority j (NVIC_SetPriority i p n) = NVIC_GetPriority j n.
Proof.
  intros Hi Hj Hne. rewrite !get_priority. unfold NVIC_SetPriority, set_word.
  assert (Hsi := bit_shift_range i). assert (Hsj := bit_shift_range j).
  assert (Hd := registers_distinct i j Hi Hj Hne).
  destruct (i <? 0), (j <? 0); cbn [SHP IP]; try done;
    case_match eqn:E; try done; apply Z.eqb_eq in E;
    rewrite E; apply prio_byte_other; try done; apply Hd; congruence.
Qed.

Lemma get_range n i : 0 <= NVIC_GetPriority i n <= 3.
Proof.
  rewrite get_priority. unfold prio_byte.
  assert (H := land_range 8 (Z.shiftr (if i <? 0 then SHP n (_SHP_IDX i) else IP n (_IP_IDX i))
                               (_BIT_SHIFT i)) 255 ltac:(lia) ltac:(lia)).
  rewrite Z.shiftr_div_pow2 by lia. change (2 ^ 6) with 64. change (2 ^ 8) with 256 in H.
  Z.div_mod_to_equations. lia.
Qed.

Lemma lower_priorities_spec k : forall i n, 0 <= i -> i + Z.of_nat k <= 32 ->
  (forall j, i <= j < i + Z.of_nat k -> NVIC_GetPriority j (lower_priorities k i n) = 3) /\
  (forall j, is_irq j -> j < i \/ i + Z.of_nat k <= j ->
     NVIC_GetPriority j (lower_priorities k i n) = NVIC_GetPriority j n).
Proof.
  induction k as [|k IH]; intros i n Hi Hk; cbn [lower_priorities].
  { split; [intros; lia|done]. }
  set (n1 := if NVIC_GetPriority i n <? 3 then _ else _).
  assert (H1 : NVIC_GetPriority i n1 = 3).
  { unfold n1. destruct (NVIC_GetPriority i n <? 3) eqn:E; [by rewrite get_set_same|].
    assert (H := get_range n i). lia. }
  assert (Ho : forall j, is_irq j -> i <> j -> NVIC_GetPriority j n1 = NVIC_GetPriority j n).
  { intros j Hj Hne. unfold n1. case_match; [|done]. apply get_set_other; try done.
    unfold is_irq. lia. }
  destruct (IH (i + 1) n1) as [Hin Hout]; [lia|lia|]. split.
  - intros j Hj. destruct (decide (j = i)) as [->|].
    + rewrite Hout; [done|unfold is_irq; lia|lia].
    + apply Hin. lia.
  - intros j Hj Hr. rewrite Hout by (done || lia). apply Ho; [done|lia].
Qed.

(** Whatever the priorities were, the interrupt set-up of chBootToApp leaves the
    system call alone at the highest priority (0): every peripheral interrupt, PendSV
    and SysTick have the lowest one (3), so that a system call made from an interrupt
    handler of the sketch is always taken. *)
Theorem boot_priorities_spec n i :
  is_irq i -> i = SVCall_IRQn \/ i = PendSV_IRQn \/ i = SysTick_IRQn \/ 0 <= i ->
  NVIC_GetPriority i (boot_priorities n) = if i =? SVCall_IRQn then 0 else 3.
Proof.
  intros Hi Hc. unfold boot_priorities.
  destruct (lower_priorities_spec CORTEX_NUM_VECTORS 0
              (NVIC_SetPriority SysTick_IRQn 3 (NVIC_SetPriority PendSV_IRQn 3
                 (NVIC_SetPriority SVCall_IRQn 0 n)))) as [Hin Hout]; [lia|done|].
  change (Z.of_nat CORTEX_NUM_VECTORS) with 32 in *.
  unfold is_irq, SVCall_IRQn, PendSV_IRQn, SysTick_IRQn in *.
  destruct Hc as [->|[->|[->|Hc]]].
  1-3: rewrite Hout by lia; rewrite ?get_set_other by (unfold is_irq; lia);
       rewrite get_set_same; reflexivity.
  rewrite Hin by lia. by rewrite (proj2 (Z.eqb_neq _ _)) by lia.
Qed.

Lemma boot_priorities_spec_witness :
  NVIC_GetPriority ADC_IRQ (boot_priorities (Nvic (fun _ => 0x40404040) (fun _ => 0))) = 3.
Proof.
  refine (boot_priorities_spec (Nvic (fun _ => 0x40404040) (fun _ => 0)) ADC_IRQ _ _);
    unfold is_irq, ADC_IRQ; lia.
Defined.
