(* ===== verification/Timers.v ===== *)
(** Virtual timers of the kernel (os/rt/src/chvt.c, os/rt/include/chvt.h, with
    CH_CFG_ST_TIMEDELTA = 0 as in orchard/chconf.h).

    [vtimers] is the memory of the timer structures: a circular doubly linked list,
    sorted by expiry, in which every timer holds the delay to the one before it.  Time
    is a 32-bit counter.  A callback is a program of timer calls ([prog]), which the
    tick runs as the code does, with the expired timer already unlinked and the others
    possibly still waiting with a delta of zero.

    The specification is a list of timers with the number of ticks each has left
    ([spec_run]); the linked list refines it.  Proved from there: a timer fires at
    exactly its delay whatever happens to the other timers, once, and a timer that is
    armed with a delay of zero stops all timers for 2^32 - 1 ticks. *)
From S2P Require Import Prelude.
Local Open Scope Z_scope.

(** ** The timers *)

Record vt_node : Type := VtNode {
  vt_next : Z; vt_prev : Z; vt_delta : Z; vt_func : Z; vt_par : Z
}.

(** The header [ch.vtlist] is the node at the address [vtlist]; NULL is 0 too, but no
    link is ever compared with it. *)
Definition vtlist : Z := 0.
Definition NULL : Z := 0.

Record vtimers : Type := VT { node : Z -> vt_node; vt_systime : Z }.

Definition set_node (a : Z) (f : vt_node -> vt_node) (s : vtimers) : vtimers :=
  VT (fun x => if x =? a then f (node s a) else node s x) (vt_systime s).

Definition set_next a v := set_node a (fun n => VtNode v (vt_prev n) (vt_delta n) (vt_func n) (vt_par n)).
Definition set_prev a v := set_node a (fun n => VtNode (vt_next n) v (vt_delta n) (vt_func n) (vt_par n)).
Definition set_delta a v := set_node a (fun n => VtNode (vt_next n) (vt_prev n) v (vt_func n) (vt_par n)).
Definition set_func a v := set_node a (fun n => VtNode (vt_next n) (vt_prev n) (vt_delta n) v (vt_par n)).
Definition set_par a v := set_node a (fun n => VtNode (vt_next n) (vt_prev n) (vt_delta n) (vt_func n) v).

Definition next s a := vt_next (node s a).
Definition prev s a := vt_prev (node s a).
Definition delta s a := vt_delta (node s a).
Definition func s a := vt_func (node s a).
Definition par s a := vt_par (node s a).

Definition _vt_init (s : vtimers) : vtimers :=
  let s := set_delta vtlist (u32 (-1)) (set_prev vtlist vtlist (set_next vtlist vtlist s)) in
  VT (node s) 0.

Definition chVTObjectInit (vtp : Z) (s : vtimers) : vtimers := set_func vtp NULL s.

Definition chVTGetSystemTimeX (s : vtimers) : Z := vt_systime s.

(** [while (p->vt_delta < delta)]. *)
Fixpoint scan (fuel : nat) (s : vtimers) (p d : Z) : option (Z * Z) :=
  match fuel with
  | O => None
  | S fuel => if delta s p <? d then scan fuel s (next s p) (u32 (d - delta s p)) else Some (p, d)
  end.

Definition chVTDoSetI (fuel : nat) (vtp delay vtfunc vtpar : Z) (s : vtimers) : option vtimers :=
  let s := set_par vtp vtpar s in
  let s := set_func vtp vtfunc s in
  match scan fuel s (next s vtlist) delay with
  | None => None
  | Some (p, d) =>
      let s := set_next vtp p s in
      let s := set_prev vtp (prev s (next s vtp)) s in
      let s := set_next (prev s vtp) vtp s in
      let s := set_prev p vtp s in
      let s := set_delta vtp d s in
      let s := set_delta p (u32 (delta s p - d)) s in
      Some (set_delta vtlist (u32 (-1)) s)
  end.

Definition chVTDoResetI (vtp : Z) (s : vtimers) : vtimers :=
  let s := set_delta (next s vtp) (u32 (delta s (next s vtp) + delta s vtp)) s in
  let s := set_next (prev s vtp) (next s vtp) s in
  let s := set_prev (next s vtp) (prev s vtp) s in
  let s := set_func vtp NULL s in
  set_delta vtlist (u32 (-1)) s.

Definition chVTIsArmedI (vtp : Z) (s : vtimers) : bool := negb (func s vtp =? NULL).

Definition chVTResetI (vtp : Z) (s : vtimers) : vtimers :=
  if chVTIsArmedI vtp s then chVTDoResetI vtp s else s.

Definition chVTSetI (fuel : nat) (vtp delay vtfunc vtpar : Z) (s : vtimers) : option vtimers :=
  chVTDoSetI fuel vtp delay vtfunc vtpar (chVTResetI vtp s).

(** The forms of the API that take the system lock. *)
Definition chVTReset := chVTResetI.
Definition chVTSet := chVTSetI.

Definition chVTTimeElapsedSinceX (start : Z) (s : vtimers) : Z :=
  u32 (chVTGetSystemTimeX s - start).
Definition chVTIsTimeWithinX (time start end_ : Z) : bool :=
  u32 (time - start) <? u32 (end_ - start).
Definition chVTIsSystemTimeWithinX (start end_ : Z) (s : vtimers) : bool :=
  chVTIsTimeWithinX (chVTGetSystemTimeX s) start end_.
Definition chVTGetTimersStateI (s : vtimers) : option Z :=
  if vtlist =? next s vtlist then None else Some (delta s (next s vtlist)).

(** ** The tick

    [callback fn par] is what the function at [fn] does to the timers and to the rest
    [S] of the state. *)
Section Tick.
Context {S : Type} (callback : Z -> Z -> vtimers * S -> option (vtimers * S)).

(** [while (ch.vtlist.vt_next->vt_delta == 0)]; the timers that fired are listed. *)
Fixpoint fire_loop (fuel : nat) (st : vtimers * S) : option (vtimers * S * list (Z * Z * Z)) :=
  match fuel with
  | O => None
  | Datatypes.S fuel =>
      let '(s, x) := st in
      let vtp := next s vtlist in
      if delta s vtp =? 0 then
        let fn := func s vtp in
        let s := set_func vtp NULL s in
        let s := set_prev (next s vtp) vtlist s in
        let s := set_next vtlist (next s vtp) s in
        match callback fn (par s vtp) (s, x) with
        | None => None
        | Some st =>
            match fire_loop fuel st with
            | None => None
            | Some (st, fired) => Some (st, (vtp, fn, par s vtp) :: fired)
            end
        end
      else Some (st, [])
  end.

Definition chVTDoTickI (fuel : nat) (st : vtimers * S) : option (vtimers * S * list (Z * Z * Z)) :=
  let '(s, x) := st in
  let s := VT (node s) (u32 (vt_systime s + 1)) in
  if negb (vtlist =? next s vtlist) then
    let first := next s vtlist in
    fire_loop fuel (set_delta first (u32 (delta s first - 1)) s, x)
  else Some ((s, x), []).
End Tick.

(** ** Programs of timer calls *)

Inductive vt_call : Type :=
| CallSet (vtp delay fn par : Z)
| CallReset (vtp : Z).

Definition run_call (fuel : nat) (c : vt_call) (s : vtimers) : option vtimers :=
  match c with
  | CallSet vtp delay fn par => chVTSet fuel vtp delay fn par s
  | CallReset vtp => Some (chVTReset vtp s)
  end.

Fixpoint run_calls (fuel : nat) (cs : list vt_call) (s : vtimers) : option vtimers :=
  match cs with
  | [] => Some s
  | c :: cs => match run_call fuel c s with None => None | Some s => run_calls fuel cs s end
  end.

(** What happens to the timers: a call of a thread, or a tick. *)
Inductive vt_event : Type :=
| EvCall (c : vt_call)
| EvTick.

Section Run.
(** The calls the callback at [fn] makes. *)
Context (prog : Z -> Z -> list vt_call).

Definition vt_callback (fuel : nat) (fn par : Z) (st : vtimers * unit) : option (vtimers * unit) :=
  match run_calls fuel (prog fn par) (fst st) with None => None | Some s => Some (s, tt) end.

(** The timers that fired, each with the number of the tick that fired it. *)
Fixpoint run (fuel : nat) (now : Z) (evs : list vt_event) (s : vtimers)
    : option (vtimers * list (Z * (Z * Z * Z))) :=
  match evs with
  | [] => Some (s, [])
  | EvCall c :: evs =>
      match run_call fuel c s with None => None | Some s => run fuel now evs s end
  | EvTick :: evs =>
      match chVTDoTickI (vt_callback fuel) fuel (s, tt) with
      | None => None
      | Some ((s, _), fired) =>
          match run fuel (now + 1) evs s with
          | None => None
          | Some (s, log) => Some (s, map (pair (now + 1)) fired ++ log)
          end
      end
  end.

(** ** The specification: a list of timers, in the order in which they will fire *)

Record timer : Type := Timer { t_id : Z; t_left : Z; t_func : Z; t_par : Z }.

Fixpoint spec_insert (x : timer) (l : list timer) : list timer :=
  match l with
  | [] => [x]
  | y :: l' => if t_left y <? t_left x then y :: spec_insert x l' else x :: l
  end.

Definition spec_reset (id : Z) (l : list timer) : list timer :=
  List.filter (fun t => negb (t_id t =? id)) l.

Definition spec_call (l : list timer) (c : vt_call) : list timer :=
  match c with
  | CallSet id delay fn par => spec_insert (Timer id delay fn par) (spec_reset id l)
  | CallReset id => spec_reset id l
  end.

Definition age (k : Z) (l : list timer) : list timer :=
  map (fun t => Timer (t_id t) (t_left t - k) (t_func t) (t_par t)) l.

Fixpoint spec_fire (fuel : nat) (l : list timer) : option (list timer * list (Z * Z * Z)) :=
  match fuel with
  | O => None
  | S fuel =>
      match l with
      | t :: l' =>
          if t_left t =? 0 then
            match spec_fire fuel (fold_left spec_call (prog (t_func t) (t_par t)) l') with
            | None => None
            | Some (l2, fired) => Some (l2, (t_id t, t_func t, t_par t) :: fired)
            end
          else Some (l, [])
      | [] => Some ([], [])
      end
  end.

Fixpoint spec_run (fuel : nat) (now : Z) (evs : list vt_event) (l : list timer)
    : option (list timer * list (Z * (Z * Z * Z))) :=
  match evs with
  | [] => Some (l, [])
  | EvCall c :: evs => spec_run fuel now evs (spec_call l c)
  | EvTick :: evs =>
      match spec_fire fuel (age 1 l) with
      | None => None
      | Some (l, fired) =>
          match spec_run fuel (now + 1) evs l with
          | None => None
          | Some (l, log) => Some (l, map (pair (now + 1)) fired ++ log)
          end
      end
  end.
End Run.

(** ** Doubly linked lists *)

Fixpoint links (n : Z -> vt_node) (a : Z) (l : list Z) (b : Z) : Prop :=
  match l with
  | [] => vt_next (n a) = b /\ vt_prev (n b) = a
  | x :: r => vt_next (n a) = x /\ vt_prev (n x) = a /\ links n x r b
  end.

Fixpoint last_or (a : Z) (l : list Z) : Z :=
  match l with [] => a | x :: r => last_or x r end.
Definition first_or (b : Z) (l : list Z) : Z :=
  match l with [] => b | x :: _ => x end.

Lemma last_or_in a l : last_or a l = a \/ In (last_or a l) l.
Proof.
  revert a. induction l as [|x l IH]; intros a; cbn; [by left|].
  right. destruct (IH x) as [->|H]; auto.
Qed.

Lemma last_or_snoc a l x : last_or a (l ++ [x]) = x.
Proof. revert a. induction l as [|y l IH]; intros a; [done|apply IH]. Qed.

Lemma first_or_in b l : first_or b l = b \/ In (first_or b l) l.
Proof. destruct l; cbn; auto. Qed.

Lemma links_frame n n' a l b :
  (forall x, x = a \/ In x l -> vt_next (n' x) = vt_next (n x)) ->
  (forall x, In x l \/ x = b -> vt_prev (n' x) = vt_prev (n x)) ->
  links n a l b -> links n' a l b.
Proof.
  revert a. induction l as [|x l IH]; intros a Hn Hp; cbn.
  - intros [<- Hb]. rewrite Hn, Hp by auto. auto.
  - intros (Ha & Hx & H). rewrite (Hn a), (Hp x) by (cbn; auto).
    split_and!; [done|done|]. apply IH; [| |done].
    + intros y [->|Hy]; apply Hn; cbn; auto.
    + intros y [Hy| ->]; apply Hp; cbn; auto.
Qed.

Lemma links_ends n a l1 l2 b :
  links n a (l1 ++ l2) b ->
  vt_next (n (last_or a l1)) = first_or b l2 /\ vt_prev (n (first_or b l2)) = last_or a l1.
Proof.
  revert a. induction l1 as [|x l1 IH]; intros a; cbn.
  - destruct l2; cbn; tauto.
  - intros (_ & _ & H). by apply IH.
Qed.

(** Decides the address comparisons that come out false. *)
Ltac eqb_false :=
  repeat match goal with
         | |- context [?u =? ?v] => rewrite (proj2 (Z.eqb_neq u v)) by naive_solver
         end.

(** Linking [x] between [l1] and [l2]. *)
Lemma links_insert n n' x l1 : forall l2 a b,
  links n a (l1 ++ l2) b ->
  NoDup (l1 ++ l2) -> ~ In a (l1 ++ l2) -> ~ In b (l1 ++ l2) ->
  ~ In x (l1 ++ l2) -> x <> a -> x <> b ->
  (forall y, vt_next (n' y) = if y =? last_or a l1 then x
                              else if y =? x then first_or b l2 else vt_next (n y)) ->
  (forall y, vt_prev (n' y) = if y =? first_or b l2 then x
                              else if y =? x then last_or a l1 else vt_prev (n y)) ->
  links n' a (l1 ++ x :: l2) b.
Proof.
  induction l1 as [|y l1 IH]; intros l2 a b Hl Hnd Ha Hb Hx Hxa Hxb Hn Hp; cbn in *.
  - rewrite (Hn a), Z.eqb_refl. rewrite (Hp x), Z.eqb_refl.
    assert (Hf : x <> first_or b l2) by (destruct (first_or_in b l2); congruence).
    rewrite (proj2 (Z.eqb_neq _ _) Hf). split_and!; [done|done|].
    destruct l2 as [|z l2]; cbn in *.
    + rewrite Hn, Hp, !Z.eqb_refl, (proj2 (Z.eqb_neq _ _) Hxa). auto.
    + rewrite (Hn x), (Hp z), !Z.eqb_refl, (proj2 (Z.eqb_neq _ _) Hxa).
      split_and!; [done|done|]. apply NoDup_cons_1_1 in Hnd as Hz. apply NoDup_cons_1_2 in Hnd.
      rewrite list_elem_of_In in Hz. eapply links_frame; [| |apply Hl]; intros w Hw.
      * rewrite Hn. by eqb_false.
      * rewrite Hp. by eqb_false.
  - apply NoDup_cons_1_1 in Hnd as Hy. apply NoDup_cons_1_2 in Hnd.
    rewrite list_elem_of_In in Hy. destruct Hl as (Hl1 & Hl2 & Hl).
    assert (Hla : a <> last_or y l1).
    { destruct (last_or_in y l1) as [->|H]; [naive_solver|].
      intros ->. apply Ha. right. apply in_or_app. auto. }
    assert (Hyf : y <> first_or b l2).
    { destruct (first_or_in b l2) as [->|H]; [naive_solver|].
      intros ->. apply Hy. apply in_or_app. auto. }
    rewrite (Hn a), (Hp y).
    rewrite (proj2 (Z.eqb_neq _ _) Hla), (proj2 (Z.eqb_neq _ _) Hyf).
    rewrite (proj2 (Z.eqb_neq a x)) by congruence.
    rewrite (proj2 (Z.eqb_neq y x)) by naive_solver.
    split_and!; [done|done|]. apply IH; auto; naive_solver.
Qed.

(** Unlinking [x]. *)
Lemma links_remove n n' x l1 : forall l2 a b,
  links n a (l1 ++ x :: l2) b ->
  NoDup (l1 ++ x :: l2) -> ~ In a (l1 ++ x :: l2) -> ~ In b (l1 ++ x :: l2) ->
  (forall y, y <> x ->
     vt_next (n' y) = if y =? last_or a l1 then first_or b l2 else vt_next (n y)) ->
  (forall y, y <> x ->
     vt_prev (n' y) = if y =? first_or b l2 then last_or a l1 else vt_prev (n y)) ->
  links n' a (l1 ++ l2) b.
Proof.
  induction l1 as [|y l1 IH]; intros l2 a b Hl Hnd Ha Hb Hn Hp; cbn in *.
  - apply NoDup_cons_1_1 in Hnd as Hx. apply NoDup_cons_1_2 in Hnd.
    rewrite list_elem_of_In in Hx. destruct Hl as (Hl1 & Hl2 & Hl).
    destruct l2 as [|z l2]; cbn in *.
    + rewrite Hn, Hp, !Z.eqb_refl by (intros ->; tauto). done.
    + rewrite Hn, Hp, !Z.eqb_refl by (intros ->; tauto). split_and!; [done|done|].
      apply NoDup_cons_1_1 in Hnd as Hz. rewrite list_elem_of_In in Hz.
      destruct Hl as (_ & _ & Hl).
      eapply links_frame; [| |apply Hl]; intros w Hw.
      * rewrite Hn by (intros ->; naive_solver).
        by eqb_false.
      * rewrite Hp by (intros ->; naive_solver).
        by eqb_false.
  - apply NoDup_cons_1_1 in Hnd as Hy. apply NoDup_cons_1_2 in Hnd.
    rewrite list_elem_of_In in Hy. destruct Hl as (Hl1 & Hl2 & Hl).
    rewrite in_app_iff in Ha, Hb, Hy. cbn in Ha, Hb, Hy.
    assert (Hla : a <> last_or y l1).
    { destruct (last_or_in y l1) as [->|H]; [naive_solver|]. intros ->. tauto. }
    assert (Hyf : y <> first_or b l2).
    { destruct (first_or_in b l2) as [->|H]; [naive_solver|]. intros ->. tauto. }
    rewrite (Hn a), (Hp y) by naive_solver.
    rewrite (proj2 (Z.eqb_neq _ _) Hla), (proj2 (Z.eqb_neq _ _) Hyf).
    split_and!; [done|done|]. apply IH; auto; rewrite in_app_iff; cbn; naive_solver.
Qed.

(** ** The refinement relation *)

Abbreviation ids l := (map t_id l).

(** Every timer of the list holds its delay to the one before it. *)
Fixpoint deltas (n : Z -> vt_node) (base : Z) (l : list timer) : Prop :=
  match l with
  | [] => True
  | t :: l => is_u32 (t_left t - base) /\ vt_delta (n (t_id t)) = t_left t - base
              /\ deltas n (t_left t) l
  end.

Record implements (s : vtimers) (l : list timer) : Prop := {
  im_links : links (node s) vtlist (ids l) vtlist;
  im_nodup : NoDup (ids l);
  im_header : ~ In vtlist (ids l);
  im_deltas : deltas (node s) 0 l;
  im_header_delta : delta s vtlist = 4294967295;
  im_fields : forall t, In t l -> func s (t_id t) = t_func t /\ par s (t_id t) = t_par t
                                  /\ t_func t <> NULL;
  im_unarmed : forall id, id <> vtlist -> ~ In id (ids l) -> func s id = NULL
}.

Lemma next_set_node a f s x : next (set_node a f s) x = if x =? a then vt_next (f (node s a)) else next s x.
Proof. unfold next, set_node. cbn [node]. by destruct (x =? a). Qed.
Lemma prev_set_node a f s x : prev (set_node a f s) x = if x =? a then vt_prev (f (node s a)) else prev s x.
Proof. unfold prev, set_node. cbn [node]. by destruct (x =? a). Qed.
Lemma delta_set_node a f s x : delta (set_node a f s) x = if x =? a then vt_delta (f (node s a)) else delta s x.
Proof. unfold delta, set_node. cbn [node]. by destruct (x =? a). Qed.
Lemma func_set_node a f s x : func (set_node a f s) x = if x =? a then vt_func (f (node s a)) else func s x.
Proof. unfold func, set_node. cbn [node]. by destruct (x =? a). Qed.
Lemma par_set_node a f s x : par (set_node a f s) x = if x =? a then vt_par (f (node s a)) else par s x.
Proof. unfold par, set_node. cbn [node]. by destruct (x =? a). Qed.

(** One field of a node after a write of the same or of another field. *)
Ltac field_other :=
  first [rewrite next_set_node|rewrite prev_set_node|rewrite delta_set_node
        |rewrite func_set_node|rewrite par_set_node];
  cbn [vt_next vt_prev vt_delta vt_func vt_par];
  match goal with |- context [?x =? ?a] => by destruct (Z.eqb_spec x a) as [->|] end.

Lemma next_set_next a v s x : next (set_next a v s) x = if x =? a then v else next s x.
Proof. apply next_set_node. Qed.
Lemma next_set_prev a v s x : next (set_prev a v s) x = next s x.
Proof. unfold set_prev. field_other. Qed.
Lemma next_set_delta a v s x : next (set_delta a v s) x = next s x.
Proof. unfold set_delta. field_other. Qed.
Lemma next_set_func a v s x : next (set_func a v s) x = next s x.
Proof. unfold set_func. field_other. Qed.
Lemma next_set_par a v s x : next (set_par a v s) x = next s x.
Proof. unfold set_par. field_other. Qed.
Lemma prev_set_prev a v s x : prev (set_prev a v s) x = if x =? a then v else prev s x.
Proof. apply prev_set_node. Qed.
Lemma prev_set_next a v s x : prev (set_next a v s) x = prev s x.
Proof. unfold set_next. field_other. Qed.
Lemma prev_set_delta a v s x : prev (set_delta a v s) x = prev s x.
Proof. unfold set_delta. field_other. Qed.
Lemma prev_set_func a v s x : prev (set_func a v s) x = prev s x.
Proof. unfold set_func. field_other. Qed.
Lemma prev_set_par a v s x : prev (set_par a v s) x = prev s x.
Proof. unfold set_par. field_other. Qed.
Lemma delta_set_delta a v s x : delta (set_delta a v s) x = if x =? a then v else delta s x.
Proof. apply delta_set_node. Qed.
Lemma delta_set_next a v s x : delta (set_next a v s) x = delta s x.
Proof. unfold set_next. field_other. Qed.
Lemma delta_set_prev a v s x : delta (set_prev a v s) x = delta s x.
Proof. unfold set_prev. field_other. Qed.
Lemma delta_set_func a v s x : delta (set_func a v s) x = delta s x.
Proof. unfold set_func. field_other. Qed.
Lemma delta_set_par a v s x : delta (set_par a v s) x = delta s x.
Proof. unfold set_par. field_other. Qed.
Lemma func_set_func a v s x : func (set_func a v s) x = if x =? a then v else func s x.
Proof. apply func_set_node. Qed.
Lemma func_set_next a v s x : func (set_next a v s) x = func s x.
Proof. unfold set_next. field_other. Qed.
Lemma func_set_prev a v s x : func (set_prev a v s) x = func s x.
Proof. unfold set_prev. field_other. Qed.
Lemma func_set_delta a v s x : func (set_delta a v s) x = func s x.
Proof. unfold set_delta. field_other. Qed.
Lemma func_set_par a v s x : func (set_par a v s) x = func s x.
Proof. unfold set_par. field_other. Qed.
Lemma par_set_par a v s x : par (set_par a v s) x = if x =? a then v else par s x.
Proof. apply par_set_node. Qed.
Lemma par_set_next a v s x : par (set_next a v s) x = par s x.
Proof. unfold set_next. field_other. Qed.
Lemma par_set_prev a v s x : par (set_prev a v s) x = par s x.
Proof. unfold set_prev. field_other. Qed.
Lemma par_set_delta a v s x : par (set_delta a v s) x = par s x.
Proof. unfold set_delta. field_other. Qed.
Lemma par_set_func a v s x : par (set_func a v s) x = par s x.
Proof. unfold set_func. field_other. Qed.

Create HintDb vt_fields.
#[export] Hint Rewrite next_set_next next_set_prev next_set_delta next_set_func next_set_par
  prev_set_prev prev_set_next prev_set_delta prev_set_func prev_set_par
  delta_set_delta delta_set_next delta_set_prev delta_set_func delta_set_par
  func_set_func func_set_next func_set_prev func_set_delta func_set_par
  par_set_par par_set_next par_set_prev par_set_delta par_set_func : vt_fields.
Ltac fields := autorewrite with vt_fields.

Lemma map_first_or l2 : first_or vtlist (ids l2) = match l2 with [] => vtlist | t :: _ => t_id t end.
Proof. by destruct l2. Qed.

(** The time of the last timer of [l]. *)
Fixpoint last_left (base : Z) (l : list timer) : Z :=
  match l with [] => base | t :: l => last_left (t_left t) l end.

Lemma deltas_app n l1 l2 base :
  deltas n base (l1 ++ l2) <-> deltas n base l1 /\ deltas n (last_left base l1) l2.
Proof.
  revert base. induction l1 as [|t l1 IH]; intros base; cbn; [tauto|]. rewrite IH. tauto.
Qed.

Lemma deltas_frame n n' l base :
  (forall id, In id (ids l) -> vt_delta (n' id) = vt_delta (n id)) ->
  deltas n base l -> deltas n' base l.
Proof.
  revert base. induction l as [|t l IH]; intros base H; cbn; [done|].
  intros (Hr & Hd & Hl). rewrite H by (cbn; auto). split; [done|split; [done|]].
  apply IH; [|done]. intros id Hid. apply H. by right.
Qed.

(** The timers are sorted by expiry. *)
Lemma deltas_last_le n l base : deltas n base l -> base <= last_left base l.
Proof.
  revert base. induction l as [|t l IH]; intros base; cbn; [lia|].
  intros (Hr & _ & Hl%IH). lia.
Qed.

(** The place where the scan of chVTDoSetI stops. *)
Lemma scan_spec s x : forall l base fuel,
  forall a, links (node s) a (ids l) vtlist -> deltas (node s) base l ->
  delta s vtlist = 4294967295 ->
  is_u32 (t_left x - base) -> (length l < fuel)%nat ->
  exists l1 l2, l = l1 ++ l2 /\ spec_insert x l = l1 ++ x :: l2 /\
    scan fuel s (next s a) (t_left x - base)
    = Some (first_or vtlist (ids l2), t_left x - last_left base l1) /\
    last_left base l1 <= t_left x /\
    match l2 with [] => True | t :: _ => t_left x <= t_left t end.
Proof.
  intros l. induction l as [|t l IH]; intros base fuel a Hl Hd Hh Hr Hf;
    (destruct fuel as [|fuel]; [cbn in Hf; lia|]); cbn [scan].
  - exists [], []. cbn in Hl. destruct Hl as [Hl _]. unfold next. rewrite Hl, Hh.
    replace (4294967295 <? t_left x - base) with false by lia.
    cbn. split_and!; [done|done|done|lia|done].
  - cbn in Hl, Hd. destruct Hl as (Hn & Hp & Hl), Hd as (Htr & Htd & Hd).
    fold (next s a) in Hn. fold (delta s (t_id t)) in Htd. rewrite Hn, Htd.
    destruct (t_left t - base <? t_left x - base) eqn:E.
    + destruct (IH (t_left t) fuel (t_id t) Hl Hd Hh) as (l1 & l2 & E1 & E2 & E3 & Hle & Hm);
        [lia|cbn in Hf; lia|].
      exists (t :: l1), l2. cbn [app spec_insert last_left]. rewrite E1 at 1.
      replace (t_left t <? t_left x) with true by lia. rewrite E2.
      split_and!; [done|done| |done|done].
      rewrite u32_id by lia.
      replace (t_left x - base - (t_left t - base)) with (t_left x - t_left t) by lia. done.
    + exists [], (t :: l). cbn.
      replace (t_left t <? t_left x) with false by lia.
      split_and!; [done|done|done|lia|lia].
Qed.

Lemma in_ids t l : In t l -> In (t_id t) (ids l).
Proof. apply in_map. Qed.

Lemma spec_insert_in x l t : In t (spec_insert x l) <-> t = x \/ In t l.
Proof.
  induction l as [|y l IH]; cbn; [naive_solver|].
  case_match; cbn; [rewrite IH|]; naive_solver.
Qed.

Lemma deltas_insert n n' l1 x l2 :
  deltas n 0 (l1 ++ l2) -> NoDup (ids (l1 ++ l2)) -> is_u32 (t_left x) ->
  last_left 0 l1 <= t_left x -> match l2 with [] => True | t :: _ => t_left x <= t_left t end ->
  vt_delta (n' (t_id x)) = t_left x - last_left 0 l1 ->
  (forall t, In t l1 -> vt_delta (n' (t_id t)) = vt_delta (n (t_id t))) ->
  match l2 with
  | [] => True
  | t :: r => vt_delta (n' (t_id t)) = vt_delta (n (t_id t)) - (t_left x - last_left 0 l1) /\
              forall u, In u r -> vt_delta (n' (t_id u)) = vt_delta (n (t_id u))
  end ->
  deltas n' 0 (l1 ++ x :: l2).
Proof.
  rewrite !deltas_app. intros [H1 H2] Hnd Hr Hle Hm Hx Hl1 Hl2.
  assert (H0 := deltas_last_le _ _ _ H1). split.
  - eapply deltas_frame; [|done]. intros id (t & <- & Ht)%in_map_iff. auto.
  - cbn. split; [lia|split; [done|]]. destruct l2 as [|t r]; cbn in *; [done|].
    destruct H2 as (Htr & Htd & H2), Hl2 as [Ht Hu]. split; [lia|split; [lia|]].
    eapply deltas_frame; [|done]. intros id (u & <- & Hin)%in_map_iff. auto.
Qed.

(** The state of a timer list after the links around a new timer are written. *)
Lemma chVTDoSetI_ok fuel x s l :
  implements s l -> ~ In (t_id x) (ids l) -> t_id x <> vtlist -> is_u32 (t_left x) ->
  t_func x <> NULL -> (length l < fuel)%nat ->
  exists s', chVTDoSetI fuel (t_id x) (t_left x) (t_func x) (t_par x) s = Some s' /\
    implements s' (spec_insert x l) /\ vt_systime s' = vt_systime s.
Proof.
  intros [Hl Hnd Hhd Hd Hhdd Hf Hu] Hx Hxv Hr Hfn Hfuel. unfold chVTDoSetI.
  set (s1 := set_func (t_id x) (t_func x) (set_par (t_id x) (t_par x) s)).
  assert (Hn1 : forall y, next s1 y = next s y) by (intros; unfold s1; by fields).
  assert (Hp1 : forall y, prev s1 y = prev s y) by (intros; unfold s1; by fields).
  assert (Hd1 : forall y, delta s1 y = delta s y) by (intros; unfold s1; by fields).
  assert (Hl1 : links (node s1) vtlist (ids l) vtlist) by (eapply links_frame; eauto).
  assert (Hdd1 : deltas (node s1) 0 l) by (eapply deltas_frame; eauto).
  destruct (scan_spec s1 x l 0 fuel vtlist Hl1 Hdd1) as (l1 & l2 & E1 & E2 & E3 & Hle & Hm);
    [by rewrite Hd1|lia|done|].
  rewrite Z.sub_0_r in E3. rewrite E3. subst l. rewrite E2.
  rewrite map_app in *. set (q := last_or vtlist (ids l1)) in *.
  set (p := first_or vtlist (ids l2)) in *.
  assert (Hends := links_ends _ _ _ _ _ Hl1). fold q p in Hends. destruct Hends as [Hqn Hpp].
  fold (next s1 q) in Hqn. fold (prev s1 p) in Hpp.
  assert (Hpx : p <> t_id x).
  { intros E. destruct (first_or_in vtlist (ids l2)) as [H|H]; fold p in H; [congruence|].
    apply Hx, in_or_app. rewrite <- E. auto. }
  assert (Hqx : q <> t_id x).
  { intros E. destruct (last_or_in vtlist (ids l1)) as [H|H]; fold q in H; [congruence|].
    apply Hx, in_or_app. rewrite <- E. auto. }
  assert (Hdisj : forall y, In y (ids l1) -> ~ In y (vtlist :: ids l2)).
  { intros y Hy [<-|Hy2]; [apply Hhd, in_or_app; auto|].
    apply list.NoDup_app in Hnd as (_ & Hnd & _). apply (Hnd y); by apply list_elem_of_In. }
  assert (Hpin : In p (vtlist :: ids l2)).
  { destruct (first_or_in vtlist (ids l2)) as [H|H]; fold p in H; cbn; auto. }
  assert (Epx := proj2 (Z.eqb_neq _ _) Hpx). assert (Eqx := proj2 (Z.eqb_neq _ _) Hqx).
  eexists. split; [reflexivity|].
  fields. rewrite !Z.eqb_refl, Epx, Hpp. fields.
  split; [|reflexivity]. constructor; rewrite ?map_app; cbn [map].
  - apply (links_insert (node s1)); fold q p; try done.
    + intros y. fold (next s1 y).
      match goal with |- vt_next (node ?s y) = _ => fold (next s y) end. by fields.
    + intros y. fold (prev s1 y).
      match goal with |- vt_prev (node ?s y) = _ => fold (prev s y) end. by fields.
  - rewrite <- Permutation_middle. constructor; [|done]. by rewrite list_elem_of_In.
  - rewrite in_app_iff in *. cbn. naive_solver.
  - apply (deltas_insert (node s1)); rewrite ?map_app; try done.
    + match goal with |- vt_delta (node ?s ?y) = _ => fold (delta s y) end. fields.
      by rewrite (proj2 (Z.eqb_neq _ _) Hxv), (Z.eqb_sym _ p), Epx, Z.eqb_refl.
    + intros t Ht%in_ids. match goal with |- vt_delta (node ?s ?y) = _ => fold (delta s y) end.
      fields. rewrite !(proj2 (Z.eqb_neq (t_id t) _)); [done| | |].
      * intros E. apply Hx. rewrite <- E. apply in_or_app. auto.
      * intros E. apply (Hdisj (t_id t)); [done|]. rewrite E. exact Hpin.
      * intros E. apply Hhd. rewrite <- E. apply in_or_app. auto.
    + destruct l2 as [|t r]; [done|]. cbn in p. subst p. cbn [map] in *. split.
      * match goal with |- vt_delta (node ?s ?y) = _ => fold (delta s y) end. fields.
        rewrite Z.eqb_refl, (proj2 (Z.eqb_neq (t_id t) vtlist)).
        -- apply u32_id. apply deltas_app in Hdd1 as [Hd11 (Ht1 & Ht2 & _)].
           assert (H0 := deltas_last_le _ _ _ Hd11).
           unfold delta. rewrite Ht2. lia.
        -- intros E. apply Hhd. rewrite <- E. apply in_or_app. cbn. auto.
      * intros u Hu'%in_ids. match goal with |- vt_delta (node ?s ?y) = _ => fold (delta s y) end.
        fields. rewrite !(proj2 (Z.eqb_neq (t_id u) _)); [done| | |].
        -- intros E. apply Hx. rewrite <- E. apply in_or_app. cbn. auto.
        -- intros E. apply list.NoDup_app in Hnd as (_ & _ & Hnd). apply NoDup_cons_1_1 in Hnd.
           apply Hnd. rewrite <- E. by apply list_elem_of_In.
        -- intros E. apply Hhd. rewrite <- E. apply in_or_app. cbn. auto.
  - fields. by rewrite Z.eqb_refl.
  - intros t. rewrite <- E2, spec_insert_in. fields. intros [->|Ht].
    + unfold s1. fields. by rewrite Z.eqb_refl.
    + destruct (Hf t Ht) as (Hf1 & Hf2 & Hf3). unfold s1. fields.
      rewrite (proj2 (Z.eqb_neq (t_id t) (t_id x))); [done|].
      intros E. apply Hx. rewrite <- E, <- map_app. by apply in_ids.
  - intros id Hid Hni. fields. rewrite in_app_iff in Hni. cbn in Hni.
    unfold s1. fields. rewrite (proj2 (Z.eqb_neq id (t_id x))) by naive_solver.
    apply Hu; [done|]. rewrite in_app_iff. naive_solver.
Qed.

(** No timer is more than 2^32 - 1 ticks away. *)
Definition bounded (l : list timer) : Prop := forall t, In t l -> is_u32 (t_left t).

Lemma spec_reset_in id l t : In t (spec_reset id l) <-> In t l /\ t_id t <> id.
Proof.
  unfold spec_reset. rewrite filter_In. destruct (Z.eqb_spec (t_id t) id); cbn; naive_solver.
Qed.

Lemma spec_reset_absent id l : ~ In id (ids l) -> spec_reset id l = l.
Proof.
  induction l as [|t l IH]; cbn; [done|]. intros H.
  rewrite (proj2 (Z.eqb_neq (t_id t) id)) by naive_solver. cbn. f_equal. apply IH. naive_solver.
Qed.

Lemma spec_reset_middle l1 t l2 :
  NoDup (ids (l1 ++ t :: l2)) -> spec_reset (t_id t) (l1 ++ t :: l2) = l1 ++ l2.
Proof.
  intros Hnd. rewrite map_app in Hnd. cbn in Hnd. rewrite <- Permutation_middle in Hnd.
  apply NoDup_cons_1_1 in Hnd. rewrite list_elem_of_In, <- map_app in Hnd.
  unfold spec_reset. rewrite List.filter_app. cbn. rewrite Z.eqb_refl. cbn.
  rewrite <- List.filter_app. by apply spec_reset_absent.
Qed.

Lemma deltas_remove n n' l1 t l2 :
  deltas n 0 (l1 ++ t :: l2) -> bounded (l1 ++ t :: l2) ->
  (forall u, In u l1 -> vt_delta (n' (t_id u)) = vt_delta (n (t_id u))) ->
  match l2 with
  | [] => True
  | u :: r => vt_delta (n' (t_id u)) = u32 (vt_delta (n (t_id u)) + vt_delta (n (t_id t))) /\
              forall v, In v r -> vt_delta (n' (t_id v)) = vt_delta (n (t_id v))
  end ->
  deltas n' 0 (l1 ++ l2).
Proof.
  rewrite !deltas_app. intros [H1 (Ht & Htd & H2)] Hb Hl1 Hl2.
  assert (H0 := deltas_last_le _ _ _ H1). split.
  - eapply deltas_frame; [|done]. intros id (u & <- & Hu)%in_map_iff. auto.
  - destruct l2 as [|u r]; cbn in *; [done|].
    destruct H2 as (Hur & Hud & H2), Hl2 as [Hu Hv].
    assert (Hbu : is_u32 (t_left u)) by (apply Hb, in_or_app; cbn; auto).
    split; [lia|split; [rewrite Hu, Hud, Htd, u32_id; lia|]].
    eapply deltas_frame; [|done]. intros id (v & <- & Hin)%in_map_iff. auto.
Qed.

Lemma split_timer id l : In id (ids l) -> exists l1 t l2, l = l1 ++ t :: l2 /\ t_id t = id.
Proof.
  intros (t & <- & Ht)%in_map_iff. apply in_split in Ht as (l1 & l2 & ->). eauto.
Qed.

Lemma chVTDoResetI_ok id s l :
  implements s l -> bounded l -> In id (ids l) ->
  implements (chVTDoResetI id s) (spec_reset id l) /\
  vt_systime (chVTDoResetI id s) = vt_systime s.
Proof.
  intros [Hl Hnd Hhd Hd Hhdd Hf Hu] Hb Hid.
  destruct (split_timer id l Hid) as (l1 & t & l2 & -> & <-).
  rewrite spec_reset_middle by done. unfold chVTDoResetI.
  rewrite map_app in *. cbn [map] in *.
  set (q := last_or vtlist (ids l1)) in *. set (p := first_or vtlist (ids l2)) in *.
  assert (Hqt : prev s (t_id t) = q) by apply (links_ends _ _ _ (t_id t :: ids l2) _ Hl).
  assert (Hpt : next s (t_id t) = p).
  { change (ids l1 ++ t_id t :: ids l2) with (ids l1 ++ [t_id t] ++ ids l2) in Hl.
    rewrite app_assoc in Hl. destruct (links_ends _ _ _ _ _ Hl) as [H _].
    by rewrite last_or_snoc in H. }
  rewrite <- Permutation_middle in Hnd. apply NoDup_cons_1_1 in Hnd as Ht.
  apply NoDup_cons_1_2 in Hnd as Hnd'. rewrite list_elem_of_In, in_app_iff in Ht.
  rewrite in_app_iff in Hhd. cbn in Hhd.
  assert (Htv : t_id t <> vtlist) by (intros E; apply Hhd; auto).
  assert (Hpx : p <> t_id t).
  { destruct (first_or_in vtlist (ids l2)) as [H|H]; fold p in H; [congruence|].
    intros E. rewrite E in H. auto. }
  assert (Hqx : q <> t_id t).
  { destruct (last_or_in vtlist (ids l1)) as [H|H]; fold q in H; [congruence|].
    intros E. rewrite E in H. auto. }
  assert (Hpin : In p (vtlist :: ids l2)).
  { destruct (first_or_in vtlist (ids l2)) as [H|H]; fold p in H; cbn; auto. }
  assert (Hdisj : forall y, In y (ids l1) -> ~ In y (vtlist :: ids l2)).
  { intros y Hy [<-|Hy2]; [tauto|].
    apply list.NoDup_app in Hnd' as (_ & Hn & _). apply (Hn y); by apply list_elem_of_In. }
  assert (Epx := proj2 (Z.eqb_neq _ _) Hpx). assert (Eqx := proj2 (Z.eqb_neq _ _) Hqx).
  assert (Etq : t_id t =? q = false) by (by rewrite Z.eqb_sym).
  assert (Etp : t_id t =? p = false) by (by rewrite Z.eqb_sym).
  repeat (progress fields; rewrite ?Hpt, ?Hqt, ?Etq, ?Etp).
  split; [|reflexivity]. constructor; rewrite ?map_app; cbn [map].
  - apply (links_remove (node s) _ (t_id t)); fold q p; try done.
    + by rewrite <- Permutation_middle.
    + by rewrite in_app_iff.
    + by rewrite in_app_iff.
    + intros y Hy. fold (next s y).
      match goal with |- vt_next (node ?s y) = _ => fold (next s y) end. by fields.
    + intros y Hy. fold (prev s y).
      match goal with |- vt_prev (node ?s y) = _ => fold (prev s y) end. by fields.
  - done.
  - rewrite in_app_iff. tauto.
  - apply (deltas_remove (node s) _ l1 t); try done.
    + intros u Hu'%in_ids. match goal with |- vt_delta (node ?s ?y) = _ => fold (delta s y) end.
      fields. rewrite !(proj2 (Z.eqb_neq (t_id u) _)); [done| |].
      * intros E. apply (Hdisj (t_id u)); [done|]. by rewrite E.
      * intros E. rewrite E in Hu'. tauto.
    + destruct l2 as [|u r]; [done|]. cbn in p. subst p. cbn [map] in *. split.
      * match goal with |- vt_delta (node ?s ?y) = _ => fold (delta s y) end. fields.
        rewrite Z.eqb_refl, (proj2 (Z.eqb_neq (t_id u) vtlist)); [done|].
        intros E. apply Hhd. cbn. auto.
      * intros v Hv%in_ids. match goal with |- vt_delta (node ?s ?y) = _ => fold (delta s y) end.
        fields. rewrite !(proj2 (Z.eqb_neq (t_id v) _)); [done| |].
        -- intros E. apply list.NoDup_app in Hnd' as (_ & _ & Hnr). apply NoDup_cons_1_1 in Hnr.
           apply Hnr. rewrite <- E. by apply list_elem_of_In.
        -- intros E. apply Hhd. rewrite <- E. cbn. auto.
  - fields. by rewrite Z.eqb_refl.
  - intros u Hu'. fields. assert (Hin : In u (l1 ++ t :: l2)).
    { apply in_app_iff. apply in_app_iff in Hu'. cbn. tauto. }
    destruct (Hf u Hin) as (H1 & H2 & H3). rewrite (proj2 (Z.eqb_neq (t_id u) (t_id t))); [done|].
    intros E. apply in_ids in Hu'. rewrite map_app, in_app_iff, E in Hu'. tauto.
  - intros id Hne Hni. fields. destruct (Z.eqb_spec id (t_id t)) as [->|Hne']; [done|].
    apply Hu; [done|]. rewrite in_app_iff in *. cbn. naive_solver.
Qed.

Lemma spec_reset_length id l : (length (spec_reset id l) <= length l)%nat.
Proof. apply filter_length_le. Qed.

(** chVTReset and chVTSet on any timer, armed or not. *)
Lemma chVTReset_ok id s l :
  implements s l -> bounded l -> id <> vtlist ->
  implements (chVTReset id s) (spec_reset id l) /\
  vt_systime (chVTReset id s) = vt_systime s.
Proof.
  intros Him Hb Hid. unfold chVTReset, chVTResetI, chVTIsArmedI.
  destruct (in_dec Z.eq_dec id (ids l)) as [Hin|Hni].
  - replace (func s id =? NULL) with false; [by apply chVTDoResetI_ok|].
    apply in_map_iff in Hin as (t & <- & Ht).
    destruct (im_fields _ _ Him t Ht) as (-> & _ & H). symmetry. by apply Z.eqb_neq.
  - rewrite (im_unarmed _ _ Him) by done. cbn. by rewrite spec_reset_absent.
Qed.

Lemma chVTSet_ok fuel x s l :
  implements s l -> bounded l -> t_id x <> vtlist -> is_u32 (t_left x) -> t_func x <> NULL ->
  (length l < fuel)%nat ->
  exists s', chVTSet fuel (t_id x) (t_left x) (t_func x) (t_par x) s = Some s' /\
    implements s' (spec_insert x (spec_reset (t_id x) l)) /\ vt_systime s' = vt_systime s.
Proof.
  intros Him Hb Hid Hr Hfn Hf. destruct (chVTReset_ok (t_id x) s l Him Hb Hid) as [Him' Hs].
  assert (Hl := spec_reset_length (t_id x) l).
  destruct (chVTDoSetI_ok fuel x _ _ Him') as (s' & E & H1 & H2); try done; [|lia|].
  - intros (t & E & Ht)%in_map_iff. apply spec_reset_in in Ht. tauto.
  - exists s'. split; [exact E|]. split; [done|congruence].
Qed.

(** ** The linked list refines the specification *)

Definition call_id (c : vt_call) : Z :=
  match c with CallSet id _ _ _ => id | CallReset id => id end.

(** Calls the kernel allows: a function, and a delay other than TIME_IMMEDIATE. *)
Definition valid_call (pool : list Z) (c : vt_call) : Prop :=
  In (call_id c) pool /\ call_id c <> vtlist /\
  match c with
  | CallSet _ delay fn _ => 1 <= delay < 4294967296 /\ fn <> NULL
  | CallReset _ => True
  end.

Definition valid_event (pool : list Z) (e : vt_event) : Prop :=
  match e with EvCall c => valid_call pool c | EvTick => True end.

Definition positive (l : list timer) : Prop := forall t, In t l -> 0 < t_left t.

Lemma implements_length pool s l :
  implements s l -> incl (ids l) pool -> (length l <= length pool)%nat.
Proof.
  intros Him Hi. rewrite <- (length_map t_id l). apply NoDup_incl_length; [|done].
  apply NoDup_ListNoDup, im_nodup with s. done.
Qed.

Lemma deltas_age n k l base : deltas n base l -> deltas n (base - k) (age k l).
Proof.
  revert base. induction l as [|t l IH]; intros base; cbn; [done|].
  intros (Hr & Hd & Hl). split; [lia|split; [lia|]]. by apply IH.
Qed.

Lemma ids_age k l : ids (age k l) = ids l.
Proof. unfold age. rewrite map_map. done. Qed.

(** The decrement at the head of chVTDoTickI. *)
Lemma tick_start s l :
  implements s l -> positive l ->
  let s0 := VT (node s) (u32 (vt_systime s + 1)) in
  let first := next s0 vtlist in
  implements s0 l /\
  ((l = [] /\ vtlist =? first = true) \/
   (vtlist =? first = false /\
    implements (set_delta first (u32 (delta s0 first - 1)) s0) (age 1 l))).
Proof.
  intros Him Hpos s0 first.
  assert (Him0 : implements s0 l) by (destruct Him; by constructor).
  split; [done|]. unfold first. destruct l as [|t l].
  { left. destruct (im_links _ _ Him0) as [Hv _]. fold (next s0 vtlist) in Hv. by rewrite Hv. }
  right. assert (Hv := proj1 (im_links _ _ Him0)). cbn [map] in Hv. fold (next s0 vtlist) in Hv.
  rewrite Hv. assert (Hne : t_id t <> vtlist).
  { intros E. apply (im_header _ _ Him). cbn. auto. }
  rewrite (proj2 (Z.eqb_neq vtlist (t_id t))) by congruence. split; [done|].
  destruct (im_deltas _ _ Him0) as (Hr & Hd & Hds). rewrite Z.sub_0_r in *.
  fold (delta s0 (t_id t)) in Hd. assert (Ht := Hpos t ltac:(by left)).
  set (s1 := set_delta (t_id t) _ s0).
  destruct Him0 as [Hl Hnd Hhd _ Hhdd Hf Hu]. constructor; rewrite ?ids_age; try done.
  - eapply links_frame; [| |exact Hl]; intros x _.
    + fold (next s0 x) (next s1 x). unfold s1. by fields.
    + fold (prev s0 x) (prev s1 x). unfold s1. by fields.
  - cbn [age map deltas t_left t_id]. split; [lia|split].
    + fold (delta s1 (t_id t)). unfold s1. fields. rewrite Z.eqb_refl, Hd, u32_id; lia.
    + apply deltas_age. eapply deltas_frame; [|exact Hds]. intros id Hid.
      fold (delta s0 id) (delta s1 id). unfold s1. fields.
      rewrite (proj2 (Z.eqb_neq id (t_id t))); [done|]. intros ->.
      apply NoDup_cons_1_1 in Hnd. apply Hnd. by apply list_elem_of_In.
  - unfold s1. fields. by rewrite (proj2 (Z.eqb_neq vtlist (t_id t))) by congruence.
  - intros u Hu'. apply in_map_iff in Hu' as (v & <- & Hv'). cbn. unfold s1. fields. by apply Hf.
  - intros id H1 H2. unfold s1. fields. by apply Hu.
Qed.

(** Timers that are due. *)
Definition due (l : list timer) : list timer := List.filter (fun t => t_left t =? 0) l.

(** Unlinking the first timer, as the loop of chVTDoTickI does. *)
Lemma pop_ok s t l :
  implements s (t :: l) -> t_left t = 0 ->
  let s' := set_func (t_id t) NULL s in
  let s' := set_prev (next s' (t_id t)) vtlist s' in
  implements (set_next vtlist (next s' (t_id t)) s') l.
Proof.
  intros [Hl Hnd Hhd Hd Hhdd Hf Hu] H0. cbn [map] in *. cbv zeta. fields.
  assert (Hp := links_ends _ _ [t_id t] _ _ Hl). cbn in Hp. destruct Hp as [Hn _].
  fold (next s (t_id t)) in Hn. rewrite Hn. apply NoDup_cons_1_1 in Hnd as Ht.
  rewrite list_elem_of_In in Ht. constructor.
  - apply (links_remove (node s) _ (t_id t) [] (ids l)); try done.
    + intros y Hy. fold (next s y).
      match goal with |- vt_next (node ?s y) = _ => fold (next s y) end. by fields.
    + intros y Hy. fold (prev s y).
      match goal with |- vt_prev (node ?s y) = _ => fold (prev s y) end. by fields.
  - by apply NoDup_cons_1_2 in Hnd.
  - cbn in Hhd. tauto.
  - cbn in Hd. destruct Hd as (_ & _ & Hd). rewrite H0 in Hd.
    eapply deltas_frame; [|exact Hd]. intros id _. fold (delta s id).
    match goal with |- vt_delta (node ?s ?y) = _ => fold (delta s y) end. by fields.
  - by fields.
  - intros u Hin. fields. rewrite (proj2 (Z.eqb_neq (t_id u) (t_id t))).
    + apply Hf. by right.
    + intros E. apply in_ids in Hin. by rewrite E in Hin.
  - intros id Hne Hni. fields. destruct (Z.eqb_spec id (t_id t)); [done|].
    apply Hu; cbn; naive_solver.
Qed.

Lemma deltas_positive n l base : 0 < base -> deltas n base l -> positive l.
Proof.
  revert base. induction l as [|t l IH]; intros base Hb; cbn; [intros _ u []|].
  intros (Hr & _ & Hl) u [<-|Hu]; [lia|]. eapply IH; [|done|done]. lia.
Qed.

Section Refinement.
Context (prog : Z -> Z -> list vt_call) (pool : list Z) (fuel : nat).
Context (Hprog : forall fn par, Forall (valid_call pool) (prog fn par)).
Context (Hfuel : (length pool < fuel)%nat).

(** What holds of the specification between two calls. *)
Definition spec_wf (l : list timer) : Prop := bounded l /\ incl (ids l) pool.

Lemma run_call_ok c s l :
  valid_call pool c -> implements s l -> spec_wf l ->
  exists s', run_call fuel c s = Some s' /\ implements s' (spec_call l c) /\ spec_wf (spec_call l c) /\
    vt_systime s' = vt_systime s.
Proof.
  intros (Hin & Hne & Hc) Him [Hb Hi].
  assert (Hwf : spec_wf (spec_reset (call_id c) l)).
  { split; [intros t Ht%spec_reset_in; apply Hb, Ht|].
    intros id (t & <- & Ht%spec_reset_in)%in_map_iff. apply Hi, in_ids, Ht. }
  destruct c as [id delay fn p|id]; cbn [run_call spec_call call_id] in *.
  - destruct Hc as [Hd Hfn]. destruct (chVTSet_ok fuel (Timer id delay fn p) s l) as (s' & E & H1 & H2);
      cbn [t_id t_left t_func]; try done; [lia| |].
    + assert (H := implements_length pool s l Him Hi). lia.
    + exists s'. split; [done|split; [done|split; [split|done]]].
      * intros t [->|Ht]%spec_insert_in; [cbn; lia|]. by apply Hwf.
      * intros i (t & <- & [->|Ht]%spec_insert_in)%in_map_iff; [done|]. apply Hwf, in_ids, Ht.
  - destruct (chVTReset_ok id s l Him Hb Hne). eauto.
Qed.

Lemma run_calls_ok cs : forall s l,
  Forall (valid_call pool) cs -> implements s l -> spec_wf l ->
  exists s', run_calls fuel cs s = Some s' /\ implements s' (fold_left spec_call cs l) /\
    spec_wf (fold_left spec_call cs l) /\ vt_systime s' = vt_systime s.
Proof.
  induction cs as [|c cs IH]; intros s l Hcs Him Hwf; cbn; [eauto|].
  inversion_clear Hcs. destruct (run_call_ok c s l) as (s1 & -> & H1 & H2 & H3); try done.
  destruct (IH s1 (spec_call l c)) as (s2 & E & H4 & H5 & H6); try done.
  exists s2. split; [done|split; [done|split; [done|congruence]]].
Qed.

Lemma due_call l c : valid_call pool c -> (length (due (spec_call l c)) <= length (due l))%nat.
Proof.
  assert (Hr : forall id, (length (due (spec_reset id l)) <= length (due l))%nat).
  { intros id. clear. unfold due, spec_reset. induction l as [|t l IH]; cbn; [done|].
    destruct (t_id t =? id); cbn; destruct (t_left t =? 0); cbn; lia. }
  intros (_ & _ & Hc). destruct c as [id d fn p|id]; cbn [spec_call]; [|done].
  transitivity (length (due (spec_reset id l))); [|done].
  unfold due. induction (spec_reset id l) as [|t r IH]; cbn.
  - by rewrite (proj2 (Z.eqb_neq d 0)) by lia.
  - destruct (t_left t <? d); cbn.
    + destruct (t_left t =? 0); cbn; lia.
    + by rewrite (proj2 (Z.eqb_neq d 0)) by lia.
Qed.

Lemma due_calls cs l :
  Forall (valid_call pool) cs -> (length (due (fold_left spec_call cs l)) <= length (due l))%nat.
Proof.
  revert l. induction cs as [|c cs IH]; intros l H; cbn; [done|].
  inversion_clear H. etransitivity; [by apply IH|]. by apply due_call.
Qed.

Lemma fire_loop_ok : forall n s l,
  implements s l -> spec_wf l -> (length (due l) < n)%nat ->
  exists s' l' fired, fire_loop (vt_callback prog fuel) n (s, tt) = Some (s', tt, fired) /\
    spec_fire prog n l = Some (l', fired) /\ implements s' l' /\ spec_wf l' /\ positive l' /\
    vt_systime s' = vt_systime s.
Proof.
  induction n as [|n IH]; intros s l Him Hwf Hn; [lia|]. cbn [fire_loop spec_fire].
  destruct l as [|t l].
  { destruct (im_links _ _ Him) as [Hv _]. fold (next s vtlist) in Hv. rewrite Hv.
    rewrite (im_header_delta _ _ Him). cbn.
    exists s, [], []. do 4 (split; [done|]). split; [by intros u []|done]. }
  assert (Hv := proj1 (im_links _ _ Him)). cbn [map] in Hv. fold (next s vtlist) in Hv.
  destruct (im_deltas _ _ Him) as (Hr & Hd & Hds). rewrite Z.sub_0_r in *.
  fold (delta s (t_id t)) in Hd. rewrite Hv, Hd.
  destruct (Z.eqb_spec (t_left t) 0) as [E0|E0].
  2:{ exists s, (t :: l), []. do 4 (split; [done|]). split; [|done].
      intros u [<-|Hu]; [lia|]. eapply deltas_positive; [|exact Hds|done]. lia. }
  assert (Hpop := pop_ok s t l Him E0). cbv zeta in Hpop.
  destruct (im_fields _ _ Him t ltac:(by left)) as (Hfn & Hpar & _).
  set (s1 := set_next vtlist _ _) in *.
  assert (Hpar1 : par s1 (t_id t) = t_par t) by (unfold s1; fields; done).
  rewrite Hpar1, Hfn. unfold vt_callback at 1. cbn [fst].
  assert (Hwf1 : spec_wf l).
  { destruct Hwf as [Hb Hi]. split; [intros u Hu; apply Hb; by right|].
    intros id Hid. apply Hi. by right. }
  destruct (run_calls_ok (prog (t_func t) (t_par t)) s1 l) as (s2 & -> & H1 & H2 & H3); try done.
  destruct (IH s2 (fold_left spec_call (prog (t_func t) (t_par t)) l))
    as (s3 & l3 & fired & -> & -> & H4 & H5 & H6 & H7); try done.
  { assert (H := due_calls (prog (t_func t) (t_par t)) l (Hprog _ _)).
    revert Hn. cbn [due List.filter]. rewrite E0. cbn. unfold due in *. lia. }
  exists s3, l3, ((t_id t, t_func t, t_par t) :: fired).
  split; [done|split; [done|split; [done|split; [done|split; [done|]]]]]. change (vt_systime s1) with (vt_systime s) in H3. congruence.
Qed.

Lemma tick_ok s l :
  implements s l -> spec_wf l -> positive l ->
  exists s' l' fired, chVTDoTickI (vt_callback prog fuel) fuel (s, tt) = Some (s', tt, fired) /\
    spec_fire prog fuel (age 1 l) = Some (l', fired) /\ implements s' l' /\ spec_wf l' /\ positive l' /\
    vt_systime s' = u32 (vt_systime s + 1).
Proof.
  intros Him Hwf Hpos. unfold chVTDoTickI.
  destruct (tick_start s l Him Hpos) as [Him0 [(-> & ->)|(-> & Him1)]];
    set (s0 := VT (node s) (u32 (vt_systime s + 1))) in *.
  { cbn. destruct fuel as [|n]; [lia|]. exists s0, [], [].
    do 4 (split; [done|]). split; [by intros u []|done]. }
  cbn [negb]. set (s1 := set_delta _ _ s0) in *.
  assert (Hwf1 : spec_wf (age 1 l)).
  { destruct Hwf as [Hb Hi]. split; [|by rewrite ids_age].
    intros u (v & <- & Hv')%in_map_iff. cbn. specialize (Hb v Hv'). specialize (Hpos v Hv'). lia. }
  destruct (fire_loop_ok fuel s1 (age 1 l) Him1 Hwf1) as (s' & l' & f & E1 & E2 & H); [|].
  { assert (Hl := implements_length pool s1 _ Him1 (proj2 Hwf1)).
    assert (Hdl : (length (due (age 1 l)) <= length (age 1 l))%nat)
      by apply filter_length_le. lia. }
  exists s', l', f. split; [exact E1|split; [exact E2|exact H]].
Qed.

(** Every run of valid events from a state of the list. *)
Lemma run_refines : forall evs now s l,
  Forall (valid_event pool) evs -> implements s l -> spec_wf l -> positive l ->
  exists s' l' log, run prog fuel now evs s = Some (s', log) /\
    spec_run prog fuel now evs l = Some (l', log) /\ implements s' l' /\ spec_wf l' /\ positive l'.
Proof.
  induction evs as [|e evs IH]; intros now s l Hev Him Hwf Hpos; cbn [run spec_run];
    [by exists s, l, []|].
  inversion_clear Hev. destruct e as [c|].
  - destruct (run_call_ok c s l) as (s1 & -> & H1 & H2 & _); try done.
    apply IH; try done. intros t Ht.
    destruct c as [id d fn p|id]; cbn in Ht.
    + apply spec_insert_in in Ht as [->|Ht%spec_reset_in]; [cbn|apply Hpos, Ht].
      match goal with H : valid_event _ _ |- _ => destruct H as (_ & _ & Hd & _) end. lia.
    + apply spec_reset_in in Ht. apply Hpos, Ht.
  - destruct (tick_ok s l Him Hwf Hpos) as (s1 & l1 & f & -> & -> & H1 & H2 & H3 & _).
    destruct (IH (now + 1) s1 l1) as (s2 & l2 & log & -> & -> & H4); try done.
    exists s2, l2, (map (pair (now + 1)) f ++ log). done.
Qed.
End Refinement.

Lemma init_implements s : (forall id, id <> vtlist -> func s id = NULL) -> implements (_vt_init s) [].
Proof.
  intros H. constructor.
  - done.
  - constructor.
  - intros [].
  - done.
  - done.
  - intros t [].
  - intros id Hid _. change (func (_vt_init s) id) with
      (func (set_delta vtlist (u32 (-1)) (set_prev vtlist vtlist (set_next vtlist vtlist s))) id).
    fields. by apply H.
Qed.

(** ** When timers fire *)

Definition touches (id : Z) (c : vt_call) : Prop := call_id c = id.

Definition ticks (evs : list vt_event) : Z :=
  Z.of_nat (length (List.filter (fun e => match e with EvTick => true | _ => false end) evs)).

(** The firings of one timer in a log. *)
Definition fired_of (id : Z) (fired : list (Z * Z * Z)) : list (Z * Z * Z) :=
  List.filter (fun f => fst (fst f) =? id) fired.
Definition log_of (id : Z) (log : list (Z * (Z * Z * Z))) : list (Z * (Z * Z * Z)) :=
  List.filter (fun e => fst (fst (snd e)) =? id) log.

Lemma spec_insert_nodup x l : ~ In (t_id x) (ids l) -> NoDup (ids l) -> NoDup (ids (spec_insert x l)).
Proof.
  induction l as [|y l IH]; cbn; intros Hx Hnd.
  - constructor; [by rewrite list_elem_of_In|constructor].
  - case_match; cbn.
    + apply list.NoDup_cons in Hnd as [Hy Hnd]. constructor; [|apply IH; [tauto|done]].
      rewrite list_elem_of_In in *. intros (t & E & [->|Ht]%spec_insert_in)%in_map_iff; [naive_solver|].
      apply Hy. rewrite <- E. by apply in_ids.
    + constructor; [|done]. by rewrite list_elem_of_In.
Qed.

Lemma spec_reset_nodup id l : NoDup (ids l) -> NoDup (ids (spec_reset id l)).
Proof.
  unfold spec_reset. induction l as [|t l IH]; cbn; [done|].
  intros [Ht Hnd]%list.NoDup_cons. case_match; cbn; [|by apply IH].
  constructor; [|by apply IH]. rewrite list_elem_of_In in *.
  intros (u & E & [Hu _]%filter_In)%in_map_iff. apply Ht. rewrite <- E. by apply in_ids.
Qed.

Lemma spec_call_nodup c l : NoDup (ids l) -> NoDup (ids (spec_call l c)).
Proof.
  intros Hnd. destruct c as [id d fn p|id]; cbn; [|by apply spec_reset_nodup].
  apply spec_insert_nodup; [|by apply spec_reset_nodup]. cbn.
  intros (t & E & [_ Ht]%spec_reset_in)%in_map_iff. done.
Qed.

Lemma spec_calls_nodup cs l : NoDup (ids l) -> NoDup (ids (fold_left spec_call cs l)).
Proof. revert l. induction cs as [|c cs IH]; intros l H; [done|]. by apply IH, spec_call_nodup. Qed.

(** A call for another timer. *)
Lemma spec_call_other c l t : ~ touches (t_id t) c -> In t (spec_call l c) <-> In t l.
Proof.
  unfold touches. destruct c as [id d fn p|id]; cbn; intros H.
  - rewrite spec_insert_in, spec_reset_in. split; [intros [->|]; [done|tauto]|]. intros Ht. auto.
  - rewrite spec_reset_in. naive_solver.
Qed.

Lemma spec_calls_other cs l t :
  Forall (fun c => ~ touches (t_id t) c) cs -> In t (fold_left spec_call cs l) <-> In t l.
Proof.
  revert l. induction cs as [|c cs IH]; intros l H; cbn; [done|].
  inversion_clear H. rewrite IH by done. by apply spec_call_other.
Qed.

Lemma not_in_ids id l : ~ In id (ids l) <-> forall t, In t l -> t_id t <> id.
Proof.
  split; [intros H t Ht <-; by apply H, in_ids|].
  intros H (t & E & Ht)%in_map_iff. by apply (H t).
Qed.

Lemma unique_timer l t u : NoDup (ids l) -> In t l -> In u l -> t_id t = t_id u -> t = u.
Proof.
  induction l as [|x l IH]; cbn; [done|]. intros [Hx Hnd]%list.NoDup_cons.
  rewrite list_elem_of_In in Hx. intros [->|Ht] [->|Hu] E; [done| | |by apply IH].
  - exfalso. apply Hx. rewrite E. by apply in_ids.
  - exfalso. apply Hx. rewrite <- E. by apply in_ids.
Qed.

Section Tracking.
Context (prog : Z -> Z -> list vt_call) (id : Z).
Context (Hprog : forall fn p, Forall (fun c => ~ touches id c) (prog fn p)).

(** A timer that is not in the list is not put there, and does not fire. *)
Lemma spec_fire_absent : forall n l l' f,
  NoDup (ids l) -> ~ In id (ids l) -> spec_fire prog n l = Some (l', f) ->
  NoDup (ids l') /\ ~ In id (ids l') /\ fired_of id f = [].
Proof.
  induction n as [|n IH]; cbn [spec_fire]; [done|]. intros [|t l] l' f Hnd Hni.
  { intros [= <- <-]. done. }
  destruct (t_left t =? 0); [|by intros [= <- <-]].
  destruct (spec_fire prog n _) as [[l2 f2]|] eqn:E; [|done]. intros [= <- <-].
  cbn in Hnd, Hni. apply list.NoDup_cons in Hnd as [_ Hnd].
  destruct (IH _ l2 f2 (spec_calls_nodup (prog (t_func t) (t_par t)) l Hnd)) as (H1 & H2 & H3); [|done|].
  - rewrite not_in_ids. intros u Hu Eu.
    apply spec_calls_other in Hu; [|by rewrite Eu]. apply Hni. right. rewrite <- Eu. by apply in_ids.
  - split; [done|split; [done|]]. cbn. rewrite (proj2 (Z.eqb_neq (t_id t) id)) by tauto. done.
Qed.

(** A timer in the list stays there, or it was due and fires once. *)
Lemma spec_fire_track : forall n l l' f t,
  NoDup (ids l) -> In t l -> t_id t = id -> spec_fire prog n l = Some (l', f) ->
  NoDup (ids l') /\
  ((In t l' /\ fired_of id f = []) \/
   (t_left t = 0 /\ ~ In id (ids l') /\ fired_of id f = [(id, t_func t, t_par t)])).
Proof.
  induction n as [|n IH]; cbn [spec_fire]; [done|]. intros [|u l] l' f t Hnd Hin Hid; [done|].
  destruct (Z.eqb_spec (t_left u) 0) as [E0|]; [|intros [= <- <-]; auto].
  destruct (spec_fire prog n _) as [[l2 f2]|] eqn:E; [|done]. intros [= <- <-].
  cbn in Hnd. apply list.NoDup_cons in Hnd as [Hu Hnd]. rewrite list_elem_of_In in Hu.
  assert (Hnd2 := spec_calls_nodup (prog (t_func u) (t_par u)) l Hnd).
  destruct Hin as [->|Hin].
  - rewrite Hid in Hu.
    destruct (spec_fire_absent n _ l2 f2 Hnd2) as (H1 & H2 & H3); [|exact E|].
    + rewrite not_in_ids in *. intros v Hv Hve.
      apply spec_calls_other in Hv; [by apply (Hu v)|by rewrite Hve].
    + split; [done|]. right. split; [done|split; [done|]]. cbn. rewrite Hid, Z.eqb_refl.
      unfold fired_of in H3. by rewrite H3.
  - assert (Hne : t_id u <> id).
    { intros Eu. apply Hu. rewrite Eu, <- Hid. by apply in_ids. }
    destruct (IH _ l2 f2 t Hnd2) as [H1 H2]; [|done|exact E|].
    + apply spec_calls_other; [rewrite Hid; apply Hprog|done].
    + split; [done|]. cbn. rewrite (proj2 (Z.eqb_neq _ _) Hne). exact H2.
Qed.
End Tracking.

Lemma log_of_map id now f : log_of id (map (pair now) f) = map (pair now) (fired_of id f).
Proof.
  induction f as [|x f IH]; cbn; [done|]. destruct (fst (fst x) =? id); cbn; unfold log_of in IH;
    by rewrite IH.
Qed.

Definition untouched (id : Z) (e : vt_event) : Prop :=
  match e with EvCall c => ~ touches id c | EvTick => True end.

Section OnTime.
Context (prog : Z -> Z -> list vt_call) (pool : list Z) (fuel : nat).
Context (Hprog : forall fn par, Forall (valid_call pool) (prog fn par)).
Context (Hfuel : (length pool < fuel)%nat).
Context (id : Z) (Hother : forall fn p, Forall (fun c => ~ touches id c) (prog fn p)).

(** A run in which the other timers are used freely. *)
Lemma run_track evs : forall now s l,
  Forall (valid_event pool) evs -> Forall (untouched id) evs ->
  implements s l -> spec_wf pool l -> positive l ->
  exists s' log, run prog fuel now evs s = Some (s', log) /\
    (~ In id (ids l) -> log_of id log = []) /\
    (forall t, In t l -> t_id t = id ->
       log_of id log = if t_left t <=? ticks evs then [(now + t_left t, (id, t_func t, t_par t))]
                       else []).
Proof.
  induction evs as [|e evs IH]; intros now s l Hev Hun Him Hwf Hpos; cbn [run].
  - exists s, []. split; [done|split; [done|]]. intros t Ht _. specialize (Hpos t Ht).
    change (ticks []) with 0. by replace (t_left t <=? 0) with false by lia.
  - inversion_clear Hev as [|? ? He Hevs]. inversion_clear Hun as [|? ? Hu Huns].
    destruct e as [c|].
    + destruct (run_call_ok pool fuel Hfuel c s l He Him Hwf) as (s1 & -> & H1 & H2 & _).
      destruct (IH now s1 (spec_call l c)) as (s2 & log & E & Ha & Hi); try done.
      { intros t Ht. destruct c as [i d fn p|i]; cbn in Ht.
        - apply spec_insert_in in Ht as [->|Ht%spec_reset_in]; [|apply Hpos, Ht].
          destruct He as (_ & _ & Hd & _). cbn. lia.
        - apply spec_reset_in in Ht. apply Hpos, Ht. }
      exists s2, log. split; [done|split].
      * intros Hni. apply Ha. rewrite not_in_ids in *. intros t Ht E'. 
        apply (Hni t); [|done]. apply (spec_call_other c); [by rewrite E'|done].
      * intros t Ht Hid. rewrite (Hi t); [done| |done]. apply spec_call_other; [by rewrite Hid|done].
    + destruct (tick_ok prog pool fuel Hprog Hfuel s l Him Hwf Hpos)
        as (s1 & l1 & f & -> & Ef & H1 & H2 & H3 & _).
      destruct (IH (now + 1) s1 l1) as (s2 & log & -> & Ha & Hi); try done.
      exists s2, (map (pair (now + 1)) f ++ log). split; [done|].
      assert (Hlog : log_of id (map (pair (now + 1)) f ++ log)
                     = map (pair (now + 1)) (fired_of id f) ++ log_of id log).
      { unfold log_of at 1. rewrite List.filter_app. f_equal. apply log_of_map. }
      assert (Hnd : NoDup (ids (age 1 l))) by (rewrite ids_age; apply (im_nodup _ _ Him)).
      assert (Htk : ticks (EvTick :: evs) = ticks evs + 1) by (unfold ticks; cbn; lia).
      rewrite Hlog. split.
      * intros Hni. destruct (spec_fire_absent prog id Hother fuel _ l1 f Hnd)
          as (_ & Hni1 & ->); [by rewrite ids_age|exact Ef|]. cbn. by apply Ha.
      * intros t Ht Hid. set (t1 := Timer (t_id t) (t_left t - 1) (t_func t) (t_par t)).
        assert (Ht1 : In t1 (age 1 l)).
        { apply in_map_iff. by exists t. }
        destruct (spec_fire_track prog id Hother _ _ _ _ t1 Hnd Ht1 Hid Ef)
          as (_ & [[Hin ->]|(E0 & Hni & ->)]); cbn [map app].
        -- rewrite (Hi t1 Hin Hid), Htk. cbn [t_left t_func t_par t1].
           replace (t_left t <=? ticks evs + 1) with (t_left t - 1 <=? ticks evs) by lia.
           replace (now + 1 + (t_left t - 1)) with (now + t_left t) by lia. done.
        -- rewrite (Ha Hni), Htk. cbn [t_left t1] in E0. replace (t_left t) with 1 by lia.
           assert (0 <= ticks evs) by (unfold ticks; lia).
           by replace (1 <=? ticks evs + 1) with true by lia.
Qed.
End OnTime.

(** The timers before _vt_init: memory in which no timer is armed. *)
Definition unarmed (s : vtimers) : Prop := forall id, id <> vtlist -> func s id = NULL.

Lemma init_run prog pool fuel evs s0 :
  (forall fn par, Forall (valid_call pool) (prog fn par)) -> (length pool < fuel)%nat ->
  unarmed s0 -> Forall (valid_event pool) evs ->
  exists s l log, run prog fuel 0 evs (_vt_init s0) = Some (s, log) /\
    spec_run prog fuel 0 evs [] = Some (l, log) /\ implements s l /\ spec_wf pool l /\ positive l.
Proof.
  intros Hp Hf Hu Hev. apply (run_refines prog pool fuel Hp Hf); [done|by apply init_implements| |].
  - split; [intros t []|intros i []].
  - intros t [].
Qed.

(** C27. The doubly linked delta list of the kernel refines its specification: for any
    sequence of set and reset calls and ticks, with any callbacks that set and reset
    timers themselves (also while other timers of the same tick are still to fire), the
    code terminates and fires the same timers, at the same ticks and in the same order
    as a plain list of timers sorted by the time they have left. *)
Theorem timers_refine prog pool fuel evs s0 :
  (forall fn par, Forall (valid_call pool) (prog fn par)) -> (length pool < fuel)%nat ->
  unarmed s0 -> Forall (valid_event pool) evs ->
  exists s l log, run prog fuel 0 evs (_vt_init s0) = Some (s, log) /\
    spec_run prog fuel 0 evs [] = Some (l, log).
Proof.
  intros Hp Hf Hu Hev. destruct (init_run prog pool fuel evs s0) as (s & l & log & H1 & H2 & _);
    eauto.
Qed.

(** A timer fires exactly once and exactly [delay] ticks after it was set, whatever
    is done to the other timers meanwhile by threads and by callbacks, unless it is set
    or reset again; before that it does not fire. *)
Theorem timer_fires_on_time prog pool fuel s0 evs0 id delay fn par evs :
  (forall f p, Forall (valid_call pool) (prog f p)) -> (length pool < fuel)%nat ->
  (forall f p, Forall (fun c => ~ touches id c) (prog f p)) ->
  unarmed s0 -> Forall (valid_event pool) evs0 -> Forall (valid_event pool) evs ->
  Forall (untouched id) evs -> valid_call pool (CallSet id delay fn par) ->
  exists s log0 s' log,
    run prog fuel 0 evs0 (_vt_init s0) = Some (s, log0) /\
    run prog fuel (ticks evs0) (EvCall (CallSet id delay fn par) :: evs) s = Some (s', log) /\
    log_of id log
    = if delay <=? ticks evs then [(ticks evs0 + delay, (id, fn, par))] else [].
Proof.
  intros Hp Hf Ho Hu Hev0 Hev Hun Hc.
  destruct (init_run prog pool fuel evs0 s0 Hp Hf Hu Hev0) as (s & l & log0 & E0 & _ & Him & Hwf & Hpos).
  destruct (run_call_ok pool fuel Hf _ s l Hc Him Hwf) as (s1 & E1 & H1 & H2 & _).
  destruct (run_track prog pool fuel Hp Hf id Ho evs (ticks evs0) s1 _ Hev Hun H1 H2)
    as (s2 & log & E2 & _ & Ht).
  { intros t [->|Ht%spec_reset_in]%spec_insert_in; [|apply Hpos, Ht].
    destruct Hc as (_ & _ & Hd & _). cbn. lia. }
  exists s, log0, s2, log. split; [done|split].
  - cbn [run]. by rewrite E1.
  - apply (Ht (Timer id delay fn par)); [|done]. apply spec_insert_in. auto.
Qed.

(** ** A delay of zero *)

(** A tick that does not bring the first timer to zero fires nothing. *)
Lemma quiet_tick prog n s a :
  next s vtlist = a -> a <> vtlist -> u32 (delta s a - 1) <> 0 ->
  exists s', chVTDoTickI (vt_callback prog (S n)) (S n) (s, tt) = Some (s', tt, []) /\
    next s' vtlist = a /\ delta s' a = u32 (delta s a - 1).
Proof.
  intros Hn Hne Hd. unfold chVTDoTickI.
  set (s0 := VT (node s) (u32 (vt_systime s + 1))).
  change (next s0) with (next s). change (delta s0) with (delta s). rewrite Hn.
  rewrite (proj2 (Z.eqb_neq vtlist a)) by congruence. cbn [negb fire_loop].
  set (s1 := set_delta a (u32 (delta s a - 1)) s0).
  assert (Hn1 : next s1 vtlist = a) by (unfold s1; by fields).
  assert (Hd1 : delta s1 a = u32 (delta s a - 1)) by (unfold s1; fields; by rewrite Z.eqb_refl).
  rewrite Hn1, Hd1, (proj2 (Z.eqb_neq _ _) Hd). by exists s1.
Qed.

Lemma quiet_ticks prog n a k : forall now s,
  next s vtlist = a -> a <> vtlist -> is_u32 (delta s a) -> Z.of_nat k < delta s a ->
  exists s', run prog (S n) now (repeat EvTick k) s = Some (s', []).
Proof.
  induction k as [|k IH]; intros now s Hn Hne Hd Hk; cbn [repeat run]; [eauto|].
  destruct (quiet_tick prog n s a Hn Hne) as (s1 & -> & Hn1 & Hd1); [rewrite u32_id; lia|].
  destruct (IH (now + 1) s1) as (s2 & ->); try done.
  1-2: rewrite Hd1, u32_id; lia.
  by exists s2.
Qed.

(** Nothing checks that a delay is not zero (the Arduino call setTimer passes the
    delay of the sketch on): setting a timer with a delay of zero puts a zero at the
    head of the delta list, the next tick wraps it to 2^32 - 1, and no timer of the
    system, whenever it was due, fires during the next 2^32 - 1 ticks (49 days). *)
Theorem zero_delay_stalls prog pool fuel s0 evs0 id fn par k :
  (forall f p, Forall (valid_call pool) (prog f p)) -> (length pool < fuel)%nat ->
  unarmed s0 -> Forall (valid_event pool) evs0 ->
  id <> vtlist -> fn <> NULL -> Z.of_nat k < 4294967296 ->
  exists s log0 s',
    run prog fuel 0 evs0 (_vt_init s0) = Some (s, log0) /\
    run prog fuel (ticks evs0) (EvCall (CallSet id 0 fn par) :: repeat EvTick k) s = Some (s', []).
Proof.
  intros Hp Hf Hu Hev0 Hid Hfn Hk.
  destruct (init_run prog pool fuel evs0 s0 Hp Hf Hu Hev0)
    as (s & l & log0 & E0 & _ & Him & Hwf & Hpos).
  exists s, log0.
  destruct (chVTSet_ok fuel (Timer id 0 fn par) s l Him (proj1 Hwf)) as (s1 & E1 & H1 & _);
    try done.
  { assert (H := implements_length pool s l Him (proj2 Hwf)). lia. }
  cbn [t_id t_left t_func t_par] in E1, H1.
  assert (Hins : spec_insert (Timer id 0 fn par) (spec_reset id l)
                 = Timer id 0 fn par :: spec_reset id l).
  { destruct (spec_reset id l) as [|t r] eqn:Er; [done|]. cbn [spec_insert t_left].
    assert (Ht : In t (spec_reset id l)) by (rewrite Er; by left).
    apply spec_reset_in in Ht as [Ht _]. specialize (Hpos t Ht).
    by replace (t_left t <? 0) with false by lia. }
  rewrite Hins in H1. assert (Hn := proj1 (im_links _ _ H1)).
  destruct (im_deltas _ _ H1) as (_ & Hd & _). cbn [map t_id t_left] in Hn, Hd.
  fold (next s1 vtlist) in Hn. fold (delta s1 id) in Hd. change (0 - 0) with 0 in Hd.
  cbn [run run_call]. rewrite E1. destruct fuel as [|n]; [lia|].
  destruct k as [|k]; cbn [repeat run]; [by exists s1|].
  destruct (quiet_tick prog n s1 id Hn Hid) as (s2 & -> & Hn2 & Hd2); [by rewrite Hd|].
  rewrite Hd in Hd2. change (u32 (0 - 1)) with 4294967295 in Hd2.
  destruct (quiet_ticks prog n id k (ticks evs0 + 1) s2 Hn2 Hid) as (s3 & ->); [lia|lia|].
  by exists s3.
Qed.

(** ** A concrete run *)

(** Two timers and a callback that re-arms the second one. *)
Definition demo_prog (fn par : Z) : list vt_call :=
  if fn =? 100 then [CallSet 2 3 200 par] else [].
Definition demo_memory : vtimers := VT (fun _ => VtNode 0 0 0 0 0) 0.

Ltac valid_demo :=
  repeat (apply List.Forall_cons || apply List.Forall_nil || apply Forall_cons_2 || apply Forall_nil_2);
  cbn; try done; unfold valid_call; cbn; repeat split; try lia; auto; discriminate.

Lemma demo_prog_valid f p : Forall (valid_call [1; 2]) (demo_prog f p).
Proof. unfold demo_prog. destruct (f =? 100); valid_demo. Qed.

Lemma timers_refine_witness :
  exists s l log,
    run demo_prog 5 0 [EvCall (CallSet 1 2 100 7); EvTick; EvTick; EvTick; EvTick; EvTick]
      (_vt_init demo_memory) = Some (s, log) /\
    spec_run demo_prog 5 0 [EvCall (CallSet 1 2 100 7); EvTick; EvTick; EvTick; EvTick; EvTick]
      [] = Some (l, log).
Proof.
  refine (timers_refine demo_prog [1; 2] 5 _ demo_memory _ _ _ _).
  - apply demo_prog_valid.
  - cbn. lia.
  - intros id _. reflexivity.
  - valid_demo.
Defined.

Lemma timer_fires_on_time_witness :
  exists s log0 s' log,
    run demo_prog 5 0 [EvTick] (_vt_init demo_memory) = Some (s, log0) /\
    run demo_prog 5 1 [EvCall (CallSet 1 2 100 7); EvTick; EvCall (CallSet 2 9 200 0); EvTick; EvTick] s
    = Some (s', log) /\
    log_of 1 log = [(3, (1, 100, 7))].
Proof.
  refine (timer_fires_on_time demo_prog [1; 2] 5 demo_memory [EvTick] 1 2 100 7
            [EvTick; EvCall (CallSet 2 9 200 0); EvTick; EvTick] _ _ _ _ _ _ _ _).
  - apply demo_prog_valid.
  - cbn. lia.
  - intros f p. unfold demo_prog. destruct (f =? 100); valid_demo.
  - intros id _. reflexivity.
  - valid_demo.
  - valid_demo.
  - valid_demo.
  - valid_demo.
Defined.

Lemma zero_delay_stalls_witness :
  exists s log0 s',
    run demo_prog 5 0 [EvCall (CallSet 1 2 100 7)] (_vt_init demo_memory) = Some (s, log0) /\
    run demo_prog 5 0 [EvCall (CallSet 2 0 200 7); EvTick; EvTick; EvTick] s = Some (s', []).
Proof.
  refine (zero_delay_stalls demo_prog [1; 2] 5 demo_memory [EvCall (CallSet 1 2 100 7)] 2 200 7 3
            _ _ _ _ _ _ _).
  - apply demo_prog_valid.
  - cbn. lia.
  - intros id _. reflexivity.
  - valid_demo.
  - discriminate.
  - discriminate.
  - lia.
Defined.

(** ** Callbacks that leave the timers alone *)

Definition not_due (l : list timer) : list timer := List.filter (fun t => negb (t_left t =? 0)) l.

Lemma positive_not_due l : positive l -> due l = [] /\ not_due l = l.
Proof.
  induction l as [|t l IH]; intros H; [done|]. unfold due, not_due in *. cbn.
  assert (Ht := H t ltac:(by left)). rewrite (proj2 (Z.eqb_neq _ _)) by lia. cbn.
  destruct IH as [-> E]; [intros u Hu; apply H; by right|]. by rewrite E.
Qed.

(** The loop of the tick when a callback only changes the rest of the state: it fires
    the timers that are due, in order, and leaves the others. *)
Lemma fire_loop_pure {S} (callback : Z -> Z -> vtimers * S -> option (vtimers * S))
    (g : Z -> Z -> S -> S) :
  (forall fn p s x, callback fn p (s, x) = Some (s, g fn p x)) ->
  forall n s x l, implements s l -> bounded l -> (length (due l) < n)%nat ->
  exists s' f, fire_loop callback n (s, x)
               = Some (s', fold_left (fun x t => g (t_func t) (t_par t) x) (due l) x, f) /\
    implements s' (not_due l) /\ positive (not_due l).
Proof.
  intros Hcb. induction n as [|n IH]; intros s x l Him Hb Hn; [lia|]. cbn [fire_loop].
  destruct l as [|t l].
  { assert (Hv := proj1 (im_links _ _ Him)). fold (next s vtlist) in Hv. cbn in Hv. rewrite Hv.
    rewrite (im_header_delta _ _ Him). cbn. exists s, []. split; [done|split; [done|by intros u []]]. }
  assert (Hv := proj1 (im_links _ _ Him)). cbn [map] in Hv. fold (next s vtlist) in Hv.
  destruct (im_deltas _ _ Him) as (Hr & Hd & Hds). rewrite Z.sub_0_r in *.
  fold (delta s (t_id t)) in Hd. rewrite Hv, Hd.
  destruct (Z.eqb_spec (t_left t) 0) as [E0|E0].
  2:{ assert (Hpos : positive (t :: l)).
      { intros u [<-|Hu]; [lia|]. eapply deltas_positive; [|exact Hds|done]. lia. }
      destruct (positive_not_due _ Hpos) as [-> ->]. exists s, []. done. }
  assert (Hpop := pop_ok s t l Him E0). cbv zeta in Hpop.
  destruct (im_fields _ _ Him t ltac:(by left)) as (Hfn & Hpar & _).
  set (s1 := set_next vtlist _ _) in *.
  assert (Hpar1 : par s1 (t_id t) = t_par t) by (unfold s1; fields; done).
  rewrite Hpar1, Hfn, Hcb. unfold due, not_due in *. cbn [List.filter] in *.
  rewrite E0 in *. cbn [Z.eqb negb fold_left length] in *.
  destruct (IH s1 (g (t_func t) (t_par t) x) l Hpop) as (s2 & f & -> & H); [|lia|].
  - intros u Hu. apply Hb. by right.
  - by eexists s2, _.
Qed.

(** A whole tick, for such callbacks. *)
Lemma tick_pure {S} (callback : Z -> Z -> vtimers * S -> option (vtimers * S))
    (g : Z -> Z -> S -> S) n s x l :
  (forall fn p s x, callback fn p (s, x) = Some (s, g fn p x)) ->
  implements s l -> bounded l -> positive l -> (length l < n)%nat ->
  exists s' f, chVTDoTickI callback n (s, x)
               = Some (s', fold_left (fun x t => g (t_func t) (t_par t) x) (due (age 1 l)) x, f) /\
    implements s' (not_due (age 1 l)) /\ positive (not_due (age 1 l)).
Proof.
  intros Hcb Him Hb Hpos Hn. unfold chVTDoTickI.
  destruct (tick_start s l Him Hpos) as [Him0 [(-> & ->)|(-> & Him1)]].
  - cbn. eexists _, []. split; [done|split; [exact Him0|by intros u []]].
  - apply (fire_loop_pure callback g Hcb); [done| |].
    + intros u (v & <- & Hv)%in_map_iff. cbn. specialize (Hb v Hv). specialize (Hpos v Hv). lia.
    + assert (length (due (age 1 l)) <= length (age 1 l))%nat by apply filter_length_le.
      unfold age in *. rewrite length_map in *. lia.
Qed.
