(* ===== verification/SoftPwm.v ===== *)
(** Pulse outputs (orchard/arduino-pwm.c, orchard/arduino-tone.c, orchard/lptmr.c, and
    the PWM driver calls they make: os/hal/src/pwm.c and
    os/hal/ports/KINETIS/KL02x/pwm_lld.c).

    [io] collects the state of these files and of the components they call: the pins,
    the interrupt vectors and the virtual timers.  [softPwmTick] is the interrupt of the
    SPI block, which serves as a 23 kHz clock for the software PWM of the pins D4 and
    D5; a hook the sketch installs is an argument.  Registers whose value nothing reads
    back (clock gates, prescalers, the calibration of the oscillator in enableLptmr) are
    not part of the state.

    Proved: the exact waveform of the software PWM for every analogWrite value. *)
From S2P Require Import Prelude Pins Irqs Timers.
Local Open Scope Z_scope.

(** ** State *)

Inductive pwm_id : Set := PWMD1 | PWMD2.
#[export] Instance pwm_id_eq_dec : EqDecision pwm_id.
Proof. solve_decision. Defined.

Inductive pwm_state : Set := PWM_STOP | PWM_READY.

(** A PWM driver: the fields of PWMDriver and the registers of its TPM unit. *)
Record pwm_driver : Type := PwmDriver {
  pwm_st : pwm_state; pwm_enabled : Z; pwm_MOD : Z; pwm_V : Z -> Z
}.

Record soft : Type := Soft {
  soft_pwm_counter : Z; soft_pwm_running : Z; soft_pwm_hook : Z;
  SPI0_C1 : Z; SPI0_BR : Z; SPI0_D : Z; spi_vector_enabled : bool
}.

Record lptmr : Type := Lptmr {
  lptmr_enabled : Z; lptmr_running : Z; lptmr_pad : Z; lptmr_rate : Z;
  lptmr_port : option ioport; LPTMR0_CMR : Z; LPTMR0_CSR : Z
}.

Record io : Type := Io {
  brd : board; vec : vectors; spwm : soft; pwmd : pwm_id -> pwm_driver; lpt : lptmr;
  vts : vtimers
}.

Definition set_brd v s := Io v (vec s) (spwm s) (pwmd s) (lpt s) (vts s).
Definition set_vec v s := Io (brd s) v (spwm s) (pwmd s) (lpt s) (vts s).
Definition set_spwm v s := Io (brd s) (vec s) v (pwmd s) (lpt s) (vts s).
Definition set_pwmd v s := Io (brd s) (vec s) (spwm s) v (lpt s) (vts s).
Definition set_lpt v s := Io (brd s) (vec s) (spwm s) (pwmd s) v (vts s).
Definition set_vts v s := Io (brd s) (vec s) (spwm s) (pwmd s) (lpt s) v.

(** ** Software PWM *)

Definition SOFT_PWM_CYCLE : Z := 64.
Definition ARDUINO_MAX : Z := 255.
Definition KINETIS_SYSCLK_FREQUENCY : Z := 47972352.
Definition PWM_DIVISOR : Z := 16.
Definition PWM_FREQUENCY : Z := KINETIS_SYSCLK_FREQUENCY / PWM_DIVISOR.
Definition PWM_PERIOD : Z := PWM_FREQUENCY / (2 * ARDUINO_MAX).
Definition SPIx_C1_SPE : Z := 0x40.
Definition SPIx_C1_SPTIE : Z := 0x20.
Definition SPIx_C1_MSTR : Z := 0x10.

(** Writes to the set and clear registers of a port. *)
Definition gpio_set (port : ioport) (mask : Z) (b : board) : board :=
  set_PDOR (upd_port (PDOR b) port (Z.lor (PDOR b port) mask)) b.
Definition gpio_clear (port : ioport) (mask : Z) (b : board) : board :=
  set_PDOR (upd_port (PDOR b) port (Z.ldiff (PDOR b port) mask)) b.

Definition set_counter v p :=
  Soft v (soft_pwm_running p) (soft_pwm_hook p) (SPI0_C1 p) (SPI0_BR p) (SPI0_D p) (spi_vector_enabled p).
Definition set_hook v p :=
  Soft (soft_pwm_counter p) (soft_pwm_running p) v (SPI0_C1 p) (SPI0_BR p) (SPI0_D p) (spi_vector_enabled p).
Definition write_SPI0_D v p :=
  Soft (soft_pwm_counter p) (soft_pwm_running p) (soft_pwm_hook p) (SPI0_C1 p) (SPI0_BR p) v
    (spi_vector_enabled p).

Section SoftPwm.
(** The address of softPwmTick, and what the hook of the sketch does. *)
Context (softPwmTick_p : Z) (run_hook : Z -> io -> io).

(** "If both timers are stopped, unhook ourselves." *)
Definition soft_pwm_stop (s : io) : io :=
  let p := spwm s in
  let s := set_vec (detachFastInterrupt SPI_IRQ (vec s)) s in
  set_spwm (Soft (soft_pwm_counter p) 0 (soft_pwm_hook p) 0 (SPI0_BR p) (SPI0_D p) false) s.

(** Returns 1: the normal handler is to run too. *)
Definition softPwmTick (s : io) : Z * io :=
  if (fst (soft_pwm (brd s)) =? -1) && (snd (soft_pwm (brd s)) =? -1)
     && (soft_pwm_hook (spwm s) =? 0)
  then (1, soft_pwm_stop s)
  else
    let c := soft_pwm_counter (spwm s) in
    let s := if c =? fst (soft_pwm (brd s)) then set_brd (gpio_set IOPORT2 (Z.shiftl 1 0) (brd s)) s
             else s in
    let s := if c =? snd (soft_pwm (brd s)) then set_brd (gpio_set IOPORT1 (Z.shiftl 1 7) (brd s)) s
             else s in
    let c := u16 (c - 1) in
    let s := set_spwm (set_counter c (spwm s)) s in
    let s := if c =? 0 then
               let s := set_spwm (set_counter SOFT_PWM_CYCLE (spwm s)) s in
               let s := set_brd (gpio_clear IOPORT1 (Z.shiftl 1 7) (brd s)) s in
               set_brd (gpio_clear IOPORT2 (Z.shiftl 1 0) (brd s)) s
             else s in
    let s := if negb (soft_pwm_hook (spwm s) =? 0) then run_hook (soft_pwm_hook (spwm s)) s else s in
    (1, set_spwm (write_SPI0_D 0xff (spwm s)) s).

Definition soft_pwm_start (s : io) : io :=
  if soft_pwm_running (spwm s) =? 0 then
    let p := spwm s in
    let s := set_vec (attachFastInterrupt SPI_IRQ softPwmTick_p (vec s)) s in
    set_spwm (Soft (soft_pwm_counter p) 1 (soft_pwm_hook p)
                (Z.lor (Z.lor SPIx_C1_SPE SPIx_C1_MSTR) SPIx_C1_SPTIE) 6 (SPI0_D p) true) s
  else s.

Definition hookSoftPwm (new_soft_pwm_hook : Z) (s : io) : io :=
  let s := set_spwm (set_hook new_soft_pwm_hook (spwm s)) s in
  if negb (soft_pwm_hook (spwm s) =? 0) then soft_pwm_start s else s.

(** ** The PWM driver *)

Definition upd_pwmd (f : pwm_id -> pwm_driver) (d : pwm_id) (v : pwm_driver) : pwm_id -> pwm_driver :=
  fun x => if decide (x = d) then v else f x.

(** pwmStart with the configuration [pwmcfg]. *)
Definition pwmStart (d : pwm_id) (s : io) : io :=
  set_pwmd (upd_pwmd (pwmd s) d (PwmDriver PWM_READY 0 (PWM_PERIOD - 1) (pwm_V (pwmd s d)))) s.

Definition pwmEnableChannel (d : pwm_id) (channel width : Z) (s : io) : io :=
  let p := pwmd s d in
  set_pwmd (upd_pwmd (pwmd s) d
    (PwmDriver (pwm_st p) (Z.lor (pwm_enabled p) (Z.shiftl 1 channel)) (pwm_MOD p)
       (fun c => if c =? channel then width else pwm_V p c))) s.

(** ** analogWrite *)

Context (hw : hw_version).

(** The threshold of a software PWM channel, "rounded up". *)
Definition soft_threshold (value : Z) : Z :=
  let t := (value * SOFT_PWM_CYCLE) / 256 in
  if negb (value =? 0) && (t =? 0) then 1 else t.

Definition clamp_value (value : Z) : Z :=
  let value := if ARDUINO_MAX <? value then ARDUINO_MAX else value in
  if value <? 0 then 0 else value.

(** The end of analogWrite for the pins of the hardware PWM. *)
Definition start_pwm (port : ioport) (pad : Z) (d : pwm_id) (channel value : Z) (s : io) : io :=
  let s := set_brd (_pal_lld_setpadmode port pad PAL_MODE_ALTERNATIVE_2 (brd s)) s in
  let s := match pwm_st (pwmd s d) with PWM_READY => s | PWM_STOP => pwmStart d s end in
  pwmEnableChannel d channel (value * PWM_PERIOD / ARDUINO_MAX) s.

Definition disconnect (port : ioport) (pad : Z) (s : io) : io :=
  set_brd (_pal_lld_setpadmode port pad PAL_MODE_UNCONNECTED (brd s)) s.

Definition set_output (port : ioport) (pad : Z) (s : io) : io :=
  set_brd (_pal_lld_setpadmode port pad PAL_MODE_OUTPUT_PUSHPULL (brd s)) s.

Definition analogWrite (pin value : Z) (s : io) : io :=
  match pinToPort hw pin with
  | None => s
  | Some (port, pad) =>
      let mode := palGetPadMode port pad (brd s) in
      if (mode =? PAL_MODE_INPUT) || (mode =? PAL_MODE_INPUT_PULLUP)
         || (mode =? PAL_MODE_INPUT_PULLDOWN) || (mode =? PAL_MODE_INPUT_ANALOG)
      then s
      else
        let value := clamp_value value in
        let c := canonicalizePin hw pin in
        if c =? 0 then start_pwm port pad PWMD1 1 value (disconnect IOPORT1 8 s)
        else if c =? 1 then start_pwm port pad PWMD1 0 value (disconnect IOPORT1 9 s)
        else if c =? 2 then start_pwm port pad PWMD2 0 value s
        else if c =? 3
        then start_pwm port pad PWMD2 1 value
               (disconnect IOPORT2 (match hw with PVT1C => 4 | PVT1E => 3 end) s)
        else if c =? 4 then
          let s := set_brd (set_soft_pwm (soft_threshold value, snd (soft_pwm (brd s))) (brd s)) s in
          soft_pwm_start (set_output port pad s)
        else if c =? 5 then
          let s := set_brd (set_soft_pwm (fst (soft_pwm (brd s)), soft_threshold value) (brd s)) s in
          soft_pwm_start (set_output port pad s)
        else s
  end.

(** ** The low-power timer *)

Definition RATE : Z := 2000000.
Definition LPTMR_CSR_TCF : Z := Z.shiftl 1 7.
Definition LPTMR_CSR_TIE : Z := Z.shiftl 1 6.
Definition LPTMR_CSR_TEN : Z := Z.shiftl 1 0.

Definition enableLptmr (l : lptmr) : lptmr :=
  if negb (lptmr_enabled l =? 0) then l
  else Lptmr 1 (lptmr_running l) (lptmr_pad l) (lptmr_rate l) (lptmr_port l) (LPTMR0_CMR l)
         LPTMR_CSR_TIE.

Definition startLptmr (port : ioport) (pad rate_hz : Z) (l : lptmr) : lptmr :=
  if rate_hz =? 0 then l
  else
    let l := Lptmr (lptmr_enabled l) (lptmr_running l) (lptmr_pad l) (RATE / rate_hz)
               (lptmr_port l) (LPTMR0_CMR l) (LPTMR0_CSR l) in
    let l := enableLptmr l in
    if lptmr_running l =? 0
    then Lptmr (lptmr_enabled l) 1 pad (lptmr_rate l) (Some port) (lptmr_rate l)
           (Z.lor LPTMR_CSR_TIE LPTMR_CSR_TEN)
    else l.

Definition stopLptmr (l : lptmr) : lptmr :=
  if lptmr_running l =? 0 then l
  else Lptmr (lptmr_enabled l) 0 (lptmr_pad l) (lptmr_rate l) (lptmr_port l) (LPTMR0_CMR l) 0.

(** The part of the handler that belongs to the tone: toggle the pad, reload. *)
Definition lptmr_tick (s : io) : io :=
  let l := lpt s in
  if lptmr_running l =? 0 then s
  else
    match lptmr_port l with
    | None => s
    | Some port =>
        let b := brd s in
        let b := set_PDOR (upd_port (PDOR b) port
                             (Z.lxor (PDOR b port) (u32 (Z.shiftl 1 (lptmr_pad l))))) b in
        set_lpt (Lptmr (lptmr_enabled l) (lptmr_running l) (lptmr_pad l) (lptmr_rate l)
                   (lptmr_port l) (lptmr_rate l)
                   (Z.lor (Z.lor LPTMR_CSR_TCF LPTMR_CSR_TIE) LPTMR_CSR_TEN)) (set_brd b s)
    end.

(** Vector B0; [call_fast] and [call] run the handlers of the sketch. *)
Definition VectorB0 (call_fast : Z -> io -> Z * io) (call : Z -> io -> io) (s : io) : io :=
  let normal s := if negb (isr (vec s) LPTMR_IRQ =? 0) then call (isr (vec s) LPTMR_IRQ) s
                  else lptmr_tick s in
  if negb (fast_isr (vec s) LPTMR_IRQ =? 0) then
    let '(r, s) := call_fast (fast_isr (vec s) LPTMR_IRQ) s in
    if r =? 0 then s else normal s
  else normal s.

(** ** Tones *)

Definition CH_CFG_ST_FREQUENCY : Z := 1000.
Definition MS2ST (msec : Z) : Z := u32 (u32 (u32 msec * CH_CFG_ST_FREQUENCY) + 999) / 1000.

(** The address of [tone_timer] and of [stop_tone]; [fuel] bounds the scan of the timer
    list. *)
Context (tone_timer stop_tone_p : Z) (fuel : nat).

Definition arduinoToneInit (s : io) : io := set_vts (chVTObjectInit tone_timer (vts s)) s.

Definition tone (pin frequency duration : Z) (s : io) : option io :=
  match pinToPort hw pin with
  | None => Some s
  | Some (port, pad) =>
      if 65536 <? frequency then Some s
      else if negb (canUsePin hw pin (brd s)) then Some s
      else
        let s := set_output port pad s in
        let s := set_lpt (startLptmr port pad frequency (lpt s)) s in
        if negb (duration =? 0) then
          match chVTSet fuel tone_timer (MS2ST duration) stop_tone_p (u32 pin) (vts s) with
          | None => None
          | Some v => Some (set_vts v s)
          end
        else Some s
  end.

Definition noTone (pin : Z) (s : io) : io :=
  let s := set_lpt (stopLptmr (lpt s)) s in
  set_brd (digitalWrite hw pin LOW (brd s)) s.

Definition stop_tone (par : Z) (s : io) : io := noTone (s32 par) s.

Definition enableTimer (timer_number : Z) (s : io) : io :=
  if timer_number =? 1 then set_lpt (enableLptmr (lpt s)) s else s.
End SoftPwm.

(** ** The waveform of the software PWM *)

(** The output levels of D4 (PTB0) and D5 (PTA7). *)
Definition level_D4 (s : io) : bool := Z.testbit (PDOR (brd s) IOPORT2) 0.
Definition level_D5 (s : io) : bool := Z.testbit (PDOR (brd s) IOPORT1) 7.

Fixpoint ticks_of (run_hook : Z -> io -> io) (n : nat) (s : io) : io :=
  match n with O => s | S n => snd (softPwmTick run_hook (ticks_of run_hook n s)) end.

(** The level [n] ticks after the start of a cycle, for a threshold [t]. *)
Definition high (t n : Z) : bool := (65 - t <=? n mod 64) && negb (n mod 64 =? 0).

Record pwm_phase (t0 t1 n : Z) (s : io) : Prop := {
  ph_thresholds : soft_pwm (brd s) = (t0, t1);
  ph_hook : soft_pwm_hook (spwm s) = 0;
  ph_counter : soft_pwm_counter (spwm s) = 64 - n mod 64;
  ph_D4 : level_D4 s = high t0 n;
  ph_D5 : level_D5 s = high t1 n
}.

Lemma testbit_gpio_set port mask b p i :
  Z.testbit (PDOR (gpio_set port mask b) p) i
  = if decide (p = port) then Z.testbit (PDOR b p) i || Z.testbit mask i else Z.testbit (PDOR b p) i.
Proof.
  unfold gpio_set, upd_port. cbn [PDOR set_PDOR]. case_decide as E; [|done].
  subst. apply Z.lor_spec.
Qed.

Lemma testbit_gpio_clear port mask b p i :
  Z.testbit (PDOR (gpio_clear port mask b) p) i
  = if decide (p = port) then Z.testbit (PDOR b p) i && negb (Z.testbit mask i)
    else Z.testbit (PDOR b p) i.
Proof.
  unfold gpio_clear, upd_port. cbn [PDOR set_PDOR]. case_decide as E; [|done].
  subst. apply Z.ldiff_spec.
Qed.

(** The level after one tick, from the counter and the level before. *)
Lemma high_step t n : -1 <= t <= 64 -> 0 <= n ->
  high t (n + 1)
  = negb (n mod 64 =? 63) && ((64 - n mod 64 =? t) || high t n).
Proof.
  intros Ht Hn. unfold high.
  assert (Hm : (n + 1) mod 64 = if n mod 64 =? 63 then 0 else n mod 64 + 1).
  { destruct (Z.eqb_spec (n mod 64) 63); Z.div_mod_to_equations; lia. }
  rewrite Hm. assert (0 <= n mod 64 < 64) by (apply Z.mod_pos_bound; lia).
  destruct (n mod 64 =? 63) eqn:E; lia.
Qed.

Lemma counter_step n : 0 <= n ->
  64 - (n + 1) mod 64 = if n mod 64 =? 63 then 64 else 63 - n mod 64.
Proof. intros Hn. destruct (Z.eqb_spec (n mod 64) 63); Z.div_mod_to_equations; lia. Qed.

Lemma tick_phase run_hook t0 t1 n s :
  -1 <= t0 <= 64 -> -1 <= t1 <= 64 -> t0 <> -1 -> 0 <= n ->
  pwm_phase t0 t1 n s -> pwm_phase t0 t1 (n + 1) (snd (softPwmTick run_hook s)).
Proof.
  intros H0 H1 Hne Hn [Ht Hh Hc HD4 HD5].
  assert (Hm : 0 <= n mod 64 < 64) by (apply Z.mod_pos_bound; lia).
  unfold softPwmTick. rewrite Ht, Hh, Hc. cbn [fst snd].
  rewrite (proj2 (Z.eqb_neq t0 (-1))) by done. cbn [andb].
  unfold level_D4, level_D5 in HD4, HD5.
  set (s1 := if 64 - n mod 64 =? t0 then _ else s).
  assert (Hs1 : soft_pwm (brd s1) = (t0, t1) /\ spwm s1 = spwm s /\
                Z.testbit (PDOR (brd s1) IOPORT2) 0 = (64 - n mod 64 =? t0) || high t0 n /\
                Z.testbit (PDOR (brd s1) IOPORT1) 7 = high t1 n).
  { unfold s1. destruct (64 - n mod 64 =? t0); cbn [brd set_brd spwm];
      rewrite ?testbit_gpio_set, HD4, HD5, ?orb_true_r; done. }
  clearbody s1. destruct Hs1 as (Hp1 & Hw1 & H41 & H51). rewrite Hp1. cbn [snd].
  set (s2 := if 64 - n mod 64 =? t1 then _ else s1).
  assert (Hs2 : soft_pwm (brd s2) = (t0, t1) /\ spwm s2 = spwm s /\
                Z.testbit (PDOR (brd s2) IOPORT2) 0 = (64 - n mod 64 =? t0) || high t0 n /\
                Z.testbit (PDOR (brd s2) IOPORT1) 7 = (64 - n mod 64 =? t1) || high t1 n).
  { unfold s2. destruct (64 - n mod 64 =? t1); cbn [brd set_brd spwm];
      rewrite ?testbit_gpio_set, H41, H51; split_and!; try done; by rewrite orb_true_r. }
  clearbody s2. destruct Hs2 as (Hp2 & Hw2 & H42 & H52).
  rewrite u16_id by lia. set (s3 := if 64 - n mod 64 - 1 =? 0 then _ else _).
  assert (Hs3 : soft_pwm (brd s3) = (t0, t1) /\ soft_pwm_hook (spwm s3) = 0 /\
                soft_pwm_counter (spwm s3) = 64 - (n + 1) mod 64 /\
                Z.testbit (PDOR (brd s3) IOPORT2) 0 = high t0 (n + 1) /\
                Z.testbit (PDOR (brd s3) IOPORT1) 7 = high t1 (n + 1)).
  { unfold s3. rewrite counter_step, !high_step by done.
    replace (64 - n mod 64 - 1 =? 0) with (n mod 64 =? 63) by lia.
    destruct (n mod 64 =? 63) eqn:E; cbn [brd spwm set_brd set_spwm negb andb].
    - rewrite !testbit_gpio_clear, Hw2. split_and!; try done; apply andb_false_r.
    - rewrite Hw2, H42, H52. split_and!; try done. cbn. lia. }
  clearbody s3. destruct Hs3 as (Hp3 & Hh3 & Hc3 & H43 & H53).
  rewrite Hh3. cbn [Z.eqb negb]. by constructor.
Qed.

Lemma ticks_phase run_hook t0 t1 s n :
  -1 <= t0 <= 64 -> -1 <= t1 <= 64 -> t0 <> -1 ->
  pwm_phase t0 t1 0 s -> pwm_phase t0 t1 (Z.of_nat n) (ticks_of run_hook n s).
Proof.
  intros H0 H1 Hne Hs. induction n as [|n IH]; [done|].
  rewrite Nat2Z.inj_succ. apply tick_phase; try done. lia.
Qed.

Lemma threshold_range v : 0 <= soft_threshold (clamp_value v) <= 63.
Proof.
  unfold soft_threshold, clamp_value, ARDUINO_MAX, SOFT_PWM_CYCLE.
  destruct (255 <? v) eqn:E1; [done|]. destruct (v <? 0) eqn:E2; [done|].
  destruct (negb (v =? 0) && (v * 64 / 256 =? 0)); Z.div_mod_to_equations; lia.
Qed.

Lemma high_0 t : high t 0 = false.
Proof. apply andb_false_r. Qed.

(** The number of high intervals in a cycle. *)
Lemma high_count t : 0 <= t <= 63 ->
  length (List.filter (fun k => high t (Z.of_nat k)) (seq 1 64)) = Z.to_nat (t - 1).
Proof.
  intros Ht.
  assert (H : forallb (fun t => Nat.eqb
                (length (List.filter (fun k => high (Z.of_nat t) (Z.of_nat k)) (seq 1 64)))
                (Z.to_nat (Z.of_nat t - 1))) (seq 0 64) = true) by (vm_compute; reflexivity).
  rewrite forallb_forall in H. specialize (H (Z.to_nat t)). cbv beta in H.
  rewrite Z2Nat.id in H by lia. apply Nat.eqb_eq, H, in_seq. lia.
Qed.

Lemma analogWrite_D4_phase ptr hw v s t1 :
  palGetPadMode IOPORT2 0 (brd s) = PAL_MODE_OUTPUT_PUSHPULL ->
  soft_pwm_hook (spwm s) = 0 -> soft_pwm_counter (spwm s) = SOFT_PWM_CYCLE ->
  level_D4 s = false -> level_D5 s = false -> snd (soft_pwm (brd s)) = t1 ->
  pwm_phase (soft_threshold (clamp_value v)) t1 0 (analogWrite ptr hw 4 v s).
Proof.
  intros Hm Hh Hc H4 H5 Ht1. unfold analogWrite.
  replace (pinToPort hw 4) with (Some (IOPORT2, 0)) by (destruct hw; reflexivity). cbv beta iota. rewrite Hm.
  match goal with |- context [if ?c then s else _] => change c with false end.
  replace (canonicalizePin hw 4) with 4 by (destruct hw; reflexivity). cbv beta iota zeta. cbn [Z.eqb orb Pos.eqb].
  set (s1 := set_output _ _ _).
  assert (Hb1 : soft_pwm (brd s1) = (soft_threshold (clamp_value v), t1)).
  { unfold s1, set_output, _pal_lld_setpadmode. cbn [brd set_brd]. rewrite <- Ht1. done. }
  assert (Hd1 : PDOR (brd s1) = PDOR (brd s)) by done.
  assert (Hw1 : spwm s1 = spwm s) by done. clearbody s1.
  unfold soft_pwm_start, level_D4, level_D5 in *.
  destruct (soft_pwm_running (spwm s1) =? 0); constructor; cbn [brd spwm set_spwm set_vec];
    unfold level_D4, level_D5; cbn [brd set_spwm set_vec soft_pwm_hook soft_pwm_counter];
    rewrite ?Hd1, ?Hw1, ?H4, ?H5; by rewrite ?high_0.
Qed.

(** analogWrite on D4 with the software PWM stopped at the start of a cycle: [n]
    interrupts later the pin is high exactly in the last [t - 1] intervals of the
    64-interval cycle, where [t] is the written value (clamped to 0..255) divided by 4
    and rounded up to 1 for a value that is not 0; D5 keeps its own waveform.  So
    the duty cycle is (t - 1)/64, one interval less than the threshold, and the "round
    up" for small values has no effect: the values 1 to 7 leave the pin low in every
    interval, and 255 gives 62/64. *)
Theorem soft_pwm_waveform ptr hw run_hook value s n :
  palGetPadMode IOPORT2 0 (brd s) = PAL_MODE_OUTPUT_PUSHPULL ->
  soft_pwm_hook (spwm s) = 0 -> soft_pwm_counter (spwm s) = SOFT_PWM_CYCLE ->
  level_D4 s = false -> level_D5 s = false -> -1 <= snd (soft_pwm (brd s)) <= 64 ->
  let t := soft_threshold (clamp_value value) in
  let after k := ticks_of run_hook k (analogWrite ptr hw 4 value s) in
  level_D4 (after n) = (65 - t <=? Z.of_nat n mod 64) && negb (Z.of_nat n mod 64 =? 0) /\
  level_D5 (after n) = high (snd (soft_pwm (brd s))) (Z.of_nat n) /\
  length (List.filter (fun k => level_D4 (after k)) (seq 1 64)) = Z.to_nat (t - 1) /\
  (value < 8 -> level_D4 (after n) = false).
Proof.
  intros Hm Hh Hc H4 H5 Ht1 t after. set (t1 := snd (soft_pwm (brd s))) in *.
  assert (Htr : 0 <= t <= 63) by apply threshold_range.
  assert (Hph : forall k, pwm_phase t t1 (Z.of_nat k) (after k)).
  { intros k. apply ticks_phase; [lia|lia|lia|]. by apply analogWrite_D4_phase. }
  split; [apply (ph_D4 _ _ _ _ (Hph n))|split; [apply (ph_D5 _ _ _ _ (Hph n))|split]].
  - rewrite <- high_count by done. f_equal. apply List.filter_ext. intros k.
    apply (ph_D4 _ _ _ _ (Hph k)).
  - intros Hv. rewrite (ph_D4 _ _ _ _ (Hph n)). unfold high.
    assert (t <= 1).
    { unfold t, soft_threshold, clamp_value, ARDUINO_MAX, SOFT_PWM_CYCLE.
      replace (255 <? value) with false by lia.
      destruct (value <? 0) eqn:E; [done|].
      destruct (negb (value =? 0) && (value * 64 / 256 =? 0)); Z.div_mod_to_equations; lia. }
    assert (0 <= Z.of_nat n mod 64 < 64) by (apply Z.mod_pos_bound; lia). lia.
Qed.

Definition demo_io : io :=
  Io (Board (fun _ _ => 0x100) (fun _ => 0x2081) (fun _ => 0) 0 (-1, -1) 10) vectors_bss
    (Soft 64 0 0 0 0 0 false) (fun _ => PwmDriver PWM_STOP 0 0 (fun _ => 0))
    (Lptmr 0 0 0 0 None 0 0) (VT (fun _ => VtNode 0 0 0 0 0) 0).

Lemma soft_pwm_waveform_witness :
  level_D4 (ticks_of (fun _ s => s) 40 (analogWrite 1 PVT1E 4 128 demo_io)) = true.
Proof.
  exact (proj1 (soft_pwm_waveform 1 PVT1E (fun _ s => s) 128 demo_io 40
                  eq_refl eq_refl eq_refl eq_refl eq_refl ltac:(cbn; lia))).
Defined.
