(* ===== verification/Callbacks.v ===== *)
(** Timer callbacks of the sketch (orchard/arduino-chibios.c): setTimer, resetTimer,
    the function the kernel timer calls, and runCallbacks, which the Arduino thread
    calls to run what has expired.

    Two tables of two slots connect them: [vtcallbacks] holds what setTimer was asked
    for until the timer expires, [scheduled_callbacks] what has expired until
    runCallbacks runs it.  The timers are those of [Timers], and the parameter of the
    kernel timer, [&vtcallbacks[i]], is the index [i].  The functions of the sketch are
    an argument; they may set and reset timers.

    Proved: runCallbacks runs exactly what was scheduled and leaves nothing behind, for
    any history of calls and ticks; and the slots of [vtcallbacks] leak: after two timers
    were reset before they expired, setTimer fails for ever.  [lost_callback] shows the
    race between the decrement of the counter in runCallbacks and the interrupt. *)
From S2P Require Import Prelude Timers.
Local Open Scope Z_scope.

(** A [struct vt_callback]: function and parameter; 0 is NULL. *)
Abbreviation vt_callback := (Z * Z)%type.

Record callbacks : Type := Callbacks {
  vtcallbacks : list vt_callback;
  scheduled_callbacks : list vt_callback;
  num_scheduled_callbacks : Z;
  timers : vtimers
}.

Definition callbacks_bss (t : vtimers) : callbacks := Callbacks [(0, 0); (0, 0)] [(0, 0); (0, 0)] 0 t.

(** The first slot without a function, from index [i] on. *)
Fixpoint free_slot (i : nat) (slots : list vt_callback) : option nat :=
  match slots with
  | [] => None
  | (f, _) :: slots => if f =? NULL then Some i else free_slot (S i) slots
  end.

Section Callbacks.
(** The address of post_timer_callback_to_arduino_thread, and the fuel of the list
    operations. *)
Context (post_p : Z) (fuel : nat).

Definition post_timer_callback_to_arduino_thread (slot : Z) (c : callbacks) : callbacks :=
  let '(func, param) := nth (Z.to_nat slot) (vtcallbacks c) (0, 0) in
  let vt := <[Z.to_nat slot := (NULL, NULL)]> (vtcallbacks c) in
  match free_slot 0 (scheduled_callbacks c) with
  | Some i =>
      Callbacks vt (<[i := (func, param)]> (scheduled_callbacks c))
        (u8 (num_scheduled_callbacks c + 1)) (timers c)
  | None => Callbacks vt (scheduled_callbacks c) (num_scheduled_callbacks c) (timers c)
  end.

Definition set_timers (t : vtimers) (c : callbacks) : callbacks :=
  Callbacks (vtcallbacks c) (scheduled_callbacks c) (num_scheduled_callbacks c) t.

Definition setTimer (vtp delay vtfunc par : Z) (c : callbacks) : option (Z * callbacks) :=
  match free_slot 0 (vtcallbacks c) with
  | None => Some (-1, c)
  | Some i =>
      let c := Callbacks (<[i := (vtfunc, par)]> (vtcallbacks c)) (scheduled_callbacks c)
                 (num_scheduled_callbacks c) (timers c) in
      match chVTSet fuel vtp delay post_p (Z.of_nat i) (timers c) with
      | None => None
      | Some t => Some (0, set_timers t c)
      end
  end.

Definition resetTimer (vtp : Z) (c : callbacks) : callbacks :=
  set_timers (chVTReset vtp (timers c)) c.

(** The system tick.  The other functions the kernel passes to its timers do not touch
    the state modelled here. *)
Definition tick_callback (fn par : Z) (st : vtimers * callbacks) : option (vtimers * callbacks) :=
  if fn =? post_p then Some (fst st, post_timer_callback_to_arduino_thread par (snd st)) else Some st.

Definition tick (c : callbacks) : option callbacks :=
  match chVTDoTickI tick_callback fuel (timers c, c) with
  | None => None
  | Some (t, c, _) => Some (set_timers t c)
  end.

(** What a function of the sketch does to the timers. *)
Inductive timer_call : Type :=
| SetTimer (vtp delay vtfunc par : Z)
| ResetTimer (vtp : Z).

Definition do_call (t : timer_call) (c : callbacks) : option callbacks :=
  match t with
  | SetTimer vtp delay f p =>
      match setTimer vtp delay f p c with None => None | Some (_, c) => Some c end
  | ResetTimer vtp => Some (resetTimer vtp c)
  end.

Fixpoint do_calls (ts : list timer_call) (c : callbacks) : option callbacks :=
  match ts with
  | [] => Some c
  | t :: ts => match do_call t c with None => None | Some c => do_calls ts c end
  end.

Context (sketch : Z -> Z -> list timer_call).

(** One round of the loop of runCallbacks; the calls made are listed. *)
Definition run_slot (i : nat) (c : callbacks) : option (list vt_callback * callbacks) :=
  let '(func, param) := nth i (scheduled_callbacks c) (0, 0) in
  if func =? NULL then Some ([], c)
  else
    match do_calls (sketch func param) c with
    | None => None
    | Some c =>
        let param' := snd (nth i (scheduled_callbacks c) (0, 0)) in
        Some ([(func, param)],
              Callbacks (vtcallbacks c) (<[i := (NULL, param')]> (scheduled_callbacks c))
                (u8 (num_scheduled_callbacks c - 1)) (timers c))
    end.

Definition runCallbacks (c : callbacks) : option (list vt_callback * callbacks) :=
  if num_scheduled_callbacks c =? 0 then Some ([], c)
  else
    match run_slot 0 c with
    | None => None
    | Some (l0, c) =>
        match run_slot 1 c with None => None | Some (l1, c) => Some (l0 ++ l1, c) end
    end.

(** ** Histories *)

Inductive action : Type :=
| ACall (t : timer_call)
| ATick
| ARun.

(** The functions the history has run. *)
Fixpoint history (acts : list action) (c : callbacks) : option (list vt_callback * callbacks) :=
  match acts with
  | [] => Some ([], c)
  | a :: acts =>
      match (match a with
             | ACall t => match do_call t c with None => None | Some c => Some ([], c) end
             | ATick => match tick c with None => None | Some c => Some ([], c) end
             | ARun => runCallbacks c
             end) with
      | None => None
      | Some (l, c) =>
          match history acts c with None => None | Some (l', c) => Some (l ++ l', c) end
      end
  end.

(** ** The state of the tables *)

Definition pending (c : callbacks) : list vt_callback :=
  List.filter (fun s => negb (fst s =? NULL)) (scheduled_callbacks c).

Definition slot_func (c : callbacks) (i : Z) : Z := fst (nth (Z.to_nat i) (vtcallbacks c) (0, 0)).

(** The tables have two slots, and the counter counts the scheduled callbacks. *)
Record tables_ok (c : callbacks) : Prop := {
  tk_sched : length (scheduled_callbacks c) = 2%nat;
  tk_vt : length (vtcallbacks c) = 2%nat;
  tk_num : num_scheduled_callbacks c = Z.of_nat (length (pending c))
}.

(** Every armed timer of the sketch owns an occupied slot. *)
Record slots_ok (l : list timer) (c : callbacks) : Prop := {
  sl_post : forall t, In t l -> t_func t = post_p;
  sl_used : forall t, In t l -> 0 <= t_par t < 2 /\ slot_func c (t_par t) <> NULL;
  sl_distinct : NoDup (map t_par l)
}.

(** What holds between two calls of the sketch, for the list [l] of armed timers. *)
Record wf (l : list timer) (c : callbacks) : Prop := {
  wf_timers : implements (timers c) l;
  wf_bounded : bounded l;
  wf_positive : positive l;
  wf_slots : slots_ok l c;
  wf_tables : tables_ok c
}.

Definition valid_timer_call (t : timer_call) : Prop :=
  match t with
  | SetTimer vtp delay f _ => vtp <> vtlist /\ 1 <= delay < 4294967296 /\ f <> NULL
  | ResetTimer vtp => vtp <> vtlist
  end.
Definition valid_action (a : action) : Prop :=
  match a with ACall t => valid_timer_call t | _ => True end.

Lemma two_slots (l : list vt_callback) : length l = 2%nat -> exists a b, l = [a; b].
Proof. destruct l as [|a [|b [|]]]; try done. eauto. Qed.

(** The timer function, called for an occupied slot: it frees the slot and schedules
    the callback if there is room. *)
Lemma post_ok i c :
  tables_ok c -> 0 <= i < 2 -> slot_func c i <> NULL ->
  let c' := post_timer_callback_to_arduino_thread i c in
  tables_ok c' /\ (forall j, 0 <= j -> j <> i -> slot_func c' j = slot_func c j) /\
  length (pending c') = Nat.min 2 (S (length (pending c))) /\ timers c' = timers c.
Proof.
  intros [Hs Hv Hn] Hi Hf. unfold post_timer_callback_to_arduino_thread, slot_func, pending in *.
  destruct c as [vt sch num t]; cbn [scheduled_callbacks vtcallbacks num_scheduled_callbacks timers] in *.
  destruct (nth (Z.to_nat i) vt (0, 0)) as [f p] eqn:Ei. cbn [fst] in Hf.
  apply Z.eqb_neq in Hf.
  assert (Hj : forall j, 0 <= j -> j <> i ->
            fst (nth (Z.to_nat j) (<[Z.to_nat i:=(NULL, NULL)]> vt) (0, 0))
            = fst (nth (Z.to_nat j) vt (0, 0))).
  { intros j Hj0 Hj. rewrite !nth_lookup, list_lookup_insert_ne by lia. done. }
  destruct (two_slots _ Hs) as ([f0 p0] & [f1 p1] & E). subst sch num.
  cbn [free_slot List.filter fst]. 
  destruct (f0 =? NULL) eqn:E0, (f1 =? NULL) eqn:E1; cbn [negb length];
    (split; [constructor; unfold pending;
             cbn [scheduled_callbacks vtcallbacks num_scheduled_callbacks]|
             cbn [scheduled_callbacks vtcallbacks num_scheduled_callbacks timers]]);
    rewrite ?length_insert; try done;
    cbn [insert list_insert List.filter fst]; rewrite ?Hf, ?E0, ?E1; try done;
    (split; [exact Hj|done]).
Qed.

(** The timers that fire in a tick. *)
Lemma posts_ok due rest : forall c,
  tables_ok c -> slots_ok (due ++ rest) c ->
  let c' := fold_left (fun x t => if t_func t =? post_p
                                  then post_timer_callback_to_arduino_thread (t_par t) x else x) due c in
  tables_ok c' /\ slots_ok rest c' /\
  length (pending c') = Nat.min 2 (length (pending c) + length due) /\ timers c' = timers c.
Proof.
  induction due as [|t due IH]; intros c Ht Hs; cbn [fold_left app length] in *.
  { split; [done|split; [done|split; [|done]]]. rewrite Nat.add_0_r. symmetry. apply Nat.min_r.
    destruct Ht as [Hl _ _]. rewrite <- Hl. apply List.filter_length_le. }
  destruct Hs as [Hp Hu Hd]. rewrite (Hp t) by (by left). rewrite Z.eqb_refl.
  destruct (Hu t ltac:(by left)) as [Hi Hf].
  destruct (post_ok (t_par t) c Ht Hi Hf) as (Ht1 & Hj & Hl & Htm).
  cbn [map] in Hd. apply list.NoDup_cons in Hd as [Hni Hd]. rewrite list_elem_of_In in Hni.
  destruct (IH (post_timer_callback_to_arduino_thread (t_par t) c) Ht1) as (H1 & H2 & H3 & H4).
  - constructor; [intros u Hin; apply Hp; by right| |done].
    intros u Hin. destruct (Hu u ltac:(by right)) as [Hiu Hfu]. split; [done|].
    rewrite Hj; [done|lia|]. intros E. apply Hni. rewrite <- E. by apply in_map.
  - split; [done|split; [done|split; [|congruence]]]. rewrite H3, Hl. lia.
Qed.

Context (Hpost : post_p <> NULL) (Hfuel : (2 < fuel)%nat).

Lemma sorted_split l : (exists n b, deltas n b l) -> (forall t, In t l -> 0 <= t_left t) ->
  l = due l ++ not_due l.
Proof.
  intros (n & b & Hd) H0. revert b Hd. induction l as [|t l IH]; intros b Hd; [done|].
  cbn in Hd. destruct Hd as (Hr & _ & Hd). unfold due, not_due in *. cbn [List.filter].
  destruct (Z.eqb_spec (t_left t) 0) as [E|E]; cbn [negb app].
  - f_equal. apply (IH ltac:(intros u Hu; apply H0; by right) _ Hd).
  - assert (Hp : positive l).
    { apply (deltas_positive n l (t_left t)); [|done]. specialize (H0 t ltac:(by left)). lia. }
    destruct (positive_not_due l Hp) as [E1 E2]. unfold due, not_due in *. by rewrite E1, E2.
Qed.

Lemma slots_bound l c : slots_ok l c -> (length l <= 2)%nat.
Proof.
  intros [_ Hu Hd]. rewrite <- (length_map t_par l).
  apply (NoDup_incl_length (l' := [0; 1])); [by apply NoDup_ListNoDup|].
  intros i (t & <- & Ht)%in_map_iff. destruct (Hu t Ht) as [Hi _]. cbn. lia.
Qed.

Lemma tick_wf l c :
  wf l c -> exists l' c', tick c = Some c' /\ wf l' c' /\
    length (pending c') = Nat.min 2 (length (pending c) + length (due (age 1 l))).
Proof.
  intros [Him Hb Hp Hs Ht]. unfold tick.
  destruct (tick_pure tick_callback
              (fun fn p x => if fn =? post_p then post_timer_callback_to_arduino_thread p x else x)
              fuel (timers c) c l) as (s' & f & -> & H1 & H2); try done.
  { intros fn p s x. unfold tick_callback. cbn. by destruct (fn =? post_p). }
  { assert (H := slots_bound l c Hs). lia. }
  assert (Hage : age 1 l = due (age 1 l) ++ not_due (age 1 l)).
  { apply sorted_split.
    - exists (node (timers c)), (0 - 1). apply deltas_age, (im_deltas _ _ Him).
    - intros u (v & <- & Hv)%in_map_iff. cbn. specialize (Hp v Hv). lia. }
  assert (Hs1 : slots_ok (due (age 1 l) ++ not_due (age 1 l)) c).
  { rewrite <- Hage. destruct Hs as [Hs1 Hs2 Hs3]. constructor.
    - intros u (v & <- & Hv)%in_map_iff. apply (Hs1 v Hv).
    - intros u (v & <- & Hv)%in_map_iff. apply (Hs2 v Hv).
    - unfold age. by rewrite map_map. }
  destruct (posts_ok _ _ c Ht Hs1) as (Ht' & Hs' & Hl & Htm).
  exists (not_due (age 1 l)). eexists. split; [reflexivity|]. split; [|exact Hl].
  constructor; try done.
  - intros u [Hu _]%filter_In. apply in_map_iff in Hu as (v & <- & Hv). cbn.
    specialize (Hb v Hv). specialize (Hp v Hv). lia.
  - destruct Hs' as [? ? ?]. by constructor.
  - destruct Ht' as [? ? ?]. by constructor.
Qed.

Lemma free_slot_spec n vt i : free_slot n vt = Some i ->
  (n <= i < n + length vt)%nat /\ fst (nth (i - n) vt (0, 0)) = NULL.
Proof.
  revert n. induction vt as [|[f p] vt IH]; intros n; cbn; [done|].
  destruct (Z.eqb_spec f NULL) as [->|].
  - intros [= ->]. rewrite Nat.sub_diag. split; [lia|done].
  - intros (H1 & H2)%IH. split; [lia|].
    by replace (i - n)%nat with (S (i - S n)) by lia.
Qed.

Lemma spec_insert_perm x l : Permutation (spec_insert x l) (x :: l).
Proof.
  induction l as [|y l IH]; cbn; [done|]. case_match; [|done].
  rewrite IH. apply perm_swap.
Qed.

Lemma resetTimer_wf vtp l c : vtp <> vtlist -> wf l c ->
  wf (spec_reset vtp l) (resetTimer vtp c).
Proof.
  intros Hv [Him Hb Hp Hs Ht]. destruct (chVTReset_ok vtp (timers c) l Him Hb Hv) as [Him' _].
  unfold resetTimer. constructor; cbn [timers set_timers]; try done.
  - intros t [Ht' _]%spec_reset_in. by apply Hb.
  - intros t [Ht' _]%spec_reset_in. by apply Hp.
  - destruct Hs as [H1 H2 H3]. constructor.
    + intros t [Ht' _]%spec_reset_in. by apply H1.
    + intros t [Ht' _]%spec_reset_in. by apply H2.
    + clear -H3. unfold spec_reset. induction l as [|t l IH]; [done|]. cbn in *.
      apply list.NoDup_cons in H3 as [Hni Hnd]. case_match; cbn; [|by apply IH].
      constructor; [|by apply IH]. rewrite list_elem_of_In in *.
      intros (u & E & [Hu _]%filter_In)%in_map_iff. apply Hni. rewrite <- E. by apply in_map.
  - destruct Ht. by constructor.
Qed.

Lemma setTimer_wf vtp delay f p l c :
  vtp <> vtlist -> 1 <= delay < 4294967296 -> f <> NULL -> wf l c ->
  exists r c' l', setTimer vtp delay f p c = Some (r, c') /\ wf l' c' /\
    scheduled_callbacks c' = scheduled_callbacks c.
Proof.
  intros Hv Hd Hf Hwf. unfold setTimer.
  destruct (free_slot 0 (vtcallbacks c)) as [i|] eqn:Ei; [|by exists (-1), c, l].
  apply free_slot_spec in Ei as [Hi Hfi]. rewrite Nat.sub_0_r in Hfi.
  destruct Hwf as [Him Hb Hp Hs Ht]. destruct Ht as [Ht1 Ht2 Ht3]. rewrite Ht2 in Hi.
  cbn [timers]. destruct (chVTSet_ok fuel (Timer vtp delay post_p (Z.of_nat i)) (timers c) l Him Hb)
    as (t' & E & Him' & _); try done; [cbn [t_left]; lia| |].
  { assert (H := slots_bound l c Hs). lia. }
  cbn [t_id t_left t_func t_par] in E, Him'. rewrite E.
  set (c' := set_timers t' _). exists 0, c', (spec_insert (Timer vtp delay post_p (Z.of_nat i)) (spec_reset vtp l)).
  split; [done|]. split; [|done].
  destruct (resetTimer_wf vtp l c Hv ltac:(by constructor)) as [_ Hb1 Hp1 [S1 S2 S3] _].
  assert (Hslot : forall j, 0 <= j -> j <> Z.of_nat i -> slot_func c' j = slot_func c j).
  { intros j Hj Hne. unfold slot_func, c'. cbn [vtcallbacks set_timers].
    rewrite !nth_lookup, list_lookup_insert_ne by lia. done. }
  constructor; unfold c'; cbn [timers set_timers]; try done.
  - intros t [->|Ht]%spec_insert_in; [cbn; lia|by apply Hb1].
  - intros t [->|Ht]%spec_insert_in; [cbn; lia|by apply Hp1].
  - constructor.
    + intros t [->|Ht]%spec_insert_in; [done|by apply S1].
    + intros t [->|Ht]%spec_insert_in; cbn [t_par].
      * split; [lia|]. unfold slot_func. cbn [vtcallbacks set_timers]. rewrite Nat2Z.id, nth_lookup.
        by rewrite list_lookup_insert_eq by lia.
      * destruct (S2 t Ht) as [Hr Hn]. split; [done|]. fold c'. rewrite Hslot; [done|lia|].
        intros E'. rewrite E' in Hn. apply Hn. unfold slot_func. rewrite Nat2Z.id. exact Hfi.
    + rewrite spec_insert_perm. cbn [map t_par]. constructor; [|done].
      rewrite list_elem_of_In. intros (t & E' & Ht)%in_map_iff. destruct (S2 t Ht) as [_ Hn].
      apply Hn. unfold slot_func. cbn [vtcallbacks resetTimer set_timers].
      rewrite E', Nat2Z.id. exact Hfi.
  - constructor; cbn [scheduled_callbacks vtcallbacks set_timers]; [done|by rewrite length_insert|done].
Qed.

Context (Hsketch : forall f p, Forall valid_timer_call (sketch f p)).

Lemma do_call_wf t l c : valid_timer_call t -> wf l c ->
  exists c' l', do_call t c = Some c' /\ wf l' c' /\ scheduled_callbacks c' = scheduled_callbacks c.
Proof.
  intros Hv Hwf. destruct t as [vtp d f p|vtp]; cbn [do_call].
  - destruct Hv as (H1 & H2 & H3).
    destruct (setTimer_wf vtp d f p l c H1 H2 H3 Hwf) as (r & c' & l' & -> & H). eauto.
  - exists (resetTimer vtp c), (spec_reset vtp l). split; [done|]. split; [|done].
    by apply resetTimer_wf.
Qed.

Lemma do_calls_wf ts : forall l c, Forall valid_timer_call ts -> wf l c ->
  exists c' l', do_calls ts c = Some c' /\ wf l' c' /\ scheduled_callbacks c' = scheduled_callbacks c.
Proof.
  induction ts as [|t ts IH]; intros l c Hv Hwf; cbn [do_calls]; [eauto|].
  inversion_clear Hv. destruct (do_call_wf t l c) as (c1 & l1 & -> & H1 & H2); try done.
  destruct (IH l1 c1) as (c2 & l2 & E & H3 & H4); try done.
  exists c2, l2. split; [done|split; [done|congruence]].
Qed.

(** One slot of runCallbacks: its callback is run and the slot is freed. *)
Lemma run_slot_wf i l c : (i < 2)%nat -> wf l c ->
  exists c' l', run_slot i c
    = Some (List.filter (fun s => negb (fst s =? NULL)) [nth i (scheduled_callbacks c) (0, 0)], c') /\
    wf l' c' /\ fst (nth i (scheduled_callbacks c') (0, 0)) = NULL /\
    (forall j, j <> i -> nth j (scheduled_callbacks c') (0, 0) = nth j (scheduled_callbacks c) (0, 0)).
Proof.
  intros Hi Hwf. unfold run_slot. destruct (nth i (scheduled_callbacks c) (0, 0)) as [f p] eqn:Ei.
  cbn [List.filter fst]. destruct (Z.eqb_spec f NULL) as [Ef|Ef]; cbn [negb].
  { exists c, l. rewrite Ei. done. }
  destruct (do_calls_wf (sketch f p) l c (Hsketch f p) Hwf) as (c1 & l1 & -> & H1 & H2).
  eexists _, l1. split; [reflexivity|]. cbn [scheduled_callbacks].
  assert (Hs1 := tk_sched _ (wf_tables _ _ H1)). split; [|split].
  - destruct H1 as [Him Hb Hp [S1 S2 S3] [T1 T2 T3]]. constructor; try done.
    constructor; cbn [scheduled_callbacks vtcallbacks num_scheduled_callbacks]; [by rewrite length_insert|done|].
    rewrite T3. unfold pending. cbn [scheduled_callbacks]. rewrite H2 in *.
    destruct (two_slots _ Hs1) as ([f0 p0] & [f1 p1] & E). rewrite E in *.
    destruct i as [|[|]]; [| |lia]; cbn in Ei; injection Ei as -> ->;
      apply Z.eqb_neq in Ef; cbn; rewrite Ef; cbn; [destruct (f1 =? NULL)|destruct (f0 =? NULL)]; done.
  - rewrite nth_lookup, list_lookup_insert_eq; [done|]. lia.
  - intros j Hj. rewrite !nth_lookup, list_lookup_insert_ne by done. by rewrite H2.
Qed.

Lemma runCallbacks_wf l c : wf l c ->
  exists c' l', runCallbacks c = Some (pending c, c') /\ wf l' c' /\ pending c' = [].
Proof.
  intros Hwf. unfold runCallbacks. assert (Hn := tk_num _ (wf_tables _ _ Hwf)).
  destruct (Z.eqb_spec (num_scheduled_callbacks c) 0) as [E|E].
  { assert (Hp : pending c = []) by (apply nil_length_inv; lia). rewrite Hp. eauto. }
  destruct (run_slot_wf 0 l c ltac:(lia) Hwf) as (c1 & l1 & -> & H1 & F1 & O1).
  destruct (run_slot_wf 1 l1 c1 ltac:(lia) H1) as (c2 & l2 & -> & H2 & F2 & O2).
  exists c2, l2. rewrite O1 by lia. split; [|split; [done|]].
  - do 2 f_equal. unfold pending.
    destruct (two_slots _ (tk_sched _ (wf_tables _ _ Hwf))) as (a & b & ->). cbn.
    by destruct (fst a =? NULL).
  - unfold pending. rewrite <- O2 in F1 by lia.
    destruct (two_slots _ (tk_sched _ (wf_tables _ _ H2))) as ([f0 p0] & [f1 p1] & E2).
    rewrite E2 in *. cbn in F1, F2. by subst.
Qed.

Lemma history_wf acts : forall l c, Forall valid_action acts -> wf l c ->
  exists ran c' l', history acts c = Some (ran, c') /\ wf l' c'.
Proof.
  induction acts as [|a acts IH]; intros l c Hv Hwf; cbn [history]; [eauto|].
  inversion_clear Hv as [|? ? Ha Hacts].
  assert (H1 : exists ran c1 l1, match a with
             | ACall t => match do_call t c with None => None | Some c => Some ([], c) end
             | ATick => match tick c with None => None | Some c => Some ([], c) end
             | ARun => runCallbacks c
             end = Some (ran, c1) /\ wf l1 c1).
  { destruct a as [t| |].
    - destruct (do_call_wf t l c Ha Hwf) as (c1 & l1 & -> & H & _). eauto.
    - destruct (tick_wf l c Hwf) as (l1 & c1 & -> & H & _). eauto.
    - destruct (runCallbacks_wf l c Hwf) as (c1 & l1 & -> & H & _). eauto. }
  destruct H1 as (ran & c1 & l1 & -> & H1).
  destruct (IH l1 c1 Hacts H1) as (ran2 & c2 & l2 & -> & H2). eauto.
Qed.

Lemma init_wf t : unarmed t -> wf [] (callbacks_bss (_vt_init t)).
Proof.
  intros Hu. constructor.
  - by apply init_implements.
  - intros u [].
  - intros u [].
  - constructor; [intros u []|intros u []|constructor].
  - done.
Qed.
End Callbacks.


(** Both slots are taken and no timer is armed. *)
Record leaked (c : callbacks) : Prop := {
  lk_timers : implements (timers c) [];
  lk_slots : free_slot 0 (vtcallbacks c) = None;
  lk_num : num_scheduled_callbacks c = 0
}.

Lemma leaked_set post_p fuel vtp d f p c :
  leaked c -> setTimer post_p fuel vtp d f p c = Some (-1, c).
Proof. intros [_ H _]. unfold setTimer. by rewrite H. Qed.

Lemma leaked_reset vtp c : vtp <> vtlist -> leaked c -> leaked (resetTimer vtp c).
Proof.
  intros Hv [Hi Hs Hn]. destruct (chVTReset_ok vtp (timers c) [] Hi ltac:(by intros u []) Hv) as [H _].
  by constructor.
Qed.

Lemma leaked_tick post_p fuel c : (2 < fuel)%nat -> leaked c ->
  exists c', tick post_p fuel c = Some c' /\ leaked c'.
Proof.
  intros Hf [Hi Hs Hn]. unfold tick.
  destruct (tick_pure (tick_callback post_p)
              (fun fn p x => if fn =? post_p then post_timer_callback_to_arduino_thread p x else x)
              fuel (timers c) c []) as (s' & f & -> & H1 & _);
    [|exact Hi|by intros u []|by intros u []|cbn; lia|].
  - intros fn p s x. unfold tick_callback. cbn. by destruct (fn =? post_p).
  - eexists. split; [reflexivity|]. by constructor.
Qed.

Lemma leaked_history post_p fuel sketch acts : (2 < fuel)%nat ->
  Forall valid_action acts -> forall c, leaked c ->
  exists c', history post_p fuel sketch acts c = Some ([], c') /\ leaked c'.
Proof.
  intros Hf Ha. induction Ha as [|a acts Hva _ IH]; intros c Hc; cbn [history]; [eauto|].
  destruct a as [t| |].
  - destruct t as [vtp d f p|vtp]; cbn [do_call].
    + rewrite leaked_set by done. destruct (IH c Hc) as (c' & -> & H). eauto.
    + destruct (IH (resetTimer vtp c)) as (c' & -> & H); [by apply leaked_reset|]. eauto.
  - destruct (leaked_tick post_p fuel c Hf Hc) as (c1 & -> & H1).
    destruct (IH c1 H1) as (c' & -> & H). eauto.
  - unfold runCallbacks. rewrite (lk_num _ Hc). cbn [Z.eqb].
    destruct (IH c Hc) as (c' & -> & H). eauto.
Qed.

(** Setting and resetting a timer takes the first free slot for good. *)
Lemma set_reset post_p fuel vtp d f p c i :
  post_p <> NULL -> (2 < fuel)%nat -> valid_timer_call (SetTimer vtp d f p) ->
  implements (timers c) [] -> free_slot 0 (vtcallbacks c) = Some i ->
  exists c', do_calls post_p fuel [SetTimer vtp d f p; ResetTimer vtp] c = Some c' /\
    implements (timers c') [] /\ vtcallbacks c' = <[i := (f, p)]> (vtcallbacks c) /\
    num_scheduled_callbacks c' = num_scheduled_callbacks c.
Proof.
  intros Hp Hf (Hv & Hd & Hfn) Him Hi. cbn [do_calls do_call]. unfold setTimer. rewrite Hi.
  cbn [timers].
  destruct (chVTSet_ok fuel (Timer vtp d post_p (Z.of_nat i)) (timers c) [] Him)
    as (t' & E & Him' & _); try done; [cbn [t_left]; lia|cbn; lia|].
  cbn [t_id t_left t_func t_par spec_reset List.filter spec_insert] in E, Him'. rewrite E.
  eexists. split; [reflexivity|]. cbn [timers set_timers resetTimer vtcallbacks num_scheduled_callbacks].
  split; [|done].
  destruct (chVTReset_ok vtp t' _ Him') as [H _]; [|done|].
  - intros u [<-|[]]. cbn. lia.
  - unfold spec_reset in H. cbn in H. by rewrite Z.eqb_refl in H.
Qed.

(** resetTimer stops the kernel timer but does not free the slot setTimer took:
    once two timers have been set and reset before they expired, every setTimer returns
    -1 and no callback ever runs again, whatever the sketch does from then on. *)
Theorem setTimer_leaks post_p fuel sketch t vtp1 d1 f1 p1 vtp2 d2 f2 p2 acts :
  post_p <> NULL -> (2 < fuel)%nat -> unarmed t ->
  valid_timer_call (SetTimer vtp1 d1 f1 p1) -> valid_timer_call (SetTimer vtp2 d2 f2 p2) ->
  Forall valid_action acts ->
  exists c c',
    do_calls post_p fuel [SetTimer vtp1 d1 f1 p1; ResetTimer vtp1] (callbacks_bss (_vt_init t)) = Some c /\
    do_calls post_p fuel [SetTimer vtp2 d2 f2 p2; ResetTimer vtp2] c = Some c' /\
    exists c2, history post_p fuel sketch acts c' = Some ([], c2) /\
      forall vtp d f p, setTimer post_p fuel vtp d f p c2 = Some (-1, c2).
Proof.
  intros Hp Hf Hu H1 H2 Ha.
  destruct (set_reset post_p fuel vtp1 d1 f1 p1 (callbacks_bss (_vt_init t)) 0 Hp Hf H1)
    as (c & Ec & Hi & Hv & Hn); [by apply init_implements|done|].
  cbn [vtcallbacks callbacks_bss insert list_insert] in Hv.
  destruct H1 as (_ & _ & Hf1). apply Z.eqb_neq in Hf1.
  destruct (set_reset post_p fuel vtp2 d2 f2 p2 c 1 Hp Hf H2)
    as (c' & Ec' & Hi' & Hv' & Hn'); [done|rewrite Hv; cbn; by rewrite Hf1|].
  exists c, c'. split; [done|split; [done|]].
  destruct (leaked_history post_p fuel sketch acts Hf Ha c') as (c2 & E2 & Hl).
  - constructor; [done| |by rewrite Hn', Hn]. rewrite Hv', Hv. cbn.
    destruct H2 as (_ & _ & Hf2). apply Z.eqb_neq in Hf2. by rewrite Hf1, Hf2.
  - exists c2. split; [done|]. intros. by apply leaked_set.
Qed.

(** ** The race on the counter *)

(** [num_scheduled_callbacks--] of runCallbacks is a load and a store: a timer
    interrupt between them schedules the callback of slot [slot]. *)
Definition decrement_interrupted (slot : Z) (c : callbacks) : callbacks :=
  let n := num_scheduled_callbacks c in
  let c := post_timer_callback_to_arduino_thread slot c in
  Callbacks (vtcallbacks c) (scheduled_callbacks c) (u8 (n - 1)) (timers c).

(** The interrupt's increment is lost: a callback is scheduled and the counter says
    there is none, so runCallbacks returns at once. *)
Lemma lost_callback post_p fuel sketch slot f p c :
  nth (Z.to_nat slot) (vtcallbacks c) (0, 0) = (f, p) -> f <> NULL ->
  scheduled_callbacks c = [(NULL, 0); (NULL, 0)] -> num_scheduled_callbacks c = 1 ->
  let c' := decrement_interrupted slot c in
  pending c' = [(f, p)] /\ runCallbacks post_p fuel sketch c' = Some ([], c').
Proof.
  intros Hs Hf Hsch Hn. apply Z.eqb_neq in Hf.
  unfold decrement_interrupted, post_timer_callback_to_arduino_thread, pending, runCallbacks.
  rewrite Hs, Hsch, Hn. cbn. rewrite Hf. done.
Qed.

(** ** Concrete runs *)

Definition demo_sketch (f p : Z) : list timer_call :=
  if f =? 7 then [SetTimer 1 2 8 p] else [].

Lemma demo_sketch_valid f p : Forall valid_timer_call (demo_sketch f p).
Proof.
  unfold demo_sketch. destruct (f =? 7); [|constructor].
  repeat constructor; try done; lia.
Qed.


Lemma setTimer_leaks_witness :
  exists c c',
    do_calls 99 3 [SetTimer 1 10 7 5; ResetTimer 1] (callbacks_bss (_vt_init demo_memory)) = Some c /\
    do_calls 99 3 [SetTimer 2 10 7 5; ResetTimer 2] c = Some c' /\
    exists c2, history 99 3 demo_sketch [ATick; ACall (SetTimer 1 1 7 5); ARun] c' = Some ([], c2) /\
      forall vtp d f p, setTimer 99 3 vtp d f p c2 = Some (-1, c2).
Proof.
  refine (setTimer_leaks 99 3 demo_sketch demo_memory 1 10 7 5 2 10 7 5 _ _ _ _ _ _ _).
  - done.
  - lia.
  - intros id _. reflexivity.
  - repeat split; try done; lia.
  - repeat split; try done; lia.
  - repeat constructor; try done; lia.
Defined.
