(* ===== verification/Heap.v ===== *)
(** Dynamic memory (os/rt/src/chheap.c, os/rt/src/chmemcore.c, and malloc, free and
    realloc of orchard/esplanade_app.c).

    The heap lives in a byte memory: a block is an 8-byte header followed by its data,
    the header holding the size and either the next free block or the owning heap; the
    free blocks are linked in address order from the descriptor.  A heap is locked by
    its mutex during each call, so that the calls are atomic with respect to each other;
    the mutex is not part of the memory modelled here.

    The specification is the list of the blocks that tile the heap area, each free or
    used ([spec_alloc], [spec_free]); [heap_ok] relates it to the memory.  Proved: the
    code refines it for any sequence of malloc and free calls, so that live blocks never
    overlap, nothing is lost and free blocks are always merged; freeing what was just
    allocated restores the heap; realloc keeps the contents; and a size within 7 bytes of
    2^32 wraps to zero, so that malloc hands out an empty block. *)
From S2P Require Import Prelude Aeabi.
Local Open Scope Z_scope.

(** ** Headers *)

Definition NULL : Z := 0.
Definition MEM_ALIGN_SIZE : Z := 8.
Definition MEM_ALIGN_MASK : Z := MEM_ALIGN_SIZE - 1.
Definition MEM_ALIGN_PREV (p : Z) : Z := Z.ldiff (u32 p) MEM_ALIGN_MASK.
Definition MEM_ALIGN_NEXT (p : Z) : Z := MEM_ALIGN_PREV (u32 p + MEM_ALIGN_MASK).
Definition MEM_IS_ALIGNED (p : Z) : bool := Z.land (u32 p) MEM_ALIGN_MASK =? 0.

(** [union heap_header]: [h.u.next] and [h.u.heap] share the first word. *)
Definition sizeof_heap_header : Z := 8.
Definition h_next (m : mem) (p : Z) : Z := get32 m p.
Definition h_heap (m : mem) (p : Z) : Z := get32 m p.
Definition h_size (m : mem) (p : Z) : Z := get32 m (p + 4).
Definition set_next (p v : Z) (m : mem) : mem := put32 m p v.
Definition set_heap (p v : Z) (m : mem) : mem := put32 m p v.
Definition set_size (p v : Z) (m : mem) : mem := put32 m (p + 4) v.

(** [struct memory_heap]: the provider, and the header of the free list (8-aligned). *)
Definition h_provider (m : mem) (heapp : Z) : Z := get32 m heapp.
Definition set_provider (heapp v : Z) (m : mem) : mem := put32 m heapp v.
Definition h_free (heapp : Z) : Z := heapp + 8.

Definition LIMIT (m : mem) (p : Z) : Z := u32 (p + sizeof_heap_header + h_size m p).

(** ** The core allocator (chmemcore.c) *)

Record memcore : Type := Memcore { nextmem : Z; endmem : Z }.

(** The area the linker leaves to the core allocator is an argument. *)
Definition _core_init (heap_base heap_end : Z) : memcore :=
  Memcore (MEM_ALIGN_NEXT heap_base) (MEM_ALIGN_PREV heap_end).

Definition chCoreAllocI (size : Z) (c : memcore) : Z * memcore :=
  let size := MEM_ALIGN_NEXT size in
  if u32 (endmem c - nextmem c) <? size then (NULL, c)
  else (nextmem c, Memcore (u32 (nextmem c + size)) (endmem c)).

Definition chCoreAlloc := chCoreAllocI.

Definition chCoreGetStatusX (c : memcore) : Z := u32 (endmem c - nextmem c).

(** ** The heap *)

Record ram : Type := Ram { bytes : mem; core : memcore }.

Definition chHeapObjectInit (heapp buf size : Z) (m : mem) : mem :=
  let m := set_provider heapp NULL m in
  let m := set_next (h_free heapp) buf m in
  let m := set_size (h_free heapp) 0 m in
  let m := set_next buf NULL m in
  set_size buf (u32 (size - sizeof_heap_header)) m.

(** The search of chHeapAlloc: the last header before, and the block that fits.
    [None] is the end of the fuel, [Some None] the end of the list. *)
Fixpoint find_fit (fuel : nat) (m : mem) (qp size : Z) : option (option (Z * Z)) :=
  match fuel with
  | O => None
  | S fuel =>
      if h_next m qp =? NULL then Some None
      else
        let hp := h_next m qp in
        if size <=? h_size m hp then Some (Some (qp, hp))
        else find_fit fuel m hp size
  end.

(** What chHeapAlloc does with the block it found. *)
Definition take_block (heapp qp hp size : Z) (m : mem) : mem :=
  let m :=
    if h_size m hp <? u32 (size + sizeof_heap_header) then set_next qp (h_next m hp) m
    else
      let fp := hp + sizeof_heap_header + size in
      let m := set_next fp (h_next m hp) m in
      let m := set_size fp (u32 (u32 (h_size m hp - sizeof_heap_header) - size)) m in
      let m := set_next qp fp m in
      set_size hp size m in
  set_heap hp heapp m.

Section Heap.
(** The address of [default_heap], and of chCoreAlloc. *)
Context (default_heap chCoreAlloc_p : Z).

Definition _heap_init (m : mem) : mem :=
  let m := set_provider default_heap chCoreAlloc_p m in
  let m := set_next (h_free default_heap) NULL m in
  set_size (h_free default_heap) 0 m.

(** [h_provider] is NULL or chCoreAlloc: nothing else is ever stored there. *)
Definition chHeapAlloc (fuel : nat) (heapp size : Z) (r : ram) : option (Z * ram) :=
  let heapp := if heapp =? NULL then default_heap else heapp in
  let size := MEM_ALIGN_NEXT size in
  match find_fit fuel (bytes r) (h_free heapp) size with
  | None => None
  | Some (Some (qp, hp)) =>
      Some (hp + sizeof_heap_header, Ram (take_block heapp qp hp size (bytes r)) (core r))
  | Some None =>
      if negb (h_provider (bytes r) heapp =? NULL) then
        let '(hp, c) := chCoreAlloc (u32 (size + sizeof_heap_header)) (core r) in
        if negb (hp =? NULL)
        then Some (hp + sizeof_heap_header,
                   Ram (set_size hp size (set_heap hp heapp (bytes r))) c)
        else Some (NULL, Ram (bytes r) c)
      else Some (NULL, r)
  end.

(** The search of chHeapFree: the header after which the block is inserted. *)
Fixpoint find_place (fuel : nat) (m : mem) (sentinel qp hp : Z) : option Z :=
  match fuel with
  | O => None
  | S fuel =>
      if ((qp =? sentinel) || (qp <? hp)) && ((h_next m qp =? NULL) || (hp <? h_next m qp))
      then Some qp
      else find_place fuel m sentinel (h_next m qp) hp
  end.

(** Insertion after [qp], and the two merges. *)
Definition insert_block (qp hp : Z) (m : mem) : mem :=
  let m := set_next hp (h_next m qp) m in
  let m := set_next qp hp m in
  let m :=
    if LIMIT m hp =? h_next m hp then
      let m := set_size hp (u32 (h_size m hp + (h_size m (h_next m hp) + sizeof_heap_header))) m in
      set_next hp (h_next m (h_next m hp)) m
    else m in
  if LIMIT m qp =? hp then
    let m := set_size qp (u32 (h_size m qp + (h_size m hp + sizeof_heap_header))) m in
    set_next qp (h_next m hp) m
  else m.

Definition chHeapFree (fuel : nat) (p : Z) (r : ram) : option ram :=
  let hp := p - sizeof_heap_header in
  let heapp := h_heap (bytes r) hp in
  match find_place fuel (bytes r) (h_free heapp) (h_free heapp) hp with
  | None => None
  | Some qp => Some (Ram (insert_block qp hp (bytes r)) (core r))
  end.

(** The number of fragments and their total size. *)
Fixpoint heap_status (fuel : nat) (m : mem) (qp n sz : Z) : option (Z * Z) :=
  match fuel with
  | O => None
  | S fuel =>
      if h_next m qp =? NULL then Some (n, sz)
      else heap_status fuel m (h_next m qp) (u32 (n + 1)) (u32 (sz + h_size m (h_next m qp)))
  end.
Definition chHeapStatus (fuel : nat) (heapp : Z) (m : mem) : option (Z * Z) :=
  heap_status fuel m (h_free (if heapp =? NULL then default_heap else heapp)) 0 0.

(** ** malloc, free, realloc (esplanade_app.c) *)

Context (app_heap : Z).

Definition malloc (fuel : nat) (size : Z) (r : ram) : option (Z * ram) :=
  chHeapAlloc fuel app_heap size r.

Definition free (fuel : nat) (ptr : Z) (r : ram) : option ram :=
  if negb (ptr =? NULL) then chHeapFree fuel ptr r else Some r.

Definition realloc_size (size : Z) : Z :=
  if size mod 8 =? 0 then size else u32 (s32 (size / 8) * 8 + 8).

Definition realloc (fuel : nat) (addr size : Z) (r : ram) : option (Z * ram) :=
  if addr =? NULL then chHeapAlloc fuel app_heap size r
  else
    let hp := addr - sizeof_heap_header in
    let prev_size := h_size (bytes r) hp in
    let new_size := realloc_size size in
    if new_size <=? prev_size then Some (addr, r)
    else
      match chHeapAlloc fuel app_heap size r with
      | None => None
      | Some (ptr, r) =>
          if ptr =? NULL then Some (NULL, r)
          else
            let r := Ram (memcpy ptr addr prev_size (bytes r)) (core r) in
            match chHeapFree fuel addr r with
            | None => None
            | Some r => Some (ptr, r)
            end
      end.

(** The heap set-up of app_thread; [sizeof_thread_t] depends on the kernel options. *)
Definition app_heap_init (sizeof_thread_t hdr_heap_start hdr_heap_end : Z) (m : mem) : mem :=
  let heap_start := hdr_heap_start + sizeof_thread_t in
  let heap_size := u32 (hdr_heap_end - heap_start - sizeof_thread_t) in
  chHeapObjectInit app_heap (MEM_ALIGN_NEXT heap_start) (MEM_ALIGN_NEXT heap_size) m.
End Heap.

(** ** The specification *)

Record blk : Type := Blk { b_addr : Z; b_size : Z; b_used : bool }.

(** First fit; a block that would leave no room for a header is taken whole. *)
Fixpoint spec_alloc (size : Z) (bs : list blk) : option (Z * list blk) :=
  match bs with
  | [] => None
  | b :: r =>
      if negb (b_used b) && (size <=? b_size b) then
        Some (b_addr b + 8,
              if b_size b <? size + 8 then Blk (b_addr b) (b_size b) true :: r
              else Blk (b_addr b) size true
                   :: Blk (b_addr b + 8 + size) (b_size b - 8 - size) false :: r)
      else
        match spec_alloc size r with
        | None => None
        | Some (p, r) => Some (p, b :: r)
        end
  end.

(** Adjacent free blocks become one. *)
Fixpoint coalesce (bs : list blk) : list blk :=
  match bs with
  | [] => []
  | b :: r =>
      match coalesce r with
      | n :: r' =>
          if negb (b_used b) && negb (b_used n)
          then Blk (b_addr b) (b_size b + 8 + b_size n) false :: r'
          else b :: n :: r'
      | [] => [b]
      end
  end.

Definition release (hp : Z) (bs : list blk) : list blk :=
  map (fun b => if b_addr b =? hp then Blk (b_addr b) (b_size b) false else b) bs.

Definition spec_free (p : Z) (bs : list blk) : list blk := coalesce (release (p - 8) bs).

Definition frees (bs : list blk) : list blk := List.filter (fun b => negb (b_used b)) bs.
Definition live (bs : list blk) : list blk := List.filter b_used bs.

(** The blocks tile the area [lo, hi). *)
Fixpoint tiles (lo : Z) (bs : list blk) (hi : Z) : Prop :=
  match bs with
  | [] => lo = hi
  | b :: r => b_addr b = lo /\ 0 <= b_size b /\ b_size b mod 8 = 0 /\
              tiles (b_addr b + 8 + b_size b) r hi
  end.

(** No two adjacent blocks are free. *)
Fixpoint merged (bs : list blk) : Prop :=
  match bs with
  | b :: (n :: _) as r => (b_used b = true \/ b_used n = true) /\ merged r
  | _ => True
  end.

(** The free list in memory, from the header [q] to a last link [e]. *)
Fixpoint chain (m : mem) (q : Z) (l : list blk) (e : Z) : Prop :=
  match l with
  | [] => h_next m q = e
  | b :: r => h_next m q = b_addr b /\ h_size m (b_addr b) = b_size b /\ chain m (b_addr b) r e
  end.

Record heap_rep (heapp lo hi : Z) (m : mem) (bs : list blk) : Prop := {
  ho_bytes : byte_mem m;
  ho_tiles : tiles lo bs hi;
  ho_chain : chain m (h_free heapp) (frees bs) NULL;
  ho_used : forall b, In b bs -> b_used b = true ->
              h_heap m (b_addr b) = heapp /\ h_size m (b_addr b) = b_size b;
  ho_head : h_size m (h_free heapp) = 0;
  ho_provider : h_provider m heapp = NULL
}.

Definition heap_ok (heapp lo hi : Z) (m : mem) (bs : list blk) : Prop :=
  heap_rep heapp lo hi m bs /\ merged bs.

(** What a program does with the heap, run on the memory and on the specification:
    malloc, free, and writing a byte; freeing what is not live, and writing elsewhere
    than into a live block, have no specification. *)
Inductive call : Type := Malloc (size : Z) | Free (p : Z) | Write (x v : Z).

Definition run_call (dh app_heap : Z) (fuel : nat) (c : call) (r : ram) : option (Z * ram) :=
  match c with
  | Malloc size => malloc dh app_heap fuel size r
  | Free p => match free fuel p r with Some r => Some (NULL, r) | None => None end
  | Write x v => Some (NULL, Ram (put8 (bytes r) x (u8 v)) (core r))
  end.

Fixpoint run_calls (dh app_heap : Z) (fuel : nat) (cs : list call) (r : ram) : option (list Z * ram) :=
  match cs with
  | [] => Some ([], r)
  | c :: cs =>
      match run_call dh app_heap fuel c r with
      | None => None
      | Some (p, r) =>
          match run_calls dh app_heap fuel cs r with
          | None => None
          | Some (ps, r) => Some (p :: ps, r)
          end
      end
  end.

Definition in_data (x : Z) (b : blk) : bool :=
  b_used b && (b_addr b + 8 <=? x) && (x <? b_addr b + 8 + b_size b).

(** The calls that concern the block [b]. *)
Definition touches (b : blk) (c : call) : bool :=
  match c with
  | Malloc _ => false
  | Free p => p =? b_addr b + 8
  | Write x _ => in_data x b
  end.

Definition spec_call (c : call) (bs : list blk) : option (Z * list blk) :=
  match c with
  | Malloc size =>
      Some (match spec_alloc (MEM_ALIGN_NEXT size) bs with
            | None => (NULL, bs)
            | Some (p, bs') => (p, bs')
            end)
  | Free p =>
      if p =? NULL then Some (NULL, bs)
      else if existsb (fun b => b_used b && (b_addr b + 8 =? p)) bs then Some (NULL, spec_free p bs)
      else None
  | Write x _ => if existsb (in_data x) bs then Some (NULL, bs) else None
  end.

Fixpoint spec_calls (cs : list call) (bs : list blk) : option (list Z * list blk) :=
  match cs with
  | [] => Some ([], bs)
  | c :: cs =>
      match spec_call c bs with
      | None => None
      | Some (p, bs) =>
          match spec_calls cs bs with
          | None => None
          | Some (ps, bs) => Some (p :: ps, bs)
          end
      end
  end.

(** The heap area and its descriptor: aligned, in the address space, and the
    descriptor (with the mutex behind the list header) outside of the area. *)
Definition area_ok (heapp lo hi : Z) : Prop :=
  0 < heapp /\ 0 < lo /\ lo mod 8 = 0 /\ lo + 8 <= hi < 4294967296 /\ hi mod 8 = 0 /\
  heapp + 16 < 4294967296 /\ heapp mod 8 = 0 /\ (heapp + 16 < lo \/ hi <= heapp).

(** ** Lemmas: header words *)

(** Two headers are the same or do not overlap. *)
Definition apart (x y : Z) : Prop := x = y \/ x + 8 <= y \/ y + 8 <= x.

Lemma get32_put32_ne m a b v : a + 4 <= b \/ b + 4 <= a -> get32 (put32 m a v) b = get32 m b.
Proof. intros H. apply get32_ext. intros k Hk. apply put32_other. lia. Qed.

Lemma next_of_set_next m x y v : is_u32 v -> apart x y ->
  h_next (set_next x v m) y = if y =? x then v else h_next m y.
Proof.
  intros Hv Ha. unfold h_next, set_next. destruct (Z.eqb_spec y x) as [->|].
  - by apply get32_put32.
  - apply get32_put32_ne. unfold apart in Ha. lia.
Qed.
Lemma next_of_set_size m x y v : apart x y -> h_next (set_size x v m) y = h_next m y.
Proof. intros Ha. apply get32_put32_ne. unfold apart in Ha. lia. Qed.
Lemma size_of_set_size m x y v : is_u32 v -> apart x y ->
  h_size (set_size x v m) y = if y =? x then v else h_size m y.
Proof.
  intros Hv Ha. unfold h_size, set_size. destruct (Z.eqb_spec y x) as [->|].
  - by apply get32_put32.
  - apply get32_put32_ne. unfold apart in Ha. lia.
Qed.
Lemma size_of_set_next m x y v : apart x y -> h_size (set_next x v m) y = h_size m y.
Proof. intros Ha. apply get32_put32_ne. unfold apart in Ha. lia. Qed.

Lemma set_next_other m p v x : x < p \/ p + 8 <= x -> set_next p v m x = m x.
Proof. intros. apply put32_other. lia. Qed.
Lemma set_size_other m p v x : x < p \/ p + 8 <= x -> set_size p v m x = m x.
Proof. intros. apply put32_other. lia. Qed.

(** ** Lemmas: tilings *)

Lemma tiles_app lo l1 l2 hi :
  tiles lo (l1 ++ l2) hi <-> exists mid, tiles lo l1 mid /\ tiles mid l2 hi.
Proof.
  revert lo. induction l1 as [|b l1 IH]; intros lo; cbn.
  - split; [eauto|]. intros (mid & -> & H). done.
  - setoid_rewrite IH. split.
    + intros (H1 & H2 & H3 & mid & H4 & H5). exists mid. tauto.
    + intros (mid & (H1 & H2 & H3 & H4) & H5). split_and!; eauto.
Qed.

Lemma tiles_le lo bs hi : tiles lo bs hi -> lo <= hi.
Proof.
  revert lo. induction bs as [|b bs IH]; intros lo; cbn; [lia|].
  intros (H1 & H2 & _ & H%IH). lia.
Qed.

Lemma tiles_in lo bs hi b : lo mod 8 = 0 -> tiles lo bs hi -> In b bs ->
  lo <= b_addr b /\ b_addr b + 8 + b_size b <= hi /\ 0 <= b_size b /\ b_addr b mod 8 = 0.
Proof.
  revert lo. induction bs as [|c bs IH]; intros lo Hlo; cbn; [done|].
  intros (H1 & H2 & H3 & H4) [<-|Hb].
  - assert (H := tiles_le _ _ _ H4). subst lo. lia.
  - assert (Hm : (b_addr c + 8 + b_size c) mod 8 = 0).
    { rewrite H1. Z.div_mod_to_equations. lia. }
    destruct (IH _ Hm H4 Hb). lia.
Qed.

(** Two blocks of a tiling are the same or disjoint. *)
Lemma tiles_disjoint lo bs hi b c :
  lo mod 8 = 0 -> tiles lo bs hi -> In b bs -> In c bs ->
  b = c \/ b_addr b + 8 + b_size b <= b_addr c \/ b_addr c + 8 + b_size c <= b_addr b.
Proof.
  revert lo. induction bs as [|d bs IH]; intros lo Hlo; cbn; [done|].
  intros (H1 & H2 & H3 & H4).
  assert (Hm : (b_addr d + 8 + b_size d) mod 8 = 0) by (rewrite H1; Z.div_mod_to_equations; lia).
  intros [<-|Hb] [<-|Hc]; [by left| | |by apply (IH _ Hm H4)].
  - destruct (tiles_in _ _ _ c Hm H4 Hc). lia.
  - destruct (tiles_in _ _ _ b Hm H4 Hb). lia.
Qed.

Lemma frees_in b bs : In b (frees bs) <-> In b bs /\ b_used b = false.
Proof. unfold frees. rewrite filter_In. destruct (b_used b); cbn; naive_solver. Qed.
Lemma live_in b bs : In b (live bs) <-> In b bs /\ b_used b = true.
Proof. unfold live. by rewrite filter_In. Qed.
Lemma frees_app l1 l2 : frees (l1 ++ l2) = frees l1 ++ frees l2.
Proof. apply List.filter_app. Qed.

(** A block of the free list, in the list of all blocks. *)
Lemma frees_split bs f1 b f2 : frees bs = f1 ++ b :: f2 ->
  exists l1 l2, bs = l1 ++ b :: l2 /\ frees l1 = f1 /\ frees l2 = f2 /\ b_used b = false.
Proof.
  revert f1. induction bs as [|c bs IH]; intros f1 E; [by destruct f1|].
  unfold frees in *. cbn in E. destruct (b_used c) eqn:Ec; cbn in E.
  - destruct (IH f1 E) as (l1 & l2 & -> & H1 & H2 & H3).
    exists (c :: l1), l2. cbn. rewrite Ec. done.
  - destruct f1 as [|d f1]; cbn in E; injection E as -> E.
    + exists [], bs. done.
    + destruct (IH f1 E) as (l1 & l2 & -> & H1 & H2 & H3).
      exists (d :: l1), l2. cbn. rewrite Ec. cbn. by rewrite H1.
Qed.

(** ** Lemmas: the free list in memory *)

Definition hd_addr (e : Z) (l : list blk) : Z := match l with [] => e | b :: _ => b_addr b end.
Fixpoint last_addr (q : Z) (l : list blk) : Z :=
  match l with [] => q | b :: r => last_addr (b_addr b) r end.

(** The part of a chain behind the link to its first block. *)
Definition tail (m : mem) (l : list blk) (e : Z) : Prop :=
  match l with [] => True | b :: r => h_size m (b_addr b) = b_size b /\ chain m (b_addr b) r e end.

Lemma chain_app m q l1 l2 e :
  chain m q (l1 ++ l2) e <-> chain m q l1 (hd_addr e l2) /\ tail m l2 e.
Proof.
  revert q. induction l1 as [|b l1 IH]; intros q; cbn.
  - destruct l2; cbn; tauto.
  - rewrite IH. tauto.
Qed.

Lemma chain_end m q l e : chain m q l e -> h_next m (last_addr q l) = e.
Proof. revert q. induction l as [|b l IH]; intros q; cbn; [done|]. intros (_ & _ & H). by apply IH. Qed.

Lemma last_addr_in q l : last_addr q l = q \/ exists b, In b l /\ last_addr q l = b_addr b.
Proof.
  revert q. induction l as [|b l IH]; intros q; cbn; [by left|]. right.
  destruct (IH (b_addr b)) as [->|(c & H1 & H2)]; eauto.
Qed.

(** The same chain with another last link. *)
Lemma chain_relink m m' q l e e' :
  chain m q l e -> NoDup (q :: map b_addr l) ->
  (forall b, In b l -> h_size m' (b_addr b) = h_size m (b_addr b)) ->
  (forall x, In x (q :: map b_addr l) -> x <> last_addr q l -> h_next m' x = h_next m x) ->
  h_next m' (last_addr q l) = e' -> chain m' q l e'.
Proof.
  revert q. induction l as [|b l IH]; intros q Hc Hnd Hs Hn He; cbn in *; [done|].
  destruct Hc as (H1 & H2 & H3). apply list.NoDup_cons in Hnd as [Hq Hnd].
  rewrite list_elem_of_In in Hq. split; [|split].
  - rewrite Hn; [done|by left|]. intros E. apply Hq.
    destruct (last_addr_in (b_addr b) l) as [E'|(c & Hc & E')]; rewrite E, E'; [by left|].
    right. by apply in_map.
  - rewrite Hs; auto.
  - apply IH; auto.
Qed.

Lemma tail_frame m m' l e :
  (forall b, In b l -> h_size m' (b_addr b) = h_size m (b_addr b) /\ h_next m' (b_addr b) = h_next m (b_addr b)) ->
  tail m l e -> tail m' l e.
Proof.
  destruct l as [|b l]; [done|]. cbn. intros H [H1 H2].
  assert (Hc : forall l q, (forall b, In b l -> h_size m' (b_addr b) = h_size m (b_addr b) /\
                              h_next m' (b_addr b) = h_next m (b_addr b)) ->
                 h_next m' q = h_next m q -> chain m q l e -> chain m' q l e).
  { clear. induction l as [|b l IH]; intros q H Hq; cbn.
    - by rewrite Hq.
    - rewrite Hq. destruct (H b ltac:(by left)) as [-> Hb]. intros (H1 & H2 & H3).
      split; [done|split; [done|]]. apply IH; [|done|done]. intros c Hc. apply H. by right. }
  destruct (H b ltac:(by left)) as [-> Hb]. split; [done|].
  apply Hc; [|done|done]. intros c Hc'. apply H. by right.
Qed.

(** ** Lemmas: merged blocks *)

(** Between two lists of blocks there are no two free neighbours. *)
Definition joint (l1 l2 : list blk) : Prop :=
  match list.last l1, head l2 with
  | Some a, Some b => b_used a = true \/ b_used b = true
  | _, _ => True
  end.

Lemma merged_app l1 l2 : merged (l1 ++ l2) <-> merged l1 /\ merged l2 /\ joint l1 l2.
Proof.
  induction l1 as [|a l1 IH]; [cbn; destruct l2; cbn; tauto|].
  destruct l1 as [|b l1].
  - destruct l2 as [|c l2]; unfold joint; cbn; [tauto|]. tauto.
  - change (joint (a :: b :: l1) l2) with (joint (b :: l1) l2).
    change (merged ((a :: b :: l1) ++ l2)) with
      ((b_used a = true \/ b_used b = true) /\ merged ((b :: l1) ++ l2)).
    change (merged (a :: b :: l1)) with
      ((b_used a = true \/ b_used b = true) /\ merged (b :: l1)).
    rewrite IH. tauto.
Qed.

Lemma coalesce_merged bs : merged (coalesce bs).
Proof.
  induction bs as [|b bs IH]; cbn; [done|]. destruct (coalesce bs) as [|n r]; [done|].
  destruct (b_used b) eqn:Eb, (b_used n) eqn:En; cbn [negb andb].
  1-3: split; [auto|exact IH].
  destruct r as [|c r]; [done|]. destruct IH as [[H|H] Hr]; [congruence|]. split; [auto|exact Hr].
Qed.

Lemma coalesce_id bs : merged bs -> coalesce bs = bs.
Proof.
  induction bs as [|b bs IH]; [done|]. cbn [coalesce]. intros H.
  rewrite IH by (destruct bs; [done|apply H]). destruct bs as [|n r]; [done|].
  destruct H as [[-> | ->] _]; [done|]. by rewrite andb_false_r.
Qed.

Lemma coalesce_app_used l1 b l2 : merged l1 -> joint l1 (coalesce (b :: l2)) ->
  coalesce (l1 ++ b :: l2) = l1 ++ coalesce (b :: l2).
Proof.
  induction l1 as [|a l1 IH]; intros Hm Hj; [done|]. cbn [app].
  assert (E : coalesce (l1 ++ b :: l2) = l1 ++ coalesce (b :: l2)).
  { destruct l1 as [|a' l1]; [done|]. apply IH; [apply Hm|exact Hj]. }
  change (coalesce (a :: l1 ++ b :: l2)) with
    (match coalesce (l1 ++ b :: l2) with
     | n :: r' => if negb (b_used a) && negb (b_used n)
                  then Blk (b_addr a) (b_size a + 8 + b_size n) false :: r'
                  else a :: n :: r'
     | [] => [a] end).
  rewrite E. destruct l1 as [|a' l1].
  - destruct (coalesce (b :: l2)) as [|n r]; [done|]. unfold joint in Hj. cbn in Hj.
    destruct Hj as [H|H]; cbn; rewrite H; cbn; [done|]. by rewrite andb_false_r.
  - destruct Hm as [[H|H] _]; cbn; rewrite H; cbn; [done|]. by rewrite andb_false_r.
Qed.

Lemma coalesce_app_r l1 l : coalesce (l1 ++ coalesce l) = coalesce (l1 ++ l).
Proof.
  induction l1 as [|a l1 IH]; cbn [app].
  - apply coalesce_id, coalesce_merged.
  - cbn [coalesce]. by rewrite IH.
Qed.

Lemma last_addr_snoc q l b : last_addr q (l ++ [b]) = b_addr b.
Proof. revert q. induction l as [|c l IH]; intros q; cbn; auto. Qed.

(** ** Lemmas: headers of a heap *)

Definition headers (heapp : Z) (bs : list blk) : list Z := h_free heapp :: map b_addr bs.

Lemma headers_apart heapp lo hi bs x y :
  area_ok heapp lo hi -> tiles lo bs hi -> In x (headers heapp bs) -> In y (headers heapp bs) ->
  apart x y.
Proof.
  intros (_ & _ & Hlo & _ & _ & _ & _ & Hsep) Ht. unfold headers, h_free, apart.
  assert (Hb : forall b, In b bs -> lo <= b_addr b /\ b_addr b + 8 <= hi).
  { intros b Hb. destruct (tiles_in _ _ _ b Hlo Ht Hb) as (? & ? & ? & _). lia. }
  intros [<-|(b & <- & Hbx)%in_map_iff] [<-|(c & <- & Hcy)%in_map_iff]; [by left| | |].
  - specialize (Hb c Hcy). lia.
  - specialize (Hb b Hbx). lia.
  - destruct (tiles_in _ _ _ b Hlo Ht Hbx) as (_ & _ & ? & _).
    destruct (tiles_in _ _ _ c Hlo Ht Hcy) as (_ & _ & ? & _).
    destruct (tiles_disjoint _ _ _ b c Hlo Ht Hbx Hcy) as [->|?]; [by left|lia].
Qed.

Lemma headers_nodup heapp lo hi bs :
  area_ok heapp lo hi -> tiles lo bs hi -> NoDup (headers heapp bs).
Proof.
  intros Ha Ht. assert (Hlo : lo mod 8 = 0) by apply Ha. constructor.
  - rewrite list_elem_of_In. intros (b & E & Hb)%in_map_iff.
    destruct (tiles_in _ _ _ b Hlo Ht Hb) as (? & ? & ? & _).
    destruct Ha as (_ & _ & _ & _ & _ & _ & _ & Hsep). unfold h_free in E. lia.
  - clear Ha. revert lo Hlo Ht. induction bs as [|b bs IH]; intros lo Hlo Ht; [constructor|].
    cbn in *. destruct Ht as (H1 & H2 & H3 & H4).
    assert (Hm : (b_addr b + 8 + b_size b) mod 8 = 0) by (rewrite H1; Z.div_mod_to_equations; lia).
    constructor; [|by apply (IH _ Hm)]. rewrite list_elem_of_In.
    intros (c & E & Hc)%in_map_iff. destruct (tiles_in _ _ _ c Hm H4 Hc). lia.
Qed.

(** A sub-list of the blocks. *)
Lemma nodup_frees x l1 l2 : NoDup (x :: map b_addr (l1 ++ l2)) -> NoDup (x :: map b_addr (frees l1)).
Proof.
  rewrite map_app. intros [Hx Hnd]%list.NoDup_cons. apply list.NoDup_app in Hnd as (Hnd & _ & _).
  rewrite list_elem_of_In, in_app_iff in Hx. constructor.
  - rewrite list_elem_of_In. intros (b & E & [Hb _]%frees_in)%in_map_iff. apply Hx. left.
    rewrite <- E. by apply in_map.
  - clear Hx. unfold frees. induction l1 as [|b l1 IH]; [constructor|]. cbn in *.
    apply list.NoDup_cons in Hnd as [Hb Hnd]. case_match; cbn; [|by apply IH].
    constructor; [|by apply IH]. rewrite list_elem_of_In in *.
    intros (c & E & [Hc _]%frees_in)%in_map_iff. apply Hb. rewrite <- E. by apply in_map.
Qed.

(** The state after the blocks [mid] in the middle of a heap were replaced by [mid'],
    only the link [q] into the middle having changed outside of it. *)
Lemma heap_rebuild heapp lo hi m m' l1 mid mid' l2 :
  area_ok heapp lo hi -> heap_rep heapp lo hi m (l1 ++ mid ++ l2) ->
  byte_mem m' -> tiles lo (l1 ++ mid' ++ l2) hi ->
  let q := last_addr (h_free heapp) (frees l1) in
  (forall x, In x (headers heapp (l1 ++ l2)) -> h_size m' x = h_size m x /\
     (x <> q -> h_next m' x = h_next m x)) ->
  h_next m' q = hd_addr (hd_addr NULL (frees l2)) (frees mid') ->
  tail m' (frees mid') (hd_addr NULL (frees l2)) ->
  (forall b, In b mid' -> b_used b = true ->
     h_heap m' (b_addr b) = heapp /\ h_size m' (b_addr b) = b_size b) ->
  h_provider m' heapp = h_provider m heapp ->
  heap_rep heapp lo hi m' (l1 ++ mid' ++ l2).
Proof.
  intros Ha [Hb Ht Hc Hu Hh Hp] Hb' Ht' q Hx Hq Htl Hu' Hp'.
  assert (Hnd := headers_nodup _ _ _ _ Ha Ht). unfold headers in Hnd.
  assert (Hnd1 := nodup_frees _ _ _ Hnd).
  rewrite !frees_app, !chain_app in Hc. destruct Hc as [Hc1 Hc2].
  (* the link [q] is not the header of another block *)
  assert (Hql1 : forall b, In b l1 -> b_addr b = q -> b_used b = false).
  { intros b Hb1 Eq. destruct (b_used b) eqn:E; [|done]. exfalso.
    destruct (last_addr_in (h_free heapp) (frees l1)) as [E1|(c & [Hc' Hcf]%frees_in & E1)];
      fold q in E1.
    - apply list.NoDup_cons in Hnd as [Hni _]. apply Hni. rewrite list_elem_of_In, <- E1, <- Eq.
      apply in_map, in_app_iff. by left.
    - destruct (tiles_disjoint lo _ hi b c ltac:(apply Ha) Ht) as [->|H];
        [apply in_app_iff; auto|apply in_app_iff; auto|congruence|].
      destruct (tiles_in lo _ hi b ltac:(apply Ha) Ht) as (_ & _ & ? & _); [apply in_app_iff; auto|].
      destruct (tiles_in lo _ hi c ltac:(apply Ha) Ht) as (_ & _ & ? & _); [apply in_app_iff; auto|].
      lia. }
  assert (Hql2 : forall b, In b l2 -> b_addr b <> q).
  { intros b Hb2 Eq. rewrite map_app in Hnd. apply list.NoDup_cons in Hnd as [Hni Hnd2].
    assert (Hb2' : In (b_addr b) (map b_addr (mid ++ l2))) by (apply in_map, in_app_iff; auto).
    destruct (last_addr_in (h_free heapp) (frees l1)) as [E1|(c & [Hc' _]%frees_in & E1)];
      fold q in E1.
    - apply Hni. rewrite list_elem_of_In, <- E1, <- Eq. apply in_app_iff. auto.
    - apply list.NoDup_app in Hnd2 as (_ & Hd & _). apply (Hd (b_addr c)).
      + rewrite list_elem_of_In. by apply in_map.
      + rewrite list_elem_of_In. congruence. }
  assert (Hh1 : forall b, In b l1 -> In (b_addr b) (headers heapp (l1 ++ l2))).
  { intros b Hb1. right. apply in_map, in_app_iff. auto. }
  assert (Hh2 : forall b, In b l2 -> In (b_addr b) (headers heapp (l1 ++ l2))).
  { intros b Hb2. right. apply in_map, in_app_iff. auto. }
  constructor; [done|done| | | |by rewrite Hp'].
  - rewrite !frees_app, chain_app. split.
    + eapply chain_relink; [exact Hc1|done| | |].
      * intros b [Hb1 _]%frees_in. exact (proj1 (Hx _ (Hh1 b Hb1))).
      * intros x Hxin Hne. refine (proj2 (Hx x _) Hne).
        destruct Hxin as [<-|(b & <- & [Hb1 _]%frees_in)%in_map_iff]; [by left|by apply Hh1].
      * fold q. rewrite Hq. by destruct (frees mid'), (frees l2).
    + assert (Ht2 : tail m' (frees l2) NULL).
      { eapply tail_frame; [|]. 
        - intros b [Hb2 _]%frees_in. destruct (Hx _ (Hh2 b Hb2)) as [H1 H2]. split; [exact H1|].
          apply H2. by apply Hql2.
        - destruct (frees mid) as [|c f]; cbn in Hc2; [exact Hc2|].
          destruct Hc2 as [_ Hc2]. apply chain_app in Hc2. apply Hc2. }
      destruct (frees mid') as [|c f]; cbn in *; [exact Ht2|].
      destruct Htl as [H1 H2]. split; [done|]. apply chain_app. done.
  - intros b Hin Hub. rewrite !in_app_iff in Hin. destruct Hin as [Hb1|[Hbm|Hb2]].
    + destruct (Hu b) as [H1 H2]; [apply in_app_iff; auto|done|].
      destruct (Hx _ (Hh1 b Hb1)) as [H3 H4]. rewrite H3. unfold h_heap, h_next in *.
      rewrite H4; [done|]. intros E. specialize (Hql1 b Hb1 E). congruence.
    + by apply Hu'.
    + destruct (Hu b) as [H1 H2]; [rewrite !in_app_iff; auto|done|].
      destruct (Hx _ (Hh2 b Hb2)) as [H3 H4]. rewrite H3. unfold h_heap, h_next in *.
      rewrite H4; [done|]. by apply Hql2.
  - rewrite <- Hh. apply (Hx (h_free heapp)). by left.
Qed.

(** ** Allocation *)

Lemma align_next_spec s :
  0 <= MEM_ALIGN_NEXT s < 4294967296 /\ MEM_ALIGN_NEXT s mod 8 = 0 /\
  (0 <= s <= 4294967288 -> s <= MEM_ALIGN_NEXT s < s + 8).
Proof.
  unfold MEM_ALIGN_NEXT, MEM_ALIGN_PREV, MEM_ALIGN_MASK, MEM_ALIGN_SIZE. change (8 - 1) with (Z.ones 3).
  rewrite Z.ldiff_ones_r by lia. rewrite Z.shiftr_div_pow2, Z.shiftl_mul_pow2 by lia.
  change (2 ^ 3) with 8. change (Z.ones 3) with 7.
  assert (H := u32_range (u32 s + 7)). set (w := u32 (u32 s + 7)) in *.
  split; [Z.div_mod_to_equations; lia|split; [apply Z.mod_mul; lia|]].
  intros Hs. unfold w in *. rewrite (u32_id s) in * by lia.
  rewrite u32_id in * by lia. Z.div_mod_to_equations. lia.
Qed.

Lemma tiles_length lo bs hi : tiles lo bs hi -> 8 * Z.of_nat (length bs) <= hi - lo.
Proof.
  revert lo. induction bs as [|b bs IH]; intros lo; cbn [tiles length]; [lia|].
  intros (H1 & H2 & _ & H%IH). lia.
Qed.

Lemma frees_length bs : (length (frees bs) <= length bs)%nat.
Proof. apply List.filter_length_le. Qed.

Lemma find_fit_spec m size : forall l q fuel,
  chain m q l NULL -> (forall b, In b l -> b_addr b <> NULL) -> (length l < fuel)%nat ->
  (find_fit fuel m q size = Some None /\ forall b, In b l -> b_size b < size) \/
  exists f1 b f2, l = f1 ++ b :: f2 /\ (forall c, In c f1 -> b_size c < size) /\
    size <= b_size b /\ find_fit fuel m q size = Some (Some (last_addr q f1, b_addr b)).
Proof.
  induction l as [|b l IH]; intros q fuel Hc Hne Hf; (destruct fuel as [|fuel]; [cbn in Hf; lia|]);
    cbn [find_fit chain] in *.
  - left. rewrite Hc. split; [done|]. intros b [].
  - destruct Hc as (H1 & H2 & H3). rewrite H1, H2.
    rewrite (proj2 (Z.eqb_neq (b_addr b) NULL)) by (apply Hne; by left).
    destruct (size <=? b_size b) eqn:E.
    + right. exists [], b, l. split; [done|split; [intros c []|split; [lia|done]]].
    + destruct (IH (b_addr b) fuel H3) as [[-> Hall]|(f1 & d & f2 & -> & Hf1 & Hd & ->)];
        [intros; apply Hne; by right|cbn in Hf; lia| |].
      * left. split; [done|]. intros c [<-|Hc]; [lia|by apply Hall].
      * right. exists (b :: f1), d, f2. split; [done|split; [|split; [done|done]]].
        intros c [<-|Hc]; [lia|by apply Hf1].
Qed.

Lemma spec_alloc_none size bs : (forall b, In b (frees bs) -> b_size b < size) -> spec_alloc size bs = None.
Proof.
  induction bs as [|b bs IH]; intros H; cbn; [done|].
  assert (Hb : negb (b_used b) && (size <=? b_size b) = false).
  { destruct (b_used b) eqn:E; [done|]. cbn. assert (b_size b < size); [|lia].
    apply H, frees_in. split; [by left|done]. }
  rewrite Hb, IH; [done|]. intros c [Hc Hf]%frees_in. apply H, frees_in. split; [by right|done].
Qed.

Lemma spec_alloc_app size l1 b l2 :
  (forall c, In c (frees l1) -> b_size c < size) -> b_used b = false -> size <= b_size b ->
  spec_alloc size (l1 ++ b :: l2) =
    Some (b_addr b + 8,
      l1 ++ (if b_size b <? size + 8 then [Blk (b_addr b) (b_size b) true]
             else [Blk (b_addr b) size true;
                   Blk (b_addr b + 8 + size) (b_size b - 8 - size) false]) ++ l2).
Proof.
  intros Hl1 Hb Hs. induction l1 as [|c l1 IH]; cbn [app spec_alloc].
  - rewrite Hb. cbn [negb andb]. replace (size <=? b_size b) with true by lia.
    by destruct (b_size b <? size + 8).
  - assert (Hc : negb (b_used c) && (size <=? b_size c) = false).
    { destruct (b_used c) eqn:E; [done|]. cbn. assert (b_size c < size); [|lia].
      apply Hl1, frees_in. split; [by left|done]. }
    rewrite Hc, IH; [done|]. intros d [Hd Hf]%frees_in. apply Hl1, frees_in. split; [by right|done].
Qed.

(** The header before the free part of [l2] is none of the later blocks. *)
Lemma last_addr_header heapp l1 bs :
  incl l1 bs -> In (last_addr (h_free heapp) (frees l1)) (headers heapp bs).
Proof.
  intros Hi. destruct (last_addr_in (h_free heapp) (frees l1)) as [->|(c & [Hc _]%frees_in & ->)];
    [by left|]. right. apply in_map. by apply Hi.
Qed.

Lemma last_addr_ne heapp l1 b l2 :
  NoDup (headers heapp (l1 ++ b :: l2)) -> last_addr (h_free heapp) (frees l1) <> b_addr b.
Proof.
  unfold headers. rewrite map_app. cbn. intros [Hni Hnd]%list.NoDup_cons.
  rewrite list_elem_of_In in Hni. apply list.NoDup_app in Hnd as (_ & Hd & _).
  destruct (last_addr_in (h_free heapp) (frees l1)) as [E|(c & [Hc _]%frees_in & E)]; rewrite E.
  - intros E'. apply Hni. rewrite E'. apply in_app_iff. cbn. auto.
  - intros E'. apply (Hd (b_addr c)); rewrite list_elem_of_In; [by apply in_map|].
    rewrite E'. by left.
Qed.

(** A header that is not [b]'s is a header of the other blocks. *)
Lemma headers_incl heapp l1 mid l2 x :
  In x (headers heapp (l1 ++ l2)) -> In x (headers heapp (l1 ++ mid ++ l2)).
Proof.
  unfold headers. cbn. rewrite !map_app, !in_app_iff. tauto.
Qed.

Lemma headers_other heapp l1 b l2 x :
  NoDup (headers heapp (l1 ++ b :: l2)) -> In x (headers heapp (l1 ++ l2)) -> x <> b_addr b.
Proof.
  unfold headers. rewrite !map_app. cbn.
  intros [Hni Hnd]%list.NoDup_cons Hx ->. rewrite list_elem_of_In, in_app_iff in Hni.
  rewrite <- Permutation_middle in Hnd. apply list.NoDup_cons in Hnd as [Hnd _].
  rewrite list_elem_of_In in Hnd. cbn in *. destruct Hx as [Hx|Hx]; [|done].
  apply Hni. cbn. auto.
Qed.

(** What the memory says of a free block. *)
Lemma free_block_words heapp lo hi m l1 b l2 :
  heap_rep heapp lo hi m (l1 ++ b :: l2) -> b_used b = false ->
  h_next m (last_addr (h_free heapp) (frees l1)) = b_addr b /\
  h_size m (b_addr b) = b_size b /\ h_next m (b_addr b) = hd_addr NULL (frees l2) /\
  tail m (frees l2) NULL.
Proof.
  intros [_ _ Hc _ _ _] Hb. rewrite frees_app in Hc. unfold frees in Hc at 2. cbn in Hc.
  rewrite Hb in Hc. cbn in Hc. apply chain_app in Hc as [Hc1 [Hs Hc2]]. cbn in Hc1.
  split; [by eapply chain_end|split; [done|]].
  change (List.filter _ l2) with (frees l2) in Hc2.
  destruct (frees l2) as [|c f]; cbn in *; [done|]. tauto.
Qed.

(** The words of the heap are addresses. *)
Lemma hd_addr_u32 heapp lo hi bs l :
  area_ok heapp lo hi -> tiles lo bs hi -> incl l bs -> is_u32 (hd_addr NULL (frees l)).
Proof.
  intros Ha Ht Hi. destruct (frees l) as [|b f] eqn:E; cbn; [unfold NULL; lia|].
  assert (Hb : In b bs) by (apply Hi; eapply frees_in; rewrite E; by left).
  destruct (tiles_in lo bs hi b ltac:(apply Ha) Ht Hb). unfold area_ok in Ha. lia.
Qed.

(** A memory changed at headers only. *)
Definition only_headers (hs : list Z) (m m' : mem) : Prop :=
  forall x, (forall y, In y hs -> x < y \/ y + 8 <= x) -> m' x = m x.

Lemma only_headers_provider heapp lo hi bs m m' :
  area_ok heapp lo hi -> tiles lo bs hi -> only_headers (headers heapp bs) m m' ->
  h_provider m' heapp = h_provider m heapp.
Proof.
  intros Ha Ht Ho. apply get32_ext. intros k Hk. apply Ho.
  intros y [<-|(b & <- & Hb)%in_map_iff]; [unfold h_free; lia|].
  destruct (tiles_in lo bs hi b ltac:(apply Ha) Ht Hb). unfold area_ok in Ha. lia.
Qed.

(** The data of a block of a tiling lies in no header. *)
Lemma block_data heapp lo hi bs b x y :
  area_ok heapp lo hi -> tiles lo bs hi -> In b bs ->
  b_addr b + 8 <= x < b_addr b + 8 + b_size b -> In y (headers heapp bs) -> x < y \/ y + 8 <= x.
Proof.
  intros Ha Ht Hb Hx Hy. assert (Hlo : lo mod 8 = 0) by apply Ha.
  destruct (tiles_in lo bs hi b Hlo Ht Hb). destruct Hy as [<-|(c & <- & Hc)%in_map_iff].
  - unfold area_ok, h_free in *. lia.
  - destruct (tiles_in lo bs hi c Hlo Ht Hc).
    destruct (tiles_disjoint lo bs hi b c Hlo Ht Hb Hc) as [->|?]; lia.
Qed.

(** Reading the header words behind header writes. *)
Ltac header_words ap :=
  change set_heap with set_next; change h_heap with h_next;
  repeat first
    [ rewrite next_of_set_size by (apply ap; assumption)
    | rewrite size_of_set_next by (apply ap; assumption)
    | rewrite next_of_set_next by (solve [apply ap; assumption | assumption])
    | rewrite size_of_set_size by (solve [apply ap; assumption | assumption]) ].

(** A byte that no header write touches. *)
Ltac untouched Hx :=
  change set_heap with set_next;
  repeat first [rewrite set_next_other by (apply Hx; assumption)
               | rewrite set_size_other by (apply Hx; assumption)]; reflexivity.

(** What an allocation leaves of the free block it uses. *)
Definition taken (b : blk) (size : Z) : list blk :=
  if b_size b <? size + 8 then [Blk (b_addr b) (b_size b) true]
  else [Blk (b_addr b) size true; Blk (b_addr b + 8 + size) (b_size b - 8 - size) false].

Lemma taken_tiles lo b l2 hi size :
  0 <= size <= b_size b -> size mod 8 = 0 -> tiles lo (b :: l2) hi -> tiles lo (taken b size ++ l2) hi.
Proof.
  unfold taken. intros Hs H8 (H1 & H2 & H3 & H4). destruct (b_size b <? size + 8) eqn:E; cbn.
  - done.
  - split; [done|]. split; [lia|]. split; [done|]. split; [done|]. split; [lia|].
    split; [Z.div_mod_to_equations; lia|].
    replace (b_addr b + 8 + size + 8 + (b_size b - 8 - size)) with (b_addr b + 8 + b_size b) by lia.
    done.
Qed.

Lemma taken_merged l1 b l2 size :
  b_used b = false -> merged (l1 ++ b :: l2) -> merged (l1 ++ taken b size ++ l2).
Proof.
  intros Hb Hm. rewrite merged_app in *. destruct Hm as (H1 & H2 & H3).
  assert (Hn : forall c, head l2 = Some c -> b_used c = true).
  { destruct l2 as [|c l2]; [done|]. cbn in *. intros ? [= <-]. destruct H2 as [[?|?] _]; congruence. }
  assert (H2' : merged l2) by (destruct l2; [done|apply H2]).
  split; [done|]. split.
  - unfold taken. destruct (_ <? _); destruct l2 as [|c l2]; cbn in *; auto 6.
  - revert H3. unfold joint, taken. destruct (list.last l1); [|done].
    destruct (_ <? _); cbn; auto.
Qed.

Lemma addr_range heapp lo hi bs b : area_ok heapp lo hi -> tiles lo bs hi -> In b bs ->
  0 < b_addr b /\ 0 <= b_size b /\ b_addr b + 8 + b_size b < 4294967296.
Proof.
  intros Ha Ht Hb. destruct (tiles_in lo bs hi b ltac:(apply Ha) Ht Hb). unfold area_ok in Ha. lia.
Qed.

(** The headers around a block of a tiling. *)
Lemma site heapp lo hi l1 b l2 : area_ok heapp lo hi -> tiles lo (l1 ++ b :: l2) hi ->
  let hs := headers heapp (l1 ++ b :: l2) in
  let q := last_addr (h_free heapp) (frees l1) in
  (forall x y, In x hs -> In y hs -> apart x y) /\
  In q hs /\ In (b_addr b) hs /\ q <> b_addr b /\ is_u32 (hd_addr NULL (frees l2)) /\
  (0 < b_addr b /\ 0 <= b_size b /\ b_addr b + 8 + b_size b < 4294967296) /\
  (forall x, In x (headers heapp (l1 ++ l2)) -> In x hs /\ x <> b_addr b).
Proof.
  intros Ha Ht hs q. assert (Hin : In b (l1 ++ b :: l2)) by (apply in_app_iff; cbn; auto).
  assert (Hnd := headers_nodup _ _ _ _ Ha Ht).
  split; [intros x y; by apply headers_apart with lo hi|].
  split; [apply last_addr_header; intros c Hc; apply in_app_iff; auto|].
  split; [right; by apply in_map|]. split; [by eapply last_addr_ne|].
  split; [apply (hd_addr_u32 heapp lo hi (l1 ++ b :: l2)); [done|done|];
          intros c Hc; apply in_app_iff; cbn; auto|].
  split; [by apply (addr_range heapp lo hi (l1 ++ b :: l2))|].
  intros x Hx. split; [by apply (headers_incl heapp l1 [b])|by eapply headers_other].
Qed.

Ltac ne H := rewrite (proj2 (Z.eqb_neq _ _) H).

Lemma take_block_eq qp hp heapp size m :
  0 <= size < 4294967288 -> apart (hp + 8 + size) hp ->
  take_block heapp qp hp size m =
    if h_size m hp <? size + 8 then set_heap hp heapp (set_next qp (h_next m hp) m)
    else
      set_heap hp heapp (set_size hp size (set_next qp (hp + 8 + size)
        (set_size (hp + 8 + size) (u32 (u32 (h_size m hp - 8) - size))
          (set_next (hp + 8 + size) (h_next m hp) m)))).
Proof.
  intros Hs Ha. unfold take_block, sizeof_heap_header. rewrite (u32_id (size + 8)) by lia.
  destruct (_ <? _); [done|]. by rewrite size_of_set_next.
Qed.

Section take.
Context (heapp lo hi : Z) (m : mem) (l1 l2 : list blk) (b : blk) (size : Z).
Hypotheses (Ha : area_ok heapp lo hi) (Hr : heap_rep heapp lo hi m (l1 ++ b :: l2))
  (Hb : b_used b = false) (Hsz : 0 <= size <= b_size b) (H8 : size mod 8 = 0).
Let q := last_addr (h_free heapp) (frees l1).

(** The block is taken whole. *)
Lemma take_whole :
  let m' := set_heap (b_addr b) heapp (set_next q (h_next m (b_addr b)) m) in
  let bs' := l1 ++ Blk (b_addr b) (b_size b) true :: l2 in
  heap_rep heapp lo hi m' bs' /\ only_headers (headers heapp bs') m m'.
Proof using Ha Hr Hb.
  intros m' bs'. pose proof Hr as [Hby Ht _ _ _ _].
  destruct (free_block_words _ _ _ _ _ _ _ Hr Hb) as (Hw1 & Hw2 & Hw3 & Hw4).
  assert (Ht' : tiles lo bs' hi).
  { apply tiles_app in Ht as (mid & Ht1 & Ht2). apply tiles_app. exists mid. done. }
  destruct (site heapp lo hi l1 _ l2 Ha Ht') as (Hap & Hqi & Hbi & Hqb & Hn32 & _ & Hother).
  fold bs' in Hap, Hqi, Hbi, Hother. fold q in Hqi, Hqb. cbn [b_addr] in Hbi, Hqb, Hother.
  set (hs := headers heapp bs') in *.
  assert (H32 : is_u32 heapp) by (unfold area_ok in Ha; lia).
  assert (E : m' = set_heap (b_addr b) heapp (set_next q (hd_addr NULL (frees l2)) m))
    by (unfold m'; by rewrite Hw3). clearbody m'.
  assert (Ho : only_headers hs m m') by (intros x Hx; subst m'; untouched Hx).
  split; [|exact Ho].
  apply (heap_rebuild heapp lo hi m m' l1 [b] [Blk (b_addr b) (b_size b) true]);
    [done|done|subst m'; repeat apply put32_byte_mem; done|done| | | | |].
  - intros x [Hx1 Hx2]%Hother. rewrite E. header_words Hap. split; [done|]. intros Hx3. fold q in Hx3.
    ne Hx2. by ne Hx3.
  - fold q. rewrite E. header_words Hap. ne Hqb. by rewrite Z.eqb_refl.
  - done.
  - intros c [<-|[]] _. cbn [b_addr b_size]. rewrite E. header_words Hap. by rewrite Z.eqb_refl.
  - by apply (only_headers_provider heapp lo hi bs').
Qed.

(** The block is split. *)
Lemma take_split : size + 8 <= b_size b ->
  let fp := b_addr b + 8 + size in
  let m' := set_heap (b_addr b) heapp (set_size (b_addr b) size (set_next q fp
        (set_size fp (u32 (u32 (h_size m (b_addr b) - 8) - size)) (set_next fp (h_next m (b_addr b)) m)))) in
  let bs' := l1 ++ Blk (b_addr b) size true :: Blk fp (b_size b - 8 - size) false :: l2 in
  heap_rep heapp lo hi m' bs' /\ only_headers (headers heapp bs') m m'.
Proof using All.
  intros Hlt fp m' bs'. pose proof Hr as [Hby Ht _ _ _ _].
  destruct (free_block_words _ _ _ _ _ _ _ Hr Hb) as (Hw1 & Hw2 & Hw3 & Hw4).
  assert (Ht' : tiles lo bs' hi).
  { pose proof (taken_tiles (b_addr b) b l2 hi size Hsz H8) as Htk. unfold taken in Htk.
    replace (b_size b <? size + 8) with false in Htk by lia.
    apply tiles_app in Ht as (mid & Ht1 & Ht2). assert (b_addr b = mid) as <- by apply Ht2.
    apply tiles_app. exists (b_addr b). split; [done|]. by apply Htk. }
  assert (Hbr := addr_range heapp lo hi _ b Ha Ht ltac:(apply in_app_iff; cbn; auto)).
  destruct (site heapp lo hi l1 _ _ Ha Ht') as (Hap & Hqi & Hbi & Hqb & _ & _ & Hother).
  replace bs' with ((l1 ++ [Blk (b_addr b) size true]) ++ Blk fp (b_size b - 8 - size) false :: l2) in Ht'
    by (by rewrite <- app_assoc).
  destruct (site heapp lo hi _ _ l2 Ha Ht') as (_ & _ & Hfi & Hqf & Hn32 & _ & Hother2).
  rewrite frees_app in Hqf. unfold frees at 2 in Hqf. cbn in Hqf. rewrite app_nil_r in Hqf.
  rewrite <- !app_assoc in Hfi, Hother2, Ht'. cbn [app] in Hfi, Hother2, Ht'.
  fold q in Hqi, Hqb, Hqf. fold bs' in Hap, Hqi, Hbi, Hfi, Hother, Hother2, Ht'.
  cbn [b_addr] in Hbi, Hfi, Hqb, Hqf, Hother, Hother2.
  assert (Hfb : fp <> b_addr b) by (unfold fp; lia).
  set (hs := headers heapp bs') in *.
  assert (H32 : is_u32 heapp) by (unfold area_ok in Ha; lia).
  assert (Hf32 : is_u32 fp) by (unfold fp; lia). assert (Hs32 : is_u32 size) by lia.
  assert (Hr32 : is_u32 (b_size b - 8 - size)) by lia.
  assert (E : m' = set_heap (b_addr b) heapp (set_size (b_addr b) size (set_next q fp
      (set_size fp (b_size b - 8 - size) (set_next fp (hd_addr NULL (frees l2)) m))))).
  { unfold m'. by rewrite Hw3, Hw2, (u32_id (b_size b - 8)), u32_id by lia. }
  clearbody m'. assert (Ho : only_headers hs m m') by (intros x Hx; subst m'; untouched Hx).
  split; [|exact Ho].
  apply (heap_rebuild heapp lo hi m m' l1 [b] [Blk (b_addr b) size true; Blk fp (b_size b - 8 - size) false]);
    [done|done|subst m'; repeat apply put32_byte_mem; done|done| | | | |].
  - intros x Hx. destruct (Hother x) as [Hx1 Hx2]; [by apply (headers_incl heapp l1 [_])|].
    destruct (Hother2 x) as [_ Hx4]; [by apply (headers_incl heapp l1 [_])|].
    rewrite E. header_words Hap. ne Hx2. ne Hx4. split; [done|]. intros Hx3. fold q in Hx3. by ne Hx3.
  - fold q. rewrite E. header_words Hap. ne Hqb. by rewrite Z.eqb_refl.
  - cbn. rewrite E. header_words Hap. rewrite !Z.eqb_refl. ne Hfb. by ne (not_eq_sym Hqf).
  - intros c [<-|[<-|[]]] Hc; [|done]. cbn [b_addr b_size]. rewrite E. header_words Hap.
    by rewrite !Z.eqb_refl.
  - by apply (only_headers_provider heapp lo hi bs').
Qed.

Lemma take_block_ok : merged (l1 ++ b :: l2) ->
  let m' := take_block heapp q (b_addr b) size m in
  let bs' := l1 ++ taken b size ++ l2 in
  heap_ok heapp lo hi m' bs' /\ only_headers (headers heapp bs') m m'.
Proof using All.
  intros Hm m' bs'. pose proof Hr as [_ Ht _ _ _ _].
  destruct (free_block_words _ _ _ _ _ _ _ Hr Hb) as (_ & Hw2 & _).
  assert (Hbr := addr_range heapp lo hi _ b Ha Ht ltac:(apply in_app_iff; cbn; auto)).
  assert (Htm := taken_merged l1 b l2 size Hb Hm).
  unfold m', bs', heap_ok. rewrite take_block_eq, Hw2; [|lia|right; right; lia].
  unfold taken in *. destruct (b_size b <? size + 8) eqn:Ec.
  - destruct take_whole as [H1 H2]. done.
  - destruct take_split as [H1 H2]; [lia|]. rewrite Hw2 in H1, H2. done.
Qed.
End take.

Lemma frees_ne_null heapp lo hi bs b : area_ok heapp lo hi -> tiles lo bs hi -> In b bs -> b_addr b <> NULL.
Proof.
  intros Ha Ht Hb. destruct (tiles_in lo bs hi b ltac:(apply Ha) Ht Hb).
  unfold area_ok, NULL in *. lia.
Qed.

Lemma chHeapAlloc_ok dh heapp lo hi fuel size r bs :
  area_ok heapp lo hi -> heap_ok heapp lo hi (bytes r) bs -> hi - lo < 8 * Z.of_nat fuel ->
  match spec_alloc (MEM_ALIGN_NEXT size) bs with
  | None => chHeapAlloc dh fuel heapp size r = Some (NULL, r)
  | Some (p, bs') =>
      exists m', chHeapAlloc dh fuel heapp size r = Some (p, Ram m' (core r)) /\
        heap_ok heapp lo hi m' bs' /\ only_headers (headers heapp bs') (bytes r) m'
  end.
Proof.
  intros Ha Hok Hf. pose proof Hok as [Hr Hm]. pose proof Hr as [Hby Ht Hc Hu Hh Hp].
  destruct (align_next_spec size) as (Hs32 & Hs8 & _). set (sz := MEM_ALIGN_NEXT size) in *.
  unfold chHeapAlloc. fold sz.
  replace (heapp =? NULL) with false by (unfold area_ok, NULL in *; lia).
  assert (Hl := tiles_length _ _ _ Ht). assert (Hl' := frees_length bs).
  destruct (find_fit_spec (bytes r) sz (frees bs) (h_free heapp) fuel) as
    [[-> Hn]|(f1 & b & f2 & E & Hf1 & Hb & ->)]; [done| |lia| |].
  - intros b [Hb _]%frees_in. by apply (frees_ne_null heapp lo hi bs).
  - rewrite spec_alloc_none, Hp by done. done.
  - apply frees_split in E as (l1 & l2 & -> & <- & <- & Hu').
    rewrite spec_alloc_app by done. fold (taken b sz).
    destruct (take_block_ok heapp lo hi (bytes r) l1 l2 b sz) as [H1 H2]; [done..|lia|done|done|].
    eexists. split; [reflexivity|]. done.
Qed.

(** ** Freeing *)

(** Before the freed block the addresses of the free blocks are smaller. *)
Lemma tiles_split_order lo l1 b l2 hi :
  lo mod 8 = 0 -> tiles lo (l1 ++ b :: l2) hi ->
  (forall c, In c l1 -> b_addr c + 8 + b_size c <= b_addr b) /\
  (forall c, In c l2 -> b_addr b + 8 + b_size b <= b_addr c).
Proof.
  revert lo. induction l1 as [|d l1 IH]; intros lo Hlo; cbn [app tiles];
    intros (H1 & H2 & H3 & H4); (assert (Hm : (b_addr d + 8 + b_size d) mod 8 = 0) || 
    assert (Hm : (b_addr b + 8 + b_size b) mod 8 = 0)); try (rewrite H1; Z.div_mod_to_equations; lia).
  - split; [intros c []|]. intros c Hc. by destruct (tiles_in _ _ _ c Hm H4 Hc).
  - destruct (IH _ Hm H4) as [I1 I2]. split; [|done]. intros c [<-|Hc]; [|by apply I1].
    destruct (tiles_in _ _ _ b Hm H4) as (? & _); [apply in_app_iff; cbn; auto|lia].
Qed.

Lemma find_place_spec m sentinel hp f2 : forall f1 q fuel,
  chain m q (f1 ++ f2) NULL ->
  q = sentinel \/ (q < hp /\ q <> sentinel) ->
  (forall b, In b (f1 ++ f2) -> b_addr b <> NULL) ->
  (forall b, In b f1 -> b_addr b < hp) -> (forall b, In b f2 -> hp < b_addr b) ->
  (length f1 < fuel)%nat ->
  find_place fuel m sentinel q hp = Some (last_addr q f1).
Proof.
  induction f1 as [|b f1 IH]; intros q fuel Hc Hq Hne H1 H2 Hf;
    (destruct fuel as [|fuel]; [cbn in Hf; lia|]); cbn [find_place].
  - assert (Eq : (q =? sentinel) || (q <? hp) = true) by lia. rewrite Eq. cbn [andb last_addr].
    destruct f2 as [|c f2]; cbn in Hc.
    + by rewrite Hc.
    + destruct Hc as (-> & _). replace (hp <? b_addr c) with true.
      * by rewrite orb_true_r.
      * specialize (H2 c ltac:(by left)). lia.
  - destruct Hc as (-> & _ & Hc). cbn [app] in *.
    assert (Hb : b_addr b < hp) by (apply H1; by left).
    assert (Hn : b_addr b <> NULL) by (apply Hne; by left).
    replace ((b_addr b =? NULL) || (hp <? b_addr b)) with false by lia.
    rewrite andb_false_r. cbn [last_addr].
    apply IH; [done|lia|auto|auto|auto|cbn in Hf; lia].
    all: intros c Hc'; first [apply Hne|apply H1]; by right.
Qed.

(** Linking a block after the last free header before it. *)
Definition link (qp hp : Z) (m : mem) : mem :=
  let m := set_next hp (h_next m qp) m in set_next qp hp m.

(** Merging a free block with the next one of the list. *)
Definition absorb (x : Z) (m : mem) : mem :=
  let m := set_size x (u32 (h_size m x + (h_size m (h_next m x) + sizeof_heap_header))) m in
  set_next x (h_next m (h_next m x)) m.

Section free.
Context (heapp lo hi : Z) (Ha : area_ok heapp lo hi).

Lemma link_ok m l1 b l2 : heap_rep heapp lo hi m (l1 ++ b :: l2) -> b_used b = true ->
  let m' := link (last_addr (h_free heapp) (frees l1)) (b_addr b) m in
  heap_rep heapp lo hi m' (l1 ++ Blk (b_addr b) (b_size b) false :: l2) /\
  only_headers (headers heapp (l1 ++ b :: l2)) m m'.
Proof using All.
  intros Hr Hb. pose proof Hr as [Hby Ht Hc Hu _ _]. intros m'.
  destruct (site heapp lo hi l1 b l2 Ha Ht) as (Hap & Hqi & Hbi & Hqb & Hn32 & Hbr & Hother).
  set (q := last_addr (h_free heapp) (frees l1)) in *. set (hs := headers heapp (l1 ++ b :: l2)) in *.
  assert (Hb32 : is_u32 (b_addr b)) by lia.
  assert (Hq : h_next m q = hd_addr NULL (frees l2) /\ tail m (frees l2) NULL).
  { rewrite frees_app in Hc. unfold frees in Hc at 2. cbn in Hc. rewrite Hb in Hc. cbn in Hc.
    apply chain_app in Hc as [Hc1 Hc2]. split; [by apply chain_end in Hc1|done]. }
  destruct Hq as [Hq Htl].
  assert (E : m' = set_next q (b_addr b) (set_next (b_addr b) (hd_addr NULL (frees l2)) m))
    by (unfold m', link; by rewrite Hq). clearbody m'.
  assert (Ho : only_headers hs m m') by (intros x Hx; subst m'; untouched Hx).
  split; [|exact Ho].
  apply (heap_rebuild heapp lo hi m m' l1 [b] [Blk (b_addr b) (b_size b) false]);
    [done|done|subst m'; repeat apply put32_byte_mem; done| | | | | |].
  - rewrite tiles_app in *. destruct Ht as (mid & H1 & H2). exists mid. done.
  - intros x [Hx1 Hx2]%Hother. rewrite E. header_words Hap. split; [done|]. intros Hx3. fold q in Hx3.
    ne Hx2. by ne Hx3.
  - fold q. rewrite E. header_words Hap. by rewrite Z.eqb_refl.
  - cbn. rewrite E. header_words Hap. rewrite Z.eqb_refl. ne (not_eq_sym Hqb). split; [|done].
    apply Hu; [|done]. apply in_app_iff. cbn. auto.
  - intros c [<-|[]]. done.
  - by apply (only_headers_provider heapp lo hi (l1 ++ b :: l2)).
Qed.

Lemma absorb_ok m l1 x n l2 : heap_rep heapp lo hi m (l1 ++ x :: n :: l2) ->
  b_used x = false -> b_used n = false ->
  let m' := absorb (b_addr x) m in
  heap_rep heapp lo hi m' (l1 ++ Blk (b_addr x) (b_size x + 8 + b_size n) false :: l2) /\
  only_headers (headers heapp (l1 ++ x :: n :: l2)) m m'.
Proof using All.
  intros Hr Hx Hn. pose proof Hr as [Hby Ht Hc Hu _ _]. intros m'.
  destruct (free_block_words _ _ _ _ _ _ _ Hr Hx) as (Hx1 & Hx2 & Hx3 & _).
  destruct (free_block_words heapp lo hi m (l1 ++ [x]) n l2) as (_ & Hn2 & Hn3 & Htl);
    [rewrite <- app_assoc; exact Hr|done|].
  unfold frees in Hx3. cbn in Hx3. rewrite Hn in Hx3. cbn in Hx3.
  destruct (site heapp lo hi l1 x (n :: l2) Ha Ht) as (Hap & Hqi & Hxi & Hqx & _ & Hxr & Hother).
  destruct (site heapp lo hi (l1 ++ [x]) n l2 Ha) as (_ & _ & Hni & _ & Hn32 & Hnr & _);
    [by rewrite <- app_assoc|].
  rewrite <- app_assoc in Hni. cbn [app] in Hni.
  set (hs := headers heapp (l1 ++ x :: n :: l2)) in *.
  set (q := last_addr (h_free heapp) (frees l1)) in *.
  assert (Hadj : b_addr n = b_addr x + 8 + b_size x).
  { apply tiles_app in Ht as (mid & _ & _ & _ & _ & H & _). done. }
  assert (Hs32 : is_u32 (b_size x + (b_size n + 8))) by lia.
  assert (E : m' = set_next (b_addr x) (hd_addr NULL (frees l2))
                     (set_size (b_addr x) (b_size x + (b_size n + 8)) m)).
  { unfold m', absorb, sizeof_heap_header. rewrite (next_of_set_size m (b_addr x) (b_addr x)) by (by apply Hap).
    rewrite Hx2, Hx3, Hn2, (u32_id (b_size x + (b_size n + 8))) by lia.
    by rewrite (next_of_set_size m (b_addr x) (b_addr n)), Hn3 by (by apply Hap). }
  clearbody m'. assert (Ho : only_headers hs m m') by (intros y Hy; subst m'; untouched Hy).
  split; [|exact Ho].
  apply (heap_rebuild heapp lo hi m m' l1 [x; n] [Blk (b_addr x) (b_size x + 8 + b_size n) false]);
    [done|done|subst m'; repeat apply put32_byte_mem; done| | | | | |].
  - rewrite tiles_app in *. destruct Ht as (mid & T1 & T2 & T3 & T4 & T5 & T6 & T7 & T8).
    exists mid. split; [done|]. cbn. split; [done|]. split; [lia|]. split; [Z.div_mod_to_equations; lia|].
    replace (b_addr x + 8 + (b_size x + 8 + b_size n)) with (b_addr n + 8 + b_size n) by lia. done.
  - intros y Hy. destruct (Hother y) as [Hy1 Hy2]; [by apply (headers_incl heapp l1 [n])|].
    rewrite E. header_words Hap. by ne Hy2.
  - fold q. rewrite E. header_words Hap. by ne Hqx.
  - cbn. rewrite E. header_words Hap. rewrite Z.eqb_refl. split; [lia|done].
  - intros c [<-|[]]. done.
  - by apply (only_headers_provider heapp lo hi (l1 ++ x :: n :: l2)).
Qed.

(** The test for a free neighbour. *)
Lemma limit_test m l1 x l2 : heap_rep heapp lo hi m (l1 ++ x :: l2) -> b_used x = false ->
  (LIMIT m (b_addr x) =? h_next m (b_addr x)) =
    match l2 with n :: _ => negb (b_used n) | [] => false end.
Proof using All.
  intros Hr Hx. destruct (free_block_words _ _ _ _ _ _ _ Hr Hx) as (_ & Hx2 & Hx3 & _).
  destruct Hr as [_ Ht _ _ _ _]. assert (Ht0 := Ht).
  destruct (addr_range _ _ _ _ x Ha Ht ltac:(apply in_app_iff; cbn; auto)).
  unfold LIMIT, sizeof_heap_header. rewrite Hx2, Hx3, u32_id by lia.
  apply tiles_app in Ht as (mid & _ & H1 & H2 & H3 & H4).
  destruct l2 as [|n r]; [cbn; unfold NULL; lia|]. cbn in H4.
  unfold frees. cbn. destruct (b_used n) eqn:En; cbn; [|lia]. fold (frees r).
  destruct (frees r) as [|c f] eqn:E; cbn; [unfold NULL; lia|].
  assert (Hc : In c r) by (eapply frees_in; rewrite E; by left).
  replace (l1 ++ x :: n :: r) with ((l1 ++ [x]) ++ n :: r) in Ht0 by (by rewrite <- app_assoc).
  destruct (tiles_split_order lo _ n r hi ltac:(apply Ha) Ht0) as [_ Ho]. specialize (Ho c Hc). lia.
Qed.

Lemma free_next m l1 b l2 : heap_rep heapp lo hi m (l1 ++ b :: l2) -> b_used b = false -> merged l2 ->
  let m' := if LIMIT m (b_addr b) =? h_next m (b_addr b) then absorb (b_addr b) m else m in
  exists y r, coalesce (b :: l2) = y :: r /\ b_addr y = b_addr b /\ b_used y = false /\ incl r l2 /\
    heap_rep heapp lo hi m' (l1 ++ y :: r) /\ only_headers (headers heapp (l1 ++ b :: l2)) m m'.
Proof using All.
  intros Hr Hb Hm. cbn zeta. rewrite (limit_test m l1 b l2) by done.
  cbn [coalesce]. rewrite coalesce_id by done. destruct l2 as [|n r].
  - exists b, []. do 3 (split; [done|]). split; [apply incl_refl|]. split; [done|]. by intros x _.
  - rewrite Hb. cbn [negb andb]. destruct (b_used n) eqn:En; cbn [negb].
    + exists b, (n :: r). do 3 (split; [done|]). split; [apply incl_refl|]. split; [done|]. by intros x _.
    + destruct (absorb_ok m l1 b n r Hr Hb En) as [H1 H2].
      eexists _, _. do 3 (split; [done|]). split; [by apply incl_tl, incl_refl|done].
Qed.

Lemma limit_prev_used m l1 y r : heap_rep heapp lo hi m (l1 ++ y :: r) -> b_used y = false ->
  (forall a, list.last l1 = Some a -> b_used a = true) ->
  (LIMIT m (last_addr (h_free heapp) (frees l1)) =? b_addr y) = false.
Proof using All.
  intros Hr Hy Hl. destruct (free_block_words _ _ _ _ _ _ _ Hr Hy) as (Hq & _).
  destruct (frees l1) as [|c f _] eqn:E using rev_ind.
  - cbn [last_addr]. destruct Hr as [_ Ht _ _ Hh _]. unfold LIMIT. rewrite Hh.
    assert (Hyr := addr_range _ _ _ _ y Ha Ht ltac:(apply in_app_iff; cbn; auto)).
    destruct (tiles_in lo _ hi y ltac:(apply Ha) Ht) as (? & ? & _); [apply in_app_iff; cbn; auto|].
    unfold sizeof_heap_header, h_free, area_ok in *. rewrite u32_id by lia. lia.
  - rewrite last_addr_snoc in *. apply frees_split in E as (k1 & k2 & -> & _ & Ek & Hc).
    rewrite <- Hq. rewrite <- app_assoc in Hr. cbn in Hr. rewrite (limit_test m k1 c (k2 ++ y :: r)) by done.
    destruct k2 as [|d k2]; cbn.
    + specialize (Hl c). rewrite list.last_snoc in Hl. specialize (Hl eq_refl). congruence.
    + unfold frees in Ek. cbn in Ek. by destruct (b_used d).
Qed.

Lemma free_prev m l1 y r : heap_rep heapp lo hi m (l1 ++ y :: r) -> b_used y = false ->
  merged l1 -> merged (y :: r) ->
  let q := last_addr (h_free heapp) (frees l1) in
  let m' := if LIMIT m q =? b_addr y then absorb q m else m in
  heap_rep heapp lo hi m' (coalesce (l1 ++ y :: r)) /\
  only_headers (headers heapp (l1 ++ y :: r)) m m'.
Proof using All.
  intros Hr Hy Hm1 Hm2 q m'.
  destruct l1 as [|a l0 _] using rev_ind; [|destruct (b_used a) eqn:Ea].
  - unfold m', q. rewrite (limit_prev_used m [] y r) by done. cbn [app].
    rewrite coalesce_id by done. split; [exact Hr|by intros x _].
  - assert (Hl : forall c, list.last (l0 ++ [a]) = Some c -> b_used c = true).
    { intros c. rewrite list.last_snoc. intros [= <-]. done. }
    unfold m', q. rewrite (limit_prev_used m (l0 ++ [a]) y r) by done.
    rewrite coalesce_app_used; [|done|].
    + rewrite coalesce_id by done. split; [exact Hr|by intros x _].
    + rewrite coalesce_id by done. unfold joint. rewrite list.last_snoc. cbn. auto.
  - rewrite <- app_assoc in Hr |- *. cbn [app] in *.
    assert (Hq : q = b_addr a).
    { unfold q. rewrite frees_app. unfold frees at 2. cbn. rewrite Ea. cbn. apply last_addr_snoc. }
    destruct (free_block_words _ _ _ _ _ _ _ Hr Ea) as (_ & _ & Hn & _).
    unfold frees in Hn. cbn in Hn. rewrite Hy in Hn. cbn in Hn.
    assert (Ht : (LIMIT m q =? b_addr y) = true).
    { rewrite Hq, <- Hn, (limit_test m l0 a (y :: r)) by done. by rewrite Hy. }
    unfold m'. rewrite Ht, Hq. destruct (absorb_ok m l0 a y r Hr Ea Hy) as [H1 H2].
    apply merged_app in Hm1 as (Hm0 & _ & Hj).
    assert (Ec : coalesce (a :: y :: r) = Blk (b_addr a) (b_size a + 8 + b_size y) false :: r).
    { change (coalesce (a :: y :: r)) with
        (match coalesce (y :: r) with
         | n :: r' => if negb (b_used a) && negb (b_used n)
                      then Blk (b_addr a) (b_size a + 8 + b_size n) false :: r' else a :: n :: r'
         | [] => [a] end). rewrite coalesce_id by done. by rewrite Ea, Hy. }
    rewrite coalesce_app_used; [rewrite Ec; done|done|]. rewrite Ec. unfold joint in *. cbn in *.
    destruct (list.last l0); [|done]. destruct Hj; [auto|congruence].
Qed.
End free.

Lemma only_headers_trans hs m1 m2 m3 : only_headers hs m1 m2 -> only_headers hs m2 m3 -> only_headers hs m1 m3.
Proof. intros H1 H2 x Hx. rewrite H2 by done. by apply H1. Qed.
Lemma only_headers_incl hs hs' m m' : incl hs hs' -> only_headers hs m m' -> only_headers hs' m m'.
Proof. intros Hi H x Hx. apply H. intros y Hy. by apply Hx, Hi. Qed.

Lemma release_app heapp lo hi l1 b l2 : area_ok heapp lo hi -> tiles lo (l1 ++ b :: l2) hi ->
  release (b_addr b) (l1 ++ b :: l2) = l1 ++ Blk (b_addr b) (b_size b) false :: l2.
Proof.
  intros Ha Ht. destruct (tiles_split_order lo l1 b l2 hi ltac:(apply Ha) Ht) as [H1 H2].
  assert (Hid : forall l, (forall c, In c l -> b_addr c <> b_addr b) ->
    map (fun c => if b_addr c =? b_addr b then Blk (b_addr c) (b_size c) false else c) l = l).
  { intros l Hl. rewrite <- (map_id l) at 2. apply map_ext_in. intros c Hc.
    by rewrite (proj2 (Z.eqb_neq _ _) (Hl c Hc)). }
  destruct (addr_range heapp lo hi _ b Ha Ht ltac:(apply in_app_iff; cbn; auto)).
  unfold release. rewrite map_app. cbn [map]. rewrite Z.eqb_refl, !Hid; [done| |].
  - intros c Hc. specialize (H2 c Hc). lia.
  - intros c Hc. specialize (H1 c Hc).
    destruct (addr_range heapp lo hi _ c Ha Ht ltac:(apply in_app_iff; cbn; auto)). lia.
Qed.

(** The code of the insertion, as a link and two conditional merges. *)
Lemma insert_block_eq qp hp m :
  insert_block qp hp m =
    let m := link qp hp m in
    let m := if LIMIT m hp =? h_next m hp then absorb hp m else m in
    if LIMIT m qp =? hp
    then let m := set_size qp (u32 (h_size m qp + (h_size m hp + sizeof_heap_header))) m in
         set_next qp (h_next m hp) m
    else m.
Proof. reflexivity. Qed.

Lemma chHeapFree_ok heapp lo hi fuel r bs b :
  area_ok heapp lo hi -> heap_ok heapp lo hi (bytes r) bs -> hi - lo < 8 * Z.of_nat fuel ->
  In b bs -> b_used b = true ->
  exists m', chHeapFree fuel (b_addr b + 8) r = Some (Ram m' (core r)) /\
    heap_ok heapp lo hi m' (spec_free (b_addr b + 8) bs) /\
    only_headers (headers heapp bs) (bytes r) m'.
Proof.
  intros Ha [Hr Hm] Hf Hin Hb. pose proof Hr as [Hby Ht Hc Hu _ _].
  apply in_split in Hin as (l1 & l2 & ->). set (m := bytes r) in *.
  destruct (tiles_split_order lo l1 b l2 hi ltac:(apply Ha) Ht) as [O1 O2].
  pose proof (fun c => addr_range heapp lo hi _ c Ha Ht) as Hrng.
  assert (Hbr := Hrng b ltac:(apply in_app_iff; cbn; auto)).
  set (q := last_addr (h_free heapp) (frees l1)).
  unfold chHeapFree, spec_free, sizeof_heap_header. fold m.
  replace (b_addr b + 8 - 8) with (b_addr b) by lia.
  rewrite (proj1 (Hu b ltac:(apply in_app_iff; cbn; auto) Hb)), (release_app heapp lo hi) by done.
  assert (Hfr : frees (l1 ++ b :: l2) = frees l1 ++ frees l2).
  { rewrite frees_app. f_equal. unfold frees. cbn. by rewrite Hb. }
  rewrite Hfr in Hc. assert (Hl := tiles_length _ _ _ Ht). assert (Hl' := frees_length l1).
  rewrite length_app in Hl. cbn in Hl.
  rewrite (find_place_spec m (h_free heapp) (b_addr b) (frees l2) (frees l1)); [|done|by left| | | |lia].
  2: { rewrite <- Hfr. intros c [Hc' _]%frees_in. specialize (Hrng c Hc'). unfold NULL. lia. }
  2: { intros c [Hc' _]%frees_in. specialize (O1 c Hc').
       specialize (Hrng c ltac:(apply in_app_iff; auto)). lia. }
  2: { intros c [Hc' _]%frees_in. specialize (O2 c Hc'). lia. }
  fold q. eexists. split; [reflexivity|].
  destruct (link_ok heapp lo hi Ha m l1 b l2 Hr Hb) as [Hr1 Ho1].
  fold q in Hr1, Ho1. rewrite insert_block_eq. cbn zeta. set (m1 := link q (b_addr b) m) in *.
  apply merged_app in Hm as (Hm1 & Hm2 & _).
  assert (Hm2' : merged l2) by (destruct l2; [done|apply Hm2]).
  destruct (free_next heapp lo hi Ha m1 l1 (Blk (b_addr b) (b_size b) false) l2 Hr1 eq_refl Hm2')
    as (y & rest & Ec & Ey & Hy & Hinc & Hr2 & Ho2). cbn [b_addr] in Hr2, Ho2, Ey.
  set (m2 := if LIMIT m1 (b_addr b) =? h_next m1 (b_addr b) then absorb (b_addr b) m1 else m1) in *.
  destruct (free_prev heapp lo hi Ha m2 l1 y rest Hr2 Hy Hm1) as [Hr3 Ho3].
  { rewrite <- Ec. apply coalesce_merged. }
  fold q in Hr3, Ho3. rewrite Ey in Hr3, Ho3.
  assert (Hi : incl (headers heapp (l1 ++ y :: rest)) (headers heapp (l1 ++ b :: l2))).
  { unfold headers. intros x [<-|Hx]; [by left|]. right. rewrite map_app, in_app_iff in *. cbn in *.
    rewrite Ey in Hx. destruct Hx as [Hx|[Hx|Hx]]; [by left|by right; left|]. right. right.
    apply in_map_iff in Hx as (c & <- & Hc'). by apply in_map, Hinc. }
  assert (E : (if LIMIT m2 q =? b_addr b
     then set_next q (h_next (set_size q (u32 (h_size m2 q + (h_size m2 (b_addr b) + sizeof_heap_header))) m2) (b_addr b))
            (set_size q (u32 (h_size m2 q + (h_size m2 (b_addr b) + sizeof_heap_header))) m2)
     else m2) = if LIMIT m2 q =? b_addr b then absorb q m2 else m2).
  { assert (Hq2 : h_next m2 q = b_addr b).
    { rewrite <- Ey. by apply (free_block_words _ _ _ _ _ _ _ Hr2 Hy). }
    unfold absorb. rewrite (next_of_set_size m2 q q) by (by left). by rewrite Hq2. }
  rewrite E. split; [split|].
  - rewrite <- Ec, coalesce_app_r in Hr3. exact Hr3.
  - apply coalesce_merged.
  - apply only_headers_trans with m1; [done|]. apply only_headers_trans with m2.
    + eapply only_headers_incl; [|exact Ho2]. unfold headers. rewrite !map_app. apply incl_refl.
    + eapply only_headers_incl; [|exact Ho3]. done.
Qed.

(** ** Sequences of calls *)

Lemma coalesce_used b bs : In b bs -> b_used b = true -> In b (coalesce bs).
Proof.
  intros Hin Hb. induction bs as [|c bs IH]; [done|]. cbn [coalesce].
  destruct Hin as [<-|Hin].
  - destruct (coalesce bs); [by left|]. rewrite Hb. by left.
  - specialize (IH Hin). destruct (coalesce bs) as [|n r]; [done|].
    destruct (negb (b_used c) && negb (b_used n)) eqn:E; [|by right].
    destruct IH as [<-|IH]; [|by right]. rewrite Hb, andb_false_r in E. done.
Qed.

Lemma spec_free_used p b bs : In b bs -> b_used b = true -> b_addr b + 8 <> p -> In b (spec_free p bs).
Proof.
  intros Hin Hb Hp. apply coalesce_used; [|done]. apply in_map_iff. exists b. split; [|done].
  by rewrite (proj2 (Z.eqb_neq (b_addr b) (p - 8))) by lia.
Qed.

(** What an allocation does to the blocks, by the block it uses. *)
Lemma spec_alloc_inv size bs p bs' : spec_alloc size bs = Some (p, bs') ->
  exists l1 b l2, bs = l1 ++ b :: l2 /\ b_used b = false /\ size <= b_size b /\
    p = b_addr b + 8 /\ bs' = l1 ++ taken b size ++ l2.
Proof.
  revert bs'. induction bs as [|b bs IH]; intros bs'; cbn; [done|].
  destruct (negb (b_used b) && (size <=? b_size b)) eqn:E.
  - intros [= <- <-]. exists [], b, bs. unfold taken.
    apply andb_true_iff in E as [E1 E2]. split; [done|]. split; [by destruct (b_used b)|].
    split; [lia|]. split; [done|]. by destruct (_ <? _).
  - destruct (spec_alloc size bs) as [[q r]|]; [|done]. intros [= <- <-].
    destruct (IH r eq_refl) as (l1 & c & l2 & -> & H1 & H2 & -> & ->).
    exists (b :: l1), c, l2. done.
Qed.

Lemma spec_alloc_used size bs p bs' b : spec_alloc size bs = Some (p, bs') ->
  In b bs -> b_used b = true -> In b bs'.
Proof.
  intros (l1 & c & l2 & -> & Hc & _ & _ & ->)%spec_alloc_inv Hin Hb.
  rewrite !in_app_iff in *. cbn in Hin. destruct Hin as [?|[->|?]]; auto. congruence.
Qed.

(** Header writes leave the data of the blocks. *)
Definition data_kept (b : blk) (m m' : mem) : Prop :=
  forall x, b_addr b + 8 <= x < b_addr b + 8 + b_size b -> m' x = m x.

Lemma only_headers_data heapp lo hi bs b m m' :
  area_ok heapp lo hi -> tiles lo bs hi -> In b bs -> only_headers (headers heapp bs) m m' ->
  data_kept b m m'.
Proof. intros Ha Ht Hb Ho x Hx. apply Ho. intros y. by apply (block_data heapp lo hi bs b). Qed.

(** Writing the data of a live block leaves the heap. *)
Lemma chain_frame m m' : forall l q e,
  (forall x, In x (q :: map b_addr l) -> h_next m' x = h_next m x /\ h_size m' x = h_size m x) ->
  chain m q l e -> chain m' q l e.
Proof.
  induction l as [|b l IH]; intros q e H; cbn [chain].
  - by rewrite (proj1 (H q ltac:(by left))).
  - rewrite (proj1 (H q ltac:(by left))), (proj2 (H (b_addr b) ltac:(right; by left))).
    intros (H1 & H2 & H3). split; [done|split; [done|]]. apply IH; [|done]. intros x Hx. apply H. by right.
Qed.

Lemma heap_ok_data heapp lo hi m m' bs b :
  area_ok heapp lo hi -> heap_ok heapp lo hi m bs -> In b bs -> b_used b = true -> byte_mem m' ->
  same_outside (b_addr b + 8) (b_addr b + 8 + b_size b) m m' -> heap_ok heapp lo hi m' bs.
Proof.
  intros Ha [[Hby Ht Hc Hu Hh Hp] Hm] Hb Hub Hby' Hout.
  assert (Hw : forall x, In x (headers heapp bs) -> h_next m' x = h_next m x /\ h_size m' x = h_size m x).
  { intros x Hx.
    assert (Hd : forall j, 0 <= j < 8 -> x + j < b_addr b + 8 \/ b_addr b + 8 + b_size b <= x + j).
    { intros j Hj. destruct (Z.lt_ge_cases (x + j) (b_addr b + 8)); [by left|].
      destruct (Z.lt_ge_cases (x + j) (b_addr b + 8 + b_size b)); [|by right].
      destruct (block_data heapp lo hi bs b (x + j) x Ha Ht Hb ltac:(lia) Hx); lia. }
    split; apply get32_ext; intros k Hk; apply Hout; [apply Hd; lia|].
    rewrite <- Z.add_assoc. apply Hd. lia. }
  split; [|done]. constructor; [done|done| | | |].
  - apply (chain_frame m); [|done]. intros x [<-|(c & <- & [Hc' _]%frees_in)%in_map_iff]; apply Hw; [by left|].
    right. by apply in_map.
  - intros c Hcb Huc. destruct (Hw (b_addr c)) as [H1 H2]; [right; by apply in_map|].
    unfold h_heap, h_next in *. rewrite H1, H2. by apply Hu.
  - rewrite (proj2 (Hw (h_free heapp) ltac:(by left))). done.
  - rewrite <- Hp. apply get32_ext. intros k Hk. apply Hout.
    destruct (tiles_in lo bs hi b ltac:(apply Ha) Ht Hb). unfold area_ok in Ha. lia.
Qed.

Lemma call_ok dh heapp lo hi fuel c r bs p bs' :
  area_ok heapp lo hi -> heap_ok heapp lo hi (bytes r) bs -> hi - lo < 8 * Z.of_nat fuel ->
  spec_call c bs = Some (p, bs') ->
  exists m', run_call dh heapp fuel c r = Some (p, Ram m' (core r)) /\
    heap_ok heapp lo hi m' bs' /\
    forall b, In b bs -> b_used b = true -> touches b c = false -> In b bs' /\ data_kept b (bytes r) m'.
Proof.
  intros Ha Hok Hf. pose proof Hok as [Hr _]. pose proof Hr as [Hby Ht _ _ _ _].
  destruct c as [size|q|x v]; cbn [spec_call run_call touches].
  - intros E. pose proof (chHeapAlloc_ok dh heapp lo hi fuel size r bs Ha Hok Hf) as H.
    unfold malloc. destruct (spec_alloc _ bs) as [[p' bs1]|] eqn:Es; injection E as <- <-.
    + destruct H as (m' & -> & Hok' & Ho). exists m'. split; [done|]. split; [done|].
      intros b Hb Hu _. assert (Hb' := spec_alloc_used _ _ _ _ b Es Hb Hu). split; [done|].
      destruct Hok' as [[_ Ht' _ _ _ _] _]. by eapply only_headers_data.
    + rewrite H. exists (bytes r). destruct r. done.
  - unfold free. destruct (Z.eqb_spec q NULL) as [->|Hq]; cbn [negb].
    + intros [= <- <-]. exists (bytes r). destruct r. done.
    + destruct (existsb _ bs) eqn:E; [|done]. intros [= <- <-].
      apply existsb_exists in E as (b & Hb & [Hu Eq]%andb_true_iff).
      apply Z.eqb_eq in Eq. subst q.
      destruct (chHeapFree_ok heapp lo hi fuel r bs b Ha Hok Hf Hb Hu) as (m' & -> & Hok' & Ho).
      exists m'. split; [done|]. split; [done|]. intros c Hc Huc Hne. split.
      * apply spec_free_used; [done|done|lia].
      * by eapply only_headers_data.
  - destruct (existsb _ bs) eqn:E; [|done]. intros [= <- <-].
    apply existsb_exists in E as (b & Hb & Hx). unfold in_data in Hx.
    assert (Hu : b_used b = true) by (by destruct (b_used b)). rewrite Hu in Hx.
    eexists. split; [done|]. split.
    + apply (heap_ok_data heapp lo hi (bytes r) _ bs b Ha Hok Hb Hu).
      * intros y. unfold put8. destruct (_ =? _); [apply u8_range|apply Hby].
      * intros y Hy. unfold put8. destruct (Z.eqb_spec y x); [lia|done].
    + intros c Hc Huc Hn. split; [done|]. intros y Hy. unfold put8, in_data in *. rewrite Huc in Hn.
      destruct (Z.eqb_spec y x); [lia|done].
Qed.

Lemma calls_ok dh heapp lo hi fuel : area_ok heapp lo hi -> hi - lo < 8 * Z.of_nat fuel ->
  forall cs r bs ps bs', heap_ok heapp lo hi (bytes r) bs -> spec_calls cs bs = Some (ps, bs') ->
  exists m', run_calls dh heapp fuel cs r = Some (ps, Ram m' (core r)) /\
    heap_ok heapp lo hi m' bs' /\
    forall b, In b bs -> b_used b = true -> forallb (fun c => negb (touches b c)) cs = true ->
      In b bs' /\ data_kept b (bytes r) m'.
Proof.
  intros Ha Hf. induction cs as [|c cs IH]; intros r bs ps bs' Hok; cbn [spec_calls run_calls].
  - intros [= <- <-]. exists (bytes r). destruct r. done.
  - destruct (spec_call c bs) as [[p bs1]|] eqn:Ec; [|done].
    destruct (spec_calls cs bs1) as [[ps1 bs2]|] eqn:Ecs; [|done]. intros [= <- <-].
    destruct (call_ok dh heapp lo hi fuel c r bs p bs1 Ha Hok Hf Ec) as (m1 & -> & Hok1 & Hk1).
    destruct (IH (Ram m1 (core r)) bs1 ps1 bs2 Hok1 Ecs) as (m2 & -> & Hok2 & Hk2).
    exists m2. split; [done|]. split; [done|]. intros b Hb Hu [Hn1 Hn2]%andb_true_iff.
    destruct (Hk1 b Hb Hu) as [Hb1 Hd1]; [by apply negb_true_iff|].
    destruct (Hk2 b Hb1 Hu Hn2) as [Hb2 Hd2].
    split; [done|]. intros x Hx. rewrite Hd2 by done. by apply Hd1.
Qed.

Lemma init_ok heapp lo hi m : area_ok heapp lo hi -> byte_mem m ->
  heap_ok heapp lo hi (chHeapObjectInit heapp lo (hi - lo) m) [Blk lo (hi - lo - 8) false].
Proof.
  intros Ha Hm. unfold area_ok in Ha. split; [|done]. unfold chHeapObjectInit, sizeof_heap_header.
  rewrite (u32_id (hi - lo - 8)) by lia.
  set (hs := [h_free heapp; lo]).
  assert (Hap : forall x y, In x hs -> In y hs -> apart x y).
  { unfold hs, apart, h_free. intros x y [<-|[<-|[]]] [<-|[<-|[]]]; lia. }
  assert (H1 : In (h_free heapp) hs) by (by left). assert (H2 : In lo hs) by (right; by left).
  assert (H3 : is_u32 lo) by lia. assert (H4 : is_u32 NULL) by (unfold NULL; lia).
  assert (H5 : is_u32 0) by lia. assert (H6 : is_u32 (hi - lo - 8)) by lia.
  assert (H7 : (lo =? h_free heapp) = false) by (unfold h_free; lia).
  assert (Hp : h_provider (set_provider heapp NULL m) heapp = NULL) by (by apply get32_put32).
  assert (Hm' : byte_mem (set_provider heapp NULL m)) by (by apply put32_byte_mem).
  revert Hp Hm'. generalize (set_provider heapp NULL m). clear m Hm. intros m Hp Hm.
  constructor.
  - repeat apply put32_byte_mem. done.
  - cbn. split; [done|]. split; [lia|]. split; [Z.div_mod_to_equations; lia|lia].
  - cbn. header_words Hap. rewrite ?Z.eqb_refl, ?(Z.eqb_sym (h_free heapp) lo), ?H7. done.
  - intros b [<-|[]]. done.
  - header_words Hap. by rewrite ?Z.eqb_refl, ?(Z.eqb_sym (h_free heapp) lo), ?H7.
  - unfold h_provider, set_size, set_next. unfold h_free in *.
    by rewrite !get32_put32_ne by lia.
Qed.

(** ** Allocating and freeing, on the specification *)

Lemma taken_first b size : size <= b_size b -> b_size b mod 8 = 0 -> size mod 8 = 0 ->
  exists r, taken b size = Blk (b_addr b) size true :: r /\
    coalesce (Blk (b_addr b) size false :: r) = [Blk (b_addr b) (b_size b) false].
Proof.
  intros H1 H2 H3. unfold taken. destruct (b_size b <? size + 8) eqn:E.
  - assert (b_size b = size) as -> by (Z.div_mod_to_equations; lia). by exists [].
  - eexists. split; [done|]. cbn. do 2 f_equal. lia.
Qed.

Lemma coalesce_app_l l1 l2 : coalesce (coalesce l1 ++ l2) = coalesce (l1 ++ l2).
Proof.
  induction l1 as [|a l1 IH]; [done|].
  change (coalesce (a :: l1)) with (coalesce ([a] ++ l1)). cbn [app coalesce].
  rewrite <- IH. destruct (coalesce l1) as [|n r] eqn:E; [done|].
  destruct (negb (b_used a) && negb (b_used n)) eqn:Ef; [|done].
  apply andb_true_iff in Ef as [Ea En]. cbn [app coalesce b_used negb].
  destruct (coalesce (r ++ l2)) as [|k s].
  - by rewrite Ea, En.
  - rewrite En. cbn [negb andb]. destruct (negb (b_used k)) eqn:Ek; cbn [andb].
    + rewrite Ea. cbn. f_equal. f_equal. lia.
    + by rewrite Ea, En.
Qed.

Lemma spec_alloc_free heapp lo hi size bs p bs' :
  area_ok heapp lo hi -> tiles lo bs hi -> tiles lo bs' hi -> merged bs ->
  0 <= size -> size mod 8 = 0 -> spec_alloc size bs = Some (p, bs') -> spec_free p bs' = bs.
Proof.
  intros Ha Ht Ht' Hm Hs0 Hs (l1 & b & l2 & -> & Hb & Hsz & -> & ->)%spec_alloc_inv.
  assert (Hb8 : b_size b mod 8 = 0).
  { apply tiles_app in Ht as (mid & _ & H). apply H. }
  destruct (taken_first b size Hsz Hb8 Hs) as (r & E & Ec).
  rewrite E in *. unfold spec_free. replace (b_addr b + 8 - 8) with (b_addr b) by lia.
  cbn [app] in *. pose proof (release_app heapp lo hi l1 _ _ Ha Ht') as Hrel.
  cbn [b_addr b_size] in Hrel. rewrite Hrel.
  rewrite <- coalesce_app_r. change (Blk (b_addr b) size false :: r ++ l2) with ((Blk (b_addr b) size false :: r) ++ l2).
  rewrite <- (coalesce_app_l (Blk (b_addr b) size false :: r) l2), Ec, coalesce_app_r. cbn [app].
  replace (Blk (b_addr b) (b_size b) false) with b by (destruct b; cbn in *; by subst).
  by apply coalesce_id.
Qed.

(** ** The contract *)

(** An aligned size keeps its value when it is a multiple of eight, and the rounding of
    realloc is the rounding of the allocator. *)
Lemma realloc_size_align size : 0 <= size <= 4294967288 -> realloc_size size = MEM_ALIGN_NEXT size.
Proof.
  intros Hs. destruct (align_next_spec size) as (H1 & H2 & H3). specialize (H3 Hs).
  unfold realloc_size. destruct (size mod 8 =? 0) eqn:E; [Z.div_mod_to_equations; lia|].
  rewrite s32_id, u32_id by (Z.div_mod_to_equations; lia). Z.div_mod_to_equations. lia.
Qed.

(** The block an allocation makes: of the rounded size, and none of the blocks that
    were live. *)
Lemma alloc_fresh heapp lo hi size bs p bs' :
  area_ok heapp lo hi -> tiles lo bs hi -> tiles lo bs' hi -> spec_alloc (MEM_ALIGN_NEXT size) bs = Some (p, bs') ->
  In (Blk (p - 8) (MEM_ALIGN_NEXT size) true) bs' /\
  forall c, In c bs -> b_used c = true -> In c bs' /\ c <> Blk (p - 8) (MEM_ALIGN_NEXT size) true /\
    (b_addr c + 8 + b_size c <= p - 8 \/ p + MEM_ALIGN_NEXT size <= b_addr c).
Proof.
  intros Ha Ht Ht' E. destruct (align_next_spec size) as (Hs0 & Hs8 & _).
  assert (E0 := E). apply spec_alloc_inv in E as (l1 & b & l2 & -> & Hb & Hsz & -> & ->).
  set (sz := MEM_ALIGN_NEXT size) in *. replace (b_addr b + 8 - 8) with (b_addr b) by lia.
  assert (Hb8 : b_size b mod 8 = 0) by (apply tiles_app in Ht as (mid & _ & H); apply H).
  assert (Hin : In (Blk (b_addr b) sz true) (l1 ++ taken b sz ++ l2)).
  { destruct (taken_first b sz Hsz Hb8 Hs8) as (r & -> & _). rewrite !in_app_iff. cbn. auto. }
  split; [done|]. intros c Hc Hu. assert (Hc' := spec_alloc_used _ _ _ _ c E0 Hc Hu).
  assert (Hne : c <> Blk (b_addr b) sz true).
  { intros ->. destruct (tiles_split_order lo l1 b l2 hi ltac:(apply Ha) Ht) as [O1 O2].
    assert (Hbr := addr_range _ _ _ _ b Ha Ht ltac:(apply in_app_iff; cbn; auto)).
    rewrite in_app_iff in Hc. destruct Hc as [Hc|[E1|Hc]]; [|by rewrite E1 in Hb|].
    - specialize (O1 _ Hc). cbn in O1. lia.
    - specialize (O2 _ Hc). cbn in O2. lia. }
  split; [done|split; [done|]].
  destruct (tiles_disjoint lo _ hi c _ ltac:(apply Ha) Ht' Hc' Hin) as [?|H]; [done|]. cbn in H. lia.
Qed.

Lemma copy_bytes_byte_mem n : forall d s m, byte_mem m -> byte_mem (copy_bytes n d s m).
Proof.
  induction n as [|n IH]; intros d s m Hm; cbn; [done|]. apply IH. intros x. unfold put8.
  destruct (_ =? _); apply Hm.
Qed.

Lemma realloc_ok dh heapp lo hi fuel size r bs b :
  area_ok heapp lo hi -> heap_ok heapp lo hi (bytes r) bs -> hi - lo < 8 * Z.of_nat fuel ->
  In b bs -> b_used b = true -> 0 <= size <= 4294967288 ->
  let addr := b_addr b + 8 in
  if MEM_ALIGN_NEXT size <=? b_size b then realloc dh heapp fuel addr size r = Some (addr, r)
  else
    match spec_alloc (MEM_ALIGN_NEXT size) bs with
    | None => realloc dh heapp fuel addr size r = Some (NULL, r)
    | Some (p, bs1) =>
        exists m', realloc dh heapp fuel addr size r = Some (p, Ram m' (core r)) /\
          heap_ok heapp lo hi m' (spec_free addr bs1) /\
          In (Blk (p - 8) (MEM_ALIGN_NEXT size) true) (spec_free addr bs1) /\
          (forall i, 0 <= i < b_size b -> m' (p + i) = bytes r (addr + i)) /\
          (forall c, In c bs -> b_used c = true -> c <> b ->
             In c (spec_free addr bs1) /\ data_kept c (bytes r) m')
    end.
Proof.
  intros Ha Hok Hf Hb Hu Hs addr. pose proof Hok as [[Hby Ht _ Hus _ _] _].
  destruct (addr_range _ _ _ _ b Ha Ht Hb) as (Hb1 & Hb2 & Hb3).
  unfold realloc. rewrite realloc_size_align by done. unfold addr, sizeof_heap_header.
  replace (b_addr b + 8 =? NULL) with false by (unfold NULL; lia).
  replace (b_addr b + 8 - 8) with (b_addr b) by lia. rewrite (proj2 (Hus b Hb Hu)).
  destruct (MEM_ALIGN_NEXT size <=? b_size b) eqn:Efit; [done|].
  pose proof (chHeapAlloc_ok dh heapp lo hi fuel size r bs Ha Hok Hf) as Halloc.
  destruct (spec_alloc (MEM_ALIGN_NEXT size) bs) as [[p bs1]|] eqn:Es; [|by rewrite Halloc].
  destruct Halloc as (m1 & -> & Hok1 & Ho1). pose proof Hok1 as [[Hby1 Ht1 _ _ _ _] _].
  destruct (alloc_fresh heapp lo hi size bs p bs1 Ha Ht Ht1 Es) as [Hnew Hold].
  set (nb := Blk (p - 8) (MEM_ALIGN_NEXT size) true) in *.
  destruct (addr_range _ _ _ _ nb Ha Ht1 Hnew) as (Hn1 & Hn2 & _). cbn in Hn1, Hn2.
  replace (p =? NULL) with false by (unfold NULL; lia). cbn [bytes core].
  destruct (Hold b Hb Hu) as (Hb' & Hbn & Hsep).
  destruct (memcpy_exact p (b_addr b + 8) (b_size b) m1 Hb2 ltac:(lia)) as [Hcopy Hout].
  set (m2 := memcpy p (b_addr b + 8) (b_size b) m1) in *.
  assert (Hok2 : heap_ok heapp lo hi m2 bs1).
  { apply (heap_ok_data heapp lo hi m1 m2 bs1 nb); [done|done|done|done|by apply copy_bytes_byte_mem|].
    apply same_outside_weaken with p (p + b_size b); [done|cbn; lia..]. }
  pose proof Hok2 as [[_ Ht2 _ _ _ _] _].
  destruct (chHeapFree_ok heapp lo hi fuel (Ram m2 (core r)) bs1 b Ha Hok2 Hf Hb' Hu) as (m3 & -> & Hok3 & Ho3).
  cbn [bytes core] in *. exists m3. split; [done|]. split; [done|].
  split; [apply spec_free_used; [done|done|cbn; lia]|]. split.
  - intros i Hi. rewrite (only_headers_data heapp lo hi bs1 nb m2 m3 Ha Ht2 Hnew Ho3) by (cbn; lia).
    rewrite Hcopy by done. by apply (only_headers_data heapp lo hi bs1 b (bytes r) m1 Ha Ht1 Hb' Ho1); lia.
  - intros c Hc Huc Hcb. destruct (Hold c Hc Huc) as (Hc' & Hcn & Hcs).
    assert (Hne : b_addr c <> b_addr b).
    { destruct (addr_range _ _ _ _ c Ha Ht Hc).
      destruct (tiles_disjoint lo bs hi c b ltac:(apply Ha) Ht Hc Hb) as [?|?]; [done|lia]. }
    split; [apply spec_free_used; [done|done|lia]|]. intros x Hx.
    rewrite (only_headers_data heapp lo hi bs1 c m2 m3 Ha Ht2 Hc' Ho3) by done.
    rewrite Hout by lia. by apply (only_headers_data heapp lo hi bs1 c (bytes r) m1 Ha Ht1 Hc' Ho1).
Qed.

(** ** The properties *)

(** A heap of 256 bytes for the examples, and the heap after one allocation. *)
Definition demo_ram : ram := Ram (chHeapObjectInit 64 256 256 (fun _ => 0)) (Memcore 0 0).

Lemma demo_area : area_ok 64 256 512.
Proof. unfold area_ok. Z.div_mod_to_equations. lia. Qed.
Lemma zero_byte_mem : byte_mem (fun _ => 0).
Proof. intros a. split; [done|reflexivity]. Qed.
Lemma demo_ok : heap_ok 64 256 512 (bytes demo_ram) [Blk 256 248 false].
Proof. exact (init_ok 64 256 512 (fun _ => 0) demo_area zero_byte_mem). Qed.
Lemma demo_live : exists r, heap_ok 64 256 512 (bytes r) [Blk 256 24 true; Blk 288 216 false].
Proof.
  destruct (call_ok 32 64 256 512 40 (Malloc 20) demo_ram _ _ _ demo_area demo_ok ltac:(lia) eq_refl)
    as (m & _ & H & _). by exists (Ram m (Memcore 0 0)).
Qed.

(** C29. The heap refines its specification.  From a heap made by chHeapObjectInit, every
    sequence of malloc, free and writes into live blocks whose specification runs makes
    the code return (with enough fuel: eight bytes of heap per step of its loops) the
    same pointers, and leaves a memory that represents the same blocks: they tile the
    heap area without overlap or loss, no two free blocks are adjacent, and the free
    list links exactly the free ones.  A block that is neither freed nor written keeps
    its data. *)
Theorem heap_refines dh heapp lo hi fuel m core cs1 ps1 bs1 cs2 ps2 bs2 :
  area_ok heapp lo hi -> byte_mem m -> hi - lo < 8 * Z.of_nat fuel ->
  spec_calls cs1 [Blk lo (hi - lo - 8) false] = Some (ps1, bs1) ->
  spec_calls cs2 bs1 = Some (ps2, bs2) ->
  exists m1 m2,
    run_calls dh heapp fuel cs1 (Ram (chHeapObjectInit heapp lo (hi - lo) m) core) = Some (ps1, Ram m1 core) /\
    run_calls dh heapp fuel cs2 (Ram m1 core) = Some (ps2, Ram m2 core) /\
    heap_ok heapp lo hi m1 bs1 /\ heap_ok heapp lo hi m2 bs2 /\
    forall b, In b bs1 -> b_used b = true -> forallb (fun c => negb (touches b c)) cs2 = true ->
      In b bs2 /\ data_kept b m1 m2.
Proof.
  intros Ha Hm Hf E1 E2. pose proof (init_ok heapp lo hi m Ha Hm) as Hok0.
  destruct (calls_ok dh heapp lo hi fuel Ha Hf cs1 (Ram _ core) _ _ _ Hok0 E1) as (m1 & R1 & Hok1 & _).
  destruct (calls_ok dh heapp lo hi fuel Ha Hf cs2 (Ram m1 core) _ _ _ Hok1 E2) as (m2 & R2 & Hok2 & Hd).
  exists m1, m2. split; [exact R1|split; [exact R2|done]].
Qed.

Lemma heap_refines_witness :
  exists m1 m2,
    run_calls 32 64 40 [Malloc 20; Malloc 5; Write 297 7] demo_ram = Some ([264; 296; 0], Ram m1 (Memcore 0 0)) /\
    run_calls 32 64 40 [Free 264; Malloc 300; Malloc 9] (Ram m1 (Memcore 0 0)) = Some ([0; 0; 264], Ram m2 (Memcore 0 0)) /\
    data_kept (Blk 288 8 true) m1 m2.
Proof.
  destruct (heap_refines 32 64 256 512 40 (fun _ => 0) (Memcore 0 0)
    [Malloc 20; Malloc 5; Write 297 7] [264; 296; 0]
    [Blk 256 24 true; Blk 288 8 true; Blk 304 200 false]
    [Free 264; Malloc 300; Malloc 9] [0; 0; 264]
    [Blk 256 16 true; Blk 280 0 false; Blk 288 8 true; Blk 304 200 false])
    as (m1 & m2 & H1 & H2 & _ & _ & H3).
  - apply demo_area.
  - apply zero_byte_mem.
  - lia.
  - reflexivity.
  - reflexivity.
  - exists m1, m2. split; [exact H1|split; [exact H2|]]. apply H3; [right; by left|done|done].
Defined.

(** A successful malloc hands out fresh memory: at least as many bytes as asked for,
    8-aligned, inside of the heap area, disjoint from every live block and its header;
    and it changes no byte of a live block.  A failing one returns NULL and changes
    nothing. *)
Theorem malloc_fresh dh heapp lo hi fuel size r bs :
  area_ok heapp lo hi -> heap_ok heapp lo hi (bytes r) bs -> hi - lo < 8 * Z.of_nat fuel ->
  0 <= size <= 4294967288 ->
  malloc dh heapp fuel size r = Some (NULL, r) \/
  exists p m', malloc dh heapp fuel size r = Some (p, Ram m' (core r)) /\
    p mod 8 = 0 /\ lo + 8 <= p /\ p + size <= hi /\
    forall c, In c bs -> b_used c = true ->
      data_kept c (bytes r) m' /\ (b_addr c + 8 + b_size c <= p - 8 \/ p + size <= b_addr c).
Proof.
  intros Ha Hok Hf Hs. pose proof (chHeapAlloc_ok dh heapp lo hi fuel size r bs Ha Hok Hf) as H.
  pose proof Hok as [[_ Ht _ _ _ _] _]. unfold malloc.
  destruct (spec_alloc (MEM_ALIGN_NEXT size) bs) as [[p bs1]|] eqn:Es; [right|by left].
  destruct H as (m' & H1 & [[_ Ht1 _ _ _ _] _] & H3). exists p, m'. split; [done|].
  destruct (alloc_fresh heapp lo hi size bs p bs1 Ha Ht Ht1 Es) as [Hn Hold].
  destruct (align_next_spec size) as (_ & _ & Hle). specialize (Hle Hs).
  destruct (tiles_in lo bs1 hi _ ltac:(apply Ha) Ht1 Hn) as (T1 & T2 & _ & T3). cbn in T1, T2, T3.
  split; [Z.div_mod_to_equations; lia|]. split; [lia|]. split; [lia|]. intros c Hc Hu.
  destruct (Hold c Hc Hu) as (Hc' & _ & Hsep). split; [|lia].
  by apply (only_headers_data heapp lo hi bs1).
Qed.

Lemma malloc_fresh_witness :
  malloc 32 64 40 20 demo_ram = Some (NULL, demo_ram) \/
  exists p m', malloc 32 64 40 20 demo_ram = Some (p, Ram m' (core demo_ram)) /\
    p mod 8 = 0 /\ 264 <= p /\ p + 20 <= 512 /\
    forall c, In c [Blk 256 248 false] -> b_used c = true ->
      data_kept c (bytes demo_ram) m' /\ (b_addr c + 8 + b_size c <= p - 8 \/ p + 20 <= b_addr c).
Proof.
  apply (malloc_fresh 32 64 256 512 40 20 demo_ram [Blk 256 248 false]).
  - apply demo_area.
  - apply demo_ok.
  - lia.
  - lia.
Defined.

(** Freeing what was just allocated restores the heap: the blocks are again those of
    before, whatever the splitting and the merging did in between. *)
Theorem malloc_free_restores dh heapp lo hi fuel size r bs p r1 :
  area_ok heapp lo hi -> heap_ok heapp lo hi (bytes r) bs -> hi - lo < 8 * Z.of_nat fuel ->
  malloc dh heapp fuel size r = Some (p, r1) -> p <> NULL ->
  exists m', free fuel p r1 = Some (Ram m' (core r)) /\ heap_ok heapp lo hi m' bs.
Proof.
  intros Ha Hok Hf Em Hp. pose proof (chHeapAlloc_ok dh heapp lo hi fuel size r bs Ha Hok Hf) as H.
  pose proof Hok as [[_ Ht _ _ _ _] Hm]. unfold malloc in Em.
  destruct (spec_alloc (MEM_ALIGN_NEXT size) bs) as [[p' bs1]|] eqn:Es; [|congruence].
  destruct H as (m1 & H1 & Hok1 & _). rewrite Em in H1. injection H1 as -> ->.
  pose proof Hok1 as [[_ Ht1 _ _ _ _] _].
  destruct (alloc_fresh heapp lo hi size bs p' bs1 Ha Ht Ht1 Es) as [Hn _].
  destruct (chHeapFree_ok heapp lo hi fuel (Ram m1 (core r)) bs1 _ Ha Hok1 Hf Hn eq_refl) as (m2 & H2 & Hok2 & _).
  cbn [b_addr] in H2, Hok2. replace (p' - 8 + 8) with p' in H2, Hok2 by lia.
  exists m2. unfold free. rewrite (proj2 (Z.eqb_neq p' NULL)) by done. split; [exact H2|].
  destruct (align_next_spec size) as (A1 & A2 & _).
  assert (E : spec_free p' bs1 = bs)
    by (apply (spec_alloc_free heapp lo hi (MEM_ALIGN_NEXT size)); [done..|lia|done|done]).
  by rewrite E in Hok2.
Qed.

Lemma malloc_free_restores_witness :
  exists r1 m', malloc 32 64 40 20 demo_ram = Some (264, r1) /\
    free 40 264 r1 = Some (Ram m' (core demo_ram)) /\ heap_ok 64 256 512 m' [Blk 256 248 false].
Proof.
  pose proof (chHeapAlloc_ok 32 64 256 512 40 20 demo_ram _ demo_area demo_ok ltac:(lia)) as H.
  destruct H as (m1 & H & _).
  destruct (malloc_free_restores 32 64 256 512 40 20 demo_ram [Blk 256 248 false] 264
              (Ram m1 (core demo_ram)) demo_area demo_ok ltac:(lia) H ltac:(done)) as (m' & H1 & H2).
  by exists (Ram m1 (core demo_ram)), m'.
Defined.

(** realloc of a live block keeps its contents: it returns the block itself when it
    is large enough, NULL with the heap unchanged when there is no room, and otherwise a
    block of the new size that starts with the bytes of the old one, which is freed,
    while the other live blocks keep their data. *)
Theorem realloc_keeps dh heapp lo hi fuel size r bs b :
  area_ok heapp lo hi -> heap_ok heapp lo hi (bytes r) bs -> hi - lo < 8 * Z.of_nat fuel ->
  In b bs -> b_used b = true -> 0 <= size <= 4294967288 ->
  let addr := b_addr b + 8 in
  if MEM_ALIGN_NEXT size <=? b_size b then realloc dh heapp fuel addr size r = Some (addr, r)
  else
    match spec_alloc (MEM_ALIGN_NEXT size) bs with
    | None => realloc dh heapp fuel addr size r = Some (NULL, r)
    | Some (p, bs1) =>
        exists m', realloc dh heapp fuel addr size r = Some (p, Ram m' (core r)) /\
          heap_ok heapp lo hi m' (spec_free addr bs1) /\
          In (Blk (p - 8) (MEM_ALIGN_NEXT size) true) (spec_free addr bs1) /\
          (forall i, 0 <= i < b_size b -> m' (p + i) = bytes r (addr + i)) /\
          (forall c, In c bs -> b_used c = true -> c <> b ->
             In c (spec_free addr bs1) /\ data_kept c (bytes r) m')
    end.
Proof. apply realloc_ok. Qed.

Lemma realloc_keeps_witness :
  exists r m', realloc 32 64 40 264 100 r = Some (296, Ram m' (core r)) /\
    forall i, 0 <= i < 24 -> m' (296 + i) = bytes r (264 + i).
Proof.
  destruct demo_live as (r & Hr).
  pose proof (realloc_keeps 32 64 256 512 40 100 r _ (Blk 256 24 true) demo_area Hr ltac:(lia)
                ltac:(by left) eq_refl ltac:(lia)) as H.
  destruct H as (m' & H1 & _ & _ & H2 & _). by exists r, m'.
Defined.

(** The size is rounded up without a check: a request within 7 bytes of 2^32 becomes
    a request for nothing, so that malloc succeeds, whenever there is a free block, with
    a block that has no room for any data. *)
Theorem malloc_wraps dh heapp lo hi fuel size r bs l1 b l2 :
  area_ok heapp lo hi -> heap_ok heapp lo hi (bytes r) bs -> hi - lo < 8 * Z.of_nat fuel ->
  4294967288 < size < 4294967296 -> bs = l1 ++ b :: l2 -> b_used b = false -> frees l1 = [] ->
  exists m', malloc dh heapp fuel size r = Some (b_addr b + 8, Ram m' (core r)) /\
    h_size m' (b_addr b) = 0.
Proof.
  intros Ha Hok Hf Hs -> Hb Hl1.
  pose proof (chHeapAlloc_ok dh heapp lo hi fuel size r _ Ha Hok Hf) as H.
  pose proof Hok as [[_ Ht _ _ _ _] _].
  destruct (tiles_in lo _ hi b ltac:(apply Ha) Ht) as (_ & _ & Hb0 & _); [apply in_app_iff; cbn; auto|].
  assert (E : MEM_ALIGN_NEXT size = 0).
  { unfold MEM_ALIGN_NEXT, MEM_ALIGN_PREV, MEM_ALIGN_MASK, MEM_ALIGN_SIZE. change (8 - 1) with (Z.ones 3).
    rewrite Z.ldiff_ones_r by lia. rewrite Z.shiftr_div_pow2, Z.shiftl_mul_pow2 by lia.
    change (2 ^ 3) with 8. change (Z.ones 3) with 7. wrap_lia. }
  rewrite E in H. rewrite spec_alloc_app in H; [|by rewrite Hl1; intros c []|done|lia].
  destruct H as (m' & H1 & [[_ _ _ Hu _ _] _] & _). exists m'. split; [exact H1|].
  fold (taken b 0) in Hu.
  destruct (taken_first b 0) as (rest & Et & _); [lia|apply tiles_app in Ht as (mid & _ & Ht2); apply Ht2|done|].
  destruct (Hu (Blk (b_addr b) 0 true)) as [_ Hz]; [|done|exact Hz].
  rewrite Et, !in_app_iff. cbn. auto.
Qed.

Lemma malloc_wraps_witness :
  exists m', malloc 32 64 40 4294967290 demo_ram = Some (264, Ram m' (core demo_ram)) /\ h_size m' 256 = 0.
Proof.
  apply (malloc_wraps 32 64 256 512 40 4294967290 demo_ram _ [] (Blk 256 248 false) [] demo_area demo_ok);
    (lia || done).
Defined.
