(* ===== verification/Streams.v ===== *)
(** Output streams (os/hal/include/hal_streams.h) and streams on a memory buffer
    (os/hal/lib/streams/memstreams.c).

    The methods table of a BaseSequentialStream is the class [Stream]; the function that
    prints is proved against the class, a [MemoryStream] with the memory it writes is its
    instance.  Proved: what is written to a memory stream and does not fit is cut off,
    nothing outside of the buffer changes, and what was written is read back. *)
From S2P Require Import Prelude Aeabi.
Local Open Scope Z_scope.

(** ** The stream interface *)

Definition STM_OK : Z := 0.
Definition STM_RESET : Z := -2.

(** The part of the methods table the formatted output uses. *)
Class Stream (S : Type) : Type := stream_put : S -> Z -> Z * S.

(** [streamPut (chp, (uint8_t)c)], the status dropped. *)
Definition streamPut {S} `{Stream S} (st : S) (c : Z) : S := snd (stream_put st (u8 c)).

Definition put_all {S} `{Stream S} (st : S) (l : list Z) : S := fold_left streamPut l st.

Lemma put_all_app {S} `{Stream S} (st : S) l1 l2 : put_all st (l1 ++ l2) = put_all (put_all st l1) l2.
Proof. apply fold_left_app. Qed.

(** ** memstreams.c *)

Record MemoryStream : Type := MkMemoryStream {
  ms_buffer : Z;
  ms_size : Z;
  ms_eos : Z;
  ms_offset : Z
}.

Definition set_eos (v : Z) (ms : MemoryStream) : MemoryStream :=
  MkMemoryStream (ms_buffer ms) (ms_size ms) v (ms_offset ms).
Definition set_offset (v : Z) (ms : MemoryStream) : MemoryStream :=
  MkMemoryStream (ms_buffer ms) (ms_size ms) (ms_eos ms) v.

Definition msObjectInit (buffer size eos : Z) : MemoryStream := MkMemoryStream buffer size eos 0.

(** The sizes are [size_t], of 32 bits. *)
Definition writes (ms : MemoryStream) (m : mem) (bp n : Z) : Z * MemoryStream * mem :=
  let n := if u32 (ms_size ms - ms_eos ms) <? n then u32 (ms_size ms - ms_eos ms) else n in
  let m := memcpy (ms_buffer ms + ms_eos ms) bp n m in
  (n, set_eos (u32 (ms_eos ms + n)) ms, m).

Definition reads (ms : MemoryStream) (m : mem) (bp n : Z) : Z * MemoryStream * mem :=
  let n := if u32 (ms_eos ms - ms_offset ms) <? n then u32 (ms_eos ms - ms_offset ms) else n in
  let m := memcpy bp (ms_buffer ms + ms_offset ms) n m in
  (n, set_offset (u32 (ms_offset ms + n)) ms, m).

Definition put (ms : MemoryStream) (m : mem) (b : Z) : Z * (MemoryStream * mem) :=
  if u32 (ms_size ms - ms_eos ms) <=? 0 then (STM_RESET, (ms, m))
  else
    let m := put8 m (ms_buffer ms + ms_eos ms) b in
    (STM_OK, (set_eos (u32 (ms_eos ms + 1)) ms, m)).

Definition get (ms : MemoryStream) (m : mem) : Z * MemoryStream :=
  if u32 (ms_eos ms - ms_offset ms) <=? 0 then (STM_RESET, ms)
  else
    let b := m (ms_buffer ms + ms_offset ms) in
    (b, set_offset (u32 (ms_offset ms + 1)) ms).

#[export] Instance memory_stream : Stream (MemoryStream * mem) := fun st b => put (fst st) (snd st) b.

(** ** Lemmas *)

(** A stream of which the offsets are in range. *)
Definition ms_ok (ms : MemoryStream) : Prop :=
  0 <= ms_offset ms <= ms_eos ms /\ ms_eos ms <= ms_size ms < 2 ^ 32.

(** The bytes [l] are stored from [a] on. *)
Definition stored (m : mem) (a : Z) (l : list Z) : Prop :=
  forall i c, l !! i = Some c -> m (a + Z.of_nat i) = c.

Lemma stored_nil m a : stored m a [].
Proof. by intros i c. Qed.

Lemma stored_cons m a c l : stored m a (c :: l) <-> m a = c /\ stored m (a + 1) l.
Proof.
  split.
  - intros H. split; [specialize (H 0%nat c eq_refl); by rewrite Z.add_0_r in H|].
    intros i d Hi. rewrite <- (H (S i) d Hi). f_equal. lia.
  - intros [Hc H] [|i] d Hi; cbn in Hi; [injection Hi as <-; by rewrite Z.add_0_r|].
    rewrite <- (H i d Hi). f_equal. lia.
Qed.

Lemma stored_app m a l1 l2 : stored m a (l1 ++ l2) <-> stored m a l1 /\ stored m (a + Z.of_nat (length l1)) l2.
Proof.
  revert a. induction l1 as [|c l1 IH]; intros a; cbn [app length].
  - rewrite Z.add_0_r. split; [intros H; split; [apply stored_nil|done]|by intros [_ H]].
  - rewrite !stored_cons, IH. replace (a + Z.of_nat (S (length l1))) with (a + 1 + Z.of_nat (length l1)) by lia.
    tauto.
Qed.

Lemma stored_ext m m' a l : stored m a l -> (forall i, 0 <= i < Z.of_nat (length l) -> m' (a + i) = m (a + i)) ->
  stored m' a l.
Proof.
  intros H He i c Hi. rewrite He; [by apply H|]. apply lookup_lt_Some in Hi. lia.
Qed.

(** One byte. *)
Lemma put_spec ms m b : ms_ok ms ->
  put ms m b =
  if ms_eos ms <? ms_size ms
  then (STM_OK, (set_eos (ms_eos ms + 1) ms, put8 m (ms_buffer ms + ms_eos ms) b))
  else (STM_RESET, (ms, m)).
Proof.
  intros [H1 H2]. unfold put. change (2 ^ 32) with 4294967296 in H2.
  rewrite u32_id by lia. destruct (Z.ltb_spec (ms_eos ms) (ms_size ms)).
  - replace (ms_size ms - ms_eos ms <=? 0) with false by lia. by rewrite u32_id by lia.
  - by replace (ms_size ms - ms_eos ms <=? 0) with true by lia.
Qed.

Lemma put_all_cons {S} `{Stream S} (st : S) c l : put_all st (c :: l) = put_all (streamPut st c) l.
Proof. done. Qed.

Lemma streamPut_memory ms m c : ms_ok ms -> is_u8 c ->
  streamPut (ms, m) c =
  if ms_eos ms <? ms_size ms
  then (set_eos (ms_eos ms + 1) ms, put8 m (ms_buffer ms + ms_eos ms) c) else (ms, m).
Proof.
  intros Hok Hc. unfold streamPut, stream_put, memory_stream. cbn [fst snd].
  rewrite (u8_id c), put_spec by done. by case_match.
Qed.

(** Any number of bytes: those that fit are stored, and nothing else changes. *)
Lemma put_all_spec l : forall ms m, ms_ok ms -> Forall (fun c => is_u8 c) l ->
  let l' := take (Z.to_nat (ms_size ms - ms_eos ms)) l in
  exists m', put_all (ms, m) l = (set_eos (ms_eos ms + Z.of_nat (length l')) ms, m') /\
    stored m' (ms_buffer ms + ms_eos ms) l' /\
    same_outside (ms_buffer ms + ms_eos ms) (ms_buffer ms + ms_eos ms + Z.of_nat (length l')) m m'.
Proof.
  induction l as [|c l IH]; intros ms m Hok Hb.
  - exists m. rewrite take_nil. cbn [length]. rewrite Z.add_0_r. split; [by destruct ms|].
    split; [apply stored_nil|by intros ? _].
  - apply list.Forall_cons in Hb as [Hc Hb]. rewrite put_all_cons, streamPut_memory by done.
    pose proof Hok as [H1 H2]. destruct (Z.ltb_spec (ms_eos ms) (ms_size ms)) as [Hlt|Hge].
    + destruct (IH (set_eos (ms_eos ms + 1) ms) (put8 m (ms_buffer ms + ms_eos ms) c)) as (m' & E & Hs & Ho);
        [unfold ms_ok; cbn; lia|done|].
      cbn [set_eos ms_buffer ms_size ms_eos ms_offset] in *. exists m'. rewrite E.
      replace (Z.to_nat (ms_size ms - ms_eos ms)) with (S (Z.to_nat (ms_size ms - (ms_eos ms + 1)))) by lia.
      cbn [take length]. set (l' := take _ l) in *.
      split; [unfold set_eos; cbn; do 2 f_equal; lia|]. rewrite Z.add_assoc in *. split.
      * apply stored_cons. split; [|done]. rewrite Ho by lia. unfold put8. by rewrite Z.eqb_refl.
      * intros x Hx. rewrite Ho by lia. unfold put8. by replace (x =? ms_buffer ms + ms_eos ms) with false by lia.
    + destruct (IH ms m Hok Hb) as (m' & E & Hs & Ho).
      replace (Z.to_nat (ms_size ms - ms_eos ms)) with 0%nat in * by lia. by exists m'.
Qed.

(** A block that was written is read back. *)
Lemma writes_spec ms m bp n : ms_ok ms -> 0 <= n < 2 ^ 32 ->
  (bp + n <= ms_buffer ms \/ ms_buffer ms + ms_size ms <= bp) ->
  let k := Z.min n (ms_size ms - ms_eos ms) in
  exists m', writes ms m bp n = (k, set_eos (ms_eos ms + k) ms, m') /\
    (forall i, 0 <= i < k -> m' (ms_buffer ms + ms_eos ms + i) = m (bp + i)) /\
    same_outside (ms_buffer ms + ms_eos ms) (ms_buffer ms + ms_eos ms + k) m m'.
Proof.
  intros [H1 H2] Hn Hd k. change (2 ^ 32) with 4294967296 in *. unfold writes.
  rewrite (u32_id (ms_size ms - ms_eos ms)) by lia.
  replace (if _ <? n then _ else n) with k by (unfold k; case_match; lia).
  rewrite u32_id by lia. eexists. split; [done|].
  destruct (memcpy_exact (ms_buffer ms + ms_eos ms) bp k m) as [E Ho]; [lia..|]. by split.
Qed.

Lemma reads_spec ms m bp n : ms_ok ms -> 0 <= n < 2 ^ 32 ->
  (bp + n <= ms_buffer ms \/ ms_buffer ms + ms_size ms <= bp) ->
  let k := Z.min n (ms_eos ms - ms_offset ms) in
  exists m', reads ms m bp n = (k, set_offset (ms_offset ms + k) ms, m') /\
    (forall i, 0 <= i < k -> m' (bp + i) = m (ms_buffer ms + ms_offset ms + i)) /\
    same_outside bp (bp + k) m m'.
Proof.
  intros [H1 H2] Hn Hd k. change (2 ^ 32) with 4294967296 in *. unfold reads.
  rewrite (u32_id (ms_eos ms - ms_offset ms)) by lia.
  replace (if _ <? n then _ else n) with k by (unfold k; case_match; lia).
  rewrite u32_id by lia. eexists. split; [done|].
  destruct (memcpy_exact bp (ms_buffer ms + ms_offset ms) k m) as [E Ho]; [lia..|]. by split.
Qed.
