(* ===== verification/Printf.v ===== *)
(** Formatted output (os/hal/lib/streams/chprintf.c), the functions of orchard/printf.c
    that call it, and the number conversions of orchard/__aeabi.c.

    [chvprintf] reads the format, the arguments and the strings they point to from a
    memory; the arguments are the words from the address [ap] on, as va_arg reads them on
    this processor, where int, long and pointers are words.  Its output goes to a
    [Stream].  The conversion of a float (qfp_float2str) and the alignment of [ap] for a
    double are assembly and parameters.  The local array [tmpbuf] is a list; a store
    outside of it is [None].

    Proved: every well-formed format is printed as its description says, whatever its
    length, and the count is returned; numbers are read back by simple_strtoul;
    chsnprintf stays in its buffer and terminates the string; a buffer of 11 characters
    is necessary and enough for itoa, and in base 2 no buffer is; a format that ends in
    a percent sign prints the memory behind it. *)
From S2P Require Import Prelude Aeabi Streams.
Local Open Scope Z_scope.

(** ** Numbers *)

Definition MAX_FILLER : Z := 11.

(** [do ... while ((ll /= radix) != 0)] on the array [b], which [*--q] fills downwards;
    returns [q].  The divisions are unsigned, since [radix] is. *)
Fixpoint digits_loop (fuel : nat) (radix l ll q : Z) (b : list Z) : option (Z * list Z) :=
  match fuel with
  | O => None
  | S fuel =>
      let i := u32 l mod radix in
      let i := i + chr_0 in
      let i := if chr_9 <? i then i + (chr_A - chr_0 - 10) else i in
      match store b (q - 1) (u8 i) with
      | None => None
      | Some b =>
          let l := s32 (u32 l / radix) in
          let ll := s32 (u32 ll / radix) in
          if ll =? 0 then Some (q - 1, b) else digits_loop fuel radix l ll (q - 1) b
      end
  end.

(** [do *p++ = *q++; while (--i);] *)
Fixpoint copy_up (i : nat) (p q : Z) (b : list Z) : option (Z * list Z) :=
  match load b q with
  | None => None
  | Some c =>
      match store b p c with
      | None => None
      | Some b =>
          match i with
          | O | 1%nat => Some (p + 1, b)
          | S i => copy_up i (p + 1) (q + 1) b
          end
      end
  end.

(** 32 digits are the most a word has. *)
Definition long_to_string_with_divisor (b : list Z) (p num radix divisor : Z) : option (Z * list Z) :=
  if radix =? 0 then None
  else
    let l := num in
    let ll := if divisor =? 0 then num else divisor in
    match digits_loop 32 radix l ll (p + MAX_FILLER) b with
    | None => None
    | Some (q, b) => copy_up (Z.to_nat (p + MAX_FILLER - q)) p q b
    end.

Definition ch_ltoa (b : list Z) (p num radix : Z) : option (Z * list Z) :=
  long_to_string_with_divisor b p num radix 0.

Definition itoa (b : list Z) (s val radix : Z) : option (Z * list Z) := ch_ltoa b s val radix.
Definition ltoa (b : list Z) (s val radix : Z) : option (Z * list Z) := ch_ltoa b s val radix.
Definition ultoa (b : list Z) (s val radix : Z) : option (Z * list Z) := ch_ltoa b s val radix.
Definition utoa (b : list Z) (s val radix : Z) : option (Z * list Z) := ch_ltoa b s val radix.

Section Printf.
Context (qfp_float2str : Z -> Z -> list Z) (va_arg_align_if_necessary : Z -> Z).

(** ** Floats *)

(** The comparison with zero and the negation of a float, on its bits. *)
Definition float_is_nan (f : Z) : bool := 0x7F800000 <? Z.land f 0x7FFFFFFF.
Definition float_negative (f : Z) : bool :=
  (0x80000000 <? f) && negb (float_is_nan f).
Definition float_neg (f : Z) : Z := Z.lxor f 0x80000000.

Definition FIXED_POINT_OUTPUT : Z := Z.shiftl 1 29.
Definition float_fmt (precision : Z) : Z :=
  Z.lor (Z.lor (Z.lor (Z.shiftl (Z.land 4 0xFF) 8) (Z.shiftl (Z.land 6 0xFF) 16)) FIXED_POINT_OUTPUT)
    (Z.land precision 0xFF).

Fixpoint store_all (b : list Z) (p : Z) (l : list Z) : option (Z * list Z) :=
  match l with
  | [] => Some (p, b)
  | c :: l => match store b p c with None => None | Some b => store_all b (p + 1) l end
  end.

Definition ftoa (b : list Z) (p f precision : Z) : option (Z * list Z) :=
  store_all b p (qfp_float2str f (float_fmt (u32 precision))).

(** ** chvprintf *)

Definition chr_percent : Z := 37.
Definition chr_star : Z := 42.
Definition chr_dot : Z := 46.
Definition chr_space : Z := 32.
Definition chr_L : Z := 76.
Definition chr_l : Z := 108.

Definition va_int (m : mem) (ap : Z) : Z * Z := (s32 (get32 m ap), ap + 4).
Definition va_word (m : mem) (ap : Z) : Z * Z := (get32 m ap, ap + 4).

(** The loops that read the width and the precision; returns the first other character. *)
Fixpoint number_loop (fuel : nat) (m : mem) (fmt ap acc : Z) : option (Z * Z * Z * Z) :=
  match fuel with
  | O => None
  | S fuel =>
      let c := m fmt in
      let fmt := fmt + 1 in
      if (chr_0 <=? c) && (c <=? chr_9) then
        let c := u8 (c - chr_0) in number_loop fuel m fmt ap (s32 (acc * 10 + c))
      else if c =? chr_star then
        let '(v, ap) := va_int m ap in
        let c := u8 v in number_loop fuel m fmt ap (s32 (acc * 10 + c))
      else Some (c, fmt, ap, acc)
  end.

(** [for (p = s; *p && (--precision >= 0); p++);] the length. *)
Fixpoint string_loop (fuel : nat) (m : mem) (p precision i : Z) : option Z :=
  match fuel with
  | O => None
  | S fuel =>
      if m p =? 0 then Some i
      else
        let precision := s32 (precision - 1) in
        if 0 <=? precision then string_loop fuel m (p + 1) precision (i + 1) else Some i
  end.

Definition null_string : list Z := [40; 110; 117; 108; 108; 41; 0].

(** What a conversion leaves: the filler, the characters from [s] on, their number, and
    the rest of the arguments. *)
Definition converted : Type := Z * mem * Z * Z.

Definition tmpbuf : list Z := repeat 0 23.

Definition from_tmp (filler ap : Z) (r : option (Z * list Z)) : option converted :=
  match r with None => None | Some (p, b) => Some (filler, bytes_at b, p, ap) end.

Definition convert_string (fuel : nat) (m : mem) (ap precision : Z) : option converted :=
  let '(s, ap) := va_word m ap in
  let str := if s =? 0 then bytes_at null_string else (fun i => m (s + i)) in
  let precision := if precision =? 0 then 32767 else precision in
  match string_loop fuel str 0 precision 0 with
  | None => None
  | Some i => Some (chr_space, str, i, ap)
  end.

Definition convert_decimal (m : mem) (ap filler : Z) : option converted :=
  let '(l, ap) := va_int m ap in
  if l <? 0 then
    match store tmpbuf 0 chr_minus with
    | None => None
    | Some b => from_tmp filler ap (ch_ltoa b 1 (s32 (- l)) 10)
    end
  else from_tmp filler ap (ch_ltoa tmpbuf 0 l 10).

Definition convert_float (m : mem) (ap filler precision : Z) : option converted :=
  let ap := va_arg_align_if_necessary ap in
  let '(f, ap) := va_word m ap in
  let ap := ap + 4 in
  if float_negative f then
    match store tmpbuf 0 chr_minus with
    | None => None
    | Some b => from_tmp filler ap (ftoa b 1 (float_neg f) precision)
    end
  else from_tmp filler ap (ftoa tmpbuf 0 f precision).

Definition convert_unsigned (m : mem) (ap filler radix : Z) : option converted :=
  let '(l, ap) := va_word m ap in
  from_tmp filler ap (ch_ltoa tmpbuf 0 (s32 l) radix).

Definition is_conv (c : Z) (l : list Z) : bool := existsb (Z.eqb c) l.

(** The switch on the conversion character; with int and long of the same size the long
    modifier makes no difference. *)
Definition convert (fuel : nat) (m : mem) (ap c filler precision : Z) : option converted :=
  if is_conv c [99] then
    let '(v, ap) := va_int m ap in
    from_tmp chr_space ap (store_all tmpbuf 0 [u8 v])
  else if is_conv c [115] then convert_string fuel m ap precision
  else if is_conv c [68; 100; 73; 105] then convert_decimal m ap filler
  else if is_conv c [102] then convert_float m ap filler precision
  else if is_conv c [88; 120] then convert_unsigned m ap filler 16
  else if is_conv c [85; 117] then convert_unsigned m ap filler 10
  else if is_conv c [79; 111] then convert_unsigned m ap filler 8
  else from_tmp filler ap (store_all tmpbuf 0 [c]).

Section Output.
Context {S : Type} `{Stream S}.

(** [streamPut(chp, (uint8_t)c); n++;] *)
Definition out (c : Z) (o : S * Z) : S * Z := (streamPut (fst o) c, s32 (snd o + 1)).

Fixpoint out_filler (k : nat) (c : Z) (o : S * Z) : S * Z :=
  match k with O => o | Datatypes.S k => out_filler k c (out c o) end.

(** [while (--i >= 0) { streamPut(chp, *s++); n++; }] *)
Fixpoint out_chars (k : nat) (s : mem) (pos : Z) (o : S * Z) : S * Z :=
  match k with O => o | Datatypes.S k => out_chars k s (pos + 1) (out (s pos) o) end.

(** The field of [width] with the [i] characters from [s] on. *)
Definition out_field (left_align : bool) (width filler : Z) (s : mem) (i : Z) (o : S * Z) : S * Z :=
  let width := s32 (width - i) in
  let width := if width <? 0 then 0 else width in
  let width := if negb left_align then s32 (- width) else width in
  let '(pos, i, width, o) :=
    if width <? 0 then
      let '(pos, i, o) :=
        if (s 0 =? chr_minus) && (filler =? chr_0) then (1, i - 1, out (s 0) o) else (0, i, o) in
      (pos, i, 0, out_filler (Z.to_nat (- width)) filler o)
    else (0, i, width, o) in
  let o := out_chars (Z.to_nat i) s pos o in
  out_filler (Z.to_nat width) filler o.

(** One directive, from the character behind the percent sign. *)
Definition directive (fuel : nat) (m : mem) (fmt ap : Z) (o : S * Z) : option (Z * Z * (S * Z)) :=
  let '(left_align, fmt) := if m fmt =? chr_minus then (true, fmt + 1) else (false, fmt) in
  let '(filler, fmt) := if m fmt =? chr_0 then (chr_0, fmt + 1) else (chr_space, fmt) in
  match number_loop fuel m fmt ap 0 with
  | None => None
  | Some (c, fmt, ap, width) =>
      match (if c =? chr_dot then number_loop fuel m fmt ap 0 else Some (c, fmt, ap, 0)) with
      | None => None
      | Some (c, fmt, ap, precision) =>
          let '(c, fmt) :=
            if (c =? chr_l) || (c =? chr_L) then
              if negb (m fmt =? 0) then (m fmt, fmt + 1) else (c, fmt)
            else (c, fmt) in
          match convert fuel m ap c filler precision with
          | None => None
          | Some (filler, s, i, ap) => Some (fmt, ap, out_field left_align width filler s i o)
          end
      end
  end.

Fixpoint chvprintf_loop (fuel : nat) (m : mem) (fmt ap : Z) (o : S * Z) : option (S * Z) :=
  match fuel with
  | O => None
  | Datatypes.S fuel =>
      let c := m fmt in
      let fmt := fmt + 1 in
      if c =? 0 then Some o
      else if negb (c =? chr_percent) then chvprintf_loop fuel m fmt ap (out c o)
      else
        match directive fuel m fmt ap o with
        | None => None
        | Some (fmt, ap, o) => chvprintf_loop fuel m fmt ap o
        end
  end.

(** The stream afterwards and the result. *)
Definition chvprintf (fuel : nat) (m : mem) (chp : S) (fmt ap : Z) : option (S * Z) :=
  chvprintf_loop fuel m fmt ap (chp, 0).

(** The arguments of a function with a variable number of arguments lie from [ap] on. *)
Definition chprintf (fuel : nat) (m : mem) (chp : S) (fmt ap : Z) : option (S * Z) :=
  chvprintf fuel m chp fmt ap.
Definition printf (fuel : nat) (m : mem) (stream : S) (fmt ap : Z) : option (S * Z) :=
  chvprintf fuel m stream fmt ap.
Definition tfp_printf (fuel : nat) (m : mem) (stream : S) (fmt ap : Z) : option S :=
  match chvprintf fuel m stream fmt ap with None => None | Some (st, _) => Some st end.
Definition putchar (stream : S) (c : Z) : S * Z := (streamPut stream c, c).
End Output.

(** The string [str] is outside of the format, the arguments and what they point to. *)
Definition chsnprintf (fuel : nat) (m : mem) (str size fmt ap : Z) : option (mem * Z) :=
  let size_wo_nul := if 0 <? size then size - 1 else 0 in
  let ms := msObjectInit str size_wo_nul 0 in
  match chvprintf fuel m (ms, m) fmt ap with
  | None => None
  | Some (ms, m, retval) =>
      let m := if ms_eos ms <? size then put8 m (str + ms_eos ms) 0 else m in
      Some (m, retval)
  end.
End Printf.

(** ** Examples *)

(** "<%-5d|%05d|%X|%.2s>" and its arguments from 100 on. *)
Definition example_format : list Z :=
  [60; 37; 45; 53; 100; 124; 37; 48; 53; 100; 124; 37; 88; 124; 37; 46; 50; 115; 62; 0].
Definition example_memory : mem :=
  put32 (put32 (put32 (put32 (fun a => if a <? 100 then bytes_at example_format a
    else nth (Z.to_nat (a - 200)) [97; 98; 99; 0] 0) 100 42) 104 (u32 (-42))) 108 0xBEEF) 112 200.

(** The stream that keeps everything. *)
#[export] Instance list_stream : Stream (list Z) := fun l c => (STM_OK, l ++ [c]).


(** ** The digits of a number *)

Definition digit_char (d : Z) : Z := if d <? 10 then chr_0 + d else chr_A + (d - 10).

Fixpoint digits_from (fuel : nat) (radix n : Z) (acc : list Z) : list Z :=
  match fuel with
  | O => acc
  | S fuel =>
      let acc := digit_char (n mod radix) :: acc in
      if n / radix =? 0 then acc else digits_from fuel radix (n / radix) acc
  end.

(** The most significant first. *)
Definition digits (radix n : Z) : list Z := digits_from 32 radix n [].

Lemma digits_from_app fuel : forall radix n acc,
  digits_from fuel radix n acc = digits_from fuel radix n [] ++ acc.
Proof.
  induction fuel as [|fuel IH]; intros radix n acc; cbn [digits_from]; [done|].
  destruct (_ =? 0); [done|]. rewrite IH, (IH _ _ [_]), <- app_assoc. done.
Qed.

Lemma digits_from_step fuel radix n :
  digits_from (S fuel) radix n [] =
  (if n / radix =? 0 then [] else digits_from fuel radix (n / radix) []) ++ [digit_char (n mod radix)].
Proof. cbn [digits_from]. destruct (_ =? 0); [done|]. by rewrite digits_from_app. Qed.

Lemma digits_from_pos fuel radix n acc : (length acc < length (digits_from (S fuel) radix n acc))%nat.
Proof. rewrite digits_from_app, digits_from_step, !length_app. cbn. lia. Qed.

(** Dividing by the radix removes a bit at least. *)
Lemma div_radix radix n (k : nat) : 2 <= radix -> 0 <= n < 2 ^ Z.of_nat (S k) ->
  0 <= n / radix < 2 ^ Z.of_nat k.
Proof.
  intros Hr Hn. rewrite Nat2Z.inj_succ, Z.pow_succ_r in Hn by lia.
  split; [apply Z.div_pos; lia|]. apply Z.div_lt_upper_bound; [lia|]. nia.
Qed.

(** A number of at most [k] digits of base [radix]. *)
Lemma digits_length radix (k : nat) : 2 <= radix -> forall fuel n, 0 <= n < radix ^ Z.of_nat k -> (0 < k)%nat ->
  (length (digits_from fuel radix n []) <= k)%nat.
Proof.
  intros Hr. induction k as [|k IH]; intros fuel n Hn Hk; [lia|]. destruct fuel as [|fuel]; [cbn; lia|].
  rewrite digits_from_step, length_app. cbn [length].
  destruct (Z.eqb_spec (n / radix) 0) as [|Hne]; [cbn; lia|].
  rewrite Nat2Z.inj_succ, Z.pow_succ_r in Hn by lia.
  assert (0 <= n / radix < radix ^ Z.of_nat k).
  { split; [apply Z.div_pos; lia|]. apply Z.div_lt_upper_bound; lia. }
  destruct k as [|k]; [cbn in *; lia|]. specialize (IH fuel (n / radix)). lia.
Qed.

Lemma digits_word_length n : is_u32 n ->
  (length (digits 10 n) <= 10)%nat /\ (length (digits 16 n) <= 8)%nat /\ (length (digits 8 n) <= 11)%nat.
Proof.
  intros Hn. split; [|split]; apply digits_length; try lia; vm_compute; intuition discriminate.
Qed.

(** Digits are characters. *)
Lemma digit_char_range radix n : 2 <= radix <= 36 -> 0 < digit_char (n mod radix) < 91.
Proof.
  intros Hr. pose proof (Z.mod_pos_bound n radix ltac:(lia)). unfold digit_char, chr_0, chr_A. case_match; lia.
Qed.

Lemma digits_bytes radix : 2 <= radix <= 36 -> forall fuel n, Forall (fun c => 0 < c < 91) (digits_from fuel radix n []).
Proof.
  intros Hr. induction fuel as [|fuel IH]; intros n; [by constructor|]. rewrite digits_from_step.
  apply list.Forall_app. split; [case_match; [constructor|apply IH]|].
  constructor; [by apply digit_char_range|constructor].
Qed.

Lemma in_range_le a x b : a <= x <= b -> (a <=? x) && (x <=? b) = true.
Proof. lia. Qed.
Lemma out_of_range_le a x b : x < a \/ b < x -> (a <=? x) && (x <=? b) = false.
Proof. lia. Qed.

(** The digit loop writes the digits below [q]. *)
Lemma digits_loop_spec radix : 2 <= radix <= 36 -> forall (fuel : nat) n q b,
  is_u32 n -> 0 <= n < 2 ^ Z.of_nat fuel -> (0 < fuel)%nat -> 0 <= q ->
  let ds := digits_from fuel radix n [] in
  digits_loop fuel radix (s32 n) (s32 n) q b =
  if (Z.of_nat (length ds) <=? q) && (q <=? Z.of_nat (length b))
  then Some (q - Z.of_nat (length ds), take (Z.to_nat q - length ds) b ++ ds ++ drop (Z.to_nat q) b)
  else None.
Proof.
  intros Hr. induction fuel as [|fuel IH]; intros n q b Hn Hf Hf0 Hq ds; [lia|]. clear Hf0.
  assert (Hu : u32 (s32 n) = n) by wrap_lia.
  assert (Hdiv := div_radix radix n fuel ltac:(lia) Hf).
  assert (Hlt : n / radix < 2147483648) by (apply Z.div_lt_upper_bound; nia).
  assert (Hd : (let i := n mod radix + chr_0 in
    if chr_9 <? i then i + (chr_A - chr_0 - 10) else i) = digit_char (n mod radix)).
  { unfold digit_char, chr_0, chr_9, chr_A. repeat case_match; lia. }
  pose proof (digit_char_range radix n Hr) as Hdr.
  cbn [digits_loop]. rewrite Hu. cbn zeta in Hd. rewrite Hd, u8_id by lia. unfold ds.
  pose proof (digits_from_pos fuel radix n []) as Hpos. cbn [length] in Hpos.
  destruct (decide (1 <= q <= Z.of_nat (length b))) as [Hin|Hout].
  2:{ unfold store. rewrite out_of_range, out_of_range_le by lia. done. }
  rewrite store_in by lia. rewrite digits_from_step.
  replace (s32 (n / radix) =? 0) with (n / radix =? 0) by (by rewrite s32_id by lia).
  assert (Hdrop : drop (Z.to_nat q - 1) (<[Z.to_nat (q - 1):=digit_char (n mod radix)]> b) =
    digit_char (n mod radix) :: drop (Z.to_nat q) b).
  { replace (Z.to_nat (q - 1)) with (Z.to_nat q - 1)%nat by lia.
    rewrite (drop_S _ (digit_char (n mod radix))) by (apply list_lookup_insert_eq; lia).
    rewrite drop_insert_lt by lia. do 2 f_equal. lia. }
  destruct (Z.eqb_spec (n / radix) 0) as [Hz|Hz].
  - cbn [app length]. rewrite in_range_le by lia. f_equal. f_equal.
    rewrite <- Hdrop, <- (take_insert_ge b (Z.to_nat q - 1) (Z.to_nat (q - 1)) (digit_char (n mod radix))) by lia.
    by rewrite take_drop.
  - destruct fuel as [|fuel]; [cbn in Hdiv; lia|].
    rewrite IH by (try lia; split; lia). clear IH. set (ds' := digits_from (S fuel) radix (n / radix) []).
    rewrite length_insert, length_app. cbn [length].
    destruct (decide (Z.of_nat (length ds') <= q - 1)) as [Hle|Hgt].
    2:{ rewrite (out_of_range_le _ (q - 1)) by lia. rewrite out_of_range_le by lia. done. }
    rewrite (in_range_le _ (q - 1)), in_range_le by lia. f_equal. f_equal; [lia|].
    rewrite take_insert_ge by lia. rewrite <- app_assoc.
    replace (Z.to_nat (q - 1)) with (Z.to_nat q - 1)%nat in * by lia. rewrite Hdrop.
    do 2 f_equal. lia.
Qed.

(** The copy loop. *)
Lemma copy_up_spec ds : forall p q b, (p <= q)%nat -> ds <> [] ->
  (forall j c, ds !! j = Some c -> b !! (q + j)%nat = Some c) ->
  copy_up (length ds) (Z.of_nat p) (Z.of_nat q) b = Some (Z.of_nat (p + length ds), list_inserts p ds b).
Proof.
  induction ds as [|c ds IH]; intros p q b Hpq Hne Hb; [done|].
  pose proof (Hb 0%nat c eq_refl) as H0. rewrite Nat.add_0_r in H0.
  pose proof (lookup_lt_Some _ _ _ H0) as Hlt.
  assert (Hl : load b (Z.of_nat q) = Some c).
  { unfold load. replace (0 <=? Z.of_nat q) with true by lia. by rewrite Nat2Z.id. }
  cbn [length copy_up]. rewrite Hl, store_in, Nat2Z.id by lia.
  destruct ds as [|d ds].
  - cbn [length list_inserts]. f_equal. f_equal. lia.
  - replace (Z.of_nat p + 1) with (Z.of_nat (S p)) by lia.
    replace (Z.of_nat q + 1) with (Z.of_nat (S q)) by lia. cbn [length].
    change (S (length ds)) with (length (d :: ds)). rewrite IH; [|lia|done|].
    + f_equal. f_equal; [cbn; lia|]. symmetry. apply list_insert_inserts_lt. lia.
    + intros j x Hj. rewrite list_lookup_insert_ne by lia. rewrite <- (Hb (S j) x Hj). f_equal. lia.
Qed.

Lemma s32_range z : -2147483648 <= s32 z < 2147483648.
Proof. wrap_lia. Qed.
Lemma s32_u32 z : -2147483648 <= z < 2147483648 -> s32 (u32 z) = z.
Proof. intros. wrap_lia. Qed.

Lemma digits_pos radix n : (0 < length (digits radix n))%nat.
Proof. apply (digits_from_pos 31 radix n []). Qed.

(** The array after a conversion. *)
Definition after_ltoa (b : list Z) (p : nat) (ds : list Z) : list Z :=
  list_inserts p ds (take (p + 11 - length ds) b ++ ds ++ drop (p + 11) b).

(** A conversion of at most eleven digits. *)
Lemma ch_ltoa_eq b (p : nat) num radix : 2 <= radix <= 36 -> -2147483648 <= num < 2147483648 ->
  let ds := digits radix (u32 num) in
  (length ds <= 11)%nat -> (p + 11 <= length b)%nat ->
  ch_ltoa b (Z.of_nat p) num radix = Some (Z.of_nat (p + length ds), after_ltoa b p ds).
Proof.
  intros Hr Hn ds Hd Hb. unfold ch_ltoa, long_to_string_with_divisor.
  replace (radix =? 0) with false by lia. cbn [Z.eqb].
  rewrite <- (s32_u32 num Hn) at 1 2.
  rewrite (digits_loop_spec radix Hr 32) by (try apply u32_range; unfold MAX_FILLER; lia).
  fold (digits radix (u32 num)). fold ds. unfold MAX_FILLER.
  rewrite in_range_le by lia. replace (Z.to_nat (_ - _)) with (length ds) by lia.
  replace (Z.of_nat p + 11 - Z.of_nat (length ds)) with (Z.of_nat (p + 11 - length ds)) by lia.
  pose proof (digits_pos radix (u32 num)) as Hpos. fold ds in Hpos.
  rewrite copy_up_spec; [|lia|by destruct ds; cbn in *; [lia|]|].
  - unfold after_ltoa. by replace (Z.to_nat (Z.of_nat p + 11)) with (p + 11)%nat by lia.
  - intros j c Hj. replace (Z.to_nat (Z.of_nat p + 11)) with (p + 11)%nat by lia.
    pose proof (lookup_lt_Some _ _ _ Hj). rewrite lookup_app_r, lookup_app_l; rewrite ?length_take; try lia.
    rewrite <- Hj. f_equal. lia.
Qed.

Lemma after_ltoa_length b (p : nat) ds : (length ds <= 11)%nat -> (p + 11 <= length b)%nat ->
  length (after_ltoa b p ds) = length b.
Proof.
  intros Hd Hb. unfold after_ltoa. rewrite length_inserts, !length_app, length_take, length_drop. lia.
Qed.

Lemma after_ltoa_take b (p : nat) ds : (length ds <= 11)%nat -> (p + 11 <= length b)%nat ->
  take (p + length ds) (after_ltoa b p ds) = take p b ++ ds.
Proof.
  intros Hd Hb. apply list_eq. intros i. pose proof (after_ltoa_length b p ds Hd Hb) as Hlen.
  assert (Hin : length (take (p + 11 - length ds) b ++ ds ++ drop (p + 11) b) = length b)
    by (rewrite !length_app, length_take, length_drop; lia).
  destruct (decide (i < p + length ds)%nat) as [Hi|Hi].
  2:{ rewrite lookup_take_ge, lookup_ge_None_2 by (rewrite ?length_app, ?length_take; lia). done. }
  rewrite lookup_take_lt by done. unfold after_ltoa. destruct (decide (i < p)%nat) as [Hp|Hp].
  - rewrite list_lookup_inserts_lt by done. rewrite !lookup_app_l by (rewrite length_take; lia).
    by rewrite !lookup_take_lt by lia.
  - rewrite list_lookup_inserts by lia. rewrite lookup_app_r by (rewrite length_take; lia).
    f_equal. rewrite length_take. lia.
Qed.

(** Otherwise a store outside of the array. *)
Lemma ch_ltoa_out b num radix : 2 <= radix <= 36 -> -2147483648 <= num < 2147483648 ->
  (11 < length (digits radix (u32 num)) \/ length b < 11)%nat -> ch_ltoa b 0 num radix = None.
Proof.
  intros Hr Hn Hd. unfold ch_ltoa, long_to_string_with_divisor.
  replace (radix =? 0) with false by lia. cbn [Z.eqb].
  rewrite <- (s32_u32 num Hn) at 1 2.
  rewrite (digits_loop_spec radix Hr 32) by (try apply u32_range; unfold MAX_FILLER; lia).
  fold (digits radix (u32 num)). unfold MAX_FILLER. by rewrite out_of_range_le by lia.
Qed.

(** ** Reading numbers back *)

Lemma digit_value_char d : 0 <= d < 16 ->
  _isxdigit (digit_char d) = true /\ digit_value (digit_char d) = d.
Proof.
  intros Hd. unfold digit_char. destruct (Z.ltb_spec d 10).
  - unfold _isxdigit, digit_value, _isdigit, chr_0, chr_9 in *.
    replace ((48 <=? 48 + d) && (48 + d <=? 57)) with true by lia. split; [done|lia].
  - unfold _isxdigit, digit_value, _isdigit, _islower, chr_0, chr_9, chr_a, chr_z, chr_A, chr_F in *.
    replace ((48 <=? 65 + (d - 10)) && (65 + (d - 10) <=? 57)) with false by lia.
    replace ((97 <=? 65 + (d - 10)) && (65 + (d - 10) <=? 122)) with false by lia. split; lia.
Qed.

Lemma digits_from_value radix : 2 <= radix <= 16 -> forall fuel n, 0 <= n < 2 ^ Z.of_nat fuel ->
  (0 < fuel)%nat ->
  Forall (fun c => _isxdigit c = true /\ digit_value c < radix) (digits_from fuel radix n []) /\
  horner radix (digits_from fuel radix n []) 0 = n.
Proof.
  intros Hr. induction fuel as [|fuel IH]; intros n Hn Hf; [lia|].
  pose proof (div_radix radix n fuel ltac:(lia) Hn) as Hdiv.
  pose proof (Z.mod_pos_bound n radix ltac:(lia)) as Hm. pose proof (Z.div_mod n radix ltac:(lia)) as Hdm.
  destruct (digit_value_char (n mod radix)) as [Hx Hv]; [lia|]. rewrite digits_from_step.
  unfold horner. rewrite fold_left_app. cbn [fold_left]. fold (horner radix
    (if n / radix =? 0 then [] else digits_from fuel radix (n / radix) []) 0).
  rewrite Hv. destruct (Z.eqb_spec (n / radix) 0) as [Hz|Hz].
  - split; [repeat constructor; [done|lia]|]. cbn. lia.
  - destruct fuel as [|fuel]; [cbn in Hdiv; lia|]. destruct (IH (n / radix) Hdiv ltac:(lia)) as [H1 H2].
    split; [apply list.Forall_app; split; [done|repeat constructor; [done|lia]]|]. rewrite H2. lia.
Qed.

(** The leading digit of a number of several digits is not 0. *)
Lemma digits_head radix : 2 <= radix <= 16 -> forall fuel n, 0 < n < 2 ^ Z.of_nat fuel ->
  exists c l, digits_from fuel radix n [] = c :: l /\ c <> chr_0.
Proof.
  intros Hr. induction fuel as [|fuel IH]; intros n Hn; [cbn in Hn; lia|].
  pose proof (div_radix radix n fuel ltac:(lia) ltac:(lia)) as Hdiv.
  pose proof (Z.mod_pos_bound n radix ltac:(lia)) as Hm. pose proof (Z.div_mod n radix ltac:(lia)) as Hdm.
  rewrite digits_from_step. destruct (Z.eqb_spec (n / radix) 0) as [Hz|Hz].
  - eexists _, []. split; [done|]. unfold digit_char, chr_0, chr_A. case_match; nia.
  - destruct (IH (n / radix) ltac:(lia)) as (c & l & -> & Hc). by exists c, (l ++ [digit_char (n mod radix)]).
Qed.

(** The digits are enough for the number. *)
Lemma digits_bound radix : 2 <= radix -> forall fuel n, 0 <= n < 2 ^ Z.of_nat fuel -> (0 < fuel)%nat ->
  n < radix ^ Z.of_nat (length (digits_from fuel radix n [])).
Proof.
  intros Hr. induction fuel as [|fuel IH]; intros n Hn Hf; [lia|].
  pose proof (div_radix radix n fuel Hr Hn) as Hdiv.
  pose proof (Z.mod_pos_bound n radix ltac:(lia)) as Hm. pose proof (Z.div_mod n radix ltac:(lia)) as Hdm.
  rewrite digits_from_step, length_app. cbn [length]. rewrite Nat2Z.inj_add, Z.pow_add_r, Z.pow_1_r by lia.
  destruct (Z.eqb_spec (n / radix) 0) as [Hz|Hz]; [cbn; lia|].
  destruct fuel as [|fuel]; [cbn in Hdiv; lia|]. specialize (IH (n / radix) Hdiv ltac:(lia)). nia.
Qed.

Lemma strtoul_digits radix n a m fuel : 2 <= radix <= 16 -> is_u32 n -> a <> 0 -> (32 < fuel)%nat ->
  stored m a (digits radix n) -> m (a + Z.of_nat (length (digits radix n))) = 0 ->
  simple_strtoul fuel m a radix = Some (n, a + Z.of_nat (length (digits radix n))).
Proof.
  intros Hr Hn Ha Hf Hs Hz. unfold simple_strtoul. replace (a =? 0) with false by lia.
  assert (Hlen : (length (digits radix n) <= 32)%nat).
  { apply digits_length; [lia| |lia]. split; [lia|].
    apply Z.lt_le_trans with (2 ^ 32); [exact (proj2 Hn)|]. apply Z.pow_le_mono_l. lia. }
  destruct (digits_from_value radix Hr 32 n) as [Hfa Hv]; [exact Hn|lia|]. fold (digits radix n) in Hfa, Hv.
  assert (Hnul : _isxdigit 0 = false) by done. unfold strtoul_prefix.
  destruct (decide (n = 0)) as [->|Hne].
  - assert (Hd : digits radix 0 = [chr_0]).
    { unfold digits. cbn [digits_from]. by rewrite Z.div_0_l, Z.mod_0_l by lia. }
    rewrite Hd in *. apply stored_cons in Hs as [-> _]. cbn [length] in *.
    change (a + Z.of_nat 1) with (a + 1) in *. rewrite Hz. cbn.
    replace (radix =? 0) with false by lia. cbn.
    destruct fuel as [|fuel]; [lia|]. cbn [strtoul_loop]. by rewrite Hz, Hnul.
  - destruct (digits_head radix Hr 32 n) as (c & l & E & Hc); [split; [lia|exact (proj2 Hn)]|]. fold (digits radix n) in E.
    assert (Hc0 : m a = c) by (rewrite E in Hs; by apply stored_cons in Hs as [-> _]).
    rewrite Hc0. replace (c =? chr_0) with false by lia. replace (radix =? 0) with false by lia.
    rewrite (strtoul_loop_spec radix (digits radix n)); [|split|by cbn|lia].
    + rewrite Hv. by rewrite u32_id by lia.
    + intros i d Hi. split; [by apply Hs|]. by apply (Forall_lookup_1 _ _ _ _ Hfa Hi).
    + by rewrite Hz, Hnul.
Qed.

(** ** What a format means *)

(** A digit or a star. *)
Definition enc_num (l : list (option Z)) : list Z :=
  map (fun o => match o with Some d => chr_0 + d | None => chr_star end) l.

(** The fields of a directive: [%-0<width>.<precision>l<conv>]. *)
Record dir : Type := Dir {
  d_left : bool;
  d_zero : bool;
  d_width : list (option Z);
  d_prec : option (list (option Z));
  d_long : option Z;
  d_conv : Z
}.

Inductive item : Type := Lit (c : Z) | Conv (d : dir).

Definition enc_long (d : dir) : list Z := (match d_long d with Some c => [c] | None => [] end) ++ [d_conv d].
Definition enc_prec (d : dir) : list Z :=
  (match d_prec d with Some l => chr_dot :: enc_num l | None => [] end) ++ enc_long d.
Definition enc_width (d : dir) : list Z := enc_num (d_width d) ++ enc_prec d.
Definition enc_zero (d : dir) : list Z := (if d_zero d then [chr_0] else []) ++ enc_width d.
Definition enc_dir (d : dir) : list Z := (if d_left d then [chr_minus] else []) ++ enc_zero d.
Definition enc_item (i : item) : list Z := match i with Lit c => [c] | Conv d => chr_percent :: enc_dir d end.
Definition encode (l : list item) : list Z := concat (map enc_item l).

Definition starts_number (c : Z) : Prop := chr_0 <= c <= chr_9 \/ c = chr_star.

(** The encoding is read the way it is meant. *)
Record dir_ok (d : dir) : Prop := {
  dk_left : d_left d = false -> head (enc_zero d) <> Some chr_minus;
  dk_zero : d_zero d = false -> head (enc_width d) <> Some chr_0;
  dk_width : Forall (fun o => match o with Some x => 0 <= x <= 9 | None => True end) (d_width d);
  dk_prec : match d_prec d with
            | Some l => Forall (fun o => match o with Some x => 0 <= x <= 9 | None => True end) l
            | None => head (enc_long d) <> Some chr_dot end;
  dk_long : match d_long d with
            | Some c => c = chr_l \/ c = chr_L
            | None => d_conv d <> chr_l /\ d_conv d <> chr_L end;
  dk_conv : 0 < d_conv d < 256 /\ (d_long d = None -> ~ starts_number (d_conv d))
}.

Definition item_ok (i : item) : Prop :=
  match i with Lit c => 0 < c < 256 /\ c <> chr_percent | Conv d => dir_ok d end.

(** The value of a width or precision: decimal digits, each star an argument's low byte. *)
Fixpoint num_value (m : mem) (l : list (option Z)) (ap acc : Z) : Z * Z :=
  match l with
  | [] => (ap, acc)
  | Some d :: l => num_value m l ap (acc * 10 + d)
  | None :: l => num_value m l (ap + 4) (acc * 10 + u8 (get32 m ap))
  end.

(** A body in a field of at least [width] characters. *)
Definition field (left_align : bool) (width filler : Z) (body : list Z) : list Z :=
  let pad := repeat filler (Z.to_nat (width - Z.of_nat (length body))) in
  if left_align then body ++ pad
  else if bool_decide (head body = Some chr_minus) && (filler =? chr_0) then chr_minus :: pad ++ tail body
  else pad ++ body.

Section Meaning.
Context (qfp_float2str : Z -> Z -> list Z) (va_arg_align_if_necessary : Z -> Z).
(** The greatest length of a string argument. *)
Context (L : nat) (m : mem).

(** The filler, the body and the rest of the arguments of a conversion with the filler and
    precision of its directive. *)
Inductive converts (ap filler prec : Z) : Z -> Z -> list Z -> Z -> Prop :=
  | ConvChar : converts ap filler prec 99 chr_space [u8 (get32 m ap)] (ap + 4)
  | ConvNull : get32 m ap = 0 ->
      converts ap filler prec 115 chr_space
        (take (Z.to_nat (if prec =? 0 then 32767 else prec)) [40; 110; 117; 108; 108; 41]) (ap + 4)
  | ConvString l : get32 m ap <> 0 -> cstr m (get32 m ap) l -> (length l <= L)%nat ->
      converts ap filler prec 115 chr_space (take (Z.to_nat (if prec =? 0 then 32767 else prec)) l) (ap + 4)
  | ConvDecimal c : In c [68; 100; 73; 105] ->
      let v := s32 (get32 m ap) in
      converts ap filler prec c filler
        (if v <? 0 then chr_minus :: digits 10 (- v) else digits 10 v) (ap + 4)
  | ConvFloat : let ap1 := va_arg_align_if_necessary ap in
      let f := get32 m ap1 in
      let body := if float_negative f then chr_minus :: qfp_float2str (float_neg f) (float_fmt prec)
                  else qfp_float2str f (float_fmt prec) in
      (0 < length body <= 23)%nat -> converts ap filler prec 102 filler body (ap1 + 8)
  | ConvHex c : In c [88; 120] -> converts ap filler prec c filler (digits 16 (get32 m ap)) (ap + 4)
  | ConvUnsigned c : In c [85; 117] -> converts ap filler prec c filler (digits 10 (get32 m ap)) (ap + 4)
  | ConvOctal c : In c [79; 111] -> converts ap filler prec c filler (digits 8 (get32 m ap)) (ap + 4)
  | ConvOther c : ~ In c [99; 115; 68; 100; 73; 105; 102; 88; 120; 85; 117; 79; 111] ->
      converts ap filler prec c filler [c] ap.
End Meaning.

(** ** Lemmas: conversions *)

Lemma stored_take b l : take (length l) b = l -> stored (bytes_at b) 0 l.
Proof.
  intros H i c Hi. rewrite bytes_at_lookup, Z.add_0_l, Nat2Z.id.
  rewrite <- H in Hi. apply lookup_take_Some in Hi as [Hi _]. by rewrite Hi.
Qed.

Lemma store_all_spec l : forall b (p : nat), (p + length l <= length b)%nat ->
  exists b', store_all b (Z.of_nat p) l = Some (Z.of_nat (p + length l), b') /\
    take (p + length l) b' = take p b ++ l.
Proof.
  induction l as [|c l IH]; intros b p Hb; cbn [store_all length] in *.
  - exists b. rewrite Nat.add_0_r, app_nil_r. done.
  - rewrite store_in, Nat2Z.id by lia. replace (Z.of_nat p + 1) with (Z.of_nat (S p)) by lia.
    destruct (IH (<[p:=c]> b) (S p)) as (b' & E & Ht); [rewrite length_insert; lia|].
    exists b'. rewrite E. split; [do 2 f_equal; lia|].
    replace (p + S (length l))%nat with (S p + length l)%nat by lia. rewrite Ht.
    rewrite (take_S_r _ p c) by (apply list_lookup_insert_eq; lia).
    rewrite take_insert_ge by lia. by rewrite <- app_assoc.
Qed.

Lemma string_loop_spec l : forall str p prec i fuel, cstr str p l -> 0 <= prec < 2147483648 ->
  (length l < fuel)%nat ->
  string_loop fuel str p prec i = Some (i + Z.of_nat (length (take (Z.to_nat prec) l))).
Proof.
  induction l as [|c l IH]; intros str p prec i fuel H Hp Hf; destruct fuel as [|fuel]; cbn [length] in Hf;
    try lia; cbn [string_loop].
  - rewrite (cstr_nil _ _ H), take_nil. cbn. f_equal. lia.
  - destruct (cstr_cons _ _ _ _ H) as (-> & Hc & H'). replace (c =? 0) with false by lia.
    rewrite s32_id by lia. destruct (Z.leb_spec 0 (prec - 1)).
    + rewrite IH by (try done; lia). replace (Z.to_nat prec) with (S (Z.to_nat (prec - 1))) by lia.
      cbn [take length]. f_equal. lia.
    + replace (Z.to_nat prec) with 0%nat by lia. cbn. f_equal. lia.
Qed.

Lemma cstr_stored str p l n : cstr str p l -> stored (fun i => str (p + i)) 0 (take n l).
Proof.
  intros [H _] i c Hi. apply lookup_take_Some in Hi as [Hi _]. rewrite Z.add_0_l. by apply H.
Qed.

Lemma num_value_range m l : byte_mem m -> Forall (fun o => match o with Some x => 0 <= x <= 9 | None => True end) l ->
  forall ap acc, 0 <= acc -> acc <= snd (num_value m l ap acc).
Proof.
  intros Hm. induction 1 as [|[d|] l Hd _ IH]; intros ap acc Ha; cbn [num_value]; [done| |].
  - specialize (IH ap (acc * 10 + d)). lia.
  - pose proof (u8_range (get32 m ap)). specialize (IH (ap + 4) (acc * 10 + u8 (get32 m ap))). lia.
Qed.

Lemma u8_s32 z : u8 (s32 z) = u8 z.
Proof. wrap_lia. Qed.

(** A number is read up to the character behind it. *)
Lemma number_loop_spec m c l : byte_mem m ->
  Forall (fun o => match o with Some x => 0 <= x <= 9 | None => True end) l -> ~ starts_number c ->
  forall fmt ap acc fuel, stored m fmt (enc_num l ++ [c]) -> 0 <= acc ->
  snd (num_value m l ap acc) < 2147483648 -> (length l < fuel)%nat ->
  number_loop fuel m fmt ap acc =
  Some (c, fmt + Z.of_nat (length l) + 1, fst (num_value m l ap acc), snd (num_value m l ap acc)).
Proof.
  intros Hm Hl Hc. unfold starts_number, chr_0, chr_9, chr_star in Hc.
  induction Hl as [|o l Ho Hl IH]; intros fmt ap acc fuel Hs Ha Hv Hf; destruct fuel as [|fuel]; cbn [length] in Hf;
    try lia; cbn [enc_num map app] in Hs; apply stored_cons in Hs as [E Hs]; cbn [number_loop]; rewrite E;
    unfold chr_0, chr_9, chr_star.
  - rewrite out_of_range_le by lia. replace (c =? 42) with false by lia. cbn. do 3 f_equal. f_equal. lia.
  - destruct o as [d|]; unfold chr_0, chr_star in E; cbn [num_value] in *.
    + rewrite in_range_le by lia. rewrite u8_id by lia. replace (48 + d - 48) with d by lia.
      pose proof (num_value_range m l Hm Hl ap (acc * 10 + d)).
      rewrite s32_id by lia. rewrite IH by (try done; lia). cbn [length]. do 4 f_equal. lia.
    + cbn [Z.leb andb Z.eqb Pos.eqb Z.compare Pos.compare Pos.compare_cont]. unfold va_int. rewrite u8_s32.
      pose proof (u8_range (get32 m ap)).
      pose proof (num_value_range m l Hm Hl (ap + 4) (acc * 10 + u8 (get32 m ap))).
      rewrite s32_id by lia. rewrite IH by (try done; lia). cbn [length]. do 4 f_equal. lia.
Qed.

Section Correct.
Context (qfp_float2str : Z -> Z -> list Z) (va_arg_align_if_necessary : Z -> Z).
Context (L : nat) (m : mem) (Hm : byte_mem m).
Abbreviation converts := (converts qfp_float2str va_arg_align_if_necessary L m).
Abbreviation convert := (convert qfp_float2str va_arg_align_if_necessary).

(** What a conversion has to deliver. *)
Definition delivers (r : option converted) (filler : Z) (body : list Z) (ap : Z) : Prop :=
  exists s, r = Some (filler, s, Z.of_nat (length body), ap) /\ stored s 0 body.

Lemma delivers_ltoa filler ap radix num : 2 <= radix <= 36 -> -2147483648 <= num < 2147483648 ->
  (length (digits radix (u32 num)) <= 11)%nat ->
  delivers (from_tmp filler ap (ch_ltoa tmpbuf 0 num radix)) filler (digits radix (u32 num)) ap.
Proof using All.
  intros Hr Hn Hd. assert (Hb : (0 + 11 <= length tmpbuf)%nat) by (cbn; lia).
  change 0 with (Z.of_nat 0) at 1. rewrite (ch_ltoa_eq tmpbuf 0 num radix Hr Hn Hd Hb).
  eexists. split; [done|]. apply stored_take. apply (after_ltoa_take tmpbuf 0 _ Hd Hb).
Qed.

(** The conversion of a negative number, or of a float. *)
Lemma delivers_store filler ap l : (length l <= 23)%nat ->
  delivers (from_tmp filler ap (store_all tmpbuf 0 l)) filler l ap.
Proof using All.
  intros Hl. destruct (store_all_spec l tmpbuf 0) as (b & E & Ht); [cbn; lia|].
  change (Z.of_nat 0) with 0 in E. rewrite E. eexists. split; [done|]. by apply stored_take.
Qed.

Lemma convert_unsigned_spec ap filler radix : radix = 8 \/ radix = 10 \/ radix = 16 ->
  delivers (convert_unsigned m ap filler radix) filler (digits radix (get32 m ap)) (ap + 4).
Proof using All.
  intros Hr. pose proof (get32_range m ap Hm) as Hw. unfold convert_unsigned, va_word.
  pose proof (digits_word_length (get32 m ap) Hw) as (H10 & H16 & H8).
  assert (E : u32 (s32 (get32 m ap)) = get32 m ap) by (clear -Hw; wrap_lia).
  rewrite <- E at 2. apply delivers_ltoa; [lia|apply s32_range|]. rewrite E. destruct Hr as [->|[->| ->]]; lia.
Qed.

Lemma convert_decimal_spec ap filler :
  let v := s32 (get32 m ap) in
  delivers (convert_decimal m ap filler) filler
    (if v <? 0 then chr_minus :: digits 10 (- v) else digits 10 v) (ap + 4).
Proof using All.
  intros v. pose proof (s32_range (get32 m ap)) as Hv. unfold convert_decimal, va_int.
  fold v. fold v in Hv. clearbody v.
  destruct (Z.ltb_spec v 0) as [Hneg|Hpos].
  - assert (E : u32 (s32 (- v)) = - v) by (clear -Hv Hneg; wrap_lia).
    pose proof (digits_word_length (- v) ltac:(lia)) as (H10 & _).
    rewrite store_in by (cbn; lia). set (b := <[_:=_]> tmpbuf).
    assert (Hb : (1 + 11 <= length b)%nat) by (unfold b; rewrite length_insert; cbn; lia).
    assert (Hd : (length (digits 10 (u32 (s32 (- v)))) <= 11)%nat) by (rewrite E; lia).
    assert (Hn : -2147483648 <= s32 (- v) < 2147483648) by apply s32_range.
    change 1 with (Z.of_nat 1). rewrite (ch_ltoa_eq b 1 (s32 (- v)) 10 ltac:(lia) Hn Hd Hb).
    eexists. rewrite E in *. split; [done|]. apply stored_take. apply (after_ltoa_take b 1 _ Hd Hb).
  - assert (E : u32 v = v) by (apply u32_id; lia). rewrite <- E at 2.
    apply delivers_ltoa; [lia|done|]. rewrite E. pose proof (digits_word_length v ltac:(lia)). lia.
Qed.

Lemma convert_string_spec ap prec l fuel : 0 <= prec < 2147483648 -> (length l < fuel)%nat ->
  (let s := get32 m ap in if s =? 0 then l = [40; 110; 117; 108; 108; 41] else cstr m s l) ->
  delivers (convert_string fuel m ap prec) chr_space
    (take (Z.to_nat (if prec =? 0 then 32767 else prec)) l) (ap + 4).
Proof using All.
  intros Hp Hf Hl. unfold convert_string, va_word. cbn zeta in Hl.
  set (str := if get32 m ap =? 0 then _ else _). set (prec' := if prec =? 0 then _ else _).
  assert (Hp' : 0 <= prec' < 2147483648) by (unfold prec'; destruct (prec =? 0); lia).
  assert (Hs : cstr str 0 l).
  { unfold str. destruct (_ =? 0).
    - subst l. split; [|done]. intros i c Hi. do 6 (destruct i as [|i]; [by injection Hi as <-|]). done.
    - destruct Hl as [H1 H2]. split; [|exact H2]. intros i c Hi. apply (H1 i c Hi). }
  rewrite (string_loop_spec l) by done. eexists. split; [done|].
  apply (cstr_stored str 0 l _ Hs).
Qed.

Lemma convert_float_spec ap filler prec : 0 <= prec < 2147483648 ->
  let ap1 := va_arg_align_if_necessary ap in
  let f := get32 m ap1 in
  let body := if float_negative f then chr_minus :: qfp_float2str (float_neg f) (float_fmt prec)
              else qfp_float2str f (float_fmt prec) in
  (length body <= 23)%nat ->
  delivers (convert_float qfp_float2str va_arg_align_if_necessary m ap filler prec) filler body (ap1 + 8).
Proof using All.
  intros Hp ap1 f body Hb. unfold convert_float, va_word, ftoa. fold ap1. fold f.
  rewrite u32_id by lia. replace (ap1 + 4 + 4) with (ap1 + 8) by lia. unfold body in *.
  destruct (float_negative f); [|by apply delivers_store].
  exact (delivers_store filler (ap1 + 8) (chr_minus :: qfp_float2str (float_neg f) (float_fmt prec)) Hb).
Qed.

Lemma is_conv_spec c l : is_conv c l = true <-> In c l.
Proof using All.
  unfold is_conv. rewrite existsb_exists. split.
  - intros (x & Hx & E). apply Z.eqb_eq in E. by subst.
  - intros Hc. exists c. split; [done|]. apply Z.eqb_refl.
Qed.

(** A conversion character selects one conversion. *)
Lemma convert_spec ap filler prec c f' body ap' fuel : converts ap filler prec c f' body ap' ->
  0 <= prec < 2147483648 -> 0 < c < 256 -> (L < fuel)%nat -> (6 < fuel)%nat ->
  delivers (convert fuel m ap c filler prec) f' body ap'.
Proof using All.
  intros Hc Hp Hcr Hf Hf6. unfold Printf.convert. destruct Hc.
  - cbn [is_conv existsb Z.eqb Pos.eqb orb]. unfold va_int. rewrite u8_s32. by apply delivers_store; cbn; lia.
  - apply convert_string_spec; [done|cbn; lia|]. cbn zeta. by rewrite H.
  - apply convert_string_spec; [done|lia|]. cbn zeta. by rewrite (proj2 (Z.eqb_neq _ 0) H).
  - destruct H as [<-|[<-|[<-|[<-|[]]]]]; cbn [is_conv existsb Z.eqb Pos.eqb orb]; apply convert_decimal_spec.
  - cbn [is_conv existsb Z.eqb Pos.eqb orb]. apply convert_float_spec; [done|apply H].
  - destruct H as [<-|[<-|[]]]; cbn [is_conv existsb Z.eqb Pos.eqb orb]; apply convert_unsigned_spec; lia.
  - destruct H as [<-|[<-|[]]]; cbn [is_conv existsb Z.eqb Pos.eqb orb]; apply convert_unsigned_spec; lia.
  - destruct H as [<-|[<-|[]]]; cbn [is_conv existsb Z.eqb Pos.eqb orb]; apply convert_unsigned_spec; lia.
  - assert (Hn : forall l, incl l [99; 115; 68; 100; 73; 105; 102; 88; 120; 85; 117; 79; 111] -> is_conv c l = false).
    { intros l Hl. destruct (is_conv c l) eqn:E; [|done]. apply is_conv_spec in E. by destruct H; apply Hl. }
    rewrite !Hn by (intros x Hx; cbn in *; tauto). by apply delivers_store; cbn; lia.
Qed.

Lemma converts_nonempty ap filler prec c f' body ap' : converts ap filler prec c f' body ap' ->
  f' = chr_space \/ body <> [].
Proof using All.
  assert (Hd : forall r n, digits r n <> []) by (intros r n E; pose proof (digits_pos r n) as H; rewrite E in H; cbn in H; lia).
  intros [| | |c' Hc v|ap1 f b Hb| | | |]; auto; right; try done.
  - by destruct (v <? 0).
  - intros E. rewrite E in Hb. cbn in Hb. lia.
Qed.

(** ** Lemmas: output *)

Section Out.
Context {S : Type} `{Stream S}.

Definition outs (l : list Z) (o : S * Z) : S * Z := (put_all (fst o) l, snd o + Z.of_nat (length l)).

(** The count does not overflow. *)
Definition room (l : list Z) (o : S * Z) : Prop := 0 <= snd o /\ snd o + Z.of_nat (length l) < 2147483648.

Lemma outs_app l1 l2 o : outs (l1 ++ l2) o = outs l2 (outs l1 o).
Proof using. unfold outs. cbn [fst snd]. rewrite put_all_app, length_app. f_equal. lia. Qed.

Lemma out_outs c o : room [c] o -> out c o = outs [c] o.
Proof using. intros [H1 H2]. unfold out, outs. cbn in *. by rewrite s32_id by lia. Qed.

Lemma room_app l1 l2 o : room (l1 ++ l2) o <-> room l1 o /\ room l2 (outs l1 o).
Proof using. unfold room, outs. cbn [snd]. rewrite length_app. lia. Qed.

Lemma out_filler_spec c k : forall o, room (repeat c k) o -> out_filler k c o = outs (repeat c k) o.
Proof using.
  induction k as [|k IH]; intros o Hr; cbn [out_filler repeat] in *.
  - unfold outs. cbn. rewrite Z.add_0_r. by destruct o.
  - change (c :: repeat c k) with ([c] ++ repeat c k) in *. apply room_app in Hr as [H1 H2].
    by rewrite out_outs, IH, outs_app.
Qed.

Lemma out_chars_spec l : forall s pos o, stored s pos l -> room l o ->
  out_chars (length l) s pos o = outs l o.
Proof using.
  induction l as [|c l IH]; intros s pos o Hs Hr; cbn [out_chars length].
  - unfold outs. cbn. rewrite Z.add_0_r. by destruct o.
  - apply stored_cons in Hs as [-> Hs]. change (c :: l) with ([c] ++ l) in *. apply room_app in Hr as [H1 H2].
    by rewrite out_outs, IH, outs_app.
Qed.

Lemma field_length left_align width filler body :
  Z.of_nat (length (field left_align width filler body)) = Z.max width (Z.of_nat (length body)).
Proof using.
  unfold field. destruct left_align; [rewrite length_app, repeat_length; lia|].
  destruct (bool_decide _ && _) eqn:E; rewrite ?length_app, ?repeat_length; [|lia].
  apply andb_true_iff in E as [E _]. apply bool_decide_eq_true_1 in E. destruct body; [done|].
  cbn [tail length]. rewrite length_app, repeat_length. lia.
Qed.

(** The test for a sign before zeros. *)
Definition signed_zeros (filler : Z) (body : list Z) : bool :=
  bool_decide (head body = Some chr_minus) && (filler =? chr_0).

Lemma signed_zeros_true filler body : signed_zeros filler body = true -> body = chr_minus :: tail body.
Proof using.
  intros [E _]%andb_true_iff. apply bool_decide_eq_true_1 in E. destruct body; [done|]. by injection E as ->.
Qed.

Lemma signed_zeros_spec filler s body : stored s 0 body -> filler = chr_space \/ body <> [] ->
  (s 0 =? chr_minus) && (filler =? chr_0) = signed_zeros filler body.
Proof using.
  intros Hs Hne. unfold signed_zeros. destruct body as [|c body].
  - destruct Hne as [->|]; [|done]. by rewrite !andb_false_r.
  - apply stored_cons in Hs as [-> _]. f_equal. cbn [head]. destruct (Z.eqb_spec c chr_minus) as [->|Hc].
    + by rewrite bool_decide_eq_true_2.
    + symmetry. apply bool_decide_eq_false_2. congruence.
Qed.

(** The part of [out_field] for text aligned to the right. *)
Lemma out_right_spec pad filler s body o : stored s 0 body -> filler = chr_space \/ body <> [] ->
  let l := if signed_zeros filler body then chr_minus :: repeat filler pad ++ tail body
           else repeat filler pad ++ body in
  room l o ->
  (let '(pos, i, o) :=
     if (s 0 =? chr_minus) && (filler =? chr_0) then (1, Z.of_nat (length body) - 1, out (s 0) o)
     else (0, Z.of_nat (length body), o) in
   out_chars (Z.to_nat i) s pos (out_filler pad filler o)) = outs l o.
Proof using.
  intros Hs Hne l Hr. rewrite (signed_zeros_spec filler s body Hs Hne). unfold l in *.
  destruct (signed_zeros filler body) eqn:E.
  - apply signed_zeros_true in E. rewrite E in Hs |- *. cbn [tail length].
    apply stored_cons in Hs as [-> Hs].
    replace (Z.to_nat (Z.of_nat (Datatypes.S (length (tail body))) - 1)) with (length (tail body)) by lia.
    change (chr_minus :: repeat filler pad ++ tail body) with ([chr_minus] ++ repeat filler pad ++ tail body) in *.
    apply room_app in Hr as [Ra [Rb Rc]%room_app].
    by rewrite out_outs, out_filler_spec, out_chars_spec, !outs_app.
  - rewrite Nat2Z.id. apply room_app in Hr as [Ra Rb].
    by rewrite out_filler_spec, out_chars_spec, outs_app.
Qed.

Lemma out_field_spec left_align width filler s body o :
  stored s 0 body -> 0 <= width < 2147483648 -> filler = chr_space \/ body <> [] ->
  room (field left_align width filler body) o ->
  out_field left_align width filler s (Z.of_nat (length body)) o = outs (field left_align width filler body) o.
Proof using.
  intros Hs Hw Hne Hr. unfold out_field. pose proof (field_length left_align width filler body) as Hlen.
  pose proof Hr as [Hr1 Hr2]. rewrite Hlen in Hr2. set (n := Z.of_nat (length body)) in *.
  rewrite (s32_id (width - n)) by lia. set (pad := Z.to_nat (width - n)).
  replace (if width - n <? 0 then 0 else width - n) with (Z.of_nat pad) by (unfold pad; case_match; lia).
  unfold field in *. fold n in Hr |- *. fold pad in Hr |- *. fold (signed_zeros filler body) in Hr |- *.
  destruct left_align; cbn [negb].
  - replace (Z.of_nat pad <? 0) with false by lia. cbn zeta. unfold n. rewrite !Nat2Z.id.
    apply room_app in Hr as [Ra Rb]. by rewrite out_chars_spec, out_filler_spec, outs_app.
  - rewrite (s32_id (- Z.of_nat pad)) by lia. destruct (Z.ltb_spec (- Z.of_nat pad) 0) as [Hpad|Hpad].
    + rewrite Z.opp_involutive, Nat2Z.id, <- (out_right_spec pad filler s body o Hs Hne Hr).
      fold n. by destruct ((s 0 =? chr_minus) && (filler =? chr_0)).
    + assert (Hp0 : pad = 0%nat) by lia. rewrite Hp0 in *. cbn [repeat app Z.of_nat Z.opp] in *.
      change (Z.to_nat 0) with 0%nat. cbn [out_filler]. unfold n. rewrite Nat2Z.id.
      replace (if signed_zeros filler body then chr_minus :: tail body else body) with body in *;
        [by apply out_chars_spec|].
      destruct (signed_zeros filler body) eqn:E; [|done]. by apply signed_zeros_true in E.
Qed.
End Out.
End Correct.

(** ** Lemmas: reading a directive *)

Lemma flag_spec {A} m fmt (b : bool) x rest (y z : A) : stored m fmt ((if b then [x] else []) ++ rest) ->
  (b = false -> head rest <> Some x) -> rest <> [] ->
  exists fmt', (if m fmt =? x then (y, fmt + 1) else (z, fmt)) = (if b then y else z, fmt') /\
    fmt' = fmt + Z.of_nat (length (if b then [x] else [] : list Z)) /\ stored m fmt' rest.
Proof.
  intros Hs Hb Hr. destruct b; cbn [app length] in *.
  - apply stored_cons in Hs as [-> Hs]. rewrite Z.eqb_refl. by exists (fmt + 1).
  - destruct rest as [|c rest]; [done|]. pose proof Hs as [Hc _]%stored_cons. rewrite Hc.
    specialize (Hb eq_refl). cbn in Hb. rewrite (proj2 (Z.eqb_neq c x)) by congruence.
    exists fmt. by rewrite Z.add_0_r.
Qed.

Lemma enc_long_cons d : exists c rest, enc_long d = c :: rest /\
  (dir_ok d -> ~ starts_number c /\ 0 < c < 256).
Proof.
  unfold enc_long. destruct (d_long d) as [c|] eqn:E; cbn [app]; eexists _, _; (split; [done|]); intros [];
    rewrite E in *.
  - unfold starts_number, chr_0, chr_9, chr_star. unfold chr_l, chr_L in *. lia.
  - tauto.
Qed.

(** The modifier and the conversion character. *)
Lemma long_spec m fmt d c rest : dir_ok d -> enc_long d = c :: rest -> stored m fmt (enc_long d) ->
  (if (c =? chr_l) || (c =? chr_L) then
     if negb (m (fmt + 1) =? 0) then (m (fmt + 1), fmt + 1 + 1) else (c, fmt + 1)
   else (c, fmt + 1)) = (d_conv d, fmt + Z.of_nat (length (enc_long d))).
Proof.
  intros [_ _ _ _ K5 [K6 _]] E Hs. unfold enc_long in *. destruct (d_long d) as [x|]; cbn [app length] in *; injection E as <- <-.
  - apply stored_cons in Hs as [_ [-> _]%stored_cons].
    replace ((x =? chr_l) || (x =? chr_L)) with true by lia. replace (d_conv d =? 0) with false by lia. cbn. f_equal. lia.
  - by replace ((d_conv d =? chr_l) || (d_conv d =? chr_L)) with false by lia.
Qed.

Definition opt_num (m : mem) (l : option (list (option Z))) (ap : Z) : Z * Z :=
  match l with Some l => num_value m l ap 0 | None => (ap, 0) end.

(** The precision, up to the modifier. *)
Lemma prec_spec m fmt d ap fuel : byte_mem m -> dir_ok d -> stored m fmt (enc_prec d) ->
  snd (opt_num m (d_prec d) ap) < 2147483648 -> (length (enc_prec d) < fuel)%nat ->
  exists c0 c rest fmt1, enc_long d = c :: rest /\ m fmt = c0 /\ ~ starts_number c0 /\
    (if c0 =? chr_dot then number_loop fuel m (fmt + 1) ap 0 else Some (c0, fmt + 1, ap, 0)) =
      Some (c, fmt1 + 1, fst (opt_num m (d_prec d) ap), snd (opt_num m (d_prec d) ap)) /\
    fmt1 + Z.of_nat (length (enc_long d)) = fmt + Z.of_nat (length (enc_prec d)) /\
    stored m fmt1 (enc_long d).
Proof.
  intros Hm Hd Hs Hp Hf. destruct (enc_long_cons d) as (c & rest & E & Hc). destruct (Hc Hd) as [Hc1 Hc2].
  pose proof Hd as [_ _ _ Hpr _ _]. unfold enc_prec, opt_num in *.
  destruct (d_prec d) as [l|]; cbn [app length] in *.
  - apply stored_cons in Hs as [E0 Hs]. exists chr_dot, c, rest, (fmt + 1 + Z.of_nat (length l)).
    split; [done|]. split; [done|]. split; [unfold starts_number, chr_0, chr_9, chr_star, chr_dot; lia|].
    assert (Hln : length (enc_num l) = length l) by (unfold enc_num; by rewrite length_map).
    rewrite length_app, Hln in *. split; [|split; [lia|]].
    + rewrite Z.eqb_refl. rewrite (number_loop_spec m c l Hm Hpr Hc1); [done| |lia|done|lia].
      rewrite E in Hs. change (c :: rest) with ([c] ++ rest) in Hs. rewrite app_assoc in Hs. by apply stored_app in Hs as [Hs _].
    + apply stored_app in Hs as [_ Hs]. by rewrite Hln in Hs.
  - exists c, c, rest, fmt. split; [done|]. rewrite E in Hpr. cbn in Hpr.
    split; [rewrite E in Hs; by apply stored_cons in Hs as [? _]|]. split; [done|].
    rewrite (proj2 (Z.eqb_neq c chr_dot)) by congruence. by cbn.
Qed.

Section Prints.
Context (qfp_float2str : Z -> Z -> list Z) (va_arg_align_if_necessary : Z -> Z).
Context (L : nat) (m : mem) (Hm : byte_mem m).
Abbreviation converts := (converts qfp_float2str va_arg_align_if_necessary L m).

(** A list of items prints a text, with the arguments from [ap] on, up to [ap']. *)
Inductive prints : Z -> list item -> list Z -> Z -> Prop :=
  | PrintsEnd ap : prints ap [] [] ap
  | PrintsLit ap c items text ap' : 0 < c < 256 -> c <> chr_percent ->
      prints ap items text ap' -> prints ap (Lit c :: items) (c :: text) ap'
  | PrintsConv ap d f body ap1 items text ap' : dir_ok d ->
      let w := num_value m (d_width d) ap 0 in
      let pr := opt_num m (d_prec d) (fst w) in
      snd w < 2147483648 -> snd pr < 2147483648 ->
      converts (fst pr) (if d_zero d then chr_0 else chr_space) (snd pr) (d_conv d) f body ap1 ->
      prints ap1 items text ap' ->
      prints ap (Conv d :: items) (field (d_left d) (snd w) f body ++ text) ap'.

Context {S : Type} `{Stream S}.

Lemma opt_num_range l ap :
  match l with
  | Some l => Forall (fun o => match o with Some x => 0 <= x <= 9 | None => True end) l
  | None => True end -> 0 <= snd (opt_num m l ap).
Proof using Hm. destruct l as [l|]; cbn; [|done]. intros Hl. by apply num_value_range. Qed.

Lemma directive_spec fmt ap d f body ap' (o : S * Z) fuel : dir_ok d -> stored m fmt (enc_dir d) ->
  let w := num_value m (d_width d) ap 0 in
  let pr := opt_num m (d_prec d) (fst w) in
  snd w < 2147483648 -> snd pr < 2147483648 ->
  converts (fst pr) (if d_zero d then chr_0 else chr_space) (snd pr) (d_conv d) f body ap' ->
  room (field (d_left d) (snd w) f body) o ->
  (length (enc_dir d) < fuel)%nat -> (L < fuel)%nat -> (6 < fuel)%nat ->
  directive qfp_float2str va_arg_align_if_necessary fuel m fmt ap o =
  Some (fmt + Z.of_nat (length (enc_dir d)), ap', outs (field (d_left d) (snd w) f body) o).
Proof using Hm.
  intros Hd Hs w pr Hw Hpr Hc Hroom Hf HL H6. pose proof Hd as [K1 K2 K3 K4 _ [K6 _]].
  assert (Hlong : enc_long d <> []) by (destruct (enc_long_cons d) as (? & ? & -> & _); done).
  assert (Hprec : enc_prec d <> []) by (unfold enc_prec; by destruct (d_prec d)).
  assert (Hwid : enc_width d <> []) by (unfold enc_width; by destruct (enc_num _)).
  assert (Hzero : enc_zero d <> []) by (unfold enc_zero; by destruct (d_zero d)).
  unfold directive. unfold enc_dir in Hs, Hf |- *. rewrite length_app in *.
  destruct (flag_spec m fmt (d_left d) chr_minus (enc_zero d) true false Hs K1 Hzero) as (fmt1 & -> & F1 & Hs1).
  unfold enc_zero in Hs1, Hf |- *. rewrite length_app in *.
  destruct (flag_spec m fmt1 (d_zero d) chr_0 (enc_width d) chr_0 chr_space Hs1 K2 Hwid) as (fmt2 & -> & F2 & Hs2).
  unfold enc_width in Hs2, Hf |- *. rewrite length_app in *. pose proof Hs2 as [_ Hs3]%stored_app.
  unfold enc_num in Hs3, Hf |- *. rewrite length_map in *.
  destruct (prec_spec m _ d (fst w) fuel Hm Hd Hs3 Hpr ltac:(lia))
    as (c0 & c & rest & fmt3 & E & E0 & Hc0 & En & Ef & Hs4).
  rewrite (number_loop_spec m c0 (d_width d) Hm K3 Hc0); [| |lia|exact Hw|lia].
  2:{ apply stored_app. apply stored_app in Hs2 as [Hs2 _]. split; [exact Hs2|]. apply stored_cons.
      split; [|apply stored_nil]. rewrite <- E0. f_equal. unfold enc_num. by rewrite length_map. }
  fold w. rewrite En. fold pr. rewrite (long_spec m fmt3 d c rest Hd E Hs4).
  assert (Hp0 : 0 <= snd pr) by (apply opt_num_range; by destruct (d_prec d)).
  destruct (convert_spec qfp_float2str va_arg_align_if_necessary L m Hm _ _ _ _ _ _ _ fuel Hc) as (s & -> & Hst);
    [split; [exact Hp0|exact Hpr]|exact K6|exact HL|exact H6|].
  replace (if d_left d then true else false) with (d_left d) by (by destruct (d_left d)).
  rewrite out_field_spec; [|done| |eapply converts_nonempty; [exact Hm|exact Hc]|exact Hroom].
  - do 3 f_equal. cbn [Nat.add]. lia.
  - split; [|exact Hw]. by apply num_value_range.
Qed.

Abbreviation chvprintf_loop := (chvprintf_loop qfp_float2str va_arg_align_if_necessary).

Lemma chvprintf_loop_spec ap items text ap' : prints ap items text ap' -> forall fmt (o : S * Z) fuel,
  stored m fmt (encode items) -> room text o -> (length (encode items) + L + 7 < fuel)%nat ->
  chvprintf_loop fuel m fmt ap o =
  chvprintf_loop (fuel - length items) m (fmt + Z.of_nat (length (encode items))) ap' (outs text o).
Proof using Hm.
  induction 1 as [ap|ap c items text ap' Hc Hp Hi IH|ap d f body ap1 items text ap' Hd w pr Hw Hpr Hc Hi IH];
    intros fmt o fuel Hs Hr Hf.
  - unfold outs. cbn [length put_all fold_left]. cbn. rewrite !Z.add_0_r, Nat.sub_0_r. by destruct o.
  - destruct fuel as [|fuel]; [lia|]. cbn [Printf.chvprintf_loop].
    unfold encode in *. cbn [concat map enc_item app length] in *. apply stored_cons in Hs as [-> Hs].
    replace (c =? 0) with false by lia. rewrite (proj2 (Z.eqb_neq c chr_percent)) by done. cbn [negb].
    change (c :: text) with ([c] ++ text) in *. apply room_app in Hr as [H1 H2].
    rewrite out_outs, outs_app by done. rewrite IH by (try done; lia). cbn [Nat.sub]. f_equal. lia.
  - destruct fuel as [|fuel]; [lia|]. cbn [Printf.chvprintf_loop].
    unfold encode in *. cbn [concat map enc_item app length] in *. apply stored_cons in Hs as [-> Hs].
    cbn [Z.eqb Pos.eqb chr_percent negb]. rewrite length_app in *.
    apply stored_app in Hs as [Hs1 Hs2]. apply room_app in Hr as [H1 H2].
    rewrite (directive_spec (fmt + 1) ap d f body ap1 o fuel); [|done|done|done|done|done|done|lia|lia|lia].
    rewrite outs_app, IH by (try done; lia). cbn [Nat.sub]. f_equal. lia.
Qed.

(** The end of the format. *)
Lemma chvprintf_loop_end fmt ap (o : S * Z) fuel : m fmt = 0 -> (0 < fuel)%nat ->
  chvprintf_loop fuel m fmt ap o = Some o.
Proof using. intros Hz Hf. destruct fuel; [lia|]. cbn [Printf.chvprintf_loop]. by rewrite Hz. Qed.

(** A percent sign at the end of the format. *)
Lemma directive_end fmt ap (o : S * Z) fuel : m fmt = 0 -> room [0] o -> (0 < fuel)%nat ->
  directive qfp_float2str va_arg_align_if_necessary fuel m fmt ap o = Some (fmt + 1, ap, outs [0] o).
Proof using.
  intros Hz Hr Hf.
  assert (E : number_loop fuel m fmt ap 0 = Some (0, fmt + 1, ap, 0)).
  { destruct fuel; [lia|]. cbn [number_loop]. by rewrite Hz. }
  unfold directive. rewrite <- (out_outs 0 o Hr).
  replace (m fmt =? chr_minus) with false by (by rewrite Hz).
  replace (m fmt =? chr_0) with false by (by rewrite Hz). rewrite E. done.
Qed.

Lemma encode_length items : (length items <= length (encode items))%nat.
Proof using.
  unfold encode. induction items as [|[c|d] items IH]; cbn [map concat length enc_item app]; [lia|lia|].
  rewrite length_app. lia.
Qed.
End Prints.

(** ** Properties *)

(** C34. chvprintf prints every format the way its directives say, whatever text and
    directives it is made of: each directive prints its argument in a field of the width
    given, on the left or on the right, filled with blanks or with zeros behind the sign.
    It returns, with the number of characters printed, and it never stores outside of its
    local buffer.  (Floats need a conversion that fits in that buffer.) *)
Theorem format_printed {S} `{Stream S} qfp_float2str va_align L m ap items text ap' fmt (chp : S) fuel :
  byte_mem m -> prints qfp_float2str va_align L m ap items text ap' ->
  stored m fmt (encode items ++ [0]) -> Z.of_nat (length text) < 2147483648 ->
  (length (encode items) + L + 7 < fuel)%nat ->
  chvprintf qfp_float2str va_align fuel m chp fmt ap = Some (put_all chp text, Z.of_nat (length text)).
Proof.
  intros Hm Hp [Hs Hz]%stored_app Hl Hf. apply stored_cons in Hz as [Hz _].
  pose proof (encode_length items). unfold chvprintf.
  rewrite (chvprintf_loop_spec _ _ L m Hm ap items text ap' Hp fmt) by (try done; unfold room; cbn; lia).
  rewrite chvprintf_loop_end by (try done; lia). done.
Qed.

(** The example above as items. *)
Definition example_items : list item :=
  [Lit 60; Conv (Dir true false [Some 5] None None 100); Lit 124;
   Conv (Dir false true [Some 5] None None 100); Lit 124; Conv (Dir false false [] None None 88); Lit 124;
   Conv (Dir false false [] (Some [Some 2]) None 115); Lit 62].

Lemma example_memory_bytes : byte_mem example_memory.
Proof.
  unfold example_memory. repeat apply put32_byte_mem. intros a.
  destruct (a <? 100); [apply (bytes_at_byte_mem example_format); repeat constructor; lia|].
  apply (bytes_at_byte_mem [97; 98; 99; 0]). repeat constructor; lia.
Qed.

Ltac dir_ok_tac :=
  constructor; cbn; unfold starts_number, chr_0, chr_9, chr_star, chr_l, chr_L;
  [done|done|repeat first [apply List.Forall_nil|apply List.Forall_cons]; try lia
  |first [done|repeat first [apply List.Forall_nil|apply List.Forall_cons]; lia]|lia|lia].

Lemma example_prints : prints (fun _ _ => []) (fun a => a) 3 example_memory 100 example_items
  [60; 52; 50; 32; 32; 32; 124; 45; 48; 48; 52; 50; 124; 66; 69; 69; 70; 124; 97; 98; 62] 116.
Proof.
  constructor; [lia|done|].
  apply (PrintsConv _ _ 3 example_memory 100 (Dir true false [Some 5] None None 100) 32 [52; 50] 104 _
    (124 :: [45; 48; 48; 52; 50] ++ 124 :: [66; 69; 69; 70] ++ 124 :: [97; 98] ++ [62]));
    [dir_ok_tac|done|done|exact (ConvDecimal (fun _ _ => []) (fun a => a) 3 example_memory 100 32 0 100 ltac:(cbn; auto))|]. constructor; [lia|done|].
  apply (PrintsConv _ _ 3 example_memory 104 (Dir false true [Some 5] None None 100) 48 [45; 52; 50] 108);
    [dir_ok_tac|done|done|exact (ConvDecimal (fun _ _ => []) (fun a => a) 3 example_memory 104 48 0 100 ltac:(cbn; auto))|]. constructor; [lia|done|].
  apply (PrintsConv _ _ 3 example_memory 108 (Dir false false [] None None 88) 32 [66; 69; 69; 70] 112);
    [dir_ok_tac|done|done|exact (ConvHex (fun _ _ => []) (fun a => a) 3 example_memory 108 32 0 88 ltac:(cbn; auto))|]. constructor; [lia|done|].
  apply (PrintsConv _ _ 3 example_memory 112 (Dir false false [] (Some [Some 2]) None 115) 32 [97; 98] 116);
    [dir_ok_tac|done|done| |].
  - apply (ConvString _ _ 3 example_memory 112 32 2 [97; 98; 99]); [done| |cbn; lia].
    split; [|done]. intros i c Hi. do 3 (destruct i as [|i]; [by injection Hi as <-|]). done.
  - constructor; [lia|done|]. constructor.
Qed.

Lemma format_printed_witness :
  chvprintf (fun _ _ => []) (fun a => a) 40 example_memory ([] : list Z) 0 100 =
  Some ([60; 52; 50; 32; 32; 32; 124; 45; 48; 48; 52; 50; 124; 66; 69; 69; 70; 124; 97; 98; 62], 21).
Proof.
  rewrite (format_printed (fun _ _ => []) (fun a => a) 3 example_memory 100 example_items
    [60; 52; 50; 32; 32; 32; 124; 45; 48; 48; 52; 50; 124; 66; 69; 69; 70; 124; 97; 98; 62] 116 0 ([] : list Z) 40
    example_memory_bytes example_prints); [reflexivity| |cbn; lia|cbn; lia].
  intros i c Hi. do 20 (destruct i as [|i]; [by injection Hi as <-|]). done.
Defined.

(** C35. chsnprintf never writes outside of the [size] bytes at [str], whatever it prints.
    With a size that is not 0 the string is terminated, and holds the text, cut off after
    [size - 1] characters; the result is the length of the whole text. *)
Theorem chsnprintf_bounded qfp_float2str va_align L m ap items text ap' fmt str size fuel :
  byte_mem m -> prints qfp_float2str va_align L m ap items text ap' ->
  stored m fmt (encode items ++ [0]) -> Z.of_nat (length text) < 2147483648 ->
  Forall (fun c => is_u8 c) text -> 0 <= size < 2 ^ 32 ->
  (length (encode items) + L + 7 < fuel)%nat ->
  exists m', chsnprintf qfp_float2str va_align fuel m str size fmt ap = Some (m', Z.of_nat (length text)) /\
    same_outside str (str + size) m m' /\
    (0 < size -> stored m' str (take (Z.to_nat (size - 1)) text ++ [0])).
Proof.
  intros Hm Hp Hs Hl Hb Hsz Hf. unfold chsnprintf. set (sz := if 0 <? size then size - 1 else 0).
  assert (Hsz' : 0 <= sz <= size /\ (0 < size -> sz = size - 1) /\ (size = 0 -> sz = 0))
    by (unfold sz; destruct (Z.ltb_spec 0 size); lia).
  rewrite (format_printed qfp_float2str va_align L m ap items text ap' fmt _ fuel Hm Hp Hs Hl Hf).
  destruct (put_all_spec text (msObjectInit str sz 0) m) as (m' & E & Hst & Ho);
    [unfold ms_ok; cbn; lia|done|].
  cbn [ms_size ms_eos ms_buffer msObjectInit] in *. rewrite Z.sub_0_r, Z.add_0_r, ?Z.add_0_l in *. rewrite E.
  set (l := take (Z.to_nat sz) text) in *. assert (Hlen : (length l <= Z.to_nat sz)%nat)
    by (unfold l; rewrite length_take; lia).
  cbn [ms_eos set_eos]. eexists. split; [done|]. destruct (Z.ltb_spec (Z.of_nat (length l)) size) as [Hlt|Hge].
  - split.
    + intros x Hx. unfold put8. replace (x =? str + Z.of_nat (length l)) with false by lia. apply Ho. lia.
    + intros Hpos. replace (Z.to_nat (size - 1)) with (Z.to_nat sz) by lia. fold l. apply stored_app. split.
      * apply (stored_ext m'); [done|]. intros i Hi. unfold put8.
        by replace (str + i =? str + Z.of_nat (length l)) with false by lia.
      * apply stored_cons. split; [|apply stored_nil]. unfold put8. by rewrite Z.eqb_refl.
  - split; [|lia]. intros x Hx. apply Ho. lia.
Qed.

(** Into 8 bytes. *)
Lemma chsnprintf_bounded_witness :
  exists m', chsnprintf (fun _ _ => []) (fun a => a) 40 example_memory 300 8 0 100 = Some (m', 21) /\
    same_outside 300 308 example_memory m' /\ stored m' 300 [60; 52; 50; 32; 32; 32; 124; 0].
Proof.
  destruct (chsnprintf_bounded (fun _ _ => []) (fun a => a) 3 example_memory 100 example_items
    [60; 52; 50; 32; 32; 32; 124; 45; 48; 48; 52; 50; 124; 66; 69; 69; 70; 124; 97; 98; 62] 116 0 300 8 40
    example_memory_bytes example_prints) as (m' & E & Ho & Hs);
    [|cbn; lia|repeat constructor; lia|lia|cbn; lia|].
  - intros i c Hi. do 20 (destruct i as [|i]; [by injection Hi as <-|]). done.
  - exists m'. split; [exact E|]. split; [exact Ho|]. exact (Hs ltac:(lia)).
Defined.

(** C36. A number that itoa writes is read back by simple_strtoul, in every base that
    simple_strtoul knows; the characters end at the pointer itoa returns.  itoa needs 11
    bytes whatever the number, and writes no terminator: here it is put behind the digits
    before the number is read. *)
Theorem itoa_read_back b val radix : 2 <= radix <= 16 -> -2147483648 <= val < 2147483648 ->
  (length (digits radix (u32 val)) <= 11 <= length b)%nat ->
  exists p b', itoa b 0 val radix = Some (p, b') /\ length b' = length b /\
    forall fuel m a, a <> 0 -> (32 < fuel)%nat -> stored m a (take (Z.to_nat p) b') -> m (a + p) = 0 ->
      simple_strtoul fuel m a radix = Some (u32 val, a + p).
Proof.
  intros Hr Hv [Hd Hb]. unfold itoa. change 0 with (Z.of_nat 0) at 1. rewrite ch_ltoa_eq by (try done; lia).
  set (ds := digits radix (u32 val)) in *. eexists _, _. split; [done|].
  split; [by apply after_ltoa_length|]. cbn [Nat.add]. intros fuel m a Ha Hf Hs Hz.
  rewrite Nat2Z.id in Hs. rewrite (after_ltoa_take b 0 ds Hd Hb : take (length ds) _ = _) in Hs.
  apply strtoul_digits; [done|apply u32_range|done|done|exact Hs|exact Hz].
Qed.

Lemma itoa_read_back_witness : exists p b',
  itoa (repeat 7 11) 0 (-1) 16 = Some (p, b') /\ simple_strtoul 33 (bytes_at (0 :: take 8 b' ++ [0])) 1 16 = Some (4294967295, 9).
Proof.
  destruct (itoa_read_back (repeat 7 11) (-1) 16) as (p & b' & E & _ & H); [lia|lia|split; apply Nat.leb_le; by vm_compute|].
  exists p, b'. split; [exact E|].
  assert (Eb : Some (p, b') = Some (8, [70; 70; 70; 70; 70; 70; 70; 70; 70; 70; 70])) by (rewrite <- E; by vm_compute).
  injection Eb as -> ->. apply (H 33%nat); [lia|lia| |by vm_compute].
  intros i c Hi. do 8 (destruct i as [|i]; [by injection Hi as <-|]). done.
Defined.

(** itoa stores outside of the buffer it is given exactly when the buffer has less
    than 11 bytes, whatever the number, or when the number has more than 11 digits: then
    no buffer is long enough, since the store goes to the bytes in front of it.  In base 2
    that happens from 2048 on, and for every negative number. *)
Theorem itoa_overflow b val radix : 2 <= radix <= 36 -> -2147483648 <= val < 2147483648 ->
  (itoa b 0 val radix = None <-> (length b < 11)%nat \/ (11 < length (digits radix (u32 val)))%nat) /\
  (radix = 2 -> val < 0 \/ 2048 <= val -> itoa b 0 val radix = None).
Proof.
  intros Hr Hv. assert (Hiff : itoa b 0 val radix = None <->
    (length b < 11)%nat \/ (11 < length (digits radix (u32 val)))%nat).
  { split; [|intros H; apply ch_ltoa_out; [done|done|tauto]]. intros E.
    destruct (decide (length b < 11)%nat) as [|Hb]; [by left|right]. apply Nat.nle_gt. intros Hd.
    unfold itoa in E. change 0 with (Z.of_nat 0) in E at 1. by rewrite ch_ltoa_eq in E by (try done; lia). }
  split; [exact Hiff|]. intros -> Hbig. apply Hiff. right. apply Nat.nle_gt. intros Hd.
  pose proof (digits_bound 2 ltac:(lia) 32 (u32 val) (u32_range val) ltac:(lia)) as Hh.
  fold (digits 2 (u32 val)) in Hh.
  assert (2 ^ Z.of_nat (length (digits 2 (u32 val))) <= 2 ^ 11) by (apply Z.pow_le_mono_r; lia).
  change (2 ^ 11) with 2048 in *. clear Hd Hiff. wrap_lia.
Qed.

Lemma itoa_overflow_witness : itoa (repeat 0 1000) 0 2048 2 = None /\ itoa (repeat 0 10) 0 7 10 = None.
Proof.
  split.
  - destruct (itoa_overflow (repeat 0 1000) 2048 2) as [_ H]; [lia|lia|]. apply H; lia.
  - destruct (itoa_overflow (repeat 0 10) 7 10) as [[_ H] _]; [lia|lia|]. apply H. left. cbn. lia.
Defined.

(** A format that ends in a percent sign is not printed to its end: the function takes
    the terminator for a conversion character, prints it, and goes on to print as a
    format what the memory behind the format holds. *)
Theorem percent_at_end {S} `{Stream S} qfp_float2str va_align L m ap items text ap' items2 text2 ap2 fmt (chp : S) fuel :
  byte_mem m -> prints qfp_float2str va_align L m ap items text ap' ->
  prints qfp_float2str va_align L m ap' items2 text2 ap2 ->
  stored m fmt (encode items ++ [chr_percent; 0]) ->
  stored m (fmt + Z.of_nat (length (encode items)) + 2) (encode items2 ++ [0]) ->
  Z.of_nat (length (text ++ [0] ++ text2)) < 2147483648 ->
  (length (encode items) + 1 + length (encode items2) + L + 7 < fuel)%nat ->
  chvprintf qfp_float2str va_align fuel m chp fmt ap =
  Some (put_all chp (text ++ [0] ++ text2), Z.of_nat (length (text ++ [0] ++ text2))).
Proof.
  intros Hm Hp Hp2 [Hs Hz]%stored_app Hs2 Hl Hf. apply stored_cons in Hz as [Hz [Hz2 _]%stored_cons].
  apply stored_app in Hs2 as [Hs2 [Hz3 _]%stored_cons].
  pose proof (encode_length items). pose proof (encode_length items2). unfold chvprintf.
  assert (Hr : room (text ++ [0] ++ text2) (chp, 0)) by (unfold room; cbn [snd]; lia).
  apply room_app in Hr as [R1 [R2 R3]%room_app].
  rewrite (chvprintf_loop_spec _ _ L m Hm ap items text ap' Hp fmt) by (try done; lia).
  destruct (fuel - length items)%nat as [|fuel1] eqn:Ef; [lia|]. cbn [chvprintf_loop]. rewrite Hz.
  change (chr_percent =? 0) with false. change (negb (chr_percent =? chr_percent)) with false.
  rewrite directive_end by (try done; lia).
  rewrite <- Z.add_assoc.
  rewrite (chvprintf_loop_spec _ _ L m Hm ap' items2 text2 ap2 Hp2) by (try done; lia).
  rewrite chvprintf_loop_end by (try done; lia). by rewrite <- !outs_app.
Qed.

(** "%" followed by a secret. *)
Lemma percent_at_end_witness :
  chvprintf (fun _ _ => []) (fun a => a) 20 (bytes_at [37; 0; 75; 69; 89; 0]) ([] : list Z) 0 100 =
  Some ([0; 75; 69; 89], 4).
Proof.
  assert (Hm : byte_mem (bytes_at [37; 0; 75; 69; 89; 0])) by (apply bytes_at_byte_mem; repeat constructor; lia).
  rewrite (percent_at_end (fun _ _ => []) (fun a => a) 0 (bytes_at [37; 0; 75; 69; 89; 0]) 100 [] [] 100
    [Lit 75; Lit 69; Lit 89] [75; 69; 89] 100 0 ([] : list Z) 20 Hm); [reflexivity|constructor| | | |cbn; lia|cbn; lia].
  - repeat (constructor; [lia|done|]). constructor.
  - intros i c Hi. do 2 (destruct i as [|i]; [by injection Hi as <-|]). done.
  - intros i c Hi. do 4 (destruct i as [|i]; [by injection Hi as <-|]). done.
Defined.
