(* ===== verification/Queues.v ===== *)
(** Thread queues of the kernel (the inline functions of os/rt/include/chschd.h, and
    the ready-list part of chSysIntegrityCheckI in os/rt/src/chsys.c).

    A queue is a circular doubly linked list through a header; threads and headers
    are addresses that share the layout of [p_next] and [p_prev].  All the queues of the
    kernel live in one memory, [links].  [linked m qs] says that this memory represents
    the queues [qs], a map from headers to lists of threads.  Proved: every operation
    of the code does to the memory what the corresponding list operation does to one of
    the lists, and leaves all other queues alone; a loop over a queue ends when the
    fuel exceeds its length; and the integrity check accepts every well-formed queue. *)
From S2P Require Import Prelude.
Local Open Scope Z_scope.

(** ** The operations *)

Definition upd {A} (a : Z) (v : A) (f : Z -> A) : Z -> A := fun x => if x =? a then v else f x.

Record links : Type := Links { p_next : Z -> Z; p_prev : Z -> Z }.
Definition set_p_next (a v : Z) (m : links) : links := Links (upd a v (p_next m)) (p_prev m).
Definition set_p_prev (a v : Z) (m : links) : links := Links (p_next m) (upd a v (p_prev m)).

Definition queue_init (tqp : Z) (m : links) : links := set_p_prev tqp tqp (set_p_next tqp tqp m).
Definition queue_isempty (tqp : Z) (m : links) : bool := p_next m tqp =? tqp.
Definition queue_notempty (tqp : Z) (m : links) : bool := negb (p_next m tqp =? tqp).

(** [do cp = cp->p_next; while (...)], with the condition as an argument. *)
Fixpoint prio_scan (fuel : nat) (more : Z -> bool) (m : links) (cp : Z) : option Z :=
  match fuel with
  | O => None
  | S fuel => let cp := p_next m cp in if more cp then prio_scan fuel more m cp else Some cp
  end.

(** The insertion of [tp] before [cp]. *)
Definition insert_before (cp tp : Z) (m : links) : links :=
  let m := set_p_next tp cp m in
  let m := set_p_prev tp (p_prev m cp) m in
  let m := set_p_next (p_prev m tp) tp m in
  set_p_prev cp tp m.

Definition queue_prio_insert (fuel : nat) (prio : Z -> Z) (tp tqp : Z) (m : links) : option links :=
  match prio_scan fuel (fun cp => negb (cp =? tqp) && (prio tp <=? prio cp)) m tqp with
  | None => None
  | Some cp => Some (insert_before cp tp m)
  end.

Definition queue_insert (tp tqp : Z) (m : links) : links :=
  let m := set_p_next tp tqp m in
  let m := set_p_prev tp (p_prev m tqp) m in
  let m := set_p_next (p_prev m tp) tp m in
  set_p_prev tqp tp m.

Definition queue_fifo_remove (tqp : Z) (m : links) : Z * links :=
  let tp := p_next m tqp in
  let m := set_p_next tqp (p_next m tp) m in
  let m := set_p_prev (p_next m tqp) tqp m in
  (tp, m).

Definition queue_lifo_remove (tqp : Z) (m : links) : Z * links :=
  let tp := p_prev m tqp in
  let m := set_p_prev tqp (p_prev m tp) m in
  let m := set_p_next (p_prev m tqp) tqp m in
  (tp, m).

Definition queue_dequeue (tp : Z) (m : links) : links :=
  let m := set_p_next (p_prev m tp) (p_next m tp) m in
  set_p_prev (p_next m tp) (p_prev m tp) m.

(** Both scans of the integrity check: the number of threads met before the header. *)
Fixpoint count_links (fuel : nat) (next : Z -> Z) (tqp tp n step : Z) : option Z :=
  match fuel with
  | O => None
  | S fuel => if tp =? tqp then Some n else count_links fuel next tqp (next tp) (s32 (n + step)) step
  end.
Definition integrity_rlist (fuel : nat) (rlist : Z) (m : links) : option bool :=
  match count_links fuel (p_next m) rlist (p_next m rlist) 0 1 with
  | None => None
  | Some n =>
      match count_links fuel (p_prev m) rlist (p_prev m rlist) n (-1) with
      | None => None
      | Some n => Some (negb (n =? 0))
      end
  end.

(** ** The lists they represent *)

(** A doubly linked segment from [a] through [l] to [b]. *)
Fixpoint seg (m : links) (a : Z) (l : list Z) (b : Z) : Prop :=
  match l with
  | [] => p_next m a = b /\ p_prev m b = a
  | x :: r => p_next m a = x /\ p_prev m x = a /\ seg m x r b
  end.

(** Insertion behind the prefix that satisfies [more]. *)
Fixpoint place (more : Z -> bool) (tp : Z) (l : list Z) : list Z :=
  match l with
  | [] => [tp]
  | x :: r => if more x then x :: place more tp r else tp :: l
  end.

Record linked (m : links) (qs : gmap Z (list Z)) : Prop := {
  li_seg : forall h l, qs !! h = Some l -> seg m h l h;
  li_nodup : forall h l, qs !! h = Some l -> NoDup (h :: l);
  li_apart : forall h1 l1 h2 l2 x, qs !! h1 = Some l1 -> qs !! h2 = Some l2 ->
    In x (h1 :: l1) -> In x (h2 :: l2) -> h1 = h2
}.

(** An address that is in no queue. *)
Definition unqueued (qs : gmap Z (list Z)) (tp : Z) : Prop :=
  forall h l, qs !! h = Some l -> ~ In tp (h :: l).

(** ** Segments *)

Lemma seg_app m a l1 x l2 b : seg m a (l1 ++ x :: l2) b <-> seg m a l1 x /\ seg m x l2 b.
Proof.
  revert a. induction l1 as [|y l1 IH]; intros a; cbn; [tauto|]. rewrite IH. tauto.
Qed.

Definition lasth (a : Z) (l : list Z) : Z := List.last l a.
Definition headh (b : Z) (l : list Z) : Z := match l with [] => b | x :: _ => x end.

Lemma lasth_cons a x l : lasth a (x :: l) = lasth x l.
Proof.
  unfold lasth. revert a x. induction l as [|y l IH]; intros a x; [done|].
  change (List.last (x :: y :: l) a) with (List.last (y :: l) a). by rewrite !IH.
Qed.

Lemma seg_ends m a l b : seg m a l b -> p_next m a = headh b l /\ p_prev m b = lasth a l.
Proof.
  revert a. induction l as [|x l IH]; intros a; cbn [seg headh]; [done|].
  intros (H1 & H2 & H3). split; [done|]. destruct (IH x H3) as [_ E]. by rewrite E, lasth_cons.
Qed.

Lemma lasth_in a l : In (lasth a l) (a :: l).
Proof.
  revert a. induction l as [|x l IH]; intros a; [by left|]. rewrite lasth_cons. right. apply IH.
Qed.

Lemma seg_frame m m' a l b :
  (forall x, In x (a :: l) -> p_next m' x = p_next m x) ->
  (forall x, In x (l ++ [b]) -> p_prev m' x = p_prev m x) -> seg m a l b -> seg m' a l b.
Proof.
  revert a. induction l as [|x l IH]; intros a Hn Hp; cbn.
  - rewrite (Hn a), (Hp b); cbn; auto.
  - rewrite (Hn a ltac:(by left)), (Hp x ltac:(by left)). intros (H1 & H2 & H3).
    split; [done|split; [done|]]. apply IH; [|  |done].
    + intros y Hy. apply Hn. by right.
    + intros y Hy. apply Hp. by right.
Qed.

(** A segment whose last link was redirected. *)
Lemma seg_relink m m' a l b c :
  seg m a l b -> NoDup (a :: l) ->
  (forall x, In x (a :: l) -> x <> lasth a l -> p_next m' x = p_next m x) ->
  (forall x, In x l -> p_prev m' x = p_prev m x) ->
  p_next m' (lasth a l) = c -> p_prev m' c = lasth a l -> seg m' a l c.
Proof.
  revert a. induction l as [|x l IH]; intros a; [cbn; auto|].
  intros (H1 & H2 & H3) [Ha Hnd]%list.NoDup_cons Hn Hp Hl1 Hl2. cbn [seg].
  rewrite list_elem_of_In in Ha.
  rewrite lasth_cons in *. assert (Hin := lasth_in x l).
  split; [|split].
  - rewrite Hn; [done|by left|]. intros E. apply Ha. rewrite E. exact Hin.
  - rewrite Hp; [done|by left].
  - apply IH; [done|done| | |done|done].
    + intros y Hy. apply Hn. by right.
    + intros y Hy. apply Hp. by right.
Qed.

(** ** Insertion and removal in one queue *)

Lemma insert_before_words cp tp m x :
  p_next (insert_before cp tp m) x =
    (if x =? p_prev m cp then tp else if x =? tp then cp else p_next m x) /\
  p_prev (insert_before cp tp m) x =
    (if x =? cp then tp else if x =? tp then p_prev m cp else p_prev m x).
Proof.
  unfold insert_before. cbn. unfold upd. by rewrite Z.eqb_refl.
Qed.

Lemma queue_dequeue_words tp m x : p_prev m tp <> tp ->
  p_next (queue_dequeue tp m) x = (if x =? p_prev m tp then p_next m tp else p_next m x) /\
  p_prev (queue_dequeue tp m) x = (if x =? p_next m tp then p_prev m tp else p_prev m x).
Proof.
  intros H. unfold queue_dequeue. cbn. unfold upd. by rewrite (proj2 (Z.eqb_neq tp _)) by auto.
Qed.

Lemma queue_insert_before tp tqp m : queue_insert tp tqp m = insert_before tqp tp m.
Proof. reflexivity. Qed.

(** The parts of a list without repetitions. *)
Lemma nodup_parts (l1 l2 : list Z) : NoDup (l1 ++ l2) ->
  NoDup l1 /\ NoDup l2 /\ forall x, In x l1 -> In x l2 -> False.
Proof.
  intros (H1 & H2 & H3)%list.NoDup_app. split; [done|split; [done|]]. intros x Hx Hx2.
  by apply (H2 x); apply list_elem_of_In.
Qed.

Lemma seg_prev_head m h l1 l2 : seg m h (l1 ++ l2) h -> p_prev m (headh h l2) = lasth h l1.
Proof.
  destruct l2 as [|c r]; [rewrite app_nil_r; by intros [_ H]%seg_ends|].
  intros [H _]%seg_app. by apply seg_ends in H as [_ H].
Qed.

Lemma insert_seg m h l1 l2 tp : seg m h (l1 ++ l2) h -> NoDup (h :: l1 ++ l2) -> ~ In tp (h :: l1 ++ l2) ->
  seg (insert_before (headh h l2) tp m) h (l1 ++ tp :: l2) h.
Proof.
  intros Hs Hnd Ht. assert (Hpr := seg_prev_head _ _ _ _ Hs).
  change (h :: l1 ++ l2) with ((h :: l1) ++ l2) in *. rewrite in_app_iff in Ht.
  apply nodup_parts in Hnd as (Hnd1 & Hnd2 & Hd).
  assert (Hl1 : forall x, In x (h :: l1) -> x <> tp) by (intros x Hx ->; tauto).
  assert (Hl2 : forall x, In x l2 -> x <> tp) by (intros x Hx ->; tauto).
  assert (Hcp : forall x, In x l1 -> x <> headh h l2).
  { intros x Hx ->. destruct l2 as [|c r]; cbn in Hx.
    - apply list.NoDup_cons in Hnd1 as [Hh _]. by rewrite list_elem_of_In in Hh.
    - apply (Hd c); [by right|by left]. }
  assert (Hne : tp <> headh h l2).
  { destruct l2 as [|c r]; cbn; apply not_eq_sym; [apply Hl1; by left|apply Hl2; by left]. }
  pose proof (fun x => proj1 (insert_before_words (headh h l2) tp m x)) as Hn.
  pose proof (fun x => proj2 (insert_before_words (headh h l2) tp m x)) as Hp. rewrite Hpr in Hn, Hp.
  assert (Hlast := lasth_in h l1). apply seg_app. split.
  - apply (seg_relink m _ h l1 (headh h l2)); [| done | | | |].
    + destruct l2 as [|c r]; [by rewrite app_nil_r in Hs|exact (proj1 (proj1 (seg_app _ _ _ _ _ _) Hs))].
    + intros x Hx Hxl. rewrite Hn. rewrite (proj2 (Z.eqb_neq x _)) by done.
      by rewrite (proj2 (Z.eqb_neq x tp)) by auto.
    + intros x Hx. rewrite Hp. rewrite (proj2 (Z.eqb_neq x _)) by auto.
      by rewrite (proj2 (Z.eqb_neq x tp)) by (apply Hl1; by right).
    + by rewrite Hn, Z.eqb_refl.
    + rewrite Hp. rewrite (proj2 (Z.eqb_neq tp _)) by done. by rewrite Z.eqb_refl.
  - assert (Hnt : p_next (insert_before (headh h l2) tp m) tp = headh h l2).
    { rewrite Hn. rewrite (proj2 (Z.eqb_neq tp _)) by (apply not_eq_sym; auto). by rewrite Z.eqb_refl. }
    assert (Hpt : p_prev (insert_before (headh h l2) tp m) (headh h l2) = tp) by (by rewrite Hp, Z.eqb_refl).
    destruct l2 as [|c r]; cbn [seg headh] in *; [done|]. split; [done|split; [done|]].
    apply seg_app in Hs as [_ Hs]. apply (seg_frame m); [| |done].
    + intros x Hx. rewrite Hn. rewrite (proj2 (Z.eqb_neq x _)) by (intros ->; by apply (Hd _ Hlast)).
      by rewrite (proj2 (Z.eqb_neq x tp)) by auto.
    + apply list.NoDup_cons in Hnd2 as [Hc _]. rewrite list_elem_of_In in Hc.
      intros x Hx. rewrite Hp. rewrite in_app_iff in Hx.
      rewrite (proj2 (Z.eqb_neq x c)); [rewrite (proj2 (Z.eqb_neq x tp)); [done|]|].
      * destruct Hx as [Hx|[<-|[]]]; [apply Hl2; by right|apply Hl1; by left].
      * intros ->. destruct Hx as [Hx|[->|[]]]; [done|]. apply (Hd c); by left.
Qed.

Lemma remove_seg m h l1 l2 tp : seg m h (l1 ++ tp :: l2) h -> NoDup (h :: l1 ++ tp :: l2) ->
  p_next m tp = headh h l2 /\ p_prev m tp = lasth h l1 /\ seg (queue_dequeue tp m) h (l1 ++ l2) h.
Proof.
  intros Hs Hnd. change (h :: l1 ++ tp :: l2) with ((h :: l1) ++ tp :: l2) in Hnd.
  apply nodup_parts in Hnd as (Hnd1 & Hnd2 & Hd). apply list.NoDup_cons in Hnd2 as [Htp Hnd2].
  rewrite list_elem_of_In in Htp. apply seg_app in Hs as [Hs1 Hs2].
  destruct (seg_ends _ _ _ _ Hs1) as [_ Hpr]. destruct (seg_ends _ _ _ _ Hs2) as [Hnx _].
  split; [done|split; [done|]]. assert (Hlast := lasth_in h l1).
  assert (Hne : p_prev m tp <> tp).
  { rewrite Hpr. intros E. rewrite E in Hlast. apply (Hd tp); [done|by left]. }
  pose proof (fun x => proj1 (queue_dequeue_words tp m x Hne)) as Hn.
  pose proof (fun x => proj2 (queue_dequeue_words tp m x Hne)) as Hp. rewrite Hpr, Hnx in *.
  assert (Hcp : forall x, In x l1 -> x <> headh h l2).
  { intros x Hx ->. destruct l2 as [|c r]; cbn in Hx.
    - apply list.NoDup_cons in Hnd1 as [Hh _]. by rewrite list_elem_of_In in Hh.
    - apply (Hd c); [by right|right; by left]. }
  assert (Hfirst : seg (queue_dequeue tp m) h l1 (headh h l2)).
  { apply (seg_relink m _ h l1 tp); [done|done| | | |].
    - intros x Hx Hxl. rewrite Hn. by rewrite (proj2 (Z.eqb_neq x _)).
    - intros x Hx. rewrite Hp. by rewrite (proj2 (Z.eqb_neq x _)) by auto.
    - by rewrite Hn, Z.eqb_refl.
    - by rewrite Hp, Z.eqb_refl. }
  destruct l2 as [|c r]; cbn [headh] in *; [by rewrite app_nil_r|]. apply seg_app. split; [done|].
  destruct Hs2 as (_ & _ & Hs2). apply (seg_frame m); [| |done].
  - intros x Hx. rewrite Hn. rewrite (proj2 (Z.eqb_neq x _)); [done|]. intros ->.
    apply (Hd _ Hlast). by right.
  - apply list.NoDup_cons in Hnd2 as [Hc _]. rewrite list_elem_of_In in Hc.
    intros x Hx. rewrite Hp, (proj2 (Z.eqb_neq x c)); [done|]. intros ->. rewrite in_app_iff in Hx.
    destruct Hx as [Hx|[->|[]]]; [done|]. apply (Hd c); [by left|right; by left].
Qed.

(** ** All queues together *)

Lemma linked_update m m' qs h l l' :
  linked m qs -> qs !! h = Some l -> seg m' h l' h -> NoDup (h :: l') ->
  (forall x, In x l' -> In x l \/ unqueued qs x) ->
  (forall x, ~ In x (h :: l) -> ~ In x l' -> p_next m' x = p_next m x /\ p_prev m' x = p_prev m x) ->
  linked m' (<[h := l']> qs).
Proof.
  intros [Hs Hn Ha] Hl Hseg Hnd Hin Hframe.
  assert (Hout : forall h2 l2 x, h2 <> h -> qs !! h2 = Some l2 -> In x (h2 :: l2) -> In x (h :: l') -> False).
  { intros h2 l2 x Hne H2 Hx [<-|Hx']; [apply Hne; apply (Ha h2 l2 h l h); auto; by left|].
    destruct (Hin x Hx') as [Hxl|Hu]; [|by apply (Hu h2 l2)].
    apply Hne. apply (Ha h2 l2 h l x); auto. by right. }
  constructor.
  - intros h2 l2. destruct (decide (h2 = h)) as [->|Hne].
    + rewrite lookup_insert_eq. by intros [= <-].
    + rewrite lookup_insert_ne by auto. intros H2. apply (seg_frame m); [| |by apply Hs].
      all: intros x Hx; apply Hframe; intros Hxl.
      all: assert (Hx2 : In x (h2 :: l2)) by
        (cbn in *; rewrite ?in_app_iff in Hx; cbn in Hx; tauto).
      1,3: apply Hne; by apply (Ha h2 l2 h l x).
      all: by apply (Hout h2 l2 x); [| | |right].
  - intros h2 l2. destruct (decide (h2 = h)) as [->|Hne].
    + rewrite lookup_insert_eq. by intros [= <-].
    + rewrite lookup_insert_ne by auto. apply Hn.
  - intros h1 l1 h2 l2 x. destruct (decide (h1 = h)) as [->|N1], (decide (h2 = h)) as [->|N2];
      rewrite ?lookup_insert_eq, ?lookup_insert_ne by auto; intros E1 E2 X1 X2.
    + done.
    + injection E1 as <-. exfalso. by apply (Hout h2 l2 x).
    + injection E2 as <-. exfalso. by apply (Hout h1 l1 x).
    + by apply (Ha h1 l1 h2 l2 x).
Qed.

Lemma linked_insert m qs h l1 l2 tp :
  linked m qs -> qs !! h = Some (l1 ++ l2) -> unqueued qs tp ->
  linked (insert_before (headh h l2) tp m) (<[h := l1 ++ tp :: l2]> qs).
Proof.
  intros Hl Hq Hu. pose proof Hl as [Hs Hn _]. specialize (Hs h _ Hq). specialize (Hn h _ Hq).
  assert (Htp := Hu h _ Hq). assert (Hpr := seg_prev_head _ _ _ _ Hs).
  apply (linked_update m _ qs h (l1 ++ l2)); [done|done|by apply insert_seg| | |].
  - change (h :: l1 ++ tp :: l2) with ((h :: l1) ++ tp :: l2). rewrite <- Permutation_middle.
    constructor; [|done]. by rewrite list_elem_of_In.
  - intros x. rewrite !in_app_iff. cbn. intros [H|[<-|H]]; auto.
  - intros x Hx1 Hx2. rewrite in_app_iff in Hx2. cbn in Hx2.
    destruct (insert_before_words (headh h l2) tp m x) as [-> ->]. rewrite Hpr.
    assert (Hxl : x <> lasth h l1).
    { intros ->. apply Hx1. destruct (lasth_in h l1) as [E|E]; [left; exact E|right].
      apply in_app_iff. by left. }
    assert (Hxh : x <> headh h l2).
    { intros ->. destruct l2 as [|c r]; cbn [headh] in *; apply Hx1; [by left|].
      right. apply in_app_iff. cbn. auto. }
    rewrite (proj2 (Z.eqb_neq _ _) Hxl), (proj2 (Z.eqb_neq _ _) Hxh).
    rewrite (proj2 (Z.eqb_neq x tp)); [done|]. intros ->. tauto.
Qed.

Lemma linked_dequeue m qs h l1 l2 tp :
  linked m qs -> qs !! h = Some (l1 ++ tp :: l2) ->
  linked (queue_dequeue tp m) (<[h := l1 ++ l2]> qs).
Proof.
  intros Hl Hq. pose proof Hl as [Hs Hn _]. specialize (Hs h _ Hq). specialize (Hn h _ Hq).
  destruct (remove_seg _ _ _ _ _ Hs Hn) as (Hnx & Hpr & Hseg).
  apply (linked_update m _ qs h (l1 ++ tp :: l2)); [done|done|done| | |].
  - change (h :: l1 ++ tp :: l2) with ((h :: l1) ++ tp :: l2) in Hn. rewrite <- Permutation_middle in Hn.
    by apply list.NoDup_cons in Hn as [_ Hn].
  - intros x. rewrite !in_app_iff. cbn. tauto.
  - intros x Hx1 _. assert (Hne : p_prev m tp <> tp).
    { rewrite Hpr. intros E. change (h :: l1 ++ tp :: l2) with ((h :: l1) ++ tp :: l2) in Hn.
      apply nodup_parts in Hn as (_ & _ & Hd). apply (Hd tp); [|by left]. rewrite <- E. apply lasth_in. }
    destruct (queue_dequeue_words tp m x Hne) as [-> ->]. rewrite Hpr, Hnx.
    rewrite (proj2 (Z.eqb_neq x (lasth h l1))), (proj2 (Z.eqb_neq x (headh h l2))); [done| |].
    + intros ->. destruct l2 as [|c r]; cbn [headh] in *; apply Hx1; [by left|].
      right. apply in_app_iff. cbn. auto.
    + intros ->. apply Hx1. destruct (lasth_in h l1) as [E|E]; [left; exact E|right].
      apply in_app_iff. by left.
Qed.

Lemma linked_init m qs h : linked m qs -> unqueued qs h -> linked (queue_init h m) (<[h := []]> qs).
Proof.
  intros [Hs Hn Ha] Hu. constructor.
  - intros h2 l2. destruct (decide (h2 = h)) as [->|Hne].
    + rewrite lookup_insert_eq. intros [= <-]. cbn. unfold upd. by rewrite Z.eqb_refl.
    + rewrite lookup_insert_ne by auto. intros H2. apply (seg_frame m); [| |by apply Hs].
      all: intros x Hx; cbn; unfold upd; rewrite (proj2 (Z.eqb_neq x h)); [done|]; intros ->.
      all: apply (Hu h2 l2 H2); cbn in *; rewrite ?in_app_iff in Hx; cbn in Hx; tauto.
  - intros h2 l2. destruct (decide (h2 = h)) as [->|Hne].
    + rewrite lookup_insert_eq. intros [= <-]. constructor; [by intros ?%elem_of_nil|constructor].
    + rewrite lookup_insert_ne by auto. apply Hn.
  - intros h1 l1 h2 l2 x. destruct (decide (h1 = h)) as [->|N1], (decide (h2 = h)) as [->|N2];
      rewrite ?lookup_insert_eq, ?lookup_insert_ne by auto; intros E1 E2 X1 X2.
    + done.
    + injection E1 as <-. destruct X1 as [<-|[]]. by destruct (Hu h2 l2 E2).
    + injection E2 as <-. destruct X2 as [<-|[]]. by destruct (Hu h1 l1 E1).
    + by apply (Ha h1 l1 h2 l2 x).
Qed.

(** The removals from the ends are removals. *)
Lemma fifo_remove_dequeue m qs h x l : linked m qs -> qs !! h = Some (x :: l) ->
  queue_fifo_remove h m = (x, queue_dequeue x m).
Proof.
  intros [Hs Hn _] Hq. specialize (Hs h _ Hq). specialize (Hn h _ Hq).
  destruct (remove_seg m h [] l x Hs Hn) as (_ & Hpr & _). destruct Hs as (Hx & _ & _).
  unfold queue_fifo_remove, queue_dequeue. rewrite Hx, Hpr. unfold lasth. cbn. unfold upd.
  rewrite Z.eqb_refl. assert (Hne : x <> h).
  { apply list.NoDup_cons in Hn as [Hn _]. rewrite list_elem_of_In in Hn. intros ->. apply Hn. by left. }
  rewrite (proj2 (Z.eqb_neq _ _) Hne), Hpr. done.
Qed.

Lemma lifo_remove_dequeue m qs h x l : linked m qs -> qs !! h = Some (l ++ [x]) ->
  queue_lifo_remove h m = (x, queue_dequeue x m).
Proof.
  intros [Hs Hn _] Hq. specialize (Hs h _ Hq). specialize (Hn h _ Hq).
  assert (Hx : p_prev m h = x).
  { apply seg_ends in Hs as [_ E]. rewrite E. unfold lasth. apply List.last_last. }
  destruct (remove_seg m h l [] x Hs Hn) as (Hnx & Hpr & _). cbn in Hnx.
  unfold queue_lifo_remove, queue_dequeue. rewrite Hx, Hnx. cbn. unfold upd. rewrite Z.eqb_refl.
  assert (Hne : x <> lasth h l).
  { intros E. change (h :: l ++ [x]) with ((h :: l) ++ [x]) in Hn.
    apply nodup_parts in Hn as (_ & _ & Hd). apply (Hd x); [|by left]. rewrite E. apply lasth_in. }
  rewrite Hpr, (proj2 (Z.eqb_neq _ _) Hne), Hnx. done.
Qed.

Lemma queue_notempty_spec m qs h l : linked m qs -> qs !! h = Some l ->
  queue_notempty h m = match l with [] => false | _ => true end.
Proof.
  intros [Hs Hn _] Hq. specialize (Hs h _ Hq). specialize (Hn h _ Hq). unfold queue_notempty.
  destruct (seg_ends _ _ _ _ Hs) as [-> _]. destruct l as [|x l]; cbn; [by rewrite Z.eqb_refl|].
  apply list.NoDup_cons in Hn as [Hn _]. rewrite list_elem_of_In in Hn.
  rewrite (proj2 (Z.eqb_neq x h)); [done|]. intros ->. apply Hn. by left.
Qed.

(** ** The insertion by priority *)

Lemma place_split more tp l : exists l1 l2, l = l1 ++ l2 /\ place more tp l = l1 ++ tp :: l2 /\
  (forall x, In x l1 -> more x = true) /\ match l2 with [] => True | c :: _ => more c = false end.
Proof.
  induction l as [|x l (l1 & l2 & -> & E & H1 & H2)]; cbn.
  - by exists [], [].
  - destruct (more x) eqn:Ex.
    + exists (x :: l1), l2. cbn. rewrite E. split; [done|split; [done|split; [|done]]].
      intros y [<-|Hy]; auto.
    + exists [], (x :: l1 ++ l2). split; [done|split; [done|split; [by intros y []|done]]].
Qed.

Lemma place_in more tp l x : In x (place more tp l) <-> x = tp \/ In x l.
Proof.
  destruct (place_split more tp l) as (l1 & l2 & -> & -> & _). rewrite !in_app_iff. cbn.
  split; intuition congruence.
Qed.

Lemma prio_scan_spec more m h l2 : (match l2 with [] => more h = false | c :: _ => more c = false end) ->
  forall l1 a fuel, seg m a (l1 ++ l2) h -> (forall x, In x l1 -> more x = true) ->
  (length l1 < fuel)%nat -> prio_scan fuel more m a = Some (headh h l2).
Proof.
  intros Hl2. induction l1 as [|x l1 IH]; intros a fuel Hs Hm Hf;
    (destruct fuel as [|fuel]; [cbn in Hf; lia|]); cbn [prio_scan].
  - apply seg_ends in Hs as [-> _]. cbn [app]. destruct l2; cbn in *; by rewrite Hl2.
  - destruct Hs as (-> & _ & Hs). rewrite Hm by (by left). apply IH; [done| |cbn in Hf; lia].
    intros y Hy. apply Hm. by right.
Qed.

(** A scan and the insertion where it stopped. *)
Lemma scan_insert more m qs h l tp fuel :
  linked m qs -> qs !! h = Some l -> unqueued qs tp -> more h = false -> (length l < fuel)%nat ->
  exists cp, prio_scan fuel more m h = Some cp /\
    linked (insert_before cp tp m) (<[h := place more tp l]> qs).
Proof.
  intros Hl Hq Hu Hh Hf. destruct (place_split more tp l) as (l1 & l2 & -> & -> & H1 & H2).
  exists (headh h l2). split; [|by apply linked_insert].
  rewrite length_app in Hf. apply (prio_scan_spec more m h l2) with l1; [|by apply Hl|done|lia].
  by destruct l2.
Qed.

Lemma place_ext (more more' : Z -> bool) tp l : (forall x, In x l -> more x = more' x) ->
  place more tp l = place more' tp l.
Proof.
  induction l as [|x l IH]; intros H; cbn; [done|]. rewrite (H x) by (by left).
  rewrite IH; [done|]. intros y Hy. apply H. by right.
Qed.

Lemma queue_prio_insert_ok prio m qs h l tp fuel :
  linked m qs -> qs !! h = Some l -> unqueued qs tp -> (length l < fuel)%nat ->
  exists m', queue_prio_insert fuel prio tp h m = Some m' /\
    linked m' (<[h := place (fun x => prio tp <=? prio x) tp l]> qs).
Proof.
  intros Hl Hq Hu Hf. unfold queue_prio_insert.
  destruct (scan_insert (fun cp => negb (cp =? h) && (prio tp <=? prio cp)) m qs h l tp fuel)
    as (cp & -> & H); [done..|by rewrite Z.eqb_refl|done|].
  exists (insert_before cp tp m). split; [done|]. 
  rewrite (place_ext _ (fun cp => negb (cp =? h) && (prio tp <=? prio cp))); [exact H|].
  intros x Hx. cbv beta. rewrite (proj2 (Z.eqb_neq x h)); [done|]. intros ->.
  apply li_nodup with (h := h) (l := l) in Hl; [|done]. apply list.NoDup_cons in Hl as [Hl _].
  by rewrite list_elem_of_In in Hl.
Qed.

(** ** The integrity check *)

Lemma count_forward m h : forall l a n fuel, seg m a l h -> ~ In h l ->
  (length l < fuel)%nat -> 0 <= n -> n + Z.of_nat (length l) < 2147483648 ->
  count_links fuel (p_next m) h (p_next m a) n 1 = Some (n + Z.of_nat (length l)).
Proof.
  induction l as [|x l IH]; intros a n fuel Hs Hh Hf Hn Hb;
    (destruct fuel as [|fuel]; [cbn in Hf; lia|]); cbn [count_links length].
  - destruct Hs as [-> _]. rewrite Z.eqb_refl. f_equal. lia.
  - destruct Hs as (-> & _ & Hs). rewrite (proj2 (Z.eqb_neq x h)) by (intros ->; apply Hh; by left).
    cbn [length] in *. rewrite s32_id by lia.
    rewrite IH; [f_equal; lia|done|intros Hx; apply Hh; by right|lia|lia|lia].
Qed.

Lemma count_backward m a : forall l b n fuel, seg m a (rev l) b -> ~ In a l ->
  (length l < fuel)%nat -> Z.of_nat (length l) <= n < 2147483648 ->
  count_links fuel (p_prev m) a (p_prev m b) n (-1) = Some (n - Z.of_nat (length l)).
Proof.
  induction l as [|x l IH]; intros b n fuel Hs Hh Hf Hn;
    (destruct fuel as [|fuel]; [cbn in Hf; lia|]); cbn [count_links length].
  - destruct Hs as [_ ->]. rewrite Z.eqb_refl. f_equal. lia.
  - cbn [rev] in Hs. apply seg_app in Hs as [Hs [_ ->]].
    rewrite (proj2 (Z.eqb_neq x a)) by (intros ->; apply Hh; by left).
    cbn [length] in *. rewrite s32_id by lia.
    rewrite IH; [f_equal; lia|done|intros Hx; apply Hh; by right|lia|lia].
Qed.

Lemma integrity_ok m qs h l fuel : linked m qs -> qs !! h = Some l -> (length l < fuel)%nat ->
  Z.of_nat (length l) < 2147483648 -> integrity_rlist fuel h m = Some false.
Proof.
  intros Hl Hq Hf Hb. pose proof (li_seg _ _ Hl h l Hq) as Hs.
  pose proof (li_nodup _ _ Hl h l Hq) as [Hh _]%list.NoDup_cons. rewrite list_elem_of_In in Hh.
  unfold integrity_rlist. rewrite (count_forward m h l h 0) by (done || lia).
  rewrite <- (rev_involutive l) in Hs. rewrite (count_backward m h (rev l));
    [|done|by rewrite <- in_rev|by rewrite length_rev|rewrite length_rev; lia].
  rewrite length_rev. f_equal. cbn [Z.add]. by rewrite Z.sub_diag.
Qed.

(** ** Sequences of operations *)

Inductive qop : Type :=
  | QInsert (tp h : Z) | QPrioInsert (tp h : Z) | QFifo (h : Z) | QLifo (h : Z) | QDequeue (tp : Z).

(** What the operation returns ([tp] when it returns its argument or nothing). *)
Definition run_qop (fuel : nat) (prio : Z -> Z) (o : qop) (m : links) : option (Z * links) :=
  match o with
  | QInsert tp h => Some (tp, queue_insert tp h m)
  | QPrioInsert tp h =>
      match queue_prio_insert fuel prio tp h m with None => None | Some m => Some (tp, m) end
  | QFifo h => Some (queue_fifo_remove h m)
  | QLifo h => Some (queue_lifo_remove h m)
  | QDequeue tp => Some (tp, queue_dequeue tp m)
  end.

Fixpoint run_qops (fuel : nat) (prio : Z -> Z) (os : list qop) (m : links) : option (list Z * links) :=
  match os with
  | [] => Some ([], m)
  | o :: os =>
      match run_qop fuel prio o m with
      | None => None
      | Some (x, m) =>
          match run_qops fuel prio os m with None => None | Some (xs, m) => Some (x :: xs, m) end
      end
  end.

(** The same on lists; removing from an empty queue, and inserting what is queued
    already, have no step. *)
Inductive spec_qop (prio : Z -> Z) : qop -> gmap Z (list Z) -> Z -> gmap Z (list Z) -> Prop :=
  | S_insert tp h qs l : qs !! h = Some l -> unqueued qs tp ->
      spec_qop prio (QInsert tp h) qs tp (<[h := l ++ [tp]]> qs)
  | S_prio_insert tp h qs l : qs !! h = Some l -> unqueued qs tp ->
      spec_qop prio (QPrioInsert tp h) qs tp (<[h := place (fun x => prio tp <=? prio x) tp l]> qs)
  | S_fifo h qs x l : qs !! h = Some (x :: l) -> spec_qop prio (QFifo h) qs x (<[h := l]> qs)
  | S_lifo h qs x l : qs !! h = Some (l ++ [x]) -> spec_qop prio (QLifo h) qs x (<[h := l]> qs)
  | S_dequeue tp h qs l1 l2 : qs !! h = Some (l1 ++ tp :: l2) ->
      spec_qop prio (QDequeue tp) qs tp (<[h := l1 ++ l2]> qs).

Inductive spec_qops (prio : Z -> Z) : list qop -> gmap Z (list Z) -> list Z -> gmap Z (list Z) -> Prop :=
  | S_nil qs : spec_qops prio [] qs [] qs
  | S_cons o os qs x qs1 xs qs2 : spec_qop prio o qs x qs1 -> spec_qops prio os qs1 xs qs2 ->
      spec_qops prio (o :: os) qs (x :: xs) qs2.

(** No queue is longer than the fuel. *)
Definition short (fuel : nat) (qs : gmap Z (list Z)) : Prop :=
  forall h l, qs !! h = Some l -> (length l < fuel)%nat.

Lemma run_qop_ok prio fuel o m qs x qs' :
  linked m qs -> short fuel qs -> spec_qop prio o qs x qs' ->
  exists m', run_qop fuel prio o m = Some (x, m') /\ linked m' qs'.
Proof.
  intros Hl Hf Ho. destruct Ho as [tp h qs l Hq Hu|tp h qs l Hq Hu|h qs x l Hq|h qs x l Hq|tp h qs l1 l2 Hq];
    cbn [run_qop].
  - eexists. split; [done|]. rewrite queue_insert_before. apply (linked_insert m qs h l []); [done| |done].
    by rewrite app_nil_r.
  - destruct (queue_prio_insert_ok prio m qs h l tp fuel Hl Hq Hu (Hf h l Hq)) as (m' & -> & H).
    by exists m'.
  - rewrite (fifo_remove_dequeue m qs h x l) by done. eexists. split; [done|].
    by apply (linked_dequeue m qs h [] l).
  - rewrite (lifo_remove_dequeue m qs h x l) by done. eexists. split; [done|].
    rewrite <- (app_nil_r l). by apply (linked_dequeue m qs h l []).
  - eexists. split; [done|]. by apply linked_dequeue.
Qed.

Lemma place_length more tp l : length (place more tp l) = S (length l).
Proof. induction l as [|x l IH]; cbn; [done|]. case_match; cbn; lia. Qed.

Lemma spec_qop_length prio o qs x qs' n : spec_qop prio o qs x qs' ->
  short n qs -> short (S n) qs'.
Proof.
  intros Ho Hs. destruct Ho as [tp h qs l Hq Hu|tp h qs l Hq Hu|h qs x l Hq|h qs x l Hq|tp h qs l1 l2 Hq];
    specialize (Hs h _ Hq) as Hh; intros h2 l';
    (destruct (decide (h2 = h)) as [->|Hne];
     [rewrite lookup_insert_eq; intros [= <-]|rewrite lookup_insert_ne by auto; intros H2; specialize (Hs h2 _ H2); lia]).
  all: rewrite ?place_length, ?length_app in *; cbn in *; lia.
Qed.

(** C26. The queues of the kernel: whatever sequence of insertions (at the end, or by
    priority) and removals (from the front, from the back, or of a given thread) is run
    on the doubly linked memory, every operation returns the thread that the list
    operation returns, the memory represents the resulting lists, no other queue
    changes, and each loop ends. *)
Theorem queues_refine prio os m qs xs qs' fuel :
  linked m qs -> short fuel qs -> spec_qops prio os qs xs qs' ->
  exists m', run_qops (fuel + length os) prio os m = Some (xs, m') /\ linked m' qs'.
Proof.
  intros Hl Hs Hr.
  assert (G : forall n, short n qs -> forall N, (n + length os <= N)%nat -> exists m',
    run_qops N prio os m = Some (xs, m') /\ linked m' qs'); [|by apply (G fuel)].
  clear Hs. revert m Hl. induction Hr as [qs|o os qs x qs1 xs qs2 Ho _ IH]; intros m Hl n Hs N HN;
    cbn [run_qops length] in *; [by exists m|].
  destruct (run_qop_ok prio N o m qs x qs1 Hl) as (m1 & -> & Hl1); [|done|].
  { intros h l Hq. specialize (Hs h l Hq). lia. }
  destruct (IH m1 Hl1 (S n) (spec_qop_length _ _ _ _ _ _ Ho Hs) N) as (m2 & -> & Hl2); [lia|].
  by exists m2.
Qed.

Lemma queues_refine_witness :
  exists m', run_qops 5 (fun x => x mod 10) [QPrioInsert 13 1; QPrioInsert 25 1; QPrioInsert 33 1; QFifo 1]
                (queue_init 1 (Links (fun _ => 0) (fun _ => 0))) = Some ([13; 25; 33; 25], m') /\
    linked m' (<[1 := [13; 33]]> (<[1 := [25; 13; 33]]> (<[1 := [25; 13]]> (<[1 := [13]]> {[1 := []]})))).
Proof.
  apply (queues_refine (fun x => x mod 10)
    [QPrioInsert 13 1; QPrioInsert 25 1; QPrioInsert 33 1; QFifo 1] _ {[1 := []]} [13; 25; 33; 25] _ 1).
  - constructor.
    + intros h l [<- <-]%lookup_singleton_Some. done.
    + intros h l [<- <-]%lookup_singleton_Some. constructor; [by intros ?%elem_of_nil|constructor].
    + intros h1 l1 h2 l2 x [<- <-]%lookup_singleton_Some [<- <-]%lookup_singleton_Some. done.
  - intros h l [<- <-]%lookup_singleton_Some. cbn. lia.
  - assert (U : forall (qs : gmap Z (list Z)) l tp, qs = {[1 := l]} -> ~ In tp (1 :: l) -> unqueued qs tp).
    { intros qs l tp -> H h l' [<- <-]%lookup_singleton_Some. done. }
    econstructor; [apply (S_prio_insert _ 13 1 _ []); [apply lookup_singleton_eq|
      apply (U _ []); [done|cbn; lia]]|]. cbn [place].
    econstructor; [apply (S_prio_insert _ 25 1 _ [13]); [apply lookup_insert_eq|
      apply (U _ [13]); [by rewrite insert_singleton_eq|cbn; lia]]|]. cbn [place].
    econstructor; [apply (S_prio_insert _ 33 1 _ [25; 13]); [apply lookup_insert_eq|
      apply (U _ [25; 13]); [by rewrite !insert_insert_eq, insert_singleton_eq|cbn; lia]]|]. cbn [place].
    econstructor; [apply (S_fifo _ 1 _ 25 [13; 33]); apply lookup_insert_eq|]. constructor.
Defined.
