(* ===== verification/Ring.v ===== *)
(** Circular buffers: the array, the read and the write position, and the sequence of
    values they hold.  Shared by the queues of bytes and the mailboxes of the kernel.

    A position is an index into the array; the code moves it with [p++] and sets it back
    to the start at the end ([next_pos]), or the other way round ([prev_pos]). *)
From S2P Require Import Prelude.
Local Open Scope Z_scope.

(** [p++; if (p >= top) p = buffer;] *)
Definition next_pos (n p : Z) : Z := if n <=? p + 1 then 0 else p + 1.
(** [if (--p < buffer) p = top - 1;] *)
Definition prev_pos (n p : Z) : Z := if p - 1 <? 0 then n - 1 else p - 1.

Section Ring.
Context {A : Type}.

Definition len (b : list A) : Z := Z.of_nat (length b).

(** The array [b] holds [q] from the position [rd] on, and [wr] is behind it. *)
Record ring_ok (b : list A) (rd wr : Z) (q : list A) : Prop := {
  rg_rd : 0 <= rd < len b;
  rg_len : len q <= len b;
  rg_wr : wr = (rd + len q) mod len b;
  rg_at : forall i c, q !! i = Some c -> b !! Z.to_nat ((rd + Z.of_nat i) mod len b) = Some c
}.

Lemma next_pos_mod n p : 0 <= p < n -> next_pos n p = (p + 1) mod n.
Proof.
  intros H. unfold next_pos. destruct (Z.leb_spec n (p + 1)).
  - replace (p + 1) with n by lia. by rewrite Z.mod_same by lia.
  - by rewrite Z.mod_small by lia.
Qed.

Lemma prev_pos_mod n p : 0 <= p < n -> prev_pos n p = (p - 1) mod n.
Proof.
  intros H. unfold prev_pos. destruct (Z.ltb_spec (p - 1) 0).
  - replace (p - 1) with (n - 1 + (-1) * n) by lia. rewrite Z.mod_add by lia. by rewrite Z.mod_small by lia.
  - by rewrite Z.mod_small by lia.
Qed.

Lemma ring_wr_range b rd wr q : ring_ok b rd wr q -> 0 <= wr < len b.
Proof. intros [H1 _ -> _]. apply Z.mod_pos_bound. lia. Qed.

(** Two different places in a window of the size of the array do not collide. *)
Lemma window_inj n a i j : 0 < n -> 0 <= i < n -> 0 <= j < n -> (a + i) mod n = (a + j) mod n -> i = j.
Proof.
  intros Hn Hi Hj E. pose proof (Z.div_mod (a + i) n ltac:(lia)). pose proof (Z.div_mod (a + j) n ltac:(lia)).
  rewrite E in *. assert ((a + i) / n = (a + j) / n) by nia. nia.
Qed.

Lemma ring_empty b : 0 < len b -> ring_ok b 0 0 [].
Proof. intros H. constructor; [lia|unfold len at 1; cbn; lia| |done]. unfold len at 1. cbn. by rewrite Z.mod_0_l by lia. Qed.

(** A value is stored behind the others. *)
Lemma ring_push b rd wr q v : ring_ok b rd wr q -> len q < len b ->
  ring_ok (<[Z.to_nat wr := v]> b) rd (next_pos (len b) wr) (q ++ [v]).
Proof.
  intros Hr Hlt. pose proof (ring_wr_range _ _ _ _ Hr) as Hw. destruct Hr as [H1 H2 H3 H4].
  assert (El : len (<[Z.to_nat wr := v]> b) = len b) by (unfold len; by rewrite length_insert).
  assert (Eq : len (q ++ [v]) = len q + 1) by (unfold len; rewrite length_app; cbn; lia).
  constructor; rewrite ?El, ?Eq; [done|lia| |].
  - rewrite next_pos_mod, H3 by done. rewrite Z.add_mod_idemp_l by lia. f_equal. lia.
  - intros i c Hi. destruct (decide (Z.of_nat i = len q)) as [Ei|Ei].
    + unfold len in Ei. rewrite lookup_app_r in Hi by lia. replace (i - length q)%nat with 0%nat in Hi by lia.
      injection Hi as <-. replace (Z.of_nat i) with (len q) by (unfold len; lia). rewrite <- H3.
      apply list_lookup_insert_eq. unfold len in Hw. lia.
    + pose proof (lookup_lt_Some _ _ _ Hi) as Hlen. rewrite length_app in Hlen. cbn in Hlen. unfold len in Ei.
      rewrite lookup_app_l in Hi by lia. rewrite list_lookup_insert_ne; [by apply H4|].
      intros E. apply Z2Nat.inj in E; [|lia|apply Z.mod_pos_bound; lia]. rewrite H3 in E.
      unfold len in *. apply window_inj in E; lia.
Qed.

(** The first value is taken. *)
Lemma ring_pop b rd wr c q : ring_ok b rd wr (c :: q) ->
  b !! Z.to_nat rd = Some c /\ ring_ok b (next_pos (len b) rd) wr q.
Proof.
  intros [H1 H2 H3 H4]. assert (El : len (c :: q) = len q + 1) by (unfold len; cbn [length]; lia).
  split; [specialize (H4 0%nat c eq_refl); by rewrite Z.add_0_r, Z.mod_small in H4 by lia|].
  rewrite next_pos_mod by done. constructor.
  - apply Z.mod_pos_bound. lia.
  - lia.
  - rewrite H3, El, Z.add_mod_idemp_l by lia. f_equal. lia.
  - intros i d Hi. rewrite Z.add_mod_idemp_l by lia. rewrite <- (H4 (S i) d Hi). f_equal. f_equal. f_equal. lia.
Qed.

(** A value is stored in front of the others. *)
Lemma ring_push_front b rd wr q v : ring_ok b rd wr q -> len q < len b ->
  ring_ok (<[Z.to_nat (prev_pos (len b) rd) := v]> b) (prev_pos (len b) rd) wr (v :: q).
Proof.
  intros [H1 H2 H3 H4] Hlt. rewrite prev_pos_mod by done. set (n := len b) in *.
  assert (Hp : 0 <= (rd - 1) mod n < n) by (apply Z.mod_pos_bound; lia).
  assert (El : len (<[Z.to_nat ((rd - 1) mod n) := v]> b) = n) by (unfold len, n; by rewrite length_insert).
  assert (Eq : len (v :: q) = len q + 1) by (unfold len; cbn [length]; lia).
  assert (Em : forall k, ((rd - 1) mod n + k) mod n = (rd + (k - 1)) mod n).
  { intros k. rewrite Z.add_mod_idemp_l by lia. f_equal. lia. }
  constructor; rewrite ?El, ?Eq; [done|lia|rewrite Em, H3; f_equal; lia|].
  intros i c Hi. rewrite Em. destruct i as [|i]; cbn in Hi.
  - injection Hi as <-. replace (rd + (Z.of_nat 0 - 1)) with (rd - 1) by lia.
    apply list_lookup_insert_eq. unfold n, len in Hp. unfold n, len. lia.
  - replace (Z.of_nat (S i) - 1) with (Z.of_nat i) by lia. rewrite list_lookup_insert_ne; [by apply H4|].
    intros E. apply Z2Nat.inj in E; [|lia|apply Z.mod_pos_bound; lia].
    replace (rd - 1) with (rd - 1 + 0) in E by lia. replace (rd + Z.of_nat i) with (rd - 1 + (Z.of_nat i + 1)) in E by lia.
    pose proof (lookup_lt_Some _ _ _ Hi). unfold len in *. apply window_inj in E; lia.
Qed.

(** With the positions equal the buffer is empty or full. *)
Lemma ring_full b rd wr q : ring_ok b rd wr q -> wr = rd <-> len q = 0 \/ len q = len b.
Proof.
  intros [H1 H2 H3 H4]. assert (0 <= len q) by (unfold len; lia). split.
  - intros E. destruct (decide (len q = len b)) as [|Hne]; [by right|left].
    rewrite E in H3. symmetry. apply (window_inj (len b) rd 0 (len q)); [lia|lia|lia|].
    rewrite Z.add_0_r, Z.mod_small by lia. done.
  - rewrite H3. intros [->| ->]; [rewrite Z.add_0_r; by rewrite Z.mod_small by lia|].
    replace (rd + len b) with (rd + 1 * len b) by lia. rewrite Z.mod_add by lia. by rewrite Z.mod_small by lia.
Qed.

(** The values between the positions, read from the array. *)
Definition contents `{!Inhabited A} (b : list A) (rd n : Z) : list A :=
  (fun i => b !!! Z.to_nat ((rd + i) mod len b)) <$> seqZ 0 n.

Lemma ring_contents `{!Inhabited A} b rd wr q : ring_ok b rd wr q -> contents b rd (len q) = q.
Proof.
  intros [_ _ _ H]. apply list_eq. intros i. unfold contents. rewrite list_lookup_fmap.
  destruct (q !! i) as [c|] eqn:E.
  - pose proof (lookup_lt_Some _ _ _ E). rewrite lookup_seqZ_lt by (unfold len; lia). cbn. f_equal.
    apply list_lookup_total_correct. by apply H.
  - apply lookup_ge_None in E. rewrite lookup_seqZ_ge by (unfold len; lia). done.
Qed.
End Ring.
