(* ===== verification/Sched.v ===== *)
(** The scheduler of the kernel (os/rt/src/chschd.c and the inline functions of
    os/rt/include/chschd.h), with the thread functions (os/rt/src/chthreads.c) and the
    semaphores (os/rt/src/chsem.c) that block and wake threads; configured as in
    orchard/chconf.h: a time quantum of 20 ticks, FIFO semaphores, no idle thread of the
    kernel's own.

    [kernel] holds the fields of all threads and semaphores by address, and the queues
    as the linked memory of [Queues].  The union [p_u] of a thread is one word.  A
    function that can block returns [(Some msg, k)] when it returns to its caller and
    [(None, k)] when it went to sleep: then [k] is the state in which another thread
    runs, and the message is the caller's [rdymsg] when it runs again.  The timer of a
    sleep with timeout is [armed] until it fires ([wakeup]) or the sleeping thread runs
    again ([timeout_resume]); when it fires is the business of [Timers].

    The invariant of these definitions is in [SchedOk], the sequences of system calls and
    interrupts and the theorems about them in [Kernel]. *)
From S2P Require Import Prelude Queues.
Local Open Scope Z_scope.

(** ** State *)

Definition MSG_OK : Z := 0.
Definition MSG_TIMEOUT : Z := -1.
Definition MSG_RESET : Z := -2.
Definition NOPRIO : Z := 0.
Definition IDLEPRIO : Z := 1.
Definition HIGHPRIO : Z := 127.
Definition CH_CFG_TIME_QUANTUM : Z := 20.
Definition TIME_IMMEDIATE : Z := 0.
Definition TIME_INFINITE : Z := 0xFFFFFFFF.
Definition NULL : Z := 0.

Inductive tstate : Set :=
  | CH_STATE_READY | CH_STATE_CURRENT | CH_STATE_WTSTART | CH_STATE_SUSPENDED | CH_STATE_QUEUED
  | CH_STATE_WTSEM | CH_STATE_WTMTX | CH_STATE_WTCOND | CH_STATE_SLEEPING | CH_STATE_WTEXIT
  | CH_STATE_WTOREVT | CH_STATE_WTANDEVT | CH_STATE_SNDMSGQ | CH_STATE_SNDMSG | CH_STATE_WTMSG
  | CH_STATE_FINAL.

Record kernel : Type := Kernel {
  lk : links;
  p_prio : Z -> Z;
  p_realprio : Z -> Z;
  p_state : Z -> tstate;
  p_preempt : Z -> Z;
  p_u : Z -> Z;
  r_current : Z;
  s_cnt : Z -> Z;
  tref : Z -> Z;
  armed : Z -> bool
}.

Definition set_lk v k := Kernel v (p_prio k) (p_realprio k) (p_state k) (p_preempt k) (p_u k)
  (r_current k) (s_cnt k) (tref k) (armed k).
Definition set_prio a v k := Kernel (lk k) (upd a v (p_prio k)) (p_realprio k) (p_state k)
  (p_preempt k) (p_u k) (r_current k) (s_cnt k) (tref k) (armed k).
Definition set_realprio a v k := Kernel (lk k) (p_prio k) (upd a v (p_realprio k)) (p_state k)
  (p_preempt k) (p_u k) (r_current k) (s_cnt k) (tref k) (armed k).
Definition set_state a v k := Kernel (lk k) (p_prio k) (p_realprio k) (upd a v (p_state k))
  (p_preempt k) (p_u k) (r_current k) (s_cnt k) (tref k) (armed k).
Definition set_preempt a v k := Kernel (lk k) (p_prio k) (p_realprio k) (p_state k)
  (upd a v (p_preempt k)) (p_u k) (r_current k) (s_cnt k) (tref k) (armed k).
Definition set_u a v k := Kernel (lk k) (p_prio k) (p_realprio k) (p_state k) (p_preempt k)
  (upd a v (p_u k)) (r_current k) (s_cnt k) (tref k) (armed k).
Definition setcurrp v k := Kernel (lk k) (p_prio k) (p_realprio k) (p_state k) (p_preempt k)
  (p_u k) v (s_cnt k) (tref k) (armed k).
Definition set_cnt a v k := Kernel (lk k) (p_prio k) (p_realprio k) (p_state k) (p_preempt k)
  (p_u k) (r_current k) (upd a v (s_cnt k)) (tref k) (armed k).
Definition set_tref a v k := Kernel (lk k) (p_prio k) (p_realprio k) (p_state k) (p_preempt k)
  (p_u k) (r_current k) (s_cnt k) (upd a v (tref k)) (armed k).
Definition set_armed a v k := Kernel (lk k) (p_prio k) (p_realprio k) (p_state k) (p_preempt k)
  (p_u k) (r_current k) (s_cnt k) (tref k) (upd a v (armed k)).

Section Sched.
(** The addresses of the ready list and of the main thread, and the fuel of the loops
    over queues. *)
Context (rlist mainthread : Z) (fuel : nat).

(** ** chschd.c *)

Definition _scheduler_init (k : kernel) : kernel :=
  set_prio rlist NOPRIO (set_lk (queue_init rlist (lk k)) k).

Definition chSchReadyI (tp : Z) (k : kernel) : option kernel :=
  let k := set_state tp CH_STATE_READY k in
  match prio_scan fuel (fun cp => p_prio k tp <=? p_prio k cp) (lk k) rlist with
  | None => None
  | Some cp => Some (set_lk (insert_before cp tp (lk k)) k)
  end.

Definition fifo_remove (q : Z) (k : kernel) : Z * kernel :=
  let '(tp, l) := queue_fifo_remove q (lk k) in (tp, set_lk l k).
Definition lifo_remove (q : Z) (k : kernel) : Z * kernel :=
  let '(tp, l) := queue_lifo_remove q (lk k) in (tp, set_lk l k).

Definition chSchGoSleepS (newstate : tstate) (k : kernel) : kernel :=
  let otp := r_current k in
  let k := set_state otp newstate k in
  let k := set_preempt otp CH_CFG_TIME_QUANTUM k in
  let '(tp, k) := fifo_remove rlist k in
  let k := setcurrp tp k in
  set_state (r_current k) CH_STATE_CURRENT k.

Definition chSemFastSignalI (sp : Z) (k : kernel) : kernel := set_cnt sp (s32 (s_cnt k sp + 1)) k.
Definition chSemFastWaitI (sp : Z) (k : kernel) : kernel := set_cnt sp (s32 (s_cnt k sp - 1)) k.

Definition wakeup (tp : Z) (k : kernel) : option kernel :=
  let dequeue k := set_lk (queue_dequeue tp (lk k)) k in
  let ready k := chSchReadyI tp (set_u tp MSG_TIMEOUT k) in
  match p_state k tp with
  | CH_STATE_READY => Some k
  | CH_STATE_SUSPENDED => ready (set_tref (p_u k tp) NULL k)
  | CH_STATE_WTSEM => ready (dequeue (chSemFastSignalI (p_u k tp) k))
  | CH_STATE_WTCOND | CH_STATE_QUEUED => ready (dequeue k)
  | _ => ready k
  end.

(** The timer interrupt disarms the timer before it calls its function. *)
Definition timeout (tp : Z) (k : kernel) : option kernel := wakeup tp (set_armed tp false k).

(** Up to the switch to another thread, and from the switch back. *)
Definition chSchGoSleepTimeoutS (newstate : tstate) (time : Z) (k : kernel) : kernel :=
  let k := if negb (time =? TIME_INFINITE) then set_armed (r_current k) true k else k in
  chSchGoSleepS newstate k.
Definition timeout_resume (k : kernel) : kernel :=
  if armed k (r_current k) then set_armed (r_current k) false k else k.

Definition chSchWakeupS (ntp msg : Z) (k : kernel) : option kernel :=
  let k := set_u ntp msg k in
  if p_prio k ntp <=? p_prio k (r_current k) then chSchReadyI ntp k
  else
    match chSchReadyI (r_current k) k with
    | None => None
    | Some k => Some (set_state ntp CH_STATE_CURRENT (setcurrp ntp k))
    end.

Definition firstprio (k : kernel) : Z := p_prio k (p_next (lk k) rlist).
Definition chSchIsRescRequiredI (k : kernel) : bool := p_prio k (r_current k) <? firstprio k.
Definition chSchCanYieldS (k : kernel) : bool := p_prio k (r_current k) <=? firstprio k.

Definition chSchIsPreemptionRequired (k : kernel) : bool :=
  let p1 := firstprio k in
  let p2 := p_prio k (r_current k) in
  if 0 <? p_preempt k (r_current k) then p2 <? p1 else p2 <=? p1.

Definition chSchDoRescheduleBehind (k : kernel) : option kernel :=
  let otp := r_current k in
  let '(tp, k) := fifo_remove rlist k in
  let k := setcurrp tp k in
  let k := set_state (r_current k) CH_STATE_CURRENT k in
  let k := set_preempt otp CH_CFG_TIME_QUANTUM k in
  chSchReadyI otp k.

Definition chSchDoRescheduleAhead (k : kernel) : option kernel :=
  let otp := r_current k in
  let '(tp, k) := fifo_remove rlist k in
  let k := setcurrp tp k in
  let k := set_state (r_current k) CH_STATE_CURRENT k in
  let k := set_state otp CH_STATE_READY k in
  match prio_scan fuel (fun cp => p_prio k otp <? p_prio k cp) (lk k) rlist with
  | None => None
  | Some cp => Some (set_lk (insert_before cp otp (lk k)) k)
  end.

Definition chSchRescheduleS (k : kernel) : option kernel :=
  if chSchIsRescRequiredI k then chSchDoRescheduleAhead k else Some k.

Definition chSchDoReschedule (k : kernel) : option kernel :=
  if p_preempt k (r_current k) =? 0 then chSchDoRescheduleBehind k else chSchDoRescheduleAhead k.

Definition chSchDoYieldS (k : kernel) : option kernel :=
  if chSchCanYieldS k then chSchDoRescheduleBehind k else Some k.

Definition chSchPreemption (k : kernel) : option kernel :=
  let p1 := firstprio k in
  let p2 := p_prio k (r_current k) in
  if 0 <? p_preempt k (r_current k) then
    if p2 <? p1 then chSchDoRescheduleAhead k else Some k
  else
    if p2 <=? p1 then chSchDoRescheduleBehind k else Some k.

(** The part of chSysTimerHandlerI that concerns the scheduler. *)
Definition sys_tick (k : kernel) : kernel :=
  if 0 <? p_preempt k (r_current k)
  then set_preempt (r_current k) (u8 (p_preempt k (r_current k) - 1)) k else k.

(** The end of an interrupt handler (_port_irq_epilogue, _port_switch_from_isr). *)
Definition irq_epilogue (k : kernel) : option kernel :=
  if chSchIsPreemptionRequired k then chSchDoReschedule k else Some k.

(** ** chthreads.c *)

Definition _thread_init (tp prio : Z) (k : kernel) : kernel :=
  let k := set_prio tp prio k in
  let k := set_state tp CH_STATE_WTSTART k in
  let k := set_preempt tp CH_CFG_TIME_QUANTUM k in
  set_realprio tp prio k.

Definition chThdCreateI := _thread_init.

Definition chThdCreateStatic (wsp prio : Z) (k : kernel) : option kernel :=
  chSchWakeupS wsp MSG_OK (chThdCreateI wsp prio k).

Definition chThdStartI (tp : Z) (k : kernel) : option kernel := chSchReadyI tp k.
Definition chThdStart := chThdStartI.

Definition chThdSetPriority (newprio : Z) (k : kernel) : option (Z * kernel) :=
  let cur := r_current k in
  let oldprio := p_realprio k cur in
  let k := if (p_prio k cur =? p_realprio k cur) || (p_prio k cur <? newprio)
           then set_prio cur newprio k else k in
  let k := set_realprio cur newprio k in
  match chSchRescheduleS k with None => None | Some k => Some (oldprio, k) end.

Definition chThdYield := chSchDoYieldS.

Definition chThdSleepS (time : Z) (k : kernel) : kernel := chSchGoSleepTimeoutS CH_STATE_SLEEPING time k.
Definition chThdSleep := chThdSleepS.

Definition chThdSuspendS (trp : Z) (k : kernel) : kernel :=
  let tp := r_current k in
  let k := set_tref trp tp k in
  let k := set_u tp trp k in
  chSchGoSleepS CH_STATE_SUSPENDED k.

Definition chThdSuspendTimeoutS (trp time : Z) (k : kernel) : option Z * kernel :=
  let tp := r_current k in
  if time =? TIME_IMMEDIATE then (Some MSG_TIMEOUT, k)
  else
    let k := set_tref trp tp k in
    let k := set_u tp trp k in
    (None, chSchGoSleepTimeoutS CH_STATE_SUSPENDED time k).

Definition chThdResumeI (trp msg : Z) (k : kernel) : option kernel :=
  if negb (tref k trp =? NULL) then
    let tp := tref k trp in
    chSchReadyI tp (set_u tp msg (set_tref trp NULL k))
  else Some k.

Definition chThdResumeS (trp msg : Z) (k : kernel) : option kernel :=
  if negb (tref k trp =? NULL) then
    let tp := tref k trp in
    chSchWakeupS tp msg (set_tref trp NULL k)
  else Some k.
Definition chThdResume := chThdResumeS.

Definition chThdEnqueueTimeoutS (tqp time : Z) (k : kernel) : option Z * kernel :=
  if time =? TIME_IMMEDIATE then (Some MSG_TIMEOUT, k)
  else
    let k := set_lk (queue_insert (r_current k) tqp (lk k)) k in
    (None, chSchGoSleepTimeoutS CH_STATE_QUEUED time k).

Definition chThdDoDequeueNextI (tqp msg : Z) (k : kernel) : option kernel :=
  let '(tp, k) := fifo_remove tqp k in
  chSchReadyI tp (set_u tp msg k).

Definition chThdDequeueNextI (tqp msg : Z) (k : kernel) : option kernel :=
  if queue_notempty tqp (lk k) then chThdDoDequeueNextI tqp msg k else Some k.

Fixpoint dequeue_all (n : nat) (tqp msg : Z) (k : kernel) : option kernel :=
  match n with
  | O => None
  | S n =>
      if queue_notempty tqp (lk k) then
        match chThdDoDequeueNextI tqp msg k with
        | None => None
        | Some k => dequeue_all n tqp msg k
        end
      else Some k
  end.
Definition chThdDequeueAllI (tqp msg : Z) (k : kernel) : option kernel := dequeue_all fuel tqp msg k.

(** ** chsem.c *)

Definition chSemObjectInit (sp n : Z) (k : kernel) : kernel :=
  set_cnt sp n (set_lk (queue_init sp (lk k)) k).

(** [while (++cnt <= 0)]; [tp] is made ready before its message is stored. *)
Fixpoint reset_loop (n : nat) (sp cnt : Z) (k : kernel) : option kernel :=
  match n with
  | O => None
  | S n =>
      let cnt := s32 (cnt + 1) in
      if cnt <=? 0 then
        let '(tp, k) := lifo_remove sp k in
        match chSchReadyI tp k with
        | None => None
        | Some k => reset_loop n sp cnt (set_u tp MSG_RESET k)
        end
      else Some k
  end.

Definition chSemResetI (sp n : Z) (k : kernel) : option kernel :=
  let cnt := s_cnt k sp in
  reset_loop fuel sp cnt (set_cnt sp n k).

Definition chSemReset (sp n : Z) (k : kernel) : option kernel :=
  match chSemResetI sp n k with None => None | Some k => chSchRescheduleS k end.

Definition sem_insert (tp q : Z) (k : kernel) : kernel := set_lk (queue_insert tp q (lk k)) k.

Definition chSemWaitS (sp : Z) (k : kernel) : option Z * kernel :=
  let k := set_cnt sp (s32 (s_cnt k sp - 1)) k in
  if s_cnt k sp <? 0 then
    let k := set_u (r_current k) sp k in
    let k := sem_insert (r_current k) sp k in
    (None, chSchGoSleepS CH_STATE_WTSEM k)
  else (Some MSG_OK, k).
Definition chSemWait := chSemWaitS.

Definition chSemWaitTimeoutS (sp time : Z) (k : kernel) : option Z * kernel :=
  let k := set_cnt sp (s32 (s_cnt k sp - 1)) k in
  if s_cnt k sp <? 0 then
    if time =? TIME_IMMEDIATE
    then (Some MSG_TIMEOUT, set_cnt sp (s32 (s_cnt k sp + 1)) k)
    else
      let k := set_u (r_current k) sp k in
      let k := sem_insert (r_current k) sp k in
      (None, chSchGoSleepTimeoutS CH_STATE_WTSEM time k)
  else (Some MSG_OK, k).
Definition chSemWaitTimeout := chSemWaitTimeoutS.

Definition chSemSignal (sp : Z) (k : kernel) : option kernel :=
  let k := set_cnt sp (s32 (s_cnt k sp + 1)) k in
  if s_cnt k sp <=? 0 then
    let '(tp, k) := fifo_remove sp k in chSchWakeupS tp MSG_OK k
  else Some k.

Definition chSemSignalI (sp : Z) (k : kernel) : option kernel :=
  let k := set_cnt sp (s32 (s_cnt k sp + 1)) k in
  if s_cnt k sp <=? 0 then
    let '(tp, k) := fifo_remove sp k in chSchReadyI tp (set_u tp MSG_OK k)
  else Some k.

(** One unit of chSemAddCounterI, and the first half of chSemSignalWait. *)
Definition add_unit (sp : Z) (k : kernel) : option kernel :=
  let k := set_cnt sp (s32 (s_cnt k sp + 1)) k in
  if s_cnt k sp <=? 0 then
    let '(tp, k) := fifo_remove sp k in
    match chSchReadyI tp k with None => None | Some k => Some (set_u tp MSG_OK k) end
  else Some k.

Fixpoint add_loop (n : nat) (sp : Z) (k : kernel) : option kernel :=
  match n with
  | O => Some k
  | S n => match add_unit sp k with None => None | Some k => add_loop n sp k end
  end.
Definition chSemAddCounterI (sp n : Z) (k : kernel) : option kernel := add_loop (Z.to_nat n) sp k.

Definition chSemSignalWait (sps spw : Z) (k : kernel) : option (option Z * kernel) :=
  match add_unit sps k with
  | None => None
  | Some k =>
      let k := set_cnt spw (s32 (s_cnt k spw - 1)) k in
      if s_cnt k spw <? 0 then
        let ctp := r_current k in
        let k := sem_insert ctp spw k in
        let k := set_u ctp spw k in
        Some (None, chSchGoSleepS CH_STATE_WTSEM k)
      else match chSchRescheduleS k with None => None | Some k => Some (Some MSG_OK, k) end
  end.

(** ** chcond.c, the functions that do not involve a mutex *)

Definition chCondSignal (cp : Z) (k : kernel) : option kernel :=
  if queue_notempty cp (lk k) then
    let '(tp, k) := fifo_remove cp k in chSchWakeupS tp MSG_OK k
  else Some k.

Definition chCondSignalI (cp : Z) (k : kernel) : option kernel :=
  if queue_notempty cp (lk k) then
    let '(tp, k) := fifo_remove cp k in chSchReadyI tp (set_u tp MSG_OK k)
  else Some k.

Fixpoint broadcast_loop (n : nat) (cp : Z) (k : kernel) : option kernel :=
  match n with
  | O => None
  | S n =>
      if queue_notempty cp (lk k) then
        let '(tp, k) := fifo_remove cp k in
        match chSchReadyI tp k with
        | None => None
        | Some k => broadcast_loop n cp (set_u tp MSG_RESET k)
        end
      else Some k
  end.
Definition chCondBroadcastI (cp : Z) (k : kernel) : option kernel := broadcast_loop fuel cp k.

Definition chCondBroadcast (cp : Z) (k : kernel) : option kernel :=
  match chCondBroadcastI cp k with None => None | Some k => chSchRescheduleS k end.
End Sched.

(** The threads part of chSysInit: the caller becomes the main thread. *)
Definition sys_init (rlist mainthread : Z) (k : kernel) : kernel :=
  let k := _scheduler_init rlist k in
  let k := setcurrp mainthread (_thread_init mainthread IDLEPRIO k) in
  set_state (r_current k) CH_STATE_CURRENT k.

Definition chThdQueueObjectInit (tqp : Z) (k : kernel) : kernel := set_lk (queue_init tqp (lk k)) k.
