(* ===== verification/SchedOk.v ===== *)
(** The invariant of the scheduler of [Sched], and that each operation keeps it.

    The kernel is well formed ([kok]) when its linked memory represents queues of
    threads, every thread is in the queue its state says, the ready list and the queues
    of mutexes and condition variables are sorted by priority, and the counter of every
    semaphore agrees with its queue.  [kmid] adds the running thread; [top], that no
    ready thread has a higher priority than it, holds whenever an operation of the
    running thread or an interrupt is complete. *)
From stdpp Require Import sorting.
From S2P Require Import Prelude Queues Sched.
Local Open Scope Z_scope.

(** ** The invariant *)

#[export] Instance tstate_eq_dec : EqDecision tstate.
Proof. solve_decision. Defined.

(** What a queue is for; the queues are fixed. *)
Inductive qkind : Set := QReady | QSem | QThreads | QMutex | QCond | QMsg.
#[export] Instance qkind_eq_dec : EqDecision qkind.
Proof. solve_decision. Defined.

(** The state of a thread in a queue. *)
Definition waits (kd : qkind) (h : Z) (k : kernel) (tp : Z) : Prop :=
  match kd with
  | QReady => p_state k tp = CH_STATE_READY
  | QSem => p_state k tp = CH_STATE_WTSEM /\ p_u k tp = h
  | QThreads => p_state k tp = CH_STATE_QUEUED
  | QMutex => p_state k tp = CH_STATE_WTMTX /\ p_u k tp = h
  | QCond => p_state k tp = CH_STATE_WTCOND /\ p_u k tp = h
  | QMsg => p_state k tp = CH_STATE_SNDMSGQ /\ p_u k tp = h
  end.

(** The counter of a semaphore and its queue. *)
Definition sem_ok (c : Z) (l : list Z) : Prop :=
  Z.of_nat (length l) = Z.max 0 (- c) /\ -2147483648 <= c < 2147483648.

(** Sorted by decreasing priority. *)
Definition by_prio (k : kernel) : list Z -> Prop :=
  StronglySorted (fun x y => p_prio k y <= p_prio k x).

(** The queues that are sorted by priority, besides the ready list. *)
Definition sorted_kind (kd : qkind) : bool := match kd with QMutex | QCond => true | _ => false end.

(** ** What an operation does to the other threads *)

(** Waiting for an object of the kernel. *)
Definition hooked (st : tstate) : bool :=
  match st with
  | CH_STATE_SUSPENDED | CH_STATE_QUEUED | CH_STATE_WTSEM | CH_STATE_WTMTX | CH_STATE_WTCOND | CH_STATE_SNDMSGQ => true
  | _ => false
  end.
Definition runnable (st : tstate) : bool :=
  match st with CH_STATE_READY | CH_STATE_CURRENT => true | _ => false end.
Definition awaits_events (st : tstate) : bool :=
  match st with CH_STATE_WTOREVT | CH_STATE_WTANDEVT => true | _ => false end.

Lemma waits_hooked kd h k tp : waits kd h k tp -> kd <> QReady -> hooked (p_state k tp) = true.
Proof. destruct kd; cbn; intros H Hn; [done| |by rewrite H| | |]; by rewrite (proj1 H). Qed.

(** An interrupt handler makes threads ready that wait for an object, and leaves the
    others alone. *)
Definition calm (st st' : Z -> tstate) (u u' : Z -> Z) : Prop := forall x,
  st' x = st x /\ u' x = u x \/ hooked (st x) = true /\ st' x = CH_STATE_READY.

Lemma calm_refl st u : calm st st u u.
Proof. by left. Qed.
#[export] Hint Extern 0 (calm _ _ _ _) => exact (calm_refl _ _) : core.

Lemma calm_trans st1 st2 st3 u1 u2 u3 : calm st1 st2 u1 u2 -> calm st2 st3 u2 u3 -> calm st1 st3 u1 u3.
Proof.
  intros H1 H2 x. destruct (H1 x) as [[E1 E2]|[E1 E2]], (H2 x) as [[E3 E4]|[E3 E4]].
  - left. split; congruence.
  - right. split; congruence.
  - right. split; congruence.
  - by rewrite E2 in E3.
Qed.

(** A system call of the thread [c] moreover switches threads, and may put [c] to sleep,
    with a timer or without, or start a thread that was not among the threads [T]. *)
Definition moved_thread (T : gset Z) (c : Z) (k k' : kernel) (x : Z) : Prop :=
  p_u k' x = p_u k x /\ (p_state k' x = p_state k x \/ runnable (p_state k x) = true /\ runnable (p_state k' x) = true) \/
  hooked (p_state k x) = true /\ runnable (p_state k' x) = true \/
  x = c /\ awaits_events (p_state k' x) = false \/
  x ∉ T /\ runnable (p_state k' x) = true.
Definition moved (T : gset Z) (c : Z) (k k' : kernel) : Prop := forall x,
  (armed k' x = true -> armed k x = true \/ x = c) /\ moved_thread T c k k' x.

Lemma runnable_not st : runnable st = true -> hooked st = false /\ awaits_events st = false.
Proof. by destruct st. Qed.

Lemma moved_thread_trans T c k1 k2 k3 x :
  moved_thread T c k1 k2 x -> moved_thread T c k2 k3 x -> moved_thread T c k1 k3 x.
Proof.
  intros H1 H2. unfold moved_thread.
  assert (Hr : runnable (p_state k2 x) = true -> hooked (p_state k2 x) = true -> False) by by destruct (p_state k2 x).
  assert (Ha : runnable (p_state k3 x) = true -> awaits_events (p_state k3 x) = false) by by destruct (p_state k3 x).
  assert (Hb : runnable (p_state k2 x) = true -> awaits_events (p_state k2 x) = false) by by destruct (p_state k2 x).
  destruct H1 as [[U1 [S1|[S1 R1]]]|[[K1 R1]|[[C1 W1]|[N1 R1]]]];
    destruct H2 as [[U2 [S2|[S2 R2]]]|[[K2 R2]|[[C2 W2]|[N2 R2]]]]; try (exfalso; by auto);
    rewrite ?S1, ?S2 in *;
    first [left; split; [congruence|first [left; congruence|right; by split]]
          |right; left; split; congruence
          |right; right; left; split; [done|first [done|by auto|congruence]]
          |right; right; right; split; congruence].
Qed.

Lemma moved_trans T c k1 k2 k3 : moved T c k1 k2 -> moved T c k2 k3 -> moved T c k1 k3.
Proof.
  intros H1 H2 x. destruct (H1 x) as [A1 M1], (H2 x) as [A2 M2]. split; [|by apply (moved_thread_trans T c k1 k2)].
  intros Hx. destruct (A2 Hx); auto.
Qed.

Lemma moved_refl T c k : moved T c k k.
Proof. split; [auto|]. left. auto. Qed.

Lemma calm_moved T c k k' : armed k' = armed k -> calm (p_state k) (p_state k') (p_u k) (p_u k') -> moved T c k k'.
Proof.
  intros Ea H x. split; [rewrite Ea; auto|].
  destruct (H x) as [[E1 E2]|[E1 E2]]; [left; auto|right; left; by rewrite E2].
Qed.

(** Two threads exchange the processor. *)
Definition swapped (k k' : kernel) : Prop := armed k' = armed k /\ p_u k' = p_u k /\ forall x,
  p_state k' x = p_state k x \/ runnable (p_state k x) = true /\ runnable (p_state k' x) = true.

Lemma swapped_refl k k' : armed k' = armed k -> p_u k' = p_u k -> p_state k' = p_state k -> swapped k k'.
Proof. intros E1 E2 E3. split; [done|split; [done|]]. intros x. left. by rewrite E3. Qed.
Lemma swapped_moved T c k k' : swapped k k' -> moved T c k k'.
Proof. intros (Ea & E & H) x. split; [rewrite Ea; auto|]. left. by rewrite E. Qed.
Lemma moved_swapped T c k1 k2 k3 : moved T c k1 k2 -> swapped k2 k3 -> moved T c k1 k3.
Proof. intros H1 H2. by apply (moved_trans T c k1 k2), swapped_moved. Qed.

(** The thread [tp] is woken. *)
Definition woke (tp : Z) (k k' : kernel) : Prop := armed k' = armed k /\ runnable (p_state k' tp) = true /\
  forall x, x <> tp -> p_u k' x = p_u k x /\
    (p_state k' x = p_state k x \/ runnable (p_state k x) = true /\ runnable (p_state k' x) = true).

Lemma woke_moved T c tp k0 k k' : woke tp k k' -> hooked (p_state k0 tp) = true \/ tp ∉ T -> armed k = armed k0 ->
  (forall x, x <> tp -> p_u k x = p_u k0 x /\ p_state k x = p_state k0 x) -> moved T c k0 k'.
Proof.
  intros (Ea & H1 & H2) Htp Ea0 E x. split; [rewrite Ea, Ea0; auto|].
  destruct (decide (x = tp)) as [->|Hx].
  - right. destruct Htp; [left; auto|right; right; auto].
  - left. destruct (E x Hx) as [E1 E2]. rewrite <- E1, <- E2. by apply H2.
Qed.

(** The running thread goes to sleep. *)
Definition slept (st : tstate) (k k' : kernel) : Prop :=
  (forall x, armed k' x = true -> armed k x = true \/ x = r_current k) /\
  p_u k' = p_u k /\ r_current k' <> r_current k /\ p_state k (r_current k') = CH_STATE_READY /\
  p_state k' = upd (r_current k') CH_STATE_CURRENT (upd (r_current k) st (p_state k)).

(** [k1] is [k] with the data of a wait stored in the running thread. *)
Lemma slept_others T c st k k1 k' x : slept st k1 k' -> r_current k1 = r_current k -> p_state k1 = p_state k ->
  x <> r_current k -> p_u k1 x = p_u k x -> moved_thread T c k k' x.
Proof.
  intros (_ & E1 & E2 & E3 & E4) Hc Hs Hx Hu. rewrite Hc, Hs in *. left. rewrite E4, E1. split; [done|].
  unfold upd. destruct (Z.eqb_spec x (r_current k')) as [->|].
  - right. by rewrite E3.
  - destruct (Z.eqb_spec x (r_current k)); [done|by left].
Qed.

Lemma slept_moved T st k k1 k' : slept st k1 k' -> awaits_events st = false -> r_current k1 = r_current k ->
  armed k1 = armed k ->
  p_state k1 = p_state k -> (forall x, x <> r_current k -> p_u k1 x = p_u k x) -> moved T (r_current k) k k'.
Proof.
  intros Hsl Hst Hc Ha Hs Hu x. pose proof Hsl as (Ea & E1 & E2 & E3 & E4). rewrite Hc, Ha in Ea. split; [apply Ea|].
  destruct (decide (x = r_current k)) as [->|Hx].
  - right; right; left. split; [done|]. rewrite E4, Hc. unfold upd. rewrite Z.eqb_refl. by destruct (_ =? _).
  - by apply (slept_others T _ st k k1); auto.
Qed.

(** A thread that was created is ready or runs. *)
Lemma wakeupS_runnable rlist fuel tp msg k k' : chSchWakeupS rlist fuel tp msg k = Some k' ->
  runnable (p_state k' tp) = true.
Proof.
  unfold chSchWakeupS, chSchReadyI. destruct (_ <=? _); destruct (prio_scan _ _ _ _); try done; intros [= <-];
    cbn; unfold upd; rewrite Z.eqb_refl; done.
Qed.

(** What the operations of this file leave alone and mutexes depend on: the queues of the
    mutexes and the priorities of the threads. *)
Record ghost : Type := Ghost {
  g_mtx : gmap Z (list Z);
  g_prio : Z -> Z;
  g_real : Z -> Z
}.

Section Invariant.
Context (rlist idle : Z) (fuel : nat) (kind : gmap Z qkind).

(** Where a thread is, according to its state. *)
Definition thread_ok (k : kernel) (qs : gmap Z (list Z)) (tp : Z) : Prop :=
  (tp = idle -> p_state k tp = CH_STATE_READY \/ p_state k tp = CH_STATE_CURRENT) /\
  match p_state k tp with
  | CH_STATE_READY => exists l, qs !! rlist = Some l /\ In tp l
  | CH_STATE_CURRENT => tp = r_current k
  | CH_STATE_WTSEM => kind !! p_u k tp = Some QSem /\ exists l, qs !! p_u k tp = Some l /\ In tp l
  | CH_STATE_QUEUED => exists h l, kind !! h = Some QThreads /\ qs !! h = Some l /\ In tp l
  | CH_STATE_WTMTX => kind !! p_u k tp = Some QMutex /\ exists l, qs !! p_u k tp = Some l /\ In tp l
  | CH_STATE_WTCOND => kind !! p_u k tp = Some QCond /\ exists l, qs !! p_u k tp = Some l /\ In tp l
  | CH_STATE_SUSPENDED => tref k (p_u k tp) = tp
  | CH_STATE_SNDMSGQ => kind !! p_u k tp = Some QMsg /\ exists l, qs !! p_u k tp = Some l /\ In tp l
  | CH_STATE_WTSTART | CH_STATE_SLEEPING | CH_STATE_WTOREVT | CH_STATE_WTANDEVT | CH_STATE_FINAL
  | CH_STATE_WTEXIT | CH_STATE_SNDMSG | CH_STATE_WTMSG => True
  end.

(** The kernel with the threads [T], one of which ([out]) may be on its way from one
    queue to another. *)
Record kok (G : ghost) (T : gset Z) (out : option Z) (k : kernel) (qs : gmap Z (list Z)) : Prop := {
  ko_linked : linked (lk k) qs;
  ko_dom : forall h, is_Some (qs !! h) <-> is_Some (kind !! h);
  ko_ready : kind !! rlist = Some QReady /\ forall h, kind !! h = Some QReady -> h = rlist;
  ko_members : forall h kd l tp, kind !! h = Some kd -> qs !! h = Some l -> In tp l ->
    tp ∈ T /\ out <> Some tp /\ waits kd h k tp;
  ko_threads : forall tp, tp ∈ T -> out <> Some tp -> thread_ok k qs tp;
  ko_prio : (forall tp, tp ∈ T -> 0 < p_prio k tp) /\ p_prio k rlist = 0;
  ko_sorted : forall l, qs !! rlist = Some l -> by_prio k l;
  ko_sem : forall sp l, kind !! sp = Some QSem -> qs !! sp = Some l -> sem_ok (s_cnt k sp) l;
  ko_tref : forall trp, tref k trp <> NULL ->
    tref k trp ∈ T /\ out <> Some (tref k trp) /\
    p_state k (tref k trp) = CH_STATE_SUSPENDED /\ p_u k (tref k trp) = trp;
  ko_apart : forall tp, tp ∈ T -> kind !! tp = None /\ tp <> NULL;
  ko_idle : idle ∈ T;
  ko_fuel : (size T < fuel)%nat;
  ko_sorted_by : forall h kd l, kind !! h = Some kd -> sorted_kind kd = true -> qs !! h = Some l ->
    by_prio k l;
  ko_mtx : forall h l, kind !! h = Some QMutex -> qs !! h = Some l -> g_mtx G !! h = Some l;
  ko_prios : forall tp, tp ∈ T -> p_prio k tp = g_prio G tp /\ p_realprio k tp = g_real G tp
}.

#[global] Arguments ko_linked {G}.
#[global] Arguments ko_dom {G}.
#[global] Arguments ko_ready {G}.
#[global] Arguments ko_members {G}.
#[global] Arguments ko_threads {G}.
#[global] Arguments ko_prio {G}.
#[global] Arguments ko_sorted {G}.
#[global] Arguments ko_sem {G}.
#[global] Arguments ko_tref {G}.
#[global] Arguments ko_apart {G}.
#[global] Arguments ko_idle {G}.
#[global] Arguments ko_fuel {G}.
#[global] Arguments ko_sorted_by {G}.
#[global] Arguments ko_mtx {G}.
#[global] Arguments ko_prios {G}.

(** A thread in no queue, by its state. *)
Definition loose (k : kernel) (tp : Z) : Prop :=
  match p_state k tp with
  | CH_STATE_READY | CH_STATE_WTSEM | CH_STATE_QUEUED | CH_STATE_WTMTX | CH_STATE_WTCOND | CH_STATE_SNDMSGQ => False
  | _ => True
  end.

Section Facts.
Context (G : ghost) (T : gset Z) (out : option Z) (k : kernel) (qs : gmap Z (list Z)) (Hk : kok G T out k qs).

Lemma kok_queued h l tp : qs !! h = Some l -> In tp l -> tp ∈ T /\ out <> Some tp /\ ~ loose k tp.
Proof using Hk.
  intros Hq Hin. destruct (proj1 (ko_dom _ _ _ _ Hk h)) as [kd Hkd]; [by eexists|].
  destruct (ko_members _ _ _ _ Hk h kd l tp Hkd Hq Hin) as (H1 & H2 & H3). split; [done|split; [done|]].
  unfold loose, waits in *. destruct kd; intros Hf; first [by rewrite H3 in Hf|by rewrite (proj1 H3) in Hf].
Qed.

(** A thread is in one queue at most. *)
Lemma kok_once h1 l1 h2 l2 tp : qs !! h1 = Some l1 -> In tp l1 -> qs !! h2 = Some l2 -> In tp l2 -> h1 = h2.
Proof using Hk.
  intros. apply (li_apart _ _ (ko_linked _ _ _ _ Hk) h1 l1 h2 l2 tp); auto; by right.
Qed.

Lemma kok_unqueued tp : tp ∈ T -> (out = Some tp \/ loose k tp) -> unqueued qs tp.
Proof using Hk.
  intros Ht Ho h l Hq [->|Hin].
  - destruct (ko_apart _ _ _ _ Hk tp Ht) as [Hn _].
    destruct (proj1 (ko_dom _ _ _ _ Hk tp)) as [kd Hkd]; [by eexists|]. congruence.
  - destruct (kok_queued h l tp Hq Hin) as (_ & H1 & H2). tauto.
Qed.

Lemma kok_ready_list : exists l, qs !! rlist = Some l.
Proof using Hk.
  destruct (ko_ready _ _ _ _ Hk) as [Hr _].
  destruct (proj2 (ko_dom _ _ _ _ Hk rlist)) as [l Hl]; [by eexists|]. by exists l.
Qed.

Lemma kok_length h l : qs !! h = Some l -> (length l < fuel)%nat.
Proof using Hk.
  intros Hq. pose proof (li_nodup _ _ (ko_linked _ _ _ _ Hk) h l Hq) as [_ Hnd]%list.NoDup_cons.
  assert (Hle : (size (list_to_set l : gset Z) <= size T)%nat).
  { apply subseteq_size. intros x Hx. apply elem_of_list_to_set, list_elem_of_In in Hx.
    by apply (kok_queued h l x Hq). }
  rewrite size_list_to_set in Hle by done. pose proof (ko_fuel _ _ _ _ Hk). lia.
Qed.

(** The first of the ready list has the greatest priority; an empty list reads as 0. *)
Lemma firstprio_spec l : qs !! rlist = Some l ->
  firstprio rlist k = match l with [] => 0 | x :: _ => p_prio k x end /\
  forall x, In x l -> p_prio k x <= firstprio rlist k.
Proof using Hk.
  intros Hq. pose proof (li_seg _ _ (ko_linked _ _ _ _ Hk) rlist l Hq) as Hs.
  destruct (seg_ends _ _ _ _ Hs) as [Hn _]. unfold firstprio. rewrite Hn.
  pose proof (ko_sorted _ _ _ _ Hk l Hq) as Hsort. destruct l as [|y l]; cbn [headh].
  - split; [exact (proj2 (ko_prio _ _ _ _ Hk))|by intros x []].
  - split; [done|]. intros x [->|Hx]; [lia|]. apply StronglySorted_inv in Hsort as [_ Hsort].
    rewrite List.Forall_forall in Hsort. by apply Hsort.
Qed.
End Facts.
#[global] Arguments kok_queued {G}.
#[global] Arguments kok_once {G}.
#[global] Arguments kok_unqueued {G}.
#[global] Arguments kok_ready_list {G}.
#[global] Arguments kok_length {G}.
#[global] Arguments firstprio_spec {G}.

(** ** Moving one thread *)

(** A change of the queue [h] and of the thread [tp]. *)
Lemma kok_move G G' T out out' k k' qs h kd l l' tp :
  kok G T out k qs -> kind !! h = Some kd -> qs !! h = Some l -> tp ∈ T ->
  linked (lk k') (<[h := l']> qs) ->
  p_prio k' = p_prio k -> p_realprio k' = p_realprio k -> tref k' = tref k ->
  (forall x, x <> tp -> p_state k' x = p_state k x /\ p_u k' x = p_u k x) ->
  (forall x, x <> tp -> (In x l' <-> In x l) /\ (out' = Some x <-> out = Some x)) ->
  (forall x, x <> tp -> x ∈ T -> out <> Some x -> p_state k x = CH_STATE_CURRENT -> x = r_current k') ->
  (forall h2 l2, h2 <> h -> qs !! h2 = Some l2 -> ~ In tp l2) ->
  (forall trp, tref k trp <> tp) ->
  (In tp l' -> out' <> Some tp /\ waits kd h k' tp) ->
  (out' <> Some tp -> thread_ok k' (<[h := l']> qs) tp) ->
  (h = rlist -> by_prio k l') ->
  (forall sp, sp <> h -> s_cnt k' sp = s_cnt k sp) -> (kd = QSem -> sem_ok (s_cnt k' h) l') ->
  (sorted_kind kd = true -> by_prio k l') ->
  g_prio G' = g_prio G -> g_real G' = g_real G -> (kd = QMutex -> g_mtx G' !! h = Some l') ->
  (forall h2, h2 <> h -> g_mtx G' !! h2 = g_mtx G !! h2) ->
  kok G' T out' k' (<[h := l']> qs).
Proof.
  intros Hk Hkd Hq Ht Hl Hp Hrp Hr Hst Hin Hcur Hoth Hnt Hmem Hthr Hsort Hcnt Hsem Hsrt Hgp Hgr Hgm Hgo.
  assert (Hkeep : forall x h0 l0, x <> tp -> qs !! h0 = Some l0 -> In x l0 ->
    exists l1, <[h := l']> qs !! h0 = Some l1 /\ In x l1).
  { intros x h0 l0 Hx H0 Hx0. destruct (decide (h0 = h)) as [->|Hne].
    - rewrite lookup_insert_eq. eexists. split; [done|]. rewrite Hq in H0. injection H0 as <-.
      by apply Hin.
    - rewrite lookup_insert_ne by auto. by exists l0. }
  pose proof Hk as [_ Hdom Hrdy Hmems Hthrs Hprio Hsorted Hsems Htrefs Hapart Hidle Hfuel Hsby Hmtx Hpr].
  constructor; [done| |done| | | | | | |done|done|done| | |].
  - intros h2. destruct (decide (h2 = h)) as [->|Hne].
    + rewrite lookup_insert_eq, <- Hdom, Hq. split; by eexists.
    + by rewrite lookup_insert_ne by auto.
  - intros h2 kd2 l2 x Hk2 H2 Hx. destruct (decide (x = tp)) as [->|Hxt].
    + destruct (decide (h2 = h)) as [->|Hne].
      * rewrite lookup_insert_eq in H2. injection H2 as <-. rewrite Hkd in Hk2. injection Hk2 as <-.
        destruct (Hmem Hx). done.
      * rewrite lookup_insert_ne in H2 by auto. by destruct (Hoth h2 l2 Hne H2).
    + assert (Hold : exists l0, qs !! h2 = Some l0 /\ In x l0).
      { destruct (decide (h2 = h)) as [->|Hne].
        - rewrite lookup_insert_eq in H2. injection H2 as <-. exists l. split; [done|]. by apply Hin.
        - rewrite lookup_insert_ne in H2 by auto. by exists l2. }
      destruct Hold as (l0 & H0 & Hx0). destruct (Hmems h2 kd2 l0 x Hk2 H0 Hx0) as (M1 & M2 & M3).
      split; [done|]. split; [by rewrite (proj2 (Hin x Hxt))|].
      destruct (Hst x Hxt) as [E1 E2]. unfold waits in *. by rewrite E1, E2.
  - intros x Hx Ho. destruct (decide (x = tp)) as [->|Hxt]; [by apply Hthr|].
    assert (Ho' : out <> Some x) by (by rewrite <- (proj2 (Hin x Hxt))).
    destruct (Hst x Hxt) as [E1 E2]. specialize (Hthrs x Hx Ho'). unfold thread_ok in *.
    rewrite E1, E2, Hr. destruct Hthrs as [Hi Hthrs]. split; [done|].
    destruct (p_state k x) eqn:Es; try exact Hthrs.
    + destruct Hthrs as (l0 & H0 & Hx0). by apply (Hkeep x rlist l0).
    + by apply Hcur.
    + destruct Hthrs as (h0 & l0 & Hk0 & H0 & Hx0). exists h0.
      destruct (Hkeep x h0 l0 Hxt H0 Hx0) as (l1 & H1 & Hx1). by exists l1.
    + destruct Hthrs as (Hk0 & l0 & H0 & Hx0). split; [done|]. by apply (Hkeep x _ l0).
    + destruct Hthrs as (Hk0 & l0 & H0 & Hx0). split; [done|]. by apply (Hkeep x _ l0).
    + destruct Hthrs as (Hk0 & l0 & H0 & Hx0). split; [done|]. by apply (Hkeep x _ l0).
    + destruct Hthrs as (Hk0 & l0 & H0 & Hx0). split; [done|]. by apply (Hkeep x _ l0).
  - by rewrite Hp.
  - intros l0. destruct (decide (h = rlist)) as [->|Hne].
    + rewrite lookup_insert_eq. intros [= <-]. unfold by_prio in *. rewrite Hp. by apply Hsort.
    + rewrite lookup_insert_ne by auto. unfold by_prio in *. rewrite Hp. apply Hsorted.
  - intros sp l0 Hks. destruct (decide (sp = h)) as [->|Hne].
    + rewrite lookup_insert_eq. intros [= <-]. apply Hsem. congruence.
    + rewrite lookup_insert_ne by auto. intros H0. rewrite Hcnt by done. by apply (Hsems sp l0).
  - rewrite Hr. intros trp Hn. destruct (Htrefs trp Hn) as (R1 & R2 & R3 & R4).
    assert (Hxt : tref k trp <> tp) by apply Hnt. destruct (Hst _ Hxt) as [-> ->].
    split; [done|split; [|done]]. by rewrite (proj2 (Hin _ Hxt)).
  - intros h2 kd2 l2 Hk2 Hs2. unfold by_prio in *. rewrite Hp. destruct (decide (h2 = h)) as [->|Hne].
    + rewrite lookup_insert_eq. intros [= <-]. apply Hsrt. congruence.
    + rewrite lookup_insert_ne by auto. by apply (Hsby h2 kd2).
  - intros h2 l2 Hk2. destruct (decide (h2 = h)) as [->|Hne].
    + rewrite lookup_insert_eq. intros [= <-]. apply Hgm. congruence.
    + rewrite lookup_insert_ne by auto. rewrite Hgo by done. by apply Hmtx.
  - by rewrite Hp, Hrp, Hgp, Hgr.
Qed.

(** A change of a thread that is in no queue; the threads may grow by [tp]. *)
Lemma kok_thread_gen G G' T out out' k k' qs tp :
  kok G T out k qs -> lk k' = lk k -> s_cnt k' = s_cnt k ->
  (tp ∈ T \/ kind !! tp = None /\ tp <> NULL /\ (size ({[tp]} ∪ T) < fuel)%nat) ->
  (forall x, x <> tp -> p_prio k' x = p_prio k x /\ p_state k' x = p_state k x /\ p_u k' x = p_u k x) ->
  g_mtx G' = g_mtx G ->
  (forall x, x <> tp -> p_realprio k' x = p_realprio k x /\ g_prio G' x = g_prio G x /\ g_real G' x = g_real G x) ->
  p_prio k' tp = g_prio G' tp -> p_realprio k' tp = g_real G' tp ->
  0 < p_prio k' tp -> r_current k' = r_current k ->
  (forall x, x <> tp -> (out' = Some x <-> out = Some x)) ->
  (forall h l, qs !! h = Some l -> ~ In tp l) ->
  (forall trp, tref k' trp <> NULL -> tref k' trp <> tp -> tref k' trp = tref k trp) ->
  (forall trp, tref k' trp = tp -> out' <> Some tp /\ p_state k' tp = CH_STATE_SUSPENDED /\ p_u k' tp = trp) ->
  (forall x, x <> tp -> x ∈ T -> tref k (p_u k x) = x -> tref k' (p_u k x) = x) ->
  (out' <> Some tp -> thread_ok k' qs tp) ->
  kok G' ({[tp]} ∪ T) out' k' qs.
Proof.
  intros Hk Hl Hc Ht Hst Hgm Hgo Hgp Hgr Hp Hcur Hout Hnq Hr1 Hr2 Hr3 Hthr.
  pose proof Hk as [Hlk Hdom Hrdy Hmems Hthrs Hprio Hsorted Hsems Htrefs Hapart Hidle Hfuel Hsby Hmtx Hpr].
  assert (Hrl : rlist <> tp).
  { intros <-. destruct Hrdy as [Hrdy _]. destruct Ht as [Ht|[Ht _]]; [|congruence].
    destruct (Hapart _ Ht). congruence. }
  assert (Hkeep : forall h l, qs !! h = Some l -> by_prio k l -> by_prio k' l).
  { intros h l Hq Hso. unfold by_prio in *.
    assert (Hin : forall x, In x l -> p_prio k' x = p_prio k x).
    { intros x Hx. apply Hst. intros ->. by apply (Hnq h l). }
    clear - Hso Hin. induction Hso as [|x l H IH Hall]; constructor.
    + apply IH. intros y Hy. apply Hin. by right.
    + rewrite List.Forall_forall in *. intros y Hy. rewrite !Hin by (cbn; auto). by apply Hall. }
  constructor; [by rewrite Hl|done|done| | | | | | | |set_solver| | |by rewrite Hgm|].
  - intros h kd l x Hkd Hq Hx. assert (Hxt : x <> tp) by (intros ->; by apply (Hnq h l)).
    destruct (Hmems h kd l x Hkd Hq Hx) as (M1 & M2 & M3). split; [set_solver|].
    split; [by rewrite (Hout x Hxt)|]. destruct (Hst x Hxt) as (_ & E1 & E2). unfold waits in *.
    by rewrite E1, E2.
  - intros x Hx Ho. destruct (decide (x = tp)) as [->|Hxt]; [by apply Hthr|].
    assert (HxT : x ∈ T) by set_solver. assert (Ho' : out <> Some x) by (by rewrite <- (Hout x Hxt)).
    specialize (Hthrs x HxT Ho'). destruct (Hst x Hxt) as (_ & E1 & E2). unfold thread_ok in *.
    rewrite E1, E2, Hcur. destruct Hthrs as [Hi Hthrs]. split; [done|].
    destruct (p_state k x); try exact Hthrs. by apply Hr3.
  - destruct Hprio as [P1 P2]. split.
    + intros x Hx. destruct (decide (x = tp)) as [->|Hxt]; [done|]. rewrite (proj1 (Hst x Hxt)).
      apply P1. set_solver.
    + by rewrite (proj1 (Hst rlist Hrl)).
  - intros l Hq. apply (Hkeep rlist); auto.
  - by rewrite Hc.
  - intros trp Hn. destruct (decide (tref k' trp = tp)) as [E|Hne].
    + destruct (Hr2 trp E) as (R1 & R2 & R3). rewrite E. split; [set_solver|done].
    + assert (E := Hr1 trp Hn Hne). rewrite E in *. destruct (Htrefs trp Hn) as (R1 & R2 & R3 & R4).
      destruct (Hst _ Hne) as (_ & -> & ->). split; [set_solver|split; [|done]]. by rewrite (Hout _ Hne).
  - intros x Hx. destruct (decide (x = tp)) as [->|Hxt]; [|apply Hapart; set_solver].
    destruct Ht as [Ht|[? [? _]]]; [by apply Hapart|done].
  - destruct Ht as [Ht|[_ [_ Ht]]]; [|done]. by replace ({[tp]} ∪ T) with T by set_solver.
  - intros h kd l Hkd Hs Hq. apply (Hkeep h l Hq). by apply (Hsby h kd).
  - intros x Hx. destruct (decide (x = tp)) as [->|Hne]; [done|].
    destruct (Hst x Hne) as (-> & _). destruct (Hgo x Hne) as (-> & -> & ->). apply Hpr. set_solver.
Qed.

Context (G : ghost).

(** A change that keeps the priorities. *)
Lemma kok_thread T out out' k k' qs tp :
  kok G T out k qs -> tp ∈ T -> lk k' = lk k -> s_cnt k' = s_cnt k -> p_prio k' = p_prio k ->
  p_realprio k' = p_realprio k ->
  (forall x, x <> tp -> p_state k' x = p_state k x /\ p_u k' x = p_u k x) ->
  r_current k' = r_current k ->
  (forall x, x <> tp -> (out' = Some x <-> out = Some x)) ->
  (forall h l, qs !! h = Some l -> ~ In tp l) ->
  (forall trp, tref k' trp <> NULL -> tref k' trp <> tp -> tref k' trp = tref k trp) ->
  (forall trp, tref k' trp = tp -> out' <> Some tp /\ p_state k' tp = CH_STATE_SUSPENDED /\ p_u k' tp = trp) ->
  (forall x, x <> tp -> x ∈ T -> tref k (p_u k x) = x -> tref k' (p_u k x) = x) ->
  (out' <> Some tp -> thread_ok k' qs tp) ->
  kok G T out' k' qs.
Proof.
  intros Hk Ht Hl Hc Hp Hr Hst Hcur Hout Hnq Hr1 Hr2 Hr3 Hthr.
  replace T with ({[tp]} ∪ T) by set_solver. destruct (ko_prios _ _ _ _ Hk tp Ht) as [E1 E2].
  apply (kok_thread_gen G G T out out' k k' qs tp); try done; auto.
  - intros x Hx. rewrite Hp. by split; [|apply Hst].
  - by rewrite Hr.
  - by rewrite Hp.
  - by rewrite Hr.
  - rewrite Hp. by apply (ko_prio _ _ _ _ Hk).
Qed.

(** ** The primitives *)

Lemma upd_eq {A} a (v : A) f : upd a v f a = v.
Proof. unfold upd. by rewrite Z.eqb_refl. Qed.
Lemma upd_ne {A} a (v : A) f x : x <> a -> upd a v f x = f x.
Proof. intros H. unfold upd. by rewrite (proj2 (Z.eqb_neq x a)). Qed.

(** Fields the invariant does not speak of. *)
Lemma kok_preempt T out k qs a v : kok G T out k qs -> kok G T out (set_preempt a v k) qs.
Proof. intros []. by constructor. Qed.
Lemma kok_armed T out k qs a v : kok G T out k qs -> kok G T out (set_armed a v k) qs.
Proof. intros []. by constructor. Qed.

Lemma place_sorted k more tp l :
  by_prio k l -> (forall x, more x = true -> p_prio k tp <= p_prio k x) ->
  (forall x, more x = false -> p_prio k x <= p_prio k tp) -> by_prio k (place more tp l).
Proof.
  intros Hs Ht Hf. induction Hs as [|x l Hs IH Hall]; cbn [place].
  - by repeat constructor.
  - destruct (more x) eqn:E.
    + constructor; [exact IH|]. rewrite List.Forall_forall in *.
      intros y [->|Hy]%place_in; [by apply Ht|by apply Hall].
    + constructor; [by constructor|]. constructor; [by apply Hf|].
      rewrite List.Forall_forall in *. intros y Hy. specialize (Hall y Hy). specialize (Hf x E). lia.
Qed.

Lemma no_tref T tp k qs : kok G T (Some tp) k qs -> tp ∈ T -> forall trp, tref k trp <> tp.
Proof.
  intros Hk Ht trp E. destruct (ko_apart _ _ _ _ Hk tp Ht) as [_ Hn].
  destruct (ko_tref _ _ _ _ Hk trp) as (_ & Ho & _); congruence.
Qed.

(** Insertion of a thread in transit into the ready list. *)
Lemma insert_ready_ok T k qs l tp more :
  kok G T (Some tp) k qs -> tp ∈ T -> qs !! rlist = Some l ->
  (forall x, more x = true -> p_prio k tp <= p_prio k x) ->
  (forall x, more x = false -> p_prio k x <= p_prio k tp) -> more rlist = false ->
  exists cp, prio_scan fuel more (lk k) rlist = Some cp /\
    kok G T None (set_lk (insert_before cp tp (lk k)) (set_state tp CH_STATE_READY k))
      (<[rlist := place more tp l]> qs).
Proof.
  intros Hk Ht Hq Hm1 Hm2 Hm3.
  assert (Hu := kok_unqueued _ _ _ _ Hk tp Ht (or_introl eq_refl)).
  destruct (scan_insert more (lk k) qs rlist l tp fuel) as (cp & -> & Hl);
    [apply (ko_linked _ _ _ _ Hk)|done|done|done|by apply (kok_length _ _ _ _ Hk rlist)|].
  exists cp. split; [done|].
  apply (kok_move G G T (Some tp) None k _ qs rlist QReady l (place more tp l) tp); try done.
  - apply (ko_ready _ _ _ _ Hk).
  - intros x Hx. cbn. by rewrite upd_ne.
  - intros x Hx. split; [rewrite place_in; tauto|]. split; congruence.
  - intros x Hx HxT Ho Hc. cbn. pose proof (ko_threads _ _ _ _ Hk x HxT Ho) as [_ Hth].
    by rewrite Hc in Hth.
  - intros h2 l2 _ H2 Hin. apply (Hu h2 l2 H2). by right.
  - by apply (no_tref T tp k qs).
  - intros _. split; [done|]. cbn. by rewrite upd_eq.
  - intros _. unfold thread_ok. cbn. rewrite upd_eq. split; [by left|]. eexists.
    rewrite lookup_insert_eq. split; [done|]. apply place_in. by left.
  - intros _. apply place_sorted; [by apply (ko_sorted _ _ _ _ Hk)|done|done].
Qed.

Lemma ready_ok T k qs l tp : kok G T (Some tp) k qs -> tp ∈ T -> qs !! rlist = Some l ->
  exists m, chSchReadyI rlist fuel tp k = Some (set_lk m (set_state tp CH_STATE_READY k)) /\
    kok G T None (set_lk m (set_state tp CH_STATE_READY k))
      (<[rlist := place (fun x => p_prio k tp <=? p_prio k x) tp l]> qs).
Proof.
  intros Hk Ht Hq. destruct (ko_prio _ _ _ _ Hk) as [Hp Hr]. specialize (Hp tp Ht).
  destruct (insert_ready_ok T k qs l tp (fun x => p_prio k tp <=? p_prio k x)) as (cp & E & H);
    [done|done|done|intros x; lia|intros x; lia|lia|].
  exists (insert_before cp tp (lk k)). split; [|exact H]. unfold chSchReadyI. cbn [p_prio lk set_state].
  by rewrite E.
Qed.

(** The first of the ready list becomes the current thread. *)
Lemma pop_ready_ok T out k qs x l : kok G T out k qs -> qs !! rlist = Some (x :: l) ->
  (forall y, y ∈ T -> out <> Some y -> p_state k y <> CH_STATE_CURRENT) ->
  exists m, fifo_remove rlist k = (x, set_lk m k) /\
    kok G T out (set_state x CH_STATE_CURRENT (setcurrp x (set_lk m k))) (<[rlist := l]> qs) /\
    x ∈ T /\ out <> Some x.
Proof.
  intros Hk Hq Hnc. pose proof (ko_linked _ _ _ _ Hk) as Hl.
  assert (Hin : In x (x :: l)) by (by left).
  destruct (kok_queued _ _ _ _ Hk rlist _ x Hq Hin) as (Ht & Ho & _).
  destruct (ko_ready _ _ _ _ Hk) as [Hkr _].
  destruct (ko_members _ _ _ _ Hk rlist QReady _ x Hkr Hq Hin) as (_ & _ & Hst). cbn in Hst.
  pose proof (li_nodup _ _ Hl rlist _ Hq) as [_ [Hx _]%list.NoDup_cons]%list.NoDup_cons.
  rewrite list_elem_of_In in Hx.
  exists (queue_dequeue x (lk k)). split; [|split; [|done]].
  { unfold fifo_remove. by rewrite (fifo_remove_dequeue _ _ _ _ _ Hl Hq). }
  apply (kok_move G G T out out k _ qs rlist QReady (x :: l) l x); try done.
  - apply (linked_dequeue _ _ rlist [] l x Hl Hq).
  - intros y Hy. cbn. by rewrite upd_ne.
  - intros y Hy. cbn. split; [|done]. split; [tauto|]. intros [->|?]; done.
  - intros y Hy HyT Hyo Hc. by destruct (Hnc y).
  - intros h2 l2 Hne H2 Hx2. apply Hne. by apply (kok_once _ _ _ _ Hk h2 l2 rlist (x :: l) x).
  - intros trp E. destruct (ko_apart _ _ _ _ Hk x Ht) as [_ Hn].
    destruct (ko_tref _ _ _ _ Hk trp) as (_ & _ & Hs & _); congruence.
  - intros _. unfold thread_ok. cbn. rewrite upd_eq. split; [by right|done].
  - intros _. apply StronglySorted_inv with (a := x). by apply (ko_sorted _ _ _ _ Hk).
Qed.

(** ** A thread in transit comes to rest *)

Lemma take_out T k qs tp : kok G T None k qs -> tp ∈ T -> loose k tp ->
  p_state k tp <> CH_STATE_SUSPENDED -> kok G T (Some tp) k qs.
Proof.
  intros Hk Ht Hlo Hs. assert (Hu := kok_unqueued _ _ _ _ Hk tp Ht (or_intror Hlo)).
  apply (kok_thread T None (Some tp) k k qs tp); try done; auto.
  - intros x Hx. split; congruence.
  - intros h l Hq Hin. apply (Hu h l Hq). by right.
  - intros trp E. destruct (ko_apart _ _ _ _ Hk tp Ht) as [_ Hn].
    destruct (ko_tref _ _ _ _ Hk trp) as (_ & _ & Hs' & _); congruence.
Qed.

Section rest.
Context (T : gset Z) (k : kernel) (qs : gmap Z (list Z)) (tp : Z).
Hypotheses (Hk : kok G T (Some tp) k qs) (Ht : tp ∈ T) (Hi : tp <> idle).

Lemma rest_loose st : In st [CH_STATE_SLEEPING; CH_STATE_WTSTART; CH_STATE_WTOREVT; CH_STATE_WTANDEVT; CH_STATE_FINAL; CH_STATE_WTEXIT;
    CH_STATE_SNDMSG; CH_STATE_WTMSG] ->
  kok G T None (set_state tp st k) qs.
Proof using All.
  intros Hst. assert (Hu := kok_unqueued _ _ _ _ Hk tp Ht (or_introl eq_refl)).
  apply (kok_thread T (Some tp) None k _ qs tp); try done; auto.
  - intros x Hx. cbn. by rewrite upd_ne.
  - intros x Hx. split; congruence.
  - intros h l Hq Hin. apply (Hu h l Hq). by right.
  - intros trp E. by destruct (no_tref T tp k qs Hk Ht trp).
  - intros _. unfold thread_ok. cbn. rewrite upd_eq. split; [done|].
    by repeat destruct Hst as [<-|Hst].
Qed.

Lemma rest_suspended trp : tref k trp = NULL ->
  kok G T None (set_state tp CH_STATE_SUSPENDED (set_u tp trp (set_tref trp tp k))) qs.
Proof using All.
  intros Hr. assert (Hu := kok_unqueued _ _ _ _ Hk tp Ht (or_introl eq_refl)).
  apply (kok_thread T (Some tp) None k _ qs tp); try done; auto.
  - intros x Hx. cbn. by rewrite !upd_ne.
  - intros x Hx. split; congruence.
  - intros h l Hq Hin. apply (Hu h l Hq). by right.
  - intros trp' Hn Hne. cbn in *. destruct (decide (trp' = trp)) as [->|E]; [by rewrite upd_eq in Hne|].
    by rewrite upd_ne.
  - intros trp' E. cbn in *. destruct (decide (trp' = trp)) as [->|Hne]; [by rewrite !upd_eq|].
    rewrite upd_ne in E by done. by destruct (no_tref T tp k qs Hk Ht trp').
  - intros x Hx HxT E. cbn. rewrite upd_ne; [done|]. intros E'. rewrite E', Hr in E.
    by destruct (ko_apart _ _ _ _ Hk x HxT).
  - intros _. unfold thread_ok. cbn. rewrite !upd_eq. done.
Qed.

(** In a queue of which the counter, if it has one, is adjusted. *)
Lemma rest_queue h kd l st u c : kind !! h = Some kd -> qs !! h = Some l ->
  (kd = QSem /\ st = CH_STATE_WTSEM /\ u = h /\ c = s_cnt k h - 1 /\ s_cnt k h <= 0 /\ -2147483648 <= c) \/
  (kd = QThreads /\ st = CH_STATE_QUEUED /\ c = s_cnt k h) \/
  (kd = QMsg /\ st = CH_STATE_SNDMSGQ /\ u = h /\ c = s_cnt k h) ->
  kok G T None (set_lk (queue_insert tp h (lk k)) (set_state tp st (set_u tp u (set_cnt h c k))))
    (<[h := l ++ [tp]]> qs).
Proof using All.
  intros Hkd Hq Hc. assert (Hu := kok_unqueued _ _ _ _ Hk tp Ht (or_introl eq_refl)).
  apply (kok_move G G T (Some tp) None k _ qs h kd l (l ++ [tp]) tp); try done.
  - rewrite queue_insert_before. apply (linked_insert _ qs h l []); [apply (ko_linked _ _ _ _ Hk)| |done].
    by rewrite app_nil_r.
  - intros x Hx. cbn. by rewrite !upd_ne.
  - intros x Hx. split; [|split; congruence]. rewrite in_app_iff. cbn. split; [|by left].
    intros [?|[->|[]]]; done.
  - intros x Hx HxT Ho Hcur. pose proof (ko_threads _ _ _ _ Hk x HxT Ho) as [_ Hth].
    by rewrite Hcur in Hth.
  - intros h2 l2 _ H2 Hin. apply (Hu h2 l2 H2). by right.
  - by apply (no_tref T tp k qs).
  - intros _. split; [done|]. unfold waits. cbn. rewrite !upd_eq.
    by destruct Hc as [(-> & -> & -> & _)|[(-> & -> & _)|(-> & -> & -> & _)]].
  - intros _. unfold thread_ok. cbn. rewrite !upd_eq. split; [done|].
    assert (Hin : In tp (l ++ [tp])) by (apply in_app_iff; right; by left).
    destruct Hc as [(-> & -> & -> & _)|[(-> & -> & _)|(-> & -> & -> & _)]].
    + split; [done|]. eexists. by rewrite lookup_insert_eq.
    + exists h. eexists. by rewrite lookup_insert_eq.
    + split; [done|]. eexists. by rewrite lookup_insert_eq.
  - intros ->. destruct (ko_ready _ _ _ _ Hk) as [Hr _]. rewrite Hr in Hkd. injection Hkd as <-.
    by destruct Hc as [(? & _)|[(? & _)|(? & _)]].
  - intros sp Hsp. cbn. by rewrite upd_ne.
  - intros ->. cbn. rewrite upd_eq. destruct (ko_sem _ _ _ _ Hk h l Hkd Hq) as [S1 S2].
    destruct Hc as [(_ & _ & _ & -> & ? & ?)|[(? & _)|(? & _)]]; [|done|done]. unfold sem_ok.
    rewrite length_app. cbn. lia.
  - by destruct Hc as [(-> & _)|[(-> & _)|(-> & _)]].
  - by destruct Hc as [(-> & _)|[(-> & _)|(-> & _)]].
Qed.
End rest.

Lemma by_prio_remove k l1 tp l2 : by_prio k (l1 ++ tp :: l2) -> by_prio k (l1 ++ l2).
Proof.
  unfold by_prio. induction l1 as [|x l1 IH]; cbn; intros [H1 H2]%StronglySorted_inv; [done|].
  constructor; [by apply IH|]. rewrite List.Forall_forall in *. intros y Hy. apply H2.
  rewrite in_app_iff in *. cbn. tauto.
Qed.

(** A thread is taken from the queue it is in; the counter of a semaphore is adjusted. *)
Lemma leave_queue G' T k qs h kd l1 l2 tp c : kok G T None k qs -> kind !! h = Some kd ->
  qs !! h = Some (l1 ++ tp :: l2) -> c = s_cnt k h + (if decide (kd = QSem) then 1 else 0) ->
  g_prio G' = g_prio G -> g_real G' = g_real G -> (kd = QMutex -> g_mtx G' !! h = Some (l1 ++ l2)) ->
  (forall h2, h2 <> h -> g_mtx G' !! h2 = g_mtx G !! h2) ->
  kok G' T (Some tp) (set_lk (queue_dequeue tp (lk k)) (set_cnt h c k)) (<[h := l1 ++ l2]> qs) /\ tp ∈ T.
Proof.
  intros Hk Hkd Hq Hc Hg1 Hg2 Hg3 Hg4. pose proof (ko_linked _ _ _ _ Hk) as Hl.
  assert (Hin : In tp (l1 ++ tp :: l2)) by (apply in_app_iff; cbn; auto).
  destruct (ko_members _ _ _ _ Hk h kd _ tp Hkd Hq Hin) as (Ht & _ & Hw).
  pose proof (li_nodup _ _ Hl h _ Hq) as [_ Hnd]%list.NoDup_cons.
  rewrite <- Permutation_middle in Hnd. apply list.NoDup_cons in Hnd as [Hnd _].
  rewrite list_elem_of_In in Hnd.
  split; [|done].
  apply (kok_move G G' T None (Some tp) k _ qs h kd (l1 ++ tp :: l2) (l1 ++ l2) tp); try done.
  - by apply linked_dequeue.
  - intros x Hx. split; [|split; congruence]. rewrite !in_app_iff. cbn. split; [tauto|].
    intros [?|[->|?]]; auto. done.
  - intros x Hx HxT Ho Hcur. pose proof (ko_threads _ _ _ _ Hk x HxT Ho) as [_ Hth].
    by rewrite Hcur in Hth.
  - intros h2 l0 Hne H2 Hx2. apply Hne. by apply (kok_once _ _ _ _ Hk h2 l0 h (l1 ++ tp :: l2) tp).
  - intros trp E. destruct (ko_apart _ _ _ _ Hk tp Ht) as [_ Hn].
    destruct (ko_tref _ _ _ _ Hk trp) as (_ & _ & Hs & _); [congruence|]. rewrite E in Hs.
    unfold waits in Hw. destruct kd; first [congruence|destruct Hw; congruence].
  - intros ->. apply (by_prio_remove k l1 tp l2). by apply (ko_sorted _ _ _ _ Hk).
  - intros sp Hsp. cbn. by rewrite upd_ne.
  - intros ->. cbn. rewrite upd_eq, Hc, decide_True by done.
    destruct (ko_sem _ _ _ _ Hk h (l1 ++ tp :: l2) Hkd Hq) as [S1 S2]. unfold sem_ok.
    rewrite !length_app in *. cbn in *. lia.
  - intros Hsk. apply (by_prio_remove k l1 tp l2). by apply (ko_sorted_by _ _ _ _ Hk h kd).
Qed.

(** ** Switching *)

Definition blocked (st : tstate) : Prop :=
  match st with
  | CH_STATE_READY | CH_STATE_SUSPENDED | CH_STATE_QUEUED | CH_STATE_WTSEM | CH_STATE_WTCOND
  | CH_STATE_SLEEPING | CH_STATE_WTOREVT | CH_STATE_WTANDEVT => True
  | _ => False
  end.

(** The running thread and the armed timers, which belong to sleeping threads or to
    the thread that was just switched in. *)
Record kmid (G : ghost) (T : gset Z) (out : option Z) (k : kernel) (qs : gmap Z (list Z)) : Prop := {
  km_ok : kok G T out k qs;
  km_run : r_current k ∈ T /\ p_state k (r_current k) = CH_STATE_CURRENT /\ out <> Some (r_current k);
  km_armed : forall x, armed k x = true -> x ∈ T /\ (x = r_current k \/ blocked (p_state k x))
}.
#[global] Arguments km_ok {G}.
#[global] Arguments km_run {G}.
#[global] Arguments km_armed {G}.

Definition top (k : kernel) (qs : gmap Z (list Z)) : Prop :=
  forall l x, qs !! rlist = Some l -> In x l -> p_prio k x <= p_prio k (r_current k).

Definition quiet (k : kernel) : Prop := armed k (r_current k) = false.

(** The current thread set aside. *)
Lemma kmid_current T k qs : kmid G T None k qs -> kok G T (Some (r_current k)) k qs /\
  forall y, y ∈ T -> Some (r_current k) <> Some y -> p_state k y <> CH_STATE_CURRENT.
Proof.
  intros [Hk (Hc & Hs & _) _]. split.
  - apply take_out; [done|done| |congruence]. unfold loose. by rewrite Hs.
  - intros y Hy Hne E. destruct (ko_threads _ _ _ _ Hk y Hy ltac:(done)) as [_ Hth].
    rewrite E in Hth. congruence.
Qed.

Lemma current_unqueued T out k qs h l : kmid G T out k qs -> qs !! h = Some l -> ~ In (r_current k) l.
Proof.
  intros [Hk (_ & Hs & _) _] Hq Hin. destruct (kok_queued _ _ _ _ Hk h l _ Hq Hin) as (_ & _ & Hlo).
  apply Hlo. unfold loose. by rewrite Hs.
Qed.

(** A woken thread enters the ready list. *)
Lemma ready_mid T k qs tp : kmid G T (Some tp) k qs -> tp ∈ T ->
  exists m l, chSchReadyI rlist fuel tp k = Some (set_lk m (set_state tp CH_STATE_READY k)) /\
    qs !! rlist = Some l /\
    kmid G T None (set_lk m (set_state tp CH_STATE_READY k))
      (<[rlist := place (fun x => p_prio k tp <=? p_prio k x) tp l]> qs).
Proof.
  intros [Hk (Hc & Hs & Ho) Har] Ht. destruct (kok_ready_list _ _ _ _ Hk) as [l Hq].
  destruct (ready_ok T k qs l tp Hk Ht Hq) as (m & E & H). exists m, l. split; [done|split; [done|]].
  assert (Hne : r_current k <> tp) by congruence.
  constructor; [done| |]; cbn.
  - rewrite upd_ne by done. done.
  - intros x Hx. destruct (decide (x = tp)) as [->|Hxt]; [rewrite upd_eq; split; [done|by right]|].
    rewrite upd_ne by done. by apply Har.
Qed.

(** The first ready thread is switched in, and the current one put back behind the
    threads that satisfy [more]. *)
Lemma switch_ok T k qs x l more :
  kmid G T None k qs -> qs !! rlist = Some (x :: l) ->
  (forall y, more y = true -> p_prio k (r_current k) <= p_prio k y) ->
  (forall y, more y = false -> p_prio k y <= p_prio k (r_current k)) -> more rlist = false ->
  p_prio k (r_current k) <= p_prio k x ->
  exists m cp, fifo_remove rlist k = (x, set_lk m k) /\
    prio_scan fuel more m rlist = Some cp /\
    let k' := set_lk (insert_before cp (r_current k) m)
      (set_state (r_current k) CH_STATE_READY (set_state x CH_STATE_CURRENT (setcurrp x (set_lk m k)))) in
    kmid G T None k' (<[rlist := place more (r_current k) l]> qs) /\
    top k' (<[rlist := place more (r_current k) l]> qs) /\ swapped k k'.
Proof.
  intros Hkm Hq Hm1 Hm2 Hm3 Hx. destruct (kmid_current T k qs Hkm) as [Hk Hnc].
  pose proof Hkm as [Hk0 (Hc & Hs & _) Har].
  destruct (pop_ready_ok T _ k qs x l Hk Hq Hnc) as (m & E & Hk1 & Hxt & Hxo).
  set (k1 := set_state x CH_STATE_CURRENT (setcurrp x (set_lk m k))) in *.
  set (qs1 := <[rlist := l]> qs) in *.
  assert (Hq1 : qs1 !! rlist = Some l) by apply lookup_insert_eq.
  destruct (insert_ready_ok T k1 qs1 l (r_current k) more Hk1 Hc Hq1 Hm1 Hm2 Hm3) as (cp & Ecp & Hk2).
  exists m, cp. split; [done|split; [exact Ecp|]]. unfold qs1 in Hk2. rewrite insert_insert_eq in Hk2.
  intros k'. assert (Hne : x <> r_current k) by congruence. split; [constructor; [exact Hk2| |]|split].
  - cbn. rewrite upd_ne, upd_eq by done. done.
  - intros y Hy. cbn in *. destruct (Har y Hy) as [Hy1 Hy2]. split; [done|].
    destruct (decide (y = r_current k)) as [->|Hyc]; [right; by rewrite upd_eq|].
    rewrite upd_ne by done. destruct (decide (y = x)) as [->|Hyx]; [by left|right].
    rewrite upd_ne by done. destruct Hy2; [congruence|done].
  - intros l' y Hl'. rewrite lookup_insert_eq in Hl'. injection Hl' as <-. intros Hy. cbn.
    apply place_in in Hy as [->|Hy]; [done|]. pose proof (ko_sorted _ _ _ _ Hk0 _ Hq) as Hso.
    apply StronglySorted_inv in Hso as [_ Hso]. rewrite List.Forall_forall in Hso. by apply Hso.
  - split; [done|split; [done|]]. intros y. cbn. unfold upd. destruct (Z.eqb_spec y (r_current k)) as [->|]; [right; by rewrite Hs|].
    destruct (Z.eqb_spec y x) as [->|]; [right|by left].
    destruct (ko_members _ _ _ _ Hk0 rlist QReady _ x (proj1 (ko_ready _ _ _ _ Hk0)) Hq (or_introl eq_refl))
      as (_ & _ & Hw). cbn in Hw. by rewrite Hw.
Qed.

Lemma kmid_preempt T out k qs a v : kmid G T out k qs -> kmid G T out (set_preempt a v k) qs.
Proof. intros []. constructor; [by apply kok_preempt|done|done]. Qed.

Lemma ahead_ok T k qs x l : kmid G T None k qs -> qs !! rlist = Some (x :: l) ->
  p_prio k (r_current k) <= p_prio k x ->
  exists k' qs', chSchDoRescheduleAhead rlist fuel k = Some k' /\ kmid G T None k' qs' /\ top k' qs' /\
    r_current k' = x /\ swapped k k' /\ p_preempt k' = p_preempt k /\
    qs' = <[rlist := place (fun y => p_prio k (r_current k) <? p_prio k y) (r_current k) l]> qs.
Proof.
  intros Hk Hq Hx. pose proof (km_run _ _ _ _ Hk) as (Hc & _).
  destruct (ko_prio _ _ _ _ (km_ok _ _ _ _ Hk)) as [Hp Hr]. specialize (Hp _ Hc).
  destruct (switch_ok T k qs x l (fun y => p_prio k (r_current k) <? p_prio k y)) as (m & cp & E & Ecp & H1 & H2 & H3);
    [done|done|intros y; lia|intros y; lia|lia|done|].
  eexists _, _. split; [|split; [exact H1|split; [exact H2|split; [done|split; [exact H3|done]]]]].
  unfold chSchDoRescheduleAhead. rewrite E. cbn [lk p_prio set_state setcurrp set_lk r_current].
  by rewrite Ecp.
Qed.

Lemma behind_ok T k qs x l : kmid G T None k qs -> qs !! rlist = Some (x :: l) ->
  p_prio k (r_current k) <= p_prio k x ->
  exists k' qs', chSchDoRescheduleBehind rlist fuel k = Some k' /\ kmid G T None k' qs' /\ top k' qs' /\
    r_current k' = x /\ swapped k k' /\
    p_preempt k' = upd (r_current k) CH_CFG_TIME_QUANTUM (p_preempt k) /\
    qs' = <[rlist := place (fun y => p_prio k (r_current k) <=? p_prio k y) (r_current k) l]> qs.
Proof.
  intros Hk Hq Hx. pose proof (km_run _ _ _ _ Hk) as (Hc & _).
  destruct (ko_prio _ _ _ _ (km_ok _ _ _ _ Hk)) as [Hp Hr]. specialize (Hp _ Hc).
  destruct (switch_ok T k qs x l (fun y => p_prio k (r_current k) <=? p_prio k y)) as (m & cp & E & Ecp & H1 & H2 & H3);
    [done|done|intros y; lia|intros y; lia|lia|done|].
  eexists _, _. split; [|split; [|split]].
  - unfold chSchDoRescheduleBehind, chSchReadyI. rewrite E.
    cbn [lk p_prio set_state setcurrp set_lk set_preempt r_current]. rewrite Ecp. reflexivity.
  - exact (kmid_preempt _ _ _ _ (r_current k) CH_CFG_TIME_QUANTUM H1).
  - exact H2.
  - split; [done|split; [exact H3|done]].
Qed.

(** The ready list seen through [firstprio]. *)
Lemma first_cases T out k qs : kok G T out k qs -> (forall x, x ∈ T -> 0 < p_prio k x) ->
  exists l, qs !! rlist = Some l /\
    (forall x, In x l -> p_prio k x <= firstprio rlist k) /\
    (l = [] /\ firstprio rlist k = 0 \/ exists x r, l = x :: r /\ firstprio rlist k = p_prio k x).
Proof.
  intros Hk Hp. destruct (kok_ready_list _ _ _ _ Hk) as [l Hq].
  destruct (firstprio_spec _ _ _ _ Hk l Hq) as [H1 H2]. exists l. split; [done|split; [done|]].
  destruct l as [|x r]; [by left|right]. by exists x, r.
Qed.

Lemma current_prio T out k qs : kmid G T out k qs -> 0 < p_prio k (r_current k).
Proof. intros [Hk (Hc & _) _]. by apply (ko_prio _ _ _ _ Hk). Qed.

Lemma reschedule_ok T k qs : kmid G T None k qs ->
  exists k' qs', chSchRescheduleS rlist fuel k = Some k' /\ kmid G T None k' qs' /\ top k' qs' /\ swapped k k'.
Proof.
  intros Hk. pose proof (km_ok _ _ _ _ Hk) as Hok.
  destruct (first_cases T None k qs Hok (proj1 (ko_prio _ _ _ _ Hok))) as (l & Hq & Hmax & Hl).
  pose proof (current_prio _ _ _ _ Hk) as Hc. unfold chSchRescheduleS, chSchIsRescRequiredI.
  destruct (p_prio k (r_current k) <? firstprio rlist k) eqn:E.
  - destruct Hl as [[-> Hl]|(x & r & -> & Hl)]; [lia|].
    destruct (ahead_ok T k qs x r Hk Hq) as (k' & qs' & H1 & H2 & H3 & _ & H4 & _); [lia|]. by exists k', qs'.
  - exists k, qs. split; [done|split; [done|split; [|by apply swapped_refl]]]. intros l' x Hl' Hx. rewrite Hq in Hl'.
    injection Hl' as <-. specialize (Hmax x Hx). lia.
Qed.

Lemma yield_ok T k qs : kmid G T None k qs -> top k qs ->
  exists k' qs', chSchDoYieldS rlist fuel k = Some k' /\ kmid G T None k' qs' /\ top k' qs' /\ swapped k k'.
Proof.
  intros Hk Htop. pose proof (km_ok _ _ _ _ Hk) as Hok.
  destruct (first_cases T None k qs Hok (proj1 (ko_prio _ _ _ _ Hok))) as (l & Hq & Hmax & Hl).
  pose proof (current_prio _ _ _ _ Hk) as Hc. unfold chSchDoYieldS, chSchCanYieldS.
  destruct (p_prio k (r_current k) <=? firstprio rlist k) eqn:E;
    [|exists k, qs; repeat (split; [done|]); by apply swapped_refl].
  destruct Hl as [[-> Hl]|(x & r & -> & Hl)]; [lia|].
  destruct (behind_ok T k qs x r Hk Hq) as (k' & qs' & H1 & H2 & H3 & _ & H4 & _); [lia|]. by exists k', qs'.
Qed.

(** The end of an interrupt restores the order. *)
Lemma epilogue_ok T k qs : kmid G T None k qs ->
  exists k' qs', irq_epilogue rlist fuel k = Some k' /\ kmid G T None k' qs' /\ top k' qs' /\ swapped k k'.
Proof.
  intros Hk. pose proof (km_ok _ _ _ _ Hk) as Hok.
  destruct (first_cases T None k qs Hok (proj1 (ko_prio _ _ _ _ Hok))) as (l & Hq & Hmax & Hl).
  pose proof (current_prio _ _ _ _ Hk) as Hc.
  unfold irq_epilogue, chSchIsPreemptionRequired, chSchDoReschedule. cbv zeta.
  assert (Hstay : firstprio rlist k <= p_prio k (r_current k) -> top k qs).
  { intros Hle l' x Hl' Hx. rewrite Hq in Hl'. injection Hl' as <-. specialize (Hmax x Hx). lia. }
  destruct (0 <? p_preempt k (r_current k)) eqn:Ep.
  - rewrite (proj2 (Z.eqb_neq _ 0)) by lia. destruct (p_prio k (r_current k) <? firstprio rlist k) eqn:E.
    + destruct Hl as [[-> Hl]|(x & r & -> & Hl)]; [lia|].
      destruct (ahead_ok T k qs x r Hk Hq) as (k' & qs' & H1 & H2 & H3 & _ & H4 & _); [lia|]. by exists k', qs'.
    + exists k, qs. split; [done|split; [done|split; [apply Hstay; lia|by apply swapped_refl]]].
  - destruct (p_prio k (r_current k) <=? firstprio rlist k) eqn:E.
    + destruct Hl as [[-> Hl]|(x & r & -> & Hl)]; [lia|]. destruct (p_preempt k (r_current k) =? 0).
      * destruct (behind_ok T k qs x r Hk Hq) as (k' & qs' & H1 & H2 & H3 & _ & H4 & _); [lia|]. by exists k', qs'.
      * destruct (ahead_ok T k qs x r Hk Hq) as (k' & qs' & H1 & H2 & H3 & _ & H4 & _); [lia|]. by exists k', qs'.
    + exists k, qs. split; [done|split; [done|split; [apply Hstay; lia|by apply swapped_refl]]].
Qed.

(** The current thread, put to rest in [k1], gives way to the first ready thread. *)
Lemma go_sleep_gen T k qs st :
  let cur := r_current k in
  kok G T None (set_state cur st k) qs -> cur ∈ T -> cur <> idle -> st <> CH_STATE_CURRENT ->
  st <> CH_STATE_READY ->
  (forall x, armed k x = true -> x ∈ T /\ (x = cur /\ blocked st \/ x <> cur /\ blocked (p_state k x))) ->
  exists qs', kmid G T None (chSchGoSleepS rlist st k) qs' /\ top (chSchGoSleepS rlist st k) qs' /\
    (forall sp, sp <> rlist -> qs' !! sp = qs !! sp) /\ slept st k (chSchGoSleepS rlist st k).
Proof.
  intros cur Hk Hc Hci Hst Hnr Har. destruct (kok_ready_list _ _ _ _ Hk) as [l Hq].
  assert (Hnc : forall y, y ∈ T -> None <> Some y -> p_state (set_state cur st k) y <> CH_STATE_CURRENT).
  { intros y Hy _ E. destruct (ko_threads _ _ _ _ Hk y Hy ltac:(done)) as [_ Hth]. rewrite E in Hth.
    cbn in E, Hth. subst y. unfold cur in E. by rewrite upd_eq in E. }
  assert (Hrd : exists x r, l = x :: r).
  { destruct (ko_threads _ _ _ _ Hk idle (ko_idle _ _ _ _ Hk) ltac:(done)) as [Hi Hth].
    destruct (Hi eq_refl) as [E|E]; rewrite E in Hth.
    - destruct Hth as (l' & Hl' & Hin). rewrite Hq in Hl'. injection Hl' as <-.
      destruct l as [|x r]; [done|by exists x, r].
    - cbn in Hth. exfalso; apply Hci; symmetry; exact Hth. }
  destruct Hrd as (x & r & ->).
  assert (Hk' := kok_preempt T None _ qs cur CH_CFG_TIME_QUANTUM Hk).
  destruct (pop_ready_ok T None _ qs x r Hk' Hq Hnc) as (m & E & Hk1 & Hx & _).
  exists (<[rlist := r]> qs).
  assert (Eg : chSchGoSleepS rlist st k =
    set_state x CH_STATE_CURRENT (setcurrp x (set_lk m (set_preempt cur CH_CFG_TIME_QUANTUM (set_state cur st k))))).
  { unfold chSchGoSleepS. fold cur. rewrite E. done. }
  rewrite Eg. split; [constructor; [exact Hk1| |]|split].
  - cbn. by rewrite upd_eq.
  - intros y Hy. cbn in *. destruct (Har y Hy) as [Hy1 Hy2]. split; [done|].
    destruct (decide (y = x)) as [->|Hyx]; [by left|right]. rewrite upd_ne by done.
    destruct (decide (y = cur)) as [->|Hyc]; [rewrite upd_eq; tauto|]. rewrite upd_ne by done. tauto.
  - intros l' y Hl' Hy. rewrite lookup_insert_eq in Hl'. injection Hl' as <-. cbn.
    pose proof (ko_sorted _ _ _ _ Hk _ Hq) as Hso. apply StronglySorted_inv in Hso as [_ Hso].
    rewrite List.Forall_forall in Hso. by apply Hso.
  - split; [intros sp Hsp; by rewrite lookup_insert_ne|].
    destruct (ko_members _ _ _ _ Hk rlist QReady _ x (proj1 (ko_ready _ _ _ _ Hk)) Hq (or_introl eq_refl))
      as (_ & _ & Hw). cbn in Hw.
    assert (x <> cur) by (intros ->; by rewrite upd_eq in Hw). rewrite upd_ne in Hw by done. split; [auto|done].
Qed.

Lemma go_sleep_ok T k qs st :
  let cur := r_current k in
  kok G T None (set_state cur st k) qs -> cur ∈ T -> cur <> idle -> blocked st -> st <> CH_STATE_READY ->
  (forall x, armed k x = true -> x ∈ T /\ (x = cur \/ blocked (p_state k x))) ->
  exists qs', kmid G T None (chSchGoSleepS rlist st k) qs' /\ top (chSchGoSleepS rlist st k) qs' /\
    (forall sp, sp <> rlist -> qs' !! sp = qs !! sp) /\ slept st k (chSchGoSleepS rlist st k).
Proof.
  intros cur Hk Hc Hci Hst Hnr Har. apply go_sleep_gen; try done; [by intros ->|].
  intros x Hx. destruct (Har x Hx) as [H1 H2]. split; [done|]. fold cur.
  destruct (decide (x = cur)); [by left|right]. tauto.
Qed.

(** The thread that runs again has no timer. *)
Lemma resume_ok T k qs : kmid G T None k qs -> top k qs ->
  kmid G T None (timeout_resume k) qs /\ top (timeout_resume k) qs /\ quiet (timeout_resume k).
Proof.
  intros Hk Ht. unfold timeout_resume, quiet. destruct (armed k (r_current k)) eqn:E; [|done].
  destruct Hk as [Hok Hrun Har]. split; [constructor; [by apply kok_armed|done|]|split; [done|]].
  - intros x Hx. cbn in *. destruct (decide (x = r_current k)) as [->|Hne]; [by rewrite upd_eq in Hx|].
    rewrite upd_ne in Hx by done. by apply Har.
  - cbn. by rewrite upd_eq.
Qed.

(** ** Waking *)

Lemma kok_ext T out k k' qs : kok G T out k qs ->
  lk k' = lk k -> p_prio k' = p_prio k -> (forall x, p_u k' x = p_u k x) -> r_current k' = r_current k ->
  tref k' = tref k -> (forall x, s_cnt k' x = s_cnt k x) -> (forall x, p_state k' x = p_state k x) ->
  p_realprio k' = p_realprio k ->
  kok G T out k' qs.
Proof.
  intros [] E1 E2 E3 E4 E5 E6 E7 E8.
  constructor; rewrite ?E1, ?E2, ?E5, ?E8; try done.
  - intros h kd l tp H1 H2 H3. unfold waits. rewrite E3, E7. by apply (ko_members0 h kd l).
  - intros tp H1 H2. specialize (ko_threads0 tp H1 H2). unfold thread_ok in *. by rewrite E3, E4, E5, E7.
  - unfold by_prio in *. by rewrite E2.
  - intros sp l H1 H2. rewrite E6. by apply ko_sem0.
  - intros trp. rewrite E3, E7. apply ko_tref0.
  - intros h kd l. unfold by_prio. rewrite E2. apply ko_sorted_by0.
Qed.

Lemma kok_u T tp k qs v : kok G T (Some tp) k qs -> tp ∈ T -> kok G T (Some tp) (set_u tp v k) qs.
Proof.
  intros Hk Ht. assert (Hu := kok_unqueued _ _ _ _ Hk tp Ht (or_introl eq_refl)).
  apply (kok_thread T (Some tp) (Some tp) k _ qs tp); try done; auto.
  - intros x Hx. cbn. by rewrite upd_ne.
  - intros h l Hq Hin. apply (Hu h l Hq). by right.
  - intros trp E. by destruct (no_tref T tp k qs Hk Ht trp).
Qed.

Lemma kmid_u T tp k qs v : kmid G T (Some tp) k qs -> tp ∈ T -> kmid G T (Some tp) (set_u tp v k) qs.
Proof. intros [] Ht. constructor; [by apply kok_u|done|done]. Qed.

(** A thread in transit becomes the current one, the current one being in transit. *)
Lemma kok_swap T k qs tp : kok G T (Some tp) k qs -> tp ∈ T -> r_current k ∈ T -> tp <> r_current k ->
  p_state k (r_current k) = CH_STATE_CURRENT ->
  kok G T (Some (r_current k)) (set_state tp CH_STATE_CURRENT (setcurrp tp k)) qs.
Proof.
  intros Hk Ht Hc Hne Hs.
  pose proof Hk as [Hlk Hdom Hrdy Hmems Hthrs Hprio Hsorted Hsems Htrefs Hapart Hidle Hfuel Hsby Hmtx Hpr].
  assert (Hq : forall h l x, qs !! h = Some l -> In x l -> x <> tp /\ x <> r_current k).
  { intros h l x Hq Hin. destruct (kok_queued _ _ _ _ Hk h l x Hq Hin) as (_ & H1 & H2).
    split; [congruence|]. intros ->. apply H2. unfold loose. by rewrite Hs. }
  constructor; [done|done|done| | |done|done|done| |done|done|done|done|done|done].
  - intros h kd l x Hkd Hq' Hin. destruct (Hmems h kd l x Hkd Hq' Hin) as (M1 & M2 & M3).
    destruct (Hq h l x Hq' Hin) as [Hxt Hxc]. split; [done|split; [congruence|]].
    unfold waits in *. cbn. by rewrite upd_ne.
  - intros x Hx Hxo. unfold thread_ok. cbn. destruct (decide (x = tp)) as [->|Hxt].
    + rewrite upd_eq. split; [by right|done].
    + rewrite upd_ne by done. destruct (Hthrs x Hx) as [Hi Hth]; [congruence|]. split; [done|].
      destruct (p_state k x) eqn:E; try exact Hth. congruence.
  - intros trp Hn. destruct (Htrefs trp Hn) as (R1 & R2 & R3 & R4). split; [done|].
    split; [intros [= E]; rewrite <- E in R3; congruence|]. cbn. rewrite upd_ne by congruence. done.
Qed.

Lemma wakeupS_ok T k qs ntp msg : kmid G T (Some ntp) k qs -> ntp ∈ T -> top k qs ->
  exists k' qs', chSchWakeupS rlist fuel ntp msg k = Some k' /\ kmid G T None k' qs' /\ top k' qs' /\ woke ntp k k' /\
    p_u k' ntp = msg /\ forall h, h <> rlist -> qs' !! h = qs !! h.
Proof.
  intros Hk Ht Htop. assert (Hku := kmid_u T ntp k qs msg Hk Ht). pose proof Hku as [Hok (Hc & Hs & Ho) Har].
  unfold chSchWakeupS. cbn [p_prio set_u r_current] in *.
  destruct (p_prio k ntp <=? p_prio k (r_current k)) eqn:E.
  - destruct (ready_mid T _ qs ntp Hku Ht) as (m & l & E1 & Hq & H). eexists _, _. split; [exact E1|].
    split; [exact H|split].
    + intros l' x Hl' Hx. rewrite lookup_insert_eq in Hl'. injection Hl' as <-. cbn.
      apply place_in in Hx as [->|Hx]; [lia|]. by apply (Htop l).
    + split; [split; [done|split; [cbn; by rewrite upd_eq|]]; intros x Hx; cbn; rewrite !upd_ne by done; auto|].
      split; [cbn; by rewrite upd_eq|]. intros h Hh. by rewrite lookup_insert_ne.
  - assert (Hne : ntp <> r_current k) by congruence.
    assert (Hsw := kok_swap T _ qs ntp Hok Ht Hc Hne Hs). cbn [r_current set_u] in Hsw.
    destruct (kok_ready_list _ _ _ _ Hok) as [l Hq].
    destruct (ko_prio _ _ _ _ Hok) as [Hp Hr]. specialize (Hp _ Hc). cbn in Hp, Hr.
    destruct (insert_ready_ok T _ qs l (r_current k) (fun x => p_prio k (r_current k) <=? p_prio k x)
                Hsw Hc Hq) as (cp & Ecp & H); [cbn; intros x; lia|cbn; intros x; lia|lia|].
    cbn [lk set_state setcurrp set_u] in Ecp.
    eexists _, _. split; [|split; [constructor|split]].
    + unfold chSchReadyI. cbn [lk p_prio set_state set_u r_current]. rewrite Ecp. reflexivity.
    + apply (kok_ext _ _ _ _ _ H); try (intros; reflexivity). intros x. cbn. unfold upd.
      destruct (Z.eqb_spec x ntp), (Z.eqb_spec x (r_current k)); congruence.
    + cbn. by rewrite upd_eq.
    + intros x Hx. cbn in *. destruct (Har x Hx) as [Hx1 Hx2]. split; [done|].
      destruct (decide (x = ntp)) as [->|Hxn]; [by left|right]. rewrite upd_ne by done.
      destruct (decide (x = r_current k)) as [->|Hxc]; [by rewrite upd_eq|]. rewrite upd_ne by done.
      by destruct Hx2.
    + intros l' x Hl' Hx. rewrite lookup_insert_eq in Hl'. injection Hl' as <-. cbn.
      apply place_in in Hx as [->|Hx]; [lia|]. specialize (Htop l x Hq Hx). lia.
    + split; [|split; [cbn; by rewrite upd_eq|intros h Hh; by rewrite lookup_insert_ne]].
      split; [done|split; [cbn; by rewrite upd_eq|]]. intros x Hx. cbn. rewrite !upd_ne by done. split; [done|]. unfold upd.
      destruct (Z.eqb_spec x (r_current k)) as [->|]; [right; cbn in Hs; by rewrite Hs|by left].
Qed.

(** ** Counters *)

Lemma kok_cnt T out k qs sp l c : kok G T out k qs -> qs !! sp = Some l ->
  (kind !! sp = Some QSem -> sem_ok c l) -> kok G T out (set_cnt sp c k) qs.
Proof.
  intros [] Hq Hc. constructor; try done. intros sp' l' Hk' Hq'. cbn.
  destruct (decide (sp' = sp)) as [->|Hne].
  - rewrite upd_eq. apply Hc in Hk'. by rewrite Hq in Hq'; injection Hq' as <-.
  - rewrite upd_ne by done. by apply ko_sem0.
Qed.

Lemma sem_queue T out k qs sp : kok G T out k qs -> kind !! sp = Some QSem ->
  exists l, qs !! sp = Some l /\ sem_ok (s_cnt k sp) l.
Proof.
  intros Hk Hs. destruct (proj2 (ko_dom _ _ _ _ Hk sp)) as [l Hl]; [by eexists|].
  exists l. split; [done|]. by apply (ko_sem _ _ _ _ Hk).
Qed.

Lemma kmid_cnt T out k qs sp c l : kmid G T out k qs -> qs !! sp = Some l ->
  (kind !! sp = Some QSem -> sem_ok c l) -> kmid G T out (set_cnt sp c k) qs.
Proof. intros [] Hq Hc. constructor; [by apply kok_cnt with l|done|done]. Qed.

(** The thread [tp] leaves the queue [h]; it is not the running thread. *)
Lemma kmid_leave_gen G' T k qs h kd l1 l2 tp c : kmid G T None k qs -> kind !! h = Some kd ->
  qs !! h = Some (l1 ++ tp :: l2) -> c = s_cnt k h + (if decide (kd = QSem) then 1 else 0) ->
  g_prio G' = g_prio G -> g_real G' = g_real G -> (kd = QMutex -> g_mtx G' !! h = Some (l1 ++ l2)) ->
  (forall h2, h2 <> h -> g_mtx G' !! h2 = g_mtx G !! h2) ->
  kmid G' T (Some tp) (set_lk (queue_dequeue tp (lk k)) (set_cnt h c k)) (<[h := l1 ++ l2]> qs) /\
  tp ∈ T /\ tp <> r_current k /\ (kd <> QReady -> hooked (p_state k tp) = true).
Proof.
  intros Hk Hkd Hq Hc Hg1 Hg2 Hg3 Hg4. pose proof Hk as [Hok (Hcur & Hs & _) Har].
  assert (Hho : kd <> QReady -> hooked (p_state k tp) = true).
  { apply (waits_hooked kd h). destruct (ko_members _ _ _ _ Hok h kd _ tp Hkd Hq) as (_ & _ & Hw); [|done].
    apply in_app_iff. cbn. auto. }
  destruct (leave_queue G' T k qs h kd l1 l2 tp c Hok Hkd Hq Hc Hg1 Hg2 Hg3 Hg4) as [H1 H2].
  assert (Hne : tp <> r_current k).
  { intros ->. apply (current_unqueued _ _ _ _ h _ Hk Hq). apply in_app_iff. cbn. auto. }
  split; [|done]. constructor; [done| |done]. cbn. split; [done|split; [done|congruence]].
Qed.

Lemma kmid_leave T k qs h kd l1 l2 tp c : kmid G T None k qs -> kind !! h = Some kd ->
  qs !! h = Some (l1 ++ tp :: l2) -> c = s_cnt k h + (if decide (kd = QSem) then 1 else 0) -> kd <> QMutex ->
  kmid G T (Some tp) (set_lk (queue_dequeue tp (lk k)) (set_cnt h c k)) (<[h := l1 ++ l2]> qs) /\
  tp ∈ T /\ tp <> r_current k /\ (kd <> QReady -> hooked (p_state k tp) = true).
Proof. intros Hk Hkd Hq Hc Hn. by apply (kmid_leave_gen G T k qs h kd). Qed.

(** A queue without a counter. *)
Lemma kmid_leave_plain T k qs h kd l1 l2 tp : kmid G T None k qs -> kind !! h = Some kd ->
  qs !! h = Some (l1 ++ tp :: l2) -> kd <> QMutex -> kd <> QSem ->
  kmid G T (Some tp) (set_lk (queue_dequeue tp (lk k)) k) (<[h := l1 ++ l2]> qs) /\
  tp ∈ T /\ tp <> r_current k /\ (kd <> QReady -> hooked (p_state k tp) = true).
Proof.
  intros Hk Hkd Hq Hn Hns.
  destruct (kmid_leave T k qs h kd l1 l2 tp (s_cnt k h) Hk Hkd Hq) as (H & Ht & Hc); [|done|].
  { rewrite decide_False by done. lia. }
  split; [|done]. destruct H as [Hok1 Hrun1 Har1]. constructor; [|exact Hrun1|exact Har1].
  apply (kok_ext _ _ _ _ _ Hok1); try (intros; reflexivity). intros y. cbn. unfold upd.
  destruct (Z.eqb_spec y h); congruence.
Qed.

(** What a signal does before it wakes a thread. *)
Lemma signal_cases T k qs sp : kmid G T None k qs -> kind !! sp = Some QSem -> s_cnt k sp < 2147483647 ->
  let k1 := set_cnt sp (s32 (s_cnt k sp + 1)) k in
  s_cnt k1 sp = s_cnt k sp + 1 /\
  ((s_cnt k1 sp <=? 0) = false /\ kmid G T None k1 qs \/
   (s_cnt k1 sp <=? 0) = true /\ exists x r m, qs !! sp = Some (x :: r) /\
     fifo_remove sp k1 = (x, set_lk m k1) /\
     kmid G T (Some x) (set_lk m k1) (<[sp := r]> qs) /\ x ∈ T /\ hooked (p_state k x) = true).
Proof.
  intros Hk Hs Hb k1. pose proof (km_ok _ _ _ _ Hk) as Hok.
  destruct (sem_queue T None k qs sp Hok Hs) as (l & Hq & Hl1 & Hl2).
  assert (E : s_cnt k1 sp = s_cnt k sp + 1) by (cbn; rewrite upd_eq, s32_id; lia).
  split; [done|]. rewrite E. destruct (s_cnt k sp + 1 <=? 0) eqn:Ec; [right|left]; (split; [done|]).
  - destruct l as [|x r]; [cbn in Hl1; lia|]. exists x, r, (queue_dequeue x (lk k)). split; [done|].
    assert (Hl := ko_linked _ _ _ _ Hok).
    split; [unfold fifo_remove; cbn [lk k1 set_cnt]; by rewrite (fifo_remove_dequeue _ _ _ _ _ Hl Hq)|].
    unfold k1. rewrite s32_id by lia.
    destruct (kmid_leave T k qs sp QSem [] r x (s_cnt k sp + 1)) as (? & ? & _ & Hh); auto.
  - unfold k1. rewrite s32_id by lia. apply (kmid_cnt T None k qs sp _ l); [done|done|].
    intros _. unfold sem_ok. lia.
Qed.

(** An operation of an interrupt handler: the running thread stays. *)
Definition same_run (k k' : kernel) : Prop :=
  r_current k' = r_current k /\ armed k' = armed k /\ p_preempt k' = p_preempt k /\ p_prio k' = p_prio k /\
  calm (p_state k) (p_state k') (p_u k) (p_u k').

Lemma same_run_trans k1 k2 k3 : same_run k1 k2 -> same_run k2 k3 -> same_run k1 k3.
Proof.
  intros (A1 & A2 & A3 & A4 & A5) (B1 & B2 & B3 & B4 & B5). repeat split; try congruence.
  by apply (calm_trans _ (p_state k2) _ _ (p_u k2)).
Qed.

Lemma wake_any T k qs tp msg : kmid G T (Some tp) k qs -> tp ∈ T ->
  exists k' qs', chSchReadyI rlist fuel tp (set_u tp msg k) = Some k' /\ kmid G T None k' qs' /\
    (r_current k' = r_current k /\ armed k' = armed k /\ p_preempt k' = p_preempt k /\ p_prio k' = p_prio k) /\
    p_state k' = upd tp CH_STATE_READY (p_state k) /\ p_u k' = upd tp msg (p_u k) /\ s_cnt k' = s_cnt k /\
    (forall h, h <> rlist -> qs' !! h = qs !! h).
Proof.
  intros Hk Ht. destruct (ready_mid T _ qs tp (kmid_u T tp k qs msg Hk Ht) Ht) as (m & l & E & _ & H).
  eexists _, _. split; [exact E|split; [exact H|]]. repeat (split; [done|]).
  intros h Hh. by rewrite lookup_insert_ne.
Qed.

Lemma wake_mid T k qs tp msg : kmid G T (Some tp) k qs -> tp ∈ T -> hooked (p_state k tp) = true ->
  exists k' qs', chSchReadyI rlist fuel tp (set_u tp msg k) = Some k' /\ kmid G T None k' qs' /\
    same_run k k' /\ p_u k' = upd tp msg (p_u k) /\ s_cnt k' = s_cnt k /\
    (forall h, h <> rlist -> qs' !! h = qs !! h).
Proof.
  intros Hk Ht Hh. destruct (wake_any T k qs tp msg Hk Ht) as (k' & qs' & E & Hk' & (R1 & R2 & R3 & R4) & Es & Eu & H).
  exists k', qs'. repeat (split; [done|]). split; [|by split]. repeat split; try done.
  intros x. rewrite Es, Eu. unfold upd. destruct (Z.eqb_spec x tp) as [->|]; [by right|by left].
Qed.

Lemma semSignalI_ok T k qs sp : kmid G T None k qs -> kind !! sp = Some QSem -> s_cnt k sp < 2147483647 ->
  exists k' qs', chSemSignalI rlist fuel sp k = Some k' /\ kmid G T None k' qs' /\ same_run k k'.
Proof.
  intros Hk Hs Hb. destruct (signal_cases T k qs sp Hk Hs Hb) as (_ & [[E H]|(E & x & r & m & _ & Ef & H & Hx & Hh)]);
    unfold chSemSignalI; cbv zeta; rewrite E.
  - by exists (set_cnt sp (s32 (s_cnt k sp + 1)) k), qs.
  - rewrite Ef. destruct (wake_mid T _ _ x MSG_OK H Hx Hh) as (k' & qs' & Hw & Hk' & Hsr & _).
    exists k', qs'. split; [done|split; [done|]]. exact Hsr.
Qed.

(** Storing the message after the thread was made ready is the same. *)
Lemma readyI_set_u tp a v k : chSchReadyI rlist fuel tp (set_u a v k) =
  match chSchReadyI rlist fuel tp k with None => None | Some k => Some (set_u a v k) end.
Proof.
  unfold chSchReadyI. cbn [lk p_prio set_state set_u]. by destruct (prio_scan _ _ _ _).
Qed.
Lemma add_unit_eq sp k : add_unit rlist fuel sp k = chSemSignalI rlist fuel sp k.
Proof.
  unfold add_unit, chSemSignalI. cbv zeta. destruct (_ <=? _); [|done].
  destruct (fifo_remove _ _) as [tp k1]. by rewrite readyI_set_u.
Qed.

(** ** The operations of interrupt handlers *)

Definition isr_ok (G : ghost) (T : gset Z) (k : kernel) (r : option kernel) : Prop :=
  exists k' qs', r = Some k' /\ kmid G T None k' qs' /\ same_run k k'.

Lemma isr_ok_refl T k qs : kmid G T None k qs -> isr_ok G T k (Some k).
Proof. intros Hk. by exists k, qs. Qed.

Lemma add_loop_ok T sp : forall n k qs, kmid G T None k qs -> kind !! sp = Some QSem ->
  s_cnt k sp + Z.of_nat n <= 2147483647 -> isr_ok G T k (add_loop rlist fuel n sp k).
Proof.
  induction n as [|n IH]; intros k qs Hk Hs Hb; cbn [add_loop]; [by apply isr_ok_refl with qs|].
  rewrite add_unit_eq. destruct (signal_cases T k qs sp Hk Hs ltac:(lia)) as
    (Ec & [[E H]|(E & x & r & m & _ & Ef & H & Hx & Hh)]); unfold chSemSignalI; cbv zeta; rewrite E.
  - destruct (IH _ _ H Hs) as (k' & qs' & E' & Hk' & Hsr); [lia|]. by exists k', qs'.
  - rewrite Ef. destruct (wake_mid T _ _ x MSG_OK H Hx Hh) as (k1 & qs1 & -> & Hk1 & Hsr1 & _ & Hc1 & _).
    destruct (IH _ _ Hk1 Hs) as (k' & qs' & E' & Hk' & Hsr).
    { rewrite Hc1. cbn [s_cnt set_lk]. lia. }
    exists k', qs'. split; [done|split; [done|]]. by apply (same_run_trans k k1 k').
Qed.

(** A reset wakes threads of the semaphore, with MSG_RESET. *)
Definition flushed (sp : Z) (k k' : kernel) : Prop := s_cnt k' = s_cnt k /\ forall x,
  p_state k' x = p_state k x /\ p_u k' x = p_u k x \/
  (p_state k x = CH_STATE_WTSEM /\ p_u k x = sp) /\ p_state k' x = CH_STATE_READY /\ p_u k' x = MSG_RESET.

Lemma flushed_trans sp k1 k2 k3 : flushed sp k1 k2 -> flushed sp k2 k3 -> flushed sp k1 k3.
Proof.
  intros [C1 H1] [C2 H2]. split; [congruence|]. intros x.
  destruct (H1 x) as [[E1 E2]|[Hw [E1 E2]]], (H2 x) as [[E3 E4]|[[W1 W2] [E3 E4]]].
  - left. split; congruence.
  - right. split; [split; congruence|done].
  - right. split; [done|split; congruence].
  - congruence.
Qed.

Definition reset_ok (G : ghost) (T : gset Z) (sp : Z) (k : kernel) (r : option kernel) : Prop :=
  exists k' qs', r = Some k' /\ kmid G T None k' qs' /\ same_run k k' /\ flushed sp k k'.

(** chSemResetI stores the new counter first: the invariant holds of the kernel with the
    counter of the loop. *)
Lemma reset_loop_ok T sp v : kind !! sp = Some QSem -> 0 <= v < 2147483648 ->
  forall n c k qs, kmid G T None (set_cnt sp c k) qs -> s_cnt k sp = v -> -2147483648 <= c < 2147483647 ->
  (Z.to_nat (- c) < n)%nat -> reset_ok G T sp k (reset_loop rlist fuel n sp c k).
Proof.
  intros Hs Hv. induction n as [|n IH]; intros c k qs Hk Hc Hcb Hn; [lia|]. cbn [reset_loop].
  rewrite s32_id by lia. pose proof (km_ok _ _ _ _ Hk) as Hok.
  destruct (sem_queue T None _ qs sp Hok Hs) as (l & Hq & Hl). cbn in Hl. rewrite upd_eq in Hl.
  destruct Hl as [Hl _]. destruct (c + 1 <=? 0) eqn:E.
  - destruct l as [|x l0 _] using rev_ind; [cbn in Hl; lia|].
    destruct (kmid_leave T _ qs sp QSem l0 [] x (c + 1) Hk Hs Hq) as (Hx & Ht & Hxc & Hh);
      [cbn; by rewrite upd_eq|done|].
    rewrite app_nil_r in Hx. cbn [lk set_cnt] in Hx.
    unfold lifo_remove. rewrite (lifo_remove_dequeue (lk k) qs sp x l0);
      [|exact (ko_linked _ _ _ _ Hok)|done].
    destruct (ko_members _ _ _ _ Hok sp QSem _ x Hs Hq) as (_ & _ & Hw); [apply in_app_iff; cbn; auto|].
    destruct (wake_any T _ _ x MSG_RESET Hx Ht) as (k1 & qs1 & E1 & Hk1 & (R1 & R2 & R3 & R4) & Hst1 & Hu1 & Hc1 & _).
    assert (Hf1 : forall y, p_state k1 y = p_state k y /\ p_u k1 y = p_u k y \/
      (p_state k y = CH_STATE_WTSEM /\ p_u k y = sp) /\ p_state k1 y = CH_STATE_READY /\ p_u k1 y = MSG_RESET).
    { intros y. rewrite Hst1, Hu1. unfold upd. destruct (Z.eqb_spec y x) as [->|]; [right|left; done].
      split; [exact Hw|done]. }
    assert (Hsr1 : same_run k k1).
    { split; [exact R1|split; [exact R2|split; [exact R3|split; [exact R4|]]]]. intros y.
      destruct (Hf1 y) as [?|[[Hy _] [? _]]]; [by left|right; by rewrite Hy]. }
    rewrite readyI_set_u in E1. unfold chSchReadyI in *. cbn [lk p_prio set_state set_u set_cnt set_lk] in *.
    destruct (prio_scan _ _ _ _) as [cp|]; [|done].
    apply (f_equal (fun o => match o with Some k => k | None => k1 end)) in E1. cbv beta iota in E1.
    match goal with |- reset_ok _ _ _ _ (reset_loop _ _ _ _ _ ?k2) =>
      destruct (IH (c + 1) k2 qs1) as (k' & qs' & E' & Hk' & Hsr' & Hf') end; [|done|lia|lia|].
    + destruct Hk1 as [Hok1 Hrun1 Har1]. subst k1. constructor; [|exact Hrun1|exact Har1].
      apply (kok_ext _ _ _ _ _ Hok1); try (intros; reflexivity). intros y. cbn. unfold upd. by destruct (_ =? _).
    + exists k', qs'. split; [done|split; [done|split]].
      * eapply same_run_trans; [|exact Hsr']. subst k1. exact Hsr1.
      * eapply flushed_trans; [|exact Hf']. split; [done|]. subst k1. exact Hf1.
  - exists k, qs. split; [done|split; [|split; [done|split; [done|by left]]]].
    assert (Hk2 : kmid G T None (set_cnt sp v (set_cnt sp c k)) qs).
    { apply (kmid_cnt T None _ qs sp v l); [done|done|]. intros _. unfold sem_ok. lia. }
    destruct Hk2 as [Hok2 Hrun2 Har2]. constructor; [|exact Hrun2|exact Har2].
    apply (kok_ext _ _ _ _ _ Hok2); try (intros; reflexivity). intros y. cbn. unfold upd.
    destruct (Z.eqb_spec y sp); congruence.
Qed.

Lemma chSemResetI_gen T k qs sp v : kmid G T None k qs -> kind !! sp = Some QSem -> 0 <= v < 2147483648 ->
  s_cnt k sp < 2147483647 -> exists k' qs', chSemResetI rlist fuel sp v k = Some k' /\ kmid G T None k' qs' /\
    same_run k k' /\ flushed sp (set_cnt sp v k) k'.
Proof.
  intros Hk Hs Hv Hb. pose proof (km_ok _ _ _ _ Hk) as Hok.
  destruct (sem_queue T None k qs sp Hok Hs) as (l & Hq & Hl1 & Hl2).
  pose proof (kok_length _ _ _ _ Hok sp l Hq) as Hf. unfold chSemResetI. cbv zeta.
  assert (H : reset_ok G T sp (set_cnt sp v k) (reset_loop rlist fuel fuel sp (s_cnt k sp) (set_cnt sp v k))).
  { apply (reset_loop_ok T sp v Hs Hv fuel (s_cnt k sp) (set_cnt sp v k) qs);
      [|cbn; by rewrite upd_eq|lia|lia].
    destruct Hk as [_ Hrun Har]. constructor; [|exact Hrun|exact Har].
    apply (kok_ext _ _ _ _ _ Hok); try (intros; reflexivity). intros y. cbn. unfold upd.
    destruct (Z.eqb_spec y sp); congruence. }
  destruct H as (k' & qs' & E & Hk' & Hsr & Hfl). by exists k', qs'.
Qed.

Lemma chSemResetI_ok T k qs sp v : kmid G T None k qs -> kind !! sp = Some QSem -> 0 <= v < 2147483648 ->
  s_cnt k sp < 2147483647 -> isr_ok G T k (chSemResetI rlist fuel sp v k).
Proof.
  intros Hk Hs Hv Hb. destruct (chSemResetI_gen T k qs sp v Hk Hs Hv Hb) as (k' & qs' & E & Hk' & H & _).
  by exists k', qs'.
Qed.

(** A suspended thread is resumed by its reference. *)
Lemma clear_tref T k qs trp : kmid G T None k qs -> tref k trp <> NULL ->
  kmid G T (Some (tref k trp)) (set_tref trp NULL k) qs /\ tref k trp ∈ T /\ hooked (p_state k (tref k trp)) = true.
Proof.
  intros [Hok (Hc & Hs & _) Har] Hn. destruct (ko_tref _ _ _ _ Hok trp Hn) as (Ht & _ & Hst & Hu).
  set (tp := tref k trp) in *. split; [|by rewrite Hst]. constructor; [|cbn; split; [done|split; [done|congruence]]|done].
  assert (Hlo : loose k tp) by (unfold loose; by rewrite Hst).
  assert (Hun := kok_unqueued _ _ _ _ Hok tp Ht (or_intror Hlo)).
  apply (kok_thread T None (Some tp) k _ qs tp); try done; auto.
  - intros x Hx. split; congruence.
  - intros h l Hq Hin. apply (Hun h l Hq). by right.
  - intros trp' Hn' Hne. cbn in *. destruct (decide (trp' = trp)) as [->|E]; [by rewrite upd_eq in Hn'|].
    by rewrite upd_ne.
  - intros trp' E. cbn in E. destruct (decide (trp' = trp)) as [->|Hne].
    + rewrite upd_eq in E. by rewrite <- E in Hn.
    + rewrite upd_ne in E by done. destruct (ko_tref _ _ _ _ Hok trp') as (_ & _ & _ & Hu'); [congruence|].
      congruence.
  - intros x Hx HxT E. cbn. rewrite upd_ne; [done|]. intros E'. rewrite E' in E. by unfold tp in Hx.
Qed.

Lemma chThdResumeI_ok T k qs trp msg : kmid G T None k qs -> isr_ok G T k (chThdResumeI rlist fuel trp msg k).
Proof.
  intros Hk. unfold chThdResumeI. destruct (Z.eqb_spec (tref k trp) NULL) as [|Hn]; cbn [negb].
  - by apply isr_ok_refl with qs.
  - destruct (clear_tref T k qs trp Hk Hn) as (H & Ht & Hh).
    destruct (wake_mid T _ _ _ msg H Ht Hh) as (k' & qs' & E & Hk' & Hsr & _). by exists k', qs'.
Qed.

Lemma thread_queue T out k qs tqp : kok G T out k qs -> kind !! tqp = Some QThreads ->
  exists l, qs !! tqp = Some l.
Proof.
  intros Hk Hs. destruct (proj2 (ko_dom _ _ _ _ Hk tqp)) as [l Hl]; [by eexists|]. by exists l.
Qed.

(** A thread queue gives up its first thread. *)
Lemma dequeue_next_ok T k qs tqp msg x r : kmid G T None k qs -> kind !! tqp = Some QThreads ->
  qs !! tqp = Some (x :: r) ->
  exists k' qs', chThdDoDequeueNextI rlist fuel tqp msg k = Some k' /\ kmid G T None k' qs' /\
    same_run k k' /\ qs' !! tqp = Some r.
Proof.
  intros Hk Hs Hq.
  destruct (kmid_leave_plain T k qs tqp QThreads [] r x Hk Hs Hq) as (H' & Ht & _ & Hh); [done|done|].
  pose proof (km_ok _ _ _ _ Hk) as Hok. pose proof (ko_linked _ _ _ _ Hok) as Hl.
  unfold chThdDoDequeueNextI, fifo_remove. rewrite (fifo_remove_dequeue _ _ _ _ _ Hl Hq).
  destruct (wake_mid T _ _ x msg H' Ht (Hh ltac:(done))) as (k' & qs' & E & Hk' & Hsr & _ & _ & Hqs).
  exists k', qs'. split; [done|split; [done|split; [done|]]]. rewrite Hqs, lookup_insert_eq; [done|].
  intros ->. destruct (ko_ready _ _ _ _ Hok) as [Hr _]. congruence.
Qed.

Lemma dequeue_all_ok T tqp msg : kind !! tqp = Some QThreads -> forall n k qs l,
  kmid G T None k qs -> qs !! tqp = Some l -> (length l < n)%nat ->
  isr_ok G T k (dequeue_all rlist fuel n tqp msg k).
Proof.
  intros Hs. induction n as [|n IH]; intros k qs l Hk Hq Hn; [lia|]. cbn [dequeue_all].
  rewrite (queue_notempty_spec (lk k) qs tqp l) by (done || apply (ko_linked _ _ _ _ (km_ok _ _ _ _ Hk))).
  destruct l as [|x r]; [by apply isr_ok_refl with qs|].
  destruct (dequeue_next_ok T k qs tqp msg x r Hk Hs Hq) as (k1 & qs1 & -> & Hk1 & Hsr1 & Hq1).
  destruct (IH k1 qs1 r Hk1 Hq1) as (k' & qs' & -> & Hk' & Hsr); [cbn in Hn; lia|].
  exists k', qs'. split; [done|split; [done|]]. by apply (same_run_trans k k1 k').
Qed.

Lemma chThdDequeueNextI_ok T k qs tqp msg : kmid G T None k qs -> kind !! tqp = Some QThreads ->
  isr_ok G T k (chThdDequeueNextI rlist fuel tqp msg k).
Proof.
  intros Hk Hs. destruct (thread_queue T None k qs tqp (km_ok _ _ _ _ Hk) Hs) as [l Hq].
  unfold chThdDequeueNextI.
  rewrite (queue_notempty_spec (lk k) qs tqp l) by (done || apply (ko_linked _ _ _ _ (km_ok _ _ _ _ Hk))).
  destruct l as [|x r]; [by apply isr_ok_refl with qs|].
  destruct (dequeue_next_ok T k qs tqp msg x r Hk Hs Hq) as (k1 & qs1 & E & Hk1 & Hsr1 & _).
  by exists k1, qs1.
Qed.

Lemma chThdDequeueAllI_ok T k qs tqp msg : kmid G T None k qs -> kind !! tqp = Some QThreads ->
  isr_ok G T k (chThdDequeueAllI rlist fuel tqp msg k).
Proof.
  intros Hk Hs. destruct (thread_queue T None k qs tqp (km_ok _ _ _ _ Hk) Hs) as [l Hq].
  apply (dequeue_all_ok T tqp msg Hs fuel k qs l Hk Hq).
  by apply (kok_length _ _ _ _ (km_ok _ _ _ _ Hk) tqp).
Qed.

(** A condition variable gives up its first thread. *)
Lemma cond_queue T out k qs cp : kok G T out k qs -> kind !! cp = Some QCond -> exists l, qs !! cp = Some l.
Proof.
  intros Hk Hs. destruct (proj2 (ko_dom _ _ _ _ Hk cp)) as [l Hl]; [by eexists|]. by exists l.
Qed.

Lemma cond_pop T k qs cp x r : kmid G T None k qs -> kind !! cp = Some QCond -> qs !! cp = Some (x :: r) ->
  exists m, fifo_remove cp k = (x, set_lk m k) /\ kmid G T (Some x) (set_lk m k) (<[cp := r]> qs) /\ x ∈ T /\
    hooked (p_state k x) = true.
Proof.
  intros Hk Hs Hq. exists (queue_dequeue x (lk k)).
  destruct (kmid_leave_plain T k qs cp QCond [] r x Hk Hs Hq) as (H & Ht & _ & Hh); [done|done|].
  split; [|by auto]. unfold fifo_remove.
  by rewrite (fifo_remove_dequeue _ _ _ _ _ (ko_linked _ _ _ _ (km_ok _ _ _ _ Hk)) Hq).
Qed.

Lemma chCondSignalI_ok T k qs cp : kmid G T None k qs -> kind !! cp = Some QCond ->
  isr_ok G T k (chCondSignalI rlist fuel cp k).
Proof.
  intros Hk Hs. destruct (cond_queue T None k qs cp (km_ok _ _ _ _ Hk) Hs) as [l Hq].
  unfold chCondSignalI.
  rewrite (queue_notempty_spec (lk k) qs cp l) by (done || apply (ko_linked _ _ _ _ (km_ok _ _ _ _ Hk))).
  destruct l as [|x r]; [by apply isr_ok_refl with qs|].
  destruct (cond_pop T k qs cp x r Hk Hs Hq) as (m & -> & H & Hx & Hh).
  destruct (wake_mid T _ _ x MSG_OK H Hx Hh) as (k' & qs' & E & Hk' & Hsr & _). by exists k', qs'.
Qed.

Lemma broadcast_loop_ok T cp : kind !! cp = Some QCond -> forall n k qs l,
  kmid G T None k qs -> qs !! cp = Some l -> (length l < n)%nat ->
  isr_ok G T k (broadcast_loop rlist fuel n cp k).
Proof.
  intros Hs. induction n as [|n IH]; intros k qs l Hk Hq Hn; [lia|]. cbn [broadcast_loop].
  rewrite (queue_notempty_spec (lk k) qs cp l) by (done || apply (ko_linked _ _ _ _ (km_ok _ _ _ _ Hk))).
  destruct l as [|x r]; [by apply isr_ok_refl with qs|].
  destruct (cond_pop T k qs cp x r Hk Hs Hq) as (m & -> & H & Hx & Hh).
  destruct (wake_mid T _ _ x MSG_RESET H Hx Hh) as (k1 & qs1 & E1 & Hk1 & Hsr1 & _ & _ & Hq1).
  rewrite readyI_set_u in E1. destruct (chSchReadyI rlist fuel x (set_lk m k)) as [k2|]; [|done].
  injection E1 as ->.
  destruct (IH k1 qs1 r Hk1) as (k' & qs' & -> & Hk' & Hsr).
  - rewrite Hq1, lookup_insert_eq; [done|]. intros ->.
    destruct (ko_ready _ _ _ _ (km_ok _ _ _ _ Hk)) as [Hr _]. congruence.
  - cbn in Hn. lia.
  - exists k', qs'. split; [done|split; [done|]]. by apply (same_run_trans k k1 k').
Qed.

Lemma chCondBroadcastI_ok T k qs cp : kmid G T None k qs -> kind !! cp = Some QCond ->
  isr_ok G T k (chCondBroadcastI rlist fuel cp k).
Proof.
  intros Hk Hs. destruct (cond_queue T None k qs cp (km_ok _ _ _ _ Hk) Hs) as [l Hq].
  apply (broadcast_loop_ok T cp Hs fuel k qs l Hk Hq).
  by apply (kok_length _ _ _ _ (km_ok _ _ _ _ Hk) cp).
Qed.

(** A thread that sleeps in no queue is about to be made ready. *)
Lemma kmid_loose T k qs tp : kmid G T None k qs -> tp ∈ T -> tp <> r_current k -> loose k tp ->
  p_state k tp <> CH_STATE_SUSPENDED -> kmid G T (Some tp) k qs.
Proof.
  intros [Hok (Hc & Hs & _) Har] Ht Hne Hl Hn. constructor; [by apply take_out| |done].
  split; [done|split; [done|congruence]].
Qed.

(** A timeout makes its thread ready, unless it was woken already. *)
Definition timed_out (tp : Z) (k k' : kernel) : Prop :=
  if decide (p_state k tp = CH_STATE_READY) then p_state k' = p_state k /\ p_u k' = p_u k
  else p_state k' = upd tp CH_STATE_READY (p_state k) /\ p_u k' = upd tp MSG_TIMEOUT (p_u k).

Lemma wakeup_ok T k qs tp : kmid G T None k qs -> tp ∈ T -> tp <> r_current k -> blocked (p_state k tp) ->
  exists k' qs', wakeup rlist fuel tp k = Some k' /\ kmid G T None k' qs' /\
    (r_current k' = r_current k /\ armed k' = armed k /\ p_preempt k' = p_preempt k) /\ timed_out tp k k'.
Proof.
  intros Hk Ht Hne Hb. pose proof Hk as [Hok (Hc & Hs & _) Har].
  pose proof (ko_threads _ _ _ _ Hok tp Ht ltac:(done)) as [_ Hth]. unfold wakeup, timed_out.
  assert (Hfin : forall k1 qs1, kmid G T (Some tp) k1 qs1 -> r_current k1 = r_current k -> armed k1 = armed k ->
    p_preempt k1 = p_preempt k -> p_state k1 = p_state k -> p_u k1 = p_u k ->
    exists k' qs', chSchReadyI rlist fuel tp (set_u tp MSG_TIMEOUT k1) = Some k' /\ kmid G T None k' qs' /\
      (r_current k' = r_current k /\ armed k' = armed k /\ p_preempt k' = p_preempt k) /\
      p_state k' = upd tp CH_STATE_READY (p_state k) /\ p_u k' = upd tp MSG_TIMEOUT (p_u k)).
  { intros k1 qs1 Hk1 E1 E2 E3 E4 E5.
    destruct (wake_any T k1 qs1 tp MSG_TIMEOUT Hk1 Ht) as (k' & qs' & -> & Hk' & (R1 & R2 & R3 & _) & Rs & Ru & _).
    exists k', qs'. split; [done|]. split; [done|]. rewrite Rs, Ru, E4, E5. split; [|done]. split; [congruence|]. split; congruence. }
  assert (Hloose : loose k tp -> p_state k tp <> CH_STATE_SUSPENDED -> kmid G T (Some tp) k qs)
    by (intros; by apply kmid_loose).
  unfold loose in Hloose.
  destruct (decide (p_state k tp = CH_STATE_READY)) as [E|Hnr]; [rewrite E; by exists k, qs|].
  destruct (p_state k tp) eqn:E; try done; rewrite ?E in Hth; try (apply (Hfin k qs); auto; fail).
  - destruct (clear_tref T k qs (p_u k tp) Hk) as (H & _ & _); [rewrite Hth; by apply (ko_apart _ _ _ _ Hok)|].
    rewrite Hth in H. by apply (Hfin _ qs).
  - destruct Hth as (h & l & Hkd & Hq & (l1 & l2 & ->)%in_split).
    destruct (kmid_leave_plain T k qs h QThreads l1 l2 tp Hk Hkd Hq) as [H _]; [done|done|].
    by apply (Hfin _ (<[h := l1 ++ l2]> qs)).
  - destruct Hth as (Hkd & l & Hq & (l1 & l2 & ->)%in_split).
    destruct (ko_sem _ _ _ _ Hok _ _ Hkd Hq) as [S1 S2]. rewrite length_app in S1. cbn in S1.
    unfold chSemFastSignalI. rewrite s32_id by lia.
    destruct (kmid_leave T k qs (p_u k tp) QSem l1 l2 tp (s_cnt k (p_u k tp) + 1) Hk Hkd Hq) as [H _]; [done|done|].
    by apply (Hfin _ (<[p_u k tp := l1 ++ l2]> qs)).
  - destruct Hth as (Hkd & l & Hq & (l1 & l2 & ->)%in_split).
    destruct (kmid_leave_plain T k qs (p_u k tp) QCond l1 l2 tp Hk Hkd Hq) as [H _]; [done|done|].
    by apply (Hfin _ (<[p_u k tp := l1 ++ l2]> qs)).
Qed.

Lemma timeout_ok T k qs tp : kmid G T None k qs -> quiet k -> armed k tp = true ->
  exists k' qs', timeout rlist fuel tp k = Some k' /\ kmid G T None k' qs' /\
    r_current k' = r_current k /\ p_preempt k' = p_preempt k /\ quiet k' /\
    tp <> r_current k /\ armed k' = upd tp false (armed k) /\ timed_out tp k k'.
Proof.
  intros Hk Hq Ha. pose proof Hk as [Hok Hrun Har]. destruct (Har tp Ha) as [Ht [->|Hb]].
  - unfold quiet in Hq. congruence.
  - assert (Hne : tp <> r_current k) by (intros ->; unfold quiet in Hq; congruence).
    assert (Hk1 : kmid G T None (set_armed tp false k) qs).
    { constructor; [by apply kok_armed|done|]. intros x Hx. cbn in *. unfold upd in Hx.
      destruct (x =? tp); [done|]. by apply Har. }
    destruct (wakeup_ok T _ qs tp Hk1 Ht Hne Hb) as (k' & qs' & E & Hk' & (R1 & R2 & R3) & Ho).
    exists k', qs'. split; [exact E|split; [done|split; [done|split; [done|split; [|split; [done|by split]]]]]].
    unfold quiet in *. rewrite R1, R2. cbn. by rewrite upd_ne by auto.
Qed.

(** ** The operations of the running thread *)

Definition call_ok (G : ghost) (T0 T : gset Z) (k : kernel) (r : option kernel) : Prop :=
  exists k' qs', r = Some k' /\ kmid G T None k' qs' /\ top k' qs' /\ moved T0 (r_current k) k k'.

Lemma call_ok_refl T k k' qs : kmid G T None k' qs -> top k' qs -> armed k' = armed k -> p_u k' = p_u k -> p_state k' = p_state k ->
  call_ok G T T k (Some k').
Proof. intros. exists k', qs. repeat (split; [done|]). by apply swapped_moved, swapped_refl. Qed.

(** A thread is woken by the running one. *)
Lemma wakeup_call T k0 k qs tp msg : kmid G T (Some tp) k qs -> tp ∈ T -> top k qs ->
  hooked (p_state k0 tp) = true -> armed k = armed k0 -> p_u k = p_u k0 -> p_state k = p_state k0 ->
  call_ok G T T k0 (chSchWakeupS rlist fuel tp msg k).
Proof.
  intros Hk Ht Htop Hh Ea E1 E2. destruct (wakeupS_ok T k qs tp msg Hk Ht Htop) as (k' & qs' & E & H1 & H2 & H3 & _).
  exists k', qs'. repeat (split; [done|]). apply (woke_moved _ _ tp _ k); [done|by left|done|].
  intros x _. by rewrite E1, E2.
Qed.

(** An interrupt operation and the rescheduling. *)
Lemma reschedule_call T k k1 qs : kmid G T None k1 qs -> moved T (r_current k) k k1 ->
  call_ok G T T k (chSchRescheduleS rlist fuel k1).
Proof.
  intros Hk Hm. destruct (reschedule_ok T k1 qs Hk) as (k' & qs' & E & H1 & H2 & H3).
  exists k', qs'. repeat (split; [done|]). by apply (moved_swapped _ _ k k1).
Qed.

Lemma yield_call T k qs : kmid G T None k qs -> top k qs -> call_ok G T T k (chSchDoYieldS rlist fuel k).
Proof.
  intros Hk Ht. destruct (yield_ok T k qs Hk Ht) as (k' & qs' & E & H1 & H2 & H3).
  exists k', qs'. repeat (split; [done|]). by apply swapped_moved.
Qed.

(** With or without a timer. *)
Lemma sleep_timeout_gen T k qs st time :
  let cur := r_current k in
  kok G T None (set_state cur st k) qs -> cur ∈ T -> cur <> idle -> blocked st -> st <> CH_STATE_READY ->
  (forall x, armed k x = true -> x ∈ T /\ (x = cur \/ blocked (p_state k x))) ->
  exists qs', let k' := chSchGoSleepTimeoutS rlist st time k in
    kmid G T None k' qs' /\ top k' qs' /\ slept st k k'.
Proof.
  intros cur Hk Hc Hi Hb Hr Har. unfold chSchGoSleepTimeoutS. destruct (negb (time =? TIME_INFINITE)).
  - assert (Hk' := kok_armed T None _ qs cur true Hk).
    destruct (go_sleep_ok T (set_armed cur true k) qs st Hk' Hc Hi Hb Hr) as (qs' & H1 & H2 & _ & H3 & H4).
    { intros x Hx. cbn in *. unfold upd in Hx. destruct (Z.eqb_spec x cur) as [E|]; [rewrite E; split; [done|by left]|].
      by apply Har. }
    exists qs'. split; [done|split; [done|split; [|done]]]. intros x Hx. destruct (H3 x Hx) as [Hx'|]; [|by right].
    cbn in Hx'. unfold upd in Hx'. destruct (Z.eqb_spec x cur); auto.
  - destruct (go_sleep_ok T k qs st Hk Hc Hi Hb Hr Har) as (qs' & H1 & H2 & _ & H3). by exists qs'.
Qed.

(** A system call of [k] that stored the data of the wait in the running thread. *)
Lemma sleep_timeout_ok T k0 k qs st time :
  let cur := r_current k in
  kok G T None (set_state cur st k) qs -> cur ∈ T -> cur <> idle -> blocked st -> st <> CH_STATE_READY ->
  (forall x, armed k x = true -> x ∈ T /\ (x = cur \/ blocked (p_state k x))) ->
  awaits_events st = false -> r_current k = r_current k0 -> armed k = armed k0 -> p_state k = p_state k0 ->
  (forall x, x <> r_current k0 -> p_u k x = p_u k0 x) ->
  call_ok G T T k0 (Some (chSchGoSleepTimeoutS rlist st time k)).
Proof.
  intros cur Hk Hc Hi Hb Hr Har Hst E1 Ea E2 E3.
  destruct (sleep_timeout_gen T k qs st time Hk Hc Hi Hb Hr Har) as (qs' & H1 & H2 & H3).
  eexists _, qs'. repeat (split; [done|]). by apply (slept_moved T st k0 k).
Qed.

Lemma sleep_ok T k qs time : kmid G T None k qs -> r_current k <> idle ->
  call_ok G T T k (Some (chThdSleepS rlist time k)).
Proof.
  intros Hk Hi. destruct (kmid_current T k qs Hk) as [Ho _]. destruct Hk as [_ (Hc & _) Har].
  apply (sleep_timeout_ok T k k qs); try done. apply rest_loose; [done|done|done|by left].
Qed.

Lemma suspend_ok T k qs trp time : kmid G T None k qs -> top k qs -> r_current k <> idle -> tref k trp = NULL ->
  call_ok G T T k (Some (snd (chThdSuspendTimeoutS rlist trp time k))).
Proof.
  intros Hk Ht Hi Hr. destruct (kmid_current T k qs Hk) as [Ho _]. pose proof Hk as [_ (Hc & _) Har].
  unfold chThdSuspendTimeoutS. destruct (time =? TIME_IMMEDIATE); cbn [snd]; [by apply call_ok_refl with qs|].
  apply (sleep_timeout_ok T k _ qs); try done; [by apply rest_suspended|]. intros x Hx. by apply upd_ne.
Qed.

Lemma suspend_forever_ok T k qs trp : kmid G T None k qs -> r_current k <> idle -> tref k trp = NULL ->
  call_ok G T T k (Some (chThdSuspendS rlist trp k)).
Proof.
  intros Hk Hi Hr. destruct (kmid_current T k qs Hk) as [Ho _]. pose proof Hk as [_ (Hc & _) Har].
  unfold chThdSuspendS.
  destruct (go_sleep_ok T (set_u (r_current k) trp (set_tref trp (r_current k) k)) qs CH_STATE_SUSPENDED)
    as (qs' & H1 & H2 & _ & H3); try done; [by apply rest_suspended|]. eexists _, qs'. repeat (split; [done|]).
  apply (slept_moved T _ k _ _ H3); try done. intros x Hx. by apply upd_ne.
Qed.

Lemma enqueue_asleep T k qs tqp time : kmid G T None k qs -> r_current k <> idle ->
  kind !! tqp = Some QThreads ->
  call_ok G T T k (Some (chSchGoSleepTimeoutS rlist CH_STATE_QUEUED time
    (set_lk (queue_insert (r_current k) tqp (lk k)) k))).
Proof.
  intros Hk Hi Hkd. destruct (kmid_current T k qs Hk) as [Ho _]. pose proof Hk as [Hok (Hc & _) Har].
  destruct (thread_queue T None k qs tqp Hok Hkd) as [l Hq].
  assert (H := rest_queue T k qs (r_current k) Ho Hc Hi tqp QThreads l CH_STATE_QUEUED (p_u k (r_current k))
                 (s_cnt k tqp) Hkd Hq ltac:(right; left; done)).
  apply (sleep_timeout_ok T k _ (<[tqp := l ++ [r_current k]]> qs)); try done.
  apply (kok_ext _ _ _ _ _ H); try (intros; reflexivity).
  - intros y. cbn. unfold upd. destruct (Z.eqb_spec y (r_current k)); congruence.
  - intros y. cbn. unfold upd. destruct (Z.eqb_spec y tqp); congruence.
Qed.

Lemma enqueue_ok T k qs tqp time : kmid G T None k qs -> top k qs -> r_current k <> idle ->
  kind !! tqp = Some QThreads ->
  call_ok G T T k (Some (snd (chThdEnqueueTimeoutS rlist tqp time k))).
Proof.
  intros Hk Ht Hi Hkd. unfold chThdEnqueueTimeoutS.
  destruct (time =? TIME_IMMEDIATE); cbn [snd]; [by apply call_ok_refl with qs|]. by apply enqueue_asleep with qs.
Qed.

(** The running thread in the queue of a semaphore. *)
Lemma wait_queue T k qs sp : kmid G T None k qs -> r_current k <> idle -> kind !! sp = Some QSem ->
  -2147483648 < s_cnt k sp <= 0 ->
  exists qs', (forall ws, qs !! sp = Some ws -> qs' !! sp = Some (ws ++ [r_current k])) /\ kok G T None
    (set_state (r_current k) CH_STATE_WTSEM
      (sem_insert (r_current k) sp (set_u (r_current k) sp (set_cnt sp (s_cnt k sp - 1) k)))) qs'.
Proof.
  intros Hk Hi Hkd Hb. destruct (kmid_current T k qs Hk) as [Ho _]. pose proof Hk as [Hok (Hc & _) Har].
  destruct (sem_queue T None k qs sp Hok Hkd) as (l & Hq & _).
  exists (<[sp := l ++ [r_current k]]> qs).
  split; [intros ws Hws; rewrite Hq in Hws; injection Hws as <-; apply lookup_insert_eq|].
  apply (rest_queue T k qs (r_current k) Ho Hc Hi sp QSem l CH_STATE_WTSEM sp (s_cnt k sp - 1) Hkd Hq).
  left. repeat (split; [done|]). lia.
Qed.

(** The counter taken by a thread that does not wait. *)
Lemma taken_unit T k qs sp : kmid G T None k qs -> kind !! sp = Some QSem -> 0 < s_cnt k sp ->
  kmid G T None (set_cnt sp (s_cnt k sp - 1) k) qs.
Proof.
  intros Hk Hkd Hb. destruct (sem_queue T None k qs sp (km_ok _ _ _ _ Hk) Hkd) as (l & Hq & Hl).
  apply (kmid_cnt T None k qs sp _ l Hk Hq). intros _. unfold sem_ok in *. lia.
Qed.

Lemma semWaitTimeout_ok T k qs sp time : kmid G T None k qs -> top k qs -> r_current k <> idle ->
  kind !! sp = Some QSem -> -2147483648 < s_cnt k sp ->
  call_ok G T T k (Some (snd (chSemWaitTimeoutS rlist sp time k))).
Proof.
  intros Hk Ht Hi Hkd Hb. pose proof Hk as [Hok (Hc & _) Har].
  destruct (sem_queue T None k qs sp Hok Hkd) as (l & Hq & Hl1 & Hl2).
  unfold chSemWaitTimeoutS. cbv zeta. rewrite (s32_id (s_cnt k sp - 1)) by lia.
  cbn [s_cnt set_cnt]. rewrite upd_eq. destruct (s_cnt k sp - 1 <? 0) eqn:E.
  - destruct (time =? TIME_IMMEDIATE); cbn [snd].
    + exists (set_cnt sp (s32 (s_cnt k sp - 1 + 1)) (set_cnt sp (s_cnt k sp - 1) k)), qs.
      split; [done|split; [|split; [done|by apply swapped_moved, swapped_refl]]]. rewrite s32_id by lia. constructor; [|exact (km_run _ _ _ _ Hk)|exact Har].
      apply (kok_ext _ _ _ _ _ Hok); try (intros; reflexivity). intros y. cbn. unfold upd.
      destruct (Z.eqb_spec y sp); [subst; lia|done].
    + destruct (wait_queue T k qs sp Hk Hi Hkd) as (qs' & _ & H); [lia|]. apply (sleep_timeout_ok T k _ qs'); try done.
      intros x Hx. by apply upd_ne.
  - cbn [snd]. apply (call_ok_refl T _ _ qs); try done. apply taken_unit; [done|done|lia].
Qed.

Lemma semWait_ok T k qs sp : kmid G T None k qs -> top k qs -> r_current k <> idle ->
  kind !! sp = Some QSem -> -2147483648 < s_cnt k sp -> call_ok G T T k (Some (snd (chSemWaitS rlist sp k))).
Proof.
  intros Hk Ht Hi Hkd Hb. pose proof Hk as [Hok (Hc & _) Har].
  destruct (sem_queue T None k qs sp Hok Hkd) as (l & Hq & Hl1 & Hl2).
  unfold chSemWaitS. cbv zeta. rewrite (s32_id (s_cnt k sp - 1)) by lia.
  cbn [s_cnt set_cnt]. rewrite upd_eq. destruct (s_cnt k sp - 1 <? 0) eqn:E; cbn [snd].
  - destruct (wait_queue T k qs sp Hk Hi Hkd) as (qs' & _ & H); [lia|].
    destruct (go_sleep_ok T (sem_insert (r_current k) sp
      (set_u (r_current k) sp (set_cnt sp (s_cnt k sp - 1) k))) qs' CH_STATE_WTSEM H Hc Hi) as (qs2 & H1 & H2 & _ & H3);
      [done|done|exact Har|]. eexists _, qs2. repeat (split; [done|]).
    apply (slept_moved T _ k _ _ H3); try done. intros x Hx. by apply upd_ne.
  - apply (call_ok_refl T _ _ qs); try done. apply taken_unit; [done|done|lia].
Qed.

Lemma semSignal_ok T k qs sp : kmid G T None k qs -> top k qs -> kind !! sp = Some QSem ->
  s_cnt k sp < 2147483647 -> call_ok G T T k (chSemSignal rlist fuel sp k).
Proof.
  intros Hk Ht Hs Hb. destruct (signal_cases T k qs sp Hk Hs Hb) as
    (_ & [[E H]|(E & x & r & m & _ & Ef & H & Hx & Hh)]); unfold chSemSignal; cbv zeta; rewrite E.
  - by apply (call_ok_refl T _ _ qs).
  - rewrite Ef. apply (wakeup_call T k _ (<[sp := r]> qs) x MSG_OK H Hx); [|done..].
    intros l' y Hl' Hy. rewrite lookup_insert_ne in Hl'; [by apply (Ht l')|].
    intros ->. destruct (ko_ready _ _ _ _ (km_ok _ _ _ _ Hk)) as [Hr _]. congruence.
Qed.

Lemma semReset_ok T k qs sp v : kmid G T None k qs -> kind !! sp = Some QSem -> 0 <= v < 2147483648 ->
  s_cnt k sp < 2147483647 -> call_ok G T T k (chSemReset rlist fuel sp v k).
Proof.
  intros Hk Hs Hv Hb. destruct (chSemResetI_ok T k qs sp v Hk Hs Hv Hb) as (k' & qs' & E & Hk' & (_ & Ha & _ & _ & Hm)).
  unfold chSemReset. rewrite E. by apply (reschedule_call T k k' qs'), calm_moved.
Qed.

Lemma semSignalWait_ok T k qs sps spw : kmid G T None k qs -> r_current k <> idle ->
  kind !! sps = Some QSem -> kind !! spw = Some QSem -> s_cnt k sps < 2147483647 -> 
  -2147483647 <= s_cnt k spw ->
  call_ok G T T k (match chSemSignalWait rlist fuel sps spw k with None => None | Some (_, k) => Some k end).
Proof.
  intros Hk Hi Hs Hw Hb1 Hb2. unfold chSemSignalWait. rewrite add_unit_eq.
  assert (Hsig : exists k1 qs1, chSemSignalI rlist fuel sps k = Some k1 /\ kmid G T None k1 qs1 /\
     r_current k1 = r_current k /\ moved T (r_current k) k k1 /\ -2147483648 < s_cnt k1 spw).
  { destruct (signal_cases T k qs sps Hk Hs Hb1) as (Ec & [[E H]|(E & x & r & m & _ & Ef & H & Hx & Hh)]);
      unfold chSemSignalI; cbv zeta; rewrite E.
    - eexists _, _. split; [done|split; [exact H|split; [done|split; [by apply calm_moved|]]]]. cbn in *. rewrite upd_eq in Ec. unfold upd.
      destruct (Z.eqb_spec spw sps); [subst|]; lia.
    - rewrite Ef. destruct (wake_mid T _ _ x MSG_OK H Hx Hh) as (k1 & qs1 & E1 & Hk1 & Hsr1 & _ & Hc1 & _).
      exists k1, qs1. split; [done|split; [done|split; [apply Hsr1|split; [by apply calm_moved; apply Hsr1|]]]]. rewrite Hc1. cbn in *.
      rewrite upd_eq in Ec. unfold upd. destruct (Z.eqb_spec spw sps); [subst|]; lia. }
  destruct Hsig as (k1 & qs1 & -> & Hk1 & Hc1 & Hm1 & Hb). pose proof Hk1 as [Hok (Hc & _) Har].
  assert (Hi1 : r_current k1 <> idle) by congruence.
  destruct (sem_queue T None k1 qs1 spw Hok Hw) as (l & Hq & Hl1 & Hl2).
  rewrite (s32_id (s_cnt k1 spw - 1)) by lia. cbv zeta. cbn [s_cnt set_cnt]. rewrite upd_eq.
  destruct (s_cnt k1 spw - 1 <? 0) eqn:E.
  - destruct (wait_queue T k1 qs1 spw Hk1 Hi1 Hw) as (qs' & _ & H); [lia|].
    destruct (go_sleep_ok T (sem_insert (r_current k1) spw
      (set_u (r_current k1) spw (set_cnt spw (s_cnt k1 spw - 1) k1))) qs' CH_STATE_WTSEM H Hc Hi1)
      as (qs2 & H1 & H2 & _ & H3); [done|done|exact Har|]. eexists _, qs2. repeat (split; [done|]).
    apply (moved_trans _ _ k k1); [done|]. rewrite <- Hc1. apply (slept_moved T _ k1 _ _ H3); try done.
    intros x Hx. by apply upd_ne.
  - destruct (reschedule_call T k _ qs1 (taken_unit T k1 qs1 spw Hk1 Hw ltac:(lia)) Hm1) as (k' & qs' & -> & H1 & H2).
    by exists k', qs'.
Qed.

Lemma resumeS_ok T k qs trp msg : kmid G T None k qs -> top k qs ->
  call_ok G T T k (chThdResumeS rlist fuel trp msg k).
Proof.
  intros Hk Ht. unfold chThdResumeS. destruct (Z.eqb_spec (tref k trp) NULL) as [|Hn]; cbn [negb].
  - by apply (call_ok_refl T _ _ qs).
  - destruct (clear_tref T k qs trp Hk Hn) as (H & Hx & Hh).
    by apply (wakeup_call T k _ qs (tref k trp) msg H Hx).
Qed.

Lemma condSignal_ok T k qs cp : kmid G T None k qs -> top k qs -> kind !! cp = Some QCond ->
  call_ok G T T k (chCondSignal rlist fuel cp k).
Proof.
  intros Hk Ht Hs. destruct (cond_queue T None k qs cp (km_ok _ _ _ _ Hk) Hs) as [l Hq].
  unfold chCondSignal.
  rewrite (queue_notempty_spec (lk k) qs cp l) by (done || apply (ko_linked _ _ _ _ (km_ok _ _ _ _ Hk))).
  destruct l as [|x r]; [by apply (call_ok_refl T _ _ qs)|].
  destruct (cond_pop T k qs cp x r Hk Hs Hq) as (m & -> & H & Hx & Hh).
  apply (wakeup_call T k _ (<[cp := r]> qs) x MSG_OK H Hx); [|done..].
  intros l' y Hl' Hy. rewrite lookup_insert_ne in Hl'; [by apply (Ht l')|].
  intros ->. destruct (ko_ready _ _ _ _ (km_ok _ _ _ _ Hk)) as [Hr _]. congruence.
Qed.

Lemma condBroadcast_ok T k qs cp : kmid G T None k qs -> kind !! cp = Some QCond ->
  call_ok G T T k (chCondBroadcast rlist fuel cp k).
Proof.
  intros Hk Hs. destruct (chCondBroadcastI_ok T k qs cp Hk Hs) as (k' & qs' & E & Hk' & (_ & Ha & _ & _ & Hm)).
  unfold chCondBroadcast. rewrite E. by apply (reschedule_call T k k' qs'), calm_moved.
Qed.
End Invariant.

(** ** Priorities *)

Definition ghost_prio (tp v : Z) (G : ghost) : ghost := Ghost (g_mtx G) (upd tp v (g_prio G)) (g_real G).
Definition ghost_real (tp v : Z) (G : ghost) : ghost := Ghost (g_mtx G) (g_prio G) (upd tp v (g_real G)).

(** chThdSetPriority. *)
Definition ghost_set (cur v : Z) (G : ghost) : ghost :=
  ghost_real cur v
    (if (g_prio G cur =? g_real G cur) || (g_prio G cur <? v) then ghost_prio cur v G else G).

Section Priorities.
Context (rlist idle : Z) (fuel : nat) (kind : gmap Z qkind) (G : ghost).
Notation kok := (kok rlist idle fuel kind).
Notation kmid := (kmid rlist idle fuel kind).

Lemma upd_same {A} a (f : Z -> A) x : upd a (f a) f x = f x.
Proof. unfold upd. destruct (Z.eqb_spec x a); congruence. Qed.

(** The priority of a thread that is in no sorted queue may change. *)
Lemma set_prio_ok T out k qs tp v : kok G T out k qs -> tp ∈ T -> 0 < v ->
  (forall h kd l, kind !! h = Some kd -> qs !! h = Some l -> In tp l ->
    h <> rlist /\ sorted_kind kd = false) ->
  kok (ghost_prio tp v G) T out (set_prio tp v k) qs.
Proof.
  intros Hk Ht Hv Hu.
  assert (Hrl : rlist <> tp).
  { intros <-. destruct (ko_apart _ _ _ _ _ _ _ _ Hk _ Ht) as [Hn _].
    destruct (ko_ready _ _ _ _ _ _ _ _ Hk). congruence. }
  assert (Hkeep : forall l, ~ In tp l -> by_prio k l -> by_prio (set_prio tp v k) l).
  { intros l Hn Hs. unfold by_prio in *. induction Hs as [|x l H IH Hall]; constructor.
    - apply IH. intros ?. apply Hn. by right.
    - rewrite List.Forall_forall in *. intros y Hy. cbn. rewrite !upd_ne; [by apply Hall| |];
        intros ->; apply Hn; cbn; auto. }
  pose proof Hk as [Hlk Hdom Hrdy Hmems Hthrs [Hp1 Hp2] Hsorted Hsems Htrefs Hapart Hidle Hfuel Hsby Hmtx Hpr].
  constructor; try done.
  - split; [|cbn; by rewrite upd_ne]. intros x Hx. cbn. unfold upd. destruct (x =? tp); auto.
  - intros l Hq. apply Hkeep; [|by apply Hsorted]. intros Hin.
    by destruct (Hu rlist QReady l (proj1 Hrdy) Hq Hin).
  - intros h kd l Hkd Hs Hq. apply Hkeep; [|by apply (Hsby h kd)]. intros Hin.
    destruct (Hu h kd l Hkd Hq Hin). congruence.
  - intros x Hx. destruct (Hpr x Hx) as [E1 E2]. cbn. split; [|done].
    unfold upd. by destruct (Z.eqb_spec x tp).
Qed.

Lemma unqueued_unsorted qs tp h (kd : qkind) l : unqueued qs tp -> qs !! h = Some l -> In tp l ->
  h <> rlist /\ sorted_kind kd = false.
Proof. intros Hu Hq Hin. destruct (Hu h l Hq). by right. Qed.

Lemma set_real_ok T out k qs tp v : kok G T out k qs ->
  kok (ghost_real tp v G) T out (set_realprio tp v k) qs.
Proof.
  intros []. constructor; try done. intros x Hx. cbn. destruct (ko_prios0 x Hx). split; [done|].
  unfold upd. by destruct (x =? tp).
Qed.

Lemma current_prio_ok T k qs v : kmid G T None k qs -> 0 < v ->
  kmid (ghost_prio (r_current k) v G) T None (set_prio (r_current k) v k) qs.
Proof.
  intros [Hok (Hc & Hs & Ho) Har] Hv. constructor; [|done|done]. apply set_prio_ok; [done|done|done|].
  intros h kd l _. apply unqueued_unsorted. apply (kok_unqueued _ _ _ _ _ _ _ _ Hok); [done|].
  right. unfold loose. by rewrite Hs.
Qed.

(** A thread in transit enters the queue of a mutex or a condition variable. *)
Lemma rest_prio G' T k qs tp h kd st l : kok G T (Some tp) k qs -> tp ∈ T -> tp <> idle ->
  kind !! h = Some kd -> qs !! h = Some l ->
  (kd = QMutex /\ st = CH_STATE_WTMTX \/ kd = QCond /\ st = CH_STATE_WTCOND) ->
  let l' := place (fun x => p_prio k tp <=? p_prio k x) tp l in
  g_prio G' = g_prio G -> g_real G' = g_real G -> (kd = QMutex -> g_mtx G' !! h = Some l') ->
  (forall h2, h2 <> h -> g_mtx G' !! h2 = g_mtx G !! h2) ->
  exists m, queue_prio_insert fuel (p_prio k) tp h (lk k) = Some m /\
    kok G' T None (set_lk m (set_state tp st (set_u tp h k))) (<[h := l']> qs).
Proof.
  intros Hk Ht Hi Hkd Hq Hc l' Hg1 Hg2 Hg3 Hg4.
  assert (Hu := kok_unqueued _ _ _ _ _ _ _ _ Hk tp Ht (or_introl eq_refl)).
  destruct (queue_prio_insert_ok (p_prio k) (lk k) qs h l tp fuel) as (m & E & Hl);
    [apply (ko_linked _ _ _ _ _ _ _ _ Hk)|done|done|by apply (kok_length _ _ _ _ _ _ _ _ Hk h)|].
  exists m. split; [done|].
  assert (Hsort : by_prio k l').
  { apply place_sorted; [|intros x; lia|intros x; lia].
    apply (ko_sorted_by _ _ _ _ _ _ _ _ Hk h kd); [done| |done]. by destruct Hc as [[-> _]|[-> _]]. }
  apply (kok_move rlist idle fuel kind G G' T (Some tp) None k _ qs h kd l l' tp); try done.
  - intros x Hx. cbn. by rewrite !upd_ne.
  - intros x Hx. split; [unfold l'; rewrite place_in; tauto|split; congruence].
  - intros x Hx HxT Ho Hcur. pose proof (ko_threads _ _ _ _ _ _ _ _ Hk x HxT Ho) as [_ Hth].
    by rewrite Hcur in Hth.
  - intros h2 l2 _ H2 Hin. apply (Hu h2 l2 H2). by right.
  - by apply (no_tref rlist idle fuel kind G T tp k qs).
  - intros _. split; [done|]. unfold waits. cbn. rewrite !upd_eq. by destruct Hc as [[-> ->]|[-> ->]].
  - intros _. unfold thread_ok. cbn. rewrite !upd_eq. split; [done|].
    assert (Hin : In tp l') by (apply place_in; by left).
    destruct Hc as [[-> ->]|[-> ->]]; (split; [done|]); eexists; by rewrite lookup_insert_eq.
  - intros ->. by destruct Hc as [[? _]|[? _]].
Qed.

Lemma leave_plain G' T k qs h kd l1 l2 tp : kmid G T None k qs -> kind !! h = Some kd ->
  qs !! h = Some (l1 ++ tp :: l2) -> kd <> QSem ->
  g_prio G' = g_prio G -> g_real G' = g_real G -> (kd = QMutex -> g_mtx G' !! h = Some (l1 ++ l2)) ->
  (forall h2, h2 <> h -> g_mtx G' !! h2 = g_mtx G !! h2) ->
  kmid G' T (Some tp) (set_lk (queue_dequeue tp (lk k)) k) (<[h := l1 ++ l2]> qs) /\
  tp ∈ T /\ tp <> r_current k /\ (kd <> QReady -> hooked (p_state k tp) = true).
Proof.
  intros Hk Hkd Hq Hns Hg1 Hg2 Hg3 Hg4.
  destruct (kmid_leave_gen rlist idle fuel kind G G' T k qs h kd l1 l2 tp (s_cnt k h) Hk Hkd Hq)
    as (H & Ht & Hc); [|done..|].
  { rewrite decide_False by done. lia. }
  split; [|done]. destruct H as [Hok1 Hrun1 Har1]. constructor; [|exact Hrun1|exact Har1].
  apply (kok_ext _ _ _ _ _ _ _ _ _ _ Hok1); try (intros; reflexivity). intros y. cbn. unfold upd.
  destruct (Z.eqb_spec y h); congruence.
Qed.
End Priorities.

Section Calls.
Context (rlist idle : Z) (fuel : nat) (kind : gmap Z qkind) (G : ghost).
Notation kok := (kok rlist idle fuel kind).
Notation kmid := (kmid rlist idle fuel kind).
Notation call_ok := (call_ok rlist idle fuel kind).

Lemma setPriority_ok T k qs p : kmid G T None k qs -> 0 < p ->
  call_ok (ghost_set (r_current k) p G) T T k
    (match chThdSetPriority rlist fuel p k with None => None | Some (_, k) => Some k end).
Proof.
  intros Hk Hp. destruct (ko_prios _ _ _ _ _ _ _ _ (km_ok _ _ _ _ _ _ _ _ Hk) (r_current k)) as [E1 E2];
    [by apply (km_run _ _ _ _ _ _ _ _ Hk)|].
  unfold chThdSetPriority, ghost_set. cbv zeta. rewrite E1, E2. set (k1 := set_realprio _ _ _).
  assert (Hk1 : exists G', G' = ghost_real (r_current k) p
      (if (g_prio G (r_current k) =? g_real G (r_current k)) || (g_prio G (r_current k) <? p)
       then ghost_prio (r_current k) p G else G) /\ kmid G' T None k1 qs).
  { eexists. split; [done|]. unfold k1. destruct (_ || _).
    - destruct (current_prio_ok rlist idle fuel kind G T k qs p Hk Hp) as [Hok Hrun Har].
      constructor; [by apply set_real_ok|done|done].
    - destruct Hk as [Hok Hrun Har]. constructor; [by apply set_real_ok|done|done]. }
  destruct Hk1 as (G' & <- & Hk1).
  destruct (reschedule_call rlist idle fuel kind G' T k k1 qs Hk1) as (k' & qs' & -> & H1 & H2); [|by exists k', qs'].
  unfold k1. destruct (_ || _); by apply swapped_moved, swapped_refl.
Qed.

(** A new thread. *)
Lemma create_gen T k qs tp prio : kmid G T None k qs -> top rlist k qs -> 0 < prio ->
  tp ∉ T -> kind !! tp = None -> tp <> NULL -> (size ({[tp]} ∪ T) < fuel)%nat ->
  exists k' qs', chThdCreateStatic rlist fuel tp prio k = Some k' /\
    kmid (ghost_real tp prio (ghost_prio tp prio G)) ({[tp]} ∪ T) None k' qs' /\ top rlist k' qs' /\
    woke tp (_thread_init tp prio k) k' /\ forall h, h <> rlist -> qs' !! h = qs !! h.
Proof.
  intros Hk Htop Hp Ht Hkd Hn Hf. pose proof Hk as [Hok (Hc & Hs & _) Har].
  assert (Hne : r_current k <> tp) by (intros E; by rewrite E in Hc).
  set (G' := ghost_real tp prio (ghost_prio tp prio G)).
  assert (Hk1 : kmid G' ({[tp]} ∪ T) (Some tp) (_thread_init tp prio k) qs).
  { constructor.
    - apply (kok_thread_gen rlist idle fuel kind G G' T None (Some tp) k _ qs tp); try done; auto.
      + intros x Hx. cbn. by rewrite !upd_ne.
      + intros x Hx. cbn. by rewrite !upd_ne.
      + cbn. by rewrite !upd_eq.
      + cbn. by rewrite !upd_eq.
      + cbn. by rewrite upd_eq.
      + intros x Hx. split; congruence.
      + intros h l Hq Hin. by destruct (kok_queued _ _ _ _ _ _ _ _ Hok h l tp Hq Hin).
      + intros trp E. cbn in E. destruct (ko_tref _ _ _ _ _ _ _ _ Hok trp) as (Ht' & _); [congruence|].
        by rewrite E in Ht'.
    - cbn. rewrite upd_ne by done. split; [set_solver|split; [done|congruence]].
    - intros x Hx. cbn in *. destruct (Har x Hx) as [Hx1 Hx2]. split; [set_solver|].
      rewrite upd_ne; [done|]. intros ->. done. }
  destruct (wakeupS_ok rlist idle fuel kind G' _ _ qs tp MSG_OK Hk1) as (k' & qs' & E & H1 & H2 & H3 & _ & H4); [set_solver| |].
  - intros l x Hq Hx. cbn. rewrite !upd_ne; [by apply (Htop l)|done|]. intros ->.
    by destruct (kok_queued _ _ _ _ _ _ _ _ Hok rlist l tp Hq Hx).
  - by exists k', qs'.
Qed.

Lemma create_ok T k qs tp prio : kmid G T None k qs -> top rlist k qs -> 0 < prio ->
  tp ∉ T -> kind !! tp = None -> tp <> NULL -> (size ({[tp]} ∪ T) < fuel)%nat ->
  call_ok (ghost_real tp prio (ghost_prio tp prio G)) T ({[tp]} ∪ T) k (chThdCreateStatic rlist fuel tp prio k).
Proof.
  intros Hk Htop Hp Ht Hkd Hn Hf.
  destruct (create_gen T k qs tp prio Hk Htop Hp Ht Hkd Hn Hf) as (k' & qs' & E & H1 & H2 & H3 & _).
  exists k', qs'. repeat (split; [done|]). apply (woke_moved _ _ tp _ (_thread_init tp prio k)); [done|by right|done|].
  intros x Hx. cbn. by rewrite upd_ne.
Qed.
End Calls.
