(* ===== verification/Kernel.v ===== *)
(** The kernel of [Sched] run by sequences of system calls and interrupts, from the start
    of the system.

    Proved, for any sequence of system calls, interrupts and timeouts: every thread is in
    exactly the queue its state says; the ready list is sorted by priority, first come
    first served among equals; no thread runs while one of higher priority is ready; the
    counter of a semaphore is the number of free units or of waiting threads; waiting
    threads are served in order of arrival; threads of equal priority share the processor
    by time slices. *)
From stdpp Require Import sorting.
From S2P Require Import Prelude Queues Sched SchedOk.
Local Open Scope Z_scope.

(** ** Sequences of system calls and interrupts *)

Inductive isr_op : Type :=
  | ISignal (sp : Z) | IAddCounter (sp n : Z) | ISemReset (sp n : Z) | IResume (trp msg : Z)
  | IDequeueNext (tqp msg : Z) | IDequeueAll (tqp msg : Z) | ICondSignal (cp : Z)
  | ICondBroadcast (cp : Z) | ITimeout (tp : Z) | ITick.

Inductive syscall : Type :=
  | SemWait (sp : Z) | SemWaitTimeout (sp time : Z) | SemSignal (sp : Z) | SemReset (sp n : Z)
  | SemSignalWait (sps spw : Z) | Yield | Sleep (time : Z) | SetPriority (prio : Z)
  | Suspend (trp : Z) | SuspendTimeout (trp time : Z) | Resume (trp msg : Z)
  | EnqueueTimeout (tqp time : Z) | CondSignal (cp : Z) | CondBroadcast (cp : Z)
  | Create (tp prio : Z).

Inductive event : Type := Call (c : syscall) | Irq (os : list isr_op).

Section Events.
Context (rlist idle : Z) (fuel : nat) (kind : gmap Z qkind).
Notation kmid := (kmid rlist idle fuel kind).
Notation top := (top rlist).
Notation call_ok := (call_ok rlist idle fuel kind).
Notation isr_ok := (isr_ok rlist idle fuel kind).

Definition run_isr (o : isr_op) (k : kernel) : option kernel :=
  match o with
  | ISignal sp => chSemSignalI rlist fuel sp k
  | IAddCounter sp n => chSemAddCounterI rlist fuel sp n k
  | ISemReset sp n => chSemResetI rlist fuel sp n k
  | IResume trp msg => chThdResumeI rlist fuel trp msg k
  | IDequeueNext tqp msg => chThdDequeueNextI rlist fuel tqp msg k
  | IDequeueAll tqp msg => chThdDequeueAllI rlist fuel tqp msg k
  | ICondSignal cp => chCondSignalI rlist fuel cp k
  | ICondBroadcast cp => chCondBroadcastI rlist fuel cp k
  | ITimeout tp => timeout rlist fuel tp k
  | ITick => Some (sys_tick k)
  end.

Fixpoint run_isrs (os : list isr_op) (k : kernel) : option kernel :=
  match os with
  | [] => Some k
  | o :: os => match run_isr o k with None => None | Some k => run_isrs os k end
  end.

Definition snd_opt {A} (r : option (A * kernel)) : option kernel :=
  match r with None => None | Some (_, k) => Some k end.

Definition run_call (c : syscall) (k : kernel) : option kernel :=
  match c with
  | SemWait sp => Some (snd (chSemWait rlist sp k))
  | SemWaitTimeout sp time => Some (snd (chSemWaitTimeout rlist sp time k))
  | SemSignal sp => chSemSignal rlist fuel sp k
  | SemReset sp n => chSemReset rlist fuel sp n k
  | SemSignalWait sps spw => snd_opt (chSemSignalWait rlist fuel sps spw k)
  | Yield => chThdYield rlist fuel k
  | Sleep time => Some (chThdSleep rlist time k)
  | SetPriority prio => snd_opt (chThdSetPriority rlist fuel prio k)
  | Suspend trp => Some (chThdSuspendS rlist trp k)
  | SuspendTimeout trp time => Some (snd (chThdSuspendTimeoutS rlist trp time k))
  | Resume trp msg => chThdResume rlist fuel trp msg k
  | EnqueueTimeout tqp time => Some (snd (chThdEnqueueTimeoutS rlist tqp time k))
  | CondSignal cp => chCondSignal rlist fuel cp k
  | CondBroadcast cp => chCondBroadcast rlist fuel cp k
  | Create tp prio => chThdCreateStatic rlist fuel tp prio k
  end.

(** An event, and the end of the sleep of the thread that runs after it. *)
Definition run_event (e : event) (k : kernel) : option kernel :=
  match match e with
        | Call c => run_call c k
        | Irq os => match run_isrs os k with None => None | Some k => irq_epilogue rlist fuel k end
        end with
  | None => None
  | Some k => Some (timeout_resume k)
  end.

(** What the documentation of each function asks of its caller: objects of the right
    kind, counters that do not overflow, priorities above NOPRIO; the idle thread does
    not sleep; a timeout only of a timer that is armed. *)
Definition valid_isr (k : kernel) (o : isr_op) : Prop :=
  match o with
  | ISignal sp => kind !! sp = Some QSem /\ s_cnt k sp < 2147483647
  | IAddCounter sp n => kind !! sp = Some QSem /\ 0 < n /\ s_cnt k sp + n <= 2147483647
  | ISemReset sp n => kind !! sp = Some QSem /\ s_cnt k sp < 2147483647 /\ 0 <= n < 2147483648
  | IResume _ _ | ITick => True
  | IDequeueNext tqp _ | IDequeueAll tqp _ => kind !! tqp = Some QThreads
  | ICondSignal cp | ICondBroadcast cp => kind !! cp = Some QCond
  | ITimeout tp => armed k tp = true
  end.

Definition valid_call (T : gset Z) (k : kernel) (c : syscall) : Prop :=
  match c with
  | SemWait sp | SemWaitTimeout sp _ =>
      kind !! sp = Some QSem /\ -2147483648 < s_cnt k sp /\ r_current k <> idle
  | SemSignal sp => kind !! sp = Some QSem /\ s_cnt k sp < 2147483647
  | SemReset sp n => kind !! sp = Some QSem /\ s_cnt k sp < 2147483647 /\ 0 <= n < 2147483648
  | SemSignalWait sps spw => kind !! sps = Some QSem /\ kind !! spw = Some QSem /\
      s_cnt k sps < 2147483647 /\ -2147483647 <= s_cnt k spw /\ r_current k <> idle
  | Yield | Resume _ _ => True
  | Sleep _ => r_current k <> idle
  | SetPriority prio => 0 < prio
  | Suspend trp | SuspendTimeout trp _ => tref k trp = NULL /\ r_current k <> idle
  | EnqueueTimeout tqp _ => kind !! tqp = Some QThreads /\ r_current k <> idle
  | CondSignal cp | CondBroadcast cp => kind !! cp = Some QCond
  | Create tp prio => 0 < prio /\ tp ∉ T /\ kind !! tp = None /\ tp <> NULL /\ (size ({[tp]} ∪ T) < fuel)%nat
  end.

Fixpoint valid_isrs (k : kernel) (os : list isr_op) : Prop :=
  match os with
  | [] => True
  | o :: os => valid_isr k o /\ forall k', run_isr o k = Some k' -> valid_isrs k' os
  end.

Definition valid_event (T : gset Z) (k : kernel) (e : event) : Prop :=
  match e with Call c => valid_call T k c | Irq os => valid_isrs k os end.

Definition threads_after (e : event) (T : gset Z) : gset Z :=
  match e with Call (Create tp _) => {[tp]} ∪ T | _ => T end.

Fixpoint run_events (es : list event) (k : kernel) : option kernel :=
  match es with
  | [] => Some k
  | e :: es => match run_event e k with None => None | Some k => run_events es k end
  end.

Fixpoint valid_events (T : gset Z) (k : kernel) (es : list event) : Prop :=
  match es with
  | [] => True
  | e :: es => valid_event T k e /\
      forall k', run_event e k = Some k' -> valid_events (threads_after e T) k' es
  end.

Definition kernel_ok (T : gset Z) (k : kernel) : Prop :=
  exists G qs, kmid G T None k qs /\ top k qs /\ quiet k.

(** The priorities after an event. *)
Definition ghost_after (e : event) (k : kernel) (G : ghost) : ghost :=
  match e with
  | Call (SetPriority p) => ghost_set (r_current k) p G
  | Call (Create tp prio) => ghost_real tp prio (ghost_prio tp prio G)
  | _ => G
  end.

(** What an operation of an interrupt handler does to the threads. *)
Definition isr_moves (o : isr_op) (k k' : kernel) : Prop :=
  r_current k' = r_current k /\
  match o with
  | ITimeout tp => tp <> r_current k /\ armed k tp = true /\ armed k' = upd tp false (armed k) /\ timed_out tp k k'
  | _ => armed k' = armed k /\ calm (p_state k) (p_state k') (p_u k) (p_u k')
  end.

Lemma run_isr_ok G T k qs o : kmid G T None k qs -> quiet k -> valid_isr k o ->
  exists k' qs', run_isr o k = Some k' /\ kmid G T None k' qs' /\ quiet k' /\ isr_moves o k k'.
Proof.
  intros Hk Hq Hv. unfold isr_moves.
  assert (Hf : forall r, isr_ok G T k r -> exists k' qs', r = Some k' /\ kmid G T None k' qs' /\ quiet k' /\
    r_current k' = r_current k /\ armed k' = armed k /\ calm (p_state k) (p_state k') (p_u k) (p_u k')).
  { intros r (k' & qs' & -> & Hk' & Hr & Ha & _ & _ & Hm). exists k', qs'.
    split; [done|split; [done|split; [|split; [done|by split]]]]. unfold quiet in *. by rewrite Hr, Ha. }
  destruct o; cbn [run_isr valid_isr] in *.
  - destruct Hv. apply Hf. by apply (semSignalI_ok rlist idle fuel kind G T k qs).
  - destruct Hv as (H1 & H2 & H3). apply Hf. unfold chSemAddCounterI.
    apply (add_loop_ok rlist idle fuel kind G T sp (Z.to_nat n) k qs Hk H1). lia.
  - destruct Hv as (H1 & H2 & H3). apply Hf. by apply (chSemResetI_ok rlist idle fuel kind G T k qs).
  - apply Hf. by apply (chThdResumeI_ok rlist idle fuel kind G T k qs).
  - apply Hf. by apply (chThdDequeueNextI_ok rlist idle fuel kind G T k qs).
  - apply Hf. by apply (chThdDequeueAllI_ok rlist idle fuel kind G T k qs).
  - apply Hf. by apply (chCondSignalI_ok rlist idle fuel kind G T k qs).
  - apply Hf. by apply (chCondBroadcastI_ok rlist idle fuel kind G T k qs).
  - destruct (timeout_ok rlist idle fuel kind G T k qs tp Hk Hq Hv) as
      (k' & qs' & H1 & H2 & H3 & _ & H4 & H5 & H6 & H7). by exists k', qs'.
  - exists (sys_tick k), qs. unfold sys_tick. destruct (_ <? _); [|done].
    split; [done|split; [by apply kmid_preempt|done]].
Qed.

Lemma run_isrs_ok G T : forall os k qs, kmid G T None k qs -> quiet k -> valid_isrs k os ->
  exists k' qs', run_isrs os k = Some k' /\ kmid G T None k' qs' /\ quiet k'.
Proof.
  induction os as [|o os IH]; intros k qs Hk Hq Hv; cbn [run_isrs]; [by exists k, qs|].
  destruct Hv as [Hv1 Hv2]. destruct (run_isr_ok G T k qs o Hk Hq Hv1) as (k1 & qs1 & E & Hk1 & Hq1 & _).
  rewrite E. by apply (IH k1 qs1); [| |apply Hv2].
Qed.

Lemma run_syscall_ok G T k qs c : kmid G T None k qs -> top k qs -> valid_call T k c ->
  call_ok (ghost_after (Call c) k G) T (threads_after (Call c) T) k (run_call c k).
Proof.
  intros Hk Ht Hv. destruct c; cbn [run_call valid_call threads_after ghost_after] in *.
  - destruct Hv as (H1 & H2 & H3). by apply (semWait_ok rlist idle fuel kind G T k qs).
  - destruct Hv as (H1 & H2 & H3). by apply (semWaitTimeout_ok rlist idle fuel kind G T k qs).
  - destruct Hv as (H1 & H2). by apply (semSignal_ok rlist idle fuel kind G T k qs).
  - destruct Hv as (H1 & H2 & H3). by apply (semReset_ok rlist idle fuel kind G T k qs).
  - destruct Hv as (H1 & H2 & H3 & H4 & H5). by apply (semSignalWait_ok rlist idle fuel kind G T k qs).
  - by apply (yield_call rlist idle fuel kind G T k qs).
  - by apply (sleep_ok rlist idle fuel kind G T k qs).
  - by apply (setPriority_ok rlist idle fuel kind G T k qs).
  - destruct Hv. by apply (suspend_forever_ok rlist idle fuel kind G T k qs).
  - destruct Hv. by apply (suspend_ok rlist idle fuel kind G T k qs).
  - by apply (resumeS_ok rlist idle fuel kind G T k qs).
  - destruct Hv. by apply (enqueue_ok rlist idle fuel kind G T k qs).
  - by apply (condSignal_ok rlist idle fuel kind G T k qs).
  - by apply (condBroadcast_ok rlist idle fuel kind G T k qs).
  - destruct Hv as (H1 & H2 & H3 & H4 & H5). by apply (create_ok rlist idle fuel kind G T k qs).
Qed.

(** An event keeps the queues of the mutexes, and the priorities but those it sets. *)
Lemma run_event_mid G T k qs e : kmid G T None k qs -> top k qs -> quiet k -> valid_event T k e ->
  exists k' qs', run_event e k = Some k' /\ kmid (ghost_after e k G) (threads_after e T) None k' qs' /\
    top k' qs' /\ quiet k'.
Proof.
  intros Hk Ht Hq Hv. unfold run_event.
  assert (Hf : forall G' T0 T' r, call_ok G' T0 T' k r -> exists k' qs',
    match r with None => None | Some k => Some (timeout_resume k) end = Some k' /\
    kmid G' T' None k' qs' /\ top k' qs' /\ quiet k').
  { intros G' T0 T' r (k' & qs' & -> & Hk' & Ht' & _). eexists _, qs'. split; [done|]. by apply resume_ok. }
  destruct e as [c|os]; cbn [valid_event] in Hv.
  - apply (Hf _ T). by apply (run_syscall_ok G T k qs).
  - cbn [threads_after ghost_after]. destruct (run_isrs_ok G T os k qs Hk Hq Hv) as (k1 & qs1 & -> & Hk1 & _).
    destruct (epilogue_ok rlist idle fuel kind G T k1 qs1) as (k2 & qs2 & -> & Hk2 & Ht2 & _); [done|].
    eexists _, qs2. split; [done|]. by apply resume_ok.
Qed.

Lemma run_event_ok T k e : kernel_ok T k -> valid_event T k e ->
  exists k', run_event e k = Some k' /\ kernel_ok (threads_after e T) k'.
Proof.
  intros (G & qs & Hk & Ht & Hq) Hv.
  destruct (run_event_mid G T k qs e Hk Ht Hq Hv) as (k' & qs' & E & H). exists k'. split; [done|].
  by exists (ghost_after e k G), qs'.
Qed.

Lemma run_events_ok : forall es T k, kernel_ok T k -> valid_events T k es ->
  exists k', run_events es k = Some k' /\ kernel_ok (fold_left (fun T e => threads_after e T) es T) k'.
Proof.
  induction es as [|e es IH]; intros T k Hk Hv; cbn [run_events fold_left]; [by exists k|].
  destruct Hv as [Hv1 Hv2]. destruct (run_event_ok T k e Hk Hv1) as (k1 & E & Hk1).
  rewrite E. by apply IH; [|apply Hv2].
Qed.
End Events.

(** ** The start of the system *)

(** The objects of the program; of a mutex or a condition variable, the queue. *)
Inductive object : Type := Semaphore (n : Z) | ThreadQueue | Mutex | CondVar.

Definition init_object (h : Z) (o : object) (k : kernel) : kernel :=
  match o with
  | Semaphore n => chSemObjectInit h n k
  | _ => chThdQueueObjectInit h k
  end.
Fixpoint init_objects (objs : list (Z * object)) (k : kernel) : kernel :=
  match objs with
  | [] => k
  | (h, o) :: objs => init_objects objs (init_object h o k)
  end.

Definition obj_kind (o : Z * object) : Z * qkind :=
  (fst o, match snd o with
          | Semaphore _ => QSem | ThreadQueue => QThreads | Mutex => QMutex | CondVar => QCond
          end).
Definition kinds (rlist : Z) (objs : list (Z * object)) : gmap Z qkind :=
  <[rlist := QReady]> (list_to_map (map obj_kind objs)).

Definition objects_ok (rlist mainthread : Z) (objs : list (Z * object)) : Prop :=
  NoDup (rlist :: mainthread :: map fst objs) /\ mainthread <> NULL /\
  forall sp n, In (sp, Semaphore n) objs -> 0 <= n < 2147483648.

(** Static memory is zero. *)
Definition blank_kernel (k : kernel) : Prop :=
  (forall trp, tref k trp = NULL) /\ (forall tp, armed k tp = false).

Lemma init_objects_same objs : forall k,
  p_prio (init_objects objs k) = p_prio k /\ p_state (init_objects objs k) = p_state k /\
  p_u (init_objects objs k) = p_u k /\ r_current (init_objects objs k) = r_current k /\
  tref (init_objects objs k) = tref k /\ armed (init_objects objs k) = armed k.
Proof.
  induction objs as [|[h o] objs IH]; intros k; cbn [init_objects]; [done|].
  destruct (IH (init_object h o k)) as (-> & -> & -> & -> & -> & ->). by destruct o.
Qed.

Lemma init_object_links h o k : lk (init_object h o k) = queue_init h (lk k).
Proof. by destruct o. Qed.

Lemma init_objects_links objs : forall k qs, linked (lk k) qs -> NoDup (map fst objs) ->
  (forall h, In h (map fst objs) -> unqueued qs h) -> (forall h l, qs !! h = Some l -> l = []) ->
  exists qs', linked (lk (init_objects objs k)) qs' /\ (forall h l, qs' !! h = Some l -> l = []) /\
    forall h, is_Some (qs' !! h) <-> is_Some (qs !! h) \/ In h (map fst objs).
Proof.
  induction objs as [|[h o] objs IH]; intros k qs Hl Hnd Hu He; cbn [init_objects map fst] in *.
  { exists qs. split; [done|split; [done|]]. intros h. cbn. tauto. }
  apply list.NoDup_cons in Hnd as [Hh Hnd]. rewrite list_elem_of_In in Hh.
  assert (Hl1 : linked (queue_init h (lk k)) (<[h := []]> qs)) by (apply linked_init; auto; apply Hu; by left).
  assert (Hu1 : forall x, In x (map fst objs) -> unqueued (<[h := []]> qs) x).
  { intros x Hx h2 l2. destruct (decide (h2 = h)) as [->|Hne].
    - rewrite lookup_insert_eq. intros [= <-] [->|[]]. done.
    - rewrite lookup_insert_ne by auto. apply Hu. by right. }
  assert (He1 : forall h2 l, <[h := []]> qs !! h2 = Some l -> l = []).
  { intros h2 l. destruct (decide (h2 = h)) as [->|Hne]; [rewrite lookup_insert_eq; congruence|].
    rewrite lookup_insert_ne by auto. apply He. }
  assert (Hd : forall x, is_Some (<[h := []]> qs !! x) \/ In x (map fst objs) <->
    is_Some (qs !! x) \/ h = x \/ In x (map fst objs)).
  { intros x. destruct (decide (x = h)) as [->|Hne].
    - rewrite lookup_insert_eq. split; [auto|]. intros _. left. by eexists.
    - rewrite lookup_insert_ne by auto. intuition congruence. }
  rewrite <- (init_object_links h o) in Hl1.
  destruct (IH (init_object h o k) _ Hl1 Hnd Hu1 He1) as (qs' & H1 & H2 & H3).
  exists qs'. split; [exact H1|split; [exact H2|]]. intros x. rewrite H3. apply Hd.
Qed.

Lemma init_objects_cnt objs : forall k sp n, NoDup (map fst objs) -> In (sp, Semaphore n) objs ->
  s_cnt (init_objects objs k) sp = n.
Proof.
  assert (Hkeep : forall objs k sp, ~ In sp (map fst objs) -> s_cnt (init_objects objs k) sp = s_cnt k sp).
  { clear. induction objs as [|[h o] objs IH]; intros k sp Hn; cbn [init_objects map fst] in *; [done|].
    rewrite IH by (intros ?; apply Hn; by right). destruct o; try done. cbn. apply upd_ne.
    intros ->. apply Hn. by left. }
  induction objs as [|[h o] objs IH]; intros k sp n Hnd Hin; [done|]. cbn [map fst] in Hnd.
  apply list.NoDup_cons in Hnd as [Hh Hnd]. rewrite list_elem_of_In in Hh.
  destruct Hin as [[= -> ->]|Hin]; cbn [init_objects].
  - rewrite Hkeep by done. cbn. apply upd_eq.
  - by apply IH.
Qed.

Lemma kinds_spec rlist objs h kd : NoDup (map fst objs) -> ~ In rlist (map fst objs) -> kd <> QReady ->
  kinds rlist objs !! h = Some kd <-> exists o, In (h, o) objs /\ snd (obj_kind (h, o)) = kd.
Proof.
  intros Hnd Hr Hkr. unfold kinds. destruct (decide (h = rlist)) as [->|Hne].
  - rewrite lookup_insert_eq. split; [congruence|]. intros (o & Hin & _). destruct Hr.
    by apply (in_map fst) in Hin.
  - rewrite lookup_insert_ne by auto. rewrite <- elem_of_list_to_map.
    + rewrite list_elem_of_In, in_map_iff. split.
      * intros ([h' o] & [= <- <-] & Hin). by exists o.
      * intros (o & Hin & <-). by exists (h, o).
    + unfold fmap. change (list_fmap _ _ fst) with (map (fst (A := Z) (B := qkind))).
      by rewrite map_map.
Qed.

Lemma kinds_sem rlist objs sp : NoDup (map fst objs) -> ~ In rlist (map fst objs) ->
  kinds rlist objs !! sp = Some QSem <-> exists n, In (sp, Semaphore n) objs.
Proof.
  intros Hnd Hr. rewrite kinds_spec by done. split; [|intros (n & H); by exists (Semaphore n)].
  intros ([n| | |] & H & E); try done. by exists n.
Qed.

Lemma kinds_dom rlist objs h : is_Some (kinds rlist objs !! h) <-> h = rlist \/ In h (map fst objs).
Proof.
  unfold kinds. destruct (decide (h = rlist)) as [->|Hne].
  - rewrite lookup_insert_eq. split; [auto|]. intros _. by eexists.
  - rewrite lookup_insert_ne by auto. split.
    + intros [kd Hkd]. right. apply elem_of_list_to_map_2, list_elem_of_In in Hkd.
      apply in_map_iff in Hkd as (o & E & Hin). unfold obj_kind in E. injection E as <- _. by apply in_map.
    + intros [->|Hin]; [done|]. apply not_eq_None_Some. intros E.
      apply not_elem_of_list_to_map_2 in E. apply E. rewrite list_elem_of_In.
      change (list_fmap _ _ fst) with (map (fst (A := Z) (B := qkind))). 
      unfold fmap. change (list_fmap _ _ fst (map obj_kind objs)) with (map (fst (A := Z) (B := qkind)) (map obj_kind objs)).
      by rewrite map_map.
Qed.

Lemma boot_ok rlist mainthread fuel objs k : objects_ok rlist mainthread objs -> blank_kernel k -> (1 < fuel)%nat ->
  let k0 := init_objects objs (sys_init rlist mainthread k) in
  exists qs, kmid rlist mainthread fuel (kinds rlist objs) (Ghost qs (p_prio k0) (p_realprio k0))
      {[mainthread]} None k0 qs /\
    top rlist k0 qs /\ quiet k0 /\ (forall h l, qs !! h = Some l -> l = []) /\
    (forall h, is_Some (qs !! h) <-> h = rlist \/ In h (map fst objs)).
Proof.
  intros ([Hr Hnd]%list.NoDup_cons & Hm & Hn) [Htr Har] Hf k0. unfold k0.
  apply list.NoDup_cons in Hnd as [Hmo Hnd].
  rewrite list_elem_of_In in Hr, Hmo. set (k1 := sys_init rlist mainthread k).
  assert (Hmr : mainthread <> rlist) by (intros ->; apply Hr; by left).
  assert (Hro : ~ In rlist (map fst objs)) by (intros ?; apply Hr; by right).
  destruct (init_objects_same objs k1) as (E1 & E2 & E3 & E4 & E5 & E6).
  assert (Hl0 : linked (lk k1) {[rlist := []]}).
  { change (lk k1) with (queue_init rlist (lk k)). rewrite <- insert_empty. apply linked_init.
    - by constructor; intros *; rewrite lookup_empty.
    - intros h l. by rewrite lookup_empty. }
  destruct (init_objects_links objs k1 _ Hl0 Hnd) as (qs & Hl & He & Hd).
  { intros h Hh h2 l2 [<- <-]%lookup_singleton_Some [<-|[]]. done. }
  { by intros h l [_ <-]%lookup_singleton_Some. }
  assert (Hprio : p_prio k1 mainthread = IDLEPRIO) by (unfold k1, sys_init; cbn; by rewrite upd_eq).
  assert (Hst : p_state k1 mainthread = CH_STATE_CURRENT) by (unfold k1, sys_init; cbn; by rewrite upd_eq).
  assert (Hrp : p_prio k1 rlist = 0).
  { unfold k1, sys_init, _thread_init, _scheduler_init. cbn. rewrite upd_ne by auto. apply upd_eq. }
  set (kf := init_objects objs k1) in *.
  assert (Hdom : forall h, is_Some (qs !! h) <-> h = rlist \/ In h (map fst objs)).
  { intros h. rewrite Hd. split.
    + intros [[l [<- _]%lookup_singleton_Some]|?]; auto.
    + intros [->|?]; [left|by right]. rewrite lookup_singleton_eq. by eexists. }
  exists qs. split; [constructor; [constructor| |]|split; [|split; [|by split]]].
  - done.
  - intros h. by rewrite Hdom, kinds_dom.
  - split; [apply lookup_insert_eq|]. intros h. unfold kinds.
    destruct (decide (h = rlist)) as [->|Hne]; [done|]. rewrite lookup_insert_ne by auto.
    intros Hkd%elem_of_list_to_map_2%list_elem_of_In. apply in_map_iff in Hkd as ([? []] & ? & _); done.
  - intros h kd l tp _ Hq Hin. by rewrite (He h l Hq) in Hin.
  - intros tp ->%elem_of_singleton _. unfold thread_ok. rewrite E2, E4, Hst. split; [by right|done].
  - rewrite E1. split; [|done]. intros tp ->%elem_of_singleton. by rewrite Hprio.
  - intros l Hq. rewrite (He _ _ Hq). constructor.
  - intros sp l Hkd Hq. rewrite (He _ _ Hq). apply (kinds_sem rlist objs sp Hnd Hro) in Hkd as (n & Hin).
    assert (Hc : s_cnt kf sp = n) by (by apply init_objects_cnt). specialize (Hn sp n Hin).
    unfold sem_ok. rewrite Hc. cbn. lia.
  - intros trp. rewrite E5. intros Hne. by destruct Hne; apply Htr.
  - intros tp ->%elem_of_singleton. split; [|done]. apply eq_None_not_Some. rewrite kinds_dom.
    intros [?|?]; done.
  - set_solver.
  - by rewrite size_singleton.
  - intros h kd l _ _ Hq. rewrite (He _ _ Hq). constructor.
  - done.
  - done.
  - rewrite E2, E4. change (r_current k1) with mainthread. rewrite Hst. split; [set_solver|done].
  - intros x. rewrite E6. change (armed k1 x) with (armed k x). rewrite Har. done.
  - intros l x Hq Hin. by rewrite (He _ _ Hq) in Hin.
  - unfold quiet. rewrite E6, E4. apply Har.
Qed.

Lemma boot_kernel_ok rlist mainthread fuel objs k :
  objects_ok rlist mainthread objs -> blank_kernel k -> (1 < fuel)%nat ->
  kernel_ok rlist mainthread fuel (kinds rlist objs) {[mainthread]}
    (init_objects objs (sys_init rlist mainthread k)).
Proof.
  intros Ho Hb Hf. destruct (boot_ok rlist mainthread fuel objs k Ho Hb Hf) as (qs & H1 & H2 & H3 & _).
  by eexists _, qs.
Qed.

(** ** Semaphores *)

Section Semaphores.
Context (rlist idle : Z) (fuel : nat) (kind : gmap Z qkind) (G : ghost).
Notation kmid := (kmid rlist idle fuel kind G).

(** A signal to a semaphore with waiting threads wakes the first. *)
Lemma signal_first T k qs sp w l : kmid T None k qs -> kind !! sp = Some QSem ->
  qs !! sp = Some (w :: l) ->
  exists k' qs', chSemSignalI rlist fuel sp k = Some k' /\ kmid T None k' qs' /\ same_run k k' /\
    qs' !! sp = Some l /\ s_cnt k' sp = s_cnt k sp + 1 /\
    p_state k' w = CH_STATE_READY /\ p_u k' w = MSG_OK /\
    forall x, x <> w -> p_state k' x = p_state k x /\ p_u k' x = p_u k x.
Proof.
  intros Hk Hs Hq. pose proof (km_ok _ _ _ _ _ _ _ _ Hk) as Hok.
  destruct (ko_sem _ _ _ _ _ _ _ _ Hok sp _ Hs Hq) as [S1 S2]. cbn in S1.
  destruct (signal_cases rlist idle fuel kind G T k qs sp Hk Hs ltac:(lia)) as
    (Ec & [[E H]|(E & x & r & m & Hq' & Ef & H & Hx & Hh)]); [lia|].
  rewrite Hq in Hq'. injection Hq' as <- <-. unfold chSemSignalI. cbv zeta. rewrite E, Ef.
  assert (Hsr : sp <> rlist).
  { intros ->. destruct (ko_ready _ _ _ _ _ _ _ _ Hok) as [Hr _]. congruence. }
  destruct (wake_any rlist idle fuel kind G T _ _ w MSG_OK H Hx) as (k' & qs' & E' & Hk' & R & Rs & Ru & Rc & Rq).
  exists k', qs'. split; [exact E'|split; [exact Hk'|split; [|split; [|split]]]].
  - destruct R as (R1 & R2 & R3 & R4). repeat split; [done..|]. intros x. rewrite Rs, Ru. cbn. unfold upd.
    destruct (Z.eqb_spec x w) as [->|]; [by right|by left].
  - by rewrite Rq, lookup_insert_eq by auto.
  - rewrite Rc. exact Ec.
  - rewrite Rs, Ru. cbn. rewrite !upd_eq. split; [done|split; [done|]]. intros x Hx'. by rewrite !upd_ne.
Qed.

(** A signal that finds no waiting thread is counted. *)
Lemma signal_none T k qs sp : kmid T None k qs -> kind !! sp = Some QSem ->
  qs !! sp = Some [] -> s_cnt k sp < 2147483647 ->
  exists k', chSemSignalI rlist fuel sp k = Some k' /\ kmid T None k' qs /\ same_run k k' /\
    s_cnt k' sp = s_cnt k sp + 1 /\ p_state k' = p_state k /\ p_u k' = p_u k.
Proof.
  intros Hk Hs Hq Hb.
  destruct (signal_cases rlist idle fuel kind G T k qs sp Hk Hs Hb) as
    (Ec & [[E H]|(E & x & r & m & Hq' & _)]); [|congruence].
  unfold chSemSignalI. cbv zeta. rewrite E. eexists. split; [done|split; [exact H|done]].
Qed.

(** [n] signals, to a semaphore in which [ws] wait. *)
Lemma add_counter_ok T sp : kind !! sp = Some QSem -> forall n k qs ws,
  kmid T None k qs -> qs !! sp = Some ws -> s_cnt k sp + Z.of_nat n <= 2147483647 ->
  exists k' qs', add_loop rlist fuel n sp k = Some k' /\ kmid T None k' qs' /\ same_run k k' /\
    qs' !! sp = Some (drop n ws) /\ s_cnt k' sp = s_cnt k sp + Z.of_nat n /\
    (forall w, In w (take n ws) -> p_state k' w = CH_STATE_READY /\ p_u k' w = MSG_OK) /\
    (forall x, ~ In x (take n ws) -> p_state k' x = p_state k x /\ p_u k' x = p_u k x).
Proof.
  intros Hs. induction n as [|n IH]; intros k qs ws Hk Hq Hb; cbn [add_loop].
  { exists k, qs. rewrite drop_0, take_0. split; [done|split; [done|split; [done|split; [done|]]]].
    split; [lia|]. split; [by intros w []|done]. }
  rewrite add_unit_eq. destruct ws as [|w ws].
  - destruct (signal_none T k qs sp Hk Hs Hq ltac:(lia)) as (k1 & -> & Hk1 & Hsr1 & Hc1 & Hst1 & Hu1).
    destruct (IH k1 qs [] Hk1 Hq ltac:(lia)) as (k' & qs' & E & Hk' & Hsr & Hq' & Hc & _ & Ho).
    exists k', qs'. rewrite take_nil, drop_nil in *. split; [done|split; [done|]].
    split; [by apply (same_run_trans k k1 k')|]. split; [done|split; [lia|split; [by intros w []|]]].
    intros x Hx. destruct (Ho x Hx) as [-> ->]. by rewrite Hst1, Hu1.
  - destruct (signal_first T k qs sp w ws Hk Hs Hq) as (k1 & qs1 & -> & Hk1 & Hsr1 & Hq1 & Hc1 & W1 & W2 & Wo).
    pose proof (li_nodup _ _ (ko_linked _ _ _ _ _ _ _ _ (km_ok _ _ _ _ _ _ _ _ Hk)) sp _ Hq) as Hnd.
    apply list.NoDup_cons in Hnd as [_ Hnd]. apply list.NoDup_cons in Hnd as [Hw _].
    destruct (IH k1 qs1 ws Hk1 Hq1 ltac:(lia)) as (k' & qs' & E & Hk' & Hsr & Hq' & Hc & Hwk & Ho).
    exists k', qs'. cbn [take drop]. split; [done|split; [done|]].
    split; [by apply (same_run_trans k k1 k')|]. split; [done|split; [lia|]].
    assert (Hwn : ~ In w (take n ws)).
    { intros Hin. apply Hw. rewrite <- (take_drop n ws). apply elem_of_app. left. by apply list_elem_of_In. }
    split.
    + intros x [<-|Hx]; [|by apply Hwk]. destruct (Ho w Hwn) as [-> ->]. done.
    + intros x Hx. cbn in Hx. destruct (Ho x) as [-> ->]; [tauto|]. apply Wo. intros ->. tauto.
Qed.
End Semaphores.

(** ** The contents of a queue, read from memory *)

Definition waiting (k : kernel) (q : Z) (ws : list Z) : Prop := seg (lk k) q ws q /\ NoDup (q :: ws).

Lemma seg_unique m a b : forall l l', seg m a l b -> seg m a l' b -> ~ In b l -> ~ In b l' -> l = l'.
Proof.
  intros l. revert a. induction l as [|x l IH]; intros a [|y l'] H1 H2 N1 N2; cbn in *; [done| | |].
  - destruct H1 as [E1 _], H2 as [E2 _]. destruct N2. left. congruence.
  - destruct H1 as [E1 _], H2 as [E2 _]. destruct N1. left. congruence.
  - destruct H1 as (E1 & _ & H1), H2 as (E2 & _ & H2). assert (x = y) as -> by congruence.
    f_equal. apply (IH y); auto.
Qed.

Lemma waiting_lookup k qs q ws l : linked (lk k) qs -> qs !! q = Some l -> waiting k q ws -> l = ws.
Proof.
  intros Hl Hq [Hs Hn]. pose proof (li_nodup _ _ Hl q l Hq) as Hn'.
  apply list.NoDup_cons in Hn as [Hn _], Hn' as [Hn' _]. rewrite list_elem_of_In in Hn, Hn'.
  apply (seg_unique (lk k) q q); [by apply (li_seg _ _ Hl)|done..].
Qed.

Lemma lookup_waiting k qs q l : linked (lk k) qs -> qs !! q = Some l -> waiting k q l.
Proof. intros Hl Hq. split; [by apply (li_seg _ _ Hl)|by apply (li_nodup _ _ Hl)]. Qed.

(** ** Time slices *)

Section Slices.
Context (rlist idle : Z) (fuel : nat) (kind : gmap Z qkind) (G : ghost).

Lemma quiet_resume k : quiet k -> timeout_resume k = k.
Proof. unfold quiet, timeout_resume. by intros ->. Qed.

Lemma quiet_preempt a v k : quiet k -> quiet (set_preempt a v k).
Proof. done. Qed.

(** A tick that leaves some of the quantum. *)
Lemma tick_stays T k qs x r :
  kmid rlist idle fuel kind G T None k qs -> quiet k -> qs !! rlist = Some (x :: r) ->
  p_prio k x <= p_prio k (r_current k) -> 1 < p_preempt k (r_current k) < 256 ->
  run_event rlist fuel (Irq [ITick]) k =
    Some (set_preempt (r_current k) (p_preempt k (r_current k) - 1) k).
Proof.
  intros Hk Hq Hl Hp Hn. pose proof (km_ok _ _ _ _ _ _ _ _ Hk) as Hok.
  destruct (firstprio_spec _ _ _ _ _ _ _ _ Hok _ Hl) as [Hf _].
  unfold run_event. cbn [run_isrs run_isr]. unfold sys_tick.
  replace (0 <? p_preempt k (r_current k)) with true by lia. rewrite u8_id by lia.
  set (k1 := set_preempt _ _ k). unfold irq_epilogue, chSchIsPreemptionRequired. cbv zeta.
  change (r_current k1) with (r_current k). change (firstprio rlist k1) with (firstprio rlist k).
  assert (Hp1 : p_preempt k1 (r_current k) = p_preempt k (r_current k) - 1) by apply upd_eq.
  rewrite Hp1. replace (0 <? p_preempt k (r_current k) - 1) with true by lia.
  change (p_prio k1) with (p_prio k). rewrite Hf.
  replace (p_prio k (r_current k) <? p_prio k x) with false by lia.
  by rewrite quiet_resume by (by apply quiet_preempt).
Qed.

(** The tick that ends the quantum. *)
Lemma tick_switches T k qs x r :
  kmid rlist idle fuel kind G T None k qs -> quiet k -> qs !! rlist = Some (x :: r) ->
  p_prio k x = p_prio k (r_current k) -> p_preempt k (r_current k) = 1 ->
  exists k' qs', run_event rlist fuel (Irq [ITick]) k = Some k' /\
    kmid rlist idle fuel kind G T None k' qs' /\ r_current k' = x /\
    p_preempt k' (r_current k) = CH_CFG_TIME_QUANTUM /\
    qs' !! rlist = Some (place (fun y => p_prio k (r_current k) <=? p_prio k y) (r_current k) r).
Proof.
  intros Hk Hq Hl Hp Hn. unfold run_event. cbn [run_isrs run_isr]. unfold sys_tick. rewrite Hn.
  change (0 <? 1) with true. cbv beta iota. change (u8 (1 - 1)) with 0.
  set (k1 := set_preempt (r_current k) 0 k).
  assert (Hk1 : kmid rlist idle fuel kind G T None k1 qs) by (by apply kmid_preempt).
  pose proof (km_ok _ _ _ _ _ _ _ _ Hk1) as Hok1.
  destruct (firstprio_spec _ _ _ _ _ _ _ _ Hok1 _ Hl) as [Hf _].
  assert (Hp1 : p_preempt k1 (r_current k1) = 0) by apply upd_eq.
  unfold irq_epilogue, chSchIsPreemptionRequired, chSchDoReschedule. cbv zeta. rewrite Hp1, Hf.
  change (0 <? 0) with false. cbv beta iota.
  replace (p_prio k1 (r_current k1) <=? p_prio k1 x) with true by (cbn; lia).
  destruct (behind_ok rlist idle fuel kind G T k1 qs x r Hk1 Hl) as (k2 & qs2 & E & Hk2 & Ht2 & Hc2 & _ & Hpr & Hq2);
    [cbn; lia|].
  change (0 =? 0) with true. cbv beta iota. rewrite E.
  destruct (resume_ok rlist idle fuel kind G T k2 qs2 Hk2 Ht2) as (Hk3 & _ & _).
  exists (timeout_resume k2), qs2. split; [done|split; [done|]].
  assert (Er : r_current (timeout_resume k2) = r_current k2 /\ p_preempt (timeout_resume k2) = p_preempt k2).
  { unfold timeout_resume. by destruct (armed _ _). }
  destruct Er as [-> ->]. split; [done|]. rewrite Hpr, Hq2. split; [apply upd_eq|apply lookup_insert_eq].
Qed.

Lemma ticks_ok T n : forall k qs x r,
  kmid rlist idle fuel kind G T None k qs -> quiet k -> qs !! rlist = Some (x :: r) ->
  p_prio k x = p_prio k (r_current k) -> p_preempt k (r_current k) = Z.of_nat (S n) -> Z.of_nat (S n) < 256 ->
  (forall j, (j <= n)%nat -> exists k', run_events rlist fuel (repeat (Irq [ITick]) j) k = Some k' /\
     r_current k' = r_current k) /\
  exists k' qs', run_events rlist fuel (repeat (Irq [ITick]) (S n)) k = Some k' /\
    kmid rlist idle fuel kind G T None k' qs' /\ r_current k' = x /\
    p_preempt k' (r_current k) = CH_CFG_TIME_QUANTUM /\
    qs' !! rlist = Some (place (fun y => p_prio k (r_current k) <=? p_prio k y) (r_current k) r).
Proof.
  induction n as [|n IH]; intros k qs x r Hk Hq Hl Hp Hn Hb.
  - split.
    + intros j Hj. assert (j = 0)%nat as -> by lia. by exists k.
    + destruct (tick_switches T k qs x r Hk Hq Hl Hp) as (k' & qs' & E & H); [lia|].
      exists k', qs'. cbn [repeat run_events]. rewrite E. by split.
  - assert (E := tick_stays T k qs x r Hk Hq Hl ltac:(lia) ltac:(lia)).
    set (k1 := set_preempt (r_current k) (p_preempt k (r_current k) - 1) k) in *.
    assert (Hk1 : kmid rlist idle fuel kind G T None k1 qs) by (by apply kmid_preempt).
    destruct (IH k1 qs x r Hk1 Hq Hl Hp) as [I1 I2]; [cbn; rewrite upd_eq; lia|lia|]. split.
    + intros [|j] Hj; [by exists k|]. cbn [repeat run_events]. rewrite E.
      destruct (I1 j ltac:(lia)) as (k' & E' & Hc). by exists k'.
    + change (repeat (Irq [ITick]) (S (S n))) with (Irq [ITick] :: repeat (Irq [ITick]) (S n)).
      cbn [run_events]. rewrite E. exact I2.
Qed.
End Slices.

(** ** What the invariant says of memory *)

(** The ready list: sorted, exactly the ready threads, none above the running one. *)
Definition ready_list (rlist : Z) (T : gset Z) (k : kernel) : Prop :=
  exists ready, waiting k rlist ready /\ by_prio k ready /\
    (forall tp, In tp ready <-> tp ∈ T /\ p_state k tp = CH_STATE_READY) /\
    forall tp, In tp ready -> p_prio k tp <= p_prio k (r_current k).

(** A semaphore: as many waiting threads as its counter is below zero. *)
Definition sem_list (T : gset Z) (k : kernel) (sp : Z) : Prop :=
  exists ws, waiting k sp ws /\ Z.of_nat (length ws) = Z.max 0 (- s_cnt k sp) /\
    forall tp, In tp ws <-> tp ∈ T /\ p_state k tp = CH_STATE_WTSEM /\ p_u k tp = sp.

Section Meaning.
Context (rlist idle : Z) (fuel : nat) (kind : gmap Z qkind) (G : ghost) (T : gset Z) (k : kernel) (qs : gmap Z (list Z)).
Hypothesis (Hk : kmid rlist idle fuel kind G T None k qs).
Let Hok := km_ok _ _ _ _ _ _ _ _ Hk.

Lemma ready_list_ok : top rlist k qs -> ready_list rlist T k.
Proof.
  intros Ht. destruct (kok_ready_list _ _ _ _ _ _ _ _ Hok) as [l Hq]. exists l.
  pose proof (ko_linked _ _ _ _ _ _ _ _ Hok) as Hl.
  destruct (ko_ready _ _ _ _ _ _ _ _ Hok) as [Hr _].
  split; [by apply (lookup_waiting k qs)|split; [by apply (ko_sorted _ _ _ _ _ _ _ _ Hok)|split]].
  - intros tp. split.
    + intros Hin. by destruct (ko_members _ _ _ _ _ _ _ _ Hok _ _ _ _ Hr Hq Hin) as (? & _ & ?).
    + intros [Htp Hs]. destruct (ko_threads _ _ _ _ _ _ _ _ Hok tp Htp ltac:(done)) as [_ Hth].
      rewrite Hs in Hth. destruct Hth as (l' & Hq' & Hin). congruence.
  - intros tp. by apply Ht.
Qed.

Lemma sem_list_ok sp : kind !! sp = Some QSem -> sem_list T k sp.
Proof.
  intros Hs. destruct (sem_queue _ _ _ _ _ T None k qs sp Hok Hs) as (l & Hq & Hc). exists l.
  split; [by apply (lookup_waiting k qs); [apply (ko_linked _ _ _ _ _ _ _ _ Hok)|]|].
  split; [apply Hc|]. intros tp. split.
  - intros Hin. by destruct (ko_members _ _ _ _ _ _ _ _ Hok _ _ _ _ Hs Hq Hin) as (? & _ & ?).
  - intros (Htp & Hst & Hu). destruct (ko_threads _ _ _ _ _ _ _ _ Hok tp Htp ltac:(done)) as [_ Hth].
    rewrite Hst, Hu in Hth. destruct Hth as (_ & l' & Hq' & Hin). congruence.
Qed.

Lemma one_running tp : tp ∈ T -> p_state k tp = CH_STATE_CURRENT <-> tp = r_current k.
Proof.
  intros Htp. pose proof Hk as [_ (_ & Hs & _) _]. split; [|by intros ->]. intros E.
  destruct (ko_threads _ _ _ _ _ _ _ _ Hok tp Htp ltac:(done)) as [_ Hth]. by rewrite E in Hth.
Qed.
End Meaning.

(** C12. From the start of the system, after any valid sequence of system calls,
    interrupts, timeouts and ticks (each of which returns): exactly one thread runs; the
    linked ready list holds exactly the ready threads, sorted by priority, and none has a
    priority above that of the running thread; and the queue of every semaphore holds
    exactly the threads that wait for it, as many as its counter says. *)
Theorem scheduler_invariant rlist mainthread fuel objs k es :
  objects_ok rlist mainthread objs -> blank_kernel k -> (1 < fuel)%nat ->
  valid_events rlist mainthread fuel (kinds rlist objs) {[mainthread]}
    (init_objects objs (sys_init rlist mainthread k)) es ->
  exists k', run_events rlist fuel es (init_objects objs (sys_init rlist mainthread k)) = Some k' /\
    let T := fold_left (fun T e => threads_after e T) es {[mainthread]} in
    r_current k' ∈ T /\
    (forall tp, tp ∈ T -> p_state k' tp = CH_STATE_CURRENT <-> tp = r_current k') /\
    ready_list rlist T k' /\
    forall sp n, In (sp, Semaphore n) objs -> sem_list T k' sp.
Proof.
  intros Ho Hb Hf Hv.
  destruct (run_events_ok rlist mainthread fuel (kinds rlist objs) es {[mainthread]} _
    (boot_kernel_ok rlist mainthread fuel objs k Ho Hb Hf) Hv) as (k' & E & G & qs & Hk & Ht & _).
  exists k'. split; [exact E|]. cbv zeta. pose proof Hk as [_ (Hc & _) _].
  split; [exact Hc|split; [intros tp; by apply (one_running _ _ _ _ _ _ _ _ Hk)|split]].
  - by apply (ready_list_ok _ _ _ _ _ _ _ _ Hk).
  - intros sp n Hin. apply (sem_list_ok _ _ _ _ _ _ _ _ Hk). destruct Ho as ([Hr Hnd]%list.NoDup_cons & _).
    apply list.NoDup_cons in Hnd as [_ Hnd]. rewrite list_elem_of_In in Hr.
    apply kinds_sem; [done| |by exists n]. intros ?. apply Hr. by right.
Qed.

Definition blank : kernel :=
  Kernel (Links (fun _ => 0) (fun _ => 0)) (fun _ => 0) (fun _ => 0) (fun _ => CH_STATE_FINAL)
    (fun _ => 0) (fun _ => 0) 0 (fun _ => 0) (fun _ => NULL) (fun _ => false).

(** Validity along a concrete run. *)
Lemma valid_step rlist idle fuel kind T k e es : valid_event rlist idle fuel kind T k e ->
  valid_events rlist idle fuel kind (threads_after e T) (default k (run_event rlist fuel e k)) es ->
  valid_events rlist idle fuel kind T k (e :: es).
Proof. intros H1 H2. split; [done|]. intros k' E. by rewrite E in H2. Qed.

Lemma valid_isrs_step rlist fuel kind k o os : valid_isr kind k o ->
  valid_isrs rlist fuel kind (default k (run_isr rlist fuel o k)) os ->
  valid_isrs rlist fuel kind k (o :: os).
Proof. intros H1 H2. split; [done|]. intros k' E. by rewrite E in H2. Qed.

(** A thread is created, takes the processor, waits, and is woken by an interrupt. *)
Lemma scheduler_invariant_witness :
  let objs := [(3000, Semaphore 0); (3100, ThreadQueue)] in
  let es := [Call (Create 2100 64); Call (SemWait 3000); Call Yield; Irq [ITick; ISignal 3000]] in
  exists k', run_events 1000 4 es (init_objects objs (sys_init 1000 2000 blank)) = Some k' /\
    let T := fold_left (fun T e => threads_after e T) es {[2000]} in
    r_current k' ∈ T /\
    (forall tp, tp ∈ T -> p_state k' tp = CH_STATE_CURRENT <-> tp = r_current k') /\
    ready_list 1000 T k' /\
    forall sp n, In (sp, Semaphore n) objs -> sem_list T k' sp.
Proof.
  apply scheduler_invariant.
  - split; [|split; [done|]].
    + apply NoDup_ListNoDup. repeat constructor; cbn; lia.
    + intros sp n [[= <- <-]|[[=]|[]]]. lia.
  - done.
  - lia.
  - apply valid_step; [|apply valid_step; [|apply valid_step; [done|apply valid_step; [|done]]]].
    + split; [done|split; [set_solver|split; [by vm_compute|split; [done|]]]].
      apply Nat.leb_le. by vm_compute.
    + split; [by vm_compute|split; [by vm_compute|by vm_compute]].
    + apply valid_isrs_step; [done|]. apply valid_isrs_step; [|done]. split; by vm_compute.
Defined.

(** ** Semaphores serve in order of arrival *)

Section SemFifo.
Context (rlist idle : Z) (fuel : nat) (kind : gmap Z qkind) (G : ghost) (T : gset Z) (sp : Z).
Hypothesis Hs : kind !! sp = Some QSem.

(** The running thread becomes the last of those that wait. *)
Lemma wait_last k qs ws : kmid rlist idle fuel kind G T None k qs -> qs !! sp = Some ws ->
  r_current k <> idle -> -2147483648 < s_cnt k sp <= 0 ->
  let k' := snd (chSemWaitS rlist sp k) in
  fst (chSemWaitS rlist sp k) = None /\ waiting k' sp (ws ++ [r_current k]) /\
  s_cnt k' sp = s_cnt k sp - 1.
Proof.
  intros Hk Hq Hi Hb. pose proof Hk as [Hok (Hc & _) Har].
  unfold chSemWaitS. cbv zeta. rewrite (s32_id (s_cnt k sp - 1)) by lia.
  cbn [s_cnt set_cnt]. rewrite upd_eq. replace (s_cnt k sp - 1 <? 0) with true by lia. cbn [fst snd].
  change (r_current (set_cnt sp (s_cnt k sp - 1) k)) with (r_current k).
  change (r_current (set_u (r_current k) sp (set_cnt sp (s_cnt k sp - 1) k))) with (r_current k).
  destruct (wait_queue rlist idle fuel kind G T k qs sp Hk Hi Hs Hb) as (qs' & Hq' & H).
  set (k1 := sem_insert _ _ _) in *.
  destruct (go_sleep_ok rlist idle fuel kind G T k1 qs' CH_STATE_WTSEM H Hc Hi) as (qs2 & H1 & _ & H3 & _);
    [done|done|exact Har|].
  split; [done|]. split.
  - apply (lookup_waiting _ qs2); [apply (ko_linked _ _ _ _ _ _ _ _ (km_ok _ _ _ _ _ _ _ _ H1))|].
    rewrite H3; [by apply Hq'|]. intros E.
    destruct (ko_ready _ _ _ _ _ _ _ _ Hok) as [Hr _]. congruence.
  - transitivity (s_cnt k1 sp); [|cbn; apply upd_eq]. unfold chSchGoSleepS, fifo_remove. by destruct (queue_fifo_remove _ _).
Qed.

(** A thread that finds a unit does not wait. *)
Lemma wait_takes k : 0 < s_cnt k sp < 2147483648 ->
  chSemWaitS rlist sp k = (Some MSG_OK, set_cnt sp (s_cnt k sp - 1) k).
Proof.
  intros Hb. unfold chSemWaitS. cbv zeta. rewrite (s32_id (s_cnt k sp - 1)) by lia.
  cbn [s_cnt set_cnt]. rewrite upd_eq. by replace (s_cnt k sp - 1 <? 0) with false by lia.
Qed.
End SemFifo.

(** C14. A semaphore hands out its units in order of arrival.  The queue [ws] in memory
    is as long as the counter is negative; a thread that waits with no unit left is
    suspended as the last of [ws], and otherwise takes a unit at once; adding [n] units
    (one signal is the case 1) makes exactly the first [n] threads of [ws] ready with
    message MSG_OK, leaves the others waiting in their order, and touches no other
    thread. *)
Theorem sem_fifo rlist idle fuel kind T k sp ws :
  kernel_ok rlist idle fuel kind T k -> kind !! sp = Some QSem -> waiting k sp ws ->
  Z.of_nat (length ws) = Z.max 0 (- s_cnt k sp) /\
  (r_current k <> idle -> -2147483648 < s_cnt k sp <= 0 ->
    let k' := snd (chSemWaitS rlist sp k) in
    fst (chSemWaitS rlist sp k) = None /\ waiting k' sp (ws ++ [r_current k]) /\
    s_cnt k' sp = s_cnt k sp - 1) /\
  (0 < s_cnt k sp -> chSemWaitS rlist sp k = (Some MSG_OK, set_cnt sp (s_cnt k sp - 1) k)) /\
  forall n, 0 <= n -> s_cnt k sp + n <= 2147483647 ->
    exists k', chSemAddCounterI rlist fuel sp n k = Some k' /\
      waiting k' sp (drop (Z.to_nat n) ws) /\ s_cnt k' sp = s_cnt k sp + n /\
      r_current k' = r_current k /\
      (forall w, In w (take (Z.to_nat n) ws) -> p_state k' w = CH_STATE_READY /\ p_u k' w = MSG_OK) /\
      (forall x, ~ In x (take (Z.to_nat n) ws) -> p_state k' x = p_state k x /\ p_u k' x = p_u k x).
Proof.
  intros (G & qs & Hk & _) Hs Hw. pose proof (km_ok _ _ _ _ _ _ _ _ Hk) as Hok.
  destruct (sem_queue rlist idle fuel kind G T None k qs sp Hok Hs) as (l & Hq & Hc).
  assert (l = ws) as ->.
  { by apply (waiting_lookup k qs sp); [apply (ko_linked _ _ _ _ _ _ _ _ Hok)| |]. }
  split; [apply Hc|split; [|split]].
  - intros Hi Hb. by apply (wait_last rlist idle fuel kind G T sp Hs k qs).
  - intros Hp. apply wait_takes. destruct Hc. lia.
  - intros n Hn Hb.
    destruct (add_counter_ok rlist idle fuel kind G T sp Hs (Z.to_nat n) k qs ws Hk Hq ltac:(lia)) as
      (k' & qs' & E & Hk' & (Hr & _) & Hq' & Hc' & H1 & H2).
    exists k'. split; [exact E|split; [|split; [lia|by split]]].
    by apply (lookup_waiting k' qs'); [apply (ko_linked _ _ _ _ _ _ _ _ (km_ok _ _ _ _ _ _ _ _ Hk'))|].
Qed.

(** The state of the witnesses: the main thread 2000 created threads 2100 and 2200 of
    equal priority 64 and went to sleep; both wait, or both are ready. *)
Definition demo (es : list event) : kernel :=
  default blank (run_events 1000 5 es (init_objects [(3000, Semaphore 0); (3100, ThreadQueue)] (sys_init 1000 2000 blank))).

Lemma demo_kernel_ok es T :
  valid_events 1000 2000 5 (kinds 1000 [(3000, Semaphore 0); (3100, ThreadQueue)]) {[2000]}
    (init_objects [(3000, Semaphore 0); (3100, ThreadQueue)] (sys_init 1000 2000 blank)) es ->
  T = fold_left (fun T e => threads_after e T) es {[2000]} ->
  kernel_ok 1000 2000 5 (kinds 1000 [(3000, Semaphore 0); (3100, ThreadQueue)]) T (demo es).
Proof.
  intros Hv ->. set (k0 := init_objects _ _) in *.
  destruct (run_events_ok 1000 2000 5 (kinds 1000 [(3000, Semaphore 0); (3100, ThreadQueue)]) es {[2000]} k0)
    as (k' & E & H); [apply boot_kernel_ok| |].
  - split; [|split; [done|]]; [apply NoDup_ListNoDup; repeat constructor; cbn; lia|].
    intros sp n [[= <- <-]|[[=]|[]]]. lia.
  - done.
  - lia.
  - done.
  - unfold demo. fold k0. by rewrite E.
Qed.

(** Two threads of priorities 64 and 70 are created and wait for semaphore 3000. *)
Lemma two_waiting_valid :
  valid_events 1000 2000 5 (kinds 1000 [(3000, Semaphore 0); (3100, ThreadQueue)]) {[2000]}
    (init_objects [(3000, Semaphore 0); (3100, ThreadQueue)] (sys_init 1000 2000 blank))
    [Call (Create 2100 64); Call (SemWait 3000); Call (Create 2200 70); Call (SemWait 3000)].
Proof.
  apply valid_step; [|apply valid_step; [|apply valid_step; [|apply valid_step; [|done]]]].
  all: try (split; [by vm_compute|split; by vm_compute]).
  all: split; [done|split; [set_solver|split; [by vm_compute|split; [done|]]]]; apply Nat.leb_le; by vm_compute.
Qed.

Lemma sem_fifo_witness :
  let k := demo [Call (Create 2100 64); Call (SemWait 3000); Call (Create 2200 70); Call (SemWait 3000)] in
  Z.of_nat 2 = Z.max 0 (- s_cnt k 3000) /\
  exists k', chSemAddCounterI 1000 5 3000 1 k = Some k' /\ waiting k' 3000 [2200] /\
    p_state k' 2100 = CH_STATE_READY /\ p_state k' 2200 = CH_STATE_WTSEM.
Proof.
  intros k.
  destruct (sem_fifo 1000 2000 5 (kinds 1000 [(3000, Semaphore 0); (3100, ThreadQueue)]) {[2200; 2100; 2000]} k 3000 [2100; 2200])
    as (H1 & _ & _ & H2).
  - apply demo_kernel_ok; [apply two_waiting_valid|]. cbn. set_solver.
  - by vm_compute.
  - split; [by vm_compute|]. apply NoDup_ListNoDup. repeat constructor; cbn; lia.
  - split; [exact H1|]. destruct (H2 1 ltac:(lia) ltac:(by vm_compute)) as (k' & E & Hw & _ & _ & Hr & Ho).
    exists k'. split; [exact E|split; [exact Hw|split]].
    + by apply (Hr 2100); left.
    + destruct (Ho 2200) as [-> _]; [by intros [|[]]|by vm_compute].
Defined.

Lemma ticks_valid rlist idle fuel kind T j : forall k,
  valid_events rlist idle fuel kind T k (repeat (Irq [ITick]) j).
Proof. induction j as [|j IH]; intros k; [done|]. split; [by split|]. intros k' _. apply IH. Qed.

Lemma ticks_threads T j : fold_left (fun T e => threads_after e T) (repeat (Irq [ITick]) j) T = T.
Proof. by induction j. Qed.

(** Where a thread goes in a sorted list: behind its equals. *)
Lemma place_behind k x r tp : by_prio k (x :: r) -> p_prio k x = p_prio k tp ->
  exists l1 l2, r = l1 ++ l2 /\ place (fun y => p_prio k tp <=? p_prio k y) tp r = l1 ++ tp :: l2 /\
    (forall y, In y l1 -> p_prio k y = p_prio k tp) /\
    (forall y, In y l2 -> p_prio k y < p_prio k tp).
Proof.
  intros [Hs Hx]%StronglySorted_inv Ep. rewrite Forall_forall in Hx.
  destruct (place_split (fun y => p_prio k tp <=? p_prio k y) tp r) as (l1 & l2 & -> & E & H1 & H2).
  exists l1, l2. split; [done|split; [exact E|split]].
  - intros y Hy. specialize (H1 y Hy). specialize (Hx y). rewrite in_app_iff in Hx.
    specialize (Hx (or_introl Hy)). lia.
  - assert (Hs2 : by_prio k l2).
    { clear -Hs. induction l1 as [|z l1 IH]; [done|]. apply StronglySorted_inv in Hs as [Hs _]. auto. }
    destruct l2 as [|c l2]; [by intros y []|]. apply StronglySorted_inv in Hs2 as [_ Hc].
    rewrite Forall_forall in Hc. intros y [<-|Hy]; [lia|].
    specialize (Hc y Hy). lia.
Qed.

(** C25. Threads of equal priority share the processor by time slices.  When the first
    ready thread [x] has the priority of the running thread, which has [n] ticks of its
    quantum left, the running thread keeps the processor for the first [n - 1] timer
    interrupts; at the [n]-th, [x] runs, and the thread that ran gets a new quantum and a
    place in the ready list behind all threads of its priority. *)
Theorem round_robin rlist idle fuel kind T k x r n :
  kernel_ok rlist idle fuel kind T k -> waiting k rlist (x :: r) ->
  p_prio k x = p_prio k (r_current k) -> p_preempt k (r_current k) = Z.of_nat n -> (0 < n < 256)%nat ->
  (forall j, (j < n)%nat -> exists k', run_events rlist fuel (repeat (Irq [ITick]) j) k = Some k' /\
     r_current k' = r_current k) /\
  exists k' l1 l2, run_events rlist fuel (repeat (Irq [ITick]) n) k = Some k' /\
    r_current k' = x /\ p_preempt k' (r_current k) = CH_CFG_TIME_QUANTUM /\
    kernel_ok rlist idle fuel kind T k' /\
    waiting k' rlist (l1 ++ r_current k :: l2) /\ r = l1 ++ l2 /\
    (forall y, In y l1 -> p_prio k y = p_prio k (r_current k)) /\
    (forall y, In y l2 -> p_prio k y < p_prio k (r_current k)).
Proof.
  intros Hko Hw Hp Hn Hb. pose proof Hko as (G & qs & Hk & Ht & Hq). pose proof (km_ok _ _ _ _ _ _ _ _ Hk) as Hok.
  destruct (kok_ready_list _ _ _ _ _ _ _ _ Hok) as [l Hl].
  pose proof (waiting_lookup k qs rlist _ l (ko_linked _ _ _ _ _ _ _ _ Hok) Hl Hw) as ->.
  destruct n as [|n]; [lia|].
  destruct (ticks_ok rlist idle fuel kind G T n k qs x r Hk Hq Hl Hp Hn ltac:(lia)) as
    [H1 (k' & qs' & E & Hk' & Hc & Hpr & Hl')].
  destruct (place_behind k x r (r_current k)) as (l1 & l2 & Er & Epl & L1 & L2);
    [by apply (ko_sorted _ _ _ _ _ _ _ _ Hok)|done|].
  split; [intros j Hj; apply H1; lia|]. exists k', l1, l2.
  split; [exact E|split; [exact Hc|split; [exact Hpr|split; [|split; [|by split]]]]].
  - destruct (run_events_ok rlist idle fuel kind _ T k Hko (ticks_valid _ _ _ _ _ (S n) _)) as (k2 & E2 & H).
    rewrite ticks_threads in H. rewrite E in E2. by injection E2 as <-.
  - rewrite <- Epl. by apply (lookup_waiting k' qs'); [apply (ko_linked _ _ _ _ _ _ _ _ (km_ok _ _ _ _ _ _ _ _ Hk'))|].
Qed.

(** Two threads of priority 64 above the main thread. *)
Lemma two_ready_valid :
  valid_events 1000 2000 5 (kinds 1000 [(3000, Semaphore 0); (3100, ThreadQueue)]) {[2000]}
    (init_objects [(3000, Semaphore 0); (3100, ThreadQueue)] (sys_init 1000 2000 blank))
    [Call (Create 2100 64); Call (Create 2200 64); Call Yield].
Proof.
  apply valid_step; [|apply valid_step; [|apply valid_step; [done|done]]].
  all: split; [done|split; [set_solver|split; [by vm_compute|split; [done|]]]]; apply Nat.leb_le; by vm_compute.
Qed.

Lemma round_robin_witness :
  let k := demo [Call (Create 2100 64); Call (Create 2200 64); Call Yield] in
  r_current k = 2200 /\
    exists k' l1 l2, run_events 1000 5 (repeat (Irq [ITick]) 20) k = Some k' /\ r_current k' = 2100 /\
    waiting k' 1000 (l1 ++ 2200 :: l2) /\ [2000] = l1 ++ l2.
Proof.
  intros k. assert (Hc : r_current k = 2200) by (by vm_compute). split; [exact Hc|].
  destruct (round_robin 1000 2000 5 (kinds 1000 [(3000, Semaphore 0); (3100, ThreadQueue)]) {[2200; 2100; 2000]} k 2100 [2000] 20)
    as (_ & k' & l1 & l2 & E & Hr & _ & _ & Hw & El & _).
  - apply demo_kernel_ok; [apply two_ready_valid|]. cbn. set_solver.
  - split; [by vm_compute|]. apply NoDup_ListNoDup. repeat constructor; cbn; lia.
  - by vm_compute.
  - by vm_compute.
  - lia.
  - exists k', l1, l2. rewrite Hc in Hw. exact (conj E (conj Hr (conj Hw El))).
Defined.
