(* ===== verification/Mutex.v ===== *)
(** Mutexes with priority inheritance (os/rt/src/chmtx.c) and waiting for condition
    variables (os/rt/src/chcond.c), on the scheduler of [Sched].

    [mkernel] adds to the kernel the owner of each mutex and the list of the mutexes each
    thread owns.  A function that may block returns [true] when it returns to its caller
    and [false] when the caller went to sleep, in which case the state is the one in which
    another thread runs; a thread woken from a condition variable then locks its mutex
    again, which is an event of its own ([MLock]).

    Proved, for any sequence of locks, unlocks, waits on condition variables and all the
    events of [Kernel]: a mutex has at most one owner, and the lists of owned mutexes
    agree with the owners; and the priority of every thread is exactly the greatest of its
    own and of those of the threads that wait for a mutex it owns, through any chain of
    owners, so that a thread that waits is never held up by one of lower priority.  The
    walk along the chain ends, deadlocks included.  chThdSetPriority may break this; the
    theorem at the end shows how. *)
From stdpp Require Import sorting.
From S2P Require Import Prelude Queues Sched SchedOk Kernel.
Local Open Scope Z_scope.

(** ** State *)

Record mkernel : Type := MKernel {
  kn : kernel;
  m_owner : Z -> Z;
  m_next : Z -> Z;
  p_mtxlist : Z -> Z
}.
Definition set_kn k s := MKernel k (m_owner s) (m_next s) (p_mtxlist s).
Definition set_owner mp tp s := MKernel (kn s) (upd mp tp (m_owner s)) (m_next s) (p_mtxlist s).
Definition set_next mp v s := MKernel (kn s) (m_owner s) (upd mp v (m_next s)) (p_mtxlist s).
Definition set_mtxlist tp v s := MKernel (kn s) (m_owner s) (m_next s) (upd tp v (p_mtxlist s)).

Section Mutex.
(** The ready list, and the fuel of the loops over threads, mutexes and queues. *)
Context (rlist : Z) (fuel : nat).

(** ** chmtx.c *)

Definition chMtxObjectInit (mp : Z) (s : mkernel) : mkernel :=
  let s := set_kn (set_lk (queue_init mp (lk (kn s))) (kn s)) s in
  set_owner mp NULL s.

Definition chMtxQueueNotEmptyS (mp : Z) (s : mkernel) : bool := queue_notempty mp (lk (kn s)).
Definition chMtxGetNextMutexS (s : mkernel) : Z := p_mtxlist s (r_current (kn s)).

(** [queue_prio_insert(queue_dequeue(tp), &tp->p_u.wtmtxp->m_queue)] *)
Definition requeue (tp : Z) (k : kernel) : option kernel :=
  match queue_prio_insert fuel (p_prio k) tp (p_u k tp) (queue_dequeue tp (lk k)) with
  | None => None
  | Some m => Some (set_lk m k)
  end.

(** The threads that [ctp] is going to wait for are given its priority. *)
Fixpoint boost (n : nat) (ctp tp : Z) (s : mkernel) : option mkernel :=
  match n with
  | O => None
  | S n =>
      if p_prio (kn s) tp <? p_prio (kn s) ctp then
        let k := set_prio tp (p_prio (kn s) ctp) (kn s) in
        match p_state k tp with
        | CH_STATE_WTMTX =>
            match requeue tp k with
            | None => None
            | Some k =>
                let s := set_kn k s in
                boost n ctp (m_owner s (p_u (kn s) tp)) s
            end
        | CH_STATE_WTCOND =>
            match requeue tp k with None => None | Some k => Some (set_kn k s) end
        | CH_STATE_READY =>
            match chSchReadyI rlist fuel tp (set_lk (queue_dequeue tp (lk k)) k) with
            | None => None
            | Some k => Some (set_kn k s)
            end
        | _ => Some (set_kn k s)
        end
      else Some s
  end.

Definition chMtxLockS (mp : Z) (s : mkernel) : option (bool * mkernel) :=
  let ctp := r_current (kn s) in
  if negb (m_owner s mp =? NULL) then
    match boost fuel ctp (m_owner s mp) s with
    | None => None
    | Some s =>
        match queue_prio_insert fuel (p_prio (kn s)) ctp mp (lk (kn s)) with
        | None => None
        | Some m =>
            let k := set_u ctp mp (set_lk m (kn s)) in
            Some (false, set_kn (chSchGoSleepS rlist CH_STATE_WTMTX k) s)
        end
    end
  else
    let s := set_owner mp ctp s in
    let s := set_next mp (p_mtxlist s ctp) s in
    Some (true, set_mtxlist ctp mp s).
Definition chMtxLock := chMtxLockS.

Definition chMtxTryLockS (mp : Z) (s : mkernel) : bool * mkernel :=
  if negb (m_owner s mp =? NULL) then (false, s)
  else
    let ctp := r_current (kn s) in
    let s := set_owner mp ctp s in
    let s := set_next mp (p_mtxlist s ctp) s in
    (true, set_mtxlist ctp mp s).
Definition chMtxTryLock := chMtxTryLockS.

(** The greatest priority among [newprio] and the threads waiting for the mutexes of the
    list [lmp]. *)
Fixpoint scan_owned (n : nat) (lmp newprio : Z) (s : mkernel) : option Z :=
  match n with
  | O => None
  | S n =>
      if negb (lmp =? NULL) then
        let first := p_prio (kn s) (p_next (lk (kn s)) lmp) in
        let newprio := if chMtxQueueNotEmptyS lmp s && (newprio <? first) then first else newprio in
        scan_owned n (m_next s lmp) newprio s
      else Some newprio
  end.

(** The mutex is given to the first of the threads that wait for it. *)
Definition give_first (mp : Z) (s : mkernel) : option mkernel :=
  let '(tp, k) := fifo_remove mp (kn s) in
  let s := set_kn k s in
  let s := set_owner mp tp s in
  let s := set_next mp (p_mtxlist s tp) s in
  let s := set_mtxlist tp mp s in
  match chSchReadyI rlist fuel tp (kn s) with None => None | Some k => Some (set_kn k s) end.

Definition chMtxUnlock (mp : Z) (s : mkernel) : option mkernel :=
  let ctp := r_current (kn s) in
  let s := set_mtxlist ctp (m_next s mp) s in
  if chMtxQueueNotEmptyS mp s then
    match scan_owned fuel (p_mtxlist s ctp) (p_realprio (kn s) ctp) s with
    | None => None
    | Some newprio =>
        let s := set_kn (set_prio ctp newprio (kn s)) s in
        match give_first mp s with
        | None => None
        | Some s =>
            match chSchRescheduleS rlist fuel (kn s) with
            | None => None
            | Some k => Some (set_kn k s)
            end
        end
    end
  else Some (set_owner mp NULL s).

Definition chMtxUnlockS (mp : Z) (s : mkernel) : option mkernel :=
  let ctp := r_current (kn s) in
  let s := set_mtxlist ctp (m_next s mp) s in
  if chMtxQueueNotEmptyS mp s then
    match scan_owned fuel (p_mtxlist s ctp) (p_realprio (kn s) ctp) s with
    | None => None
    | Some newprio => give_first mp (set_kn (set_prio ctp newprio (kn s)) s)
    end
  else Some (set_owner mp NULL s).

(** [do ... while (ctp->p_mtxlist != NULL)] *)
Fixpoint unlock_loop (n : nat) (ctp : Z) (s : mkernel) : option mkernel :=
  match n with
  | O => None
  | S n =>
      let mp := p_mtxlist s ctp in
      let s := set_mtxlist ctp (m_next s mp) s in
      match (if chMtxQueueNotEmptyS mp s then give_first mp s else Some (set_owner mp NULL s)) with
      | None => None
      | Some s => if negb (p_mtxlist s ctp =? NULL) then unlock_loop n ctp s else Some s
      end
  end.

Definition chMtxUnlockAll (s : mkernel) : option mkernel :=
  let ctp := r_current (kn s) in
  if negb (p_mtxlist s ctp =? NULL) then
    match unlock_loop fuel ctp s with
    | None => None
    | Some s =>
        let s := set_kn (set_prio ctp (p_realprio (kn s) ctp) (kn s)) s in
        match chSchRescheduleS rlist fuel (kn s) with
        | None => None
        | Some k => Some (set_kn k s)
        end
    end
  else Some s.

(** ** chcond.c *)

Definition chCondObjectInit (cp : Z) (k : kernel) : kernel := set_lk (queue_init cp (lk k)) k.

(** The part of chCondWaitS and chCondWaitTimeoutS up to the sleep; [None] means no
    timeout.  The mutex to lock on waking is returned. *)
Definition cond_sleep (cp : Z) (time : option Z) (s : mkernel) : option (Z * mkernel) :=
  let ctp := r_current (kn s) in
  let mp := chMtxGetNextMutexS s in
  match chMtxUnlockS mp s with
  | None => None
  | Some s =>
      let k := set_u ctp cp (kn s) in
      match queue_prio_insert fuel (p_prio k) ctp cp (lk k) with
      | None => None
      | Some m =>
          let k := set_lk m k in
          let k := match time with
                   | None => chSchGoSleepS rlist CH_STATE_WTCOND k
                   | Some time => chSchGoSleepTimeoutS rlist CH_STATE_WTCOND time k
                   end in
          Some (mp, set_kn k s)
      end
  end.
Definition chCondWaitS (cp : Z) := cond_sleep cp None.
Definition chCondWait := chCondWaitS.
Definition chCondWaitTimeoutS (cp time : Z) := cond_sleep cp (Some time).
Definition chCondWaitTimeout := chCondWaitTimeoutS.

(** When the thread runs again: the mutex is locked, unless the wait timed out. *)
Definition cond_resume (mp : Z) (timeout : bool) (s : mkernel) : option (bool * mkernel) :=
  if timeout && (p_u (kn s) (r_current (kn s)) =? MSG_TIMEOUT) then Some (true, s) else chMtxLockS mp s.
End Mutex.

(** ** Inheritance, as a property of owners, waiters and priorities *)

Section Inherit.
Context (T : gset Z).

(** The priority of [t] is the greatest of its own, [rp t], and of those of the threads
    that wait for a mutex it owns. *)
Definition inherits (own : Z -> Z) (wt : Z -> Z -> Prop) (pr rp : Z -> Z) (t : Z) : Prop :=
  rp t <= pr t /\ (forall m w, own m = t -> wt m w -> pr w <= pr t) /\
  (pr t = rp t \/ exists m w, own m = t /\ wt m w /\ pr w = pr t).

(** While the priority [P] travels along the chain of owners and has reached [tp]. *)
Definition boosting (own : Z -> Z) (wt : Z -> Z -> Prop) (pr rp : Z -> Z) (P tp t : Z) : Prop :=
  rp t <= pr t /\
  (forall m w, own m = t -> wt m w -> pr w <= pr t \/ t = tp /\ pr w <= P) /\
  (pr t = rp t \/ (exists m w, own m = t /\ wt m w /\ pr w = pr t) \/ t = tp /\ pr t < P).

Definition pending (own : Z -> Z) (wt : Z -> Z -> Prop) (pr : Z -> Z) (P tp : Z) : Prop :=
  exists m w, own m = tp /\ wt m w /\ pr w = P.

(** The walk ends at a thread of sufficient priority ... *)
Lemma boost_done own wt pr rp P tp : P <= pr tp ->
  (forall t, t ∈ T -> boosting own wt pr rp P tp t) -> forall t, t ∈ T -> inherits own wt pr rp t.
Proof.
  intros Hp H t Ht. destruct (H t Ht) as (H1 & H2 & H3). split; [done|split].
  - intros m w Hm Hw. destruct (H2 m w Hm Hw) as [?|[-> ?]]; [done|lia].
  - destruct H3 as [?|[?|[-> ?]]]; [by left|by right|lia].
Qed.

(** ... or raises the priority of [tp], and goes on if [tp] waits for a mutex itself. *)
Lemma boost_next own wt pr rp P tp :
  pr tp < P -> pending own wt pr P tp ->
  (forall t, t ∈ T -> boosting own wt pr rp P tp t) ->
  forall tp', (forall m, wt m tp -> own m = tp') ->
  forall t, t ∈ T -> boosting own wt (upd tp P pr) rp P tp' t.
Proof.
  intros Hlt (m0 & w0 & Ho0 & Hw0 & Hp0) H tp' Hnext t Ht.
  destruct (H t Ht) as (H1 & H2 & H3). unfold boosting, upd.
  destruct (Z.eqb_spec t tp) as [->|Hne].
  - split; [lia|split].
    + intros m w Hm Hw. left. destruct (Z.eqb_spec w tp); [lia|].
      destruct (H2 m w Hm Hw) as [?|[_ ?]]; lia.
    + right. left. exists m0, w0. split; [done|split; [done|]].
      destruct (Z.eqb_spec w0 tp) as [->|]; lia.
  - split; [done|split].
    + intros m w Hm Hw. destruct (Z.eqb_spec w tp) as [->|].
      * right. split; [|lia]. rewrite <- Hm. by apply Hnext.
      * left. destruct (H2 m w Hm Hw) as [?|[? _]]; [done|congruence].
    + destruct H3 as [?|[(m & w & Hm & Hw & Hp)|[? _]]]; [by left| |congruence].
      destruct (Z.eqb_spec w tp) as [->|Hwt].
      * right. right. split; [|lia]. rewrite <- Hm. by apply Hnext.
      * right. left. exists m, w. split; [done|split; [done|]].
        destruct (Z.eqb_spec w tp); [congruence|done].
Qed.

(** A new waiter starts the walk. *)
Lemma boost_start own wt pr rp mp ctp : (forall t, t ∈ T -> inherits own wt pr rp t) ->
  let wt' := fun m w => wt m w \/ m = mp /\ w = ctp in
  pending own wt' pr (pr ctp) (own mp) /\
  forall t, t ∈ T -> boosting own wt' pr rp (pr ctp) (own mp) t.
Proof.
  intros H wt'. split; [exists mp, ctp; split; [done|split; [by right|done]]|].
  intros t Ht. destruct (H t Ht) as (H1 & H2 & H3). split; [done|split].
  - intros m w Hm [Hw|[-> ->]]; [left; by apply (H2 m)|right; by split].
  - destruct H3 as [?|(m & w & Hm & Hw & ?)]; [by left|right; left]. exists m, w.
    split; [done|split; [by left|done]].
Qed.

(** The owner [c] of [mp], which waits for nothing, gives it to [x], the first of those
    that wait for it. *)
Lemma give_inherits own wt pr rp mp c x (wt' : Z -> Z -> Prop) :
  (forall t, t ∈ T -> t <> c -> inherits own wt pr rp t) -> own mp = c -> x <> c ->
  (forall m w, m <> mp -> wt' m w <-> wt m w) -> (forall w, wt' mp w -> pr w <= pr x) ->
  forall t, t ∈ T -> t <> c -> inherits (upd mp x own) wt' pr rp t.
Proof.
  intros H Hmp Hxc Hw Hx t Ht Htc. destruct (H t Ht Htc) as (H1 & H2 & H3). split; [done|split].
  - intros m w Hm Hmw. unfold upd in Hm. destruct (Z.eqb_spec m mp) as [->|Hne].
    + subst t. by apply Hx.
    + apply (H2 m); [done|]. by apply Hw.
  - destruct H3 as [?|(m & w & Hm & Hmw & ?)]; [by left|right]. exists m, w.
    assert (Hne : m <> mp) by congruence. unfold upd. rewrite (proj2 (Z.eqb_neq m mp)) by done.
    split; [done|split; [by apply Hw|done]].
Qed.

(** A mutex for which nobody waits changes its owner. *)
Lemma free_inherits own wt pr rp mp v t : (forall w, ~ wt mp w) -> inherits own wt pr rp t ->
  inherits (upd mp v own) wt pr rp t.
Proof.
  intros Hn (H1 & H2 & H3). split; [done|split].
  - intros m w Hm Hmw. unfold upd in Hm. destruct (Z.eqb_spec m mp) as [->|Hne]; [by apply Hn in Hmw|].
    by apply (H2 m).
  - destruct H3 as [?|(m & w & Hm & Hmw & ?)]; [by left|right]. exists m, w.
    assert (Hne : m <> mp) by (intros ->; by apply (Hn w)). unfold upd. by rewrite (proj2 (Z.eqb_neq m mp)) by done.
Qed.

(** The priority of a thread that waits for nothing matters to no other. *)
Lemma prio_inherits own wt pr rp c v : (forall m, ~ wt m c) ->
  (forall t, t ∈ T -> t <> c -> inherits own wt pr rp t) ->
  forall t, t ∈ T -> t <> c -> inherits own wt (upd c v pr) rp t.
Proof.
  intros Hc H t Ht Htc. destruct (H t Ht Htc) as (H1 & H2 & H3). unfold inherits.
  assert (E : forall m w, wt m w -> upd c v pr w = pr w).
  { intros m w Hw. apply upd_ne. intros ->. by apply (Hc m). }
  rewrite upd_ne by done. split; [done|split].
  - intros m w Hm Hw. rewrite (E m w Hw). by apply (H2 m).
  - destruct H3 as [?|(m & w & Hm & Hw & ?)]; [by left|right]. exists m, w.
    by rewrite (E m w Hw).
Qed.
End Inherit.

(** ** The walk along the owners, on the kernel *)

(** [w] waits for the mutex [m]. *)
Definition wt (kind : gmap Z qkind) (G : ghost) (m w : Z) : Prop :=
  kind !! m = Some QMutex /\ exists l, g_mtx G !! m = Some l /\ In w l.

Section Boost.
Context (rlist idle : Z) (fuel : nat) (kind : gmap Z qkind) (T : gset Z).
Notation kok := (kok rlist idle fuel kind).
Notation kmid := (kmid rlist idle fuel kind).

Lemma wt_state G out k qs m w : kok G T out k qs -> wt kind G m w ->
  w ∈ T /\ p_state k w = CH_STATE_WTMTX /\ p_u k w = m.
Proof.
  intros Hk (Hkd & l & Hl & Hin).
  destruct (proj2 (ko_dom _ _ _ _ _ _ _ _ Hk m)) as [l' Hq]; [by eexists|].
  assert (E := ko_mtx _ _ _ _ _ _ _ _ Hk m l' Hkd Hq). rewrite Hl in E. injection E as <-.
  destruct (ko_members _ _ _ _ _ _ _ _ Hk m QMutex l w Hkd Hq Hin) as (H1 & _ & H2 & H3). done.
Qed.

Lemma state_wt G k qs w : kok G T None k qs -> w ∈ T -> p_state k w = CH_STATE_WTMTX ->
  wt kind G (p_u k w) w.
Proof.
  intros Hk Hw Hs. destruct (ko_threads _ _ _ _ _ _ _ _ Hk w Hw ltac:(done)) as [_ Hth].
  rewrite Hs in Hth. destruct Hth as (Hkd & l & Hq & Hin). split; [done|]. exists l.
  split; [by apply (ko_mtx _ _ _ _ _ _ _ _ Hk)|done].
Qed.

(** What one step of the walk does. *)
Definition raised (G : ghost) (k : kernel) (tp P : Z) (k' : kernel) : Prop :=
  exists G' qs', kmid G' T None k' qs' /\ g_prio G' = upd tp P (g_prio G) /\ g_real G' = g_real G /\
    (forall m w, wt kind G' m w <-> wt kind G m w) /\
    r_current k' = r_current k /\ armed k' = armed k /\ p_u k' tp = p_u k tp.

(** A thread in a sorted queue moves to the place of its new priority. *)
Lemma requeue_ok G k qs tp P h kd st l : kmid G T None k qs -> 0 < P ->
  p_state k tp = st -> p_u k tp = h -> kind !! h = Some kd -> qs !! h = Some l -> In tp l ->
  (kd = QMutex /\ st = CH_STATE_WTMTX \/ kd = QCond /\ st = CH_STATE_WTCOND) ->
  exists k', requeue fuel tp (set_prio tp P k) = Some k' /\ raised G k tp P k'.
Proof.
  intros Hk HP Hst Hu Hkd Hq (l1 & l2 & ->)%in_split Hc.
  assert (Hns : kd <> QSem) by (by destruct Hc as [[-> _]|[-> _]]).
  pose proof Hk as [Hok (Hcur & Hcs & _) Har].
  assert (Hin : In tp (l1 ++ tp :: l2)) by (apply in_app_iff; cbn; auto).
  destruct (ko_members _ _ _ _ _ _ _ _ Hok h kd _ tp Hkd Hq Hin) as (Ht & _ & _).
  assert (Hi : tp <> idle).
  { intros ->. destruct (ko_threads _ _ _ _ _ _ _ _ Hok idle Ht ltac:(done)) as [Hi _].
    destruct (Hi eq_refl); destruct Hc as [[_ ?]|[_ ?]]; congruence. }
  set (l0 := l1 ++ l2). set (k1 := set_lk (queue_dequeue tp (lk k)) k).
  set (l' := place (fun x => upd tp P (p_prio k) tp <=? upd tp P (p_prio k) x) tp l0).
  set (G1 := Ghost (<[h := l0]> (g_mtx G)) (g_prio G) (g_real G)).
  set (G' := Ghost (<[h := l']> (g_mtx G)) (upd tp P (g_prio G)) (g_real G)).
  destruct (leave_plain rlist idle fuel kind G G1 T k qs h kd l1 l2 tp Hk Hkd Hq Hns eq_refl eq_refl) as
    ([Hok1 _ _] & _ & Htc);
    [intros _; cbn; by rewrite lookup_insert_eq|intros h2 H2; cbn; by rewrite lookup_insert_ne by auto|].
  assert (Hok2 : kok (ghost_prio tp P G1) T (Some tp) (set_prio tp P k1) (<[h := l0]> qs)).
  { apply set_prio_ok; [exact Hok1|done|done|]. intros h2 kd2 l2' _. apply unqueued_unsorted.
    apply (kok_unqueued _ _ _ _ _ _ _ _ Hok1); [done|by left]. }
  destruct (rest_prio rlist idle fuel kind _ G' T _ _ tp h kd st l0 Hok2 Ht Hi Hkd (lookup_insert_eq _ _ _) Hc)
    as (m & E & Hok3); try done.
  { intros _. cbn. by rewrite lookup_insert_eq. }
  { intros h2 H2. cbn. by rewrite !lookup_insert_ne by auto. }
  exists (set_lk m (set_prio tp P k)). split.
  { assert (E' : queue_prio_insert fuel (p_prio (set_prio tp P k)) tp (p_u (set_prio tp P k) tp)
        (queue_dequeue tp (lk (set_prio tp P k))) = Some m).
    { change (p_u (set_prio tp P k) tp) with (p_u k tp). rewrite Hu. exact E. }
    unfold requeue. by rewrite E'. }
  exists G', (<[h := l']> (<[h := l0]> qs)). split; [|split; [done|split; [done|split; [|done]]]].
  - constructor; [|done|done].
    apply (kok_ext _ _ _ _ _ _ _ _ _ _ Hok3); try (intros; reflexivity); intros y; cbn; unfold upd;
      destruct (Z.eqb_spec y tp); congruence.
  - intros m' w. unfold wt, G'. cbn [g_mtx]. destruct (decide (m' = h)) as [->|Hne];
      [|by rewrite lookup_insert_ne by auto].
    rewrite lookup_insert_eq. split; intros (Hkm & l & Hl & Hw); split; try done.
    + exists (l1 ++ tp :: l2). split; [by apply (ko_mtx _ _ _ _ _ _ _ _ Hok)|]. injection Hl as <-.
      unfold l', l0 in Hw. rewrite place_in, in_app_iff in Hw. rewrite in_app_iff. cbn. intuition.
    + exists l'. split; [done|]. rewrite (ko_mtx _ _ _ _ _ _ _ _ Hok h _ Hkm Hq) in Hl. injection Hl as <-.
      unfold l', l0. rewrite place_in, in_app_iff. rewrite in_app_iff in Hw. cbn in Hw. intuition.
Qed.

(** A ready thread. *)
Lemma raise_ready G k qs tp P : kmid G T None k qs -> tp ∈ T -> 0 < P -> p_state k tp = CH_STATE_READY ->
  exists k', chSchReadyI rlist fuel tp (set_lk (queue_dequeue tp (lk (set_prio tp P k))) (set_prio tp P k)) =
    Some k' /\ raised G k tp P k'.
Proof.
  intros Hk Ht HP Hs. pose proof Hk as [Hok (Hcur & Hcs & _) Har].
  destruct (ko_threads _ _ _ _ _ _ _ _ Hok tp Ht ltac:(done)) as [_ Hth]. rewrite Hs in Hth.
  destruct Hth as (l & Hq & (l1 & l2 & ->)%in_split).
  destruct (leave_plain rlist idle fuel kind G G T k qs rlist QReady l1 l2 tp Hk) as ([Hok1 Hrun1 Har1] & _ & Htc);
    try done; [apply (ko_ready _ _ _ _ _ _ _ _ Hok)|].
  set (k1 := set_lk (queue_dequeue tp (lk k)) k) in *.
  assert (Hk2 : kmid (ghost_prio tp P G) T (Some tp) (set_prio tp P k1) (<[rlist := l1 ++ l2]> qs)).
  { constructor; [|exact Hrun1|exact Har1]. apply set_prio_ok; [exact Hok1|done|done|].
    intros h2 kd2 l2' _. apply unqueued_unsorted. apply (kok_unqueued _ _ _ _ _ _ _ _ Hok1); [done|by left]. }
  destruct (ready_mid rlist idle fuel kind _ T _ _ tp Hk2 Ht) as (m & l & E & _ & Hk3).
  eexists. split; [exact E|]. eexists (ghost_prio tp P G), _. by split; [exact Hk3|].
Qed.

(** Any other thread: it is in no queue or in one that is not sorted. *)
Lemma raise_plain G k qs tp P : kmid G T None k qs -> tp ∈ T -> 0 < P ->
  (p_state k tp <> CH_STATE_READY /\ p_state k tp <> CH_STATE_WTMTX /\ p_state k tp <> CH_STATE_WTCOND) ->
  raised G k tp P (set_prio tp P k).
Proof.
  intros Hk Ht HP (H1 & H2 & H3). pose proof Hk as [Hok Hrun Har].
  exists (ghost_prio tp P G), qs. split; [|done]. constructor; [|exact Hrun|exact Har].
  apply set_prio_ok; [done|done|done|]. intros h kd l Hkd Hq Hin.
  destruct (ko_members _ _ _ _ _ _ _ _ Hok h kd l tp Hkd Hq Hin) as (_ & _ & Hw).
  destruct kd; cbn in Hw; [congruence| | |destruct Hw; congruence|destruct Hw; congruence|]; (split; [|done]);
    intros ->; destruct (ko_ready _ _ _ _ _ _ _ _ Hok); congruence.
Qed.

(** The threads that have not the priority [P] yet. *)
Definition below (P : Z) (G : ghost) : gset Z := filter (fun t => g_prio G t < P) T.

Lemma below_step P G G' tp : tp ∈ T -> g_prio G tp < P -> g_prio G' = upd tp P (g_prio G) ->
  (size (below P G') < size (below P G))%nat.
Proof.
  intros Ht Hlt E. apply subset_size. split.
  - intros x. unfold below. rewrite !elem_of_filter, E. unfold upd. destruct (Z.eqb_spec x tp); [lia|done].
  - intros H. specialize (H tp). unfold below in H. rewrite !elem_of_filter, E, upd_eq in H.
    destruct H; [done|lia].
Qed.

(** The kernel while [ctp] walks along the owners, having reached [tp]. *)
Record walking (mp ctp tp : Z) (G : ghost) (s : mkernel) (qs : gmap Z (list Z)) : Prop := {
  wk_mid : kmid G T None (kn s) qs;
  wk_cur : ctp = r_current (kn s);
  wk_tp : tp ∈ T;
  wk_owner : forall m w, wt kind G m w -> m_owner s m ∈ T;
  wk_pending : pending (m_owner s) (fun m w => wt kind G m w \/ m = mp /\ w = ctp) (g_prio G)
    (g_prio G ctp) tp;
  wk_boost : forall t, t ∈ T -> boosting (m_owner s) (fun m w => wt kind G m w \/ m = mp /\ w = ctp)
    (g_prio G) (g_real G) (g_prio G ctp) tp t
}.

(** What the walk leaves alone. *)
Definition same_owners (s s' : mkernel) : Prop :=
  m_owner s' = m_owner s /\ m_next s' = m_next s /\ p_mtxlist s' = p_mtxlist s.

(** The walk is complete: priorities are inherited as if [ctp] waited for [mp]. *)
Definition walked (mp ctp : Z) (G : ghost) (s s' : mkernel) : Prop :=
  exists G' qs', kmid G' T None (kn s') qs' /\ same_owners s s' /\
    (forall m w, wt kind G' m w <-> wt kind G m w) /\ g_real G' = g_real G /\
    r_current (kn s') = ctp /\ armed (kn s') = armed (kn s) /\
    forall t, t ∈ T -> inherits (m_owner s') (fun m w => wt kind G' m w \/ m = mp /\ w = ctp)
      (g_prio G') (g_real G') t.

Lemma inherits_ext own wt1 wt2 pr rp t : (forall m w, wt1 m w <-> wt2 m w) ->
  inherits own wt1 pr rp t -> inherits own wt2 pr rp t.
Proof.
  intros H (H1 & H2 & H3). split; [done|split].
  - intros m w Hm Hw. apply (H2 m); [done|by apply H].
  - destruct H3 as [?|(m & w & ? & ? & ?)]; [by left|right]. exists m, w. by rewrite <- H.
Qed.

Lemma boosting_ext own wt1 wt2 pr rp P tp t : (forall m w, wt1 m w <-> wt2 m w) ->
  boosting own wt1 pr rp P tp t -> boosting own wt2 pr rp P tp t.
Proof.
  intros H (H1 & H2 & H3). split; [done|split].
  - intros m w Hm Hw. apply (H2 m); [done|by apply H].
  - destruct H3 as [?|[(m & w & ? & ? & ?)|?]]; [by left| |by right; right].
    right. left. exists m, w. by rewrite <- H.
Qed.

Lemma walk_raise mp ctp tp G s qs k' : walking mp ctp tp G s qs -> g_prio G tp < g_prio G ctp ->
  raised G (kn s) tp (g_prio G ctp) k' ->
  exists G' qs', kmid G' T None k' qs' /\ g_real G' = g_real G /\ g_prio G' ctp = g_prio G ctp /\
    g_prio G' = upd tp (g_prio G ctp) (g_prio G) /\ (forall m w, wt kind G' m w <-> wt kind G m w) /\
    r_current k' = ctp /\ armed k' = armed (kn s) /\ p_u k' tp = p_u (kn s) tp /\
    forall tp', (forall m, wt kind G m tp -> m_owner s m = tp') -> forall t, t ∈ T ->
      boosting (m_owner s) (fun m w => wt kind G' m w \/ m = mp /\ w = ctp) (g_prio G') (g_real G')
        (g_prio G ctp) tp' t.
Proof.
  intros [Hk Hc Ht Hown Hpend Hb] Hlt (G' & qs' & Hk' & Ep & Er & Ew & Erc & Ear & Epu).
  assert (Hne : ctp <> tp) by (intros ->; lia).
  exists G', qs'. split; [done|split; [done|split; [by rewrite Ep, upd_ne|]]].
  split; [done|split; [done|split; [by rewrite Erc|split; [done|split; [done|]]]]].
  intros tp' Htp' t HtT. rewrite Ep, Er.
  apply (boosting_ext _ (fun m w => wt kind G m w \/ m = mp /\ w = ctp));
    [intros m w; by rewrite Ew|].
  apply (boost_next T _ _ _ _ _ tp Hlt Hpend Hb tp'); [|done].
  intros m [Hm|[_ ?]]; [by apply Htp'|congruence].
Qed.

(** The last step of the walk. *)
Lemma walk_last mp ctp tp G s qs k' : walking mp ctp tp G s qs -> g_prio G tp < g_prio G ctp ->
  p_state (kn s) tp <> CH_STATE_WTMTX -> raised G (kn s) tp (g_prio G ctp) k' ->
  walked mp ctp G s (set_kn k' s).
Proof.
  intros Hw Hlt Hst Hr. destruct (walk_raise mp ctp tp G s qs k' Hw Hlt Hr) as
    (G' & qs' & Hk' & Er & Ec & Ep & Ew & Erc & Ear & Epu & Hb).
  exists G', qs'. split; [done|split; [done|split; [done|split; [done|split; [done|split; [done|]]]]]].
  apply (boost_done T _ _ _ _ (g_prio G ctp) tp); [by rewrite Ep, upd_eq|]. apply (Hb tp).
  intros m Hm. destruct (wt_state G _ _ _ _ _ (km_ok _ _ _ _ _ _ _ _ (wk_mid _ _ _ _ _ _ Hw)) Hm) as (_ & ? & _).
  done.
Qed.

(** A step to the owner of the mutex that [tp] waits for. *)
Lemma walk_on mp ctp tp G s qs k' : walking mp ctp tp G s qs -> g_prio G tp < g_prio G ctp ->
  p_state (kn s) tp = CH_STATE_WTMTX -> raised G (kn s) tp (g_prio G ctp) k' ->
  exists G' qs', walking mp ctp (m_owner s (p_u k' tp)) G' (set_kn k' s) qs' /\
    (size (below (g_prio G ctp) G') < size (below (g_prio G ctp) G))%nat /\
    g_prio G' ctp = g_prio G ctp /\ g_real G' = g_real G /\ armed k' = armed (kn s) /\
    (forall m w, wt kind G' m w <-> wt kind G m w).
Proof.
  intros Hw Hlt Hst Hr. destruct (walk_raise mp ctp tp G s qs k' Hw Hlt Hr) as
    (G' & qs' & Hk' & Er & Ec & Ep & Ew & Erc & Ear & Epu & Hb).
  pose proof (km_ok _ _ _ _ _ _ _ _ (wk_mid _ _ _ _ _ _ Hw)) as Hok.
  assert (Hwt : wt kind G (p_u k' tp) tp).
  { rewrite Epu. apply (state_wt G (kn s) qs); [done|apply (wk_tp _ _ _ _ _ _ Hw)|done]. }
  exists G', qs'. split; [|split; [by apply (below_step _ _ _ tp); [apply (wk_tp _ _ _ _ _ _ Hw)|..]|done]].
  constructor; [done|done| | | |].
  - by apply (wk_owner _ _ _ _ _ _ Hw _ tp).
  - intros m w Hm. apply Ew in Hm. by apply (wk_owner _ _ _ _ _ _ Hw m w).
  - exists (p_u k' tp), tp. split; [done|split; [left; by apply Ew|]]. by rewrite Ec, Ep, upd_eq.
  - rewrite Ec. apply Hb. intros m Hm. destruct (wt_state G _ _ _ _ _ Hok Hm) as (_ & _ & <-).
    cbn. by rewrite Epu.
Qed.

(** The walk ends, whatever the owners are, and leaves the priorities inherited. *)
Lemma boost_ok mp ctp : forall n G s qs tp, walking mp ctp tp G s qs ->
  (size (below (g_prio G ctp) G) < n)%nat ->
  exists s', boost rlist fuel n ctp tp s = Some s' /\ walked mp ctp G s s'.
Proof.
  induction n as [|n IH]; intros G s qs tp Hw Hn; [lia|]. cbn [boost].
  pose proof Hw as [Hk Hc Ht _ _ Hb]. pose proof (km_ok _ _ _ _ _ _ _ _ Hk) as Hok.
  assert (HcT : ctp ∈ T) by (rewrite Hc; apply (km_run _ _ _ _ _ _ _ _ Hk)).
  destruct (ko_prios _ _ _ _ _ _ _ _ Hok tp Ht) as [Ep _].
  destruct (ko_prios _ _ _ _ _ _ _ _ Hok ctp HcT) as [Ec _].
  assert (HP : 0 < g_prio G ctp) by (rewrite <- Ec; by apply (ko_prio _ _ _ _ _ _ _ _ Hok)).
  rewrite Ep, Ec. destruct (Z.ltb_spec (g_prio G tp) (g_prio G ctp)) as [Hlt|Hge].
  2: { exists s. split; [done|]. exists G, qs. split; [done|split; [done|split; [done|]]].
       split; [done|split; [done|split; [done|]]]. by apply (boost_done T _ _ _ _ (g_prio G ctp) tp). }
  cbn [p_state set_prio].
  assert (Hplain : p_state (kn s) tp <> CH_STATE_READY -> p_state (kn s) tp <> CH_STATE_WTMTX ->
    p_state (kn s) tp <> CH_STATE_WTCOND ->
    walked mp ctp G s (set_kn (set_prio tp (g_prio G ctp) (kn s)) s)).
  { intros H1 H2 H3. apply (walk_last mp ctp tp G s qs); [done|done|done|]. by apply (raise_plain G _ qs). }
  pose proof (ko_threads _ _ _ _ _ _ _ _ Hok tp Ht ltac:(done)) as [_ Hth].
  destruct (p_state (kn s) tp) eqn:Est; try (eexists; split; [reflexivity|by apply Hplain]).
  - destruct (raise_ready G (kn s) qs tp _ Hk Ht HP Est) as (k' & E & Hr). rewrite E.
    eexists. split; [done|]. apply (walk_last mp ctp tp G s qs); [done|done|congruence|done].
  - destruct Hth as (Hkd & l & Hq & Hin).
    destruct (requeue_ok G (kn s) qs tp _ _ QMutex _ l Hk HP Est eq_refl Hkd Hq Hin) as (k' & E & Hr); [by left|].
    rewrite E. cbn [kn set_kn m_owner].
    destruct (walk_on mp ctp tp G s qs k' Hw Hlt Est Hr) as (G1 & qs1 & Hw1 & Hm1 & Ec1 & Er1 & Ear1 & Ew1).
    destruct (IH G1 (set_kn k' s) qs1 (m_owner s (p_u k' tp)) Hw1) as (s' & -> & G' & qs' & Hk' & Ho' & Hwt' & Hr' & Hc' & Ha' & Hi');
      [rewrite Ec1; lia|].
    exists s'. split; [done|]. exists G', qs'. split; [done|split; [done|]].
    split; [intros m w; by rewrite Hwt', Ew1|]. split; [congruence|split; [done|split; [|done]]].
    rewrite Ha'. exact Ear1.
  - destruct Hth as (Hkd & l & Hq & Hin).
    destruct (requeue_ok G (kn s) qs tp _ _ QCond _ l Hk HP Est eq_refl Hkd Hq Hin) as (k' & E & Hr); [by right|].
    rewrite E. eexists. split; [done|]. apply (walk_last mp ctp tp G s qs); [done|done|congruence|done].
Qed.
End Boost.

(** ** The invariant *)

(** The list of owned mutexes that starts at [a]. *)
Fixpoint chain (next : Z -> Z) (a : Z) (l : list Z) : Prop :=
  match l with
  | [] => a = NULL
  | m :: r => a = m /\ m <> NULL /\ chain next (next m) r
  end.

Lemma chain_ext next next' l : forall a, (forall x, In x l -> next' x = next x) ->
  chain next a l -> chain next' a l.
Proof.
  induction l as [|x l IH]; intros a H; cbn; [done|]. intros (-> & Hn & Hc). split; [done|split; [done|]].
  rewrite (H x) by (by left). apply IH; [|done]. intros y Hy. apply H. by right.
Qed.

Section Invariant.
Context (rlist idle : Z) (fuel : nat) (kind : gmap Z qkind).
Hypothesis Hnull : kind !! NULL <> Some QMutex.
Hypothesis Hsize : (size kind < fuel)%nat.
Notation kok := (kok rlist idle fuel kind).
Notation kmid := (kmid rlist idle fuel kind).
Notation top := (top rlist).
Notation wt := (wt kind).

(** [exc] is a thread whose priority is being changed. *)
Record mok_but (exc : option Z) (G : ghost) (T : gset Z) (s : mkernel) (qs : gmap Z (list Z)) (owned : Z -> list Z) : Prop := {
  mo_mid : kmid G T None (kn s) qs;
  mo_chain : forall t, t ∈ T -> chain (m_next s) (p_mtxlist s t) (owned t);
  mo_owned : forall t m, t ∈ T -> In m (owned t) <-> kind !! m = Some QMutex /\ m_owner s m = t;
  mo_nodup : forall t, t ∈ T -> NoDup (owned t);
  mo_owner : forall m, kind !! m = Some QMutex -> m_owner s m = NULL \/ m_owner s m ∈ T;
  mo_free : forall m w, wt G m w -> m_owner s m <> NULL;
  mo_real : forall t, t ∈ T -> 0 < g_real G t;
  mo_inherits : forall t, t ∈ T -> exc <> Some t -> inherits (m_owner s) (wt G) (g_prio G) (g_real G) t
}.
Arguments mo_mid {exc}.
Arguments mo_chain {exc}.
Arguments mo_owned {exc}.
Arguments mo_nodup {exc}.
Arguments mo_owner {exc}.
Arguments mo_free {exc}.
Arguments mo_real {exc}.
Arguments mo_inherits {exc}.
Notation mok := (mok_but None).

Definition mcall_ok (T : gset Z) (r : option mkernel) : Prop :=
  exists s' G' qs' owned', r = Some s' /\ mok G' T s' qs' owned' /\ top (kn s') qs'.

Section Facts.
Context (exc : option Z) (G : ghost) (T : gset Z) (s : mkernel) (qs : gmap Z (list Z)) (owned : Z -> list Z).
Hypothesis (Hs : mok_but exc G T s qs owned).

Lemma mok_kok : kok G T None (kn s) qs.
Proof using Hs. apply (km_ok _ _ _ _ _ _ _ _ (mo_mid _ _ _ _ _ Hs)). Qed.

Lemma mok_cur : r_current (kn s) ∈ T.
Proof using Hs. apply (km_run _ _ _ _ _ _ _ _ (mo_mid _ _ _ _ _ Hs)). Qed.

Lemma mok_not_null t : t ∈ T -> t <> NULL.
Proof using Hs. intros Ht. by apply (ko_apart _ _ _ _ _ _ _ _ mok_kok). Qed.

Lemma mutex_queue mp : kind !! mp = Some QMutex -> exists l, qs !! mp = Some l.
Proof using Hs.
  intros Hm. destruct (proj2 (ko_dom _ _ _ _ _ _ _ _ mok_kok mp)) as [l Hl]; [by eexists|]. by exists l.
Qed.

Lemma wt_queue mp l w : kind !! mp = Some QMutex -> qs !! mp = Some l -> wt G mp w <-> In w l.
Proof using Hs.
  intros Hm Hq. assert (E := ko_mtx _ _ _ _ _ _ _ _ mok_kok mp l Hm Hq). split.
  - intros (_ & l' & Hl & Hin). congruence.
  - intros Hin. split; [done|]. by exists l.
Qed.

(** The running thread waits for no mutex. *)
Lemma cur_not_waiting m : ~ wt G m (r_current (kn s)).
Proof using Hs.
  intros H. destruct (wt_state rlist idle fuel kind T G None (kn s) qs m _ mok_kok H) as (_ & Hst & _).
  destruct (km_run _ _ _ _ _ _ _ _ (mo_mid _ _ _ _ _ Hs)) as (_ & Hc & _). congruence.
Qed.

Lemma owned_length t : t ∈ T -> (length (owned t) < fuel)%nat.
Proof using Hs Hsize.
  intros Ht. pose proof (mo_nodup _ _ _ _ _ Hs t Ht) as Hnd.
  assert (Hle : (size (list_to_set (owned t) : gset Z) <= size (dom kind))%nat).
  { apply subseteq_size. intros x Hx. apply elem_of_list_to_set, list_elem_of_In in Hx.
    apply (mo_owned _ _ _ _ _ Hs t x Ht) in Hx as [Hx _]. apply elem_of_dom. by eexists. }
  rewrite size_list_to_set in Hle by done. rewrite size_dom in Hle. lia.
Qed.

(** A free mutex is taken by the running thread. *)
Lemma take_mutex mp : kind !! mp = Some QMutex -> m_owner s mp = NULL ->
  let cur := r_current (kn s) in
  mok_but exc G T (set_mtxlist cur mp (set_next mp (p_mtxlist s cur) (set_owner mp cur s))) qs
    (upd cur (mp :: owned cur) owned).
Proof using Hs Hnull.
  intros Hm Hfree cur. assert (Hc : cur ∈ T) by exact mok_cur.
  assert (Hnot : forall t, t ∈ T -> ~ In mp (owned t)).
  { intros t Ht Hin. apply (mo_owned _ _ _ _ _ Hs t mp Ht) in Hin as [_ E]. rewrite Hfree in E.
    by apply (mok_not_null t). }
  assert (Hchain : forall t, t ∈ T -> chain (upd mp (p_mtxlist s cur) (m_next s)) (p_mtxlist s t) (owned t)).
  { intros t Ht. apply (chain_ext (m_next s)); [|by apply (mo_chain _ _ _ _ _ Hs)].
    intros x Hx. apply upd_ne. intros ->. by apply (Hnot t). }
  constructor; cbn [kn m_owner m_next p_mtxlist set_mtxlist set_next set_owner].
  - apply (mo_mid _ _ _ _ _ Hs).
  - intros t Ht. unfold upd at 2 3. destruct (Z.eqb_spec t cur) as [->|]; [|by apply Hchain].
    cbn [chain]. split; [done|split; [by intros ->|]]. rewrite upd_eq. by apply Hchain.
  - intros t m Ht. unfold upd. destruct (Z.eqb_spec t cur) as [->|Htc]; cbn [In];
      destruct (Z.eqb_spec m mp) as [->|Hne].
    + split; [done|]. intros _. by left.
    + rewrite (mo_owned _ _ _ _ _ Hs cur m Ht). split; [|by right]. by intros [->|?].
    + split; [by intros ?%(Hnot t)|]. intros [_ ?]. congruence.
    + apply (mo_owned _ _ _ _ _ Hs t m Ht).
  - intros t Ht. unfold upd. destruct (Z.eqb_spec t cur) as [->|]; [|by apply (mo_nodup _ _ _ _ _ Hs)].
    constructor; [rewrite list_elem_of_In; by apply Hnot|by apply (mo_nodup _ _ _ _ _ Hs)].
  - intros m Hkm. unfold upd. destruct (m =? mp); [by right|by apply (mo_owner _ _ _ _ _ Hs)].
  - intros m w Hw. unfold upd. destruct (m =? mp); [by apply mok_not_null|by apply (mo_free _ _ _ _ _ Hs m w)].
  - apply (mo_real _ _ _ _ _ Hs).
  - intros t Ht He. apply free_inherits; [|by apply (mo_inherits _ _ _ _ _ Hs)].
    intros w Hw. by apply (mo_free _ _ _ _ _ Hs) in Hw.
Qed.
End Facts.

(** The running thread goes to sleep in the queue of the mutex. *)
Lemma mutex_sleep G T s qs mp : kmid G T None (kn s) qs -> kind !! mp = Some QMutex ->
  r_current (kn s) <> idle -> quiet (kn s) ->
  let ctp := r_current (kn s) in
  exists m G' qs', queue_prio_insert fuel (p_prio (kn s)) ctp mp (lk (kn s)) = Some m /\
    let k' := chSchGoSleepS rlist CH_STATE_WTMTX (set_u ctp mp (set_lk m (kn s))) in
    kmid G' T None k' qs' /\ top k' qs' /\ g_prio G' = g_prio G /\ g_real G' = g_real G /\
    forall m' w, wt G' m' w <-> wt G m' w \/ m' = mp /\ w = ctp.
Proof.
  intros Hk Hm Hi Hq ctp. destruct (kmid_current rlist idle fuel kind G T (kn s) qs Hk) as [Ho _].
  pose proof Hk as [Hok (Hc & Hcs & _) Har].
  destruct (proj2 (ko_dom _ _ _ _ _ _ _ _ Hok mp)) as [l Hl]; [by eexists|].
  assert (Hgl := ko_mtx _ _ _ _ _ _ _ _ Hok mp l Hm Hl).
  set (l' := place (fun x => p_prio (kn s) ctp <=? p_prio (kn s) x) ctp l).
  set (G' := Ghost (<[mp := l']> (g_mtx G)) (g_prio G) (g_real G)).
  destruct (rest_prio rlist idle fuel kind G G' T (kn s) qs ctp mp QMutex CH_STATE_WTMTX l Ho Hc Hi Hm Hl)
    as (m & E & Hok'); [by left|done|done| | |].
  { intros _. cbn. by rewrite lookup_insert_eq. }
  { intros h2 H2. cbn. by rewrite lookup_insert_ne by auto. }
  destruct (go_sleep_gen rlist idle fuel kind G' T (set_u ctp mp (set_lk m (kn s))) (<[mp := l']> qs)
    CH_STATE_WTMTX Hok' Hc Hi) as (qs' & Hk' & Ht' & _); [done|done| |].
  { intros x Hx. destruct (Har x Hx) as [H1 H2]. split; [done|right]. destruct H2 as [->|H2].
    - unfold quiet in Hq. cbn in Hx. congruence.
    - split; [|done]. intros ->. cbn in H2. by rewrite Hcs in H2. }
  exists m, G', qs'. split; [done|]. cbv zeta. split; [done|split; [done|split; [done|split; [done|]]]].
  intros m' w. unfold Mutex.wt, G'. cbn [g_mtx]. destruct (decide (m' = mp)) as [->|Hne].
  - rewrite lookup_insert_eq. split.
    + intros (_ & l0 & [= <-] & Hin). unfold l' in Hin. apply place_in in Hin as [->|Hin]; [by right|left].
      split; [done|]. by exists l.
    + intros H. split; [done|]. exists l'. split; [done|]. unfold l'. apply place_in.
      destruct H as [(_ & l0 & Hl0 & Hin)|[_ ->]]; [right; congruence|by left].
  - rewrite lookup_insert_ne by auto. split; [by left|]. by intros [?|[? _]].
Qed.

(** Owners are unchanged. *)
Lemma mok_owners exc exc' G G' T s s' qs qs' owned : mok_but exc G T s qs owned -> kmid G' T None (kn s') qs' ->
  same_owners s s' -> (forall m w, wt G' m w -> m_owner s m <> NULL) ->
  (forall t, t ∈ T -> 0 < g_real G' t) ->
  (forall t, t ∈ T -> exc' <> Some t -> inherits (m_owner s) (wt G') (g_prio G') (g_real G') t) ->
  mok_but exc' G' T s' qs' owned.
Proof.
  intros Hs Hk (E1 & E2 & E3) Hf Hi. constructor; rewrite ?E1, ?E2, ?E3; try done; apply Hs.
Qed.

Lemma lock_ok G T s qs owned mp : mok G T s qs owned -> top (kn s) qs -> quiet (kn s) ->
  kind !! mp = Some QMutex -> (m_owner s mp <> NULL -> r_current (kn s) <> idle) ->
  exists b s', chMtxLockS rlist fuel mp s = Some (b, s') /\ mcall_ok T (Some s').
Proof.
  intros Hs Ht Hq Hm Hi. unfold chMtxLockS. cbv zeta.
  destruct (Z.eqb_spec (m_owner s mp) NULL) as [Hfree|Hown]; cbn [negb].
  { eexists _, _. split; [done|]. eexists _, G, qs, _. split; [done|]. split; [|exact Ht].
    by apply (take_mutex None G T s qs owned Hs mp). }
  specialize (Hi Hown). set (ctp := r_current (kn s)).
  assert (HoT : m_owner s mp ∈ T) by (destruct (mo_owner _ _ _ _ _ Hs mp Hm); done).
  destruct (boost_start T (m_owner s) (wt G) (g_prio G) (g_real G) mp ctp) as [Hp Hb];
    [intros t Ht'; by apply (mo_inherits _ _ _ _ _ Hs)|].
  assert (Hfu : (size (below T (g_prio G ctp) G) < fuel)%nat).
  { pose proof (ko_fuel _ _ _ _ _ _ _ _ (mok_kok _ _ _ _ _ _ Hs)) as Hf.
    assert (size (below T (g_prio G ctp) G) <= size T)%nat; [|lia]. apply subseteq_size.
    intros x. unfold below. rewrite elem_of_filter. tauto. }
  destruct (boost_ok rlist idle fuel kind T mp ctp fuel G s qs (m_owner s mp)) as
    (s1 & -> & G1 & qs1 & Hk1 & Ho1 & Hw1 & Hr1 & Hc1 & Ha1 & Hi1); [|done|].
  { constructor; [apply (mo_mid _ _ _ _ _ Hs)|done|done| |done|done].
    intros m w Hw. destruct (mo_owner _ _ _ _ _ Hs m) as [E|?]; [apply Hw| |done].
    by apply (mo_free _ _ _ _ _ Hs) in Hw. }
  destruct (mutex_sleep G1 T s1 qs1 mp Hk1 Hm) as (m & G2 & qs2 & E & Hk2 & Ht2 & Ep & Er & Hw2);
    [by rewrite Hc1|unfold quiet in *; by rewrite Hc1, Ha1|].
  rewrite Hc1 in E. rewrite E. eexists _, _. split; [done|].
  rewrite Hc1 in Hk2, Ht2. eexists _, G2, qs2, owned. split; [done|]. split; [|exact Ht2].
  destruct Ho1 as (O1 & O2 & O3).
  apply (mok_owners None None G G2 T s (set_kn _ s1) qs qs2 owned Hs Hk2).
  - by split; [|split].
  - intros m' w Hw. apply Hw2 in Hw as [Hw|[-> _]]; [|done]. apply Hw1 in Hw.
    by apply (mo_free _ _ _ _ _ Hs m' w).
  - intros t HtT. rewrite Er, Hr1. by apply (mo_real _ _ _ _ _ Hs).
  - intros t HtT _. rewrite Ep, Er. rewrite <- O1.
    apply (inherits_ext _ (fun m w => wt G1 m w \/ m = mp /\ w = ctp)); [|by apply Hi1].
    intros m' w. rewrite Hw2, Hc1. done.
Qed.

Lemma tryLock_ok G T s qs owned mp : mok G T s qs owned -> top (kn s) qs -> kind !! mp = Some QMutex ->
  mcall_ok T (Some (snd (chMtxTryLockS mp s))).
Proof.
  intros Hs Ht Hm. unfold chMtxTryLockS.
  destruct (Z.eqb_spec (m_owner s mp) NULL) as [Hfree|Hown]; cbn [negb snd].
  - eexists _, G, qs, _. split; [done|]. split; [|exact Ht]. by apply (take_mutex None G T s qs owned Hs mp).
  - by exists s, G, qs, owned.
Qed.

(** ** Unlocking *)

(** One mutex of the scan: [np] or the priority of its first waiter. *)
Lemma scan_one G T s qs m np : kmid G T None (kn s) qs -> kind !! m = Some QMutex ->
  let first := p_prio (kn s) (p_next (lk (kn s)) m) in
  let np1 := if chMtxQueueNotEmptyS m s && (np <? first) then first else np in
  np <= np1 /\ (forall w, wt G m w -> g_prio G w <= np1) /\
  (np1 = np \/ exists w, wt G m w /\ g_prio G w = np1).
Proof.
  intros Hk Hkm first np1. pose proof (km_ok _ _ _ _ _ _ _ _ Hk) as Hok.
  destruct (proj2 (ko_dom _ _ _ _ _ _ _ _ Hok m)) as [q Hq]; [by eexists|].
  assert (Hg := ko_mtx _ _ _ _ _ _ _ _ Hok m q Hkm Hq).
  assert (Hpw : forall w, wt G m w -> In w q /\ g_prio G w = p_prio (kn s) w).
  { intros w (_ & q' & Hq' & Hin). rewrite Hg in Hq'. injection Hq' as <-. split; [done|].
    destruct (ko_members _ _ _ _ _ _ _ _ Hok m _ q w Hkm Hq Hin) as (HwT & _).
    by destruct (ko_prios _ _ _ _ _ _ _ _ Hok w HwT). }
  unfold np1, first, chMtxQueueNotEmptyS.
  rewrite (queue_notempty_spec (lk (kn s)) qs m q) by (done || apply Hok).
  destruct (seg_ends _ _ _ _ (li_seg _ _ (ko_linked _ _ _ _ _ _ _ _ Hok) m q Hq)) as [Hf _]. rewrite Hf.
  destruct q as [|x q]; cbn [headh andb].
  { split; [lia|split; [|by left]]. by intros w [[] _]%Hpw. }
  pose proof (ko_sorted_by _ _ _ _ _ _ _ _ Hok m _ _ Hkm eq_refl Hq) as Hso.
  apply StronglySorted_inv in Hso as [_ Hso]. rewrite List.Forall_forall in Hso.
  assert (Hall : forall w, wt G m w -> g_prio G w <= p_prio (kn s) x).
  { intros w [[<-|Hw] ->]%Hpw; [lia|by apply Hso]. }
  destruct (Z.ltb_spec np (p_prio (kn s) x)).
  - split; [lia|split; [done|right]]. exists x.
    assert (Hx : wt G m x) by (split; [done|]; eexists; split; [done|by left]).
    split; [done|by apply Hpw].
  - split; [lia|split; [|by left]]. intros w Hw. specialize (Hall w Hw). lia.
Qed.

(** The new priority of a thread that gives up a mutex. *)
Lemma scan_owned_ok G T s qs : kmid G T None (kn s) qs -> forall l a n np,
  chain (m_next s) a l -> (forall m, In m l -> kind !! m = Some QMutex) -> (length l < n)%nat ->
  exists np', scan_owned n a np s = Some np' /\ np <= np' /\
    (forall m w, In m l -> wt G m w -> g_prio G w <= np') /\
    (np' = np \/ exists m w, In m l /\ wt G m w /\ g_prio G w = np').
Proof.
  intros Hk. induction l as [|m l IH]; intros a n np Hc Hm Hn; destruct n as [|n]; try (cbn in Hn; lia);
    cbn [scan_owned chain] in *.
  { subst a. exists np. split; [done|split; [lia|split; [by intros m w []|by left]]]. }
  destruct Hc as (-> & Hmn & Hc). rewrite (proj2 (Z.eqb_neq m NULL)) by done. cbn [negb].
  destruct (scan_one G T s qs m np Hk) as (H1 & H2 & H3); [apply Hm; by left|].
  set (np1 := if chMtxQueueNotEmptyS m s && _ then _ else _) in *.
  destruct (IH (m_next s m) n np1 Hc) as (np' & E & I1 & I2 & I3);
    [intros; apply Hm; by right|cbn in Hn; lia|].
  exists np'. split; [exact E|split; [lia|split]].
  - intros m' w [<-|Hin] Hw; [specialize (H2 w Hw); lia|by apply (I2 m')].
  - destruct I3 as [->|(m' & w & Hin & Hw & Ep)]; [|right; exists m', w; split; [by right|done]].
    destruct H3 as [->|(w & Hw & Ep)]; [by left|]. right. exists m, w. split; [by left|done].
Qed.

(** The kernel part of giving the mutex to the first that waits. *)
Lemma give_kernel G T s qs mp x r : kmid G T None (kn s) qs -> kind !! mp = Some QMutex ->
  qs !! mp = Some (x :: r) ->
  exists k' G' qs', give_first rlist fuel mp s =
      Some (MKernel k' (upd mp x (m_owner s)) (upd mp (p_mtxlist s x) (m_next s)) (upd x mp (p_mtxlist s))) /\
    kmid G' T None k' qs' /\ g_prio G' = g_prio G /\ g_real G' = g_real G /\
    (forall m w, m <> mp -> wt G' m w <-> wt G m w) /\ (forall w, wt G' mp w -> g_prio G w <= g_prio G x) /\
    (forall m w, wt G' m w -> wt G m w) /\
    x ∈ T /\ r_current k' = r_current (kn s) /\ p_realprio k' = p_realprio (kn s) /\
    p_state k' x = CH_STATE_READY /\ g_mtx G' !! mp = Some r.
Proof.
  intros Hk Hm Hq. pose proof (km_ok _ _ _ _ _ _ _ _ Hk) as Hok.
  set (G' := Ghost (<[mp := r]> (g_mtx G)) (g_prio G) (g_real G)).
  assert (Hg := ko_mtx _ _ _ _ _ _ _ _ Hok mp _ Hm Hq).
  destruct (leave_plain rlist idle fuel kind G G' T (kn s) qs mp QMutex [] r x Hk Hm Hq) as (Hk1 & Hx & _);
    [done|done|done|intros _; cbn; by rewrite lookup_insert_eq|intros h2 H2; cbn; by rewrite lookup_insert_ne by auto|].
  destruct (ready_mid rlist idle fuel kind G' T _ _ x Hk1 Hx) as (m & l & E & _ & Hk2).
  eexists _, G', _. split.
  { unfold give_first, fifo_remove. rewrite (fifo_remove_dequeue _ _ _ _ _ (ko_linked _ _ _ _ _ _ _ _ Hok) Hq).
    cbn [kn set_mtxlist set_next set_owner set_kn]. rewrite E. reflexivity. }
  split; [exact Hk2|split; [done|split; [done|]]].
  assert (Hin : forall w, wt G' mp w -> In w r).
  { intros w (_ & l0 & Hl0 & Hin). unfold G' in Hl0. cbn [g_mtx] in Hl0. rewrite lookup_insert_eq in Hl0.
    by injection Hl0 as <-. }
  assert (Hne : forall m w, m <> mp -> wt G' m w <-> wt G m w).
  { intros m' w Hm'. unfold Mutex.wt, G'. cbn [g_mtx]. by rewrite lookup_insert_ne by auto. }
  split; [exact Hne|split; [|split; [|split; [done|split; [done|split; [done|split]]]]]].
  - intros w Hw. specialize (Hin w Hw).
    destruct (ko_members _ _ _ _ _ _ _ _ Hok mp _ _ w Hm Hq) as (HwT & _); [by right|].
    destruct (ko_prios _ _ _ _ _ _ _ _ Hok w HwT) as [<- _]. destruct (ko_prios _ _ _ _ _ _ _ _ Hok x Hx) as [<- _].
    pose proof (ko_sorted_by _ _ _ _ _ _ _ _ Hok mp _ _ Hm eq_refl Hq) as Hso.
    apply StronglySorted_inv in Hso as [_ Hso]. rewrite List.Forall_forall in Hso. by apply Hso.
  - intros m' w Hw. destruct (decide (m' = mp)) as [->|Hmm]; [|by apply Hne]. split; [done|].
    exists (x :: r). split; [done|right; by apply Hin].
  - cbn. apply upd_eq.
  - cbn. by rewrite lookup_insert_eq.
Qed.

(** The top of the list of owned mutexes, and the others. *)
Lemma top_owned exc G T s qs owned mp rest : mok_but exc G T s qs owned -> let c := r_current (kn s) in
  owned c = mp :: rest ->
  kind !! mp = Some QMutex /\ m_owner s mp = c /\ p_mtxlist s c = mp /\ mp <> NULL /\
  chain (m_next s) (m_next s mp) rest /\ ~ In mp rest /\ NoDup rest /\
  forall t, t ∈ T -> t <> c -> ~ In mp (owned t).
Proof.
  intros Hs c Eo. assert (Hc : c ∈ T) by (by apply (mok_cur _ _ _ _ _ _ Hs)).
  pose proof (mo_chain _ _ _ _ _ Hs c Hc) as Hch. pose proof (mo_nodup _ _ _ _ _ Hs c Hc) as Hnd.
  rewrite Eo in Hch, Hnd. destruct Hch as (E & Hn & Hch). apply list.NoDup_cons in Hnd as [Hni Hnd].
  rewrite list_elem_of_In in Hni.
  destruct (proj1 (mo_owned _ _ _ _ _ Hs c mp Hc)) as [Hk Ho]; [rewrite Eo; by left|].
  split; [done|split; [done|split; [done|split; [done|split; [done|split; [done|split; [done|]]]]]]].
  intros t Ht Htc Hin. apply (mo_owned _ _ _ _ _ Hs t mp Ht) in Hin as [_ E']. congruence.
Qed.

(** The lists of owned mutexes when the top one, [mp], goes to [x]. *)
Lemma give_lists exc G T s qs owned mp rest x : let c := r_current (kn s) in
  let list' := upd x mp (upd c (m_next s mp) (p_mtxlist s)) in
  let next' := upd mp (upd c (m_next s mp) (p_mtxlist s) x) (m_next s) in
  let owned' := upd c rest (upd x (mp :: owned x) owned) in
  mok_but exc G T s qs owned -> owned c = mp :: rest -> x ∈ T -> x <> c ->
  (forall t, t ∈ T -> chain next' (list' t) (owned' t)) /\
  (forall t m, t ∈ T -> In m (owned' t) <-> kind !! m = Some QMutex /\ upd mp x (m_owner s) m = t) /\
  (forall t, t ∈ T -> NoDup (owned' t)).
Proof.
  intros c list' next' owned' Hs Eo HxT Hxc. unfold list', next', owned'.
  destruct (top_owned _ G T s qs owned mp rest Hs Eo) as
    (Hm & Howner & Hlist & Hmn & Hch & Hni & Hnd & Hoth).
  fold c in Howner, Hlist, Hoth.
  assert (El : upd c (m_next s mp) (p_mtxlist s) x = p_mtxlist s x) by (by apply upd_ne).
  assert (Hext : forall t l, ~ In mp l -> chain (m_next s) t l ->
    chain (upd mp (upd c (m_next s mp) (p_mtxlist s) x) (m_next s)) t l).
  { intros t l Hl. apply chain_ext. intros y Hy. apply upd_ne. by intros ->. }
  split; [|split].
  - intros t Ht. destruct (decide (t = c)) as [->|Htc].
    + rewrite (upd_ne x) by auto. rewrite !upd_eq. by apply Hext.
    + rewrite (upd_ne c rest) by done. destruct (decide (t = x)) as [->|Htx].
      * rewrite !upd_eq. cbn [chain]. split; [done|split; [done|]]. rewrite upd_eq.
        apply Hext; [by apply Hoth|]. rewrite El. by apply (mo_chain _ _ _ _ _ Hs).
      * assert (Et : upd x mp (upd c (m_next s mp) (p_mtxlist s)) t = p_mtxlist s t) by (by rewrite !upd_ne).
        rewrite Et, (upd_ne x _ owned) by done. apply Hext; [by apply Hoth|]. by apply (mo_chain _ _ _ _ _ Hs).
  - intros t m Ht. pose proof (mo_owned _ _ _ _ _ Hs t m Ht) as Ho. unfold upd.
    destruct (Z.eqb_spec m mp) as [->|Hne].
    + destruct (Z.eqb_spec t c) as [->|Htc]; [split; [done|by intros [_ ?]]|].
      destruct (Z.eqb_spec t x) as [->|Htx]; [split; [done|by left]|].
      split; [by intros ?%(Hoth t)|]. intros [_ ?]. congruence.
    + destruct (Z.eqb_spec t c) as [->|Htc].
      * rewrite <- Ho, Eo. cbn [In]. split; [by right|]. intros [?|?]; [congruence|done].
      * destruct (Z.eqb_spec t x) as [->|Htx]; [|done]. rewrite <- Ho. cbn [In]. split; [|by right].
        intros [?|?]; [congruence|done].
  - intros t Ht. pose proof (mo_nodup _ _ _ _ _ Hs t Ht) as Hn. unfold upd.
    destruct (Z.eqb_spec t c) as [->|Htc]; [done|]. destruct (Z.eqb_spec t x) as [->|Htx]; [|done].
    constructor; [rewrite list_elem_of_In; by apply Hoth|done].
Qed.

Lemma give_step G T s qs owned mp rest x r : let c := r_current (kn s) in
  mok_but (Some c) G T s qs owned -> owned c = mp :: rest -> qs !! mp = Some (x :: r) ->
  exists s' G' qs', give_first rlist fuel mp (set_mtxlist c (m_next s mp) s) = Some s' /\
    mok_but (Some c) G' T s' qs' (upd c rest (upd x (mp :: owned x) owned)) /\
    r_current (kn s') = c /\ p_realprio (kn s') = p_realprio (kn s) /\ p_mtxlist s' c = m_next s mp /\
    g_prio G' = g_prio G /\ g_real G' = g_real G /\ (forall m w, m <> mp -> wt G' m w <-> wt G m w) /\
    m_owner s' = upd mp x (m_owner s) /\ x ∈ T /\ x <> c /\ p_state (kn s') x = CH_STATE_READY /\
    g_mtx G' !! mp = Some r.
Proof.
  intros c Hs Eo Hq. destruct (top_owned _ G T s qs owned mp rest Hs Eo) as
    (Hm & Howner & Hlist & Hmn & Hch & Hni & Hnd & Hoth).
  fold c in Howner, Hlist, Hoth.
  destruct (give_kernel G T (set_mtxlist c (m_next s mp) s) qs mp x r (mo_mid _ _ _ _ _ Hs) Hm Hq) as
    (k' & G' & qs' & E & Hk' & Ep & Er & Hw1 & Hw2 & Hw3 & HxT & Ec & Ere & Ex & Eg).
  assert (Hxw : wt G mp x) by (apply (wt_queue _ _ _ _ _ _ Hs mp (x :: r)); [done|done|by left]).
  assert (Hxc : x <> c) by (intros ->; by apply (cur_not_waiting _ _ _ _ _ _ Hs mp)).
  assert (HcT : c ∈ T) by (by apply (mok_cur _ _ _ _ _ _ Hs)).
  eexists _, G', qs'. split; [exact E|]. cbn [kn m_owner p_mtxlist set_mtxlist m_next] in *.
  destruct (give_lists _ G T s qs owned mp rest x Hs Eo HxT Hxc) as (L1 & L2 & L3). fold c in L1, L2, L3.
  split; [constructor; cbn [kn m_owner p_mtxlist set_mtxlist m_next]|].
  - done.
  - exact L1.
  - exact L2.
  - exact L3.
  - intros m Hkm. unfold upd. destruct (m =? mp); [by right|by apply (mo_owner _ _ _ _ _ Hs)].
  - intros m w Hw. unfold upd. destruct (Z.eqb_spec m mp) as [->|Hne]; [by apply (mok_not_null _ _ _ _ _ _ Hs)|].
    apply (mo_free _ _ _ _ _ Hs m w). by apply Hw3.
  - rewrite Er. apply (mo_real _ _ _ _ _ Hs).
  - intros t Ht Htc. rewrite Ep, Er.
    apply (give_inherits T (m_owner s) (wt G) _ _ mp c x); try done; [|congruence].
    intros t' Ht' Htc'. apply (mo_inherits _ _ _ _ _ Hs); [done|congruence].
  - rewrite Ec. split; [done|split; [done|]]. rewrite upd_ne, upd_eq by auto.
    repeat (split; [done|]). done.
Qed.

(** A mutex for which nobody waits becomes free. *)
Lemma free_step exc G T s qs owned mp rest : let c := r_current (kn s) in
  mok_but exc G T s qs owned -> owned c = mp :: rest -> qs !! mp = Some [] ->
  mok_but exc G T (set_owner mp NULL (set_mtxlist c (m_next s mp) s)) qs (upd c rest owned).
Proof.
  intros c Hs Eo Hq. destruct (top_owned _ G T s qs owned mp rest Hs Eo) as
    (Hm & Howner & Hlist & Hmn & Hch & Hni & Hnd & Hoth).
  fold c in Howner, Hlist, Hoth.
  assert (HcT : c ∈ T) by (by apply (mok_cur _ _ _ _ _ _ Hs)).
  assert (Hnw : forall w, ~ wt G mp w) by (intros w Hw; by apply (wt_queue _ _ _ _ _ _ Hs mp []) in Hw).
  constructor; cbn [kn m_owner p_mtxlist set_mtxlist m_next set_owner].
  - apply (mo_mid _ _ _ _ _ Hs).
  - intros t Ht. unfold upd. destruct (Z.eqb_spec t c) as [->|]; [done|by apply (mo_chain _ _ _ _ _ Hs)].
  - intros t m Ht. pose proof (mo_owned _ _ _ _ _ Hs t m Ht) as Ho. unfold upd.
    destruct (Z.eqb_spec m mp) as [->|Hne]; destruct (Z.eqb_spec t c) as [->|Htc].
    + split; [done|]. intros [_ E]. by destruct (mok_not_null _ _ _ _ _ _ Hs c HcT).
    + split; [by intros ?%(Hoth t)|]. intros [_ E]. by destruct (mok_not_null _ _ _ _ _ _ Hs t Ht).
    + rewrite <- Ho, Eo. cbn [In]. split; [by right|]. intros [?|?]; [congruence|done].
    + done.
  - intros t Ht. unfold upd. destruct (Z.eqb_spec t c) as [->|]; [done|by apply (mo_nodup _ _ _ _ _ Hs)].
  - intros m Hkm. unfold upd. destruct (m =? mp); [by left|by apply (mo_owner _ _ _ _ _ Hs)].
  - intros m w Hw. rewrite upd_ne; [by apply (mo_free _ _ _ _ _ Hs m w)|]. intros ->. by apply (Hnw w).
  - apply (mo_real _ _ _ _ _ Hs).
  - intros t Ht He. apply free_inherits; [done|]. by apply (mo_inherits _ _ _ _ _ Hs).
Qed.

(** The priority of the running thread may be set, as one that is being changed. *)
Lemma set_prio_mok exc G T s qs owned v : let c := r_current (kn s) in
  mok_but exc G T s qs owned -> exc = None \/ exc = Some c -> 0 < v ->
  mok_but (Some c) (ghost_prio c v G) T (set_kn (set_prio c v (kn s)) s) qs owned.
Proof.
  intros c Hs He Hv. apply (mok_owners exc (Some c) G (ghost_prio c v G) T s _ qs qs owned Hs).
  - apply current_prio_ok; [apply (mo_mid _ _ _ _ _ Hs)|done].
  - done.
  - intros m w Hw. by apply (mo_free _ _ _ _ _ Hs m w).
  - apply (mo_real _ _ _ _ _ Hs).
  - intros t Ht Htc. apply (prio_inherits T (m_owner s) (wt G)); [|intros t' Ht' Htc'|done|congruence].
    + intros m. by apply (cur_not_waiting _ _ _ _ _ _ Hs).
    + apply (mo_inherits _ _ _ _ _ Hs); [done|]. destruct He as [->| ->]; congruence.
Qed.

(** The change is complete. *)
Lemma mok_done G T s qs owned : let c := r_current (kn s) in
  mok_but (Some c) G T s qs owned -> inherits (m_owner s) (wt G) (g_prio G) (g_real G) c -> mok G T s qs owned.
Proof.
  intros c Hs Hi. apply (mok_owners (Some c) None G G T s s qs qs owned Hs); try done.
  - apply (mo_mid _ _ _ _ _ Hs).
  - apply (mo_free _ _ _ _ _ Hs).
  - apply (mo_real _ _ _ _ _ Hs).
  - intros t Ht _. destruct (decide (t = c)) as [->|Hne]; [done|].
    apply (mo_inherits _ _ _ _ _ Hs); [done|congruence].
Qed.

Lemma not_empty_spec exc G T s qs owned mp c v : mok_but exc G T s qs owned -> forall l, qs !! mp = Some l ->
  chMtxQueueNotEmptyS mp (set_mtxlist c v s) = match l with [] => false | _ => true end.
Proof.
  intros Hs l Hq. unfold chMtxQueueNotEmptyS. apply (queue_notempty_spec _ qs); [|done].
  apply (ko_linked _ _ _ _ _ _ _ _ (mok_kok _ _ _ _ _ _ Hs)).
Qed.

(** What [c] inherits from the mutexes it still owns, when [np] is the result of the scan
    and [mp] has gone to [x]. *)
Lemma rest_inherits G T s qs owned mp rest x np (wt' : Z -> Z -> Prop) : let c := r_current (kn s) in
  mok G T s qs owned -> owned c = mp :: rest -> x <> c ->
  (forall m w, m <> mp -> wt' m w <-> wt G m w) ->
  g_real G c <= np ->
  (forall m w, In m rest -> wt G m w -> g_prio G w <= np) ->
  (np = g_real G c \/ exists m w, In m rest /\ wt G m w /\ g_prio G w = np) ->
  inherits (upd mp x (m_owner s)) wt' (upd c np (g_prio G)) (g_real G) c.
Proof.
  intros c Hs Eo Hxc Hw N1 N2 N3. assert (HcT : c ∈ T) by (by apply (mok_cur _ _ _ _ _ _ Hs)).
  destruct (top_owned _ G T s qs owned mp rest Hs Eo) as (_ & _ & _ & _ & _ & Hni & _).
  assert (Hcw : forall m w, wt G m w -> w <> c).
  { intros m w Hmw ->. by apply (cur_not_waiting _ _ _ _ _ _ Hs m). }
  unfold inherits. rewrite upd_eq. split; [lia|split].
  - intros m w Hmc Hmw. destruct (decide (m = mp)) as [->|Hne]; [by rewrite upd_eq in Hmc|].
    rewrite upd_ne in Hmc by done. apply Hw in Hmw; [|done].
    assert (Hin : In m (owned c)) by (apply (mo_owned _ _ _ _ _ Hs c m HcT); split; [apply Hmw|done]).
    rewrite Eo in Hin. destruct Hin as [?|Hin]; [congruence|].
    rewrite upd_ne by (by apply (Hcw m)). by apply (N2 m).
  - destruct N3 as [->|(m & w & Hin & Hmw & E)]; [by left|right].
    assert (Hmm : m <> mp) by (intros ->; done).
    assert (Hmo : m_owner s m = c).
    { apply (mo_owned _ _ _ _ _ Hs c m HcT). rewrite Eo. by right. }
    exists m, w. rewrite !upd_ne by (done || by apply (Hcw m)). split; [done|split; [|done]]. by apply Hw.
Qed.

(** chMtxUnlockS, and chMtxUnlock up to the rescheduling. *)
Lemma unlock_core G T s qs owned mp rest : let c := r_current (kn s) in
  mok G T s qs owned -> owned c = mp :: rest ->
  let s0 := set_mtxlist c (m_next s mp) s in
  chMtxQueueNotEmptyS mp s0 = false /\ mok G T (set_owner mp NULL s0) qs (upd c rest owned) \/
  chMtxQueueNotEmptyS mp s0 = true /\ exists np x r s' G' qs' owned', qs !! mp = Some (x :: r) /\
    scan_owned fuel (p_mtxlist s0 c) (p_realprio (kn s0) c) s0 = Some np /\
    give_first rlist fuel mp (set_kn (set_prio c np (kn s0)) s0) = Some s' /\
    mok G' T s' qs' owned' /\ r_current (kn s') = c /\ m_owner s' mp = x /\
    p_state (kn s') x = CH_STATE_READY /\ g_mtx G' !! mp = Some r.
Proof.
  intros c Hs Eo s0. destruct (top_owned _ G T s qs owned mp rest Hs Eo) as
    (Hm & Howner & Hlist & Hmn & Hch & Hni & Hnd & Hoth). fold c in Howner, Hlist, Hoth.
  assert (HcT : c ∈ T) by (by apply (mok_cur _ _ _ _ _ _ Hs)).
  destruct (mutex_queue _ _ _ _ _ _ Hs mp Hm) as [l Hq].
  unfold s0 at 1 3. rewrite (not_empty_spec _ _ _ _ _ _ mp c (m_next s mp) Hs l Hq).
  destruct l as [|x r]; [left; split; [done|by apply free_step]|right; split; [done|]].
  destruct (ko_prios _ _ _ _ _ _ _ _ (mok_kok _ _ _ _ _ _ Hs) c HcT) as [_ Erp].
  destruct (scan_owned_ok G T s0 qs (mo_mid _ _ _ _ _ Hs) rest (m_next s mp) fuel (p_realprio (kn s) c) Hch)
    as (np & Escan & N1 & N2 & N3).
  { intros m Hin. apply (mo_owned _ _ _ _ _ Hs c m HcT). rewrite Eo. by right. }
  { pose proof (owned_length _ _ _ _ _ _ Hs c HcT) as H. rewrite Eo in H. cbn in H. lia. }
  assert (Hnp : 0 < np) by (pose proof (mo_real _ _ _ _ _ Hs c HcT); lia).
  pose proof (set_prio_mok None G T s qs owned np Hs (or_introl eq_refl) Hnp) as Hs1. fold c in Hs1.
  destruct (give_step _ T (set_kn (set_prio c np (kn s)) s) qs owned mp rest x r Hs1 Eo Hq) as
    (s' & G' & qs' & Eg & Hs' & Hc' & Hre & Hl' & Ep & Er & Hw & Ho & HxT & Hxc & Hst & Hgr).
  change (r_current (kn (set_kn (set_prio c np (kn s)) s))) with c in *.
  exists np, x, r, s', G', qs', (upd c rest (upd x (mp :: owned x) owned)).
  split; [done|split; [|split; [exact Eg|split; [|split; [done|split; [|by split]]]]]].
  - unfold s0. cbn [p_mtxlist set_mtxlist kn]. rewrite upd_eq. exact Escan.
  - rewrite <- Hc' in Hs'. apply mok_done in Hs'; [by rewrite Hc' in Hs'|]. rewrite Hc', Ho, Ep, Er.
    rewrite Erp in N1, N3. by apply (rest_inherits G T s qs owned mp rest x np _ Hs Eo).
  - rewrite Ho. cbn. apply upd_eq.
Qed.

(** A change of the kernel that keeps queues of mutexes and priorities. *)
Lemma mok_kernel exc G T s qs owned k' qs' : mok_but exc G T s qs owned -> kmid G T None k' qs' ->
  mok_but exc G T (set_kn k' s) qs' owned.
Proof.
  intros Hs Hk. apply (mok_owners exc exc G G T s (set_kn k' s) qs qs' owned Hs Hk); try done;
    [apply (mo_free _ _ _ _ _ Hs)|apply (mo_real _ _ _ _ _ Hs)|apply (mo_inherits _ _ _ _ _ Hs)].
Qed.

Lemma reschedule_mok G T s qs owned : mok G T s qs owned ->
  mcall_ok T (match chSchRescheduleS rlist fuel (kn s) with None => None | Some k => Some (set_kn k s) end).
Proof.
  intros Hs. destruct (reschedule_ok rlist idle fuel kind G T (kn s) qs (mo_mid _ _ _ _ _ Hs)) as
    (k' & qs' & -> & Hk' & Ht & _). eexists _, G, qs', owned. split; [done|]. split; [|exact Ht].
  by apply (mok_kernel None G T s qs).
Qed.

Lemma unlock_ok G T s qs owned mp rest : mok G T s qs owned -> top (kn s) qs ->
  owned (r_current (kn s)) = mp :: rest -> mcall_ok T (chMtxUnlock rlist fuel mp s).
Proof.
  intros Hs Ht Eo. unfold chMtxUnlock. cbv zeta.
  destruct (unlock_core G T s qs owned mp rest Hs Eo) as
    [[E H]|(E & np & x & r & s' & G' & qs' & owned' & Hq & Es & Eg & H & _)]; rewrite E.
  - eexists _, G, qs, _. split; [done|]. by split.
  - rewrite Es, Eg. by apply (reschedule_mok G' T s' qs' owned').
Qed.

Lemma unlockS_ok G T s qs owned mp rest : mok G T s qs owned -> owned (r_current (kn s)) = mp :: rest ->
  exists s' G' qs' owned', chMtxUnlockS rlist fuel mp s = Some s' /\ mok G' T s' qs' owned' /\
    r_current (kn s') = r_current (kn s).
Proof.
  intros Hs Eo. unfold chMtxUnlockS. cbv zeta.
  destruct (unlock_core G T s qs owned mp rest Hs Eo) as
    [[E H]|(E & np & x & r & s' & G' & qs' & owned' & Hq & Es & Eg & H & Hc & _)]; rewrite E.
  - by eexists _, G, qs, _.
  - rewrite Es. by exists s', G', qs', owned'.
Qed.

(** chMtxUnlockAll: the running thread keeps its priority until all are given up. *)
Lemma unlock_loop_ok T c : forall l n G s qs owned, mok_but (Some c) G T s qs owned -> c = r_current (kn s) ->
  owned c = l -> l <> [] -> (length l < n)%nat ->
  exists s' G' qs' owned', unlock_loop rlist fuel n c s = Some s' /\ mok_but (Some c) G' T s' qs' owned' /\
    owned' c = [] /\ r_current (kn s') = c /\ g_real G' = g_real G.
Proof.
  induction l as [|mp rest IH]; intros n G s qs owned Hs Hc Eo Hne Hn; [done|].
  destruct n as [|n]; [lia|]. cbn [unlock_loop]. subst c. set (c := r_current (kn s)) in *.
  destruct (top_owned _ G T s qs owned mp rest Hs Eo) as (Hm & Howner & Hlist & Hmn & Hch & _).
  fold c in Howner, Hlist. rewrite Hlist.
  destruct (mutex_queue _ _ _ _ _ _ Hs mp Hm) as [q Hq].
  assert (Hstep : exists s1 G1 qs1 owned1,
    (if chMtxQueueNotEmptyS mp (set_mtxlist c (m_next s mp) s)
     then give_first rlist fuel mp (set_mtxlist c (m_next s mp) s)
     else Some (set_owner mp NULL (set_mtxlist c (m_next s mp) s))) = Some s1 /\
    mok_but (Some c) G1 T s1 qs1 owned1 /\ r_current (kn s1) = c /\ owned1 c = rest /\ g_real G1 = g_real G).
  { rewrite (not_empty_spec _ _ _ _ _ _ mp c (m_next s mp) Hs q Hq). destruct q as [|x r].
    - eexists _, G, qs, _. split; [done|split; [by apply (free_step (Some c) G T s qs owned mp rest)|]].
      split; [done|split; [apply upd_eq|done]].
    - destruct (give_step G T s qs owned mp rest x r Hs Eo Hq) as
        (s1 & G1 & qs1 & E1 & Hs1 & Hc1 & _ & _ & _ & Er1 & _).
      exists s1, G1, qs1, (upd c rest (upd x (mp :: owned x) owned)).
      split; [exact E1|split; [exact Hs1|split; [exact Hc1|split; [apply upd_eq|exact Er1]]]]. }
  destruct Hstep as (s1 & G1 & qs1 & owned1 & -> & Hs1 & Hc1 & Eo1 & Er1).
  assert (HcT : c ∈ T) by (apply (mok_cur _ _ _ _ _ _ Hs)).
  pose proof (mo_chain _ _ _ _ _ Hs1 c HcT) as Hch1. rewrite Eo1 in Hch1.
  destruct rest as [|mp2 rest]; cbn [chain] in Hch1.
  - rewrite Hch1. change (negb (NULL =? NULL)) with false. cbv beta iota. by exists s1, G1, qs1, owned1.
  - destruct Hch1 as (E2 & Hn2 & _). rewrite E2, (proj2 (Z.eqb_neq mp2 NULL)) by done. cbn [negb].
    destruct (IH n G1 s1 qs1 owned1 Hs1) as (s' & G' & qs' & owned' & E' & H1 & H2 & H3 & H4);
      [done|done|done|cbn in *; lia|].
    exists s', G', qs', owned'. rewrite E'. repeat (split; [done|]). congruence.
Qed.

Lemma unlockAll_ok G T s qs owned : mok G T s qs owned -> top (kn s) qs ->
  mcall_ok T (chMtxUnlockAll rlist fuel s).
Proof.
  intros Hs Ht. unfold chMtxUnlockAll. cbv zeta. set (c := r_current (kn s)).
  assert (HcT : c ∈ T) by (by apply (mok_cur _ _ _ _ _ _ Hs)).
  pose proof (mo_chain _ _ _ _ _ Hs c HcT) as Hch. pose proof (owned_length _ _ _ _ _ _ Hs c HcT) as Hlen.
  destruct (owned c) as [|mp rest] eqn:Eo; cbn [chain] in Hch.
  { rewrite Hch. change (negb (NULL =? NULL)) with false. cbv beta iota. by exists s, G, qs, owned. }
  destruct Hch as (-> & Hn & _). rewrite (proj2 (Z.eqb_neq mp NULL)) by done. cbn [negb].
  assert (Hs0 : mok_but (Some c) G T s qs owned).
  { apply (mok_owners None (Some c) G G T s s qs qs owned Hs); try done;
      [apply (mo_mid _ _ _ _ _ Hs)|apply (mo_free _ _ _ _ _ Hs)|apply (mo_real _ _ _ _ _ Hs)|].
    intros t Ht' _. by apply (mo_inherits _ _ _ _ _ Hs). }
  destruct (unlock_loop_ok T c (mp :: rest) fuel G s qs owned Hs0) as
    (s1 & G1 & qs1 & owned1 & -> & Hs1 & Eo1 & Hc1 & Er1); [done|done|done|done|].
  destruct (ko_prios _ _ _ _ _ _ _ _ (mok_kok _ _ _ _ _ _ Hs1) c HcT) as [_ Erp].
  pose proof (mo_real _ _ _ _ _ Hs1 c HcT) as Hpos. rewrite Erp.
  rewrite <- Hc1 in Hs1 |- *.
  pose proof (set_prio_mok _ G1 T s1 qs1 owned1 (g_real G1 c) Hs1 (or_intror eq_refl) Hpos) as Hs2.
  rewrite Hc1 in *.
  assert (Hdone : mok (ghost_prio c (g_real G1 c) G1) T (set_kn (set_prio c (g_real G1 c) (kn s1)) s1) qs1 owned1).
  { assert (Ec : r_current (kn (set_kn (set_prio c (g_real G1 c) (kn s1)) s1)) = c) by exact Hc1.
    rewrite <- Ec in Hs2 at 1. apply mok_done in Hs2; [exact Hs2|]. rewrite Ec.
    unfold inherits. cbn [g_prio g_real ghost_prio m_owner set_kn]. rewrite upd_eq.
    split; [lia|split; [|by left]]. intros m w Hmc (Hkm & _).
    assert (Hin : In m (owned1 c)) by (by apply (mo_owned _ _ _ _ _ Hs1 c m HcT)). by rewrite Eo1 in Hin. }
  by apply (reschedule_mok _ T _ qs1 owned1 Hdone).
Qed.

(** ** Waiting for a condition *)

Lemma cond_sleep_ok G T s qs owned cp time mp rest : mok G T s qs owned ->
  owned (r_current (kn s)) = mp :: rest -> r_current (kn s) <> idle -> kind !! cp = Some QCond ->
  mcall_ok T (match cond_sleep rlist fuel cp time s with None => None | Some (_, s) => Some s end).
Proof.
  intros Hs Eo Hi Hcp. unfold cond_sleep, chMtxGetNextMutexS. cbv zeta.
  destruct (top_owned _ G T s qs owned mp rest Hs Eo) as (_ & _ & -> & _).
  destruct (unlockS_ok G T s qs owned mp rest Hs Eo) as (s1 & G1 & qs1 & owned1 & -> & Hs1 & Hc1).
  set (c := r_current (kn s)) in *. pose proof (mo_mid _ _ _ _ _ Hs1) as Hk1.
  destruct (kmid_current rlist idle fuel kind G1 T (kn s1) qs1 Hk1) as [Ho _]. rewrite Hc1 in Ho.
  pose proof Hk1 as [Hok (Hc & Hcs & _) Har]. rewrite Hc1 in Hc, Hcs, Har.
  destruct (proj2 (ko_dom _ _ _ _ _ _ _ _ Hok cp)) as [l Hl]; [by eexists|].
  destruct (rest_prio rlist idle fuel kind G1 G1 T (kn s1) qs1 c cp QCond CH_STATE_WTCOND l Ho Hc Hi Hcp Hl)
    as (m & E & Hok'); [by right|done..|].
  change (queue_prio_insert fuel (p_prio (set_u c cp (kn s1))) c cp (lk (set_u c cp (kn s1)))) with
    (queue_prio_insert fuel (p_prio (kn s1)) c cp (lk (kn s1))). rewrite E.
  set (k := set_lk m (set_u c cp (kn s1))). set (qs2 := <[cp := _]> qs1) in Hok'.
  assert (Hc2 : r_current k = c) by exact Hc1.
  assert (H : exists qs', let k' := match time with
     | None => chSchGoSleepS rlist CH_STATE_WTCOND k
     | Some time => chSchGoSleepTimeoutS rlist CH_STATE_WTCOND time k
     end in kmid G1 T None k' qs' /\ top k' qs').
  { destruct time as [time|].
    - destruct (sleep_timeout_gen rlist idle fuel kind G1 T k qs2 CH_STATE_WTCOND time) as (qs3 & H1 & H2 & _);
        rewrite ?Hc2; try done. by exists qs3.
    - destruct (go_sleep_ok rlist idle fuel kind G1 T k qs2 CH_STATE_WTCOND) as (qs3 & H1 & H2 & _);
        rewrite ?Hc2; try done. by exists qs3. }
  destruct H as (qs' & Hk' & Ht').
  eexists _, G1, qs', owned1. split; [done|]. split; [|exact Ht']. by apply (mok_kernel None G1 T s1 qs1).
Qed.

(** ** The events of the kernel *)

(** A thread [w] waits for a mutex that [t] owns. *)
Definition waits_for (s : mkernel) (w t : Z) : Prop :=
  p_state (kn s) w = CH_STATE_WTMTX /\ m_owner s (p_u (kn s) w) = t.

Lemma wt_waits exc G T s qs owned m w : mok_but exc G T s qs owned ->
  wt G m w <-> w ∈ T /\ p_state (kn s) w = CH_STATE_WTMTX /\ p_u (kn s) w = m.
Proof.
  intros Hs. split.
  - intros Hw. by apply (wt_state rlist idle fuel kind T G None (kn s) qs m w (mok_kok _ _ _ _ _ _ Hs)).
  - intros (Hw & Hst & <-). by apply (state_wt rlist idle fuel kind T G (kn s) qs w (mok_kok _ _ _ _ _ _ Hs)).
Qed.

(** What chThdSetPriority has to be called with: not less than the priority of a thread
    that waits for the running one, unless a greater one was inherited. *)
Definition prio_safe (T : gset Z) (s : mkernel) (p : Z) : Prop :=
  let cur := r_current (kn s) in
  p_prio (kn s) cur = p_realprio (kn s) cur ->
  forall w, w ∈ T -> waits_for s w cur -> p_prio (kn s) w <= p.

Lemma set_priority_mok G T s qs owned p k' qs' : let c := r_current (kn s) in
  mok G T s qs owned -> prio_safe T s p -> 0 < p -> kmid (ghost_set c p G) T None k' qs' ->
  mok (ghost_set c p G) T (set_kn k' s) qs' owned.
Proof.
  intros c Hs Hsafe Hp Hk. assert (HcT : c ∈ T) by (by apply (mok_cur _ _ _ _ _ _ Hs)).
  destruct (ko_prios _ _ _ _ _ _ _ _ (mok_kok _ _ _ _ _ _ Hs) c HcT) as [E1 E2].
  assert (Hpr : forall t, t <> c -> g_prio (ghost_set c p G) t = g_prio G t /\ g_real (ghost_set c p G) t = g_real G t).
  { intros t Ht. unfold ghost_set. destruct (_ || _); cbn; by rewrite !upd_ne. }
  apply (mok_owners None None G _ T s (set_kn k' s) qs qs' owned Hs Hk); [done| | |].
  - intros m w Hw. apply (mo_free _ _ _ _ _ Hs m w). unfold ghost_set in Hw. by destruct (_ || _).
  - intros t Ht. destruct (decide (t = c)) as [->|Hne].
    + unfold ghost_set. cbn. by rewrite upd_eq.
    + destruct (Hpr t Hne) as [_ ->]. by apply (mo_real _ _ _ _ _ Hs).
  - intros t Ht _. apply (inherits_ext _ (wt G)); [intros m w; unfold ghost_set; by destruct (_ || _)|].
    assert (Hw : forall m w, wt G m w -> w <> c).
    { intros m w Hw ->. by apply (cur_not_waiting _ _ _ _ _ _ Hs m). }
    destruct (mo_inherits _ _ _ _ _ Hs t Ht ltac:(done)) as (I1 & I2 & I3).
    destruct (decide (t = c)) as [->|Hne].
    + assert (Er : g_real (ghost_set c p G) c = p) by (unfold ghost_set; cbn; apply upd_eq).
      unfold inherits. rewrite Er. unfold ghost_set, ghost_real. cbn [g_prio].
      destruct ((g_prio G c =? g_real G c) || (g_prio G c <? p)) eqn:Eb; cbn [g_prio ghost_prio].
      * rewrite upd_eq. split; [lia|split; [|by left]]. intros m w Hm Hmw. rewrite upd_ne by (by apply (Hw m)).
        apply orb_true_iff in Eb as [Eb|Eb]; [|specialize (I2 m w Hm Hmw); lia].
        pose proof Hmw as (HwT & Hst & Hu)%(wt_waits _ _ _ _ _ _ _ _ Hs).
        destruct (ko_prios _ _ _ _ _ _ _ _ (mok_kok _ _ _ _ _ _ Hs) w HwT) as [Ew _].
        rewrite <- Ew. apply Hsafe; [fold c; lia|done|]. split; [done|]. by rewrite Hu.
      * split; [lia|split; [exact I2|]]. destruct I3 as [?|?]; [lia|by right].
    + destruct (Hpr t Hne) as [Ep Er]. unfold inherits. rewrite Ep, Er. split; [done|split].
      * intros m w Hm Hmw. destruct (Hpr w (Hw m w Hmw)) as [-> _]. by apply (I2 m).
      * destruct I3 as [?|(m & w & Hm & Hmw & ?)]; [by left|right]. exists m, w.
        by destruct (Hpr w (Hw m w Hmw)) as [-> _].
Qed.

Lemma create_mok G T s qs owned tp prio k' qs' : let G' := ghost_real tp prio (ghost_prio tp prio G) in
  mok G T s qs owned -> tp ∉ T -> tp <> NULL -> 0 < prio -> kmid G' ({[tp]} ∪ T) None k' qs' ->
  mok G' ({[tp]} ∪ T) (set_mtxlist tp NULL (set_kn k' s)) qs' (upd tp [] owned).
Proof.
  intros G' Hs Ht Hn Hp Hk.
  assert (Hno : forall m, kind !! m = Some QMutex -> m_owner s m <> tp).
  { intros m Hm E. destruct (mo_owner _ _ _ _ _ Hs m Hm); congruence. }
  assert (HT : forall t, t ∈ {[tp]} ∪ T -> t = tp \/ t ∈ T /\ t <> tp).
  { intros t Htt. destruct (decide (t = tp)); [by left|right]. set_solver. }
  assert (Hw : forall m w, wt G' m w -> w <> tp).
  { intros m w Hmw ->. assert (Hmw' : wt G m tp) by exact Hmw.
    apply (wt_waits _ _ _ _ _ _ _ _ Hs) in Hmw' as (? & _). done. }
  constructor; cbn [kn m_owner m_next p_mtxlist set_mtxlist set_kn].
  - done.
  - intros t Htt. unfold upd. destruct (Z.eqb_spec t tp) as [->|Hne]; [done|].
    apply (mo_chain _ _ _ _ _ Hs). set_solver.
  - intros t m Htt. unfold upd. destruct (Z.eqb_spec t tp) as [->|Hne].
    + split; [done|]. intros [Hm E]. by apply (Hno m).
    + apply (mo_owned _ _ _ _ _ Hs). set_solver.
  - intros t Htt. unfold upd. destruct (Z.eqb_spec t tp) as [->|Hne]; [constructor|].
    apply (mo_nodup _ _ _ _ _ Hs). set_solver.
  - intros m Hm. destruct (mo_owner _ _ _ _ _ Hs m Hm); [by left|right; set_solver].
  - intros m w Hmw. by apply (mo_free _ _ _ _ _ Hs m w).
  - intros t Htt. cbn. unfold upd. destruct (Z.eqb_spec t tp) as [->|Hne]; [done|].
    apply (mo_real _ _ _ _ _ Hs). set_solver.
  - intros t Htt _. unfold inherits. cbn [g_prio g_real G' ghost_real ghost_prio].
    destruct (HT t Htt) as [->|[HtT Hne]].
    + rewrite !upd_eq. split; [lia|split; [|by left]]. intros m w Hm Hmw. destruct (Hno m); [apply Hmw|done].
    + rewrite !(upd_ne tp _ _ t) by done.
      destruct (mo_inherits _ _ _ _ _ Hs t HtT ltac:(done)) as (I1 & I2 & I3). split; [done|split].
      * intros m w Hm Hmw. rewrite upd_ne by (by apply (Hw m)). by apply (I2 m).
      * destruct I3 as [?|(m & w & Hm & Hmw & ?)]; [by left|right]. exists m, w.
        by rewrite upd_ne by (by apply (Hw m)).
Qed.

(** ** Sequences of events *)

Inductive mevent : Type :=
  | Base (e : event) | MLock (mp : Z) | MTryLock (mp : Z) | MUnlock (mp : Z) | MUnlockAll
  | MCondWait (cp : Z) | MCondWaitTimeout (cp time : Z) | MCondResume (mp : Z) (timeout : bool).

(** The end of the sleep of the thread that runs after the event. *)
Definition finish (s : mkernel) : mkernel := set_kn (timeout_resume (kn s)) s.

Definition run_mcall (e : mevent) (s : mkernel) : option mkernel :=
  match e with
  | Base _ => Some s
  | MLock mp => match chMtxLock rlist fuel mp s with None => None | Some (_, s) => Some s end
  | MTryLock mp => Some (snd (chMtxTryLock mp s))
  | MUnlock mp => chMtxUnlock rlist fuel mp s
  | MUnlockAll => chMtxUnlockAll rlist fuel s
  | MCondWait cp => match chCondWait rlist fuel cp s with None => None | Some (_, s) => Some s end
  | MCondWaitTimeout cp time =>
      match chCondWaitTimeout rlist fuel cp time s with None => None | Some (_, s) => Some s end
  | MCondResume mp timeout =>
      match cond_resume rlist fuel mp timeout s with None => None | Some (_, s) => Some s end
  end.

(** A new thread owns no mutex (_thread_init). *)
Definition run_mevent (e : mevent) (s : mkernel) : option mkernel :=
  match e with
  | Base e =>
      match run_event rlist fuel e (kn s) with
      | None => None
      | Some k =>
          let s := set_kn k s in
          Some (match e with Call (Create tp _) => set_mtxlist tp NULL s | _ => s end)
      end
  | _ => match run_mcall e s with None => None | Some s => Some (finish s) end
  end.

(** What the documentation asks: mutexes are unlocked in the reverse order, a thread waits
    for a condition with its mutex locked, the idle thread does not wait; and what it does
    not say, [prio_safe]. *)
Definition valid_mevent (T : gset Z) (s : mkernel) (e : mevent) : Prop :=
  let cur := r_current (kn s) in
  match e with
  | Base e => valid_event rlist idle fuel kind T (kn s) e /\
      match e with Call (SetPriority p) => prio_safe T s p | _ => True end
  | MLock mp | MCondResume mp _ => kind !! mp = Some QMutex /\ (m_owner s mp <> NULL -> cur <> idle)
  | MTryLock mp => kind !! mp = Some QMutex
  | MUnlock mp => p_mtxlist s cur = mp /\ mp <> NULL
  | MUnlockAll => True
  | MCondWait cp | MCondWaitTimeout cp _ => kind !! cp = Some QCond /\ p_mtxlist s cur <> NULL /\ cur <> idle
  end.

Definition mthreads_after (e : mevent) (T : gset Z) : gset Z :=
  match e with Base e => threads_after e T | _ => T end.

Fixpoint run_mevents (es : list mevent) (s : mkernel) : option mkernel :=
  match es with
  | [] => Some s
  | e :: es => match run_mevent e s with None => None | Some s => run_mevents es s end
  end.

Fixpoint valid_mevents (T : gset Z) (s : mkernel) (es : list mevent) : Prop :=
  match es with
  | [] => True
  | e :: es => valid_mevent T s e /\
      forall s', run_mevent e s = Some s' -> valid_mevents (mthreads_after e T) s' es
  end.

Definition mkernel_ok (T : gset Z) (s : mkernel) : Prop :=
  exists G qs owned, mok G T s qs owned /\ top (kn s) qs /\ quiet (kn s).

Lemma finish_ok T r : mcall_ok T r ->
  exists s', match r with None => None | Some s => Some (finish s) end = Some s' /\ mkernel_ok T s'.
Proof.
  intros (s & G & qs & owned & -> & Hs & Ht).
  destruct (resume_ok rlist idle fuel kind G T (kn s) qs (mo_mid _ _ _ _ _ Hs) Ht) as (H1 & H2 & H3).
  exists (finish s). split; [done|]. exists G, qs, owned. split; [|by split].
  by apply (mok_kernel None G T s qs).
Qed.

Lemma owned_cons exc G T s qs owned t : mok_but exc G T s qs owned -> t ∈ T -> p_mtxlist s t <> NULL ->
  exists rest, owned t = p_mtxlist s t :: rest.
Proof.
  intros Hs Ht Hn. pose proof (mo_chain _ _ _ _ _ Hs t Ht) as Hc.
  destruct (owned t) as [|m rest]; cbn in Hc; [done|]. destruct Hc as (-> & _). by exists rest.
Qed.

Lemma run_mcall_ok T s e G qs owned : mok G T s qs owned -> top (kn s) qs -> quiet (kn s) ->
  valid_mevent T s e -> mcall_ok T (run_mcall e s).
Proof.
  intros Hs Ht Hq Hv. assert (HcT := mok_cur _ _ _ _ _ _ Hs).
  assert (Hlock : forall mp, kind !! mp = Some QMutex ->
    (m_owner s mp <> NULL -> r_current (kn s) <> idle) ->
    mcall_ok T (match chMtxLockS rlist fuel mp s with None => None | Some (_, s) => Some s end)).
  { intros mp H1 H2. destruct (lock_ok G T s qs owned mp Hs Ht Hq H1 H2) as (b & s' & -> & H). exact H. }
  destruct e; cbn [run_mcall valid_mevent] in *.
  - by exists s, G, qs, owned.
  - destruct Hv. by apply Hlock.
  - by apply (tryLock_ok G T s qs owned).
  - destruct Hv as [<- Hn]. destruct (owned_cons None G T s qs owned _ Hs HcT Hn) as [rest E].
    by apply (unlock_ok G T s qs owned _ rest).
  - by apply (unlockAll_ok G T s qs owned).
  - destruct Hv as (H1 & H2 & H3). destruct (owned_cons None G T s qs owned _ Hs HcT H2) as [rest E].
    by apply (cond_sleep_ok G T s qs owned cp None (p_mtxlist s (r_current (kn s))) rest).
  - destruct Hv as (H1 & H2 & H3). destruct (owned_cons None G T s qs owned _ Hs HcT H2) as [rest E].
    by apply (cond_sleep_ok G T s qs owned cp (Some time) (p_mtxlist s (r_current (kn s))) rest).
  - destruct Hv as [H1 H2]. unfold cond_resume. destruct (timeout && _); [by exists s, G, qs, owned|].
    by apply Hlock.
Qed.

Lemma run_mevent_ok T s e : mkernel_ok T s -> valid_mevent T s e ->
  exists s', run_mevent e s = Some s' /\ mkernel_ok (mthreads_after e T) s'.
Proof.
  intros (G & qs & owned & Hs & Ht & Hq) Hv. destruct e as [e| | | | | | |].
  2-8: apply finish_ok; by apply (run_mcall_ok T s _ G qs owned).
  destruct Hv as [Hv Hp]. cbn [run_mevent mthreads_after].
  destruct (run_event_mid rlist idle fuel kind G T (kn s) qs e (mo_mid _ _ _ _ _ Hs) Ht Hq Hv) as
    (k' & qs' & -> & Hk' & Ht' & Hq').
  assert (Hsame : ghost_after e (kn s) G = G -> threads_after e T = T ->
    mkernel_ok (threads_after e T) (set_kn k' s)).
  { intros EG ET. rewrite EG, ET in *. exists G, qs', owned. split; [|by split].
    by apply (mok_kernel None G T s qs). }
  destruct e as [c|os]; [destruct c|]; cbn [ghost_after threads_after] in *;
    try (eexists; split; [reflexivity|by apply Hsame]).
  - eexists. split; [reflexivity|]. exists (ghost_set (r_current (kn s)) prio G), qs', owned.
    split; [|by split]. by apply (set_priority_mok G T s qs).
  - destruct Hv as (H1 & H2 & H3 & H4 & H5). eexists. split; [reflexivity|].
    exists (ghost_real tp prio (ghost_prio tp prio G)), qs', (upd tp [] owned). split; [|by split].
    by apply (create_mok G T s qs).
Qed.

Lemma run_mevents_ok : forall es T s, mkernel_ok T s -> valid_mevents T s es ->
  exists s', run_mevents es s = Some s' /\ mkernel_ok (fold_left (fun T e => mthreads_after e T) es T) s'.
Proof.
  induction es as [|e es IH]; intros T s Hs Hv; cbn [run_mevents fold_left]; [by exists s|].
  destruct Hv as [Hv1 Hv2]. destruct (run_mevent_ok T s e Hs Hv1) as (s1 & E & Hs1).
  rewrite E. by apply IH; [|apply Hv2].
Qed.
End Invariant.

(** ** The start of the system *)

Fixpoint init_mobjects (objs : list (Z * object)) (s : mkernel) : mkernel :=
  match objs with
  | [] => s
  | (h, Mutex) :: objs => init_mobjects objs (chMtxObjectInit h s)
  | (h, CondVar) :: objs => init_mobjects objs (set_kn (chCondObjectInit h (kn s)) s)
  | (h, o) :: objs => init_mobjects objs (set_kn (init_object h o (kn s)) s)
  end.

(** The main thread owns no mutex (_thread_init). *)
Definition m_init (rlist mainthread : Z) (objs : list (Z * object)) (s : mkernel) : mkernel :=
  init_mobjects objs (set_mtxlist mainthread NULL (set_kn (sys_init rlist mainthread (kn s)) s)).

Lemma init_mobjects_spec objs : forall s,
  kn (init_mobjects objs s) = init_objects objs (kn s) /\
  p_mtxlist (init_mobjects objs s) = p_mtxlist s /\
  forall h, m_owner s h = NULL \/ In (h, Mutex) objs -> m_owner (init_mobjects objs s) h = NULL.
Proof.
  induction objs as [|[h o] objs IH]; intros s; cbn [init_mobjects init_objects].
  { split; [done|split; [done|]]. by intros h [?|[]]. }
  assert (Hw : forall s', kn s' = init_object h o (kn s) -> p_mtxlist s' = p_mtxlist s ->
    (forall x, m_owner s x = NULL \/ x = h /\ o = Mutex -> m_owner s' x = NULL) ->
    kn (init_mobjects objs s') = init_objects objs (init_object h o (kn s)) /\
    p_mtxlist (init_mobjects objs s') = p_mtxlist s /\
    forall x, m_owner s x = NULL \/ In (x, Mutex) ((h, o) :: objs) -> m_owner (init_mobjects objs s') x = NULL).
  { intros s' E1 E2 E3. destruct (IH s') as (-> & -> & H). rewrite E1. split; [done|split; [done|]].
    intros x Hx. apply H. destruct Hx as [Hx|[[= -> ->]|Hx]]; [left|left|by right]; apply E3; auto. }
  destruct o; apply Hw; try done; try (by intros x [?|[? ?]]).
  intros x. cbn. unfold upd. destruct (Z.eqb_spec x h); [done|]. by intros [?|[? _]].
Qed.

Lemma init_objects_real objs : forall k, p_realprio (init_objects objs k) = p_realprio k.
Proof. induction objs as [|[h o] objs IH]; intros k; cbn [init_objects]; [done|]. rewrite IH. by destruct o. Qed.

Lemma m_boot_ok rlist mainthread fuel objs s :
  objects_ok rlist mainthread objs -> blank_kernel (kn s) -> (1 < fuel)%nat ->
  mkernel_ok rlist mainthread fuel (kinds rlist objs) {[mainthread]} (m_init rlist mainthread objs s).
Proof.
  intros Ho Hb Hf. destruct (boot_ok rlist mainthread fuel objs (kn s) Ho Hb Hf) as (qs & Hk & Ht & Hq & He & Hd).
  unfold m_init. set (s0 := set_mtxlist _ _ _).
  destruct (init_mobjects_spec objs s0) as (Ekn & Elist & Eown).
  set (k0 := init_objects objs (sys_init rlist mainthread (kn s))) in *.
  change (kn s0) with (sys_init rlist mainthread (kn s)) in Ekn. fold k0 in Ekn.
  destruct Ho as ([Hr Hnd]%list.NoDup_cons & Hm & _). apply list.NoDup_cons in Hnd as [Hmo Hnd].
  rewrite list_elem_of_In in Hr.
  assert (Hro : ~ In rlist (map fst objs)) by (intros ?; apply Hr; by right).
  assert (Hown : forall m, kinds rlist objs !! m = Some QMutex -> m_owner (init_mobjects objs s0) m = NULL).
  { intros m Hkm. apply Eown. right. apply kinds_spec in Hkm as (o & Hin & Eo); [|done|done|done].
    by destruct o. }
  set (G := Ghost qs (p_prio k0) (p_realprio k0)) in *.
  assert (Hnw : forall m w, ~ wt (kinds rlist objs) G m w).
  { intros m w (Hkm & l & Hl & Hin). cbn in Hl. by rewrite (He m l Hl) in Hin. }
  destruct (init_objects_same objs (sys_init rlist mainthread (kn s))) as (Epr & _). fold k0 in Epr.
  assert (E1 : g_prio G mainthread = IDLEPRIO) by (cbn [g_prio G]; rewrite Epr; cbn; apply upd_eq).
  assert (E2 : g_real G mainthread = IDLEPRIO).
  { cbn [g_real G]. unfold k0. rewrite init_objects_real. cbn. apply upd_eq. }
  exists G, qs, (fun _ => []). rewrite Ekn. split; [|by split]. constructor.
  - by rewrite Ekn.
  - intros t ->%elem_of_singleton. cbn. rewrite Elist. cbn. apply upd_eq.
  - intros t m ->%elem_of_singleton. split; [done|]. intros [Hkm E]. rewrite Hown in E by done. done.
  - intros t _. constructor.
  - intros m Hkm. left. by apply Hown.
  - intros m w Hw. by apply Hnw in Hw.
  - intros t ->%elem_of_singleton. by rewrite E2.
  - intros t ->%elem_of_singleton _. unfold inherits. rewrite E1, E2. split; [lia|split; [|by left]].
    intros m w _ Hw. by apply Hnw in Hw.
Qed.

(** ** The theorems *)

(** The priority of [t] is the greatest of its own and of those of the threads that wait
    for a mutex it owns. *)
Definition inherited (T : gset Z) (s : mkernel) (t : Z) : Prop :=
  p_realprio (kn s) t <= p_prio (kn s) t /\
  (forall w, w ∈ T -> waits_for s w t -> p_prio (kn s) w <= p_prio (kn s) t) /\
  (p_prio (kn s) t = p_realprio (kn s) t \/
   exists w, w ∈ T /\ waits_for s w t /\ p_prio (kn s) w = p_prio (kn s) t).

(** [w] waits for a thread, that waits for a thread, ... that waits for [t]. *)
Inductive held_up (s : mkernel) : Z -> Z -> Prop :=
  | held_one w t : waits_for s w t -> held_up s w t
  | held_more w v t : waits_for s w v -> held_up s v t -> held_up s w t.

Section Theorems.
Context (rlist idle : Z) (fuel : nat) (kind : gmap Z qkind) (G : ghost) (T : gset Z) (s : mkernel).
Context (qs : gmap Z (list Z)) (owned : Z -> list Z).
Hypothesis (Hm : mok_but rlist idle fuel kind None G T s qs owned).

Lemma mkernel_inherited t : t ∈ T -> inherited T s t.
Proof using Hm.
  intros Ht. pose proof (mok_kok _ _ _ _ _ _ _ _ _ _ Hm) as Hok.
  destruct (mo_inherits _ _ _ _ _ _ _ _ _ _ Hm t Ht ltac:(done)) as (I1 & I2 & I3).
  unfold inherited. destruct (ko_prios _ _ _ _ _ _ _ _ Hok t Ht) as [-> ->].
  assert (Hw : forall w, w ∈ T -> waits_for s w t ->
    m_owner s (p_u (kn s) w) = t /\ wt kind G (p_u (kn s) w) w /\ p_prio (kn s) w = g_prio G w).
  { intros w Hw [Hst Ho]. split; [done|split; [|by destruct (ko_prios _ _ _ _ _ _ _ _ Hok w Hw)]].
    by apply (wt_waits _ _ _ _ _ _ _ _ _ _ _ _ Hm). }
  split; [done|split].
  - intros w HwT H. destruct (Hw w HwT H) as (H1 & H2 & ->). by apply (I2 (p_u (kn s) w)).
  - destruct I3 as [?|(m & w & Hmo & Hmw & E)]; [by left|right]. exists w.
    apply (wt_waits _ _ _ _ _ _ _ _ _ _ _ _ Hm) in Hmw as (HwT & Hst & Hu). split; [done|]. split.
    + split; [done|]. by rewrite Hu.
    + destruct (ko_prios _ _ _ _ _ _ _ _ Hok w HwT) as [-> _]. done.
Qed.

Lemma waits_for_thread w t : w ∈ T -> waits_for s w t -> t ∈ T.
Proof using Hm.
  intros Hw [Hst <-].
  assert (Hwt : wt kind G (p_u (kn s) w) w) by (by apply (wt_waits _ _ _ _ _ _ _ _ _ _ _ _ Hm)).
  destruct (mo_owner _ _ _ _ _ _ _ _ _ _ Hm (p_u (kn s) w)) as [E|?]; [apply Hwt| |done].
  by apply (mo_free _ _ _ _ _ _ _ _ _ _ Hm) in Hwt.
Qed.

Lemma held_up_prio w t : held_up s w t -> w ∈ T -> t ∈ T /\ p_prio (kn s) w <= p_prio (kn s) t.
Proof using Hm.
  assert (H1 : forall w t, w ∈ T -> waits_for s w t -> t ∈ T /\ p_prio (kn s) w <= p_prio (kn s) t).
  { intros w' t' Hw H. assert (Ht : t' ∈ T) by (by apply (waits_for_thread w')). split; [done|].
    destruct (mkernel_inherited t' Ht) as (_ & H2 & _). by apply H2. }
  induction 1 as [w t H|w v t H _ IH]; intros Hw; [by apply H1|].
  destruct (H1 w v Hw H) as [Hv Hle]. destruct (IH Hv). split; [done|lia].
Qed.
End Theorems.


(** Validity along a concrete run. *)
Lemma valid_mstep rlist idle fuel kind T s e es : valid_mevent rlist idle fuel kind T s e ->
  valid_mevents rlist idle fuel kind (mthreads_after e T) (default s (run_mevent rlist fuel e s)) es ->
  valid_mevents rlist idle fuel kind T s (e :: es).
Proof. intros H1 H2. split; [done|]. intros s' E. by rewrite E in H2. Qed.

(** The state of the witnesses: the mutexes 3000 and 3100 and the condition variable
    3200; the main thread is 2000. *)
Definition mobjects : list (Z * object) := [(3000, Mutex); (3100, Mutex); (3200, CondVar)].
Definition mblank : mkernel := MKernel blank (fun _ => 77) (fun _ => 77) (fun _ => 77).
Definition mboot : mkernel := m_init 1000 2000 mobjects mblank.

Lemma mobjects_ok : objects_ok 1000 2000 mobjects.
Proof.
  split; [apply NoDup_ListNoDup; repeat constructor; cbn; lia|split; [done|]].
  intros sp n [[=]|[[=]|[[=]|[]]]].
Qed.

Ltac solve_create :=
  split; [|exact I]; split; [done|split; [set_solver|split; [by vm_compute|split; [done|]]]];
  apply Nat.leb_le; by vm_compute.


(** C13. A mutex is handed over.  When the running thread unlocks [mp], the last mutex it
    locked, with the threads [ws] waiting for it: if nobody waits it becomes free and
    nothing else changes; otherwise the first of [ws], which has the greatest priority
    among them, owns it and becomes ready, the others wait on, the running thread falls
    back to the priority it inherits from the mutexes it still owns, and the scheduler then
    chooses who runs. *)
Theorem mutex_handover rlist idle fuel kind T s mp ws :
  mkernel_ok rlist idle fuel kind T s -> kind !! NULL <> Some QMutex -> (size kind < fuel)%nat ->
  let cur := r_current (kn s) in
  p_mtxlist s cur = mp -> mp <> NULL -> waiting (kn s) mp ws ->
  match ws with
  | [] => chMtxUnlock rlist fuel mp s = Some (set_owner mp NULL (set_mtxlist cur (m_next s mp) s))
  | x :: r => exists s1 k', chMtxUnlockS rlist fuel mp s = Some s1 /\
      chSchRescheduleS rlist fuel (kn s1) = Some k' /\ chMtxUnlock rlist fuel mp s = Some (set_kn k' s1) /\
      m_owner s1 mp = x /\ p_state (kn s1) x = CH_STATE_READY /\
      (forall y, In y ws -> p_prio (kn s) y <= p_prio (kn s) x) /\
      waiting (kn s1) mp r /\ inherited T s1 cur
  end.
Proof.
  intros (G & qs & owned & Hs & Ht & _) Hn Hz cur Hl Hne Hw.
  assert (HcT : cur ∈ T) by (apply (mok_cur _ _ _ _ _ _ _ _ _ _ Hs)).
  pose proof (mok_kok _ _ _ _ _ _ _ _ _ _ Hs) as Hok.
  destruct (owned_cons rlist idle fuel kind None G T s qs owned cur Hs HcT) as [rest Eo]; [by rewrite Hl|].
  rewrite Hl in Eo.
  destruct (top_owned _ _ _ _ None G T s qs owned mp rest Hs Eo) as (Hm & _).
  destruct (mutex_queue _ _ _ _ _ _ _ _ _ _ Hs mp Hm) as [l Hq].
  pose proof (waiting_lookup (kn s) qs mp ws l (ko_linked _ _ _ _ _ _ _ _ Hok) Hq Hw) as ->.
  pose proof (not_empty_spec _ _ _ _ None G T s qs owned mp cur (m_next s mp) Hs ws Hq) as Hemp.
  destruct (unlock_core rlist idle fuel kind Hz G T s qs owned mp rest Hs Eo) as
    [[E _]|(E & np & x & r & s1 & G1 & qs1 & owned1 & Hq1 & Es & Eg & H1 & Hc1 & Ho1 & Hx1 & Hr1)];
    fold cur in E; rewrite E in Hemp; destruct ws as [|x' r']; try done.
  - unfold chMtxUnlock. cbv zeta. fold cur. by rewrite E.
  - rewrite Hq1 in Hq. injection Hq as <- <-. fold cur in Es, Eg.
    destruct (reschedule_ok rlist idle fuel kind G1 T (kn s1) qs1 (mo_mid _ _ _ _ _ _ _ _ _ _ H1)) as (k' & _ & Ek & _).
    exists s1, k'. unfold chMtxUnlockS, chMtxUnlock. cbv zeta. fold cur. rewrite E, Es, Eg, Ek.
    repeat (split; [done|]). split; [|split].
    + pose proof (ko_sorted_by _ _ _ _ _ _ _ _ Hok mp _ _ Hm eq_refl Hq1) as Hso.
      apply StronglySorted_inv in Hso as [_ Hso]. rewrite List.Forall_forall in Hso.
      intros y [<-|Hy]; [lia|by apply Hso].
    + pose proof (mok_kok _ _ _ _ _ _ _ _ _ _ H1) as Hok1.
      destruct (mutex_queue _ _ _ _ _ _ _ _ _ _ H1 mp Hm) as [l1 Hl1].
      assert (E1 := ko_mtx _ _ _ _ _ _ _ _ Hok1 mp l1 Hm Hl1). rewrite Hr1 in E1. injection E1 as <-.
      by apply (lookup_waiting (kn s1) qs1); [apply (ko_linked _ _ _ _ _ _ _ _ Hok1)|].
    + by apply (mkernel_inherited _ _ _ _ _ _ _ _ _ H1).
Qed.

(** chThdSetPriority can undo the inheritance.  A thread that owns a mutex for which a
    thread of its own priority waits has nothing to inherit, so its priority is taken as
    its own; lowering it then puts it below the thread that waits for it. *)
Theorem set_priority_inverts rlist idle fuel kind T s w p :
  mkernel_ok rlist idle fuel kind T s ->
  let cur := r_current (kn s) in
  w ∈ T -> waits_for s w cur -> p_prio (kn s) cur = p_realprio (kn s) cur ->
  0 < p < p_prio (kn s) w ->
  exists s', run_mevent rlist fuel (Base (Call (SetPriority p))) s = Some s' /\
    waits_for s' w cur /\ p_prio (kn s') cur < p_prio (kn s') w.
Proof.
  intros (G & qs & owned & Hs & Ht & Hq) cur Hw Hwf Hreal Hp. pose proof (mok_kok _ _ _ _ _ _ _ _ _ _ Hs) as Hok.
  assert (HcT : cur ∈ T) by (apply (mok_cur _ _ _ _ _ _ _ _ _ _ Hs)).
  destruct (run_event_mid rlist idle fuel kind G T (kn s) qs (Call (SetPriority p)) (mo_mid _ _ _ _ _ _ _ _ _ _ Hs) Ht Hq)
    as (k' & qs' & E & Hk' & _); [cbn; lia|].
  exists (set_kn k' s). cbn [run_mevent]. rewrite E. split; [done|].
  pose proof (km_ok _ _ _ _ _ _ _ _ Hk') as Hok'. cbn [ghost_after threads_after] in Hok'. fold cur in Hok'.
  destruct Hwf as [Hst Hown].
  assert (Hwt : wt kind G (p_u (kn s) w) w) by (apply (wt_waits _ _ _ _ _ _ _ _ _ _ _ _ Hs); done).
  assert (Hwc : w <> cur) by (intros ->; by apply (cur_not_waiting _ _ _ _ _ _ _ _ _ _ Hs) in Hwt).
  destruct (ko_prios _ _ _ _ _ _ _ _ Hok cur HcT) as [E1 E2].
  destruct (ko_prios _ _ _ _ _ _ _ _ Hok w Hw) as [E3 _].
  assert (Eg : ghost_set cur p G = ghost_real cur p (ghost_prio cur p G)).
  { unfold ghost_set. rewrite <- E1, <- E2, Hreal, Z.eqb_refl. done. }
  rewrite Eg in Hok'.
  destruct (wt_state _ _ _ _ _ _ _ _ _ (p_u (kn s) w) w Hok') as (_ & Hst' & Hu'); [exact Hwt|].
  split; [split; [done|by cbn; rewrite Hu']|]. cbn [kn set_kn].
  destruct (ko_prios _ _ _ _ _ _ _ _ Hok' cur HcT) as [-> _].
  destruct (ko_prios _ _ _ _ _ _ _ _ Hok' w Hw) as [-> _]. cbn. rewrite upd_eq, upd_ne by done. lia.
Qed.

(** Mutex states that are reached. *)
Definition mdemo (es : list mevent) : mkernel := default mboot (run_mevents 1000 5 es mboot).

Lemma mdemo_ok es T : valid_mevents 1000 2000 5 (kinds 1000 mobjects) {[2000]} mboot es ->
  T = fold_left (fun T e => mthreads_after e T) es {[2000]} ->
  mkernel_ok 1000 2000 5 (kinds 1000 mobjects) T (mdemo es).
Proof.
  intros Hv ->.
  destruct (run_mevents_ok 1000 2000 5 (kinds 1000 mobjects)) with (es := es) (T := {[2000]} : gset Z) (s := mboot)
    as (s' & E & H); [by vm_compute|apply Nat.ltb_lt; by vm_compute|apply m_boot_ok|done|].
  - apply mobjects_ok.
  - done.
  - lia.
  - unfold mdemo. by rewrite E.
Qed.

(** 2100 owns 3000; 2200, of the same priority, waits for it. *)
Definition equals_wait : list mevent :=
  [Base (Call (Create 2100 10)); MLock 3000; Base (Call (Create 2200 10)); Base (Call Yield); MLock 3000].

Lemma equals_wait_ok : mkernel_ok 1000 2000 5 (kinds 1000 mobjects) {[2200; 2100; 2000]} (mdemo equals_wait).
Proof.
  apply mdemo_ok; [|cbn; set_solver]. unfold equals_wait.
  apply valid_mstep; [solve_create|]. apply valid_mstep; [split; by vm_compute|].
  apply valid_mstep; [solve_create|]. apply valid_mstep; [done|].
  apply valid_mstep; [split; by vm_compute|]. done.
Qed.

Lemma set_priority_inverts_witness : exists s',
  run_mevent 1000 5 (Base (Call (SetPriority 5))) (mdemo equals_wait) = Some s' /\
  waits_for s' 2200 2100 /\ p_prio (kn s') 2100 < p_prio (kn s') 2200.
Proof.
  apply (set_priority_inverts 1000 2000 5 (kinds 1000 mobjects) {[2200; 2100; 2000]} (mdemo equals_wait) 2200 5).
  - apply equals_wait_ok.
  - set_solver.
  - split; by vm_compute.
  - by vm_compute.
  - split; by vm_compute.
Defined.

Lemma mutex_handover_witness :
  exists s1 k', chMtxUnlockS 1000 5 3000 (mdemo equals_wait) = Some s1 /\
      chSchRescheduleS 1000 5 (kn s1) = Some k' /\
      chMtxUnlock 1000 5 3000 (mdemo equals_wait) = Some (set_kn k' s1) /\
      m_owner s1 3000 = 2200 /\ p_state (kn s1) 2200 = CH_STATE_READY /\
      (forall y, In y [2200] -> p_prio (kn (mdemo equals_wait)) y <= p_prio (kn (mdemo equals_wait)) 2200) /\
      waiting (kn s1) 3000 [] /\ inherited {[2200; 2100; 2000]} s1 (r_current (kn (mdemo equals_wait))).
Proof.
  apply (mutex_handover 1000 2000 5 (kinds 1000 mobjects) {[2200; 2100; 2000]} (mdemo equals_wait) 3000 [2200]).
  - apply equals_wait_ok.
  - by vm_compute.
  - apply Nat.ltb_lt. by vm_compute.
  - by vm_compute.
  - done.
  - split; [by vm_compute|]. apply NoDup_ListNoDup. repeat constructor; cbn; lia.
Defined.
