(* ===== verification/IOQueues.v ===== *)
(** The I/O queues of the kernel (os/rt/src/chqueues.c, os/rt/include/chqueues.h): bounded
    queues of bytes between a thread, which may wait, and an interrupt handler.

    The positions are indices into the buffer.  A function that may wait is cut at the
    point where it waits: [chIQGetTimeout] runs from the call, [iq_get_resume] from the
    return of the kernel's wait, both up to the next wait or the end; the functions that
    transfer many bytes are cut where they release the lock as well.  The callback of a
    queue is a parameter: it may change the queue, the kernel and the state [D] of the
    driver.

    Proved here, for each operation: it is the operation of a bounded FIFO queue, it
    refuses exactly when the queue is full or empty, and it keeps the invariant of the
    kernel. *)
From S2P Require Import Prelude Ring Queues Sched SchedOk.
Local Open Scope Z_scope.

Definition Q_OK : Z := MSG_OK.
Definition Q_TIMEOUT : Z := MSG_TIMEOUT.
Definition Q_RESET : Z := MSG_RESET.
Definition Q_EMPTY : Z := -3.
Definition Q_FULL : Z := -4.

Record io_queue : Type := IOQueue {
  q_waiting : Z;
  q_counter : Z;
  q_buffer : list Z;
  q_wrptr : Z;
  q_rdptr : Z
}.
Definition set_counter v q := IOQueue (q_waiting q) v (q_buffer q) (q_wrptr q) (q_rdptr q).

Definition chQSizeX (q : io_queue) : Z := len (q_buffer q).
Definition chQSpaceI (q : io_queue) : Z := q_counter q.

Definition chIQGetFullI (q : io_queue) : Z := chQSpaceI q.
Definition chIQGetEmptyI (q : io_queue) : Z := u32 (chQSizeX q - chQSpaceI q).
Definition chIQIsEmptyI (q : io_queue) : bool := chQSpaceI q =? 0.
Definition chIQIsFullI (q : io_queue) : bool := (q_wrptr q =? q_rdptr q) && negb (q_counter q =? 0).
Definition chOQGetFullI (q : io_queue) : Z := u32 (chQSizeX q - chQSpaceI q).
Definition chOQGetEmptyI (q : io_queue) : Z := chQSpaceI q.
Definition chOQIsEmptyI (q : io_queue) : bool := (q_wrptr q =? q_rdptr q) && negb (q_counter q =? 0).
Definition chOQIsFullI (q : io_queue) : bool := chQSpaceI q =? 0.

(** [*q_wrptr++ = b;] and the return to the start of the buffer. *)
Definition put_byte (b : Z) (q : io_queue) : option io_queue :=
  match store (q_buffer q) (q_wrptr q) b with
  | None => None
  | Some buf => Some (IOQueue (q_waiting q) (q_counter q) buf (next_pos (chQSizeX q) (q_wrptr q)) (q_rdptr q))
  end.

(** [b = *q_rdptr++;] and the return to the start of the buffer. *)
Definition get_byte (q : io_queue) : option (Z * io_queue) :=
  match load (q_buffer q) (q_rdptr q) with
  | None => None
  | Some b => Some (b, IOQueue (q_waiting q) (q_counter q) (q_buffer q) (q_wrptr q) (next_pos (chQSizeX q) (q_rdptr q)))
  end.

Definition chIQObjectInit (tqp : Z) (bp : list Z) (k : kernel) : io_queue * kernel :=
  (IOQueue tqp 0 bp 0 0, chThdQueueObjectInit tqp k).
Definition chOQObjectInit (tqp : Z) (bp : list Z) (k : kernel) : io_queue * kernel :=
  (IOQueue tqp (len bp) bp 0 0, chThdQueueObjectInit tqp k).

Section IOQueues.
Context (rlist : Z) (fuel : nat).

(** ** The end that does not wait *)

Definition chIQResetI (q : io_queue) (k : kernel) : option (io_queue * kernel) :=
  let q := IOQueue (q_waiting q) 0 (q_buffer q) 0 0 in
  match chThdDequeueAllI rlist fuel (q_waiting q) Q_RESET k with None => None | Some k => Some (q, k) end.

Definition chIQPutI (b : Z) (q : io_queue) (k : kernel) : option (Z * io_queue * kernel) :=
  if chIQIsFullI q then Some (Q_FULL, q, k)
  else
    let q := set_counter (u32 (q_counter q + 1)) q in
    match put_byte b q with
    | None => None
    | Some q =>
        match chThdDequeueNextI rlist fuel (q_waiting q) Q_OK k with
        | None => None
        | Some k => Some (Q_OK, q, k)
        end
    end.

Definition chOQResetI (q : io_queue) (k : kernel) : option (io_queue * kernel) :=
  let q := IOQueue (q_waiting q) (chQSizeX q) (q_buffer q) 0 0 in
  match chThdDequeueAllI rlist fuel (q_waiting q) Q_RESET k with None => None | Some k => Some (q, k) end.

Definition chOQGetI (q : io_queue) (k : kernel) : option (Z * io_queue * kernel) :=
  if chOQIsEmptyI q then Some (Q_EMPTY, q, k)
  else
    let q := set_counter (u32 (q_counter q + 1)) q in
    match get_byte q with
    | None => None
    | Some (b, q) =>
        match chThdDequeueNextI rlist fuel (q_waiting q) Q_OK k with
        | None => None
        | Some k => Some (b, q, k)
        end
    end.

(** ** The end that waits *)

Section Blocking.
Context {D : Type}.

(** The queue, the kernel and the rest of the driver. *)
Record world : Type := World { w_q : io_queue; w_k : kernel; w_d : D }.

(** [q_notify], [None] if NULL. *)
Context (q_notify : option (world -> option world)).
Definition notify (w : world) : option world :=
  match q_notify with None => Some w | Some f => f w end.

(** Where a function of a thread ends up: it returned, it waits, or it has released the
    lock between two bytes. *)
Inductive outcome : Type := Returned (r : Z) | Asleep | Unlocked.

(** [msg = chThdEnqueueTimeoutS(&q_waiting, timeout)]; [ret] is what the function returns
    when that comes back at once. *)
Definition wait_queue_of (time : Z) (ret : Z -> Z) (w : world) : option (outcome * world) :=
  let '(r, k) := chThdEnqueueTimeoutS rlist (q_waiting (w_q w)) time (w_k w) in
  Some (match r with Some msg => Returned (ret msg) | None => Asleep end, World (w_q w) k (w_d w)).

(** The message with which the running thread was woken. *)
Definition wait_msg (w : world) : Z := p_u (w_k w) (r_current (w_k w)).

(** From the test of the while loop of chIQGetTimeout on. *)
Definition iq_get_loop (time : Z) (w : world) : option (outcome * world) :=
  if chIQIsEmptyI (w_q w) then wait_queue_of time (fun msg => msg) w
  else
    let q := set_counter (u32 (q_counter (w_q w) - 1)) (w_q w) in
    match get_byte q with
    | None => None
    | Some (b, q) => Some (Returned b, World q (w_k w) (w_d w))
    end.

Definition chIQGetTimeout (time : Z) (w : world) : option (outcome * world) :=
  match notify w with None => None | Some w => iq_get_loop time w end.
Definition iq_get_resume (time : Z) (w : world) : option (outcome * world) :=
  if wait_msg w <? Q_OK then Some (Returned (wait_msg w), w) else iq_get_loop time w.
Definition chIQGet : world -> option (outcome * world) := chIQGetTimeout TIME_INFINITE.

(** A transfer of many bytes: the bytes so far, the number to go, the result so far. *)
Record transfer : Type := Transfer { t_buf : list Z; t_n : Z; t_r : Z }.

(** One byte of chIQReadTimeout, from the while loop on. *)
Definition iq_read_loop (time : Z) (t : transfer) (w : world) : option (outcome * transfer * world) :=
  if chIQIsEmptyI (w_q w) then
    match wait_queue_of time (fun _ => t_r t) w with None => None | Some (o, w) => Some (o, t, w) end
  else
    let q := set_counter (u32 (q_counter (w_q w) - 1)) (w_q w) in
    match get_byte q with
    | None => None
    | Some (b, q) =>
        let t := Transfer (t_buf t ++ [b]) (u32 (t_n t - 1)) (u32 (t_r t + 1)) in
        Some (if t_n t =? 0 then Returned (t_r t) else Unlocked, t, World q (w_k w) (w_d w))
    end.
Definition iq_read_next (time : Z) (t : transfer) (w : world) : option (outcome * transfer * world) :=
  match notify w with None => None | Some w => iq_read_loop time t w end.
Definition iq_read_resume (time : Z) (t : transfer) (w : world) : option (outcome * transfer * world) :=
  if negb (wait_msg w =? Q_OK) then Some (Returned (t_r t), t, w) else iq_read_loop time t w.
Definition chIQReadTimeout (n time : Z) (w : world) : option (outcome * transfer * world) :=
  iq_read_next time (Transfer [] n 0) w.

(** From the test of the while loop of chOQPutTimeout on. *)
Definition oq_put_loop (b time : Z) (w : world) : option (outcome * world) :=
  if chOQIsFullI (w_q w) then wait_queue_of time (fun msg => msg) w
  else
    let q := set_counter (u32 (q_counter (w_q w) - 1)) (w_q w) in
    match put_byte b q with
    | None => None
    | Some q =>
        match notify (World q (w_k w) (w_d w)) with
        | None => None
        | Some w => Some (Returned Q_OK, w)
        end
    end.
Definition chOQPutTimeout (b time : Z) (w : world) : option (outcome * world) := oq_put_loop b time w.
Definition oq_put_resume (b time : Z) (w : world) : option (outcome * world) :=
  if wait_msg w <? Q_OK then Some (Returned (wait_msg w), w) else oq_put_loop b time w.

(** One byte of chOQWriteTimeout; [t_buf] are the bytes to come. *)
Definition oq_write_loop (time : Z) (t : transfer) (w : world) : option (outcome * transfer * world) :=
  if chOQIsFullI (w_q w) then
    match wait_queue_of time (fun _ => t_r t) w with None => None | Some (o, w) => Some (o, t, w) end
  else
    match t_buf t with
    | [] => None
    | b :: bp =>
        let q := set_counter (u32 (q_counter (w_q w) - 1)) (w_q w) in
        match put_byte b q with
        | None => None
        | Some q =>
            match notify (World q (w_k w) (w_d w)) with
            | None => None
            | Some w =>
                let t := Transfer bp (u32 (t_n t - 1)) (u32 (t_r t + 1)) in
                Some (if t_n t =? 0 then Returned (t_r t) else Unlocked, t, w)
            end
        end
    end.
Definition oq_write_resume (time : Z) (t : transfer) (w : world) : option (outcome * transfer * world) :=
  if negb (wait_msg w =? Q_OK) then Some (Returned (t_r t), t, w) else oq_write_loop time t w.
Definition chOQWriteTimeout (bp : list Z) (time : Z) (w : world) : option (outcome * transfer * world) :=
  oq_write_loop time (Transfer bp (len bp) 0) w.
End Blocking.
End IOQueues.
#[global] Arguments world : clear implicits.

(** ** The invariant *)

Section Correct.
Context (rlist idle : Z) (fuel : nat) (kind : gmap Z qkind).
Context (G : ghost) (T : gset Z).

(** The kernel is well formed; whether a ready thread should run instead of the running
    one is left open. *)
Definition kernel_fine (k : kernel) : Prop := exists qs, kmid rlist idle fuel kind G T None k qs.

(** The queue holds the bytes [c].  The counter counts the bytes of an input queue, and
    the free places of an output queue. *)
Record ioq_ok (input : bool) (q : io_queue) (c : list Z) : Prop := {
  io_ring : ring_ok (q_buffer q) (q_rdptr q) (q_wrptr q) c;
  io_size : chQSizeX q < 2 ^ 32;
  io_counter : q_counter q = if input then len c else chQSizeX q - len c;
  io_bytes : Forall (fun b => is_u8 b) c;
  io_kind : kind !! q_waiting q = Some QThreads
}.

Section Queue.
Context (input : bool) (q : io_queue) (c : list Z) (Hq : ioq_ok input q c).

Lemma ioq_bounds : 0 <= len c <= chQSizeX q /\ 0 < chQSizeX q < 4294967296.
Proof using Hq.
  destruct Hq as [[] ? _ _ _]. change (2 ^ 32) with 4294967296 in *. unfold chQSizeX, len in *. lia.
Qed.

Lemma counter_zero : (chQSpaceI q =? 0) = bool_decide (len c = if input then 0 else chQSizeX q).
Proof using Hq.
  pose proof ioq_bounds. unfold chQSpaceI. rewrite (io_counter _ _ _ Hq).
  destruct input; case_bool_decide; destruct (Z.eqb_spec (len c) 0), (Z.eqb_spec (chQSizeX q - len c) 0); lia.
Qed.

Lemma pointers_equal : (q_wrptr q =? q_rdptr q) && negb (q_counter q =? 0) =
  bool_decide (len c = if input then chQSizeX q else 0).
Proof using Hq.
  pose proof ioq_bounds. pose proof counter_zero as Hz. unfold chQSpaceI in Hz. rewrite Hz.
  pose proof (ring_full _ _ _ _ (io_ring _ _ _ Hq)) as [H1 H2]. fold (chQSizeX q) in H1, H2.
  destruct input; repeat case_bool_decide; destruct (Z.eqb_spec (q_wrptr q) (q_rdptr q)); cbn; try done; exfalso;
    try (destruct (H1 ltac:(done)); lia); by (apply n, H2; lia).
Qed.

Lemma ioq_put b : len c < chQSizeX q -> is_u8 b ->
  exists q', put_byte b (set_counter (u32 (q_counter q + if input then 1 else -1)) q) = Some q' /\
    ioq_ok input q' (c ++ [b]) /\ q_waiting q' = q_waiting q /\ chQSizeX q' = chQSizeX q.
Proof using Hq.
  intros Hl Hb. pose proof ioq_bounds as Hbd. pose proof Hq as [Hr Hs Hc Hby Hk].
  pose proof (ring_wr_range _ _ _ _ Hr) as Hw. unfold put_byte. cbn.
  rewrite store_in by exact Hw. eexists. split; [done|].
  assert (El : len (<[Z.to_nat (q_wrptr q):=b]> (q_buffer q)) = chQSizeX q)
    by (unfold len, chQSizeX, len; by rewrite length_insert).
  assert (Ec : len (c ++ [b]) = len c + 1) by (unfold len; rewrite length_app; cbn; lia).
  split; [|by split]. constructor; unfold chQSizeX in *; cbn in *; rewrite ?El, ?Ec; try done.
  - by apply ring_push.
  - rewrite Hc. destruct input; rewrite u32_id; lia.
  - apply list.Forall_app. split; [done|]. apply list.Forall_singleton. done.
Qed.
End Queue.

Lemma ioq_get input q b c : ioq_ok input q (b :: c) ->
  exists q', get_byte (set_counter (u32 (q_counter q + if input then -1 else 1)) q) = Some (b, q') /\
    ioq_ok input q' c /\ q_waiting q' = q_waiting q /\ chQSizeX q' = chQSizeX q /\ is_u8 b.
Proof.
  intros Hq. pose proof (ioq_bounds _ _ _ Hq) as Hbd. pose proof Hq as [Hr Hs Hc Hby Hk].
  destruct (ring_pop _ _ _ _ _ Hr) as [Hl Hr']. pose proof Hr as [Hrd _ _ _].
  apply list.Forall_cons in Hby as [Hb Hby]. unfold get_byte, load. cbn.
  replace (0 <=? q_rdptr q) with true by lia. rewrite Hl. eexists. split; [done|].
  assert (Ec : len (b :: c) = len c + 1) by (unfold len; cbn [length]; lia).
  assert (0 <= len c) by (unfold len; lia).
  split; [|by split]. constructor; unfold chQSizeX in *; cbn in *; try done.
  rewrite Hc, Ec. rewrite Ec in Hbd. destruct input; rewrite u32_id; lia.
Qed.

Lemma ioq_reset input q c : ioq_ok input q c ->
  ioq_ok input (IOQueue (q_waiting q) (if input then 0 else chQSizeX q) (q_buffer q) 0 0) [].
Proof.
  intros Hq. pose proof (ioq_bounds _ _ _ Hq) as [_ Hbd]. destruct Hq as [_ Hs _ _ Hk].
  unfold chQSizeX in *. constructor; unfold chQSizeX; cbn; [apply ring_empty; lia|done| |by constructor|done].
  assert (len ([] : list Z) = 0) as -> by done. destruct input; lia.
Qed.

(** ** The operations *)

Lemma isr_fine k r : isr_ok rlist idle fuel kind G T k r -> exists k', r = Some k' /\ kernel_fine k' /\ same_run k k'.
Proof. intros (k' & qs' & -> & H & Hs). exists k'. split; [done|split; [by exists qs'|done]]. Qed.

(** A byte is stored unless the queue is full. *)
Lemma chIQPutI_spec q c k b : ioq_ok true q c -> kernel_fine k -> is_u8 b ->
  exists q' k', kernel_fine k' /\ same_run k k' /\ q_waiting q' = q_waiting q /\ chQSizeX q' = chQSizeX q /\
    if bool_decide (len c = chQSizeX q)
    then chIQPutI rlist fuel b q k = Some (Q_FULL, q, k) /\ q' = q /\ k' = k
    else chIQPutI rlist fuel b q k = Some (Q_OK, q', k') /\ ioq_ok true q' (c ++ [b]).
Proof.
  intros Hq [qs Hk] Hb. unfold chIQPutI, chIQIsFullI. rewrite (pointers_equal _ _ _ Hq).
  pose proof (ioq_bounds _ _ _ Hq). case_bool_decide as Hf; [by exists q, k; split; [by exists qs|]|].
  destruct (ioq_put true q c Hq b) as (q' & -> & Hq' & Ew & Es); [lia|done|].
  destruct (isr_fine _ _ (chThdDequeueNextI_ok rlist idle fuel kind G T k qs (q_waiting q') Q_OK Hk (io_kind _ _ _ Hq')))
    as (k' & -> & Hk' & Hs). by exists q', k'.
Qed.

(** The first byte is taken unless the queue is empty. *)
Lemma chOQGetI_spec q c k : ioq_ok false q c -> kernel_fine k ->
  match c with
  | [] => chOQGetI rlist fuel q k = Some (Q_EMPTY, q, k)
  | b :: c => exists q' k', chOQGetI rlist fuel q k = Some (b, q', k') /\ ioq_ok false q' c /\ kernel_fine k' /\
      same_run k k' /\ q_waiting q' = q_waiting q /\ chQSizeX q' = chQSizeX q /\ is_u8 b
  end.
Proof.
  intros Hq [qs Hk]. unfold chOQGetI, chOQIsEmptyI. rewrite (pointers_equal _ _ _ Hq).
  destruct c as [|b c]; [done|].
  rewrite bool_decide_eq_false_2 by (unfold len; cbn [length]; lia).
  destruct (ioq_get false q b c Hq) as (q' & -> & Hq' & Ew & Es & Hb).
  destruct (isr_fine _ _ (chThdDequeueNextI_ok rlist idle fuel kind G T k qs (q_waiting q') Q_OK Hk (io_kind _ _ _ Hq')))
    as (k' & -> & Hk' & Hs). by exists q', k'.
Qed.

(** A reset empties the queue. *)
Lemma chIQResetI_spec q c k : ioq_ok true q c -> kernel_fine k ->
  exists q' k', chIQResetI rlist fuel q k = Some (q', k') /\ ioq_ok true q' [] /\ kernel_fine k' /\
    same_run k k' /\ q_waiting q' = q_waiting q /\ chQSizeX q' = chQSizeX q.
Proof.
  intros Hq [qs Hk]. unfold chIQResetI. pose proof (ioq_reset true q c Hq) as Hq'. cbn in Hq'.
  destruct (isr_fine _ _ (chThdDequeueAllI_ok rlist idle fuel kind G T k qs (q_waiting q) Q_RESET Hk (io_kind _ _ _ Hq)))
    as (k' & E & Hk' & Hs). cbn [q_waiting]. rewrite E. by eexists _, k'.
Qed.

Lemma chOQResetI_spec q c k : ioq_ok false q c -> kernel_fine k ->
  exists q' k', chOQResetI rlist fuel q k = Some (q', k') /\ ioq_ok false q' [] /\ kernel_fine k' /\
    same_run k k' /\ q_waiting q' = q_waiting q /\ chQSizeX q' = chQSizeX q.
Proof.
  intros Hq [qs Hk]. unfold chOQResetI. pose proof (ioq_reset false q c Hq) as Hq'. cbn in Hq'.
  destruct (isr_fine _ _ (chThdDequeueAllI_ok rlist idle fuel kind G T k qs (q_waiting q) Q_RESET Hk (io_kind _ _ _ Hq)))
    as (k' & E & Hk' & Hs). cbn [q_waiting]. rewrite E. by eexists _, k'.
Qed.

(** The running thread goes to the queue of waiting threads, or returns at once. *)
Lemma wait_spec {D} time ret (w : world D) : kind !! q_waiting (w_q w) = Some QThreads -> kernel_fine (w_k w) ->
  r_current (w_k w) <> idle ->
  exists k', kernel_fine k' /\ moved T (r_current (w_k w)) (w_k w) k' /\ wait_queue_of rlist time ret w =
    Some (if time =? TIME_IMMEDIATE then Returned (ret MSG_TIMEOUT) else Asleep, World (w_q w) k' (w_d w)).
Proof.
  intros Hkd [qs Hk] Hi. unfold wait_queue_of, chThdEnqueueTimeoutS.
  destruct (time =? TIME_IMMEDIATE) eqn:E; [by exists (w_k w); split; [exists qs|split; [apply moved_refl|]]|].
  destruct (enqueue_asleep rlist idle fuel kind G T (w_k w) qs (q_waiting (w_q w)) time Hk Hi Hkd) as (k' & qs' & Ek & Hk' & _ & Hm).
  injection Ek as Ek. exists k'. split; [by exists qs'|split; [done|]]. by rewrite Ek.
Qed.
End Correct.
