(* ===== verification/Events.v ===== *)
(** The events of the kernel (os/rt/src/chevents.c, os/rt/include/chevents.h): sources
    broadcast flags to the listeners that are registered on them, and a listener adds
    events to its thread, which may wait for one, any or all of a set of events.

    The listeners of a source are a linked list that ends at the source ([es_next] is the
    first field of a source and [el_next] that of a listener, and the code casts one to
    the other).  A wait is cut at the point where the thread sleeps: [chEvtWaitAny] runs up
    to there, [wait_any_resume] from the return of the scheduler.

    Proved: the lists are the abstract sets of listeners, in the order of registration; a
    broadcast adds the flags to every listener and wakes exactly the threads whose
    condition it fulfils; no thread sleeps while its condition holds, whatever happens in
    the kernel; a wait gives one pending event (the lowest), any, or all of them, and
    clears these only. *)
From S2P Require Import Prelude Queues Sched SchedOk Kernel.
Local Open Scope Z_scope.

(** [EVENT_MASK(eid)] *)
Definition EVENT_MASK (eid : Z) : Z := u32 (Z.shiftl 1 eid).
Definition ALL_EVENTS : Z := 0xFFFFFFFF.

Record estate : Type := EState {
  ek : kernel;
  p_epending : Z -> Z;
  el_next : Z -> Z;
  el_listener : Z -> Z;
  el_events : Z -> Z;
  el_flags : Z -> Z;
  el_wflags : Z -> Z
}.

Definition set_ek v s := EState v (p_epending s) (el_next s) (el_listener s) (el_events s) (el_flags s) (el_wflags s).
Definition set_pending a v s :=
  EState (ek s) (upd a v (p_epending s)) (el_next s) (el_listener s) (el_events s) (el_flags s) (el_wflags s).
Definition set_el_next a v s :=
  EState (ek s) (p_epending s) (upd a v (el_next s)) (el_listener s) (el_events s) (el_flags s) (el_wflags s).
Definition set_flags a v s :=
  EState (ek s) (p_epending s) (el_next s) (el_listener s) (el_events s) (upd a v (el_flags s)) (el_wflags s).
Definition currp (s : estate) : Z := r_current (ek s).

(** ** Sources and listeners *)

Definition chEvtObjectInit (esp : Z) (s : estate) : estate := set_el_next esp esp s.

Definition chEvtRegisterMaskWithFlags (esp elp events wflags : Z) (s : estate) : estate :=
  let s := set_el_next elp (el_next s esp) s in
  let s := set_el_next esp elp s in
  EState (ek s) (p_epending s) (el_next s) (upd elp (currp s) (el_listener s)) (upd elp events (el_events s))
    (upd elp 0 (el_flags s)) (upd elp wflags (el_wflags s)).
Definition chEvtRegisterMask (esp elp events : Z) : estate -> estate :=
  chEvtRegisterMaskWithFlags esp elp events 0xFFFFFFFF.
Definition chEvtRegister (esp elp event : Z) : estate -> estate := chEvtRegisterMask esp elp (EVENT_MASK event).

Definition chEvtIsListeningI (esp : Z) (s : estate) : bool := negb (esp =? el_next s esp).

(** [p] runs over the list. *)
Fixpoint unregister_loop (n : nat) (esp elp p : Z) (s : estate) : option estate :=
  match n with
  | O => None
  | S n =>
      if negb (el_next s p =? esp) then
        if el_next s p =? elp then Some (set_el_next p (el_next s elp) s)
        else unregister_loop n esp elp (el_next s p) s
      else Some s
  end.

Definition chEvtGetAndClearFlagsI (elp : Z) (s : estate) : Z * estate :=
  let flags := el_flags s elp in
  (flags, set_flags elp 0 s).
Definition chEvtGetAndClearFlags (elp : Z) (s : estate) : Z * estate :=
  let flags := el_flags s elp in
  (flags, set_flags elp 0 s).

(** ** The pending events of the running thread *)

Definition chEvtGetAndClearEvents (events : Z) (s : estate) : Z * estate :=
  let m := Z.land (p_epending s (currp s)) events in
  (m, set_pending (currp s) (Z.ldiff (p_epending s (currp s)) events) s).

Definition chEvtAddEvents (events : Z) (s : estate) : Z * estate :=
  let s := set_pending (currp s) (Z.lor (p_epending s (currp s)) events) s in
  (p_epending s (currp s), s).

Section Events.
Context (rlist : Z) (fuel : nat).

Definition chEvtUnregister (esp elp : Z) (s : estate) : option estate := unregister_loop fuel esp elp esp s.

(** ** Signalling *)

(** The AND/OR conditions of the wait states. *)
Definition wait_over (k : kernel) (pending tp : Z) : bool :=
  match p_state k tp with
  | CH_STATE_WTOREVT => negb (Z.land pending (p_u k tp) =? 0)
  | CH_STATE_WTANDEVT => Z.land pending (p_u k tp) =? p_u k tp
  | _ => false
  end.

Definition chEvtSignalI (tp events : Z) (s : estate) : option estate :=
  let s := set_pending tp (Z.lor (p_epending s tp) events) s in
  if wait_over (ek s) (p_epending s tp) tp then
    match chSchReadyI rlist fuel tp (set_u tp MSG_OK (ek s)) with
    | None => None
    | Some k => Some (set_ek k s)
    end
  else Some s.

Definition reschedule (s : estate) : option estate :=
  match chSchRescheduleS rlist fuel (ek s) with None => None | Some k => Some (set_ek k s) end.

Definition chEvtSignal (tp events : Z) (s : estate) : option estate :=
  match chEvtSignalI tp events s with None => None | Some s => reschedule s end.

Fixpoint broadcast_loop (n : nat) (esp flags elp : Z) (s : estate) : option estate :=
  match n with
  | O => None
  | S n =>
      if negb (elp =? esp) then
        let s := set_flags elp (Z.lor (el_flags s elp) flags) s in
        match
          if (flags =? 0) || negb (Z.land (el_flags s elp) (el_wflags s elp) =? 0)
          then chEvtSignalI (el_listener s elp) (el_events s elp) s
          else Some s
        with
        | None => None
        | Some s => broadcast_loop n esp flags (el_next s elp) s
        end
      else Some s
  end.
Definition chEvtBroadcastFlagsI (esp flags : Z) (s : estate) : option estate :=
  broadcast_loop fuel esp flags (el_next s esp) s.
Definition chEvtBroadcastFlags (esp flags : Z) (s : estate) : option estate :=
  match chEvtBroadcastFlagsI esp flags s with None => None | Some s => reschedule s end.
Definition chEvtBroadcastI (esp : Z) : estate -> option estate := chEvtBroadcastFlagsI esp 0.
Definition chEvtBroadcast (esp : Z) : estate -> option estate := chEvtBroadcastFlags esp 0.

(** ** Waiting; [None] is a thread that sleeps *)

Definition lowest (m : Z) : Z := Z.lxor m (Z.land m (u32 (m - 1))).

(** [ctp->p_epending &= ~m], and the return of [m]. *)
Definition take_events (m : Z) (s : estate) : Z * estate :=
  (m, set_pending (currp s) (Z.ldiff (p_epending s (currp s)) m) s).

Definition sleep_for (st : tstate) (events : Z) (s : estate) : estate :=
  set_ek (chSchGoSleepS rlist st (set_u (currp s) events (ek s))) s.
Definition sleep_for_timeout (st : tstate) (events time : Z) (s : estate) : estate :=
  set_ek (chSchGoSleepTimeoutS rlist st time (set_u (currp s) events (ek s))) s.

Definition wait_one_resume (events : Z) (s : estate) : Z * estate :=
  let m := Z.land (p_epending s (currp s)) events in
  take_events (lowest m) s.
Definition chEvtWaitOne (events : Z) (s : estate) : option Z * estate :=
  let m := Z.land (p_epending s (currp s)) events in
  if m =? 0 then (None, sleep_for CH_STATE_WTOREVT events s)
  else let '(m, s) := take_events (lowest m) s in (Some m, s).

Definition wait_any_resume (events : Z) (s : estate) : Z * estate :=
  let m := Z.land (p_epending s (currp s)) events in
  take_events m s.
Definition chEvtWaitAny (events : Z) (s : estate) : option Z * estate :=
  let m := Z.land (p_epending s (currp s)) events in
  if m =? 0 then (None, sleep_for CH_STATE_WTOREVT events s)
  else let '(m, s) := take_events m s in (Some m, s).

Definition wait_all_resume (events : Z) (s : estate) : Z * estate := take_events events s.
Definition chEvtWaitAll (events : Z) (s : estate) : option Z * estate :=
  if negb (Z.land (p_epending s (currp s)) events =? events) then (None, sleep_for CH_STATE_WTANDEVT events s)
  else let '(m, s) := take_events events s in (Some m, s).

(** The message with which the running thread was woken. *)
Definition rdymsg (s : estate) : Z := p_u (ek s) (currp s).
Definition unless_timeout (resume : estate -> Z * estate) (s : estate) : Z * estate :=
  if rdymsg s <? MSG_OK then (0, s) else resume s.

Definition wait_one_timeout_resume (events : Z) := unless_timeout (wait_one_resume events).
Definition chEvtWaitOneTimeout (events time : Z) (s : estate) : option Z * estate :=
  let m := Z.land (p_epending s (currp s)) events in
  if m =? 0 then
    if time =? TIME_IMMEDIATE then (Some 0, s) else (None, sleep_for_timeout CH_STATE_WTOREVT events time s)
  else let '(m, s) := take_events (lowest m) s in (Some m, s).

Definition wait_any_timeout_resume (events : Z) := unless_timeout (wait_any_resume events).
Definition chEvtWaitAnyTimeout (events time : Z) (s : estate) : option Z * estate :=
  let m := Z.land (p_epending s (currp s)) events in
  if m =? 0 then
    if time =? TIME_IMMEDIATE then (Some 0, s) else (None, sleep_for_timeout CH_STATE_WTOREVT events time s)
  else let '(m, s) := take_events m s in (Some m, s).

Definition wait_all_timeout_resume (events : Z) := unless_timeout (wait_all_resume events).
Definition chEvtWaitAllTimeout (events time : Z) (s : estate) : option Z * estate :=
  if negb (Z.land (p_epending s (currp s)) events =? events) then
    if time =? TIME_IMMEDIATE then (Some 0, s) else (None, sleep_for_timeout CH_STATE_WTANDEVT events time s)
  else let '(m, s) := take_events events s in (Some m, s).
End Events.

(** ** Dispatching events to handlers *)

Section Dispatch.
Context {S : Type} (handlers : Z -> S -> option S).

(** The handlers act on a state; [None] is a handler that does not return.  [eid] counts
    from 0. *)
Fixpoint dispatch_loop (n : nat) (eid events : Z) (s : S) : option S :=
  match n with
  | O => None
  | Datatypes.S n =>
      if negb (events =? 0) then
        if negb (Z.land events (EVENT_MASK eid) =? 0) then
          match handlers eid s with
          | None => None
          | Some s => dispatch_loop n (s32 (eid + 1)) (Z.ldiff events (EVENT_MASK eid)) s
          end
        else dispatch_loop n (s32 (eid + 1)) events s
      else Some s
  end.
Definition chEvtDispatch (n : nat) (events : Z) : S -> option S := dispatch_loop n 0 events.
End Dispatch.

(** ** Lists of listeners *)

(** [next] leads from [a] through [l] to [b]. *)
Fixpoint chain (next : Z -> Z) (a : Z) (l : list Z) (b : Z) : Prop :=
  match l with
  | [] => next a = b
  | x :: l => next a = x /\ chain next x l b
  end.

Lemma chain_upd next y v b : forall l a, chain next a l b -> ~ In y (a :: l) -> chain (upd y v next) a l b.
Proof.
  induction l as [|x l IH]; intros a H Hy; cbn in *.
  - rewrite upd_ne; [done|]. intros ->. auto.
  - destruct H as [H1 H2]. split; [rewrite upd_ne; [done|intros ->; auto]|]. apply IH; [done|]. cbn. tauto.
Qed.

Lemma evt_chain_ext (next next' : Z -> Z) b : forall l a, chain next a l b ->
  (forall x, In x (a :: l) -> next' x = next x) -> chain next' a l b.
Proof.
  induction l as [|x l IH]; intros a H E; cbn in *.
  - rewrite E; [done|auto].
  - destruct H as [H1 H2]. split; [rewrite E; [done|auto]|]. apply IH; [done|]. intros y Hy. apply E. auto.
Qed.

(** The element behind [p] is unlinked. *)
Lemma chain_skip next p x b l : chain next x l b -> ~ In p (x :: l) -> chain (upd p (next x) next) p l b.
Proof.
  intros H Hp. destruct l as [|y l]; cbn in *.
  - by rewrite upd_eq.
  - destruct H as [H1 H2]. rewrite upd_eq. split; [done|]. apply chain_upd; [done|]. cbn. tauto.
Qed.

(** The sources and the listeners registered on each. *)
Record sources_ok (fuel : nat) (s : estate) (R : gmap Z (list Z)) : Prop := {
  so_chain : forall esp l, R !! esp = Some l -> chain (el_next s) esp l esp /\ NoDup (esp :: l) /\ (length l < fuel)%nat;
  so_apart : forall e1 l1 e2 l2 x, R !! e1 = Some l1 -> R !! e2 = Some l2 ->
    In x (e1 :: l1) -> In x (e2 :: l2) -> e1 = e2
}.

Definition unregistered (R : gmap Z (list Z)) (elp : Z) : Prop := forall esp l, R !! esp = Some l -> ~ In elp (esp :: l).

Lemma nodup_in (x : Z) l : NoDup (x :: l) -> ~ In x l /\ NoDup l.
Proof. intros [H1 H2]%list.NoDup_cons. by rewrite list_elem_of_In in H1. Qed.

(** One list changes. *)
Lemma sources_set fuel s s' R esp l l' : sources_ok fuel s R -> R !! esp = Some l ->
  chain (el_next s') esp l' esp -> NoDup (esp :: l') -> (length l' < fuel)%nat ->
  (forall x, In x l' -> In x l \/ unregistered R x) ->
  (forall e2 l2 x, e2 <> esp -> R !! e2 = Some l2 -> In x (e2 :: l2) -> el_next s' x = el_next s x) ->
  sources_ok fuel s' (<[esp := l']> R).
Proof.
  intros [Hc Ha] Hl Hc' Hn Hf Hin Ho.
  assert (Hfresh : forall e2 l2 x, e2 <> esp -> R !! e2 = Some l2 -> In x (e2 :: l2) -> ~ In x (esp :: l')).
  { intros e2 l2 x Hne H2 Hx [->|Hx'].
    - apply Hne. apply (Ha e2 l2 x l x H2 Hl Hx). by left.
    - destruct (Hin x Hx') as [Hx2|Hu]; [|by apply (Hu e2 l2)].
      apply Hne. apply (Ha e2 l2 esp l x H2 Hl Hx). by right. }
  constructor.
  - intros e2 l2 H2. destruct (decide (e2 = esp)) as [->|Hne].
    + rewrite lookup_insert_eq in H2. by injection H2 as <-.
    + rewrite lookup_insert_ne in H2 by auto. destruct (Hc e2 l2 H2) as [H3 H4]. split; [|done].
      apply (evt_chain_ext (el_next s)); [done|]. intros x. by apply Ho.
  - intros e1 l1 e2 l2 x H1 H2 X1 X2. destruct (decide (e1 = esp)) as [->|N1], (decide (e2 = esp)) as [->|N2]; [done|..].
    + rewrite lookup_insert_eq in H1. injection H1 as <-. rewrite lookup_insert_ne in H2 by auto.
      by destruct (Hfresh e2 l2 x N2 H2 X2).
    + rewrite lookup_insert_eq in H2. injection H2 as <-. rewrite lookup_insert_ne in H1 by auto.
      by destruct (Hfresh e1 l1 x N1 H1 X1).
    + rewrite lookup_insert_ne in H1, H2 by auto. by apply (Ha e1 l1 e2 l2 x).
Qed.

Lemma sources_ext fuel s s' R : sources_ok fuel s R -> el_next s' = el_next s -> sources_ok fuel s' R.
Proof. intros [H1 H2] E. constructor; [by rewrite E|done]. Qed.

Lemma register_ok fuel s R esp elp events wflags l : sources_ok fuel s R -> R !! esp = Some l ->
  unregistered R elp -> (S (length l) < fuel)%nat ->
  sources_ok fuel (chEvtRegisterMaskWithFlags esp elp events wflags s) (<[esp := elp :: l]> R).
Proof.
  intros Hs Hl Hu Hf. destruct (so_chain _ _ _ Hs esp l Hl) as (Hc & Hn & _). pose proof (Hu esp l Hl) as Hne.
  assert (elp <> esp) by (intros ->; apply Hne; by left).
  apply (sources_set fuel s _ R esp l); [done|done| | |done| |].
  - cbn. rewrite upd_eq. split; [done|].
    assert (Hk : chain (upd elp (el_next s esp) (el_next s)) elp l esp).
    { apply chain_skip; [done|]. by intros H'; apply Hne. }
    clear - Hk Hn Hne H. destruct (nodup_in _ _ Hn) as [Hnin _]. apply chain_upd; [done|].
    cbn. intros [->|?]; auto.
  - apply list.NoDup_cons. destruct (nodup_in _ _ Hn) as [H1 H2].
    split; [rewrite list_elem_of_In; cbn; intros [->|?]; auto|]. apply list.NoDup_cons.
    split; [rewrite list_elem_of_In; intros ?; apply Hne; by right|done].
  - intros x [<-|Hx]; [by right|by left].
  - intros e2 l2 x N2 H2 Hx. cbn. rewrite !upd_ne; [done|intros ->; by apply (Hu e2 l2)|].
    intros ->. apply N2. apply (so_apart _ _ _ Hs e2 l2 esp l esp); auto. by left.
Qed.

(** What an operation on the lists leaves alone. *)
Definition same_but_next (s s' : estate) : Prop :=
  ek s' = ek s /\ p_epending s' = p_epending s /\ el_listener s' = el_listener s /\ el_events s' = el_events s /\
  el_flags s' = el_flags s /\ el_wflags s' = el_wflags s.

Lemma unregister_loop_ok esp elp s : forall l n p, chain (el_next s) p l esp -> NoDup (p :: l) ->
  (p <> esp -> ~ In esp l) -> (p = esp -> ~ In esp l) -> (length l < n)%nat ->
  exists s', unregister_loop n esp elp p s = Some s' /\ chain (el_next s') p (filter (fun x => x <> elp) l) esp /\
    same_but_next s s' /\ forall x, ~ In x (p :: l) -> el_next s' x = el_next s x.
Proof.
  induction l as [|x l IH]; intros n p Hc Hn H1 H2 Hf; (destruct n as [|n]; [cbn in Hf; lia|]); cbn [unregister_loop].
  - cbn in Hc. rewrite Hc, Z.eqb_refl. by exists s.
  - destruct Hc as [Hx Hc]. rewrite Hx. destruct (nodup_in _ _ Hn) as [Hp Hn'].
    assert (Hne : ~ In esp (x :: l)) by (destruct (decide (p = esp)); auto).
    destruct (Z.eqb_spec x esp) as [->|_]; [by destruct Hne; left|]. cbn [negb].
    destruct (Z.eqb_spec x elp) as [->|Hxe].
    + eexists. split; [done|]. rewrite filter_cons_False by (by intros []).
      destruct (nodup_in _ _ Hn') as [Hx' _].
      assert (filter (fun x => x <> elp) l = l) as ->.
      { clear - Hx'. induction l as [|y l IH]; [done|]. rewrite filter_cons_True by (intros ->; apply Hx'; by left).
        f_equal. apply IH. intros ?. apply Hx'. by right. }
      split; [by apply chain_skip|split; [done|]]. intros y Hy. cbn. apply upd_ne. intros ->. apply Hy. by left.
    + destruct (IH n x Hc Hn') as (s' & -> & Hc' & Hs' & Ho).
      { intros _ ?. apply Hne. by right. }
      { intros _ ?. apply Hne. by right. }
      { cbn in Hf. lia. }
      exists s'. rewrite filter_cons_True by done. split; [done|split; [split|split; [done|]]].
      * rewrite Ho; [done|]. exact Hp.
      * done.
      * intros y Hy. apply Ho. cbn in *. tauto.
Qed.

Lemma unregister_ok fuel s R esp elp l : sources_ok fuel s R -> R !! esp = Some l ->
  exists s', chEvtUnregister fuel esp elp s = Some s' /\ same_but_next s s' /\
    sources_ok fuel s' (<[esp := filter (fun x => x <> elp) l]> R).
Proof.
  intros Hs Hl. destruct (so_chain _ _ _ Hs esp l Hl) as (Hc & Hn & Hf). destruct (nodup_in _ _ Hn) as [Hne _].
  destruct (unregister_loop_ok esp elp s l fuel esp Hc Hn) as (s' & E & Hc' & Hb & Ho); [done|done|done|].
  exists s'. split; [done|split; [done|]].
  assert (Hsub : forall x, In x (filter (fun x => x <> elp) l) -> In x l).
  { intros x Hx. apply list_elem_of_In, list_elem_of_filter in Hx as [_ Hx]. by apply list_elem_of_In. }
  apply (sources_set fuel s s' R esp l); [done|done|done| | | |].
  - apply list.NoDup_cons. split; [rewrite list_elem_of_In; auto|]. apply list.NoDup_filter.
    by destruct (nodup_in _ _ Hn).
  - pose proof (length_filter (fun x => x <> elp) l). lia.
  - intros x Hx. left. auto.
  - intros e2 l2 x N2 H2 Hx. apply Ho. intros Hx'. apply N2. by apply (so_apart _ _ _ Hs e2 l2 esp l x).
Qed.

Lemma init_source_ok fuel s R esp : sources_ok fuel s R -> unregistered R esp -> (0 < fuel)%nat ->
  sources_ok fuel (chEvtObjectInit esp s) (<[esp := []]> R).
Proof.
  intros [Hc Ha] Hu Hf. constructor.
  - intros e l H. destruct (decide (e = esp)) as [->|Hne].
    + rewrite lookup_insert_eq in H. injection H as <-. cbn. rewrite upd_eq. repeat split; [|lia].
      apply list.NoDup_singleton.
    + rewrite lookup_insert_ne in H by auto. destruct (Hc e l H) as [H1 H2]. split; [|done].
      apply chain_upd; [done|]. by apply Hu.
  - intros e1 l1 e2 l2 x H1 H2 X1 X2. destruct (decide (e1 = esp)) as [->|N1], (decide (e2 = esp)) as [->|N2]; [done|..].
    + rewrite lookup_insert_eq in H1. injection H1 as <-. rewrite lookup_insert_ne in H2 by auto.
      destruct X1 as [<-|[]]. by destruct (Hu e2 l2 H2).
    + rewrite lookup_insert_eq in H2. injection H2 as <-. rewrite lookup_insert_ne in H1 by auto.
      destruct X2 as [<-|[]]. by destruct (Hu e1 l1 H1).
    + rewrite lookup_insert_ne in H1, H2 by auto. by apply (Ha e1 l1 e2 l2 x).
Qed.

(** ** Signals and broadcasts *)

Lemma wait_over_awaits k p tp : wait_over k p tp = true -> awaits_events (p_state k tp) = true.
Proof. unfold wait_over. by destruct (p_state k tp). Qed.

(** More events keep a wait over. *)
Lemma wait_over_mono k p e tp : wait_over k p tp = true -> wait_over k (Z.lor p e) tp = true.
Proof.
  unfold wait_over. destruct (p_state k tp); try done; rewrite Z.land_lor_distr_l.
  - intros H. destruct (Z.eqb_spec (Z.land p (p_u k tp)) 0) as [|Hn]; [done|]. clear H.
    destruct (Z.eqb_spec (Z.lor (Z.land p (p_u k tp)) (Z.land e (p_u k tp))) 0) as [E|]; [|done].
    apply Z.lor_eq_0_iff in E. by destruct E.
  - intros ->%Z.eqb_eq. apply Z.eqb_eq. apply Z.bits_inj'. intros n _. rewrite Z.lor_spec, Z.land_spec.
    destruct (Z.testbit (p_u k tp) n), (Z.testbit e n); done.
Qed.

Section Signals.
Context (rlist idle : Z) (fuel : nat) (kind : gmap Z qkind) (G : ghost) (T : gset Z).
Notation kmid := (kmid rlist idle fuel kind G T None).

(** What an operation of an interrupt handler on the events leaves alone. *)
Definition same_cpu (k k' : kernel) : Prop :=
  r_current k' = r_current k /\ armed k' = armed k /\ p_preempt k' = p_preempt k /\ p_prio k' = p_prio k.

Lemma same_cpu_trans k1 k2 k3 : same_cpu k1 k2 -> same_cpu k2 k3 -> same_cpu k1 k3.
Proof. unfold same_cpu. intuition congruence. Qed.

(** The thread [tp] is woken by an event if its wait is over with the pending events [p]. *)
Definition woken (k k' : kernel) (p : Z) (tp : Z) : Prop :=
  if wait_over k p tp then p_state k' tp = CH_STATE_READY /\ p_u k' tp = MSG_OK
  else p_state k' tp = p_state k tp /\ p_u k' tp = p_u k tp.

Lemma signal_ok s qs tp events : kmid (ek s) qs -> tp ∈ T ->
  exists k' qs', chEvtSignalI rlist fuel tp events s =
      Some (set_ek k' (set_pending tp (Z.lor (p_epending s tp) events) s)) /\
    kmid k' qs' /\ same_cpu (ek s) k' /\ woken (ek s) k' (Z.lor (p_epending s tp) events) tp /\
    forall x, x <> tp -> p_state k' x = p_state (ek s) x /\ p_u k' x = p_u (ek s) x.
Proof.
  intros Hk Ht. unfold chEvtSignalI, woken. cbn [ek p_epending set_pending]. rewrite upd_eq.
  destruct (wait_over (ek s) (Z.lor (p_epending s tp) events) tp) eqn:E.
  - pose proof (wait_over_awaits _ _ _ E) as Ha. pose proof (km_run _ _ _ _ _ _ _ _ Hk) as (_ & Hs & _).
    assert (Hl : SchedOk.kmid rlist idle fuel kind G T (Some tp) (ek s) qs).
    { apply kmid_loose; [done|done|intros ->; by rewrite Hs in Ha|unfold loose; by destruct (p_state _ tp)|].
      intros E'. by rewrite E' in Ha. }
    destruct (wake_any rlist idle fuel kind G T _ _ tp MSG_OK Hl Ht) as (k' & qs' & -> & Hk' & Hc & Es & Eu & _).
    exists k', qs'. split; [done|split; [done|split; [done|]]]. rewrite Es, Eu. unfold upd. rewrite Z.eqb_refl.
    split; [done|]. intros x Hx. by rewrite (proj2 (Z.eqb_neq x tp) Hx).
  - exists (ek s), qs. split; [by destruct s|]. by split.
Qed.

(** The events that a broadcast of [flags] to the listeners [l] adds to the thread [tp]. *)
Definition triggered (s : estate) (flags x : Z) : bool :=
  (flags =? 0) || negb (Z.land (Z.lor (el_flags s x) flags) (el_wflags s x) =? 0).
Fixpoint broadcast_events (s : estate) (flags : Z) (l : list Z) (tp : Z) : Z :=
  match l with
  | [] => 0
  | x :: l =>
      Z.lor (if triggered s flags x && (el_listener s x =? tp) then el_events s x else 0)
        (broadcast_events s flags l tp)
  end.

Lemma broadcast_events_ext s s' flags tp : el_listener s' = el_listener s -> el_events s' = el_events s ->
  el_wflags s' = el_wflags s -> forall l, (forall x, In x l -> el_flags s' x = el_flags s x) ->
  broadcast_events s' flags l tp = broadcast_events s flags l tp.
Proof.
  intros E1 E2 E3. induction l as [|x l IH]; intros E; cbn; [done|].
  rewrite IH by (intros y Hy; apply E; by right). unfold triggered. by rewrite E1, E2, E3, E by (by left).
Qed.

Definition broadcast_done (s s' : estate) (flags : Z) (l : list Z) : Prop :=
  (forall x, el_flags s' x = if decide (x ∈ l) then Z.lor (el_flags s x) flags else el_flags s x) /\
  (forall tp, p_epending s' tp = Z.lor (p_epending s tp) (broadcast_events s flags l tp)) /\
  el_next s' = el_next s /\ el_listener s' = el_listener s /\ el_events s' = el_events s /\
  el_wflags s' = el_wflags s.

(** A thread gets [e1], then [e2]. *)
Lemma woken_trans k k1 k2 p e tp : woken k k1 p tp -> woken k1 k2 (Z.lor p e) tp -> woken k k2 (Z.lor p e) tp.
Proof.
  unfold woken. destruct (wait_over k p tp) eqn:E.
  - rewrite (wait_over_mono k p e tp E). intros [E1 E2]. unfold wait_over. rewrite E1. by intros [-> ->].
  - intros [E1 E2]. unfold wait_over. by rewrite E1, E2.
Qed.

Lemma woken_same k k' p tp : p_state k' tp = p_state k tp -> p_u k' tp = p_u k tp -> wait_over k p tp = false ->
  woken k k' p tp.
Proof. intros E1 E2 E3. unfold woken. by rewrite E3. Qed.


Lemma evt_broadcast_loop_ok esp flags : forall l n elp s qs,
  (match l with [] => elp = esp | x :: r => elp = x /\ chain (el_next s) x r esp end) ->
  ~ In esp l -> NoDup l -> (length l < n)%nat -> kmid (ek s) qs -> (forall x, In x l -> el_listener s x ∈ T) ->
  (forall tp, tp ∈ T -> wait_over (ek s) (p_epending s tp) tp = false) ->
  exists s' qs', broadcast_loop rlist fuel n esp flags elp s = Some s' /\ kmid (ek s') qs' /\
    same_cpu (ek s) (ek s') /\ broadcast_done s s' flags l /\
    (forall tp, tp ∈ T -> woken (ek s) (ek s') (p_epending s' tp) tp) /\
    (forall x, x ∉ T -> p_state (ek s') x = p_state (ek s) x /\ p_u (ek s') x = p_u (ek s) x).
Proof.
  induction l as [|x l IH]; intros n elp s qs Hc Hne Hnd Hn Hk Hlis Hw; (destruct n as [|n]; [cbn in Hn; lia|]);
    cbn [broadcast_loop].
  - subst elp. rewrite Z.eqb_refl. cbn [negb]. exists s, qs. split; [done|split; [done|split; [done|split]]].
    + split; [done|split; [|done]]. intros tp. cbn. by rewrite Z.lor_0_r.
    + split; [|done]. intros tp Ht. apply woken_same; auto.
  - destruct Hc as [-> Hc]. destruct (Z.eqb_spec x esp) as [->|_]; [by destruct Hne; left|]. cbn [negb].
    destruct (nodup_in _ _ Hnd) as [Hx Hnd']. set (s1 := set_flags x (Z.lor (el_flags s x) flags) s).
    assert (Et : (flags =? 0) || negb (Z.land (el_flags s1 x) (el_wflags s1 x) =? 0) = triggered s flags x).
    { unfold triggered, s1. cbn. by rewrite upd_eq. }
    rewrite Et.
    assert (Hstep : exists s2 qs2, (if triggered s flags x then chEvtSignalI rlist fuel (el_listener s1 x) (el_events s1 x) s1
        else Some s1) = Some s2 /\ kmid (ek s2) qs2 /\ same_cpu (ek s) (ek s2) /\ el_next s2 = el_next s /\
      el_listener s2 = el_listener s /\ el_events s2 = el_events s /\ el_wflags s2 = el_wflags s /\
      el_flags s2 = upd x (Z.lor (el_flags s x) flags) (el_flags s) /\
      (forall tp, p_epending s2 tp = Z.lor (p_epending s tp)
        (if triggered s flags x && (el_listener s x =? tp) then el_events s x else 0)) /\
      (forall tp, tp ∈ T -> woken (ek s) (ek s2) (p_epending s2 tp) tp) /\
      (forall y, y ∉ T -> p_state (ek s2) y = p_state (ek s) y /\ p_u (ek s2) y = p_u (ek s) y)).
    { destruct (triggered s flags x); cbn [andb].
      - assert (HT : el_listener s x ∈ T) by (apply Hlis; by left).
        destruct (signal_ok s1 qs (el_listener s x) (el_events s x) Hk HT) as (k' & qs' & E & Hk' & Hcpu & Hwk & Ho).
        eexists _, qs'. split; [exact E|]. cbn. do 7 (split; [done|]). split; [|split].
        + intros tp. unfold upd. rewrite (Z.eqb_sym (el_listener s x) tp). destruct (Z.eqb_spec tp (el_listener s x)) as [->|].
          * done.
          * by rewrite Z.lor_0_r.
        + intros tp Ht. unfold upd. destruct (Z.eqb_spec tp (el_listener s x)) as [->|Hne']; [exact Hwk|].
          destruct (Ho tp Hne'). apply woken_same; auto.
        + intros y Hy. apply Ho. intros ->. done.
      - exists s1, qs. cbn. do 8 (split; [done|]). split; [intros tp; by rewrite Z.lor_0_r|]. split; [|done].
        intros tp Ht. apply woken_same; auto. }
    destruct Hstep as (s2 & qs2 & -> & Hk2 & Hcpu2 & En & El & Ev & Ew & Ef & Ep & Hw2 & Ho2). rewrite En.
    destruct (IH n (el_next s x) s2 qs2) as (s' & qs' & E & Hk' & Hcpu' & (Df & Dp & Dn & Dl & De & Dw) & Hw' & Ho').
    { rewrite En. destruct l as [|y l]; cbn in Hc; [done|]. destruct Hc as [-> Hc]. done. }
    { intros ?. apply Hne. by right. }
    { done. }
    { cbn in Hn. lia. }
    { done. }
    { intros y Hy. rewrite El. apply Hlis. by right. }
    { intros tp Ht. specialize (Hw2 tp Ht). unfold woken in Hw2. destruct (wait_over (ek s) _ tp) eqn:E'.
      - destruct Hw2 as [E1 _]. unfold wait_over. by rewrite E1.
      - destruct Hw2 as [E1 E2]. unfold wait_over in *. by rewrite E1, E2. }
    exists s', qs'. split; [done|split; [done|split; [by apply (same_cpu_trans _ (ek s2))|]]].
    assert (Eb : forall tp, p_epending s' tp = Z.lor (p_epending s2 tp) (broadcast_events s flags l tp)).
    { intros tp. rewrite Dp. f_equal. apply broadcast_events_ext; [done..|]. intros y Hy. rewrite Ef.
      apply upd_ne. intros ->. done. }
    split; [split; [|split; [|by rewrite Dn, Dl, De, Dw]]|split].
    + intros y. rewrite Df, Ef. unfold upd. destruct (Z.eqb_spec y x) as [->|Hyx].
      * rewrite (decide_False (P := x ∈ l)) by (by rewrite list_elem_of_In).
        rewrite decide_True by (apply list_elem_of_In; by left). done.
      * destruct (decide (y ∈ l)) as [Hy|Hy]; [rewrite decide_True|rewrite decide_False]; try done.
        -- apply list_elem_of_In. right. by apply list_elem_of_In.
        -- rewrite list_elem_of_In in *. intros [->|?]; auto.
    + intros tp. rewrite Eb, Ep. cbn [broadcast_events]. by rewrite Z.lor_assoc.
    + intros tp Ht. rewrite Eb. apply (woken_trans _ (ek s2)); [by apply Hw2|]. rewrite <- Eb. by apply Hw'.
    + intros y Hy. destruct (Ho' y Hy) as [-> ->]. by apply Ho2.
Qed.

Lemma broadcast_ok s qs R esp flags l : kmid (ek s) qs -> sources_ok fuel s R -> R !! esp = Some l ->
  (forall x, In x l -> el_listener s x ∈ T) ->
  (forall tp, tp ∈ T -> wait_over (ek s) (p_epending s tp) tp = false) ->
  exists s' qs', chEvtBroadcastFlagsI rlist fuel esp flags s = Some s' /\ kmid (ek s') qs' /\
    same_cpu (ek s) (ek s') /\ broadcast_done s s' flags l /\
    (forall tp, tp ∈ T -> woken (ek s) (ek s') (p_epending s' tp) tp) /\
    (forall x, x ∉ T -> p_state (ek s') x = p_state (ek s) x /\ p_u (ek s') x = p_u (ek s) x).
Proof.
  intros Hk Hs Hl Hlis Hw. destruct (so_chain _ _ _ Hs esp l Hl) as (Hc & Hn & Hf).
  destruct (nodup_in _ _ Hn) as [Hne Hnd]. apply (evt_broadcast_loop_ok esp flags l fuel (el_next s esp) s qs); try done.
  destruct l as [|x l]; [done|]. exact Hc.
Qed.
End Signals.

(** ** What an operation does to a thread that it does not run in *)

Record bystander (tp : Z) (s s' : estate) : Prop := {
  by_waits : awaits_events (p_state (ek s) tp) = true ->
    p_state (ek s') tp = p_state (ek s) tp /\ p_u (ek s') tp = p_u (ek s) tp /\
      (wait_over (ek s) (p_epending s tp) tp = false -> wait_over (ek s) (p_epending s' tp) tp = false) \/
    runnable (p_state (ek s') tp) = true /\ p_u (ek s') tp = MSG_OK /\
      wait_over (ek s) (p_epending s' tp) tp = true \/
    runnable (p_state (ek s') tp) = true /\ p_u (ek s') tp = MSG_TIMEOUT /\ armed (ek s) tp = true;
  by_runs : runnable (p_state (ek s) tp) = true ->
    runnable (p_state (ek s') tp) = true /\ p_u (ek s') tp = p_u (ek s) tp;
  by_events : exists e, p_epending s' tp = Z.lor (p_epending s tp) e;
  by_armed : armed (ek s') tp = true -> armed (ek s) tp = true;
  by_sleeps : awaits_events (p_state (ek s') tp) = true -> awaits_events (p_state (ek s) tp) = true
}.

Lemma wait_over_ext k k' p tp : p_state k' tp = p_state k tp -> p_u k' tp = p_u k tp ->
  wait_over k' p tp = wait_over k p tp.
Proof. intros E1 E2. unfold wait_over. by rewrite E1, E2. Qed.

Lemma lor_self_0 p : p = Z.lor p 0.
Proof. by rewrite Z.lor_0_r. Qed.

(** The thread is left alone. *)
Lemma bystander_same tp s s' : p_state (ek s') tp = p_state (ek s) tp -> p_u (ek s') tp = p_u (ek s) tp ->
  p_epending s' tp = p_epending s tp -> (armed (ek s') tp = true -> armed (ek s) tp = true) -> bystander tp s s'.
Proof.
  intros E1 E2 E3 E4. constructor; try done.
  - intros _. left. by rewrite E3.
  - intros H. by rewrite E1.
  - exists 0. by rewrite E3, <- lor_self_0.
  - by rewrite E1.
Qed.

Lemma bystander_trans tp s1 s2 s3 : bystander tp s1 s2 -> bystander tp s2 s3 -> bystander tp s1 s3.
Proof.
  intros [W1 R1 [e1 E1] A1 S1] [W2 R2 [e2 E2] A2 S2]. constructor; auto.
  - intros Ha. destruct (W1 Ha) as [(H1 & H2 & H3)|[(H1 & H2 & H3)|(H1 & H2 & H3)]].
    + rewrite H1 in W2. destruct (W2 Ha) as [(K1 & K2 & K3)|[(K1 & K2 & K3)|(K1 & K2 & K3)]].
      * left. rewrite K1, K2. split; [done|split; [done|]]. intros H. specialize (H3 H).
        rewrite <- (wait_over_ext (ek s1) (ek s2) _ tp H1 H2) in H3. apply K3 in H3.
        by rewrite (wait_over_ext (ek s1) (ek s2) _ tp H1 H2) in H3.
      * right; left. by rewrite (wait_over_ext (ek s1) (ek s2) _ tp H1 H2) in K3.
      * right; right. auto.
    + right; left. destruct (R2 H1) as [K1 ->]. split; [done|split; [done|]]. rewrite E2. by apply wait_over_mono.
    + right; right. by destruct (R2 H1) as [K1 ->].
  - intros Hr. destruct (R1 Hr) as [H1 H2]. destruct (R2 H1) as [H3 ->]. done.
  - exists (Z.lor e1 e2). by rewrite E2, E1, Z.lor_assoc.
Qed.

(** A change of the kernel that does not concern the events. *)
Lemma bystander_moved T c tp s k' : (armed k' tp = true -> armed (ek s) tp = true \/ tp = c) ->
  moved_thread T c (ek s) k' tp -> tp ∈ T -> tp <> c -> bystander tp s (set_ek k' s).
Proof.
  intros Ha Hm Ht Hc. constructor; cbn.
  - intros Hw. left. destruct Hm as [[E1 [E2|[E2 _]]]|[[E1 _]|[[E1 _]|[E1 _]]]]; try done;
      by destruct (p_state (ek s) tp).
  - intros Hr. destruct Hm as [[E1 [E2|[E2 E3]]]|[[E1 _]|[[E1 _]|[E1 _]]]]; try done; [by rewrite E2|].
    by destruct (p_state (ek s) tp).
  - exists 0. apply lor_self_0.
  - intros Hx. destruct (Ha Hx); [done|by destruct Hc].
  - intros Hw. destruct Hm as [[E1 [E2|[_ E2]]]|[[_ E2]|[[E1 _]|[E1 _]]]]; try done; [by rewrite <- E2|..];
      by destruct (p_state k' tp).
Qed.

Lemma bystander_isr o tp s k' : isr_moves o (ek s) k' ->
  (p_state (ek s) tp = CH_STATE_CURRENT -> tp = currp s) -> bystander tp s (set_ek k' s).
Proof.
  intros [_ H] Hone.
  assert (Hcalm : armed k' = armed (ek s) /\ calm (p_state (ek s)) (p_state k') (p_u (ek s)) (p_u k') ->
    bystander tp s (set_ek k' s)).
  { intros [Ea Hm]. destruct (calm_moved {[tp]} (tp + 1) _ _ Ea Hm tp).
    apply (bystander_moved {[tp]} (tp + 1)); [done|done|set_solver|lia]. }
  destruct o; try (by apply Hcalm). destruct H as (Hne & Ha & Ea & Ht). unfold timed_out in Ht.
  destruct (decide (tp = tp0)) as [->|Hx].
  - case_decide as Hr.
    + destruct Ht as [E1 E2]. apply bystander_same; cbn; [by rewrite E1|by rewrite E2|done|by rewrite Ea, upd_eq].
    + destruct Ht as [E1 E2]. constructor; cbn; rewrite ?E1, ?E2, ?Ea, ?upd_eq; try done.
      * intros _. right; right. done.
      * destruct (p_state (ek s) tp0) eqn:E; try done. by destruct Hne; apply Hone.
      * exists 0. apply lor_self_0.
  - apply bystander_same; cbn; [..|done|]; case_decide; destruct Ht as [E1 E2]; rewrite ?E1, ?E2, ?Ea, ?upd_ne by done; done.
Qed.

(** Events are signalled. *)
Lemma bystander_woken tp s s' : woken (ek s) (ek s') (p_epending s' tp) tp ->
  (exists e, p_epending s' tp = Z.lor (p_epending s tp) e) -> armed (ek s') = armed (ek s) -> bystander tp s s'.
Proof.
  unfold woken. intros H He Ea. constructor; [| |done|by rewrite Ea|].
  - intros Hw. destruct (wait_over _ _ _) eqn:E; destruct H as [E1 E2].
    + right; left. by rewrite E1.
    + by left.
  - intros Hr. assert (wait_over (ek s) (p_epending s' tp) tp = false) as E.
    { unfold wait_over. by destruct (p_state (ek s) tp). }
    rewrite E in H. by destruct H as [-> ->].
  - intros Hw. destruct (wait_over _ _ _) eqn:E; destruct H as [E1 E2]; [by rewrite E1 in Hw|by rewrite <- E1].
Qed.

(** ** Waits, uniformly *)

Inductive condition : Set := One | Any | All.

Definition wait_state (c : condition) : tstate :=
  match c with All => CH_STATE_WTANDEVT | _ => CH_STATE_WTOREVT end.

(** The pending events [p] fulfil the condition on the events [m], and those that the wait
    takes. *)
Definition satisfied (c : condition) (m p : Z) : bool :=
  match c with All => Z.land p m =? m | _ => negb (Z.land p m =? 0) end.
Definition selected (c : condition) (m p : Z) : Z :=
  match c with One => lowest (Z.land p m) | Any => Z.land p m | All => m end.

Section Waits.
Context (rlist : Z).

Definition run_wait (c : condition) (m : Z) (time : option Z) : estate -> option Z * estate :=
  match c, time with
  | One, None => chEvtWaitOne rlist m | One, Some t => chEvtWaitOneTimeout rlist m t
  | Any, None => chEvtWaitAny rlist m | Any, Some t => chEvtWaitAnyTimeout rlist m t
  | All, None => chEvtWaitAll rlist m | All, Some t => chEvtWaitAllTimeout rlist m t
  end.
Definition run_resume (c : condition) (m : Z) (timed : bool) : estate -> Z * estate :=
  match c, timed with
  | One, false => wait_one_resume m | One, true => wait_one_timeout_resume m
  | Any, false => wait_any_resume m | Any, true => wait_any_timeout_resume m
  | All, false => wait_all_resume m | All, true => wait_all_timeout_resume m
  end.

Definition sleep_with (st : tstate) (m : Z) (time : option Z) : estate -> estate :=
  match time with None => sleep_for rlist st m | Some t => sleep_for_timeout rlist st m t end.

(** A wait that finds its condition fulfilled takes the events at once. *)
Lemma run_wait_cases c m time s : let p := p_epending s (currp s) in
  run_wait c m time s =
    if satisfied c m p then (Some (selected c m p), set_pending (currp s) (Z.ldiff p (selected c m p)) s)
    else match time with
         | Some 0 => (Some 0, s)
         | _ => (None, sleep_with (wait_state c) m time s)
         end.
Proof.
  cbv zeta. assert (Ht : forall A (x y : A) t, (if t =? TIME_IMMEDIATE then x else y) = match t with 0 => x | _ => y end).
  { intros A x y t. destruct (Z.eqb_spec t TIME_IMMEDIATE) as [->|]; [done|]. by destruct t. }
  destruct c; cbn [run_wait satisfied selected wait_state]; (destruct time as [t|];
    unfold chEvtWaitOne, chEvtWaitOneTimeout, chEvtWaitAny, chEvtWaitAnyTimeout, chEvtWaitAll,
       chEvtWaitAllTimeout, take_events);
    first [destruct (Z.land _ m =? 0)|destruct (Z.land _ m =? m)]; cbn [negb]; try done; by rewrite Ht.
Qed.

Lemma run_resume_cases c m timed s : run_resume c m timed s =
  if timed && (rdymsg s <? MSG_OK) then (0, s)
  else let p := p_epending s (currp s) in
    (selected c m p, set_pending (currp s) (Z.ldiff p (selected c m p)) s).
Proof.
  destruct c, timed; cbn [run_resume andb]; try done;
    unfold wait_one_timeout_resume, wait_any_timeout_resume, wait_all_timeout_resume, unless_timeout;
    by destruct (_ <? _).
Qed.
End Waits.

(** ** Sequences of operations *)

Inductive eisr : Type :=
  | EPlain (o : isr_op) | ESignalI (tp events : Z) | EBroadcastI (esp flags : Z) | EGetFlagsI (elp : Z).

Inductive ecall : Type :=
  | EKernel (c : syscall) | ESignal (tp events : Z) | EBroadcast (esp flags : Z) | EInit (esp : Z)
  | ERegister (esp elp events wflags : Z) | EUnregister (esp elp : Z) | EGetEvents (events : Z)
  | EAddEvents (events : Z) | EGetFlags (elp : Z) | EWait (c : condition) (events : Z) (time : option Z)
  | EResume (c : condition) (events : Z) (timed : bool).

Inductive eevent : Type := ECall (c : ecall) | EIrq (os : list eisr).

Section Runs.
Context (rlist idle : Z) (fuel : nat) (kind : gmap Z qkind).
Notation kmid := (kmid rlist idle fuel kind).
Notation top := (top rlist).

Definition on_kernel (f : kernel -> option kernel) (s : estate) : option estate :=
  match f (ek s) with None => None | Some k => Some (set_ek k s) end.

Definition run_eisr (o : eisr) (s : estate) : option estate :=
  match o with
  | EPlain o => on_kernel (run_isr rlist fuel o) s
  | ESignalI tp events => chEvtSignalI rlist fuel tp events s
  | EBroadcastI esp flags => chEvtBroadcastFlagsI rlist fuel esp flags s
  | EGetFlagsI elp => Some (snd (chEvtGetAndClearFlagsI elp s))
  end.

Fixpoint run_eisrs (os : list eisr) (s : estate) : option estate :=
  match os with
  | [] => Some s
  | o :: os => match run_eisr o s with None => None | Some s => run_eisrs os s end
  end.

(** A new thread starts without pending events (_thread_init). *)
Definition new_thread (c : syscall) (s : estate) : estate :=
  match c with Create tp _ => set_pending tp 0 s | _ => s end.

Definition run_ecall (c : ecall) (s : estate) : option estate :=
  match c with
  | EKernel c => on_kernel (run_call rlist fuel c) (new_thread c s)
  | ESignal tp events => chEvtSignal rlist fuel tp events s
  | EBroadcast esp flags => chEvtBroadcastFlags rlist fuel esp flags s
  | EInit esp => Some (chEvtObjectInit esp s)
  | ERegister esp elp events wflags => Some (chEvtRegisterMaskWithFlags esp elp events wflags s)
  | EUnregister esp elp => chEvtUnregister fuel esp elp s
  | EGetEvents events => Some (snd (chEvtGetAndClearEvents events s))
  | EAddEvents events => Some (snd (chEvtAddEvents events s))
  | EGetFlags elp => Some (snd (chEvtGetAndClearFlags elp s))
  | EWait c events time => Some (snd (run_wait rlist c events time s))
  | EResume c events timed => Some (snd (run_resume c events timed s))
  end.

Definition run_eevent (e : eevent) (s : estate) : option estate :=
  match match e with
        | ECall c => run_ecall c s
        | EIrq os => match run_eisrs os s with None => None | Some s => on_kernel (irq_epilogue rlist fuel) s end
        end with
  | None => None
  | Some s => Some (set_ek (timeout_resume (ek s)) s)
  end.

Fixpoint run_eevents (es : list eevent) (s : estate) : option estate :=
  match es with
  | [] => Some s
  | e :: es => match run_eevent e s with None => None | Some s => run_eevents es s end
  end.

(** What the callers must respect; the listeners of each source are [R]. *)
Definition valid_eisr (T : gset Z) (R : gmap Z (list Z)) (s : estate) (o : eisr) : Prop :=
  match o with
  | EPlain o => valid_isr kind (ek s) o
  | ESignalI tp _ => tp ∈ T
  | EBroadcastI esp _ => is_Some (R !! esp)
  | EGetFlagsI _ => True
  end.

Fixpoint valid_eisrs (T : gset Z) (R : gmap Z (list Z)) (s : estate) (os : list eisr) : Prop :=
  match os with
  | [] => True
  | o :: os => valid_eisr T R s o /\ forall s', run_eisr o s = Some s' -> valid_eisrs T R s' os
  end.

Definition valid_ecall (T : gset Z) (R : gmap Z (list Z)) (s : estate) (c : ecall) : Prop :=
  match c with
  | EKernel c => valid_call idle fuel kind T (ek s) c
  | ESignal tp _ => tp ∈ T
  | EBroadcast esp _ | EUnregister esp _ => is_Some (R !! esp)
  | EInit esp => unregistered R esp
  | ERegister esp elp _ _ => exists l, R !! esp = Some l /\ unregistered R elp /\ (S (length l) < fuel)%nat
  | EWait _ _ _ => currp s <> idle
  | _ => True
  end.

Definition valid_eevent (T : gset Z) (R : gmap Z (list Z)) (s : estate) (e : eevent) : Prop :=
  match e with ECall c => valid_ecall T R s c | EIrq os => valid_eisrs T R s os end.

Definition ethreads_after (e : eevent) (T : gset Z) : gset Z :=
  match e with ECall (EKernel c) => threads_after (Call c) T | _ => T end.

(** The listeners of the sources after an event. *)
Definition sources_after (e : eevent) (R : gmap Z (list Z)) : gmap Z (list Z) :=
  match e with
  | ECall (EInit esp) => <[esp := []]> R
  | ECall (ERegister esp elp _ _) => <[esp := elp :: default [] (R !! esp)]> R
  | ECall (EUnregister esp elp) => <[esp := filter (fun x => x <> elp) (default [] (R !! esp))]> R
  | _ => R
  end.

Fixpoint valid_eevents (T : gset Z) (R : gmap Z (list Z)) (s : estate) (es : list eevent) : Prop :=
  match es with
  | [] => True
  | e :: es => valid_eevent T R s e /\
      forall s', run_eevent e s = Some s' -> valid_eevents (ethreads_after e T) (sources_after e R) s' es
  end.

(** No thread sleeps while its condition holds. *)
Definition no_lost (T : gset Z) (s : estate) : Prop :=
  forall tp, tp ∈ T -> wait_over (ek s) (p_epending s tp) tp = false.

Record events_ok (G : ghost) (T : gset Z) (R : gmap Z (list Z)) (s : estate) (qs : gmap Z (list Z)) : Prop := {
  eo_mid : kmid G T None (ek s) qs;
  eo_lost : no_lost T s;
  eo_sources : sources_ok fuel s R;
  eo_listeners : forall esp l x, R !! esp = Some l -> In x l -> el_listener s x ∈ T
}.

Definition estate_ok (T : gset Z) (R : gmap Z (list Z)) (s : estate) : Prop :=
  exists G qs, events_ok G T R s qs /\ top (ek s) qs /\ quiet (ek s).

(** A bystander does not come to sleep while its condition holds. *)
Lemma bystander_lost tp s s' : bystander tp s s' -> wait_over (ek s) (p_epending s tp) tp = false ->
  wait_over (ek s') (p_epending s' tp) tp = false.
Proof.
  intros [W _ _ _ S] H. destruct (awaits_events (p_state (ek s') tp)) eqn:E.
  - specialize (S eq_refl). destruct (W S) as [(E1 & E2 & H3)|[(H1 & _)|(H1 & _)]].
    + rewrite (wait_over_ext (ek s)) by done. auto.
    + by destruct (p_state (ek s') tp).
    + by destruct (p_state (ek s') tp).
  - unfold wait_over. by destruct (p_state (ek s') tp).
Qed.

Lemma awake_lost s tp : awaits_events (p_state (ek s) tp) = false -> wait_over (ek s) (p_epending s tp) tp = false.
Proof. unfold wait_over. by destruct (p_state (ek s) tp). Qed.

Lemma current_awake G T k qs : kmid G T None k qs -> awaits_events (p_state k (r_current k)) = false.
Proof. intros [_ (_ & -> & _) _]. done. Qed.

(** The lists and the listeners of a state in which only the rest changed. *)
Lemma events_ok_kernel G G' T R s s' qs qs' : events_ok G T R s qs -> kmid G' T None (ek s') qs' -> no_lost T s' ->
  el_next s' = el_next s -> el_listener s' = el_listener s -> events_ok G' T R s' qs'.
Proof.
  intros [_ _ H1 H2] Hk Hl E1 E2. constructor; [done|done|by apply (sources_ext fuel s)|]. by rewrite E2.
Qed.

(** A broadcast to a registered source. *)
Lemma broadcast_eok G T R s qs esp flags : events_ok G T R s qs -> is_Some (R !! esp) ->
  exists s' qs', chEvtBroadcastFlagsI rlist fuel esp flags s = Some s' /\ events_ok G T R s' qs' /\
    same_cpu (ek s) (ek s') /\ forall tp, tp ∈ T -> bystander tp s s'.
Proof.
  intros Hs [l Hl]. pose proof (eo_mid _ _ _ _ _ Hs) as Hk.
  destruct (broadcast_ok rlist idle fuel kind G T s qs R esp flags l Hk (eo_sources _ _ _ _ _ Hs) Hl) as
    (s' & qs' & E & Hk' & Hc & (D1 & D2 & D3 & D4 & _) & Hw & _); [|exact (eo_lost _ _ _ _ _ Hs)|].
  { intros x. by apply (eo_listeners _ _ _ _ _ Hs esp). }
  exists s', qs'. split; [done|].
  assert (Hb : forall x, x ∈ T -> bystander x s s').
  { intros x Hx. apply bystander_woken; [by apply Hw|rewrite D2; by eexists|apply Hc]. }
  split; [|by split]. apply (events_ok_kernel G G T R s s' qs qs'); try done.
  intros tp Ht. apply (bystander_lost tp s); [by apply Hb|by apply (eo_lost _ _ _ _ _ Hs)].
Qed.

(** A change of the kernel that does not concern the events, made by its running thread. *)
Lemma moved_eok G T R s qs k' qs' : events_ok G T R s qs -> kmid G T None k' qs' ->
  moved T (currp s) (ek s) k' -> events_ok G T R (set_ek k' s) qs'.
Proof.
  intros Hs Hk' Hm. apply (events_ok_kernel G G T R s _ qs qs'); try done. intros tp Ht.
  destruct (Hm tp) as [Ha Hmt]. destruct (decide (tp = currp s)) as [->|Hne].
  - apply awake_lost. cbn. pose proof (km_run _ _ _ _ _ _ _ _ (eo_mid _ _ _ _ _ Hs)) as (_ & Hcs & _). unfold currp in *.
    destruct Hmt as [[_ [E1|[_ E1]]]|[[E1 _]|[[_ E1]|[E1 _]]]]; [by rewrite E1, Hcs| |by rewrite Hcs in E1|done|done].
    by destruct (p_state k' _).
  - apply (bystander_lost tp s); [by apply (bystander_moved T (currp s))|by apply (eo_lost _ _ _ _ _ Hs)].
Qed.

Lemma run_eisr_ok G T R s qs o : events_ok G T R s qs -> quiet (ek s) -> valid_eisr T R s o ->
  exists s' qs', run_eisr o s = Some s' /\ events_ok G T R s' qs' /\ quiet (ek s') /\
    forall tp, tp ∈ T -> bystander tp s s'.
Proof.
  intros Hs Hq Hv. pose proof (eo_mid _ _ _ _ _ Hs) as Hk. pose proof (eo_lost _ _ _ _ _ Hs) as Hl.
  assert (Hfin : forall s' qs', kmid G T None (ek s') qs' -> el_next s' = el_next s -> el_listener s' = el_listener s ->
    (forall tp, tp ∈ T -> bystander tp s s') -> events_ok G T R s' qs').
  { intros s' qs' Hk' E1 E2 Hb. apply (events_ok_kernel G G T R s s' qs qs'); try done.
    intros tp Ht. apply (bystander_lost tp s); auto. }
  destruct o as [o|tp events|esp flags|elp]; cbn [run_eisr valid_eisr] in *.
  - destruct (run_isr_ok rlist idle fuel kind G T (ek s) qs o Hk Hq Hv) as (k' & qs' & E & Hk' & Hq' & Hm).
    unfold on_kernel. rewrite E. exists (set_ek k' s), qs'.
    assert (Hb : forall tp, tp ∈ T -> bystander tp s (set_ek k' s)).
    { intros tp Ht. apply (bystander_isr o); [done|]. apply (one_running rlist idle fuel kind G T (ek s) qs Hk tp Ht). }
    split; [done|split; [by apply Hfin|by split]].
  - destruct (signal_ok rlist idle fuel kind G T s qs tp events Hk Hv) as (k' & qs' & -> & Hk' & (C1 & C2 & _) & Hw & Ho).
    eexists _, qs'. split; [done|].
    assert (Hb : forall x, x ∈ T -> bystander x s (set_ek k' (set_pending tp (Z.lor (p_epending s tp) events) s))).
    { intros x Hx. apply bystander_woken; cbn; [| |done].
      - unfold upd. destruct (Z.eqb_spec x tp) as [->|Hne]; [done|]. destruct (Ho x Hne). apply woken_same; auto.
      - unfold upd. destruct (Z.eqb_spec x tp) as [->|]; [by eexists|]. exists 0. apply lor_self_0. }
    split; [by apply Hfin|split; [|done]]. unfold quiet in *. cbn. by rewrite C1, C2.
  - destruct (broadcast_eok G T R s qs esp flags Hs Hv) as (s' & qs' & E & Hs' & (C1 & C2 & _) & Hb).
    exists s', qs'. split; [done|split; [done|split; [|done]]]. unfold quiet in *. by rewrite C1, C2.
  - eexists _, qs. split; [done|].
    assert (Hb : forall x, x ∈ T -> bystander x s (snd (chEvtGetAndClearFlagsI elp s))).
    { intros x Hx. by apply bystander_same. }
    split; [by apply Hfin|by split].
Qed.

Lemma run_eisrs_ok G T R : forall os s qs, events_ok G T R s qs -> quiet (ek s) -> valid_eisrs T R s os ->
  exists s' qs', run_eisrs os s = Some s' /\ events_ok G T R s' qs' /\ quiet (ek s') /\
    forall tp, tp ∈ T -> bystander tp s s'.
Proof.
  induction os as [|o os IH]; intros s qs Hs Hq Hv; cbn [run_eisrs].
  - exists s, qs. split; [done|split; [done|split; [done|]]]. intros tp _. by apply bystander_same.
  - destruct Hv as [Hv1 Hv2]. destruct (run_eisr_ok G T R s qs o Hs Hq Hv1) as (s1 & qs1 & E & Hs1 & Hq1 & Hb1).
    rewrite E. destruct (IH s1 qs1 Hs1 Hq1 (Hv2 s1 E)) as (s' & qs' & E' & Hs' & Hq' & Hb').
    exists s', qs'. split; [done|split; [done|split; [done|]]]. intros tp Ht. apply (bystander_trans tp s s1); auto.
Qed.

Definition eghost_after (e : eevent) (k : kernel) (G : ghost) : ghost :=
  match e with ECall (EKernel c) => ghost_after (Call c) k G | _ => G end.

(** What a system call of the running thread achieves. *)
Definition ecall_ok (G' : ghost) (T T' : gset Z) (R' : gmap Z (list Z)) (s : estate) (r : option estate) : Prop :=
  exists s' qs', r = Some s' /\ events_ok G' T' R' s' qs' /\ top (ek s') qs' /\
    forall tp, tp ∈ T -> tp <> currp s -> bystander tp s s'.

(** Only the data of events change, and the pending events of the running thread at most. *)
Lemma ecall_data G T R R' s s' qs : events_ok G T R s qs -> top (ek s) qs -> ek s' = ek s ->
  (forall tp, tp <> currp s -> p_epending s' tp = p_epending s tp) ->
  sources_ok fuel s' R' -> (forall esp l x, R' !! esp = Some l -> In x l -> el_listener s' x ∈ T) ->
  ecall_ok G T T R' s (Some s').
Proof.
  intros Hs Ht Ek Ep HR Hlis. exists s', qs. split; [done|].
  assert (Hb : forall tp, tp ∈ T -> tp <> currp s -> bystander tp s s').
  { intros tp _ Hne. apply bystander_same; rewrite ?Ek; auto. }
  split; [|by rewrite Ek]. constructor; [rewrite Ek; apply (eo_mid _ _ _ _ _ Hs)| |done|done].
  intros tp Htp. destruct (decide (tp = currp s)) as [->|Hne].
  - apply awake_lost. rewrite Ek. apply (current_awake G T _ qs), (eo_mid _ _ _ _ _ Hs).
  - apply (bystander_lost tp s); [by apply Hb|by apply (eo_lost _ _ _ _ _ Hs)].
Qed.

Lemma ecall_data_same G T R s s' qs : events_ok G T R s qs -> top (ek s) qs -> ek s' = ek s ->
  (forall tp, tp <> currp s -> p_epending s' tp = p_epending s tp) ->
  el_next s' = el_next s -> el_listener s' = el_listener s -> ecall_ok G T T R s (Some s').
Proof.
  intros Hs Ht Ek Ep En El. apply (ecall_data G T R R s s' qs Hs Ht Ek Ep).
  - apply (sources_ext fuel s); [apply (eo_sources _ _ _ _ _ Hs)|done].
  - rewrite El. apply (eo_listeners _ _ _ _ _ Hs).
Qed.

(** An operation of an interrupt handler, and the rescheduling. *)
Lemma ecall_reschedule G T R s s1 qs1 : events_ok G T R s1 qs1 -> (forall tp, tp ∈ T -> bystander tp s s1) ->
  ecall_ok G T T R s (reschedule rlist fuel s1).
Proof.
  intros Hs1 Hb. pose proof (eo_mid _ _ _ _ _ Hs1) as Hk. unfold reschedule.
  destruct (reschedule_ok rlist idle fuel kind G T (ek s1) qs1 Hk) as (k' & qs' & -> & Hk' & Ht & Hsw).
  exists (set_ek k' s1), qs'. split; [done|].
  assert (Hb' : forall tp, tp ∈ T -> bystander tp s1 (set_ek k' s1)).
  { intros tp Htp. destruct (swapped_moved T (tp + 1) _ _ Hsw tp). apply (bystander_moved T (tp + 1)); [done|done|done|lia]. }
  split; [|split; [done|intros tp Htp _; apply (bystander_trans tp s s1); auto]].
  apply (events_ok_kernel G G T R s1 _ qs1 qs'); try done. intros tp Htp.
  apply (bystander_lost tp s1); [by apply Hb'|by apply (eo_lost _ _ _ _ _ Hs1)].
Qed.

(** The running thread goes to sleep on [events]. *)
Lemma event_sleep_ok G T k qs st m time : kmid G T None k qs -> r_current k <> idle ->
  st = CH_STATE_WTOREVT \/ st = CH_STATE_WTANDEVT ->
  let k1 := set_u (r_current k) m k in
  let k' := match time with None => chSchGoSleepS rlist st k1 | Some t => chSchGoSleepTimeoutS rlist st t k1 end in
  exists qs', kmid G T None k' qs' /\ top k' qs' /\ slept st k1 k' /\
    (armed k' (r_current k) = true -> time <> None \/ armed k (r_current k) = true).
Proof.
  intros Hk Hi Hst k1. destruct (kmid_current rlist idle fuel kind G T k qs Hk) as [Ho _].
  pose proof Hk as [_ (Hc & _) Har].
  assert (Hok : kok rlist idle fuel kind G T None (set_state (r_current k) st k1) qs).
  { apply rest_loose; [by apply kok_u|done|done|]. destruct Hst as [->| ->]; cbn; auto. }
  assert (Hgen : forall t, exists qs', let k' := chSchGoSleepTimeoutS rlist st t k1 in
    kmid G T None k' qs' /\ top k' qs' /\ slept st k1 k').
  { intros t. apply (sleep_timeout_gen rlist idle fuel kind G T k1 qs); try done; by destruct Hst as [->| ->]. }
  destruct time as [t|].
  - destruct (Hgen t) as (qs' & H1 & H2 & H3). exists qs'. split; [done|split; [done|split; [done|]]]. by left.
  - destruct (Hgen TIME_INFINITE) as (qs' & H1 & H2 & H3). exists qs'. cbv zeta in *.
    change (chSchGoSleepTimeoutS rlist st TIME_INFINITE k1) with (chSchGoSleepS rlist st k1) in *.
    split; [done|split; [done|split; [done|]]]. intros Ha. right.
    unfold chSchGoSleepS, fifo_remove in Ha. by destruct (queue_fifo_remove _ _).
Qed.

Lemma satisfied_wait_over c m p k tp : p_state k tp = wait_state c -> p_u k tp = m ->
  wait_over k p tp = satisfied c m p.
Proof. intros E1 E2. unfold wait_over. rewrite E1, E2. by destruct c. Qed.

Lemma wait_ok G T R s qs c m time : events_ok G T R s qs -> top (ek s) qs -> currp s <> idle ->
  ecall_ok G T T R s (Some (snd (run_wait rlist c m time s))).
Proof.
  intros Hs Ht Hi. rewrite run_wait_cases. cbv zeta. pose proof (eo_mid _ _ _ _ _ Hs) as Hk.
  destruct (satisfied c m (p_epending s (currp s))) eqn:Es; cbn [snd].
  { apply (ecall_data_same G T R s _ qs Hs Ht); try done. intros tp Hne. cbn. by apply upd_ne. }
  assert (Hsleep : ecall_ok G T T R s (Some (sleep_with rlist (wait_state c) m time s))).
  { destruct (event_sleep_ok G T (ek s) qs (wait_state c) m time Hk Hi) as (qs' & H1 & H2 & H3 & _);
      [by destruct c; auto|]. cbv zeta in *. set (k' := match time with None => _ | Some _ => _ end) in *.
    assert (sleep_with rlist (wait_state c) m time s = set_ek k' s) as -> by by destruct time.
    exists (set_ek k' s), qs'. split; [done|].
    assert (Hb : forall tp, tp ∈ T -> tp <> currp s -> bystander tp s (set_ek k' s)).
    { intros tp Htp Hne. apply (bystander_moved T (currp s)); [by apply H3| |done|done].
      apply (slept_others T _ _ _ _ _ tp H3); try done. cbn. by apply upd_ne. }
    split; [|by split]. apply (events_ok_kernel G G T R s _ qs qs'); try done. intros tp Htp.
    destruct (decide (tp = currp s)) as [->|Hne].
    - destruct H3 as (_ & E1 & E2 & E3 & E4). cbn in E1, E2, E3, E4. rewrite (satisfied_wait_over c m); [done| |].
      + cbn [ek set_ek]. rewrite E4. unfold currp. rewrite upd_ne by auto. apply upd_eq.
      + cbn [ek set_ek]. rewrite E1. apply upd_eq.
    - apply (bystander_lost tp s); [by apply Hb|by apply (eo_lost _ _ _ _ _ Hs)]. }
  destruct time as [t|]; [|exact Hsleep]. destruct t; [|exact Hsleep..].
  by apply (ecall_data_same G T R s _ qs Hs Ht).
Qed.

(** A system call of the rest of the kernel. *)
Lemma kernel_call_ok G T R s qs c : events_ok G T R s qs -> top (ek s) qs -> valid_call idle fuel kind T (ek s) c ->
  ecall_ok (ghost_after (Call c) (ek s) G) T (threads_after (Call c) T) R s
    (on_kernel (run_call rlist fuel c) (new_thread c s)).
Proof.
  intros Hs Ht Hv. pose proof (eo_mid _ _ _ _ _ Hs) as Hk.
  destruct (run_syscall_ok rlist idle fuel kind G T (ek s) qs c Hk Ht Hv) as (k' & qs' & E & Hk' & Ht' & Hm).
  assert (Ek : ek (new_thread c s) = ek s) by by destruct c.
  assert (Ep : forall tp, tp ∈ T -> p_epending (new_thread c s) tp = p_epending s tp).
  { intros tp Htp. destruct c; try done. cbn. apply upd_ne. intros ->. cbn in Hv. tauto. }
  unfold on_kernel. rewrite Ek, E. exists (set_ek k' (new_thread c s)), qs'. split; [done|].
  assert (Hb : forall tp, tp ∈ T -> tp <> currp s -> bystander tp s (set_ek k' (new_thread c s))).
  { intros tp Htp Hne. destruct (Hm tp) as [Ha Hmt].
    apply (bystander_trans tp s (new_thread c s)); [apply bystander_same; rewrite ?Ek; auto|].
    apply (bystander_moved T (r_current (ek s))); rewrite ?Ek; done. }
  split; [|by split].
  assert (Hl : no_lost (threads_after (Call c) T) (set_ek k' (new_thread c s))).
  { intros tp Htp. destruct (decide (tp ∈ T)) as [Hin|Hn].
    - destruct (decide (tp = currp s)) as [->|Hne].
      + apply awake_lost. cbn. destruct (Hm (currp s)) as [_ Hmt].
        pose proof (km_run _ _ _ _ _ _ _ _ Hk) as (_ & Hcs & _). unfold currp in *.
        destruct Hmt as [[_ [E1|[_ E1]]]|[[E1 _]|[[_ E1]|[E1 _]]]]; [by rewrite E1, Hcs| |by rewrite Hcs in E1|done|done].
        by destruct (p_state k' _).
      + apply (bystander_lost tp s); [by apply Hb|by apply (eo_lost _ _ _ _ _ Hs)].
    - apply awake_lost. cbn. destruct c; cbn in Htp, Hn; try done.
      assert (tp = tp0) as -> by set_solver. apply wakeupS_runnable in E. by destruct (p_state k' tp0). }
  destruct Hs as [_ _ H1 H2]. constructor; [done|done|apply (sources_ext fuel s); [done|by destruct c]|].
  intros esp l x H3 H4. specialize (H2 esp l x H3 H4). destruct c; cbn in *; set_solver.
Qed.

Lemma run_ecall_ok G T R s qs c : events_ok G T R s qs -> top (ek s) qs -> quiet (ek s) -> valid_ecall T R s c ->
  ecall_ok (eghost_after (ECall c) (ek s) G) T (ethreads_after (ECall c) T) (sources_after (ECall c) R) s (run_ecall c s).
Proof.
  intros Hs Ht Hq Hv. pose proof (eo_sources _ _ _ _ _ Hs) as HR. pose proof (eo_listeners _ _ _ _ _ Hs) as Hlis.
  pose proof (eo_mid _ _ _ _ _ Hs) as Hk.
  destruct c as [c|tp m|esp fl|esp|esp elp m wf|esp elp|m|m|elp|c m time|c m timed]; cbn [run_ecall valid_ecall] in *.
  - by apply (kernel_call_ok G T R s qs).
  - destruct (run_eisr_ok G T R s qs (ESignalI tp m) Hs Hq Hv) as (s1 & qs1 & E & Hs1 & _ & Hb).
    unfold chEvtSignal. cbn [run_eisr] in E. rewrite E. by apply (ecall_reschedule G T R s s1 qs1).
  - destruct (run_eisr_ok G T R s qs (EBroadcastI esp fl) Hs Hq Hv) as (s1 & qs1 & E & Hs1 & _ & Hb).
    unfold chEvtBroadcastFlags. cbn [run_eisr] in E. rewrite E. by apply (ecall_reschedule G T R s s1 qs1).
  - cbn [sources_after]. apply (ecall_data G T R _ s _ qs Hs Ht); try done.
    + apply init_source_ok; [done|done|]. pose proof (ko_fuel _ _ _ _ _ _ _ _ (km_ok _ _ _ _ _ _ _ _ Hk)). lia.
    + intros e l x H. cbn. destruct (decide (e = esp)) as [->|Hne].
      * rewrite lookup_insert_eq in H. by injection H as <-.
      * rewrite lookup_insert_ne in H by auto. by apply (Hlis e).
  - destruct Hv as (l & Hl & Hu & Hf). cbn [sources_after]. rewrite Hl. cbn [default].
    apply (ecall_data G T R _ s _ qs Hs Ht); try done; [by apply register_ok|].
    intros e l' x H Hx. cbn. unfold upd. destruct (Z.eqb_spec x elp) as [->|Hxe]; [apply (km_run _ _ _ _ _ _ _ _ Hk)|].
    destruct (decide (e = esp)) as [->|Hne].
    + rewrite lookup_insert_eq in H. injection H as <-. destruct Hx as [->|Hx]; [done|]. by apply (Hlis esp l).
    + rewrite lookup_insert_ne in H by auto. by apply (Hlis e l').
  - destruct Hv as [l Hl]. cbn [sources_after]. rewrite Hl. cbn [default].
    destruct (unregister_ok fuel s R esp elp l HR Hl) as (s' & -> & (E1 & E2 & E3 & _) & HR').
    apply (ecall_data G T R _ s _ qs Hs Ht); [done|by rewrite E2|done|].
    intros e l' x H Hx. rewrite E3. destruct (decide (e = esp)) as [->|Hne].
    + rewrite lookup_insert_eq in H. injection H as <-. apply (Hlis esp l x Hl).
      apply list_elem_of_In, list_elem_of_filter in Hx as [_ Hx]. by apply list_elem_of_In.
    + rewrite lookup_insert_ne in H by auto. by apply (Hlis e l').
  - apply (ecall_data_same G T R s _ qs Hs Ht); try done. intros tp Hne. cbn. by apply upd_ne.
  - apply (ecall_data_same G T R s _ qs Hs Ht); try done. intros tp Hne. cbn. by apply upd_ne.
  - by apply (ecall_data_same G T R s _ qs Hs Ht).
  - by apply (wait_ok G T R s qs).
  - rewrite run_resume_cases. destruct (_ && _); [by apply (ecall_data_same G T R s _ qs Hs Ht)|].
    apply (ecall_data_same G T R s _ qs Hs Ht); try done. intros tp Hne. cbn. by apply upd_ne.
Qed.

(** The thread that runs after an event is not under a timer. *)
Lemma finish_event s tp : bystander tp s (set_ek (timeout_resume (ek s)) s).
Proof.
  unfold timeout_resume. destruct (armed (ek s) (r_current (ek s))); apply bystander_same; try done.
  cbn. unfold upd. by destruct (_ =? _).
Qed.

Lemma run_eevent_ok G T R s qs e : events_ok G T R s qs -> top (ek s) qs -> quiet (ek s) -> valid_eevent T R s e ->
  exists s' qs', run_eevent e s = Some s' /\
    events_ok (eghost_after e (ek s) G) (ethreads_after e T) (sources_after e R) s' qs' /\ top (ek s') qs' /\
    quiet (ek s') /\ forall tp, tp ∈ T -> match e with ECall _ => tp <> currp s | EIrq _ => True end -> bystander tp s s'.
Proof.
  intros Hs Ht Hq Hv. unfold run_eevent.
  assert (Hfin : forall G' T' R' s' qs', events_ok G' T' R' s' qs' -> top (ek s') qs' ->
    events_ok G' T' R' (set_ek (timeout_resume (ek s')) s') qs' /\ top (timeout_resume (ek s')) qs' /\
    quiet (timeout_resume (ek s'))).
  { intros G' T' R' s' qs' Hs' Ht'.
    destruct (resume_ok rlist idle fuel kind G' T' (ek s') qs' (eo_mid _ _ _ _ _ Hs') Ht') as (H1 & H2 & H3).
    split; [|done]. apply (events_ok_kernel G' G' T' R' s' _ qs' qs'); try done. intros tp Htp.
    apply (bystander_lost tp s'); [apply finish_event|by apply (eo_lost _ _ _ _ _ Hs')]. }
  destruct e as [c|os]; cbn [valid_eevent] in Hv.
  - destruct (run_ecall_ok G T R s qs c Hs Ht Hq Hv) as (s' & qs' & -> & Hs' & Ht' & Hb).
    destruct (Hfin _ _ _ s' qs' Hs' Ht') as (H1 & H2 & H3). eexists _, qs'. split; [done|].
    split; [exact H1|split; [done|split; [done|]]]. intros tp Htp Hne.
    apply (bystander_trans tp s s'); [by apply Hb|apply finish_event].
  - destruct (run_eisrs_ok G T R os s qs Hs Hq Hv) as (s1 & qs1 & -> & Hs1 & _ & Hb1). unfold on_kernel.
    destruct (epilogue_ok rlist idle fuel kind G T (ek s1) qs1 (eo_mid _ _ _ _ _ Hs1)) as (k' & qs' & -> & Hk' & Ht' & Hsw).
    assert (Hb2 : forall tp, tp ∈ T -> bystander tp s1 (set_ek k' s1)).
    { intros tp Htp. destruct (swapped_moved T (tp + 1) _ _ Hsw tp). apply (bystander_moved T (tp + 1)); [done|done|done|lia]. }
    assert (Hs2 : events_ok G T R (set_ek k' s1) qs').
    { apply (events_ok_kernel G G T R s1 _ qs1 qs'); try done. intros tp Htp.
      apply (bystander_lost tp s1); [by apply Hb2|by apply (eo_lost _ _ _ _ _ Hs1)]. }
    destruct (Hfin _ _ _ _ qs' Hs2 Ht') as (H1 & H2 & H3). eexists _, qs'. split; [done|].
    split; [exact H1|split; [done|split; [done|]]]. intros tp Htp _.
    apply (bystander_trans tp s s1); [by apply Hb1|]. apply (bystander_trans tp s1 (set_ek k' s1)); [by apply Hb2|].
    apply finish_event.
Qed.

Lemma run_eevents_ok : forall es T R s, estate_ok T R s -> valid_eevents T R s es ->
  exists s', run_eevents es s = Some s' /\
    estate_ok (fold_left (fun T e => ethreads_after e T) es T) (fold_left (fun R e => sources_after e R) es R) s'.
Proof.
  induction es as [|e es IH]; intros T R s Hs Hv; cbn [run_eevents fold_left]; [by exists s|].
  destruct Hs as (G & qs & Hs & Ht & Hq). destruct Hv as [Hv1 Hv2].
  destruct (run_eevent_ok G T R s qs e Hs Ht Hq Hv1) as (s1 & qs1 & E & Hs1 & Ht1 & Hq1 & _). rewrite E.
  apply IH; [|by apply Hv2]. by eexists _, qs1.
Qed.
End Runs.

(** ** The lowest event *)

(** [i] is the lowest bit of [m]. *)
Definition lowest_bit (m i : Z) : Prop := 0 <= i /\ Z.testbit m i = true /\ forall j, j < i -> Z.testbit m j = false.

Lemma clear_lowest_odd a : Z.lxor (2 * a + 1) (Z.land (2 * a + 1) (2 * a)) = 1.
Proof.
  apply Z.bits_inj'. intros n Hn. rewrite Z.lxor_spec, Z.land_spec.
  destruct (Z.eq_dec n 0) as [->|]; [by rewrite Z.testbit_odd_0, Z.testbit_even_0|].
  replace n with (Z.succ (n - 1)) by lia. rewrite Z.testbit_odd_succ, Z.testbit_even_succ by lia.
  change 1 with (2 * 0 + 1) at 4. rewrite Z.testbit_odd_succ, Z.bits_0 by lia. by destruct (Z.testbit a (n - 1)).
Qed.

Lemma clear_lowest_even a : Z.lxor (2 * a) (Z.land (2 * a) (2 * a - 1)) = 2 * Z.lxor a (Z.land a (a - 1)).
Proof.
  apply Z.bits_inj'. intros n Hn. rewrite Z.lxor_spec, Z.land_spec. replace (2 * a - 1) with (2 * (a - 1) + 1) by lia.
  destruct (Z.eq_dec n 0) as [->|]; [by rewrite !Z.testbit_even_0|].
  replace n with (Z.succ (n - 1)) by lia.
  by rewrite Z.testbit_odd_succ, !Z.testbit_even_succ, Z.lxor_spec, Z.land_spec by lia.
Qed.

Lemma lowest_spec m : 0 < m < 2 ^ 32 -> exists i, lowest m = 2 ^ i /\ lowest_bit m i.
Proof.
  intros Hm. unfold lowest. rewrite u32_id by lia. assert (Hp : 0 < m) by lia. clear Hm.
  destruct m as [|p|p]; try lia. clear Hp. induction p as [p IH|p IH|].
  - exists 0. change (Z.pos p~1) with (2 * Z.pos p + 1). rewrite Z.add_simpl_r, clear_lowest_odd. split; [done|].
    split; [lia|split; [apply Z.testbit_odd_0|]]. intros j Hj. by apply Z.testbit_neg_r.
  - destruct IH as (i & E & Hi & Hb & Hl). exists (i + 1). change (Z.pos p~0) with (2 * Z.pos p).
    rewrite clear_lowest_even, E. split; [rewrite Z.pow_add_r by lia; lia|split; [lia|]].
    rewrite Z.add_1_r, Z.testbit_even_succ by done. split; [done|]. intros j Hj. destruct (Z.lt_ge_cases j 0).
    + by apply Z.testbit_neg_r.
    + destruct (Z.eq_dec j 0) as [->|]; [apply Z.testbit_even_0|].
      replace j with (Z.succ (j - 1)) by lia. rewrite Z.testbit_even_succ by lia. apply Hl. lia.
  - exists 0. split; [done|split; [lia|split; [done|]]]. intros j Hj. by apply Z.testbit_neg_r.
Qed.

(** ** A thread that waits *)

Section Waiter.
Context (rlist idle : Z) (fuel : nat) (kind : gmap Z qkind).
Notation estate_ok := (estate_ok rlist idle fuel kind).
Notation valid_eevents := (valid_eevents rlist idle fuel kind).
Notation run_eevent := (run_eevent rlist fuel).
Notation run_eevents := (run_eevents rlist fuel).

(** The thread does not run before the end of the events. *)
Fixpoint away (tp : Z) (es : list eevent) (s : estate) : Prop :=
  match es with
  | [] => True
  | e :: es => currp s <> tp /\ forall s', run_eevent e s = Some s' -> away tp es s'
  end.

(** It waits for [c] on the events [m]; or it was woken by an event, or by its timer. *)
Definition waiter (c : condition) (m : Z) (time : option Z) (tp : Z) (s : estate) : Prop :=
  p_state (ek s) tp = wait_state c /\ p_u (ek s) tp = m /\ (armed (ek s) tp = true -> time <> None) \/
  runnable (p_state (ek s) tp) = true /\
    (p_u (ek s) tp = MSG_OK /\ satisfied c m (p_epending s tp) = true \/ p_u (ek s) tp = MSG_TIMEOUT /\ time <> None).

Lemma waiter_bystander c m time tp s s' : bystander tp s s' -> waiter c m time tp s -> waiter c m time tp s'.
Proof.
  intros [W R [e E] A _] [(H1 & H2 & H3)|(H1 & H2)].
  - assert (Hw : awaits_events (p_state (ek s) tp) = true) by (rewrite H1; by destruct c).
    destruct (W Hw) as [(K1 & K2 & _)|[(K1 & K2 & K3)|(K1 & K2 & K3)]].
    + left. rewrite K1, K2. auto.
    + right. split; [done|]. left. by rewrite <- (satisfied_wait_over c m _ (ek s) tp).
    + right. split; [done|]. right. auto.
  - destruct (R H1) as [K1 K2]. right. split; [done|]. rewrite K2. destruct H2 as [[H2 H3]|H2]; [left|by right].
    split; [done|]. rewrite E. set (k := set_u tp m (set_state tp (wait_state c) (ek s))).
    rewrite <- (satisfied_wait_over c m _ k tp) in H3 by (cbn; apply upd_eq).
    rewrite <- (satisfied_wait_over c m _ k tp) by (cbn; apply upd_eq). by apply wait_over_mono.
Qed.

Lemma waiter_run c m time tp : forall es T R s s', estate_ok T R s -> tp ∈ T -> waiter c m time tp s ->
  valid_eevents T R s es -> away tp es s -> run_eevents es s = Some s' -> waiter c m time tp s'.
Proof.
  induction es as [|e es IH]; intros T R s s' Hs Ht Hw Hv Ha E; cbn [Events.run_eevents] in E; [by injection E as <-|].
  destruct Hs as (G & qs & Hs & Htop & Hq). destruct Hv as [Hv1 Hv2], Ha as [Ha1 Ha2].
  destruct (run_eevent_ok rlist idle fuel kind G T R s qs e Hs Htop Hq Hv1) as (s1 & qs1 & E1 & Hs1 & Ht1 & Hq1 & Hb).
  rewrite E1 in E. apply (IH (ethreads_after e T) (sources_after e R) s1 s'); [by eexists _, qs1| | |by apply Hv2|by apply Ha2|done].
  - destruct e as [[]|]; cbn; try done. destruct c0; cbn; set_solver.
  - apply (waiter_bystander c m time tp s); [|done]. apply Hb; [done|]. by destruct e; auto.
Qed.

(** The thread that called the wait is asleep. *)
Lemma waiter_start c m time T R s s' : estate_ok T R s -> currp s <> idle ->
  satisfied c m (p_epending s (currp s)) = false -> time <> Some TIME_IMMEDIATE ->
  run_eevent (ECall (EWait c m time)) s = Some s' -> waiter c m time (currp s) s'.
Proof.
  intros (G & qs & Hs & _ & Hq) Hi Hn Ht. unfold Events.run_eevent, run_ecall. rewrite run_wait_cases. cbv zeta. rewrite Hn.
  assert (forall A (x y : A), match time with Some 0 => x | _ => y end = y) as ->.
  { intros. by destruct time as [[]|]. }
  cbn [snd]. destruct (event_sleep_ok rlist idle fuel kind G T (ek s) qs (wait_state c) m time) as
    (qs' & _ & _ & H3 & H4); [apply (eo_mid _ _ _ _ _ _ _ _ _ Hs)|done|destruct c; auto|]. cbv zeta in *.
  set (k' := match time with None => _ | Some _ => _ end) in *.
  assert (sleep_with rlist (wait_state c) m time s = set_ek k' s) as -> by by destruct time.
  destruct H3 as (_ & E1 & E2 & _ & E4). cbn in E1, E2, E4. intros [= <-]. left. cbn [ek set_ek].
  assert (Er : p_state (timeout_resume k') = p_state k' /\ p_u (timeout_resume k') = p_u k' /\
    (armed (timeout_resume k') (currp s) = true -> armed k' (currp s) = true)).
  { unfold timeout_resume. destruct (armed k' (r_current k')); [|done]. cbn. split; [done|split; [done|]].
    unfold upd. by destruct (_ =? _). }
  destruct Er as (-> & -> & Hr). rewrite E4, E1. unfold currp in *. split; [rewrite upd_ne by auto; apply upd_eq|].
  split; [apply upd_eq|]. intros Ha. destruct (H4 (Hr Ha)) as [?|Ha']; [done|]. unfold quiet in Hq. congruence.
Qed.
End Waiter.

(** ** Dispatching *)

Lemma filter_bits (a b : Z) (l : list Z) : (forall j, j ∈ l -> Z.testbit a j = Z.testbit b j) ->
  filter (fun i => Z.testbit b i = true) l = filter (fun i => Z.testbit a i = true) l.
Proof.
  induction l as [|x l IH]; intros H; [done|]. rewrite !filter_cons, H by (by left).
  rewrite IH by (intros j Hj; apply H; by right). by destruct (decide _).
Qed.

Lemma dispatch_loop_ok {S} (handlers : Z -> S -> option S) : forall n k (events : Z) (s : S),
  0 <= k <= 32 -> k + Z.of_nat n = 33 -> 0 <= events < 2 ^ 32 -> (forall j, 0 <= j < k -> Z.testbit events j = false) ->
  dispatch_loop handlers n k events s =
    fold_left (fun r i => match r with None => None | Some s => handlers i s end)
      (filter (fun i => Z.testbit events i = true) (seqZ k (32 - k))) (Some s).
Proof.
  induction n as [|n IH]; intros k events s Hk Hn He Hl; [lia|]. cbn [dispatch_loop].
  assert (He0 : forall e', (forall j, 0 <= j < 32 -> Z.testbit e' j = false) -> 0 <= e' < 2 ^ 32 -> e' = 0).
  { intros e' H1 H2. apply Z.bits_inj'. intros j Hj. rewrite Z.bits_0. destruct (Z.lt_ge_cases j 32); [auto|].
    by apply (testbit_high 32). }
  destruct (Z.eqb_spec events 0) as [->|Hne]; cbn [negb].
  { assert (forall l : list Z, filter (fun i => Z.testbit 0 i = true) l = []) as ->; [|done].
    induction l as [|i l IHl]; [done|]. by rewrite filter_cons_False by (by rewrite Z.bits_0). }
  assert (Hk32 : k < 32). { destruct (Z.lt_ge_cases k 32); [done|]. destruct Hne. apply He0; [|done]. intros j Hj. apply Hl. lia. }
  assert (Em : EVENT_MASK k = 2 ^ k).
  { unfold EVENT_MASK. rewrite Z.shiftl_1_l. apply u32_id. split; [lia|]. apply (Z.pow_lt_mono_r 2 k 32); lia. }
  assert (Et : (Z.land events (EVENT_MASK k) =? 0) = negb (Z.testbit events k)).
  { rewrite Em. destruct (Z.testbit events k) eqn:E; cbn [negb].
    - apply Z.eqb_neq. intros E0. assert (Z.testbit (Z.land events (2 ^ k)) k = false) as Ef by (rewrite E0; apply Z.bits_0).
      by rewrite Z.land_spec, E, Z.pow2_bits_true in Ef by lia.
    - apply Z.eqb_eq. apply Z.bits_inj'. intros j Hj. rewrite Z.land_spec, Z.bits_0.
      destruct (Z.eq_dec j k) as [->|]; [by rewrite E|]. by rewrite Z.pow2_bits_false, andb_false_r by lia. }
  rewrite Et, negb_involutive. rewrite seqZ_cons by lia. replace (Z.pred (32 - k)) with (32 - (k + 1)) by lia.
  replace (Z.succ k) with (k + 1) by lia. rewrite s32_id by lia.
  destruct (Z.testbit events k) eqn:E.
  - rewrite filter_cons_True by done. cbn [fold_left].
    assert (Eb : forall j, j <> k -> Z.testbit (Z.ldiff events (2 ^ k)) j = Z.testbit events j).
    { intros j Hj. destruct (Z.lt_ge_cases j 0); [by rewrite !Z.testbit_neg_r|].
      rewrite Z.ldiff_spec, Z.pow2_bits_false by lia. apply andb_true_r. }
    assert (Ef : filter (fun i => Z.testbit events i = true) (seqZ (k + 1) (32 - (k + 1))) =
      filter (fun i => Z.testbit (Z.ldiff events (2 ^ k)) i = true) (seqZ (k + 1) (32 - (k + 1)))).
    { apply filter_bits. intros j Hj%elem_of_seqZ. apply Eb. lia. }
    rewrite Ef, Em. destruct (handlers k s) as [s'|]; [apply IH; [lia|lia| |]|].
    + apply range_by_bits; [done|apply Z.ldiff_nonneg; lia|]. intros i Hi.
      by rewrite Z.ldiff_spec, (testbit_high 32 events) by lia.
    + intros j Hj. destruct (Z.eq_dec j k) as [->|]; [|rewrite Eb by done; apply Hl; lia].
      by rewrite Z.ldiff_spec, Z.pow2_bits_true, andb_false_r by lia.
    + clear. induction (filter _ _) as [|i l IH]; [done|]. exact IH.
  - rewrite filter_cons_False by by rewrite E. apply IH; [lia|lia|done|].
    intros j Hj. destruct (Z.eq_dec j k) as [->|]; [done|]. apply Hl. lia.
Qed.

(** ** Theorems *)

(** The start of the system: no source yet, and no pending event. *)
Definition event_boot (rlist mainthread : Z) (objs : list (Z * object)) (s : estate) : estate :=
  set_pending mainthread 0 (set_ek (init_objects objs (sys_init rlist mainthread (ek s))) s).

Lemma event_boot_ok rlist mainthread fuel objs s :
  objects_ok rlist mainthread objs -> blank_kernel (ek s) -> (1 < fuel)%nat ->
  estate_ok rlist mainthread fuel (kinds rlist objs) {[mainthread]} ∅ (event_boot rlist mainthread objs s).
Proof.
  intros Ho Hb Hf. destruct (boot_kernel_ok rlist mainthread fuel objs (ek s) Ho Hb Hf) as (G & qs & Hk & Ht & Hq).
  exists G, qs. split; [|done]. constructor; [done| |constructor; intros *; by rewrite lookup_empty|intros *; by rewrite lookup_empty].
  intros tp Htp. apply awake_lost. assert (tp = mainthread) as -> by set_solver.
  pose proof (current_awake _ _ _ _ _ _ _ _ Hk) as Ha.
  pose proof (km_run _ _ _ _ _ _ _ _ Hk) as (Hc & _). assert (Hc' : r_current (ek (event_boot rlist mainthread objs s)) = mainthread)
    by (cbn; set_solver). cbn in *. by rewrite Hc' in Ha.
Qed.


(** A broadcast reaches every registered listener: it adds the flags to each, and the
    events of each listener that the flags concern to its thread; it makes ready exactly
    the threads whose wait this ends, and changes nothing else. *)
Theorem broadcast_wakes rlist idle fuel kind T R s esp flags l :
  estate_ok rlist idle fuel kind T R s -> R !! esp = Some l ->
  exists s', chEvtBroadcastFlagsI rlist fuel esp flags s = Some s' /\
    (forall x, el_flags s' x = if decide (x ∈ l) then Z.lor (el_flags s x) flags else el_flags s x) /\
    (forall tp, p_epending s' tp = Z.lor (p_epending s tp) (broadcast_events s flags l tp)) /\
    (forall tp, tp ∈ T ->
       if wait_over (ek s) (p_epending s' tp) tp
       then p_state (ek s') tp = CH_STATE_READY /\ p_u (ek s') tp = MSG_OK
       else p_state (ek s') tp = p_state (ek s) tp /\ p_u (ek s') tp = p_u (ek s) tp) /\
    currp s' = currp s /\ el_next s' = el_next s /\
    exists k', chSchRescheduleS rlist fuel (ek s') = Some k' /\ kernel_ok rlist idle fuel kind T (timeout_resume k').
Proof.
  intros (G & qs & [Hk Hl HR Hlis] & Ht & _) HE.
  destruct (broadcast_ok rlist idle fuel kind G T s qs R esp flags l Hk HR HE (fun x => Hlis esp l x HE) Hl) as
    (s' & qs' & E & Hk' & Hc & (D1 & D2 & D3 & _) & Hw & _).
  exists s'. split; [done|split; [done|split; [done|split; [exact Hw|split; [apply Hc|split; [done|]]]]]].
  destruct (reschedule_ok rlist idle fuel kind G T (ek s') qs' Hk') as (k' & qs2 & E2 & Hk2 & Ht2 & _).
  exists k'. split; [done|]. exists G, qs2. by apply resume_ok.
Qed.

(** C24. A thread that waits for one, any or all of the events [m] runs again only because
    its condition was fulfilled or, if the wait has a time-out, because that was over; and
    whatever happened meanwhile the wait then returns the lowest pending event of [m],
    all of them, or [m], removes exactly these from the pending events, and 0 after a
    time-out. *)
Theorem event_wait_returns rlist idle fuel kind T R s c m time es s1 s2 :
  estate_ok rlist idle fuel kind T R s -> currp s <> idle -> is_u32 m ->
  satisfied c m (p_epending s (currp s)) = false -> time <> Some TIME_IMMEDIATE ->
  run_eevent rlist fuel (ECall (EWait c m time)) s = Some s1 ->
  valid_eevents rlist idle fuel kind T R s1 es -> away rlist fuel (currp s) es s1 ->
  run_eevents rlist fuel es s1 = Some s2 -> currp s2 = currp s ->
  let p := p_epending s2 (currp s) in
  let '(r, s3) := run_resume c m (bool_decide (time <> None)) s2 in
  if bool_decide (time <> None) && (rdymsg s2 <? MSG_OK) then r = 0 /\ s3 = s2
  else satisfied c m p = true /\ s3 = set_pending (currp s) (Z.ldiff p r) s2 /\
    match c with
    | One => exists i, r = 2 ^ i /\ lowest_bit (Z.land p m) i
    | Any => r = Z.land p m /\ r <> 0
    | All => r = m /\ Z.land p m = m
    end.
Proof.
  intros Hs Hi Hm Hn Ht E1 Hv Ha E2 Hc. cbv zeta.
  pose proof (waiter_start rlist idle fuel kind c m time T R s s1 Hs Hi Hn Ht E1) as Hw.
  assert (Hs1 : estate_ok rlist idle fuel kind T R s1 /\ currp s ∈ T).
  { destruct Hs as (G & qs & Hs & Htop & Hq).
    destruct (run_eevent_ok rlist idle fuel kind G T R s qs (ECall (EWait c m time)) Hs Htop Hq Hi) as (s1' & qs1 & E & H1 & H2 & H3 & _).
    rewrite E1 in E. injection E as <-. split; [by exists G, qs1|]. apply (km_run _ _ _ _ _ _ _ _ (eo_mid _ _ _ _ _ _ _ _ _ Hs)). }
  destruct Hs1 as [Hs1 HT].
  pose proof (waiter_run rlist idle fuel kind c m time (currp s) es T R s1 s2 Hs1 HT Hw Hv Ha E2) as Hw2.
  destruct (run_eevents_ok rlist idle fuel kind es T R s1 Hs1 Hv) as (s2' & E & G & qs & Hs2 & _).
  rewrite E2 in E. injection E as <-. pose proof (km_run _ _ _ _ _ _ _ _ (eo_mid _ _ _ _ _ _ _ _ _ Hs2)) as (_ & Hcs & _).
  assert (Hcs2 : p_state (ek s2) (currp s) = CH_STATE_CURRENT) by (rewrite <- Hc; exact Hcs).
  destruct Hw2 as [(H1 & _)|[_ H1]]; [rewrite Hcs2 in H1; by destruct c|].
  rewrite run_resume_cases. unfold rdymsg. rewrite Hc.
  destruct H1 as [[-> H1]|[-> Hto]].
  - change (MSG_OK <? MSG_OK) with false. rewrite andb_false_r. split; [done|]. split; [done|].
    destruct c; cbn [selected satisfied] in *.
    + apply lowest_spec. apply negb_true_iff, Z.eqb_neq in H1.
      pose proof (land_range 32 (p_epending s2 (currp s)) m ltac:(lia) Hm). lia.
    + split; [done|]. by apply negb_true_iff, Z.eqb_neq in H1.
    + split; [done|]. by apply Z.eqb_eq.
  - by rewrite bool_decide_eq_true_2.
Qed.

(** C31. Dispatching a mask of events calls the handlers of exactly the events of the mask,
    each once, by increasing number, and ends after at most 32 steps (which is what the
    33 rounds of the loop are enough for). *)
Theorem dispatch_in_order {S : Type} (handlers : Z -> S -> option S) (events : Z) (s : S) : is_u32 events ->
  chEvtDispatch handlers 33 events s =
    fold_left (fun r i => match r with None => None | Some s => handlers i s end)
      (filter (fun i => Z.testbit events i = true) (seqZ 0 32)) (Some s).
Proof. intros He. apply (dispatch_loop_ok handlers 33 0); [lia|done|done|]. intros j Hj. lia. Qed.

(** ** A concrete run *)

Definition eblank : estate := EState blank (fun _ => 0) (fun _ => 0) (fun _ => 0) (fun _ => 0) (fun _ => 0) (fun _ => 0).
Definition edemo (es : list eevent) : estate :=
  default eblank (run_eevents 1000 4 es (event_boot 1000 2000 [] eblank)).

Lemma valid_estep rlist idle fuel kind T R s e es : valid_eevent rlist idle fuel kind T R s e ->
  valid_eevents rlist idle fuel kind (ethreads_after e T) (sources_after e R) (default s (run_eevent rlist fuel e s)) es ->
  valid_eevents rlist idle fuel kind T R s (e :: es).
Proof. intros H1 H2. split; [done|]. intros s' E. by rewrite E in H2. Qed.

(** A thread is created, registers a listener for the event 0 and waits for it. *)
Definition register_run : list eevent :=
  [ECall (EKernel (Create 2100 64)); ECall (EInit 5000); ECall (ERegister 5000 5100 1 0xFFFFFFFF)].
Definition wait_run : list eevent := register_run ++ [ECall (EWait Any 1 None)].
Definition broadcast_run : list eevent := wait_run ++ [EIrq [EBroadcastI 5000 0]].

Lemma demo_objects_ok : objects_ok 1000 2000 [].
Proof. split; [|split; [done|by intros ? ? []]]. apply NoDup_ListNoDup. repeat constructor; cbn; lia. Qed.

Lemma valid_eapp rlist idle fuel kind s1 es2 : forall es1 T R s, valid_eevents rlist idle fuel kind T R s es1 ->
  run_eevents rlist fuel es1 s = Some s1 ->
  valid_eevents rlist idle fuel kind (fold_left (fun T e => ethreads_after e T) es1 T)
    (fold_left (fun R e => sources_after e R) es1 R) s1 es2 ->
  valid_eevents rlist idle fuel kind T R s (es1 ++ es2).
Proof.
  induction es1 as [|e es1 IH]; intros T R s Hv E H; cbn in *; [by injection E as ->|].
  destruct Hv as [H1 H2]. split; [done|]. intros s' E'. rewrite E' in E. by apply IH; [apply H2|..].
Qed.

Lemma register_valid : valid_eevents 1000 2000 4 (kinds 1000 []) {[2000]} ∅ (event_boot 1000 2000 [] eblank) register_run.
Proof.
  apply valid_estep; [|apply valid_estep; [|apply valid_estep; [|done]]].
  - split; [done|split; [set_solver|split; [by vm_compute|split; [done|]]]]. apply Nat.leb_le. by vm_compute.
  - intros esp l Hl. cbn [sources_after] in Hl. by rewrite lookup_empty in Hl.
  - exists []. split; [by vm_compute|split; [|cbn; lia]].
    intros esp l Hl. cbn [sources_after] in Hl. apply lookup_insert_Some in Hl as [[<- <-]|[_ Hl]]; [cbn; lia|by rewrite lookup_empty in Hl].
Qed.

Lemma register_run_valid es :
  valid_eevents 1000 2000 4 (kinds 1000 []) {[2100; 2000]} {[5000 := [5100]]} (edemo register_run) es ->
  valid_eevents 1000 2000 4 (kinds 1000 []) {[2000]} ∅ (event_boot 1000 2000 [] eblank) (register_run ++ es).
Proof.
  intros H. apply (valid_eapp _ _ _ _ (edemo register_run)); [apply register_valid|by vm_compute|].
  assert (fold_left (fun R e => sources_after e R) register_run ∅ = {[5000 := [5100]]}) as -> by by vm_compute.
  exact H.
Qed.

Lemma edemo_ok es : let T := fold_left (fun T e => ethreads_after e T) es {[2000]} in
  let R := fold_left (fun R e => sources_after e R) es ∅ in
  valid_eevents 1000 2000 4 (kinds 1000 []) {[2000]} ∅ (event_boot 1000 2000 [] eblank) es ->
  estate_ok 1000 2000 4 (kinds 1000 []) T R (edemo es).
Proof.
  intros T R Hv. destruct (run_eevents_ok 1000 2000 4 (kinds 1000 []) es _ _ _
    (event_boot_ok 1000 2000 4 [] eblank demo_objects_ok ltac:(done) ltac:(lia)) Hv) as (s' & E & H).
  unfold edemo. by rewrite E.
Qed.

Lemma broadcast_run_valid : valid_eevents 1000 2000 4 (kinds 1000 []) {[2000]} ∅ (event_boot 1000 2000 [] eblank) broadcast_run.
Proof.
  apply register_run_valid. apply valid_estep; [by vm_compute|]. apply valid_estep; [|done].
  split; [by eexists|done].
Qed.


Lemma broadcast_wakes_witness : let s := edemo wait_run in
  exists s', chEvtBroadcastFlagsI 1000 4 5000 2 s = Some s' /\ el_flags s' 5100 = 2 /\ p_epending s' 2100 = 1 /\
    p_state (ek s') 2100 = CH_STATE_READY /\ p_state (ek s') 2000 = CH_STATE_CURRENT.
Proof.
  intros s. assert (Hs : estate_ok 1000 2000 4 (kinds 1000 []) {[2100; 2000]} {[5000 := [5100]]} s).
  { apply (edemo_ok wait_run). apply register_run_valid. apply valid_estep; [by vm_compute|done]. }
  destruct (broadcast_wakes _ _ _ _ _ _ s 5000 2 [5100] Hs eq_refl) as (s' & E & Hf & Hp & Hw & _).
  assert (E1 : p_epending s' 2100 = 1) by (rewrite Hp; by vm_compute).
  assert (E2 : p_epending s' 2000 = 0) by (rewrite Hp; by vm_compute).
  exists s'. split; [exact E|split; [rewrite Hf; by vm_compute|split; [exact E1|]]].
  pose proof (Hw 2100 ltac:(set_solver)) as H1. pose proof (Hw 2000 ltac:(set_solver)) as H2.
  rewrite E1 in H1. rewrite E2 in H2.
  assert (wait_over (ek s) 1 2100 = true) as F1 by by vm_compute.
  assert (wait_over (ek s) 0 2000 = false) as F2 by by vm_compute.
  rewrite F1 in H1. rewrite F2 in H2. split; [apply H1|]. rewrite (proj1 H2). by vm_compute.
Defined.

Lemma event_wait_returns_witness : let s2 := edemo broadcast_run in
  currp s2 = 2100 /\ fst (run_resume Any 1 false s2) = 1 /\ p_epending (snd (run_resume Any 1 false s2)) 2100 = 0.
Proof.
  intros s2. assert (Hc : currp s2 = 2100) by by vm_compute. split; [exact Hc|].
  assert (Hs : estate_ok 1000 2000 4 (kinds 1000 []) {[2100; 2000]} {[5000 := [5100]]} (edemo register_run)).
  { apply (edemo_ok register_run). rewrite <- (app_nil_r register_run). by apply register_run_valid. }
  assert (H := event_wait_returns _ _ _ _ _ _ (edemo register_run) Any 1 None [EIrq [EBroadcastI 5000 0]] (edemo wait_run) s2
    Hs ltac:(by vm_compute) ltac:(lia) ltac:(by vm_compute) ltac:(done) ltac:(by vm_compute)).
  assert (Hv : valid_eevents 1000 2000 4 (kinds 1000 []) {[2100; 2000]} {[5000 := [5100]]} (edemo wait_run) [EIrq [EBroadcastI 5000 0]]).
  { split; [|done]. split; [by eexists|done]. }
  specialize (H Hv ltac:(split; [by vm_compute|done]) ltac:(by vm_compute) ltac:(by vm_compute)).
  destruct (run_resume Any 1 (bool_decide (None (A := Z) <> None)) s2) as [r s3] eqn:E.
  rewrite (bool_decide_eq_false_2 (None (A := Z) <> None)) in * by naive_solver. rewrite E. cbn [andb fst snd] in *.
  destruct H as (_ & -> & -> & _). split; by vm_compute.
Defined.

Lemma dispatch_in_order_witness :
  chEvtDispatch (fun i (l : list Z) => Some (l ++ [i])) 33 0x80000005 [] = Some [0; 2; 31].
Proof. rewrite (dispatch_in_order _ 0x80000005 []) by lia. by vm_compute. Defined.
