(* ===== verification/Mailboxes.v ===== *)
(** The mailboxes of the kernel (os/rt/src/chmboxes.c, os/rt/include/chmboxes.h): bounded
    queues of messages between threads, which may wait on both sides, and interrupt
    handlers, built on two counting semaphores.

    The positions are indices into the buffer, [mb_top] is its length, the semaphores are
    objects of the kernel by their addresses.  A function that may wait is cut at the
    return of chSemWaitTimeoutS: [chMBPostS] runs from the call, [post_end] from there.
    [sys] holds a mailbox, the kernel and, for every thread that is inside of a function
    of the mailbox, the call it has to finish ([callers]).

    Proved here: for any interleaving of calls, interrupts, time-outs and other work of
    the kernel the mailbox is a bounded double-ended queue, as long as it is not reset
    while a thread that was woken has not run yet; and what happens otherwise. *)
From S2P Require Import Prelude Ring Queues Sched SchedOk Kernel.
Local Open Scope Z_scope.

Record mailbox : Type := Mailbox {
  mb_buffer : list Z;
  mb_wrptr : Z;
  mb_rdptr : Z;
  mb_fullsem : Z;
  mb_emptysem : Z
}.

Definition mb_size (m : mailbox) : Z := len (mb_buffer m).

(** [*mb_wrptr++ = msg;] and the return to the start of the buffer. *)
Definition put_last (msg : Z) (m : mailbox) : option mailbox :=
  match store (mb_buffer m) (mb_wrptr m) msg with
  | None => None
  | Some buf => Some (Mailbox buf (next_pos (mb_size m) (mb_wrptr m)) (mb_rdptr m) (mb_fullsem m) (mb_emptysem m))
  end.

(** The step back of [mb_rdptr], and [*mb_rdptr = msg;]. *)
Definition put_first (msg : Z) (m : mailbox) : option mailbox :=
  let rdptr := prev_pos (mb_size m) (mb_rdptr m) in
  match store (mb_buffer m) rdptr msg with
  | None => None
  | Some buf => Some (Mailbox buf (mb_wrptr m) rdptr (mb_fullsem m) (mb_emptysem m))
  end.

(** [*msgp = *mb_rdptr++;] and the return to the start of the buffer. *)
Definition get_first (m : mailbox) : option (Z * mailbox) :=
  match load (mb_buffer m) (mb_rdptr m) with
  | None => None
  | Some msg =>
      Some (msg, Mailbox (mb_buffer m) (mb_wrptr m) (next_pos (mb_size m) (mb_rdptr m)) (mb_fullsem m) (mb_emptysem m))
  end.

Definition chMBObjectInit (fullsem emptysem : Z) (buf : list Z) (k : kernel) : mailbox * kernel :=
  let m := Mailbox buf 0 0 fullsem emptysem in
  (m, chSemObjectInit fullsem 0 (chSemObjectInit emptysem (len buf) k)).

Definition chMBGetSizeI (m : mailbox) : Z := mb_size m.
Definition chMBGetFreeCountI (m : mailbox) (k : kernel) : Z := s_cnt k (mb_emptysem m).
Definition chMBGetUsedCountI (m : mailbox) (k : kernel) : Z := s_cnt k (mb_fullsem m).
Definition chMBPeekI (m : mailbox) : option Z := load (mb_buffer m) (mb_rdptr m).

(** A call, and how far it came: it returned a status, with the message in [*msgp] if it
    stored one there, or it waits. *)
Inductive mb_call : Type := CPost (msg : Z) | CPostAhead (msg : Z) | CFetch.
Inductive mb_result : Type := Returned (rdymsg : Z) (msgp : option Z) | Asleep.

Section Mailboxes.
Context (rlist : Z) (fuel : nat).

Definition chMBResetI (m : mailbox) (k : kernel) : option (mailbox * kernel) :=
  let m := Mailbox (mb_buffer m) 0 0 (mb_fullsem m) (mb_emptysem m) in
  match chSemResetI rlist fuel (mb_emptysem m) (mb_size m) k with
  | None => None
  | Some k =>
      match chSemResetI rlist fuel (mb_fullsem m) 0 k with
      | None => None
      | Some k => Some (m, k)
      end
  end.

Definition chMBReset (m : mailbox) (k : kernel) : option (mailbox * kernel) :=
  match chMBResetI m k with
  | None => None
  | Some (m, k) => match chSchRescheduleS rlist fuel k with None => None | Some k => Some (m, k) end
  end.

(** [chSemSignalI(sp); chSchRescheduleS();] *)
Definition signal_other (sp : Z) (k : kernel) : option kernel :=
  match chSemSignalI rlist fuel sp k with None => None | Some k => chSchRescheduleS rlist fuel k end.

(** What follows the wait in the three functions that may wait. *)
Definition post_end (msg rdymsg : Z) (m : mailbox) (k : kernel) : option (mb_result * mailbox * kernel) :=
  if rdymsg =? MSG_OK then
    match put_last msg m with
    | None => None
    | Some m =>
        match signal_other (mb_fullsem m) k with
        | None => None
        | Some k => Some (Returned rdymsg None, m, k)
        end
    end
  else Some (Returned rdymsg None, m, k).

Definition post_ahead_end (msg rdymsg : Z) (m : mailbox) (k : kernel) : option (mb_result * mailbox * kernel) :=
  if rdymsg =? MSG_OK then
    match put_first msg m with
    | None => None
    | Some m =>
        match signal_other (mb_fullsem m) k with
        | None => None
        | Some k => Some (Returned rdymsg None, m, k)
        end
    end
  else Some (Returned rdymsg None, m, k).

Definition fetch_end (rdymsg : Z) (m : mailbox) (k : kernel) : option (mb_result * mailbox * kernel) :=
  if rdymsg =? MSG_OK then
    match get_first m with
    | None => None
    | Some (msg, m) =>
        match signal_other (mb_emptysem m) k with
        | None => None
        | Some k => Some (Returned rdymsg (Some msg), m, k)
        end
    end
  else Some (Returned rdymsg None, m, k).

Definition call_end (c : mb_call) : Z -> mailbox -> kernel -> option (mb_result * mailbox * kernel) :=
  match c with CPost msg => post_end msg | CPostAhead msg => post_ahead_end msg | CFetch => fetch_end end.

(** [rdymsg = chSemWaitTimeoutS(sp, timeout);] and what follows when it does not wait. *)
Definition wait_for (sp timeout : Z) (rest : Z -> mailbox -> kernel -> option (mb_result * mailbox * kernel))
    (m : mailbox) (k : kernel) : option (mb_result * mailbox * kernel) :=
  match chSemWaitTimeoutS rlist sp timeout k with
  | (Some rdymsg, k) => rest rdymsg m k
  | (None, k) => Some (Asleep, m, k)
  end.

Definition chMBPostS (msg timeout : Z) (m : mailbox) : kernel -> option (mb_result * mailbox * kernel) :=
  wait_for (mb_emptysem m) timeout (post_end msg) m.
Definition chMBPostAheadS (msg timeout : Z) (m : mailbox) : kernel -> option (mb_result * mailbox * kernel) :=
  wait_for (mb_emptysem m) timeout (post_ahead_end msg) m.
Definition chMBFetchS (timeout : Z) (m : mailbox) : kernel -> option (mb_result * mailbox * kernel) :=
  wait_for (mb_fullsem m) timeout fetch_end m.
Definition chMBPost := chMBPostS.
Definition chMBPostAhead := chMBPostAheadS.
Definition chMBFetch := chMBFetchS.

Definition chMBPostI (msg : Z) (m : mailbox) (k : kernel) : option (mb_result * mailbox * kernel) :=
  if s_cnt k (mb_emptysem m) <=? 0 then Some (Returned MSG_TIMEOUT None, m, k)
  else
    let k := chSemFastWaitI (mb_emptysem m) k in
    match put_last msg m with
    | None => None
    | Some m =>
        match chSemSignalI rlist fuel (mb_fullsem m) k with
        | None => None
        | Some k => Some (Returned MSG_OK None, m, k)
        end
    end.

Definition chMBPostAheadI (msg : Z) (m : mailbox) (k : kernel) : option (mb_result * mailbox * kernel) :=
  if s_cnt k (mb_emptysem m) <=? 0 then Some (Returned MSG_TIMEOUT None, m, k)
  else
    let k := chSemFastWaitI (mb_emptysem m) k in
    match put_first msg m with
    | None => None
    | Some m =>
        match chSemSignalI rlist fuel (mb_fullsem m) k with
        | None => None
        | Some k => Some (Returned MSG_OK None, m, k)
        end
    end.

Definition chMBFetchI (m : mailbox) (k : kernel) : option (mb_result * mailbox * kernel) :=
  if s_cnt k (mb_fullsem m) <=? 0 then Some (Returned MSG_TIMEOUT None, m, k)
  else
    let k := chSemFastWaitI (mb_fullsem m) k in
    match get_first m with
    | None => None
    | Some (msg, m) =>
        match chSemSignalI rlist fuel (mb_emptysem m) k with
        | None => None
        | Some k => Some (Returned MSG_OK (Some msg), m, k)
        end
    end.

(** ** Threads and interrupts *)

Definition chMBCall (c : mb_call) (timeout : Z) : mailbox -> kernel -> option (mb_result * mailbox * kernel) :=
  match c with
  | CPost msg => chMBPost msg timeout
  | CPostAhead msg => chMBPostAhead msg timeout
  | CFetch => chMBFetch timeout
  end.
Definition chMBCallI (c : mb_call) : mailbox -> kernel -> option (mb_result * mailbox * kernel) :=
  match c with CPost msg => chMBPostI msg | CPostAhead msg => chMBPostAheadI msg | CFetch => chMBFetchI end.

(** The semaphore a call waits for. *)
Definition waits_for (m : mailbox) (c : mb_call) : Z :=
  match c with CFetch => mb_fullsem m | _ => mb_emptysem m end.
End Mailboxes.

(** ** Semaphores, exactly *)

Section Semaphores.
Context (rlist idle : Z) (fuel : nat) (kind : gmap Z qkind) (G : ghost).
Notation kmid := (kmid rlist idle fuel kind G).

Lemma readyI_cnt tp k k' : chSchReadyI rlist fuel tp k = Some k' -> s_cnt k' = s_cnt k.
Proof. unfold chSchReadyI. destruct (prio_scan _ _ _ _); [|done]. by intros [= <-]. Qed.

Lemma fifo_cnt q k : s_cnt (snd (fifo_remove q k)) = s_cnt k.
Proof. unfold fifo_remove. by destruct (queue_fifo_remove q (lk k)). Qed.

Lemma ahead_cnt k k' : chSchDoRescheduleAhead rlist fuel k = Some k' -> s_cnt k' = s_cnt k.
Proof.
  unfold chSchDoRescheduleAhead. pose proof (fifo_cnt rlist k) as E. destruct (fifo_remove rlist k) as [tp k1].
  cbn in *. destruct (prio_scan _ _ _ _); [|done]. by intros [= <-].
Qed.

Lemma behind_cnt k k' : chSchDoRescheduleBehind rlist fuel k = Some k' -> s_cnt k' = s_cnt k.
Proof.
  unfold chSchDoRescheduleBehind. pose proof (fifo_cnt rlist k) as E. destruct (fifo_remove rlist k) as [tp k1].
  intros ->%readyI_cnt. exact E.
Qed.

Lemma reschedule_cnt k k' : chSchRescheduleS rlist fuel k = Some k' -> s_cnt k' = s_cnt k.
Proof. unfold chSchRescheduleS. destruct (chSchIsRescRequiredI _ _); [apply ahead_cnt|by intros [= <-]]. Qed.

Lemma epilogue_cnt k k' : irq_epilogue rlist fuel k = Some k' -> s_cnt k' = s_cnt k.
Proof.
  unfold irq_epilogue, chSchDoReschedule. destruct (chSchIsPreemptionRequired _ _); [|by intros [= <-]].
  destruct (_ =? _); [apply behind_cnt|apply ahead_cnt].
Qed.

Lemma go_sleep_cnt st time k : s_cnt (chSchGoSleepTimeoutS rlist st time k) = s_cnt k.
Proof.
  unfold chSchGoSleepTimeoutS, chSchGoSleepS. cbv zeta.
  match goal with |- context [fifo_remove ?q ?k1] => pose proof (fifo_cnt q k1) as E; destruct (fifo_remove q k1) as [tp k2] end.
  cbn in *. rewrite E. by destruct (negb _).
Qed.

(** A signal adds a unit, or gives it to a waiting thread. *)
Lemma signal_exact T k qs sp : kmid T None k qs -> kind !! sp = Some QSem -> s_cnt k sp < 2147483647 ->
  exists k' qs', chSemSignalI rlist fuel sp k = Some k' /\ kmid T None k' qs' /\ same_run k k' /\
    s_cnt k' = upd sp (s_cnt k sp + 1) (s_cnt k) /\
    (0 <= s_cnt k sp /\ p_state k' = p_state k /\ p_u k' = p_u k \/
     s_cnt k sp < 0 /\ exists x, x ∈ T /\ (p_state k x = CH_STATE_WTSEM /\ p_u k x = sp) /\
       p_state k' = upd x CH_STATE_READY (p_state k) /\ p_u k' = upd x MSG_OK (p_u k)).
Proof.
  intros Hk Hs Hb. destruct (signal_cases rlist idle fuel kind G T k qs sp Hk Hs Hb) as
    (Ec & [[E H]|(E & x & r & m & Hq & Ef & H & Hx & Hh)]); unfold chSemSignalI; cbv zeta; rewrite E;
    cbn in Ec; rewrite upd_eq in Ec.
  - eexists _, qs. split; [done|split; [exact H|]]. cbn. rewrite Ec. split; [done|split; [done|left]].
    cbn in E. rewrite upd_eq, Ec in E. split; [lia|done].
  - rewrite Ef. destruct (wake_any rlist idle fuel kind G T _ _ x MSG_OK H Hx) as (k' & qs' & -> & Hk' & (R1 & R2 & R3 & R4) & Es & Eu & Hc & _).
    destruct (ko_members _ _ _ _ _ _ _ _ (km_ok _ _ _ _ _ _ _ _ Hk) sp QSem _ x Hs Hq (or_introl eq_refl)) as (_ & _ & Hw).
    exists k', qs'. split; [done|split; [done|split; [|split]]].
    + repeat (split; [done|]). intros y. rewrite Es, Eu. cbn. unfold upd.
      destruct (Z.eqb_spec y x) as [->|]; [by right|by left].
    + rewrite Hc. cbn. by rewrite Ec.
    + right. cbn in E. rewrite upd_eq, Ec in E. split; [lia|]. by exists x.
Qed.

(** A wait takes a unit, times out at once, or goes to sleep. *)
Lemma wait_exact T k qs sp time : kmid T None k qs -> r_current k <> idle -> kind !! sp = Some QSem ->
  -2147483648 < s_cnt k sp ->
  exists k' qs', kmid T None k' qs' /\
  ((0 < s_cnt k sp /\ chSemWaitTimeoutS rlist sp time k = (Some MSG_OK, k') /\ k' = set_cnt sp (s_cnt k sp - 1) k) \/
   (s_cnt k sp <= 0 /\ chSemWaitTimeoutS rlist sp time k = (Some MSG_TIMEOUT, k') /\ time = TIME_IMMEDIATE /\
     (forall x, s_cnt k' x = s_cnt k x) /\ p_state k' = p_state k /\ p_u k' = p_u k /\ r_current k' = r_current k /\
     p_prio k' = p_prio k /\ qs' = qs) \/
   (s_cnt k sp <= 0 /\ chSemWaitTimeoutS rlist sp time k = (None, k') /\ time <> TIME_IMMEDIATE /\ top rlist k' qs' /\
     s_cnt k' = upd sp (s_cnt k sp - 1) (s_cnt k) /\ p_u k' = upd (r_current k) sp (p_u k) /\
     r_current k' <> r_current k /\ p_state k (r_current k') = CH_STATE_READY /\
     p_state k' = upd (r_current k') CH_STATE_CURRENT (upd (r_current k) CH_STATE_WTSEM (p_state k)))).
Proof.
  intros Hk Hi Hkd Hb. pose proof Hk as [Hok (Hc & _) Har].
  destruct (sem_queue rlist idle fuel kind G T None k qs sp Hok Hkd) as (l & Hq & Hl1 & Hl2).
  unfold chSemWaitTimeoutS. cbv zeta. rewrite (s32_id (s_cnt k sp - 1)) by lia.
  cbn [s_cnt set_cnt]. rewrite upd_eq. destruct (s_cnt k sp - 1 <? 0) eqn:E; [destruct (Z.eqb_spec time TIME_IMMEDIATE) as [Et|Et]|].
  - rewrite s32_id by lia. eexists _, qs. split; [|right; left; split; [lia|]; split; [done|split; [done|]]].
    + constructor; [|exact (km_run _ _ _ _ _ _ _ _ Hk)|exact Har].
      apply (kok_ext _ _ _ _ _ _ _ _ _ _ Hok); try (intros; reflexivity). intros y. cbn. unfold upd.
      destruct (Z.eqb_spec y sp); [subst; lia|done].
    + split; [|done]. intros y. cbn. unfold upd. destruct (Z.eqb_spec y sp); [subst; lia|done].
  - destruct (wait_queue rlist idle fuel kind G T k qs sp Hk Hi Hkd) as (qs' & _ & H); [lia|].
    destruct (sleep_timeout_gen rlist idle fuel kind G T _ qs' CH_STATE_WTSEM time H Hc Hi) as (qs2 & H1 & H2 & (_ & H3 & H4 & H5 & H6));
      [done|done|exact Har|].
    eexists _, qs2. split; [exact H1|]. right; right. split; [lia|split; [done|split; [done|split; [exact H2|]]]].
    rewrite go_sleep_cnt, H6, H3. cbn in *. done.
  - eexists _, qs. split; [|left; split; [lia|done]].
    by apply (taken_unit rlist idle fuel kind G T k qs sp Hk Hkd); lia.
Qed.
End Semaphores.

(** ** The threads inside of a function of the mailbox *)

Section Callers.
Context (rlist idle : Z) (fuel : nat) (kind : gmap Z qkind) (fs es : Z).
Implicit Types (W : gmap Z mb_call) (T : gset Z) (k : kernel).

Definition need (c : mb_call) : Z := match c with CFetch => fs | _ => es end.
Definition ours (sp : Z) : Prop := sp = fs \/ sp = es.

(** The threads to which a unit of [sp] was given and that have not run yet. *)
Definition granted (W : gmap Z mb_call) (k : kernel) (sp : Z) : gset Z :=
  filter (fun tp => runnable (p_state k tp) = true /\ p_u k tp = MSG_OK)
    (dom (filter (fun p : Z * mb_call => need p.2 = sp) W)).

(** The units of [sp]: free, or given. *)
Definition units (W : gmap Z mb_call) (k : kernel) (sp : Z) : Z :=
  Z.max 0 (s_cnt k sp) + Z.of_nat (size (granted W k sp)).

Lemma elem_of_granted W k sp tp : tp ∈ granted W k sp <->
  runnable (p_state k tp) = true /\ p_u k tp = MSG_OK /\ exists c, W !! tp = Some c /\ need c = sp.
Proof.
  unfold granted. rewrite elem_of_filter, elem_of_dom. unfold is_Some. setoid_rewrite map_lookup_filter_Some.
  cbn. split; [intros [[H1 H2] H3]|intros (H1 & H2 & H3)]; by repeat split.
Qed.

(** The kernel is well formed; if [b], no ready thread should run instead of the running
    one. *)
Definition fine (b : bool) (T : gset Z) (k : kernel) : Prop :=
  exists G qs, kmid rlist idle fuel kind G T None k qs /\ (b = true -> top rlist k qs).

Record callers_ok (b : bool) (W : gmap Z mb_call) (T : gset Z) (k : kernel) : Prop := {
  ca_kernel : fine b T k;
  ca_kinds : kind !! fs = Some QSem /\ kind !! es = Some QSem /\ fs <> es;
  ca_waits : forall tp c, W !! tp = Some c -> tp ∈ T /\
    (p_state k tp = CH_STATE_WTSEM /\ p_u k tp = need c \/
     runnable (p_state k tp) = true /\ (p_u k tp = MSG_OK \/ p_u k tp = MSG_TIMEOUT \/ p_u k tp = MSG_RESET));
  ca_only : forall x, x ∈ T -> p_state k x = CH_STATE_WTSEM -> ours (p_u k x) ->
    exists c, W !! x = Some c /\ need c = p_u k x
}.

(** Neither the counters nor the threads of the mailbox change, but for the processor. *)
Definition undisturbed (W : gmap Z mb_call) (T' : gset Z) (k k' : kernel) : Prop :=
  (forall sp, ours sp -> s_cnt k' sp = s_cnt k sp) /\
  (forall tp c, W !! tp = Some c -> p_u k' tp = p_u k tp /\
    (p_state k' tp = p_state k tp \/ runnable (p_state k tp) = true /\ runnable (p_state k' tp) = true)) /\
  (forall x, x ∈ T' -> p_state k' x = CH_STATE_WTSEM -> ours (p_u k' x) -> is_Some (W !! x)).

Lemma granted_same W k k' sp : (forall tp c, W !! tp = Some c -> p_u k' tp = p_u k tp /\
    (p_state k' tp = p_state k tp \/ runnable (p_state k tp) = true /\ runnable (p_state k' tp) = true)) ->
  granted W k' sp = granted W k sp.
Proof.
  intros H. apply set_eq. intros tp. rewrite !elem_of_granted.
  split; intros (H1 & H2 & c & H3 & H4); destruct (H tp c H3) as [E1 E2]; repeat split; try congruence; try (by exists c);
    destruct E2 as [E2|[E2 E3]]; congruence.
Qed.

Lemma units_undisturbed W T' k k' sp : undisturbed W T' k k' -> ours sp -> units W k' sp = units W k sp.
Proof. intros (H1 & H2 & _) Hs. unfold units. rewrite H1 by done. by rewrite (granted_same W k k'). Qed.

Lemma undisturbed_ok b b' W T T' k k' : callers_ok b W T k -> undisturbed W T' k k' -> T ⊆ T' ->
  fine b' T' k' -> callers_ok b' W T' k'.
Proof.
  intros [_ H2 H3 H4] (U1 & U2 & U3) HT Hk. constructor; [done|done| |].
  - intros tp c HW. destruct (H3 tp c HW) as [Ht [[S1 S2]|[S1 S2]]]; (split; [set_solver|]);
      destruct (U2 tp c HW) as [-> [E2|[E2 E3]]]; rewrite ?E2, ?E3 in *; try (by left); try (by right); by rewrite S1 in E2.
  - intros x Hx Hw Ho. destruct (U3 x Hx Hw Ho) as [c Hc]. exists c. split; [done|].
    destruct (U2 x c Hc) as [E1 E2]. destruct E2 as [E2|[_ E2]]; [|by rewrite Hw in E2].
    destruct (H3 x c Hc) as [_ [[S1 S2]|[S1 _]]]; [congruence|]. rewrite <- E2, Hw in S1. done.
Qed.

(** Threads of the mailbox exchange the processor, or timers change. *)
Definition exchanged (k k' : kernel) : Prop := s_cnt k' = s_cnt k /\ p_u k' = p_u k /\ forall x,
  p_state k' x = p_state k x \/ runnable (p_state k x) = true /\ runnable (p_state k' x) = true.

Lemma exchanged_undisturbed b W T k k' : callers_ok b W T k -> exchanged k k' -> undisturbed W T k k'.
Proof.
  intros H (E1 & E2 & E3). split; [intros sp _; by rewrite E1|split; [intros tp c _; by rewrite E2|]].
  intros x Hx Hw Ho. rewrite E2 in Ho. destruct (E3 x) as [E|[_ E]]; [|by rewrite Hw in E].
  destruct (ca_only _ _ _ _ H x Hx) as (c & Hc & _); [congruence|done|by exists c].
Qed.

Lemma exchanged_ok b b' W T k k' : callers_ok b W T k -> exchanged k k' -> fine b' T k' ->
  callers_ok b' W T k' /\ forall sp, ours sp -> units W k' sp = units W k sp.
Proof.
  intros H He Hk. pose proof (exchanged_undisturbed b W T k k' H He) as Hu.
  split; [by apply (undisturbed_ok b b' W T T k)|]. intros sp Hs. by apply (units_undisturbed W T).
Qed.

Lemma ours_sem b W T k sp : callers_ok b W T k -> ours sp -> kind !! sp = Some QSem.
Proof. intros [_ (? & ? & _) _ _] [->| ->]; done. Qed.

(** Semaphores count up to 2^31. *)
Hypothesis (fuel_bound : Z.of_nat fuel <= 2147483648).

(** The number of waiting threads is bounded. *)
Lemma count_bound b W T k sp : callers_ok b W T k -> ours sp -> -2147483648 < s_cnt k sp.
Proof using fuel_bound.
  intros H Hs. destruct (ca_kernel _ _ _ _ H) as (G & qs & Hk & _). pose proof (km_ok _ _ _ _ _ _ _ _ Hk) as Hok.
  destruct (sem_queue rlist idle fuel kind G T None k qs sp Hok (ours_sem b W T k sp H Hs)) as (l & Hq & Hl & _).
  pose proof (kok_length _ _ _ _ _ _ _ _ Hok sp l Hq). lia.
Qed.

(** A semaphore with a waiting thread has no free units. *)
Lemma waiting_count G T k qs sp x : kmid rlist idle fuel kind G T None k qs -> kind !! sp = Some QSem -> x ∈ T ->
  p_state k x = CH_STATE_WTSEM -> p_u k x = sp -> s_cnt k sp < 0.
Proof.
  intros Hk Hkd Hx Hw Hu. pose proof (km_ok _ _ _ _ _ _ _ _ Hk) as Hok.
  destruct (ko_threads _ _ _ _ _ _ _ _ Hok x Hx ltac:(done)) as [_ Hth]. rewrite Hw, Hu in Hth.
  destruct Hth as (_ & l & Hq & Hin). destruct (ko_sem _ _ _ _ _ _ _ _ Hok sp l Hkd Hq) as [Hl _].
  destruct l; [done|]. cbn in Hl. lia.
Qed.

(** A unit is given to a thread [x] that waits for it. *)
Lemma granted_give b W T k k' sp x : callers_ok b W T k -> ours sp -> x ∈ T -> p_state k x = CH_STATE_WTSEM -> p_u k x = sp ->
  p_state k' = upd x CH_STATE_READY (p_state k) -> p_u k' = upd x MSG_OK (p_u k) ->
  size (granted W k' sp) = S (size (granted W k sp)) /\ forall sp', sp' <> sp -> granted W k' sp' = granted W k sp'.
Proof.
  intros H Ho Hx Hw Hu Es Eu. destruct (ca_only _ _ _ _ H x Hx Hw) as (c & Hc & Hn); [by rewrite Hu|]. rewrite Hu in Hn.
  assert (Hmem : forall y sp', y ∈ granted W k' sp' <-> y ∈ granted W k sp' \/ y = x /\ sp' = sp).
  { intros y sp'. rewrite !elem_of_granted, Es, Eu. unfold upd. destruct (Z.eqb_spec y x) as [->|].
    - split; [intros (_ & _ & c' & Hc' & Hn'); right; split; congruence|].
      intros [(Hr & _)|[_ ->]]; [by rewrite Hw in Hr|]. split; [done|split; [done|]]. by exists c.
    - split; [by left|]. by intros [?|[? _]]. }
  split.
  - replace (granted W k' sp) with ({[x]} ∪ granted W k sp).
    + rewrite size_union, size_singleton; [done|]. apply disjoint_singleton_l. rewrite elem_of_granted, Hw. by intros [? _].
    + apply set_eq. intros y. rewrite Hmem. set_solver.
  - intros sp' Hne. apply set_eq. intros y. rewrite Hmem. split; [by intros [?|[_ ?]]|by left].
Qed.

(** A signal adds one unit. *)
Lemma signal_units b W T k sp : callers_ok b W T k -> ours sp -> units W k sp < 2147483647 ->
  exists k', chSemSignalI rlist fuel sp k = Some k' /\ callers_ok false W T k' /\ same_run k k' /\
    units W k' sp = units W k sp + 1 /\ forall sp', ours sp' -> sp' <> sp -> units W k' sp' = units W k sp'.
Proof.
  intros H Ho Hb. destruct (ca_kernel _ _ _ _ H) as (G & qs & Hk & _). unfold units in Hb.
  destruct (signal_exact rlist idle fuel kind G T k qs sp Hk (ours_sem b W T k sp H Ho)) as
    (k' & qs' & E & Hk' & Hr & Ec & Hc); [lia|]. exists k'. split; [done|].
  assert (Hne : forall sp', sp' <> sp -> s_cnt k' sp' = s_cnt k sp') by (intros; rewrite Ec; by apply upd_ne).
  assert (Heq : s_cnt k' sp = s_cnt k sp + 1) by (rewrite Ec; apply upd_eq). unfold units.
  destruct Hc as [(Hc & Es & Eu)|(Hc & x & Hx & [Hw Hu] & Es & Eu)].
  - assert (Hg : forall sp', granted W k' sp' = granted W k sp').
    { intros sp'. apply granted_same. intros tp c _. rewrite Es, Eu. split; [done|by left]. }
    split; [|split; [done|rewrite Heq, Hg; split; [lia|intros sp' _ Hn; by rewrite Hne, Hg]]].
    destruct H as [_ H2 H3 H4]. constructor; rewrite ?Es, ?Eu; [by exists G, qs'; split|done|done|done].
  - destruct (granted_give b W T k k' sp x H Ho Hx Hw Hu Es Eu) as [Hg1 Hg2].
    split; [|split; [done|rewrite Heq, Hg1; split; [lia|intros sp' _ Hn; by rewrite Hne, Hg2]]].
    destruct H as [_ H2 H3 H4]. constructor; [by exists G, qs'; split|done| |].
    + intros tp c HW. destruct (H3 tp c HW) as [Ht Hs]. split; [done|]. rewrite Es, Eu. unfold upd.
      destruct (Z.eqb_spec tp x); [right; split; [done|by left]|done].
    + intros y Hy. rewrite Es, Eu. unfold upd. destruct (Z.eqb_spec y x); [done|]. by apply H4.
Qed.

(** A unit is taken without waiting. *)
Lemma take_units b W T k sp : callers_ok b W T k -> ours sp -> 0 < s_cnt k sp ->
  let k' := set_cnt sp (s_cnt k sp - 1) k in
  callers_ok b W T k' /\ units W k' sp = units W k sp - 1 /\
  forall sp', ours sp' -> sp' <> sp -> units W k' sp' = units W k sp'.
Proof.
  intros H Ho Hc k'. pose proof H as [(G & qs & Hk & Ht) H2 H3 H4]. unfold units, granted. cbn.
  rewrite upd_eq. split; [|split; [lia|intros sp' _ Hn; by rewrite upd_ne]].
  constructor; [|done|done|done]. exists G, qs. split; [|done].
  by apply taken_unit; [|apply (ours_sem b W T k sp)|].
Qed.

(** The running thread, outside of the mailbox, waits for the semaphore of its call. *)
Lemma wait_units b W T k c time : callers_ok b W T k -> W !! r_current k = None -> r_current k <> idle ->
  exists k',
  (chSemWaitTimeoutS rlist (need c) time k = (Some MSG_OK, k') /\ callers_ok b W T k' /\
    units W k' (need c) = units W k (need c) - 1 /\
    forall sp, ours sp -> sp <> need c -> units W k' sp = units W k sp) \/
  (chSemWaitTimeoutS rlist (need c) time k = (Some MSG_TIMEOUT, k') /\ time = TIME_IMMEDIATE /\
    s_cnt k (need c) <= 0 /\ callers_ok b W T k' /\ forall sp, ours sp -> units W k' sp = units W k sp) \/
  (chSemWaitTimeoutS rlist (need c) time k = (None, k') /\ time <> TIME_IMMEDIATE /\ s_cnt k (need c) <= 0 /\
    callers_ok true (<[r_current k := c]> W) T k' /\
    forall sp, ours sp -> units (<[r_current k := c]> W) k' sp = units W k sp).
Proof using fuel_bound.
  intros H HW Hi. assert (Ho : ours (need c)) by (destruct c; cbn; unfold ours; auto).
  pose proof H as [(G & qs & Hk & Ht) H2 H3 H4]. pose proof (ours_sem b W T k _ H Ho) as Hkd.
  destruct (wait_exact rlist idle fuel kind G T k qs (need c) time Hk Hi Hkd (count_bound b W T k _ H Ho)) as
    (k' & qs' & Hk' & [(Hc & E & Ek)|[(Hc & E & Et & Ec & Es & Eu & Er & Ep & ->)|(Hc & E & Et & Htop & Ec & Eu & Hn & Hr & Es)]]);
    exists k'.
  - left. split; [done|]. subst k'. by apply take_units.
  - right; left. split; [done|split; [done|split; [done|]]].
    assert (Hu : undisturbed W T k k').
    { split; [intros sp _; apply Ec|split; [intros tp c' _; rewrite Es, Eu; split; [done|by left]|]].
      intros x Hx. rewrite Es, Eu. intros Hw Hx2. destruct (H4 x Hx Hw Hx2) as (c' & Hc' & _). by exists c'. }
    split; [|intros sp Hs; by apply (units_undisturbed W T)].
    apply (undisturbed_ok b b W T T k k' H Hu); [done|]. exists G, qs. split; [done|]. unfold top. rewrite Ep, Er. exact Ht.
  - right; right. split; [done|split; [done|split; [done|]]].
    pose proof (proj1 (km_run _ _ _ _ _ _ _ _ Hk)) as Hcur.
    assert (Est : forall x, p_state k' x = if decide (x = r_current k) then CH_STATE_WTSEM else
      if decide (x = r_current k') then CH_STATE_CURRENT else p_state k x).
    { intros x. rewrite Es. unfold upd. destruct (Z.eqb_spec x (r_current k')), (Z.eqb_spec x (r_current k)); repeat case_decide; congruence. }
    assert (Eut : forall x, p_u k' x = if decide (x = r_current k) then need c else p_u k x).
    { intros x. rewrite Eu. unfold upd. case_decide; destruct (Z.eqb_spec x (r_current k)); congruence. }
    split.
    + constructor; [by exists G, qs'|done| |].
      * intros tp c' Hl. rewrite Est, Eut. case_decide as Htp.
        { subst tp. rewrite lookup_insert_eq in Hl. injection Hl as ->. split; [done|by left]. }
        rewrite lookup_insert_ne in Hl by done. destruct (H3 tp c' Hl) as [HT Hst]. split; [done|].
        case_decide; [|done]. subst tp. destruct Hst as [[Hst _]|[_ Hst]]; [congruence|by right].
      * intros x Hx. rewrite Est, Eut. case_decide as Htp; [intros _ _; subst x; exists c; by rewrite lookup_insert_eq|].
        case_decide; [done|]. rewrite lookup_insert_ne by done. by apply H4.
    + intros sp Hs. unfold units. f_equal.
      * rewrite Ec. unfold upd. destruct (Z.eqb_spec sp (need c)); [subst; lia|done].
      * f_equal. f_equal. apply set_eq. intros x. rewrite !elem_of_granted, Est, Eut. case_decide as Htp.
        { subst x. rewrite HW. split; [by intros [? _]|]. by intros (_ & _ & c' & ? & _). }
        rewrite lookup_insert_ne by done. case_decide; [|done]. subst x. by rewrite Hr.
Qed.

(** The running thread, inside of the mailbox, leaves it: with a unit if it was given one. *)
Lemma leave_units b W T k c : callers_ok b W T k -> W !! r_current k = Some c ->
  callers_ok b (delete (r_current k) W) T k /\
  (p_u k (r_current k) = MSG_OK \/ p_u k (r_current k) = MSG_TIMEOUT \/ p_u k (r_current k) = MSG_RESET) /\
  units (delete (r_current k) W) k (need c) = units W k (need c) - (if p_u k (r_current k) =? MSG_OK then 1 else 0) /\
  forall sp, ours sp -> sp <> need c -> units (delete (r_current k) W) k sp = units W k sp.
Proof.
  intros H HW. pose proof H as [(G & qs & Hk & Ht) H2 H3 H4]. pose proof (km_run _ _ _ _ _ _ _ _ Hk) as (Hcur & Hst & _).
  assert (Hmem : forall x sp, x ∈ granted (delete (r_current k) W) k sp <-> x ∈ granted W k sp /\ x <> r_current k).
  { intros x sp. rewrite !elem_of_granted. split.
    - intros (A1 & A2 & c' & [Hne A3]%lookup_delete_Some & A4). split; [|done]. split; [done|split; [done|by exists c']].
    - intros ((A1 & A2 & c' & A3 & A4) & Hne). split; [done|split; [done|]]. exists c'. by rewrite lookup_delete_ne. }
  split; [|split; [|split]].
  - constructor; [by exists G, qs|done| |].
    + intros tp c' [_ Hl]%lookup_delete_Some. by apply H3.
    + intros x Hx Hw Ho. destruct (H4 x Hx Hw Ho) as (c' & Hc' & Hn). exists c'. split; [|done].
      rewrite lookup_delete_ne; [done|]. intros <-. congruence.
  - destruct (H3 _ _ HW) as [_ [[Hw _]|[_ Hw]]]; [congruence|done].
  - unfold units. destruct (Z.eqb_spec (p_u k (r_current k)) MSG_OK) as [Eu|Eu].
    + assert (Hin : r_current k ∈ granted W k (need c)).
      { rewrite elem_of_granted, Hst. split; [done|split; [done|by exists c]]. }
      replace (granted (delete (r_current k) W) k (need c)) with (granted W k (need c) ∖ {[r_current k]})
        by (apply set_eq; intros x; rewrite Hmem; set_solver).
      rewrite size_difference by set_solver. rewrite size_singleton.
      assert (size (granted W k (need c)) <> 0%nat) by (rewrite size_non_empty_iff; set_solver). lia.
    + replace (granted (delete (r_current k) W) k (need c)) with (granted W k (need c)); [lia|].
      apply set_eq. intros x. rewrite Hmem. split; [|by intros [? _]]. intros Hin. split; [done|]. intros ->.
      by apply elem_of_granted in Hin as (_ & ? & _).
  - intros sp _ Hne. unfold units. replace (granted (delete (r_current k) W) k sp) with (granted W k sp); [done|].
    apply set_eq. intros x. rewrite Hmem. split; [|by intros [? _]]. intros Hin. split; [done|]. intros ->.
    apply elem_of_granted in Hin as (_ & _ & c' & Hc' & Hn). congruence.
Qed.

(** A thread of the mailbox is woken by its timer. *)
Lemma timeout_cnt tp k k' : timeout rlist fuel tp k = Some k' ->
  match p_state k tp with
  | CH_STATE_WTSEM => s_cnt k' = upd (p_u k tp) (s32 (s_cnt k (p_u k tp) + 1)) (s_cnt k)
  | CH_STATE_READY => s_cnt k' = s_cnt k
  | _ => True
  end.
Proof.
  unfold timeout, wakeup. cbn [p_state set_armed p_u]. destruct (p_state k tp); try done; [by intros [= <-]|].
  intros ->%readyI_cnt. done.
Qed.

Lemma timeout_units b W T k tp c : callers_ok b W T k -> quiet k -> armed k tp = true -> W !! tp = Some c ->
  exists k', timeout rlist fuel tp k = Some k' /\ callers_ok false W T k' /\
    forall sp, ours sp -> units W k' sp = units W k sp.
Proof.
  intros H Hq Ha HW. pose proof H as [(G & qs & Hk & _) H2 H3 H4].
  destruct (timeout_ok rlist idle fuel kind G T k qs tp Hk Hq Ha) as (k' & qs' & E & Hk' & Hr & _ & _ & Hne & _ & Hto).
  exists k'. split; [done|]. pose proof (timeout_cnt tp k k' E) as Hc. unfold timed_out in Hto.
  assert (Hf : fine false T k') by by exists G, qs'.
  destruct (H3 tp c HW) as [Ht [[Hw Hu]|[Hrun _]]].
  - rewrite Hw in Hc, Hto. destruct Hto as [Es Eu]. rewrite Hu in Hc.
    assert (Ho : ours (need c)) by (destruct c; cbn; unfold ours; auto).
    pose proof (waiting_count G T k qs (need c) tp Hk (ours_sem b W T k _ H Ho) Ht Hw Hu) as Hneg.
    rewrite s32_id in Hc by (pose proof (count_bound b W T k _ H Ho); lia).
    split.
    + constructor; [done|done| |].
      * intros x c' Hx. rewrite Es, Eu. unfold upd. destruct (Z.eqb_spec x tp) as [->|]; [|by apply H3].
        split; [done|]. right. split; [done|]. by right; left.
      * intros x Hx. rewrite Es, Eu. unfold upd. destruct (Z.eqb_spec x tp); [done|]. by apply H4.
    + intros sp Hs. unfold units. rewrite Hc. f_equal.
      * unfold upd. destruct (Z.eqb_spec sp (need c)); [subst; lia|done].
      * f_equal. f_equal. apply set_eq. intros x. rewrite !elem_of_granted, Es, Eu. unfold upd.
        destruct (Z.eqb_spec x tp) as [->|]; [|done]. rewrite Hw. by split; intros (? & ? & _).
  - destruct (decide (p_state k tp = CH_STATE_READY)) as [Er|Hnr].
    + rewrite Er in Hc. destruct Hto as [Es Eu]. apply (exchanged_ok b false); try done.
      split; [done|split; [done|]]. intros x. left. by rewrite Es.
    + exfalso. destruct (p_state k tp) eqn:Est; try done.
      destruct (ko_threads _ _ _ _ _ _ _ _ (km_ok _ _ _ _ _ _ _ _ Hk) tp Ht ltac:(done)) as [_ Hth]. by rewrite Est in Hth.
Qed.

(** A reset of a semaphore: its units are the new counter, and those that were given. *)
Lemma reset_units b W T k sp v : callers_ok b W T k -> ours sp -> 0 <= v < 2147483648 -> s_cnt k sp < 2147483647 ->
  exists k', chSemResetI rlist fuel sp v k = Some k' /\ callers_ok false W T k' /\ same_run k k' /\
    s_cnt k' = upd sp v (s_cnt k) /\ forall sp', granted W k' sp' = granted W k sp'.
Proof.
  intros H Ho Hv Hb. pose proof H as [(G & qs & Hk & _) H2 H3 H4]. pose proof (ours_sem b W T k sp H Ho) as Hkd.
  destruct (chSemResetI_gen rlist idle fuel kind G T k qs sp v Hk Hkd Hv Hb) as (k' & qs' & E & Hk' & Hsr & Hc & Hf).
  cbn in Hc, Hf. exists k'. split; [done|].
  assert (Hall : forall x, x ∈ T -> p_state k' x = CH_STATE_WTSEM -> p_u k' x <> sp).
  { intros x Hx Hw Hu. pose proof (waiting_count G T k' qs' sp x Hk' Hkd Hx Hw Hu) as Hn. rewrite Hc, upd_eq in Hn. lia. }
  split; [|split; [done|split; [done|]]].
  - constructor; [by exists G, qs'|done| |].
    + intros tp c HW. destruct (H3 tp c HW) as [Ht Hs]. split; [done|].
      destruct (Hf tp) as [[-> ->]|[_ [-> ->]]]; [done|]. right. split; [done|]. by right; right.
    + intros x Hx Hw Hu. destruct (Hf x) as [[E1 E2]|[_ [E1 _]]]; [|congruence].
      rewrite E2 in *. by apply H4; [|congruence|].
  - intros sp'. apply set_eq. intros x. rewrite !elem_of_granted.
    destruct (Hf x) as [[-> ->]|[[-> _] [_ ->]]]; [done|]. by split; intros (? & ? & _).
Qed.
End Callers.

(** ** The buffer and the semaphores *)

Section Boxes.
Context (rlist idle : Z) (fuel : nat) (kind : gmap Z qkind) (fs es : Z).
Notation callers_ok := (callers_ok rlist idle fuel kind fs es).
Notation units := (units fs es).
Notation need := (need fs es).
Notation ours := (ours fs es).
Notation granted := (granted fs es).

(** The mailbox holds the messages [c]; [dp] places and [df] messages are between the two
    semaphores: taken from one and not yet signalled to the other. *)
Record box_ok (b : bool) (m : mailbox) (c : list Z) (W : gmap Z mb_call) (T : gset Z) (k : kernel) (dp df : Z) : Prop := {
  bo_ring : ring_ok (mb_buffer m) (mb_rdptr m) (mb_wrptr m) c;
  bo_size : mb_size m < 2147483647;
  bo_sems : mb_fullsem m = fs /\ mb_emptysem m = es;
  bo_callers : callers_ok b W T k;
  bo_free : units W k es + len c + dp = mb_size m;
  bo_used : units W k fs + df = len c
}.

Lemma units_pos W k sp : 0 <= units W k sp.
Proof. unfold Mailboxes.units. lia. Qed.

(** The two semaphores are different. *)
Lemma box_apart b m c W T k dp df : box_ok b m c W T k dp df -> fs <> es.
Proof. intros [_ _ _ [_ (_ & _ & H) _ _] _ _]. done. Qed.

Lemma box_room b m c W T k df : box_ok b m c W T k 1 df -> len c < mb_size m.
Proof. intros H. pose proof (bo_free _ _ _ _ _ _ _ _ H). pose proof (units_pos W k es). lia. Qed.

Lemma len_insert {A} (b : list A) i v : len (<[i:=v]> b) = len b.
Proof. unfold len. by rewrite length_insert. Qed.

(** A place that was taken is filled. *)
Lemma put_last_ok b m c W T k msg : box_ok b m c W T k 1 0 ->
  exists m', put_last msg m = Some m' /\ box_ok b m' (c ++ [msg]) W T k 0 1 /\ mb_size m' = mb_size m.
Proof.
  intros H. pose proof (box_room _ _ _ _ _ _ _ H) as Hl. destruct H as [Hr Hs Hm Hc Hf Hu].
  pose proof (ring_wr_range _ _ _ _ Hr) as Hw. unfold put_last, mb_size in *. rewrite store_in by exact Hw.
  eexists. split; [done|]. cbn. rewrite len_insert. split; [|done].
  assert (Ec : len (c ++ [msg]) = len c + 1) by (unfold len; rewrite length_app; cbn; lia).
  constructor; unfold mb_size; cbn; rewrite ?len_insert, ?Ec; try done; [by apply ring_push|lia|lia].
Qed.

Lemma put_first_ok b m c W T k msg : box_ok b m c W T k 1 0 ->
  exists m', put_first msg m = Some m' /\ box_ok b m' (msg :: c) W T k 0 1 /\ mb_size m' = mb_size m.
Proof.
  intros H. pose proof (box_room _ _ _ _ _ _ _ H) as Hl. destruct H as [Hr Hs Hm Hc Hf Hu].
  pose proof Hr as [Hrd _ _ _]. unfold put_first, mb_size in *.
  assert (Hp : 0 <= prev_pos (len (mb_buffer m)) (mb_rdptr m) < len (mb_buffer m))
    by (rewrite prev_pos_mod by done; apply Z.mod_pos_bound; lia).
  rewrite store_in by exact Hp. eexists. split; [done|]. cbn. rewrite len_insert. split; [|done].
  assert (Ec : len (msg :: c) = len c + 1) by (unfold len; cbn [length]; lia).
  constructor; unfold mb_size; cbn [mb_buffer mb_rdptr mb_wrptr mb_fullsem mb_emptysem]; rewrite ?len_insert, ?Ec; try done;
    [by apply ring_push_front|lia|lia].
Qed.

(** A message that was taken is read. *)
Lemma get_first_ok b m c W T k : box_ok b m c W T k 0 1 ->
  exists msg c' m', c = msg :: c' /\ get_first m = Some (msg, m') /\ box_ok b m' c' W T k 1 0 /\ mb_size m' = mb_size m.
Proof.
  intros [Hr Hs Hm Hc Hf Hu]. pose proof (units_pos W k fs). destruct c as [|msg c]; [unfold len in Hu; cbn in Hu; lia|].
  destruct (ring_pop _ _ _ _ _ Hr) as [Hl Hr']. pose proof Hr as [Hrd _ _ _]. exists msg, c.
  unfold get_first, load. replace (0 <=? mb_rdptr m) with true by lia. rewrite Hl. eexists. split; [done|split; [done|]].
  assert (Ec : len (msg :: c) = len c + 1) by (unfold len; cbn [length]; lia). rewrite Ec in *.
  split; [|done]. constructor; unfold mb_size in *; cbn; try done; lia.
Qed.

Hypothesis (fuel_bound : Z.of_nat fuel <= 2147483648).

(** The other semaphore is signalled. *)
Lemma signal_full b m c W T k : box_ok b m c W T k 0 1 ->
  exists k', chSemSignalI rlist fuel (mb_fullsem m) k = Some k' /\ box_ok false m c W T k' 0 0.
Proof.
  intros H. pose proof (box_apart _ _ _ _ _ _ _ _ H) as Hne. destruct H as [Hr Hs [Ef Ee] Hc Hf Hu].
  pose proof (rg_len _ _ _ _ Hr). unfold mb_size in *.
  destruct (signal_units rlist idle fuel kind fs es fuel_bound b W T k fs Hc) as (k' & E & Hc' & _ & E1 & E2); [by left|lia|].
  exists k'. rewrite Ef. split; [done|]. constructor; try done; [rewrite E2; [done|by right|by auto]|lia].
Qed.

Lemma signal_empty b m c W T k : box_ok b m c W T k 1 0 ->
  exists k', chSemSignalI rlist fuel (mb_emptysem m) k = Some k' /\ box_ok false m c W T k' 0 0.
Proof.
  intros H. pose proof (box_apart _ _ _ _ _ _ _ _ H) as Hne. destruct H as [Hr Hs [Ef Ee] Hc Hf Hu].
  assert (0 <= len c) by (unfold len; lia).
  destruct (signal_units rlist idle fuel kind fs es fuel_bound b W T k es Hc) as (k' & E & Hc' & _ & E1 & E2); [by right|lia|].
  exists k'. rewrite Ee. split; [done|]. constructor; try done; [lia|rewrite E2; [done|by left|by auto]].
Qed.

(** The kernel changes without changing the units. *)
Lemma box_kernel b b' m c W T T' k k' dp df : box_ok b m c W T k dp df -> callers_ok b' W T' k' ->
  (forall sp, ours sp -> units W k' sp = units W k sp) -> box_ok b' m c W T' k' dp df.
Proof.
  intros [Hr Hs Hm Hc Hf Hu] Hc' E. constructor; try done; rewrite E; [done|by right|done|by left].
Qed.

Lemma box_exchanged b b' m c W T k k' dp df : box_ok b m c W T k dp df -> exchanged k k' ->
  fine rlist idle fuel kind b' T k' -> box_ok b' m c W T k' dp df.
Proof.
  intros H He Hk. destruct (exchanged_ok rlist idle fuel kind fs es b b' W T k k' (bo_callers _ _ _ _ _ _ _ _ H) He Hk) as [H1 H2].
  by apply (box_kernel b b' m c W T T k).
Qed.

Lemma box_reschedule b m c W T k dp df : box_ok b m c W T k dp df ->
  exists k', chSchRescheduleS rlist fuel k = Some k' /\ box_ok true m c W T k' dp df.
Proof.
  intros H. destruct (ca_kernel _ _ _ _ _ _ _ _ _ _ (bo_callers _ _ _ _ _ _ _ _ H)) as (G & qs & Hk & _).
  destruct (reschedule_ok rlist idle fuel kind G T k qs Hk) as (k' & qs' & E & Hk' & Ht & (_ & Eu & Es)).
  exists k'. split; [done|]. apply (box_exchanged b true m c W T k); [done| |by exists G, qs'].
  split; [by apply (reschedule_cnt rlist fuel)|done].
Qed.

Lemma box_epilogue b m c W T k dp df : box_ok b m c W T k dp df ->
  exists k', irq_epilogue rlist fuel k = Some k' /\ box_ok true m c W T k' dp df.
Proof.
  intros H. destruct (ca_kernel _ _ _ _ _ _ _ _ _ _ (bo_callers _ _ _ _ _ _ _ _ H)) as (G & qs & Hk & _).
  destruct (epilogue_ok rlist idle fuel kind G T k qs Hk) as (k' & qs' & E & Hk' & Ht & (_ & Eu & Es)).
  exists k'. split; [done|]. apply (box_exchanged b true m c W T k); [done| |by exists G, qs'].
  split; [by apply (epilogue_cnt rlist fuel)|done].
Qed.

Lemma box_resume m c W T k dp df : box_ok true m c W T k dp df ->
  box_ok true m c W T (timeout_resume k) dp df /\ quiet (timeout_resume k).
Proof.
  intros H. destruct (ca_kernel _ _ _ _ _ _ _ _ _ _ (bo_callers _ _ _ _ _ _ _ _ H)) as (G & qs & Hk & Ht).
  destruct (resume_ok rlist idle fuel kind G T k qs Hk (Ht eq_refl)) as (Hk' & Ht' & Hq). split; [|done].
  apply (box_exchanged true true m c W T k); [done| |by exists G, qs]. unfold timeout_resume.
  destruct (armed k (r_current k)); (split; [done|split; [done|by left]]).
Qed.
End Boxes.

(** ** The specification: a bounded double-ended queue *)

Inductive deque_event : Type := DPost (msg : Z) | DPostAhead (msg : Z) | DFetch (msg : Z) | DReset.

Definition deque_step (n : Z) (e : deque_event) (q : list Z) : option (list Z) :=
  match e with
  | DPost msg => if len q <? n then Some (q ++ [msg]) else None
  | DPostAhead msg => if len q <? n then Some (msg :: q) else None
  | DFetch msg => match q with x :: q => if x =? msg then Some q else None | [] => None end
  | DReset => Some []
  end.
Fixpoint deque_run (n : Z) (es : list deque_event) (q : list Z) : option (list Z) :=
  match es with
  | [] => Some q
  | e :: es => match deque_step n e q with None => None | Some q => deque_run n es q end
  end.

Lemma deque_run_app n es1 es2 q q1 q2 : deque_run n es1 q = Some q1 -> deque_run n es2 q1 = Some q2 ->
  deque_run n (es1 ++ es2) q = Some q2.
Proof.
  revert q. induction es1 as [|e es1 IH]; intros q; cbn; [by intros [= ->]|].
  destruct (deque_step n e q); [by apply IH|done].
Qed.

(** What a call that returned did to the queue. *)
Definition log (c : mb_call) (r : mb_result) : list deque_event :=
  match r with
  | Returned rdymsg msgp =>
      if rdymsg =? MSG_OK then
        match c, msgp with
        | CPost msg, _ => [DPost msg]
        | CPostAhead msg, _ => [DPostAhead msg]
        | CFetch, Some msg => [DFetch msg]
        | CFetch, None => []
        end
      else []
  | Asleep => []
  end.

(** ** Threads, interrupts and the rest of the kernel *)

Record sys : Type := Sys { sy_box : mailbox; sy_kernel : kernel; callers : gmap Z mb_call }.

Inductive mb_op : Type :=
  | MCall (c : mb_call) (timeout : Z) | MResume | MReset
  | MIrq (c : mb_call) | MIrqReset | MTimeout (tp : Z) | MKernel (e : event).

Section Runs.
Context (rlist idle : Z) (fuel : nat) (kind : gmap Z qkind) (fs es : Z).

(** The end of a call: the running thread waits, or left the mailbox. *)
Definition after_call (c : mb_call) (tp : Z) (W : gmap Z mb_call) (r : option (mb_result * mailbox * kernel)) :
    option (list deque_event * sys) :=
  match r with
  | None => None
  | Some (r, m, k) =>
      Some (log c r, Sys m (timeout_resume k) (match r with Asleep => <[tp := c]> W | _ => delete tp W end))
  end.

(** The end of an interrupt handler. *)
Definition after_irq (es : list deque_event) (m : mailbox) (W : gmap Z mb_call) (k : kernel) : option (list deque_event * sys) :=
  match irq_epilogue rlist fuel k with None => None | Some k => Some (es, Sys m (timeout_resume k) W) end.

Definition run_mb (o : mb_op) (s : sys) : option (list deque_event * sys) :=
  let '(Sys m k W) := s in
  match o with
  | MCall c timeout => after_call c (r_current k) W (chMBCall rlist fuel c timeout m k)
  | MResume =>
      match W !! r_current k with
      | None => None
      | Some c => after_call c (r_current k) W (call_end rlist fuel c (p_u k (r_current k)) m k)
      end
  | MReset =>
      match chMBReset rlist fuel m k with
      | None => None
      | Some (m, k) => Some ([DReset], Sys m (timeout_resume k) W)
      end
  | MIrq c => match chMBCallI rlist fuel c m k with None => None | Some (r, m, k) => after_irq (log c r) m W k end
  | MIrqReset => match chMBResetI rlist fuel m k with None => None | Some (m, k) => after_irq [DReset] m W k end
  | MTimeout tp => match timeout rlist fuel tp k with None => None | Some k => after_irq [] m W k end
  | MKernel e => match run_event rlist fuel e k with None => None | Some k => Some ([], Sys m k W) end
  end.

Fixpoint run_mbs (os : list mb_op) (s : sys) : option (list deque_event * sys) :=
  match os with
  | [] => Some ([], s)
  | o :: os =>
      match run_mb o s with
      | None => None
      | Some (a, s) => match run_mbs os s with None => None | Some (b, s) => Some (a ++ b, s) end
      end
  end.

(** No thread that was given a unit has still to run. *)
Definition settled (s : sys) : Prop := forall sp, granted fs es (callers s) (sy_kernel s) sp = ∅.

(** The threads after an operation. *)
Definition threads_then (o : mb_op) (T : gset Z) : gset Z :=
  match o with MKernel e => threads_after e T | _ => T end.

(** A thread calls one function at a time, the idle thread does not wait; a reset finds
    no thread on its way out; the rest of the kernel leaves the semaphores and the threads
    of the mailbox alone. *)
Definition valid_mb (T : gset Z) (o : mb_op) (s : sys) : Prop :=
  let k := sy_kernel s in
  match o with
  | MCall _ _ => callers s !! r_current k = None /\ r_current k <> idle
  | MResume => is_Some (callers s !! r_current k)
  | MReset | MIrqReset => settled s
  | MIrq _ => True
  | MTimeout tp => armed k tp = true /\ is_Some (callers s !! tp)
  | MKernel e => valid_event rlist idle fuel kind T k e /\
      forall k', run_event rlist fuel e k = Some k' -> undisturbed fs es (callers s) (threads_after e T) k k'
  end.

Fixpoint valid_mbs (T : gset Z) (os : list mb_op) (s : sys) : Prop :=
  match os with
  | [] => True
  | o :: os => valid_mb T o s /\ forall a s', run_mb o s = Some (a, s') -> valid_mbs (threads_then o T) os s'
  end.

(** The messages in the mailbox, as many as there are units of [mb_fullsem]. *)
Definition messages (s : sys) : list Z :=
  contents (mb_buffer (sy_box s)) (mb_rdptr (sy_box s)) (units fs es (callers s) (sy_kernel s) fs).

(** The invariant between operations. *)
Definition mb_ok (T : gset Z) (s : sys) (q : list Z) : Prop :=
  box_ok rlist idle fuel kind fs es true (sy_box s) q (callers s) T (sy_kernel s) 0 0 /\ quiet (sy_kernel s).

Hypothesis (fuel_bound : Z.of_nat fuel <= 2147483648).
Notation box_ok := (box_ok rlist idle fuel kind fs es).
Notation need := (need fs es).

(** What a call has taken when its wait is over. *)
Definition place_of (c : mb_call) : Z := match c with CFetch => 0 | _ => 1 end.
Definition message_of (c : mb_call) : Z := match c with CFetch => 1 | _ => 0 end.

Lemma box_taken b b' m q W W' T k k' c : box_ok b m q W T k 0 0 -> callers_ok rlist idle fuel kind fs es b' W' T k' ->
  units fs es W' k' (need c) = units fs es W k (need c) - 1 ->
  (forall sp, ours fs es sp -> sp <> need c -> units fs es W' k' sp = units fs es W k sp) ->
  box_ok b' m q W' T k' (place_of c) (message_of c).
Proof.
  intros H Hc E1 E2. pose proof (box_apart _ _ _ _ _ _ _ _ _ _ _ _ _ _ H) as Hne. destruct H as [Hr Hs Hm _ Hf Hu].
  assert (Ho : ours fs es fs /\ ours fs es es) by (unfold ours; auto). destruct Ho as [Ho1 Ho2].
  constructor; try done; destruct c; cbn in *; rewrite ?E1, ?E2 by auto; lia.
Qed.

(** The rest of a call that has taken its unit. *)
Lemma call_end_ok b m q W T k c : box_ok b m q W T k (place_of c) (message_of c) ->
  exists msgp m' k' q', call_end rlist fuel c MSG_OK m k = Some (Returned MSG_OK msgp, m', k') /\
    box_ok true m' q' W T k' 0 0 /\ mb_size m' = mb_size m /\
    deque_run (mb_size m) (log c (Returned MSG_OK msgp)) q = Some q'.
Proof.
  intros H. destruct c as [msg|msg|]; cbn [call_end place_of message_of] in *.
  - pose proof (box_room _ _ _ _ _ _ _ _ _ _ _ _ _ H) as Hl.
    destruct (put_last_ok _ _ _ _ _ _ _ _ _ _ _ _ msg H) as (m' & E & H1 & Es).
    destruct (signal_full _ _ _ _ _ _ fuel_bound _ _ _ _ _ _ H1) as (k1 & E1 & H2).
    destruct (box_reschedule _ _ _ _ _ _ _ _ _ _ _ _ _ _ H2) as (k' & E2 & H3).
    exists None, m', k', (q ++ [msg]). unfold post_end, signal_other. rewrite E, E1, E2. cbn.
    replace (len q <? mb_size m) with true by lia. done.
  - pose proof (box_room _ _ _ _ _ _ _ _ _ _ _ _ _ H) as Hl.
    destruct (put_first_ok _ _ _ _ _ _ _ _ _ _ _ _ msg H) as (m' & E & H1 & Es).
    destruct (signal_full _ _ _ _ _ _ fuel_bound _ _ _ _ _ _ H1) as (k1 & E1 & H2).
    destruct (box_reschedule _ _ _ _ _ _ _ _ _ _ _ _ _ _ H2) as (k' & E2 & H3).
    exists None, m', k', (msg :: q). unfold post_ahead_end, signal_other. rewrite E, E1, E2. cbn.
    replace (len q <? mb_size m) with true by lia. done.
  - destruct (get_first_ok _ _ _ _ _ _ _ _ _ _ _ _ H) as (msg & q' & m' & -> & E & H1 & Es).
    destruct (signal_empty _ _ _ _ _ _ fuel_bound _ _ _ _ _ _ H1) as (k1 & E1 & H2).
    destruct (box_reschedule _ _ _ _ _ _ _ _ _ _ _ _ _ _ H2) as (k' & E2 & H3).
    exists (Some msg), m', k', q'. unfold fetch_end, signal_other. rewrite E, E1, E2. cbn. by rewrite Z.eqb_refl.
Qed.

Lemma box_take b m q W T k c : box_ok b m q W T k 0 0 -> 0 < s_cnt k (need c) ->
  s32 (s_cnt k (need c) - 1) = s_cnt k (need c) - 1 /\
  box_ok b m q W T (set_cnt (need c) (s_cnt k (need c) - 1) k) (place_of c) (message_of c).
Proof.
  intros H Hc. assert (Ho : ours fs es (need c)) by (destruct c; unfold ours; cbn; auto).
  destruct (take_units _ _ _ _ _ _ b W T k (need c) (bo_callers _ _ _ _ _ _ _ _ _ _ _ _ _ _ H) Ho Hc) as (H1 & H2 & H3).
  split; [|by apply (box_taken b b m q W W T k)].
  pose proof (units_pos fs es W k fs). pose proof (units_pos fs es W k es). destruct H as [[_ Hl _ _] Hs _ _ Hf Hu].
  assert (units fs es W k (need c) <= mb_size m) by (unfold mb_size in *; destruct c; cbn; unfold len in *; lia).
  unfold Mailboxes.units in *. rewrite s32_id; lia.
Qed.

(** A call of an interrupt handler. *)
Lemma callI_ok b m q W T k c : box_ok b m q W T k 0 0 ->
  exists r m' k' q', chMBCallI rlist fuel c m k = Some (r, m', k') /\ box_ok false m' q' W T k' 0 0 /\
    mb_size m' = mb_size m /\ deque_run (mb_size m) (log c r) q = Some q'.
Proof.
  intros H. pose proof (bo_sems _ _ _ _ _ _ _ _ _ _ _ _ _ _ H) as [Ef Ee].
  assert (Hno : box_ok false m q W T k 0 0).
  { apply (box_kernel _ _ _ _ _ _ b false m q W T T k k 0 0 H); [|done].
    destruct (bo_callers _ _ _ _ _ _ _ _ _ _ _ _ _ _ H) as [(G & qs & Hk & _) ? ? ?]. constructor; try done. by exists G, qs. }
  destruct (Z.leb_spec (s_cnt k (need c)) 0) as [Hc|Hc].
  - exists (Returned MSG_TIMEOUT None), m, k, q. split; [|by destruct c].
    destruct c; cbn in *; unfold chMBPostI, chMBPostAheadI, chMBFetchI; rewrite ?Ef, ?Ee; by replace (_ <=? 0) with true by lia.
  - destruct (box_take b m q W T k c H Hc) as [Es Ht].
    destruct c as [msg|msg|]; cbn [chMBCallI place_of message_of Mailboxes.need] in *;
      unfold chMBPostI, chMBPostAheadI, chMBFetchI, chSemFastWaitI; rewrite ?Ef, ?Ee, Es; replace (_ <=? 0) with false by lia.
    + pose proof (box_room _ _ _ _ _ _ _ _ _ _ _ _ _ Ht) as Hl.
      destruct (put_last_ok _ _ _ _ _ _ _ _ _ _ _ _ msg Ht) as (m' & -> & H1 & E).
      destruct (signal_full _ _ _ _ _ _ fuel_bound _ _ _ _ _ _ H1) as (k1 & -> & H2).
      eexists _, m', k1, (q ++ [msg]). split; [done|]. cbn. by replace (len q <? mb_size m) with true by lia.
    + pose proof (box_room _ _ _ _ _ _ _ _ _ _ _ _ _ Ht) as Hl.
      destruct (put_first_ok _ _ _ _ _ _ _ _ _ _ _ _ msg Ht) as (m' & -> & H1 & E).
      destruct (signal_full _ _ _ _ _ _ fuel_bound _ _ _ _ _ _ H1) as (k1 & -> & H2).
      eexists _, m', k1, (msg :: q). split; [done|]. cbn. by replace (len q <? mb_size m) with true by lia.
    + destruct (get_first_ok _ _ _ _ _ _ _ _ _ _ _ _ Ht) as (msg & q' & m' & -> & -> & H1 & E).
      destruct (signal_empty _ _ _ _ _ _ fuel_bound _ _ _ _ _ _ H1) as (k1 & -> & H2).
      eexists _, m', k1, q'. split; [done|]. cbn. by rewrite Z.eqb_refl.
Qed.

(** A reset that finds no thread on its way out empties the mailbox. *)
Lemma resetI_ok b m q W T k : box_ok b m q W T k 0 0 -> settled (Sys m k W) ->
  exists m' k', chMBResetI rlist fuel m k = Some (m', k') /\ box_ok false m' [] W T k' 0 0 /\ mb_size m' = mb_size m.
Proof.
  intros H Hg. pose proof (box_apart _ _ _ _ _ _ _ _ _ _ _ _ _ _ H) as Hne.
  pose proof (units_pos fs es W k fs) as P1. pose proof (units_pos fs es W k es) as P2.
  destruct H as [Hr Hs [Ef Ee] Hc Hf Hu]. pose proof (rg_rd _ _ _ _ Hr) as Hrd. pose proof (rg_len _ _ _ _ Hr) as Hl.
  unfold settled in Hg. cbn in Hg. unfold chMBResetI. cbn [mb_emptysem mb_fullsem]. rewrite Ef, Ee.
  unfold mb_size in *. cbn [mb_buffer]. assert (0 <= len q) by (unfold len; lia).
  assert (Hcnt : s_cnt k es < 2147483647 /\ s_cnt k fs < 2147483647) by (unfold Mailboxes.units in *; lia).
  destruct (reset_units _ _ _ _ _ _ b W T k es (len (mb_buffer m)) Hc (or_intror eq_refl)) as (k1 & E1 & Hc1 & _ & Ec1 & Hg1); [lia|lia|].
  destruct (reset_units _ _ _ _ _ _ false W T k1 fs 0 Hc1 (or_introl eq_refl)) as (k2 & E2 & Hc2 & _ & Ec2 & Hg2);
    [lia|rewrite Ec1, upd_ne by done; lia|].
  rewrite E1, E2. eexists _, k2. split; [done|]. split; [|done]. constructor; unfold mb_size; cbn; try done.
  - apply ring_empty. lia.
  - unfold Mailboxes.units. rewrite Ec2, upd_ne, Ec1, upd_eq, Hg2, Hg1, Hg, size_empty by auto. unfold len at 2. cbn. lia.
  - unfold Mailboxes.units. rewrite Ec2, upd_eq, Hg2, Hg1, Hg, size_empty. done.
Qed.

(** ** Every operation is one of the queue *)

Lemma box_callers b b' m q W W' T k k' dp df : box_ok b m q W T k dp df -> callers_ok rlist idle fuel kind fs es b' W' T k' ->
  (forall sp, ours fs es sp -> units fs es W' k' sp = units fs es W k sp) -> box_ok b' m q W' T k' dp df.
Proof.
  intros [Hr Hs Hm Hc Hf Hu] Hc' E. constructor; try done; rewrite E; unfold ours; auto.
Qed.

Definition step_ok (T : gset Z) (n : Z) (q : list Z) (r : option (list deque_event * sys)) : Prop :=
  exists a s' q', r = Some (a, s') /\ mb_ok T s' q' /\ mb_size (sy_box s') = n /\ deque_run n a q = Some q'.

Lemma step_resume a m q W T k n q0 : box_ok true m q W T k 0 0 -> mb_size m = n -> deque_run n a q0 = Some q ->
  step_ok T n q0 (Some (a, Sys m (timeout_resume k) W)).
Proof. intros H Hn Ha. exists a, (Sys m (timeout_resume k) W), q. split; [done|]. split; [|done]. by apply box_resume. Qed.

Lemma step_irq b a m q W T k n q0 : box_ok b m q W T k 0 0 -> mb_size m = n -> deque_run n a q0 = Some q ->
  step_ok T n q0 (after_irq a m W k).
Proof.
  intros H Hn Ha. destruct (box_epilogue _ _ _ _ _ _ _ _ _ _ _ _ _ _ H) as (k' & E & H').
  unfold after_irq. rewrite E. by apply (step_resume a m q).
Qed.

(** The end of a call with the message of its wait. *)
Lemma step_end c m q W tp T k rdymsg : W !! tp = None ->
  (rdymsg = MSG_OK /\ box_ok true m q W T k (place_of c) (message_of c) \/ rdymsg <> MSG_OK /\ box_ok true m q W T k 0 0) ->
  forall W', delete tp W' = W -> step_ok T (mb_size m) q (after_call c tp W' (call_end rlist fuel c rdymsg m k)).
Proof.
  intros HW [[-> H]|[Hn H]] W' E.
  - destruct (call_end_ok _ _ _ _ _ _ _ H) as (msgp & m' & k' & q' & -> & H1 & Es & Ed). cbn. rewrite E.
    by apply (step_resume _ m' q').
  - assert (Ec : call_end rlist fuel c rdymsg m k = Some (Returned rdymsg None, m, k)).
    { destruct c; cbn; unfold post_end, post_ahead_end, fetch_end; by rewrite (proj2 (Z.eqb_neq _ _) Hn). }
    rewrite Ec. cbn. rewrite E, (proj2 (Z.eqb_neq _ _) Hn). by apply (step_resume _ m q).
Qed.

Lemma call_step m q W T k c time : box_ok true m q W T k 0 0 -> W !! r_current k = None -> r_current k <> idle ->
  step_ok T (mb_size m) q (after_call c (r_current k) W (chMBCall rlist fuel c time m k)).
Proof using fuel_bound.
  intros H HW Hi. pose proof (bo_sems _ _ _ _ _ _ _ _ _ _ _ _ _ _ H) as [Ef Ee].
  pose proof (bo_callers _ _ _ _ _ _ _ _ _ _ _ _ _ _ H) as Hc.
  assert (E : chMBCall rlist fuel c time m k = wait_for rlist (need c) time (call_end rlist fuel c) m k).
  { destruct c; cbn; unfold chMBPost, chMBPostAhead, chMBFetch, chMBPostS, chMBPostAheadS, chMBFetchS; by rewrite ?Ef, ?Ee. }
  rewrite E. unfold wait_for.
  destruct (wait_units _ _ _ _ _ _ fuel_bound true W T k c time Hc HW Hi) as
    (k' & [(-> & H1 & H2 & H3)|[(-> & _ & _ & H1 & H2)|(-> & _ & _ & H1 & H2)]]).
  - apply (step_end c m q W); [done| |by apply delete_id]. left. split; [done|]. by apply (box_taken true true m q W W T k).
  - apply (step_end c m q W); [done| |by apply delete_id]. right. split; [done|]. by apply (box_callers true true m q W W T k).
  - cbn. apply (step_resume _ m q); [|done|done]. by apply (box_callers true true m q W _ T k).
Qed.

Lemma resume_step m q W T k c : box_ok true m q W T k 0 0 -> W !! r_current k = Some c ->
  step_ok T (mb_size m) q (after_call c (r_current k) W (call_end rlist fuel c (p_u k (r_current k)) m k)).
Proof using fuel_bound.
  intros H HW. pose proof (bo_callers _ _ _ _ _ _ _ _ _ _ _ _ _ _ H) as Hc.
  destruct (leave_units _ _ _ _ _ _ fuel_bound true W T k c Hc HW) as (H1 & _ & H2 & H3).
  apply (step_end c m q (delete (r_current k) W)); [apply lookup_delete_eq| |done].
  destruct (Z.eqb_spec (p_u k (r_current k)) MSG_OK) as [Eu|Eu]; [left|right]; (split; [done|]).
  - by apply (box_taken true true m q W _ T k).
  - apply (box_callers true true m q W _ T k); [done|done|]. intros sp Hs.
    destruct (decide (sp = need c)) as [->|Hn]; [rewrite H2; lia|by apply H3].
Qed.

Lemma run_mb_ok T o s q : mb_ok T s q -> valid_mb T o s ->
  step_ok (threads_then o T) (mb_size (sy_box s)) q (run_mb o s).
Proof using fuel_bound.
  destruct s as [m k W]. unfold mb_ok. cbn [sy_box sy_kernel callers]. intros [H Hq] Hv.
  destruct o as [c time| | |c| |tp|e]; cbn [run_mb valid_mb threads_then sy_box sy_kernel callers] in *.
  - destruct Hv. by apply call_step.
  - destruct Hv as [c Hc]. rewrite Hc. by apply resume_step.
  - destruct (resetI_ok _ _ _ _ _ _ H Hv) as (m' & k1 & E & H1 & Es). unfold chMBReset. rewrite E.
    destruct (box_reschedule _ _ _ _ _ _ _ _ _ _ _ _ _ _ H1) as (k2 & -> & H2). by apply (step_resume _ m' []).
  - destruct (callI_ok _ _ _ _ _ _ c H) as (r & m' & k' & q' & -> & H1 & Es & Ed). by apply (step_irq false _ m' q').
  - destruct (resetI_ok _ _ _ _ _ _ H Hv) as (m' & k1 & -> & H1 & Es). by apply (step_irq false _ m' []).
  - destruct Hv as [Ha [c Hc]].
    destruct (timeout_units _ _ _ _ _ _ fuel_bound true W T k tp c (bo_callers _ _ _ _ _ _ _ _ _ _ _ _ _ _ H) Hq Ha Hc) as
      (k' & -> & H1 & H2). apply (step_irq false _ m q); [|done|done]. by apply (box_callers true false m q W W T k).
  - destruct Hv as [Hv Hu]. destruct (bo_callers _ _ _ _ _ _ _ _ _ _ _ _ _ _ H) as [(G & qs & Hk & Ht) _ _ _].
    destruct (run_event_ok rlist idle fuel kind T k e) as (k' & E & (G' & qs' & Hk' & Ht' & Hq')); [by exists G, qs; auto|done|].
    rewrite E. exists [], (Sys m k' W), q. split; [done|split; [|done]]. split; [|done]. cbn. specialize (Hu k' E).
    apply (box_kernel _ _ _ _ _ _ true true m q W T _ k k'); [done| |intros sp Hs; by apply (units_undisturbed fs es W (threads_after e T))].
    apply (undisturbed_ok _ _ _ _ _ _ true true W T _ k); [apply H|done| |by exists G', qs'].
    destruct e as [[]|]; cbn; set_solver.
Qed.

Lemma run_mbs_ok : forall os T s q, mb_ok T s q -> valid_mbs T os s ->
  step_ok (fold_left (fun T o => threads_then o T) os T) (mb_size (sy_box s)) q (run_mbs os s).
Proof using fuel_bound.
  induction os as [|o os IH]; intros T s q Hs Hv; cbn [run_mbs fold_left]; [by exists [], s, q|].
  destruct Hv as [Hv1 Hv2]. destruct (run_mb_ok T o s q Hs Hv1) as (a & s1 & q1 & E & Hs1 & Es & Ed). rewrite E.
  destruct (IH (threads_then o T) s1 q1 Hs1 (Hv2 _ _ E)) as (b & s2 & q2 & -> & Hs2 & Es2 & Ed2). rewrite Es in *.
  exists (a ++ b), s2, q2. split; [done|split; [done|split; [done|]]]. by apply (deque_run_app _ _ _ _ q1).
Qed.

(** What the invariant says of the state itself. *)
Lemma mb_messages T s q : mb_ok T s q -> messages s = q /\ len q <= mb_size (sy_box s).
Proof.
  intros [[Hr Hs Hm Hc Hf Hu] _]. unfold messages. replace (units fs es (callers s) (sy_kernel s) fs) with (len q) by lia.
  split; [exact (ring_contents _ _ _ _ Hr)|apply Hr].
Qed.

(** A thread that waits finds all places, or all messages, given to threads that have
    still to run. *)
Lemma waiting_full T s q tp c : mb_ok T s q -> callers s !! tp = Some c -> p_state (sy_kernel s) tp = CH_STATE_WTSEM ->
  Z.of_nat (size (granted fs es (callers s) (sy_kernel s) (need c))) =
    match c with CFetch => len q | _ => mb_size (sy_box s) - len q end.
Proof.
  intros [[Hr Hs Hm Hc Hf Hu] _] HW Hst. destruct Hc as [(G & qs & Hk & _) (Hk1 & Hk2 & _) H3 _].
  destruct (H3 tp c HW) as [Ht [[_ Hx]|[Hx _]]]; [|by rewrite Hst in Hx].
  assert (Hkd : kind !! need c = Some QSem) by by destruct c.
  pose proof (waiting_count _ _ _ _ _ _ _ _ _ _ Hk Hkd Ht Hst Hx) as Hn. unfold Mailboxes.units in *. destruct c; cbn in *; lia.
Qed.
End Runs.

(** ** A mailbox after its initialization *)

Section Start.
Context (rlist idle : Z) (fuel : nat) (kind : gmap Z qkind) (fs es : Z).

Lemma chMBObjectInit_objects (buf : list Z) (k : kernel) :
  chMBObjectInit fs es buf k = (Mailbox buf 0 0 fs es, init_objects [(es, Semaphore (len buf)); (fs, Semaphore 0)] k).
Proof. done. Qed.

Lemma start_ok T buf k : kernel_ok rlist idle fuel kind T k -> kind !! fs = Some QSem -> kind !! es = Some QSem -> fs <> es ->
  s_cnt k fs = 0 -> s_cnt k es = len buf -> 0 < len buf < 2147483647 ->
  mb_ok rlist idle fuel kind fs es T (Sys (Mailbox buf 0 0 fs es) k ∅) [].
Proof.
  intros (G & qs & Hk & Ht & Hq) Hf He Hne Cf Ce Hb. split; [|done]. cbn.
  assert (Hu : forall sp, granted fs es ∅ k sp = ∅).
  { intros sp. apply set_eq. intros x. rewrite elem_of_granted, elem_of_empty. split; [|done].
    intros (_ & _ & c & [=] & _). }
  assert (El : len ([] : list Z) = 0) by done.
  constructor; unfold mb_size, units; cbn; rewrite ?Hu, ?size_empty, ?Cf, ?Ce, ?El; try done; try lia; [apply ring_empty; lia|].
  constructor; [by exists G, qs|done|done|]. intros x Hx Hw Ho. exfalso.
  pose proof (fun sp H => waiting_count _ _ _ _ _ _ _ _ sp x Hk H Hx Hw) as Hn.
  destruct Ho as [Eo|Eo]; [specialize (Hn fs Hf Eo)|specialize (Hn es He Eo)]; lia.
Qed.
End Start.


(** ** A mailbox of two places *)

Definition box_objs : list (Z * object) := [(3001, Semaphore 2); (3000, Semaphore 0)].
Definition box_kind : gmap Z qkind := kinds 1000 box_objs.
Definition box_sys : sys :=
  let '(m, k) := chMBObjectInit 3000 3001 [0; 0] (sys_init 1000 2000 blank) in Sys m k ∅.

Lemma box_sys_ok : mb_ok 1000 2000 4 box_kind 3000 3001 {[2000]} box_sys [].
Proof.
  apply start_ok; try (by vm_compute). apply (boot_kernel_ok 1000 2000 4 box_objs blank).
  - split; [|split; [done|]]; [apply NoDup_ListNoDup; repeat constructor; cbn; lia|].
    intros sp n [[= <- <-]|[[= <- <-]|[]]]; lia.
  - done.
  - lia.
Qed.

Lemma valid_mb_step T o os s : valid_mb 1000 2000 4 box_kind 3000 3001 T o s ->
  valid_mbs 1000 2000 4 box_kind 3000 3001 (threads_then o T) os (default s (snd <$> run_mb 1000 4 o s)) ->
  valid_mbs 1000 2000 4 box_kind 3000 3001 T (o :: os) s.
Proof. intros H1 H2. split; [done|]. intros a s' E. by rewrite E in H2. Qed.

Lemma settled_nobody s : callers s = ∅ -> settled 3000 3001 s.
Proof.
  intros E sp. apply set_eq. intros x. rewrite E, elem_of_granted, elem_of_empty. split; [|done].
  by intros (_ & _ & c & ? & _).
Qed.

(** A thread posts, resets the mailbox, waits for a message that an interrupt handler
    posts, fills the mailbox and waits for the place that an interrupt handler makes. *)
Definition box_run : list mb_op :=
  [MKernel (Call (Create 2100 64)); MCall (CPost 5) TIME_INFINITE; MReset; MCall CFetch 10; MIrq (CPost 7); MResume;
   MCall (CPost 8) TIME_IMMEDIATE; MCall (CPostAhead 9) TIME_IMMEDIATE; MCall (CPost 10) TIME_INFINITE; MIrq CFetch; MResume].

Ltac valid_call_step := apply valid_mb_step; [split; by vm_compute|].
Ltac valid_irq_step := apply valid_mb_step; [exact I|].
Ltac valid_resume_step := apply valid_mb_step; [vm_compute; by eexists|].

Lemma box_run_valid : valid_mbs 1000 2000 4 box_kind 3000 3001 {[2000]} box_run box_sys.
Proof.
  apply valid_mb_step; [split|].
  - split; [done|split; [set_solver|split; [by vm_compute|split; [done|]]]]. apply Nat.leb_le. by vm_compute.
  - intros k' E.
    assert (Eo : (fun k => (s_cnt k 3000, s_cnt k 3001, p_state k 2000, p_state k 2100)) <$>
      run_event 1000 4 (Call (Create 2100 64)) (sy_kernel box_sys) = Some (0, 2, CH_STATE_READY, CH_STATE_CURRENT)) by by vm_compute.
    rewrite E in Eo. clear E. cbn in Eo. injection Eo as E1 E2 E3 E4.
    split; [intros sp [->| ->]; [by rewrite E1|by rewrite E2]|split; [done|]]. intros x Hx.
    assert (x = 2100 \/ x = 2000) as [->| ->] by (cbn in Hx; set_solver); congruence.
  - apply valid_mb_step; [split; [by vm_compute|by vm_compute]|].
    apply valid_mb_step; [apply settled_nobody; by vm_compute|].
    valid_call_step. valid_irq_step. valid_resume_step. valid_call_step. valid_call_step. valid_call_step.
    valid_irq_step. valid_resume_step. exact I.
Qed.


(** ** A reset that overtakes a thread that was woken *)

(** 2100 waits for a message; 2200, of higher priority, posts one, which wakes 2100, and
    resets the mailbox; then 2100 runs, and 2200 again. *)
Definition race_run : list mb_op :=
  [MKernel (Call (Create 2100 64)); MCall CFetch TIME_INFINITE; MKernel (Call (Create 2200 70));
   MCall (CPost 7) TIME_INFINITE; MReset; MKernel (Call (Sleep 5)); MResume; MKernel (Irq [ITimeout 2200]);
   MCall (CPost 8) TIME_IMMEDIATE; MCall CFetch TIME_IMMEDIATE].

