(* ===== verification/Messages.v ===== *)
(** The synchronous messages of the kernel (os/rt/src/chmsg.c, os/rt/include/chmsg.h): a
    thread sends a message to another one and sleeps until it is answered.

    The queue of the messages for a thread is a field of the thread; [p_msgqueue] gives its
    address.  A function that may sleep is cut where it runs again: [chMsgSend] always
    sleeps and returns [send_resume]; [chMsgWait] returns at once if a message is pending,
    else [receive].  [msys] holds the kernel, the field [p_msg] of the threads, and for
    every thread that is inside of one of the two functions which one it is ([calls]).

    Proved here: every run of senders, receivers and anything else in the kernel is a run
    of the specification [post], in which a message is sent, received by the thread it was
    sent to in order of arrival, answered once and its answer returned to its sender; and
    no receiver sleeps while a message for it is pending. *)
From S2P Require Import Prelude Queues Sched SchedOk Kernel.
Local Open Scope Z_scope.

Inductive msg_call : Type := CSend | CWait.

Record msys : Type := MSys { mk : kernel; p_msg : Z -> Z; calls : gmap Z msg_call }.

Section Messages.
Context (rlist : Z) (fuel : nat) (p_msgqueue : Z -> Z).

(** The creation of a thread, with the queue of its messages. *)
Definition thread_create (tp prio : Z) (k : kernel) : option kernel :=
  let k := chThdCreateI tp prio k in
  let k := set_lk (queue_init (p_msgqueue tp) (lk k)) k in
  chSchWakeupS rlist fuel tp MSG_OK k.

(** Up to the switch to another thread. *)
Definition chMsgSend (tp msg : Z) (k : kernel) (p_msg : Z -> Z) : option (kernel * (Z -> Z)) :=
  let ctp := r_current k in
  let p_msg := upd ctp msg p_msg in
  let k := set_u ctp (p_msgqueue tp) k in
  let k := set_lk (queue_insert ctp (p_msgqueue tp) (lk k)) k in
  match match p_state k tp with
        | CH_STATE_WTMSG => chSchReadyI rlist fuel tp k
        | _ => Some k
        end with
  | None => None
  | Some k => Some (chSchGoSleepS rlist CH_STATE_SNDMSGQ k, p_msg)
  end.
(** [msg = ctp->p_u.rdymsg], when the sender runs again. *)
Definition send_resume (k : kernel) : Z := p_u k (r_current k).

Definition chMsgIsPendingI (tp : Z) (k : kernel) : bool :=
  negb (p_next (lk k) (p_msgqueue tp) =? p_msgqueue tp).

(** The end of chMsgWait. *)
Definition receive (k : kernel) : Z * kernel :=
  let '(tp, k) := fifo_remove (p_msgqueue (r_current k)) k in
  (tp, set_state tp CH_STATE_SNDMSG k).
Definition chMsgWait (k : kernel) : option Z * kernel :=
  if negb (chMsgIsPendingI (r_current k) k) then (None, chSchGoSleepS rlist CH_STATE_WTMSG k)
  else let '(tp, k) := receive k in (Some tp, k).

Definition chMsgGet (tp : Z) (p_msg : Z -> Z) : Z := p_msg tp.
Definition chMsgReleaseS (tp msg : Z) (k : kernel) : option kernel := chSchWakeupS rlist fuel tp msg k.
Definition chMsgRelease := chMsgReleaseS.

(** ** Runs *)

Inductive msg_op : Type :=
  | MgSend (tp msg : Z) | MgWait | MgRelease (tp msg : Z) | MgResume
  | MgCreate (tp prio : Z) | MgKernel (e : event).

(** What happens to messages: sent by [s] to [r], received by [r] from [s], answered, and
    the answer returned to [s]. *)
Inductive msg_event : Type :=
  | ESend (s r msg : Z) | EReceive (r s msg : Z) | ERelease (s answer : Z) | EReturn (s answer : Z).

Definition received (s : msys) (r : Z * kernel) (W : gmap Z msg_call) : list msg_event * msys :=
  let '(tp, k) := r in
  ([EReceive (r_current (mk s)) tp (chMsgGet tp (p_msg s))], MSys (timeout_resume k) (p_msg s) W).

Definition run_msg (o : msg_op) (s : msys) : option (list msg_event * msys) :=
  let k := mk s in
  let cur := r_current k in
  match o with
  | MgSend tp msg =>
      match chMsgSend tp msg k (p_msg s) with
      | None => None
      | Some (k, pm) => Some ([ESend cur tp msg], MSys (timeout_resume k) pm (<[cur := CSend]> (calls s)))
      end
  | MgWait =>
      match chMsgWait k with
      | (None, k) => Some ([], MSys (timeout_resume k) (p_msg s) (<[cur := CWait]> (calls s)))
      | (Some tp, k) => Some (received s (tp, k) (calls s))
      end
  | MgRelease tp msg =>
      match chMsgRelease tp msg k with
      | None => None
      | Some k => Some ([ERelease tp msg], MSys (timeout_resume k) (p_msg s) (calls s))
      end
  | MgResume =>
      match calls s !! cur with
      | None => None
      | Some CSend => Some ([EReturn cur (send_resume k)], MSys k (p_msg s) (delete cur (calls s)))
      | Some CWait => Some (received s (receive k) (delete cur (calls s)))
      end
  | MgCreate tp prio =>
      match thread_create tp prio k with
      | None => None
      | Some k => Some ([], MSys (timeout_resume k) (p_msg s) (calls s))
      end
  | MgKernel e =>
      match run_event rlist fuel e k with None => None | Some k => Some ([], MSys k (p_msg s) (calls s)) end
  end.

Fixpoint run_msgs (os : list msg_op) (s : msys) : option (list msg_event * msys) :=
  match os with
  | [] => Some ([], s)
  | o :: os =>
      match run_msg o s with
      | None => None
      | Some (a, s) => match run_msgs os s with None => None | Some (b, s) => Some (a ++ b, s) end
      end
  end.
End Messages.

(** ** The specification *)

(** Where a message of a thread is. *)
Inductive stage : Type := Sent (r msg : Z) | Held | Answered (answer : Z).

(** The senders in the queue of each thread, and the messages under way by their senders. *)
Record post : Type := Post { inbox : Z -> list Z; under_way : gmap Z stage }.

Definition post_step (e : msg_event) (p : post) : option post :=
  match e with
  | ESend s r msg =>
      match under_way p !! s with
      | None => Some (Post (upd r (inbox p r ++ [s]) (inbox p)) (<[s := Sent r msg]> (under_way p)))
      | _ => None
      end
  | EReceive r s msg =>
      match inbox p r, under_way p !! s with
      | x :: l, Some (Sent r' msg') =>
          if (x =? s) && (r' =? r) && (msg' =? msg)
          then Some (Post (upd r l (inbox p)) (<[s := Held]> (under_way p))) else None
      | _, _ => None
      end
  | ERelease s answer =>
      match under_way p !! s with
      | Some Held => Some (Post (inbox p) (<[s := Answered answer]> (under_way p)))
      | _ => None
      end
  | EReturn s answer =>
      match under_way p !! s with
      | Some (Answered a) => if a =? answer then Some (Post (inbox p) (delete s (under_way p))) else None
      | _ => None
      end
  end.
Fixpoint post_run (es : list msg_event) (p : post) : option post :=
  match es with
  | [] => Some p
  | e :: es => match post_step e p with None => None | Some p => post_run es p end
  end.

Lemma post_run_app es1 es2 p p1 p2 : post_run es1 p = Some p1 -> post_run es2 p1 = Some p2 -> post_run (es1 ++ es2) p = Some p2.
Proof.
  revert p. induction es1 as [|e es1 IH]; intros p; cbn; [by intros [= ->]|].
  destruct (post_step e p); [by apply IH|done].
Qed.

(** ** The kernel side of the operations *)

Section KernelSide.
Context (rlist idle : Z) (fuel : nat) (kind : gmap Z qkind) (p_msgqueue : Z -> Z).
Notation kmid := (kmid rlist idle fuel kind).
Notation kok := (kok rlist idle fuel kind).
Notation top := (top rlist).

Lemma readyI_state x st tp k m : chSchReadyI rlist fuel tp (set_state x st k) = Some (set_lk m (set_state tp CH_STATE_READY (set_state x st k))) ->
  chSchReadyI rlist fuel tp k = Some (set_lk m (set_state tp CH_STATE_READY k)).
Proof.
  unfold chSchReadyI. cbn [lk p_prio set_state]. destruct (prio_scan _ _ _ _) as [cp|]; [|done].
  intros E. injection E as ->. done.
Qed.

Lemma msg_queue_not_ready h : (exists G T out k qs, kok G T out k qs) -> kind !! h = Some QMsg -> h <> rlist.
Proof. intros (G & T & out & k & qs & Hk) Hkd ->. destruct (ko_ready _ _ _ _ _ _ _ _ Hk) as [Hr _]. congruence. Qed.

(** What a send does to the state of a thread [x]. *)
Definition send_moves (c r : Z) (k k' : kernel) (x : Z) : Prop :=
  if decide (x = c) then p_state k' x = CH_STATE_SNDMSGQ
  else p_state k' x = p_state k x \/ runnable (p_state k x) = true /\ runnable (p_state k' x) = true \/
    x = r /\ p_state k x = CH_STATE_WTMSG /\ runnable (p_state k' x) = true.

(** The end of a send from [kB], in which the sender [c] is in the queue [h] and the
    receiver [r] is ready if it waited. *)
Lemma send_sleep G T k qs r l kB qsB : let c := r_current k in let h := p_msgqueue r in
  kmid G T None k qs -> quiet k -> c <> idle -> h <> rlist ->
  kok G T None (set_state c CH_STATE_SNDMSGQ kB) qsB -> r_current kB = c -> armed kB = armed k ->
  p_u kB = upd c h (p_u k) ->
  (forall x, p_state kB x = p_state k x \/ p_state k x = CH_STATE_WTMSG /\ x = r /\ p_state kB x = CH_STATE_READY) ->
  (p_state k r = CH_STATE_WTMSG -> p_state kB r = CH_STATE_READY) ->
  (forall h', h' <> rlist -> qsB !! h' = <[h := l ++ [c]]> qs !! h') ->
  exists qs', let k' := chSchGoSleepS rlist CH_STATE_SNDMSGQ kB in
    kmid G T None k' qs' /\ top k' qs' /\ p_u k' = upd c h (p_u k) /\ (forall x, send_moves c r k k' x) /\
    (p_state k r = CH_STATE_WTMSG -> runnable (p_state k' r) = true) /\
    qs' !! h = Some (l ++ [c]) /\ forall h', h' <> rlist -> h' <> h -> qs' !! h' = qs !! h'.
Proof.
  intros c h Hk Hquiet Hi Hrl HB E1 E2 E3 E4 E5 E6. pose proof Hk as [Hok (Hc & Hs & _) Har].
  destruct (go_sleep_gen rlist idle fuel kind G T kB qsB CH_STATE_SNDMSGQ) as (qs' & G1 & G2 & G3 & (_ & G4 & G5 & G6 & G7));
    rewrite ?E1; try done.
  { intros x Hx. rewrite E2 in Hx. destruct (Har x Hx) as [Hx1 Hx2]. split; [done|]. right.
    destruct (decide (x = c)) as [->|Hne]; [unfold quiet in Hquiet; fold c in Hquiet; congruence|]. split; [done|].
    destruct Hx2 as [?|Hx2]; [done|]. destruct (E4 x) as [->|(_ & _ & ->)]; [done|exact I]. }
  rewrite E1 in *. exists qs'. split; [done|split; [done|split; [congruence|split; [|split; [|split]]]]].
  - intros x. unfold send_moves. rewrite G7. case_decide as Hxc.
    + subst x. unfold upd. destruct (Z.eqb_spec c (r_current (chSchGoSleepS rlist CH_STATE_SNDMSGQ kB))); [congruence|].
      by rewrite Z.eqb_refl.
    + unfold upd. destruct (Z.eqb_spec x (r_current (chSchGoSleepS rlist CH_STATE_SNDMSGQ kB))) as [Ex|Ex].
      * subst x. destruct (E4 (r_current (chSchGoSleepS rlist CH_STATE_SNDMSGQ kB))) as [E|(E & Er & _)];
          [right; left; rewrite <- E, G6; done|right; right; by rewrite Er in *].
      * destruct (Z.eqb_spec x c); [done|]. destruct (E4 x) as [E|(E & -> & E')]; [by left|right; right].
        split; [done|split; [done|by rewrite E']].
  - intros Hw. rewrite G7. unfold upd. destruct (Z.eqb_spec r (r_current (chSchGoSleepS rlist CH_STATE_SNDMSGQ kB))); [done|].
    destruct (Z.eqb_spec r c) as [->|]; [unfold c in Hw; congruence|]. by rewrite E5.
  - rewrite G3, E6 by done. apply lookup_insert_eq.
  - intros h' H1 H2. rewrite G3, E6 by done. by rewrite lookup_insert_ne.
Qed.

Lemma send_ok G T k qs r msg pm l :
  let c := r_current k in let h := p_msgqueue r in
  kmid G T None k qs -> quiet k -> c <> idle -> r ∈ T -> kind !! h = Some QMsg -> qs !! h = Some l ->
  exists k' qs', chMsgSend rlist fuel p_msgqueue r msg k pm = Some (k', upd c msg pm) /\ kmid G T None k' qs' /\ top k' qs' /\
    p_u k' = upd c h (p_u k) /\ (forall x, send_moves c r k k' x) /\
    (p_state k r = CH_STATE_WTMSG -> runnable (p_state k' r) = true) /\
    qs' !! h = Some (l ++ [c]) /\ forall h', h' <> rlist -> h' <> h -> qs' !! h' = qs !! h'.
Proof.
  intros c h Hk Hquiet Hi Hr Hkd Hq.
  assert (Hrl : h <> rlist) by (apply msg_queue_not_ready; [exists G, T, None, k, qs; apply Hk|done]).
  destruct (kmid_current rlist idle fuel kind G T k qs Hk) as [Ho _]. pose proof Hk as [Hok (Hc & Hs & _) Har].
  assert (H := rest_queue rlist idle fuel kind G T k qs c Ho Hc Hi h QMsg l CH_STATE_SNDMSGQ h (s_cnt k h) Hkd Hq
                 ltac:(right; right; done)).
  set (kA := set_lk (queue_insert c h (lk k)) (set_u c h k)). set (qsA := <[h := l ++ [c]]> qs) in *.
  assert (HA : kok G T None (set_state c CH_STATE_SNDMSGQ kA) qsA).
  { apply (kok_ext _ _ _ _ _ _ _ _ _ _ H); try (intros; reflexivity). intros y. cbn. unfold upd.
    destruct (Z.eqb_spec y h); congruence. }
  assert (Hgo := fun kB qsB => send_sleep G T k qs r l kB qsB Hk Hquiet Hi Hrl). cbv zeta in Hgo. fold c h qsA in Hgo.
  unfold chMsgSend. cbv zeta. fold c h. change (lk (set_u c h k)) with (lk k). fold kA. change (p_state kA r) with (p_state k r).
  destruct (decide (p_state k r = CH_STATE_WTMSG)) as [Hw|Hw].
  - assert (Em : match p_state k r with CH_STATE_WTMSG => chSchReadyI rlist fuel r kA | _ => Some kA end = chSchReadyI rlist fuel r kA)
      by (by rewrite Hw).
    rewrite Em. assert (Hrc : r <> c) by (intros ->; unfold c in Hw; congruence).
    assert (Est : p_state (set_state c CH_STATE_SNDMSGQ kA) r = CH_STATE_WTMSG) by (cbn; by rewrite upd_ne).
    assert (Hout := take_out rlist idle fuel kind G T _ qsA r HA Hr). unfold loose in Hout. rewrite Est in Hout.
    specialize (Hout I ltac:(done)).
    destruct (kok_ready_list _ _ _ _ _ _ _ _ Hout) as [lr Hlr].
    destruct (ready_ok rlist idle fuel kind G T _ qsA lr r Hout Hr Hlr) as (m & E & HB).
    apply readyI_state in E. rewrite E.
    destruct (Hgo (set_lk m (set_state r CH_STATE_READY kA)) (<[rlist := place (fun x => p_prio (set_state c CH_STATE_SNDMSGQ kA) r <=? p_prio (set_state c CH_STATE_SNDMSGQ kA) x) r lr]> qsA))
      as (qs' & G1 & G2 & G3 & G4 & G5 & G6 & G7); try done.
    + apply (kok_ext _ _ _ _ _ _ _ _ _ _ HB); try (intros; reflexivity). intros y. cbn. unfold upd.
      destruct (Z.eqb_spec y c), (Z.eqb_spec y r); congruence.
    + intros x. cbn. unfold upd. destruct (Z.eqb_spec x r) as [->|]; [right; done|by left].
    + cbn. by rewrite upd_eq.
    + intros h' Hh. by rewrite lookup_insert_ne.
    + eexists _, qs'. split; [done|]. exact (conj G1 (conj G2 (conj G3 (conj G4 (conj G5 (conj G6 G7)))))).
  - assert (Em : match p_state k r with CH_STATE_WTMSG => chSchReadyI rlist fuel r kA | _ => Some kA end = Some kA)
      by (by destruct (p_state k r)).
    rewrite Em.
    destruct (Hgo kA qsA HA) as (qs' & G1 & G2 & G3 & G4 & G5 & G6 & G7); try done; [by left|].
    eexists _, qs'. split; [done|]. exact (conj G1 (conj G2 (conj G3 (conj G4 (conj G5 (conj G6 G7)))))).
Qed.

(** A receiver goes to sleep. *)
Lemma wait_sleep_ok G T k qs : let c := r_current k in
  kmid G T None k qs -> quiet k -> c <> idle ->
  exists k' qs', k' = chSchGoSleepS rlist CH_STATE_WTMSG k /\ kmid G T None k' qs' /\ top k' qs' /\ p_u k' = p_u k /\
    p_state k' c = CH_STATE_WTMSG /\
    (forall x, x <> c -> p_state k' x = p_state k x \/ runnable (p_state k x) = true /\ runnable (p_state k' x) = true) /\
    forall h', h' <> rlist -> qs' !! h' = qs !! h'.
Proof.
  intros c Hk Hquiet Hi. destruct (kmid_current rlist idle fuel kind G T k qs Hk) as [Ho _]. pose proof Hk as [Hok (Hc & Hs & _) Har].
  assert (HA : kok G T None (set_state c CH_STATE_WTMSG k) qs) by (apply rest_loose; [done|done|done|by repeat (first [left; done|right])]).
  destruct (go_sleep_gen rlist idle fuel kind G T k qs CH_STATE_WTMSG HA Hc Hi) as (qs' & G1 & G2 & G3 & (_ & G4 & G5 & G6 & G7)); [done|done| |].
  { intros x Hx. destruct (Har x Hx) as [Hx1 Hx2]. split; [done|]. right. fold c.
    destruct (decide (x = c)) as [->|Hne]; [unfold quiet in Hquiet; fold c in Hquiet; congruence|]. split; [done|]. by destruct Hx2. }
  fold c in G5, G7. eexists _, qs'. split; [done|split; [done|split; [done|split; [done|split; [|split; [|done]]]]]].
  - rewrite G7. unfold upd. destruct (Z.eqb_spec c (r_current (chSchGoSleepS rlist CH_STATE_WTMSG k))); [congruence|]. by rewrite Z.eqb_refl.
  - intros x Hx. rewrite G7. unfold upd. destruct (Z.eqb_spec x (r_current (chSchGoSleepS rlist CH_STATE_WTMSG k))) as [->|].
    + right. by rewrite G6.
    + left. by destruct (Z.eqb_spec x c).
Qed.

Lemma pending_spec G T k qs r l : kmid G T None k qs -> qs !! p_msgqueue r = Some l ->
  chMsgIsPendingI p_msgqueue r k = match l with [] => false | _ => true end.
Proof.
  intros Hk Hq. pose proof (ko_linked _ _ _ _ _ _ _ _ (km_ok _ _ _ _ _ _ _ _ Hk)) as Hl.
  pose proof (li_seg _ _ Hl _ _ Hq) as Hs. destruct (seg_ends _ _ _ _ Hs) as [Hn _]. unfold chMsgIsPendingI. rewrite Hn.
  destruct l as [|x l]; cbn [headh]; [by rewrite Z.eqb_refl|].
  pose proof (li_nodup _ _ Hl _ _ Hq) as [Hx _]%list.NoDup_cons.
  destruct (Z.eqb_spec x (p_msgqueue r)) as [->|]; [|done]. destruct Hx. by left.
Qed.

(** The running thread receives the message of the first sender in its queue. *)
Lemma receive_ok G T k qs x l : let c := r_current k in let h := p_msgqueue c in
  kmid G T None k qs -> top k qs -> kind !! h = Some QMsg -> qs !! h = Some (x :: l) ->
  exists k' qs', receive p_msgqueue k = (x, k') /\ kmid G T None k' qs' /\ top k' qs' /\ p_u k' = p_u k /\
    r_current k' = c /\ armed k' = armed k /\ p_state k' = upd x CH_STATE_SNDMSG (p_state k) /\
    x ∈ T /\ p_state k x = CH_STATE_SNDMSGQ /\ p_u k x = h /\
    qs' !! h = Some l /\ forall h', h' <> h -> qs' !! h' = qs !! h'.
Proof.
  intros c h Hk Htop Hkd Hq. pose proof Hk as [Hok (Hc & Hs & _) Har].
  assert (Hrl : h <> rlist) by (apply msg_queue_not_ready; [by exists G, T, None, k, qs|done]).
  destruct (ko_members _ _ _ _ _ _ _ _ Hok h QMsg _ x Hkd Hq (or_introl eq_refl)) as (Hx & _ & Hw1 & Hw2).
  destruct (kmid_leave_plain rlist idle fuel kind G T k qs h QMsg [] l x Hk Hkd Hq) as (H1 & _ & Hne & _); [done|done|].
  destruct (ko_threads _ _ _ _ _ _ _ _ Hok x Hx ltac:(done)) as [Hid _].
  unfold receive. fold c h. unfold fifo_remove. rewrite (fifo_remove_dequeue _ _ _ _ _ (ko_linked _ _ _ _ _ _ _ _ Hok) Hq).
  eexists _, (<[h := l]> qs). split; [done|]. split; [constructor|].
  - apply rest_loose; [apply H1|done|intros ->; destruct Hid; congruence|by repeat (first [left; done|right])].
  - cbn. by rewrite upd_ne by done.
  - intros y Hy. cbn in *. destruct (Har y Hy) as [Hy1 Hy2]. split; [done|]. fold c in Hy2, Hne |- *.
    unfold upd. destruct (Z.eqb_spec y x) as [->|]; [|done]. rewrite Hw1 in Hy2. by destruct Hy2.
  - split; [|by repeat (split; [done|]); split; [apply lookup_insert_eq|intros h' Hh; by rewrite lookup_insert_ne]].
    intros l' y Hl' Hy. cbn. rewrite lookup_insert_ne in Hl' by done. by apply (Htop l').
Qed.

(** The answer to a message. *)
Lemma release_ok G T k qs x a : kmid G T None k qs -> top k qs -> x ∈ T -> p_state k x = CH_STATE_SNDMSG ->
  exists k' qs', chMsgRelease rlist fuel x a k = Some k' /\ kmid G T None k' qs' /\ top k' qs' /\
    woke x k k' /\ p_u k' x = a /\ forall h, h <> rlist -> qs' !! h = qs !! h.
Proof.
  intros Hk Ht Hx Hs. pose proof Hk as [_ (_ & Hcs & _) _].
  apply wakeupS_ok; [|done|done]. apply kmid_loose; [done|done|intros ->; congruence| |congruence].
  unfold loose. by rewrite Hs.
Qed.
End KernelSide.

(** ** A new thread *)

Section NewThread.
Context (rlist idle : Z) (fuel : nat) (kind : gmap Z qkind) (p_msgqueue : Z -> Z).

(** The kernel with one more queue, which is empty. *)
Lemma kmid_new_queue G T k qs h : kmid rlist idle fuel kind G T None k qs -> kind !! h = None -> h ∉ T ->
  kmid rlist idle fuel (<[h := QMsg]> kind) G T None (set_lk (queue_init h (lk k)) k) (<[h := []]> qs).
Proof.
  intros [Hok Hrun Har] Hkd HT. constructor; [|done|done].
  assert (Hold : forall h' kd, kind !! h' = Some kd -> h' <> h) by congruence.
  assert (Hq : forall h' l, qs !! h' = Some l -> exists kd, kind !! h' = Some kd).
  { intros h' l Hl. apply (ko_dom _ _ _ _ _ _ _ _ Hok). by eexists. }
  destruct Hok as [H1 H2 H3 H4 H5 H6 H7 H8 H9 H10 H11 H12 H13 H14 H15].
  assert (Hrl : rlist <> h) by (apply (Hold _ QReady), H3).
  assert (Hcases : forall h' kd l, <[h := QMsg]> kind !! h' = Some kd -> <[h := []]> qs !! h' = Some l ->
    h' = h /\ kd = QMsg /\ l = [] \/ h' <> h /\ kind !! h' = Some kd /\ qs !! h' = Some l).
  { intros h' kd l. destruct (decide (h' = h)) as [->|Hne].
    - rewrite !lookup_insert_eq. intros [= <-] [= <-]. by left.
    - rewrite !lookup_insert_ne by done. by right. }
  constructor; try done.
  - apply linked_init; [done|]. intros h' l Hl [->|Hin]; [destruct (Hq _ _ Hl); congruence|].
    destruct (Hq _ _ Hl) as [kd Hkd']. destruct (H4 h' kd l h Hkd' Hl Hin). done.
  - intros h'. destruct (decide (h' = h)) as [->|Hne]; [rewrite !lookup_insert_eq; by split; eexists|].
    by rewrite !lookup_insert_ne.
  - destruct H3 as [H3 H3']. split; [by rewrite lookup_insert_ne|]. intros h'.
    destruct (decide (h' = h)) as [->|Hne]; [by rewrite lookup_insert_eq|rewrite lookup_insert_ne by done; apply H3'].
  - intros h' kd l tp Ha Hb Hin. destruct (Hcases h' kd l Ha Hb) as [(-> & -> & ->)|(_ & Ha' & Hb')]; [done|].
    by apply (H4 h' kd l tp).
  - intros tp Htp _. destruct (H5 tp Htp ltac:(done)) as [Hi Hth]. split; [done|].
    assert (Hkeep : forall h' kd l, kind !! h' = Some kd -> qs !! h' = Some l ->
      <[h := QMsg]> kind !! h' = Some kd /\ <[h := []]> qs !! h' = Some l).
    { intros h' kd l Ha Hb. by rewrite !lookup_insert_ne by (symmetry; by apply (Hold _ kd)). }
    change (p_state (set_lk _ k) tp) with (p_state k tp). change (p_u (set_lk _ k) tp) with (p_u k tp).
    destruct (p_state k tp); try exact Hth; try (destruct Hth as (Ha & l & Hb & Hin); destruct (Hkeep _ _ _ Ha Hb); split; [done|by exists l]).
    + destruct Hth as (l & Hb & Hin). exists l. by rewrite lookup_insert_ne.
    + destruct Hth as (h' & l & Ha & Hb & Hin). destruct (Hkeep _ _ _ Ha Hb). by exists h', l.
  - intros l. rewrite lookup_insert_ne by done. apply H7.
  - intros sp l Ha Hb. destruct (Hcases _ _ _ Ha Hb) as [(_ & [=] & _)|(_ & Ha' & Hb')]. by apply H8.
  - intros tp Htp. destruct (H10 tp Htp). rewrite lookup_insert_ne; [done|]. by intros ->.
  - intros h' kd l Ha Hs Hb. destruct (Hcases _ _ _ Ha Hb) as [(_ & -> & _)|(_ & Ha' & Hb')]; [done|]. by apply (H13 h' kd).
  - intros h' l Ha Hb. destruct (Hcases _ _ _ Ha Hb) as [(_ & [=] & _)|(_ & Ha' & Hb')]. by apply H14.
Qed.

Lemma thread_create_ok G T k qs tp prio : let h := p_msgqueue tp in
  kmid rlist idle fuel kind G T None k qs -> top rlist k qs -> 0 < prio ->
  tp ∉ T -> kind !! tp = None -> tp <> NULL -> (size ({[tp]} ∪ T) < fuel)%nat -> kind !! h = None -> h ∉ {[tp]} ∪ T ->
  exists k' qs', thread_create rlist fuel p_msgqueue tp prio k = Some k' /\
    kmid rlist idle fuel (<[h := QMsg]> kind) (ghost_real tp prio (ghost_prio tp prio G)) ({[tp]} ∪ T) None k' qs' /\
    top rlist k' qs' /\ runnable (p_state k' tp) = true /\
    (forall x, x <> tp -> p_u k' x = p_u k x /\
      (p_state k' x = p_state k x \/ runnable (p_state k x) = true /\ runnable (p_state k' x) = true)) /\
    qs' !! h = Some [] /\ forall h', h' <> rlist -> h' <> h -> qs' !! h' = qs !! h'.
Proof.
  intros h Hk Htop Hp Ht Hkd Hn Hf Hh HhT.
  assert (Hrl : h <> rlist) by (intros E; destruct (ko_ready _ _ _ _ _ _ _ _ (km_ok _ _ _ _ _ _ _ _ Hk)); congruence).
  assert (Hk1 := kmid_new_queue G T k qs h Hk Hh ltac:(set_solver)).
  destruct (create_gen rlist idle fuel (<[h := QMsg]> kind) G T _ _ tp prio Hk1) as (k' & qs' & E & H1 & H2 & (_ & H3 & H4) & H5); try done.
  - intros l x Hl Hx. rewrite lookup_insert_ne in Hl by done. by apply (Htop l).
  - rewrite lookup_insert_ne; [done|]. intros E. set_solver.
  - exists k', qs'. split; [exact E|split; [done|split; [done|split; [done|split; [|split]]]]].
    + intros x Hx. destruct (H4 x Hx) as [-> Hst]. cbn in Hst. by rewrite upd_ne in Hst.
    + rewrite H5 by done. apply lookup_insert_eq.
    + intros h' Ha Hb. rewrite H5 by done. by rewrite lookup_insert_ne.
Qed.
End NewThread.

(** ** The invariant *)

(** Neither the message data nor whether it runs changes for the thread [x]. *)
Definition keeps (k k' : kernel) (x : Z) : Prop :=
  p_u k' x = p_u k x /\ (p_state k' x = p_state k x \/ runnable (p_state k x) = true /\ runnable (p_state k' x) = true).

(** In one of the states of this file. *)
Definition messaging (st : tstate) : bool :=
  match st with CH_STATE_SNDMSGQ | CH_STATE_SNDMSG | CH_STATE_WTMSG => true | _ => false end.

Lemma keeps_messaging k k' x : keeps k k' x -> messaging (p_state k' x) = true -> p_state k' x = p_state k x.
Proof. intros [_ [E|[_ E]]] H; [done|]. by destruct (p_state k' x). Qed.

Section Correct.
Context (rlist idle : Z) (fuel : nat) (p_msgqueue : Z -> Z).
Implicit Types (kind : gmap Z qkind) (T : gset Z) (k : kernel).

Definition stage_ok (T : gset Z) (s : msys) (x : Z) (st : stage) : Prop :=
  match st with
  | Sent r msg => r ∈ T /\ p_state (mk s) x = CH_STATE_SNDMSGQ /\ p_u (mk s) x = p_msgqueue r /\ p_msg s x = msg
  | Held => p_state (mk s) x = CH_STATE_SNDMSG
  | Answered a => runnable (p_state (mk s) x) = true /\ p_u (mk s) x = a
  end.

Record mg_ok (kind : gmap Z qkind) (T : gset Z) (s : msys) (p : post) : Prop := {
  mo_kernel : exists G qs, kmid rlist idle fuel kind G T None (mk s) qs /\ top rlist (mk s) qs /\
    forall r, r ∈ T -> qs !! p_msgqueue r = Some (inbox p r);
  mo_quiet : quiet (mk s);
  mo_kind : forall r, r ∈ T -> kind !! p_msgqueue r = Some QMsg;
  mo_fresh : forall r, r ∉ T -> inbox p r = [];
  mo_calls : forall x, calls s !! x = Some CSend <-> is_Some (under_way p !! x);
  mo_stage : forall x st, under_way p !! x = Some st -> x ∈ T /\ stage_ok T s x st;
  mo_wait : forall x, calls s !! x = Some CWait -> x ∈ T /\
    (p_state (mk s) x = CH_STATE_WTMSG /\ inbox p x = [] \/ runnable (p_state (mk s) x) = true /\ inbox p x <> []);
  mo_only : forall x, x ∈ T -> messaging (p_state (mk s) x) = true -> is_Some (calls s !! x)
}.

Lemma stage_keeps T T' s k' pm' x st : stage_ok T s x st -> keeps (mk s) k' x -> pm' x = p_msg s x -> T ⊆ T' ->
  stage_ok T' (MSys k' pm' (calls s)) x st.
Proof.
  intros H [Hu Hs] Hp HT. destruct st as [r msg| |a]; cbn in *.
  - destruct H as (H1 & H2 & H3 & H4). rewrite Hu, Hp. split; [set_solver|split; [|by split]].
    destruct Hs as [->|[Hs _]]; [done|]. by rewrite H2 in Hs.
  - destruct Hs as [->|[Hs _]]; [done|]. by rewrite H in Hs.
  - destruct H as [H1 H2]. split; [|congruence]. by destruct Hs as [->|[_ Hs]].
Qed.

(** What the validity of an operation asks: who calls, and that the rest of the kernel
    leaves the messages alone. *)
Definition left_alone (T : gset Z) (s : msys) (k' : kernel) : Prop :=
  (forall x c, calls s !! x = Some c -> keeps (mk s) k' x) /\
  (forall r l, r ∈ T -> waiting (mk s) (p_msgqueue r) l -> waiting k' (p_msgqueue r) l) /\
  (forall x, x ∈ T -> messaging (p_state k' x) = true -> is_Some (calls s !! x)).

Definition valid_msg (kind : gmap Z qkind) (T : gset Z) (o : msg_op) (s : msys) : Prop :=
  let k := mk s in
  let c := r_current k in
  match o with
  | MgSend r _ => calls s !! c = None /\ c <> idle /\ r ∈ T
  | MgWait => calls s !! c = None /\ c <> idle
  | MgRelease x _ => x ∈ T /\ p_state k x = CH_STATE_SNDMSG
  | MgResume => is_Some (calls s !! c)
  | MgCreate tp prio => 0 < prio /\ tp ∉ T /\ kind !! tp = None /\ tp <> NULL /\ (size ({[tp]} ∪ T) < fuel)%nat /\
      kind !! p_msgqueue tp = None /\ p_msgqueue tp ∉ {[tp]} ∪ T
  | MgKernel e => valid_event rlist idle fuel kind T k e /\ threads_after e T = T /\
      forall k', run_event rlist fuel e k = Some k' -> left_alone T s k'
  end.

Definition kinds_then (o : msg_op) (kind : gmap Z qkind) : gmap Z qkind :=
  match o with MgCreate tp _ => <[p_msgqueue tp := QMsg]> kind | _ => kind end.
Definition threads_then (o : msg_op) (T : gset Z) : gset Z :=
  match o with MgCreate tp _ => {[tp]} ∪ T | _ => T end.

Fixpoint valid_msgs (kind : gmap Z qkind) (T : gset Z) (os : list msg_op) (s : msys) : Prop :=
  match os with
  | [] => True
  | o :: os => valid_msg kind T o s /\
      forall a s', run_msg rlist fuel p_msgqueue o s = Some (a, s') -> valid_msgs (kinds_then o kind) (threads_then o T) os s'
  end.

Hypothesis (field_inj : forall r r', p_msgqueue r = p_msgqueue r' -> r = r').

Definition step_ok (kind : gmap Z qkind) (T : gset Z) (p : post) (r : option (list msg_event * msys)) : Prop :=
  exists a s' p', r = Some (a, s') /\ mg_ok kind T s' p' /\ post_run a p = Some p'.

(** The timer of the thread that runs now is reset. *)
Lemma resume_eq k : p_u (timeout_resume k) = p_u k /\ p_state (timeout_resume k) = p_state k.
Proof. unfold timeout_resume. by destruct (armed k (r_current k)). Qed.

Lemma kernel_resume kind G T k qs ib : kmid rlist idle fuel kind G T None k qs -> top rlist k qs ->
  (forall r, r ∈ T -> qs !! p_msgqueue r = Some (ib r)) ->
  (exists G qs, kmid rlist idle fuel kind G T None (timeout_resume k) qs /\ top rlist (timeout_resume k) qs /\
    forall r, r ∈ T -> qs !! p_msgqueue r = Some (ib r)) /\ quiet (timeout_resume k).
Proof.
  intros Hk Ht Hq. destruct (resume_ok rlist idle fuel kind G T k qs Hk Ht) as (H1 & H2 & H3).
  split; [by exists G, qs|done].
Qed.

Lemma queue_not_ready kind T s p r : mg_ok kind T s p -> r ∈ T -> p_msgqueue r <> rlist.
Proof.
  intros H Hr. destruct (mo_kernel _ _ _ _ H) as (G & qs & Hk & _). pose proof (mo_kind _ _ _ _ H r Hr) as Hkd.
  apply (msg_queue_not_ready rlist idle fuel kind); [exists G, T, None, (mk s), qs; apply Hk|done].
Qed.

(** The running thread is in no call, or has come out of its wait. *)
Lemma current_free kind T s p : mg_ok kind T s p -> r_current (mk s) ∈ T /\ p_state (mk s) (r_current (mk s)) = CH_STATE_CURRENT.
Proof. intros H. destruct (mo_kernel _ _ _ _ H) as (G & qs & [_ (H1 & H2 & _) _] & _). done. Qed.

Lemma send_step kind T s p r msg : mg_ok kind T s p -> calls s !! r_current (mk s) = None -> r_current (mk s) <> idle -> r ∈ T ->
  step_ok kind T p (run_msg rlist fuel p_msgqueue (MgSend r msg) s).
Proof.
  intros H Hc Hi Hr. set (c := r_current (mk s)) in *. destruct (current_free _ _ _ _ H) as [HcT Hcs]. fold c in HcT, Hcs.
  destruct (mo_kernel _ _ _ _ H) as (G & qs & Hk & Ht & Hq).
  destruct (send_ok rlist idle fuel kind p_msgqueue G T (mk s) qs r msg (p_msg s) (inbox p r) Hk (mo_quiet _ _ _ _ H) Hi Hr
    (mo_kind _ _ _ _ H r Hr) (Hq r Hr)) as (k' & qs' & E & Hk' & Ht' & Hu & Hm & Hw & Hq1 & Hq2). fold c in E, Hu, Hm, Hq1.
  cbn [run_msg]. rewrite E. fold c. set (p' := Post (upd r (inbox p r ++ [c]) (inbox p)) (<[c := Sent r msg]> (under_way p))).
  destruct (kernel_resume kind G T k' qs' (inbox p') Hk' Ht') as [Hk2 Hquiet].
  { intros r' Hr'. cbn. unfold upd. destruct (Z.eqb_spec r' r) as [->|Hne]; [done|]. rewrite Hq2; [by apply Hq| |].
    - by apply (queue_not_ready kind T s p).
    - intros E'. by apply Hne, field_inj. }
  destruct (resume_eq k') as [Eu Es].
  assert (Hnone : under_way p !! c = None).
  { apply eq_None_not_Some. rewrite <- (mo_calls _ _ _ _ H c). congruence. }
  eexists _, _, p'. split; [done|]. split; [|cbn; by rewrite Hnone].
  constructor; cbn [mk p_msg calls]; try done.
  - apply (mo_kind _ _ _ _ H).
  - intros r' Hr'. cbn. rewrite upd_ne by (intros ->; done). by apply (mo_fresh _ _ _ _ H).
  - intros x. cbn. destruct (decide (x = c)) as [->|Hne]; [rewrite !lookup_insert_eq; by split; eexists|].
    rewrite !lookup_insert_ne by done. apply (mo_calls _ _ _ _ H).
  - intros x st. cbn. destruct (decide (x = c)) as [->|Hne].
    + rewrite lookup_insert_eq. intros [= <-]. split; [done|]. cbn. rewrite Eu, Es, Hu, !upd_eq. split; [done|].
      specialize (Hm c). unfold send_moves in Hm. by rewrite decide_True in Hm.
    + rewrite lookup_insert_ne by done. intros Hst. destruct (mo_stage _ _ _ _ H x st Hst) as [HxT Hok]. split; [done|].
      apply (stage_keeps T T s (timeout_resume k') (upd c msg (p_msg s)) x st Hok); [|by rewrite upd_ne|done].
      unfold keeps. rewrite Eu, Es, Hu, upd_ne by done. split; [done|].
      specialize (Hm x). unfold send_moves in Hm. rewrite decide_False in Hm by done.
      destruct Hm as [Hm|[Hm|(-> & Hm & _)]]; [by left|by right|].
      destruct st as [r' msg'| |a]; cbn in Hok; [destruct Hok as (_ & Hok & _)| |destruct Hok as [Hok _]]; by rewrite Hm in Hok.
  - intros x. destruct (decide (x = c)) as [->|Hne]; [by rewrite lookup_insert_eq|]. rewrite lookup_insert_ne by done.
    intros Hx. destruct (mo_wait _ _ _ _ H x Hx) as [HxT Hok]. split; [done|]. rewrite Es. cbn.
    specialize (Hm x). unfold send_moves in Hm. rewrite decide_False in Hm by done. unfold upd.
    destruct (Z.eqb_spec x r) as [->|Hxr].
    + right. destruct Hok as [[Hok _]|[Hok _]]; [split; [by apply Hw|by destruct (inbox p r)]|].
      split; [|by destruct (inbox p r)]. destruct Hm as [->|[[_ Hm]|(_ & Hm & _)]]; [done|done|by rewrite Hm in Hok].
    + destruct Hm as [->|[[Hm1 Hm2]|(? & _)]]; [done| |done]. destruct Hok as [[Hok _]|[_ Hok]]; [by rewrite Hok in Hm1|by right].
  - intros x HxT. rewrite Es. intros Hms. destruct (decide (x = c)) as [->|Hne]; [rewrite lookup_insert_eq; by eexists|].
    rewrite lookup_insert_ne by done. apply (mo_only _ _ _ _ H x HxT).
    specialize (Hm x). unfold send_moves in Hm. rewrite decide_False in Hm by done.
    destruct Hm as [Hm|[[_ Hm]|(_ & _ & Hm)]]; [by rewrite <- Hm|by destruct (p_state k' x)|by destruct (p_state k' x)].
Qed.

(** The running thread receives: it was in no call, or it was woken from its wait. *)
Lemma receive_step kind T s p : mg_ok kind T s p -> calls s !! r_current (mk s) <> Some CSend -> inbox p (r_current (mk s)) <> [] ->
  step_ok kind T p (Some (received s (receive p_msgqueue (mk s)) (delete (r_current (mk s)) (calls s)))).
Proof.
  intros H Hc Hne. set (c := r_current (mk s)) in *. destruct (current_free _ _ _ _ H) as [HcT Hcs]. fold c in HcT, Hcs.
  destruct (mo_kernel _ _ _ _ H) as (G & qs & Hk & Ht & Hq).
  destruct (inbox p c) as [|x l] eqn:Ei; [done|]. pose proof (Hq c HcT) as Hqc. rewrite Ei in Hqc.
  destruct (receive_ok rlist idle fuel kind p_msgqueue G T (mk s) qs x l Hk Ht (mo_kind _ _ _ _ H c HcT) Hqc) as
    (k' & qs' & E & Hk' & Ht' & Hu & Hc' & _ & Hst & HxT & Hx1 & Hx2 & Hq1 & Hq2). fold c in E, Hc', Hq1, Hq2, Hx2.
  rewrite E. unfold received. fold c.
  destruct (mo_only _ _ _ _ H x HxT) as [cx Hcx]; [by rewrite Hx1|].
  destruct cx; [|destruct (mo_wait _ _ _ _ H x Hcx) as [_ [[Hy _]|[Hy _]]]; [congruence|by rewrite Hx1 in Hy]].
  destruct (proj1 (mo_calls _ _ _ _ H x) Hcx) as [st Hxs].
  destruct (mo_stage _ _ _ _ H x st Hxs) as [_ Hok].
  destruct st as [r msg| |a]; cbn in Hok; [|congruence|destruct Hok as [Hok _]; by rewrite Hx1 in Hok].
  destruct Hok as (_ & _ & Hr & Hmsg). rewrite Hx2 in Hr. apply field_inj in Hr. subst r.
  assert (Hxc : x <> c) by (intros ->; congruence).
  set (p' := Post (upd c l (inbox p)) (<[x := Held]> (under_way p))).
  destruct (kernel_resume kind G T k' qs' (inbox p') Hk' Ht') as [Hk2 Hquiet].
  { intros r' Hr'. cbn. unfold upd. destruct (Z.eqb_spec r' c) as [->|Hn]; [done|]. rewrite Hq2; [by apply Hq|].
    intros E'. by apply Hn, field_inj. }
  destruct (resume_eq k') as [Eu Es].
  eexists _, _, p'. split; [done|]. split; [|cbn; unfold chMsgGet; by rewrite Ei, Hxs, Hmsg, !Z.eqb_refl].
  constructor; cbn [mk p_msg calls]; try done.
  - apply (mo_kind _ _ _ _ H).
  - intros r' Hr'. cbn. rewrite upd_ne by (intros ->; done). by apply (mo_fresh _ _ _ _ H).
  - intros y. cbn. destruct (decide (y = x)) as [->|Hn].
    + rewrite lookup_insert_eq, lookup_delete_ne by auto. rewrite Hcx. by split; eexists.
    + rewrite lookup_insert_ne by auto. destruct (decide (y = c)) as [->|Hnc].
      * rewrite lookup_delete_eq. split; [done|]. intros Hy. by apply (mo_calls _ _ _ _ H) in Hy.
      * rewrite lookup_delete_ne by auto. apply (mo_calls _ _ _ _ H).
  - intros y st. cbn. destruct (decide (y = x)) as [->|Hn].
    + rewrite lookup_insert_eq. intros [= <-]. split; [done|]. cbn. by rewrite Es, Hst, upd_eq.
    + rewrite lookup_insert_ne by auto. intros Hy. destruct (mo_stage _ _ _ _ H y st Hy) as [HyT Hok]. split; [done|].
      apply (stage_keeps T T s (timeout_resume k') (p_msg s) y st Hok); [|done|done].
      unfold keeps. rewrite Eu, Es, Hu, Hst, upd_ne by done. by split; [|left].
  - intros y [Hn Hy]%lookup_delete_Some. destruct (mo_wait _ _ _ _ H y Hy) as [HyT Hok]. split; [done|].
    assert (Hyx : y <> x) by (intros ->; congruence). rewrite Es, Hst, upd_ne by done. cbn. by rewrite upd_ne by auto.
  - intros y HyT. rewrite Es, Hst. unfold upd. destruct (Z.eqb_spec y x) as [->|Hn].
    + intros _. rewrite lookup_delete_ne by auto. by eexists.
    + intros Hm. destruct (mo_only _ _ _ _ H y HyT Hm) as [cy Hy]. exists cy. rewrite lookup_delete_ne; [done|].
      intros <-. by rewrite Hcs in Hm.
Qed.

(** An operation that changes no message and no call, for the threads [T'] after it. *)
Lemma same_step kind kind' T T' s p k' : mg_ok kind T s p -> T ⊆ T' ->
  (exists G qs, kmid rlist idle fuel kind' G T' None k' qs /\ top rlist k' qs /\ forall r, r ∈ T' -> qs !! p_msgqueue r = Some (inbox p r)) ->
  quiet k' -> (forall r, r ∈ T' -> kind' !! p_msgqueue r = Some QMsg) ->
  (forall x c, calls s !! x = Some c -> keeps (mk s) k' x) ->
  (forall x, x ∈ T' -> messaging (p_state k' x) = true -> is_Some (calls s !! x)) ->
  mg_ok kind' T' (MSys k' (p_msg s) (calls s)) p.
Proof.
  intros H HT Hk Hq Hkd Hkeep Hm. constructor; cbn [mk p_msg calls]; try done.
  - intros r Hr. apply (mo_fresh _ _ _ _ H). set_solver.
  - apply (mo_calls _ _ _ _ H).
  - intros x st Hx. destruct (mo_stage _ _ _ _ H x st Hx) as [HxT Hok]. split; [set_solver|].
    apply (stage_keeps T T' s k' (p_msg s) x st Hok); [|done|done]. apply (Hkeep x CSend). by apply (mo_calls _ _ _ _ H).
  - intros x Hx. destruct (mo_wait _ _ _ _ H x Hx) as [HxT Hok]. split; [set_solver|].
    destruct (Hkeep x CWait Hx) as [_ [->|[H1 H2]]]; [done|]. destruct Hok as [[Hok _]|[_ Hok]]; [by rewrite Hok in H1|by right].
Qed.

(** The running thread goes to sleep until a message arrives. *)
Lemma wait_step kind T s p : mg_ok kind T s p -> calls s !! r_current (mk s) = None -> r_current (mk s) <> idle ->
  step_ok kind T p (run_msg rlist fuel p_msgqueue MgWait s).
Proof.
  intros H Hc Hi. destruct (current_free _ _ _ _ H) as [HcT Hcs].
  destruct (mo_kernel _ _ _ _ H) as (G & qs & Hk & Ht & Hq). cbn [run_msg]. unfold chMsgWait.
  rewrite (pending_spec rlist idle fuel kind p_msgqueue G T (mk s) qs _ _ Hk (Hq _ HcT)).
  destruct (inbox p (r_current (mk s))) as [|x l] eqn:Ei; cbn [negb].
  - destruct (wait_sleep_ok rlist idle fuel kind G T (mk s) qs Hk (mo_quiet _ _ _ _ H) Hi) as
      (k' & qs' & -> & Hk' & Ht' & Hu & Hst & Hoth & Hq').
    set (k' := chSchGoSleepS rlist CH_STATE_WTMSG (mk s)) in *. set (c := r_current (mk s)) in *.
    destruct (kernel_resume kind G T k' qs' (inbox p) Hk' Ht') as [Hk2 Hquiet].
    { intros r Hr. rewrite Hq' by (by apply (queue_not_ready kind T s p)). by apply Hq. }
    destruct (resume_eq k') as [Eu Es]. eexists _, _, p. split; [done|]. split; [|done].
    constructor; cbn [mk p_msg calls]; try done; try apply H.
    + intros x. destruct (decide (x = c)) as [->|Hn]; [|rewrite lookup_insert_ne by auto; apply (mo_calls _ _ _ _ H)].
      rewrite lookup_insert_eq, <- (mo_calls _ _ _ _ H). split; congruence.
    + intros x st Hx. destruct (mo_stage _ _ _ _ H x st Hx) as [HxT Hok]. split; [done|].
      apply (stage_keeps T T s (timeout_resume k') (p_msg s) x st Hok); [|done|done]. unfold keeps. rewrite Eu, Es.
      split; [by rewrite Hu|]. apply Hoth. intros ->.
      assert (calls s !! c = Some CSend) by (apply (mo_calls _ _ _ _ H); by eexists). congruence.
    + intros x. rewrite Es. destruct (decide (x = c)) as [->|Hn]; [intros _; split; [done|by left]|].
      rewrite lookup_insert_ne by auto. intros Hx. destruct (mo_wait _ _ _ _ H x Hx) as [HxT Hok]. split; [done|].
      destruct (Hoth x Hn) as [->|[H1 H2]]; [done|]. destruct Hok as [[Hok _]|[_ Hok]]; [by rewrite Hok in H1|by right].
    + intros x HxT. rewrite Es. intros Hm. destruct (decide (x = c)) as [->|Hn]; [rewrite lookup_insert_eq; by eexists|].
      rewrite lookup_insert_ne by auto. apply (mo_only _ _ _ _ H x HxT).
      destruct (Hoth x Hn) as [E|[_ H2]]; [by rewrite <- E|by destruct (p_state k' x)].
  - pose proof (receive_step kind T s p H) as Hrec. rewrite Hc, Ei in Hrec. specialize (Hrec ltac:(done) ltac:(done)).
    rewrite delete_id in Hrec by done. by destruct (receive p_msgqueue (mk s)).
Qed.

(** A sender is answered. *)
Lemma release_step kind T s p x a : mg_ok kind T s p -> x ∈ T -> p_state (mk s) x = CH_STATE_SNDMSG ->
  step_ok kind T p (run_msg rlist fuel p_msgqueue (MgRelease x a) s).
Proof.
  intros H Hx Hs. destruct (mo_kernel _ _ _ _ H) as (G & qs & Hk & Ht & Hq).
  destruct (release_ok rlist idle fuel kind G T (mk s) qs x a Hk Ht Hx Hs) as (k' & qs' & E & Hk' & Ht' & (_ & Hrun & Hoth) & Hu & Hq').
  destruct (mo_only _ _ _ _ H x Hx) as [c Hc]; [by rewrite Hs|].
  destruct c; [|destruct (mo_wait _ _ _ _ H x Hc) as [_ [[Hy _]|[Hy _]]]; [congruence|by rewrite Hs in Hy]].
  destruct (proj1 (mo_calls _ _ _ _ H x) Hc) as [st Hst]. destruct (mo_stage _ _ _ _ H x st Hst) as [_ Hok].
  destruct st as [r msg| |b]; cbn in Hok; [destruct Hok as (_ & ? & _); congruence| |destruct Hok as [Hok _]; by rewrite Hs in Hok].
  cbn [run_msg]. rewrite E. destruct (kernel_resume kind G T k' qs' (inbox p) Hk' Ht') as [Hk2 Hquiet].
  { intros r Hr. rewrite Hq' by (by apply (queue_not_ready kind T s p)). by apply Hq. }
  destruct (resume_eq k') as [Eu Es].
  eexists _, _, (Post (inbox p) (<[x := Answered a]> (under_way p))). split; [done|]. split; [|cbn; by rewrite Hst].
  constructor; cbn [mk p_msg calls inbox under_way]; try done; try apply H.
  - intros y. destruct (decide (y = x)) as [->|Hn]; [rewrite lookup_insert_eq, Hc; by split; eexists|].
    rewrite lookup_insert_ne by auto. apply (mo_calls _ _ _ _ H).
  - intros y st. destruct (decide (y = x)) as [->|Hn].
    + rewrite lookup_insert_eq. intros [= <-]. split; [done|]. cbn. by rewrite Es, Eu.
    + rewrite lookup_insert_ne by auto. intros Hy. destruct (mo_stage _ _ _ _ H y st Hy) as [HyT Hoky]. split; [done|].
      apply (stage_keeps T T s (timeout_resume k') (p_msg s) y st Hoky); [|done|done]. unfold keeps. rewrite Eu, Es. by apply Hoth.
  - intros y Hy. destruct (mo_wait _ _ _ _ H y Hy) as [HyT Hoky]. split; [done|]. rewrite Es.
    destruct (Hoth y) as [_ [->|[H1 H2]]]; [intros ->; congruence|done|].
    destruct Hoky as [[Hoky _]|[_ Hoky]]; [by rewrite Hoky in H1|by right].
  - intros y HyT. rewrite Es. intros Hm. destruct (decide (y = x)) as [->|Hn]; [by eexists|].
    apply (mo_only _ _ _ _ H y HyT). destruct (Hoth y Hn) as [_ [E'|[_ H2]]]; [by rewrite <- E'|by destruct (p_state k' y)].
Qed.

(** A thread comes out of its call. *)
Lemma out_step kind T s p : mg_ok kind T s p -> is_Some (calls s !! r_current (mk s)) ->
  step_ok kind T p (run_msg rlist fuel p_msgqueue MgResume s).
Proof.
  intros H [c Hc]. destruct (current_free _ _ _ _ H) as [HcT Hcs]. cbn [run_msg]. rewrite Hc.
  destruct c.
  - destruct (proj1 (mo_calls _ _ _ _ H _) Hc) as [st Hst]. destruct (mo_stage _ _ _ _ H _ st Hst) as [_ Hok].
    destruct st as [r msg| |b]; cbn in Hok; [destruct Hok as (_ & ? & _); congruence|congruence|].
    eexists _, _, (Post (inbox p) (delete (r_current (mk s)) (under_way p))). split; [done|].
    split; [|cbn; rewrite Hst; unfold send_resume; by rewrite (proj2 Hok), Z.eqb_refl].
    constructor; cbn [mk p_msg calls inbox under_way]; try done; try apply H.
    + intros y. destruct (decide (y = r_current (mk s))) as [->|Hn]; [rewrite !lookup_delete_eq; by split; [|intros []]|].
      rewrite !lookup_delete_ne by auto. apply (mo_calls _ _ _ _ H).
    + intros y st [Hn Hy]%lookup_delete_Some. destruct (mo_stage _ _ _ _ H y st Hy) as [HyT Hoky]. split; [done|].
      by destruct st.
    + intros y [Hn Hy]%lookup_delete_Some. by apply (mo_wait _ _ _ _ H).
    + intros y HyT Hm. destruct (mo_only _ _ _ _ H y HyT Hm) as [cy Hy]. exists cy. rewrite lookup_delete_ne; [done|].
      intros <-. by rewrite Hcs in Hm.
  - apply (receive_step kind T s p H); [congruence|].
    destruct (mo_wait _ _ _ _ H _ Hc) as [_ [[Hw _]|[_ Hw]]]; [congruence|done].
Qed.

Lemma caller_thread kind T s p x c : mg_ok kind T s p -> calls s !! x = Some c -> x ∈ T.
Proof.
  intros H Hx. destruct c; [|by apply (mo_wait _ _ _ _ H x)].
  destruct (proj1 (mo_calls _ _ _ _ H x) Hx) as [st Hst]. by apply (mo_stage _ _ _ _ H x st).
Qed.

Lemma create_step kind T s p tp prio : mg_ok kind T s p -> valid_msg kind T (MgCreate tp prio) s ->
  step_ok (<[p_msgqueue tp := QMsg]> kind) ({[tp]} ∪ T) p (run_msg rlist fuel p_msgqueue (MgCreate tp prio) s).
Proof.
  intros H (Hp & Ht & Hkd & Hn & Hf & Hh & HhT). destruct (mo_kernel _ _ _ _ H) as (G & qs & Hk & Htop & Hq).
  destruct (thread_create_ok rlist idle fuel kind p_msgqueue G T (mk s) qs tp prio Hk Htop Hp Ht Hkd Hn Hf Hh HhT) as
    (k' & qs' & E & Hk' & Ht' & Hrun & Hoth & Hq1 & Hq2).
  assert (Hapart : forall r, r ∈ T -> p_msgqueue r <> p_msgqueue tp /\ r <> tp).
  { intros r Hr. split; [|by intros ->]. intros E'. apply field_inj in E'. by subst. }
  cbn [run_msg]. rewrite E.
  destruct (kernel_resume _ _ _ k' qs' (inbox p) Hk' Ht') as [Hk2 Hquiet].
  { intros r [->%elem_of_singleton|Hr]%elem_of_union; [by rewrite (mo_fresh _ _ _ _ H)|].
    destruct (Hapart r Hr) as [Ha _]. rewrite Hq2; [by apply Hq|by apply (queue_not_ready kind T s p)|done]. }
  destruct (resume_eq k') as [Eu Es]. eexists _, _, p. split; [done|]. split; [|done].
  apply (same_step kind _ T _ s p (timeout_resume k') H); [set_solver|done|done| | |].
  - intros r [->%elem_of_singleton|Hr]%elem_of_union; [apply lookup_insert_eq|].
    rewrite lookup_insert_ne by (symmetry; by apply Hapart). by apply (mo_kind _ _ _ _ H).
  - intros x c Hx. unfold keeps. rewrite Eu, Es. apply Hoth. intros ->. by apply Ht, (caller_thread kind T s p tp c).
  - intros x Hx. rewrite Es. destruct (decide (x = tp)) as [->|Hne]; [by destruct (p_state k' tp)|]. intros Hm.
    apply (mo_only _ _ _ _ H x); [set_solver|]. destruct (Hoth x Hne) as [_ [E'|[_ H2]]]; [by rewrite <- E'|by destruct (p_state k' x)].
Qed.

Lemma kernel_step kind T s p e : mg_ok kind T s p -> valid_msg kind T (MgKernel e) s ->
  step_ok kind T p (run_msg rlist fuel p_msgqueue (MgKernel e) s).
Proof.
  intros H (Hv & HT & Hl). destruct (mo_kernel _ _ _ _ H) as (G & qs & Hk & Htop & Hq).
  destruct (run_event_mid rlist idle fuel kind G T (mk s) qs e Hk Htop (mo_quiet _ _ _ _ H) Hv) as (k' & qs' & E & Hk' & Ht' & Hq').
  rewrite HT in Hk'. destruct (Hl k' E) as (L1 & L2 & L3). cbn [run_msg]. rewrite E.
  eexists _, _, p. split; [done|]. split; [|done].
  apply (same_step kind kind T T s p k' H); [done| |done|by apply (mo_kind _ _ _ _ H)|done|done].
  exists (ghost_after e (mk s) G), qs'. split; [done|split; [done|]]. intros r Hr.
  pose proof (ko_linked _ _ _ _ _ _ _ _ (km_ok _ _ _ _ _ _ _ _ Hk)) as Hl1.
  pose proof (km_ok _ _ _ _ _ _ _ _ Hk') as Hok'. pose proof (ko_linked _ _ _ _ _ _ _ _ Hok') as Hl2.
  destruct (proj2 (ko_dom _ _ _ _ _ _ _ _ Hok' (p_msgqueue r))) as [l Hlk]; [rewrite (mo_kind _ _ _ _ H r Hr); by eexists|].
  rewrite Hlk. f_equal. apply (waiting_lookup k' qs' _ _ _ Hl2 Hlk). apply L2; [done|].
  by apply (lookup_waiting (mk s) qs); [|apply Hq].
Qed.

Lemma run_msg_ok kind T o s p : mg_ok kind T s p -> valid_msg kind T o s ->
  step_ok (kinds_then o kind) (threads_then o T) p (run_msg rlist fuel p_msgqueue o s).
Proof.
  intros H Hv. destruct o; cbn [kinds_then threads_then].
  - destruct Hv as (? & ? & ?). by apply send_step.
  - destruct Hv. by apply wait_step.
  - destruct Hv. by apply release_step.
  - by apply out_step.
  - by apply create_step.
  - by apply kernel_step.
Qed.

Fixpoint kinds_after (os : list msg_op) (kind : gmap Z qkind) : gmap Z qkind :=
  match os with [] => kind | o :: os => kinds_after os (kinds_then o kind) end.
Fixpoint msg_threads (os : list msg_op) (T : gset Z) : gset Z :=
  match os with [] => T | o :: os => msg_threads os (threads_then o T) end.

Lemma run_msgs_ok : forall os kind T s p, mg_ok kind T s p -> valid_msgs kind T os s ->
  step_ok (kinds_after os kind) (msg_threads os T) p (run_msgs rlist fuel p_msgqueue os s).
Proof.
  induction os as [|o os IH]; intros kind T s p H Hv; cbn [run_msgs kinds_after msg_threads]; [by exists [], s, p|].
  destruct Hv as [Hv1 Hv2]. destruct (run_msg_ok kind T o s p H Hv1) as (a & s1 & p1 & E & H1 & Ep). rewrite E.
  destruct (IH _ _ s1 p1 H1 (Hv2 _ _ E)) as (b & s2 & p2 & -> & H2 & Ep2).
  exists (a ++ b), s2, p2. split; [done|split; [done|]]. by apply (post_run_app _ _ _ p1).
Qed.

(** The specification agrees with the memory. *)
Lemma mg_inbox kind T s p r : mg_ok kind T s p -> r ∈ T -> waiting (mk s) (p_msgqueue r) (inbox p r).
Proof.
  intros H Hr. destruct (mo_kernel _ _ _ _ H) as (G & qs & Hk & _ & Hq).
  apply (lookup_waiting (mk s) qs); [apply (ko_linked _ _ _ _ _ _ _ _ (km_ok _ _ _ _ _ _ _ _ Hk))|by apply Hq].
Qed.

(** The kernel after its start, with one thread. *)
Lemma messages_start_ok main objs k : objects_ok rlist main objs -> blank_kernel k -> (1 < fuel)%nat -> main = idle ->
  p_msgqueue main <> main -> kinds rlist objs !! p_msgqueue main = None ->
  mg_ok (<[p_msgqueue main := QMsg]> (kinds rlist objs)) {[main]}
    (MSys (set_lk (queue_init (p_msgqueue main) (lk (init_objects objs (sys_init rlist main k)))) (init_objects objs (sys_init rlist main k))) (fun _ => 0) ∅)
    (Post (fun _ => []) ∅).
Proof.
  intros Ho Hb Hf -> Hne Hkd.
  destruct (boot_kernel_ok rlist idle fuel objs k Ho Hb Hf) as (G & qs & Hk & Ht & Hq).
  assert (Hh : p_msgqueue idle ∉ ({[idle]} : gset Z)) by set_solver.
  assert (Hk2 := kmid_new_queue rlist idle fuel _ G _ _ qs _ Hk Hkd Hh).
  assert (Hrl : p_msgqueue idle <> rlist).
  { intros E. rewrite E in Hkd. unfold kinds in Hkd. by rewrite lookup_insert_eq in Hkd. }
  constructor; cbn [mk p_msg calls inbox under_way]; try done.
  - exists G, (<[p_msgqueue idle := []]> qs). split; [done|split].
    + intros l x Hl Hx. rewrite lookup_insert_ne in Hl by done. by apply (Ht l).
    + intros r ->%elem_of_singleton. apply lookup_insert_eq.
  - intros r ->%elem_of_singleton. apply lookup_insert_eq.
  - intros x. rewrite !lookup_empty. by split; [|intros []].
  - intros x ->%elem_of_singleton. pose proof (km_run _ _ _ _ _ _ _ _ Hk) as (Hc & Hs & _).
    apply elem_of_singleton in Hc. rewrite Hc in Hs. cbn in *. by rewrite Hs.
Qed.
End Correct.

(** C22. Messages are delivered, received in order and answered once.  For any
    interleaving of sends, receptions and answers by threads that sleep in between, with
    the creation of threads and anything else in the kernel: every call returns or sleeps;
    what happens is a run of the specification, in which a message is received by the
    thread it was sent to, first come first served, with the contents that were sent, then
    answered by one release, and exactly that answer is returned to the sender; the queue
    of each thread in memory is that of the specification; and no thread sleeps for a
    message while its queue holds one. *)
Theorem messages_answered rlist idle fuel p_msgqueue kind T os s p :
  (forall r r', p_msgqueue r = p_msgqueue r' -> r = r') ->
  mg_ok rlist idle fuel p_msgqueue kind T s p -> valid_msgs rlist idle fuel p_msgqueue kind T os s ->
  exists a s' p', run_msgs rlist fuel p_msgqueue os s = Some (a, s') /\ post_run a p = Some p' /\
    (forall r, r ∈ msg_threads os T -> waiting (mk s') (p_msgqueue r) (inbox p' r)) /\
    (forall r, calls s' !! r = Some CWait -> p_state (mk s') r = CH_STATE_WTMSG -> inbox p' r = []) /\
    (forall x, calls s' !! x = Some CSend <-> is_Some (under_way p' !! x)).
Proof.
  intros Hinj H Hv. destruct (run_msgs_ok rlist idle fuel p_msgqueue Hinj os kind T s p H Hv) as (a & s' & p' & E & H' & Ep).
  exists a, s', p'. split; [done|split; [done|split; [|split; [|apply H']]]].
  - intros r Hr. by apply (mg_inbox rlist idle fuel p_msgqueue _ _ s' p' r H').
  - intros r Hr Hs. destruct (mo_wait _ _ _ _ _ _ _ _ H' r Hr) as [_ [[_ ?]|[Hrun _]]]; [done|by rewrite Hs in Hrun].
Qed.

(** ** A server and a client *)

Definition demo_field (x : Z) : Z := x + 50000.
Lemma demo_field_inj r r' : demo_field r = demo_field r' -> r = r'.
Proof. unfold demo_field. lia. Qed.

Definition demo_kind : gmap Z qkind := <[52000 := QMsg]> (kinds 1000 []).
Definition demo_start : msys :=
  MSys (set_lk (queue_init 52000 (lk (sys_init 1000 2000 blank))) (sys_init 1000 2000 blank)) (fun _ => 0) ∅.

Lemma demo_start_ok : mg_ok 1000 2000 4 demo_field demo_kind {[2000]} demo_start (Post (fun _ => []) ∅).
Proof.
  apply (messages_start_ok 1000 2000 4 demo_field demo_field_inj 2000 [] blank); try done; [|lia].
  split; [|split; [done|by intros ? ? []]]. apply NoDup_ListNoDup. repeat constructor; cbn; lia.
Qed.

(** The server 2100 waits; the client 2200 sends it 7; the server receives and answers 9,
    and waits again; the client returns 9. *)
Definition demo_run : list msg_op :=
  [MgCreate 2100 64; MgWait; MgCreate 2200 60; MgSend 2100 7; MgResume; MgRelease 2200 9; MgWait; MgResume].

Lemma valid_msg_step kind T o os s : valid_msg 1000 2000 4 demo_field kind T o s ->
  valid_msgs 1000 2000 4 demo_field (kinds_then demo_field o kind) (threads_then o T) os
    (default s (snd <$> run_msg 1000 4 demo_field o s)) ->
  valid_msgs 1000 2000 4 demo_field kind T (o :: os) s.
Proof. intros H1 H2. split; [done|]. intros a s' E. by rewrite E in H2. Qed.

Ltac decide_step := first [by vm_compute | apply (bool_decide_unpack _); by vm_compute].

Lemma demo_run_valid : valid_msgs 1000 2000 4 demo_field demo_kind {[2000]} demo_run demo_start.
Proof.
  apply valid_msg_step; [repeat (split; [decide_step|]); decide_step|].
  apply valid_msg_step; [split; decide_step|].
  apply valid_msg_step; [repeat (split; [decide_step|]); decide_step|].
  apply valid_msg_step; [repeat (split; [decide_step|]); decide_step|].
  apply valid_msg_step; [vm_compute; by eexists|].
  apply valid_msg_step; [split; decide_step|].
  apply valid_msg_step; [split; decide_step|].
  apply valid_msg_step; [vm_compute; by eexists|]. exact I.
Qed.

Lemma messages_answered_witness : exists a s' p',
  run_msgs 1000 4 demo_field demo_run demo_start = Some (a, s') /\
  a = [ESend 2200 2100 7; EReceive 2100 2200 7; ERelease 2200 9; EReturn 2200 9] /\
  post_run a (Post (fun _ => []) ∅) = Some p'.
Proof.
  destruct (messages_answered 1000 2000 4 demo_field demo_kind {[2000]} demo_run demo_start _
    demo_field_inj demo_start_ok demo_run_valid) as (a & s' & p' & E & Ep & _).
  exists a, s', p'. split; [exact E|split; [|exact Ep]].
  assert (Ea : fst <$> run_msgs 1000 4 demo_field demo_run demo_start =
    Some [ESend 2200 2100 7; EReceive 2100 2200 7; ERelease 2200 9; EReturn 2200 9]) by by vm_compute.
  rewrite E in Ea. cbn in Ea. injection Ea as ->. reflexivity.
Defined.
