(* ===== verification/I2c.v ===== *)
(** The I2C driver: os/hal/src/i2c.c with the low-level driver of the Kinetis family
    (os/hal/ports/KINETIS/LLD/i2c_lld.c), and its caller orchard/arduino-i2c.c.

    A thread starts a transfer and is suspended; the interrupt of the I2C module sends or
    stores one byte at a time and resumes the thread at the end, which then asks for a
    repeated start, or for the stop.  The functions of the thread are cut where it waits:
    [txrx_begin] up to the first wait, [txrx_middle] from there up to the second one or
    the end, [txrx_end] from the second one.

    The module with the bus is an interface ([I2cBus]): the registers the driver uses, the
    list [bus] of what the driver made the module do on the bus and read from it, and what
    the hardware does by itself, with the laws of the reference manual ([I2cLaws]) for a bus
    with a single master.

    A sequence of operations interleaves the sections of the calling thread, interrupts
    with any status, the device, and arbitrary changes of the rest of the kernel.  Proved:
    whatever the interleaving, no access leaves a buffer and a call that reports success has
    made exactly the dialogue of its request; a transfer without errors ends after one
    interrupt per byte; the clock divider is the best of the table.  Two theorems show
    where the code fails: a request that reads nothing into a buffer, and a second start
    during a transfer. *)
From S2P Require Import Prelude Ring Queues Sched SchedOk Kernel.
Local Open Scope Z_scope.

Definition KINETIS_SYSCLK_FREQUENCY : Z := 47972352.

Definition I2C_UNINIT : Z := 0.
Definition I2C_STOP : Z := 1.
Definition I2C_READY : Z := 2.
Definition I2C_ACTIVE_TX : Z := 3.
Definition I2C_ACTIVE_RX : Z := 4.
Definition I2C_LOCKED : Z := 5.

Definition I2C_NO_ERROR : Z := 0.
Definition I2C_ARBITRATION_LOST : Z := 0x02.
Definition I2C_ACK_FAILURE : Z := 0x04.

Definition STATE_STOP : Z := 0.
Definition STATE_SEND : Z := 1.
Definition STATE_RECV : Z := 2.
Definition STATE_DUMMY : Z := 3.

Definition I2Cx_C1_IICEN : Z := 0x80.
Definition I2Cx_C1_IICIE : Z := 0x40.
Definition I2Cx_C1_MST : Z := 0x20.
Definition I2Cx_C1_TX : Z := 0x10.
Definition I2Cx_C1_TXAK : Z := 0x08.
Definition I2Cx_C1_RSTA : Z := 0x04.
Definition I2Cx_S_BUSY : Z := 0x20.
Definition I2Cx_S_ARBL : Z := 0x10.
Definition I2Cx_S_IICIF : Z := 0x02.
Definition I2Cx_S_RXAK : Z := 0x01.

Definition flag (m v : Z) : bool := negb (Z.land v m =? 0).

(** ** The I2C module and its bus *)

(** What happens on the bus and at the data register: start, repeated start and stop
    conditions; a byte sent; a byte that the driver read; the next byte asked for, and
    whether it will be acknowledged. *)
Inductive bus_event : Type := Start | Restart | Stop | Send (b : Z) | Got (b : Z) | Ask (ack : bool).

Class I2cBus (D : Type) := {
  C1 : D -> Z;
  SR : D -> Z;
  write_C1 : Z -> D -> D;
  write_SR : Z -> D -> D;
  write_F : Z -> D -> D;
  read_D : D -> Z * D;
  write_D : Z -> D -> D;
  gate : bool -> D -> D;
  bus : D -> list bus_event;
  device : D -> D -> Prop;
  tick : D -> D;
  patience : nat
}.

(** The condition that a change of the control register makes. *)
Definition edge (c v : Z) : list bus_event :=
  if flag I2Cx_C1_MST v then
    if flag I2Cx_C1_MST c then if flag I2Cx_C1_RSTA v then [Restart] else [] else [Start]
  else if flag I2Cx_C1_MST c then [Stop] else [].

Definition unchanged `{I2cBus D} (d d' : D) : Prop := C1 d' = C1 d /\ bus d' = bus d.

(** RSTA reads as zero.  A byte written in master transmit mode is sent; a byte read in
    master receive mode makes the module receive the next one.  A start makes the bus busy,
    and a stop makes it idle, within [patience] iterations of a loop that polls it. *)
Class I2cLaws (D : Type) `{I2cBus D} : Prop := {
  C1_range : forall d, is_u8 (C1 d) /\ flag I2Cx_C1_RSTA (C1 d) = false;
  write_C1_law : forall v d, is_u8 v ->
    C1 (write_C1 v d) = Z.ldiff v I2Cx_C1_RSTA /\ bus (write_C1 v d) = bus d ++ edge (C1 d) v;
  write_D_law : forall b d, C1 (write_D b d) = C1 d /\
    bus (write_D b d) = bus d ++ if flag I2Cx_C1_MST (C1 d) && flag I2Cx_C1_TX (C1 d) then [Send b] else [];
  read_D_law : forall d, is_u8 (fst (read_D d)) /\ C1 (snd (read_D d)) = C1 d /\
    bus (snd (read_D d)) = bus d ++ Got (fst (read_D d)) ::
      if flag I2Cx_C1_MST (C1 d) && negb (flag I2Cx_C1_TX (C1 d)) then [Ask (negb (flag I2Cx_C1_TXAK (C1 d)))] else [];
  write_SR_law : forall v d, unchanged d (write_SR v d);
  write_F_law : forall v d, unchanged d (write_F v d);
  gate_law : forall b d, unchanged d (gate b d);
  device_law : forall d d', device d d' -> unchanged d d';
  tick_law : forall d, unchanged d (tick d);
  busy_law : forall d, flag I2Cx_C1_MST (C1 d) = true ->
    exists n, (n < patience)%nat /\ flag I2Cx_S_BUSY (SR (Nat.iter n tick d)) = true;
  idle_law : forall d, flag I2Cx_C1_MST (C1 d) = false ->
    exists n, (n < patience)%nat /\ flag I2Cx_S_BUSY (SR (Nat.iter n tick d)) = false
}.

(** ** The clock divider *)

Definition icr_table : list Z :=
  [20; 22; 24; 26; 28; 30; 34; 40; 28; 32; 36; 40; 44; 48; 56; 68;
   48; 56; 64; 72; 80; 88; 104; 128; 80; 96; 112; 128; 144; 160; 192; 240;
   160; 192; 224; 256; 288; 320; 384; 480; 320; 384; 448; 512; 576; 640; 768; 960;
   640; 768; 896; 1024; 1152; 1280; 1536; 1920; 1280; 1536; 1792; 2048; 2304; 2560; 3072; 3840].

(** The loop over the rest of the table, at index [i]. *)
Fixpoint icr_loop (divisor : Z) (rest : list Z) (i best index : Z) : Z :=
  match rest with
  | [] => index
  | c :: rest =>
      if divisor <=? c then
        let diff := u16 (c - divisor) in
        if diff <? best then icr_loop divisor rest (u8 (i + 1)) diff i else icr_loop divisor rest (u8 (i + 1)) best index
      else icr_loop divisor rest (u8 (i + 1)) best index
  end.

(** The division by a clock of zero has no result. *)
Definition icr_divisor (config : option Z) : option Z :=
  match config with
  | Some clock => if clock =? 0 then None else Some (u16 (KINETIS_SYSCLK_FREQUENCY / clock))
  | None => Some (u16 (KINETIS_SYSCLK_FREQUENCY / 100000))
  end.

Definition icr_index (config : option Z) : option Z :=
  match icr_divisor config with
  | None => None
  | Some divisor => Some (icr_loop divisor icr_table 0 (u16 (Z.lnot 0)) 0)
  end.

(** ** The driver *)

Section Driver.
Context (rlist : Z) (fuel : nat) (thread : Z).
Context {D : Type} `{I2cBus D}.

(** [thread] is the address of the field of that name; a buffer is its contents, [None]
    for a null pointer, and the buffers of a request do not overlap. *)
Record i2c : Type := I2c {
  i_state : Z;
  i_config : option Z;
  i_errors : Z;
  i_addr : Z;
  i_txbuf : option (list Z);
  i_txbytes : Z;
  i_txidx : Z;
  i_rxbuf : option (list Z);
  i_rxbytes : Z;
  i_rxidx : Z;
  i_intstate : Z;
  i_dev : D;
  i_kern : kernel
}.
Definition set_state v y := I2c v (i_config y) (i_errors y) (i_addr y) (i_txbuf y) (i_txbytes y) (i_txidx y)
  (i_rxbuf y) (i_rxbytes y) (i_rxidx y) (i_intstate y) (i_dev y) (i_kern y).
Definition set_config v y := I2c (i_state y) v (i_errors y) (i_addr y) (i_txbuf y) (i_txbytes y) (i_txidx y)
  (i_rxbuf y) (i_rxbytes y) (i_rxidx y) (i_intstate y) (i_dev y) (i_kern y).
Definition set_errors v y := I2c (i_state y) (i_config y) v (i_addr y) (i_txbuf y) (i_txbytes y) (i_txidx y)
  (i_rxbuf y) (i_rxbytes y) (i_rxidx y) (i_intstate y) (i_dev y) (i_kern y).
Definition set_addr v y := I2c (i_state y) (i_config y) (i_errors y) v (i_txbuf y) (i_txbytes y) (i_txidx y)
  (i_rxbuf y) (i_rxbytes y) (i_rxidx y) (i_intstate y) (i_dev y) (i_kern y).
Definition set_tx b n i y := I2c (i_state y) (i_config y) (i_errors y) (i_addr y) b n i
  (i_rxbuf y) (i_rxbytes y) (i_rxidx y) (i_intstate y) (i_dev y) (i_kern y).
Definition set_rx b n i y := I2c (i_state y) (i_config y) (i_errors y) (i_addr y) (i_txbuf y) (i_txbytes y) (i_txidx y)
  b n i (i_intstate y) (i_dev y) (i_kern y).
Definition set_intstate v y := I2c (i_state y) (i_config y) (i_errors y) (i_addr y) (i_txbuf y) (i_txbytes y) (i_txidx y)
  (i_rxbuf y) (i_rxbytes y) (i_rxidx y) v (i_dev y) (i_kern y).
Definition set_dev v y := I2c (i_state y) (i_config y) (i_errors y) (i_addr y) (i_txbuf y) (i_txbytes y) (i_txidx y)
  (i_rxbuf y) (i_rxbytes y) (i_rxidx y) (i_intstate y) v (i_kern y).
Definition set_kern v y := I2c (i_state y) (i_config y) (i_errors y) (i_addr y) (i_txbuf y) (i_txbytes y) (i_txidx y)
  (i_rxbuf y) (i_rxbytes y) (i_rxidx y) (i_intstate y) (i_dev y) v.

(** [i2cp->i2c->C1 |= m] and [&= ~m]. *)
Definition C1_or (m : Z) (y : i2c) : i2c := set_dev (write_C1 (Z.lor (C1 (i_dev y)) m) (i_dev y)) y.
Definition C1_clear (m : Z) (y : i2c) : i2c := set_dev (write_C1 (Z.ldiff (C1 (i_dev y)) m) (i_dev y)) y.
Definition SR_or (m : Z) (y : i2c) : i2c := set_dev (write_SR (Z.lor (SR (i_dev y)) m) (i_dev y)) y.
Definition D_write (b : Z) (y : i2c) : i2c := set_dev (write_D b (i_dev y)) y.
Definition add_error (e : Z) (y : i2c) : i2c := set_errors (Z.lor (i_errors y) e) y.

Definition config_frequency (y : i2c) : option i2c :=
  match icr_index (i_config y) with None => None | Some index => Some (set_dev (write_F index (i_dev y)) y) end.

(** The branches of the interrupt handler. *)
Definition serve_send (y : i2c) : option i2c :=
  if flag I2Cx_S_RXAK (SR (i_dev y)) then Some (add_error I2C_ACK_FAILURE y)
  else
    match i_txbuf y with
    | Some b =>
        if i_txidx y <? i_txbytes y then
          match load b (i_txidx y) with
          | None => None
          | Some v => Some (set_tx (i_txbuf y) (i_txbytes y) (u32 (i_txidx y + 1)) (D_write v y))
          end
        else Some (set_intstate STATE_STOP y)
    | None => Some (set_intstate STATE_STOP y)
    end.

Definition serve_dummy (y : i2c) : option i2c :=
  if flag I2Cx_S_RXAK (SR (i_dev y)) then Some (add_error I2C_ACK_FAILURE y)
  else
    let y := C1_clear I2Cx_C1_TX y in
    let y := if 1 <? i_rxbytes y then C1_clear I2Cx_C1_TXAK y else C1_or I2Cx_C1_TXAK y in
    let y := set_dev (snd (read_D (i_dev y))) y in
    Some (set_intstate STATE_RECV y).

Definition serve_recv (y : i2c) : option i2c :=
  let y := if 1 <? i_rxbytes y then
             if i_rxidx y =? u32 (i_rxbytes y - 2) then C1_or I2Cx_C1_TXAK y else C1_clear I2Cx_C1_TXAK y
           else y in
  let y := if i_rxidx y =? u32 (i_rxbytes y - 1) then C1_clear (Z.lor I2Cx_C1_TX I2Cx_C1_MST) y else y in
  let '(b, d) := read_D (i_dev y) in
  match i_rxbuf y with
  | None => None
  | Some buf =>
      match store buf (i_rxidx y) b with
      | None => None
      | Some buf =>
          let y := set_rx (Some buf) (i_rxbytes y) (u32 (i_rxidx y + 1)) (set_dev d y) in
          Some (if i_rxidx y =? i_rxbytes y then set_intstate STATE_STOP y else y)
      end
  end.

Definition serve_state (y : i2c) : option i2c :=
  let state := i_intstate y in
  if flag I2Cx_S_ARBL (SR (i_dev y)) then Some (SR_or I2Cx_S_ARBL (add_error I2C_ARBITRATION_LOST y))
  else if state =? STATE_SEND then serve_send y
  else if state =? STATE_DUMMY then serve_dummy y
  else if state =? STATE_RECV then serve_recv y
  else Some y.

Definition resumeI (msg : Z) (y : i2c) : option i2c :=
  match chThdResumeI rlist fuel thread msg (i_kern y) with None => None | Some k => Some (set_kern k y) end.
Definition _i2c_wakeup_isr := resumeI MSG_OK.
Definition _i2c_wakeup_error_isr := resumeI MSG_RESET.

Definition serve_interrupt (y : i2c) : option i2c :=
  match serve_state y with
  | None => None
  | Some y =>
      let y := SR_or I2Cx_S_IICIF y in
      match (if negb (i_errors y =? I2C_NO_ERROR) then _i2c_wakeup_error_isr y else Some y) with
      | None => None
      | Some y => if i_intstate y =? STATE_STOP then _i2c_wakeup_isr y else Some y
      end
  end.

(** The interrupt of I2C1; a sketch may have installed functions of its own. *)
Definition Vector64 (i2cFastISR : option (i2c -> option (Z * i2c))) (i2cISR : option (i2c -> option i2c))
    (y : i2c) : option i2c :=
  match match i2cFastISR with None => Some (1, y) | Some f => f y end with
  | None => None
  | Some (more, y) =>
      if more =? 0 then Some y
      else
        match match i2cISR with Some f => f y | None => serve_interrupt y end with
        | None => None
        | Some y => match irq_epilogue rlist fuel (i_kern y) with None => None | Some k => Some (set_kern k y) end
        end
  end.

(** [while (!(i2cp->i2c->S & I2Cx_S_BUSY));] and its opposite. *)
Fixpoint wait_bus (busy : bool) (n : nat) (d : D) : option D :=
  match n with
  | O => None
  | S n => if Bool.eqb (flag I2Cx_S_BUSY (SR d)) busy then Some d else wait_bus busy n (tick d)
  end.

Definition i2cObjectInit (y : i2c) : i2c := set_config None (set_state I2C_STOP y).
Definition i2c_lld_init (y : i2c) : i2c :=
  let y := i2cObjectInit y in set_kern (set_tref thread NULL (i_kern y)) y.

Definition i2c_lld_start (y : i2c) : option i2c :=
  let y := if i_state y =? I2C_STOP then set_dev (gate true (i_dev y)) y else y in
  match config_frequency y with
  | None => None
  | Some y => Some (set_intstate STATE_STOP (C1_or (Z.lor I2Cx_C1_IICEN I2Cx_C1_IICIE) y))
  end.
Definition i2c_lld_stop (y : i2c) : i2c :=
  if negb (i_state y =? I2C_STOP) then
    let y := C1_clear (Z.lor I2Cx_C1_IICEN I2Cx_C1_IICIE) y in set_dev (gate false (i_dev y)) y
  else y.

Definition i2cStart (config : option Z) (y : i2c) : option i2c :=
  match i2c_lld_start (set_config config y) with None => None | Some y => Some (set_state I2C_READY y) end.
Definition i2cStop (y : i2c) : i2c := set_state I2C_STOP (i2c_lld_stop y).
Definition i2cGetErrors (y : i2c) : Z := i_errors y.

Definition suspend (y : i2c) : i2c := set_kern (snd (chThdSuspendTimeoutS rlist thread TIME_INFINITE (i_kern y))) y.

Definition txrx_begin (addr : Z) (txbuf : option (list Z)) (txbytes : Z) (rxbuf : option (list Z)) (rxbytes : Z)
    (y : i2c) : option i2c :=
  let op := if i_intstate y =? STATE_SEND then 0 else 1 in
  let y := set_addr addr (set_errors I2C_NO_ERROR y) in
  let y := set_rx rxbuf rxbytes 0 (set_tx txbuf txbytes 0 y) in
  let y := C1_or I2Cx_C1_TX (C1_or I2Cx_C1_MST y) in
  match wait_bus true patience (i_dev y) with
  | None => None
  | Some d => Some (suspend (D_write (u8 (Z.lor (Z.shiftl addr 1) op)) (set_dev d y)))
  end.

(** From the last wait to the end; the caller gets the message. *)
Definition txrx_end (msg : Z) (y : i2c) : option (option Z * i2c) :=
  let y := C1_clear (Z.lor I2Cx_C1_TX I2Cx_C1_MST) y in
  match wait_bus false patience (i_dev y) with None => None | Some d => Some (Some msg, set_dev d y) end.

(** From the first wait; [tx] and [rx] say which buffers are not null. *)
Definition txrx_middle (tx rx : bool) (msg : Z) (y : i2c) : option (option Z * i2c) :=
  if (msg =? MSG_OK) && tx && rx then
    let y := C1_or I2Cx_C1_RSTA y in
    match wait_bus true patience (i_dev y) with
    | None => None
    | Some d =>
        let y := set_intstate STATE_DUMMY (set_dev d y) in
        Some (None, suspend (D_write (u8 (Z.lor (Z.shiftl (i_addr y) 1) 1)) y))
    end
  else txrx_end msg y.

Definition i2c_lld_master_transmit_begin (addr : Z) (txbuf : option (list Z)) (txbytes : Z) (rxbuf : option (list Z))
    (rxbytes : Z) (y : i2c) : option i2c :=
  txrx_begin addr txbuf txbytes rxbuf rxbytes (set_intstate STATE_SEND y).
Definition i2c_lld_master_receive_begin (addr : Z) (rxbuf : option (list Z)) (rxbytes : Z) (y : i2c) : option i2c :=
  txrx_begin addr None 0 rxbuf rxbytes (set_intstate STATE_DUMMY y).

Definition i2cMasterTransmit_begin (addr : Z) (txbuf : option (list Z)) (txbytes : Z) (rxbuf : option (list Z))
    (rxbytes : Z) (y : i2c) : option i2c :=
  i2c_lld_master_transmit_begin addr txbuf txbytes rxbuf rxbytes (set_state I2C_ACTIVE_TX (set_errors I2C_NO_ERROR y)).
Definition i2cMasterReceive_begin (addr : Z) (rxbuf : option (list Z)) (rxbytes : Z) (y : i2c) : option i2c :=
  i2c_lld_master_receive_begin addr rxbuf rxbytes (set_state I2C_ACTIVE_RX (set_errors I2C_NO_ERROR y)).
Definition i2cMaster_end (rdymsg : Z) (y : i2c) : i2c :=
  set_state (if rdymsg =? MSG_TIMEOUT then I2C_LOCKED else I2C_READY) y.

(** i2cTransceive of arduino-i2c.c, before it takes the mutex of the bus. *)
Definition i2cTransceive_start (i2c_started : Z) (y : i2c) : option (Z * i2c) :=
  if i2c_started =? 0 then match i2cStart (Some 100000) y with None => None | Some y => Some (1, y) end
  else Some (i2c_started, y).
End Driver.
#[global] Arguments i2c : clear implicits.

(** ** Bits of the control register *)

Lemma flag_bit v i : 0 <= i -> flag (2 ^ i) v = Z.testbit v i.
Proof.
  intros Hi. unfold flag. destruct (Z.eqb_spec (Z.land v (2 ^ i)) 0) as [E|E]; cbn [negb].
  - assert (H : Z.testbit (Z.land v (2 ^ i)) i = false) by (by rewrite E, Z.bits_0).
    rewrite Z.land_spec, Z.pow2_bits_true in H by done. by rewrite andb_true_r in H.
  - destruct (Z.testbit v i) eqn:Eb; [done|]. destruct E. apply Z.bits_inj'. intros j Hj.
    rewrite Z.land_spec, Z.bits_0. destruct (decide (i = j)) as [<-|Hne]; [by rewrite Eb|].
    rewrite (Z.pow2_bits_false i j) by done. apply andb_false_r.
Qed.

Definition MST v := Z.testbit v 5.
Definition TX v := Z.testbit v 4.
Definition TXAK v := Z.testbit v 3.
Definition RSTA v := Z.testbit v 2.

Lemma flag_MST v : flag I2Cx_C1_MST v = MST v.
Proof. by apply (flag_bit v 5). Qed.
Lemma flag_TX v : flag I2Cx_C1_TX v = TX v.
Proof. by apply (flag_bit v 4). Qed.
Lemma flag_TXAK v : flag I2Cx_C1_TXAK v = TXAK v.
Proof. by apply (flag_bit v 3). Qed.
Lemma flag_RSTA v : flag I2Cx_C1_RSTA v = RSTA v.
Proof. by apply (flag_bit v 2). Qed.

Lemma ldiff_u8 v m : is_u8 v -> is_u8 (Z.ldiff v m).
Proof.
  intros Hv. apply (range_by_bits 8); [done|apply Z.ldiff_nonneg; lia|]. intros i Hi.
  by rewrite Z.ldiff_spec, (testbit_high 8 v) by lia.
Qed.

(** The bits of a register after a mask was set or cleared. *)
Ltac c1_bits := unfold MST, TX, TXAK, RSTA; rewrite ?Z.ldiff_spec, ?Z.lor_spec, ?Z.ldiff_spec;
  repeat match goal with |- context [Z.testbit (Zpos ?p) ?i] =>
    let b := eval vm_compute in (Z.testbit (Zpos p) i) in change (Z.testbit (Zpos p) i) with b end;
  cbn [negb]; rewrite ?andb_true_r, ?andb_false_r, ?orb_false_r, ?orb_true_r.

Section Device.
Context {D : Type} `{I2cLaws D}.

(** The mode of the module: master, transmitting, not acknowledging. *)
Definition mode (d : D) : bool * bool * bool := (MST (C1 d), TX (C1 d), TXAK (C1 d)).

Definition edges (m rsta m' : bool) : list bus_event :=
  if m' then if m then if rsta then [Restart] else [] else [Start] else if m then [Stop] else [].

Lemma edge_bits c v : edge c v = edges (MST c) (RSTA v) (MST v).
Proof. unfold edge. by rewrite !flag_MST, flag_RSTA. Qed.

(** [d'] is [d] after a change of its control register to [v]. *)
Lemma write_C1_spec v d : is_u8 v ->
  mode (write_C1 v d) = (MST v, TX v, TXAK v) /\ bus (write_C1 v d) = bus d ++ edges (MST (C1 d)) (RSTA v) (MST v).
Proof.
  intros Hv. destruct (write_C1_law v d Hv) as [E1 E2]. rewrite E2, edge_bits. split; [|done].
  unfold mode. rewrite E1. unfold I2Cx_C1_RSTA. c1_bits. done.
Qed.

Definition acks (m : bool * bool * bool) : list bus_event :=
  let '(ms, tx, ak) := m in if ms && negb tx then [Ask (negb ak)] else [].
Definition sends (m : bool * bool * bool) (b : Z) : list bus_event :=
  let '(ms, tx, _) := m in if ms && tx then [Send b] else [].

Lemma write_D_spec b d : mode (write_D b d) = mode d /\ bus (write_D b d) = bus d ++ sends (mode d) b.
Proof.
  destruct (write_D_law b d) as [E1 E2]. unfold mode, sends. by rewrite E1, E2, flag_MST, flag_TX.
Qed.

Lemma read_D_spec d : is_u8 (fst (read_D d)) /\ mode (snd (read_D d)) = mode d /\
  bus (snd (read_D d)) = bus d ++ Got (fst (read_D d)) :: acks (mode d).
Proof.
  destruct (read_D_law d) as (Hb & E1 & E2). unfold mode, acks. by rewrite E1, E2, flag_MST, flag_TX, flag_TXAK.
Qed.

Lemma unchanged_mode d d' : unchanged d d' -> mode d' = mode d /\ bus d' = bus d.
Proof. intros [E1 E2]. unfold mode. by rewrite E1. Qed.

Lemma iter_tick n d : unchanged d (Nat.iter n tick d).
Proof. induction n as [|n [IH1 IH2]]; [done|]. rewrite Nat.iter_succ. destruct (tick_law (Nat.iter n tick d)) as [E1 E2]. split; congruence. Qed.

Lemma wait_bus_iter busy n : forall N d, (n < N)%nat -> flag I2Cx_S_BUSY (SR (Nat.iter n tick d)) = busy ->
  exists d', wait_bus busy N d = Some d' /\ unchanged d d'.
Proof.
  induction n as [|n IH]; intros [|N] d Hn E; try lia; cbn [wait_bus].
  - cbn in E. rewrite E, Bool.eqb_reflx. by exists d.
  - destruct (Bool.eqb _ _); [by exists d|]. destruct (tick_law d) as [T1 T2].
    destruct (IH N (tick d)) as (d' & -> & U1 & U2); [lia|by rewrite <- Nat.iter_succ_r|].
    exists d'. split; [done|]. split; congruence.
Qed.

(** The loops that poll the bus end. *)
Lemma wait_bus_ok busy d : MST (C1 d) = busy -> exists d', wait_bus busy patience d = Some d' /\ unchanged d d'.
Proof.
  intros E. destruct busy.
  - destruct (busy_law d) as (n & Hn & E'); [by rewrite flag_MST|]. by apply (wait_bus_iter true n).
  - destruct (idle_law d) as (n & Hn & E'); [by rewrite flag_MST|]. by apply (wait_bus_iter false n).
Qed.
End Device.

(** ** The divider chosen *)

(** The best of the dividers seen so far: the first of the least of those that are at
    least [divisor]; [d] is a divider of the table at index [i]. *)
Definition best_index (divisor : Z) (l : list Z) (i : nat) : Prop :=
  exists c, l !! i = Some c /\ divisor <= c /\
    forall j c', l !! j = Some c' -> divisor <= c' -> c < c' \/ c = c' /\ (i <= j)%nat.

Definition scanned (divisor : Z) (seen : list Z) (best index : Z) : Prop :=
  (best = 65535 /\ index = 0 /\ forall c, In c seen -> c < divisor) \/
  (best < 65535 /\ 0 <= index /\ best_index divisor seen (Z.to_nat index) /\ seen !! Z.to_nat index = Some (divisor + best)).

Lemma icr_loop_spec divisor : 0 <= divisor -> forall rest seen best index,
  Forall (fun c => c < 65535) (seen ++ rest) -> len (seen ++ rest) <= 255 -> scanned divisor seen best index ->
  exists best', scanned divisor (seen ++ rest) best' (icr_loop divisor rest (len seen) best index).
Proof.
  intros Hd. induction rest as [|c rest IH]; intros seen best index Hr Hl Hs; cbn [icr_loop].
  - exists best. by rewrite app_nil_r.
  - assert (Hc : c < 65535) by (apply list.Forall_app in Hr as [_ Hr]; by apply list.Forall_cons in Hr as [? _]).
    assert (El : u8 (len seen + 1) = len (seen ++ [c])).
    { unfold len in *. rewrite length_app in *. cbn [length] in *. rewrite u8_id by lia. lia. }
    assert (Ec : seen ++ c :: rest = (seen ++ [c]) ++ rest) by by rewrite <- app_assoc.
    rewrite El, Ec in *. clear El Ec.
    assert (Hskip : scanned divisor (seen ++ [c]) best index \/ divisor <= c /\ c - divisor < best).
    { destruct (Z.le_gt_cases divisor c) as [Hle|Hgt]; [destruct (Z.lt_ge_cases (c - divisor) best) as [Hlt|Hge]; [by right|]|].
      - left. destruct Hs as [(-> & _)|(H1 & H2 & (c0 & B1 & B2 & B3) & E)]; [lia|]. right.
        assert (E0 : c0 = divisor + best) by congruence. split; [done|split; [done|]].
        split; [|by apply lookup_app_l_Some]. exists c0. split; [by apply lookup_app_l_Some|split; [done|]].
        intros j c' [Ej|[Hj Ej]]%lookup_app_Some Hc'; [by apply (B3 j)|].
        apply list_lookup_singleton_Some in Ej as [Ej ->]. apply lookup_lt_Some in B1. lia.
      - left. destruct Hs as [(-> & -> & Ha)|(H1 & H2 & (c0 & B1 & B2 & B3) & E)].
        + left. split; [done|split; [done|]]. intros x [Hx|[->|[]]]%in_app_iff; [by apply Ha|lia].
        + right. split; [done|split; [done|split; [|by apply lookup_app_l_Some]]].
          exists c0. split; [by apply lookup_app_l_Some|split; [done|]].
          intros j c' [Ej|[Hj Ej]]%lookup_app_Some Hc'; [by apply (B3 j)|].
          apply list_lookup_singleton_Some in Ej as [_ ->]. lia. }
    destruct (Z.leb_spec divisor c) as [Hle|Hgt].
    + rewrite u16_id by lia. destruct (Z.ltb_spec (c - divisor) best) as [Hlt|Hge].
      * apply IH; [done|done|]. right. unfold len. rewrite Nat2Z.id. split; [lia|split; [lia|]].
        rewrite list_lookup_middle by done. split; [|f_equal; lia].
        exists c. split; [by apply list_lookup_middle|split; [done|]].
        intros j c' [Ej|[Hj Ej]]%lookup_app_Some Hc'.
        -- left. destruct Hs as [(_ & _ & Ha)|(_ & _ & (c0 & B1 & B2 & B3) & E)].
           ++ apply list_elem_of_lookup_2, list_elem_of_In, Ha in Ej. lia.
           ++ assert (E0 : c0 = divisor + best) by congruence. destruct (B3 j c' Ej Hc'); lia.
        -- right. apply list_lookup_singleton_Some in Ej as [_ ->]. by split.
      * apply IH; [done|done|]. destruct Hskip as [?|[_ ?]]; [done|lia].
    + apply IH; [done|done|]. destruct Hskip as [?|[? _]]; [done|lia].
Qed.

Lemma icr_table_range : Forall (fun c => 20 <= c <= 3840) icr_table.
Proof.
  assert (E : forallb (fun c => (20 <=? c) && (c <=? 3840)) icr_table = true) by by vm_compute.
  rewrite forallb_forall in E. apply list.Forall_forall. intros c Hc%list_elem_of_In%E. lia.
Qed.

(** The clock divider.  For every clock from 733 Hz, the driver writes the index of the
    smallest divider of the table that is at least KINETIS_SYSCLK_FREQUENCY / clock, the
    first one of them; when there is none, it writes 0, which is the smallest divider, 20. *)
Theorem divider_chosen clock : 733 <= clock -> exists index, icr_index (Some clock) = Some index /\
  (if KINETIS_SYSCLK_FREQUENCY / clock <=? 3840
   then 0 <= index < 64 /\ best_index (KINETIS_SYSCLK_FREQUENCY / clock) icr_table (Z.to_nat index)
   else index = 0).
Proof.
  intros Hc. assert (Hq : 0 <= KINETIS_SYSCLK_FREQUENCY / clock < 65536).
  { split; [apply Z.div_pos; [done|lia]|apply Z.div_lt_upper_bound; unfold KINETIS_SYSCLK_FREQUENCY; lia]. }
  unfold icr_index, icr_divisor. replace (clock =? 0) with false by lia.
  set (q := KINETIS_SYSCLK_FREQUENCY / clock) in *. rewrite u16_id by done. eexists. split; [done|].
  pose proof icr_table_range as Hr. rewrite list.Forall_forall in Hr.
  destruct (icr_loop_spec q (proj1 Hq) icr_table [] 65535 0) as (best & [(_ & Ei & Ha)|(_ & H1 & H2 & H3)]).
  - apply list.Forall_forall. intros c Hin. specialize (Hr c Hin). lia.
  - done.
  - left. split; [done|split; [done|by intros c []]].
  - change (u16 (Z.lnot 0)) with 65535. change (len []) with 0 in Ei. rewrite Ei.
    destruct (Z.leb_spec q 3840); [|done]. specialize (Ha 3840). cbn in Ha. lia.
  - change (u16 (Z.lnot 0)) with 65535. change (len []) with 0 in H1, H2, H3.
    set (index := icr_loop q icr_table 0 65535 0) in *. destruct H2 as (c & B1 & B2 & B3).
    pose proof (Hr c (list_elem_of_lookup_2 _ _ _ B1)) as Hcr. destruct (Z.leb_spec q 3840); [|lia].
    apply lookup_lt_Some in B1 as Hl. change (length ([] ++ icr_table)) with 64%nat in Hl.
    split; [lia|by exists c].
Qed.

Lemma divider_chosen_witness : icr_index (Some 100000) = Some 39 /\ best_index 479 icr_table 39.
Proof.
  destruct (divider_chosen 100000 ltac:(lia)) as (index & E & H).
  assert (Ei : icr_index (Some 100000) = Some 39) by by vm_compute. rewrite Ei in E. injection E as <-.
  split; [exact Ei|]. exact (proj2 H).
Defined.

(** The truncated division may make the clock faster than asked for, and a clock that is
    too slow for the table makes the fastest one. *)
Lemma divider_too_fast : icr_index (Some 99900) = Some 39 /\ icr_table !! 39%nat = Some 480 /\
  480 * 99900 < KINETIS_SYSCLK_FREQUENCY /\ icr_index (Some 10000) = Some 0 /\ icr_table !! 0%nat = Some 20.
Proof. by vm_compute. Qed.

(** ** The dialogue of a request *)

(** A request, with the buffers: what to transmit and where to receive. *)
Inductive request : Type := QTransmit (addr : Z) (tx : list Z) (rx : option (list Z)) | QReceive (addr : Z) (rx : list Z).

Definition q_addr (q : request) : Z := match q with QTransmit a _ _ | QReceive a _ => a end.
Definition q_tx (q : request) : option (list Z) := match q with QTransmit _ tx _ => Some tx | QReceive _ _ => None end.
Definition q_rx (q : request) : option (list Z) := match q with QTransmit _ _ rx => rx | QReceive _ rx => Some rx end.
Definition txl (q : request) : list Z := default [] (q_tx q).
Definition rxl (q : request) : list Z := default [] (q_rx q).
Definition bytes_of (b : option (list Z)) : Z := len (default [] b).

(** The buffer to receive has a place. *)
Definition request_ok (q : request) : Prop :=
  len (txl q) < 2 ^ 32 /\ len (rxl q) < 2 ^ 32 /\ match q_rx q with Some rx => rx <> [] | None => True end.

Definition address (a op : Z) : Z := u8 (Z.lor (Z.shiftl a 1) op).

(** The bytes [bs] received out of [n], from the [k]-th: after each of them the next one
    is asked for, which is acknowledged unless it is the last; before the last one is taken
    the transfer is stopped. *)
Fixpoint reading (n k : Z) (bs : list Z) : list bus_event :=
  match bs with
  | [] => []
  | b :: bs => (if k =? n - 1 then [Stop; Got b] else [Got b; Ask (k + 2 <? n)]) ++ reading n (k + 1) bs
  end.

(** The first byte is asked for by a read whose value means nothing. *)
Definition asked (n junk : Z) (bs : list Z) : list bus_event := Got junk :: Ask (1 <? n) :: reading n 0 bs.

Definition sending (q : request) (i : nat) : list bus_event :=
  Start :: Send (address (q_addr q) 0) :: map Send (take i (txl q)).
Definition read_head (q : request) : list bus_event :=
  match q with
  | QTransmit _ tx _ => sending q (length tx) ++ [Restart; Send (address (q_addr q) 1)]
  | QReceive _ _ => [Start; Send (address (q_addr q) 1)]
  end.

(** The dialogue of a request that succeeds, in which the bytes [bs] are received. *)
Definition dialogue (q : request) (junk : Z) (bs : list Z) : list bus_event :=
  match q_rx q with
  | Some rx => read_head q ++ asked (len rx) junk bs
  | None => sending q (length (txl q)) ++ [Stop]
  end.

Lemma reading_snoc n b : forall bs k, reading n k (bs ++ [b]) =
  reading n k bs ++ if k + len bs =? n - 1 then [Stop; Got b] else [Got b; Ask (k + len bs + 2 <? n)].
Proof.
  induction bs as [|c bs IH]; intros k; cbn [reading app].
  - change (len []) with 0. by rewrite Z.add_0_r, app_nil_r.
  - rewrite IH, <- app_assoc. replace (k + 1 + len bs) with (k + len (c :: bs)) by (unfold len; cbn [length]; lia). done.
Qed.

Inductive stage : Type :=
  | Sending (i : nat) | Sent | Addressed | Reading (junk : Z) (bs : list Z) | Complete (junk : Z) (bs : list Z).

(** Interrupts without errors up to the next wake-up. *)
Definition todo (q : request) (st : stage) : nat :=
  match st with
  | Sending i => S (length (txl q) - i)
  | Addressed => S (length (rxl q))
  | Reading _ bs => length (rxl q) - length bs
  | Sent | Complete _ _ => O
  end.

Definition stage_log (q : request) (st : stage) : list bus_event :=
  match st with
  | Sending i => sending q i
  | Sent => sending q (length (txl q))
  | Addressed => read_head q
  | Reading junk bs | Complete junk bs => read_head q ++ asked (len (rxl q)) junk bs
  end.

Definition stage_state (st : stage) : Z :=
  match st with Sending _ => STATE_SEND | Sent | Complete _ _ => STATE_STOP | Addressed => STATE_DUMMY | Reading _ _ => STATE_RECV end.

Definition writing (st : stage) : bool := match st with Sending _ | Sent => true | _ => false end.

Definition stage_received (st : stage) : list Z := match st with Reading _ bs | Complete _ bs => bs | _ => [] end.

(** A stage is possible for a request. *)
Definition stage_fits (q : request) (st : stage) : Prop :=
  match st with
  | Sending i => is_Some (q_tx q) /\ (i <= length (txl q))%nat
  | Sent => is_Some (q_tx q)
  | Addressed => is_Some (q_rx q)
  | Reading _ bs => is_Some (q_rx q) /\ (length bs < length (rxl q))%nat
  | Complete _ bs => is_Some (q_rx q) /\ length bs = length (rxl q)
  end.

(** Master and transmitting. *)
Definition stage_mode (st : stage) (ak : bool) : bool * bool * bool :=
  match st with
  | Sending _ | Sent | Addressed => (true, true, ak)
  | Reading _ _ => (true, false, ak)
  | Complete _ _ => (false, false, ak)
  end.

Section Stages.
Context {D : Type} `{I2cLaws D} (q : request) (L0 : list bus_event).

(** The driver and the module at a stage of a request that started when the bus was at [L0]. *)
Record at_stage (st : stage) (y : i2c D) : Prop := {
  as_fits : stage_fits q st;
  as_bus : bus (i_dev y) = L0 ++ stage_log q st;
  as_mode : exists ak, mode (i_dev y) = stage_mode st ak;
  as_int : i_intstate y = stage_state st;
  as_addr : i_addr y = q_addr q;
  as_tx : i_txbuf y = q_tx q;
  as_txn : i_txbytes y = len (txl q);
  as_txi : match st with Sending i => i_txidx y = Z.of_nat i | _ => True end;
  as_rx : i_rxbuf y = match q_rx q with
                      | Some rx => Some (stage_received st ++ drop (length (stage_received st)) rx)
                      | None => None
                      end;
  as_rxn : i_rxbytes y = len (rxl q);
  as_rxi : i_rxidx y = len (stage_received st)
}.

(** The other fields do not matter. *)
Lemma at_stage_same st (y y' : i2c D) : at_stage st y -> mode (i_dev y') = mode (i_dev y) ->
  bus (i_dev y') = bus (i_dev y) -> i_intstate y' = i_intstate y -> i_addr y' = i_addr y -> i_txbuf y' = i_txbuf y ->
  i_txbytes y' = i_txbytes y -> i_txidx y' = i_txidx y -> i_rxbuf y' = i_rxbuf y -> i_rxbytes y' = i_rxbytes y ->
  i_rxidx y' = i_rxidx y -> at_stage st y'.
Proof.
  intros [] E1 E2 E3 E4 E5 E6 E7 E8 E9 E10. constructor; try congruence.
  - destruct as_mode0 as [ak E]. exists ak. congruence.
  - destruct st; congruence.
Qed.

Lemma at_stage_dev st (y : i2c D) d : at_stage st y -> unchanged (i_dev y) d -> at_stage st (set_dev d y).
Proof. intros Hy [E1 E2]%unchanged_mode. by apply (at_stage_same st y). Qed.

(** *** Changes of the control register *)

Lemma C1_or_spec m (y : i2c D) : is_u8 m -> let v := Z.lor (C1 (i_dev y)) m in
  mode (i_dev (C1_or m y)) = (MST v, TX v, TXAK v) /\
  bus (i_dev (C1_or m y)) = bus (i_dev y) ++ edges (MST (C1 (i_dev y))) (RSTA v) (MST v).
Proof. intros Hm v. apply write_C1_spec. apply lor_u8; [apply C1_range|done]. Qed.

Lemma C1_clear_spec m (y : i2c D) : let v := Z.ldiff (C1 (i_dev y)) m in
  mode (i_dev (C1_clear m y)) = (MST v, TX v, TXAK v) /\
  bus (i_dev (C1_clear m y)) = bus (i_dev y) ++ edges (MST (C1 (i_dev y))) (RSTA v) (MST v).
Proof. intros v. apply write_C1_spec. apply ldiff_u8, C1_range. Qed.

Lemma RSTA_zero (d : D) : Z.testbit (C1 d) 2 = false.
Proof. destruct (C1_range d) as [_ E]. by rewrite flag_RSTA in E. Qed.

Lemma edges_same m : edges m false m = [].
Proof. by destruct m. Qed.

Section Modes.
Context (y : i2c D) (ms tx ak : bool) (Hm : mode (i_dev y) = (ms, tx, ak)).

Lemma mode_bit5 : Z.testbit (C1 (i_dev y)) 5 = ms.
Proof using Hm. by injection Hm. Qed.
Lemma mode_bit4 : Z.testbit (C1 (i_dev y)) 4 = tx.
Proof using Hm. by injection Hm. Qed.
Lemma mode_bit3 : Z.testbit (C1 (i_dev y)) 3 = ak.
Proof using Hm. by injection Hm. Qed.

Ltac by_bits spec := destruct spec as [-> ->]; c1_bits; rewrite ?mode_bit5, ?mode_bit4, ?mode_bit3, ?RSTA_zero, ?edges_same, ?app_nil_r;
  cbn [edges]; rewrite ?app_nil_r; done.

Lemma set_MST : mode (i_dev (C1_or I2Cx_C1_MST y)) = (true, tx, ak) /\
  bus (i_dev (C1_or I2Cx_C1_MST y)) = bus (i_dev y) ++ edges ms false true.
Proof. by_bits (C1_or_spec I2Cx_C1_MST y ltac:(done)). Qed.

Lemma set_TX : mode (i_dev (C1_or I2Cx_C1_TX y)) = (ms, true, ak) /\ bus (i_dev (C1_or I2Cx_C1_TX y)) = bus (i_dev y).
Proof. by_bits (C1_or_spec I2Cx_C1_TX y ltac:(done)). Qed.

Lemma set_TXAK : mode (i_dev (C1_or I2Cx_C1_TXAK y)) = (ms, tx, true) /\ bus (i_dev (C1_or I2Cx_C1_TXAK y)) = bus (i_dev y).
Proof. by_bits (C1_or_spec I2Cx_C1_TXAK y ltac:(done)). Qed.

Lemma clear_TXAK : mode (i_dev (C1_clear I2Cx_C1_TXAK y)) = (ms, tx, false) /\ bus (i_dev (C1_clear I2Cx_C1_TXAK y)) = bus (i_dev y).
Proof. by_bits (C1_clear_spec I2Cx_C1_TXAK y). Qed.

Lemma clear_TX : mode (i_dev (C1_clear I2Cx_C1_TX y)) = (ms, false, ak) /\ bus (i_dev (C1_clear I2Cx_C1_TX y)) = bus (i_dev y).
Proof. by_bits (C1_clear_spec I2Cx_C1_TX y). Qed.

Lemma set_RSTA : mode (i_dev (C1_or I2Cx_C1_RSTA y)) = (ms, tx, ak) /\
  bus (i_dev (C1_or I2Cx_C1_RSTA y)) = bus (i_dev y) ++ edges ms true ms.
Proof. by_bits (C1_or_spec I2Cx_C1_RSTA y ltac:(done)). Qed.

Lemma clear_master : mode (i_dev (C1_clear (Z.lor I2Cx_C1_TX I2Cx_C1_MST) y)) = (false, false, ak) /\
  bus (i_dev (C1_clear (Z.lor I2Cx_C1_TX I2Cx_C1_MST) y)) = bus (i_dev y) ++ edges ms false false.
Proof. by_bits (C1_clear_spec (Z.lor I2Cx_C1_TX I2Cx_C1_MST) y). Qed.

Lemma enable : mode (i_dev (C1_or (Z.lor I2Cx_C1_IICEN I2Cx_C1_IICIE) y)) = (ms, tx, ak) /\
  bus (i_dev (C1_or (Z.lor I2Cx_C1_IICEN I2Cx_C1_IICIE) y)) = bus (i_dev y).
Proof. by_bits (C1_or_spec (Z.lor I2Cx_C1_IICEN I2Cx_C1_IICIE) y ltac:(done)). Qed.
End Modes.
End Stages.

(** ** The interrupt at every stage *)

Section Interrupt.
Context {D : Type} `{I2cLaws D} (q : request) (Hq : request_ok q) (L0 : list bus_event).
Notation at_stage := (at_stage q L0).

(** What the interrupt leaves alone. *)
Definition same_call (y y' : i2c D) : Prop := i_kern y' = i_kern y /\ i_state y' = i_state y /\ i_config y' = i_config y.

(** One step of the transfer, without an error. *)
Definition advances (st : stage) (y : i2c D) (r : option (i2c D)) : Prop :=
  exists st' y', r = Some y' /\ at_stage st' y' /\ same_call y y' /\ i_errors y' = i_errors y /\
    todo q st' = pred (todo q st) /\ writing st' = writing st.

Lemma take_snoc (l : list Z) i b : l !! i = Some b -> take (S i) l = take i l ++ [b].
Proof. intros E. by apply take_S_r. Qed.

Lemma serve_send_ok i y : at_stage (Sending i) y -> flag I2Cx_S_RXAK (SR (i_dev y)) = false ->
  advances (Sending i) y (serve_send y).
Proof.
  intros Hy E. unfold serve_send. pose proof (as_fits _ _ _ _ Hy) as [[tx Htx] Hi].
  assert (Htl : txl q = tx) by (unfold txl; by rewrite Htx).
  rewrite E, (as_tx _ _ _ _ Hy), (as_txn _ _ _ _ Hy), (as_txi _ _ _ _ Hy), Htx, Htl. rewrite Htl in Hi.
  destruct (as_mode _ _ _ _ Hy) as [ak Hm]. cbn [stage_mode] in Hm. destruct Hq as (Hb & _). rewrite Htl in Hb.
  destruct (Z.ltb_spec (Z.of_nat i) (len tx)) as [Hlt|Hge].
  - unfold len in Hlt, Hb. destruct (lookup_lt_is_Some_2 tx i) as [b Eb]; [lia|].
    unfold load. replace (0 <=? Z.of_nat i) with true by lia. rewrite Nat2Z.id, Eb.
    destruct (write_D_spec b (i_dev y)) as [W1 W2]. rewrite Hm in W2. cbn in W2.
    eexists (Sending (S i)), _. split; [done|]. split; [|split; [done|split; [done|split; [cbn; rewrite Htl; lia|done]]]].
    pose proof (as_bus _ _ _ _ Hy) as Hbus. destruct Hy. cbn [stage_mode stage_state stage_received] in *.
    constructor; cbn; rewrite ?W1, ?W2; try done.
    + rewrite Htl. split; [by eexists|lia].
    + rewrite Hbus. unfold stage_log, sending. rewrite Htl, (take_snoc tx i b Eb), map_app.
      by rewrite <- app_assoc.
    + by rewrite Htl.
    + rewrite u32_id; lia.
  - unfold len in Hge. assert (i = length tx) as -> by lia.
    eexists Sent, _. split; [done|]. split; [|split; [done|split; [done|split; [cbn; rewrite Htl; lia|done]]]].
    pose proof (as_bus _ _ _ _ Hy) as Hbus. destruct Hy. constructor; cbn; try done.
    rewrite Hbus. cbn. by rewrite Htl.
Qed.

Lemma asked_nil n junk : asked n junk [] = [Got junk; Ask (1 <? n)].
Proof. done. Qed.

Lemma serve_dummy_ok y : at_stage Addressed y -> flag I2Cx_S_RXAK (SR (i_dev y)) = false ->
  advances Addressed y (serve_dummy y).
Proof.
  intros Hy E. unfold serve_dummy. rewrite E. pose proof (as_fits _ _ _ _ Hy) as [rx Hrx].
  destruct (as_mode _ _ _ _ Hy) as [ak Hm]. cbn [stage_mode] in Hm.
  destruct (clear_TX y true true ak Hm) as [M1 B1]. set (y1 := C1_clear I2Cx_C1_TX y) in *.
  change (i_rxbytes y1) with (i_rxbytes y). rewrite (as_rxn _ _ _ _ Hy).
  set (y2 := if 1 <? len (rxl q) then _ else _).
  assert (H2 : mode (i_dev y2) = (true, false, negb (1 <? len (rxl q))) /\ bus (i_dev y2) = bus (i_dev y)).
  { rewrite <- B1. unfold y2. destruct (1 <? len (rxl q)); [by apply (clear_TXAK y1 true false ak)|by apply (set_TXAK y1 true false ak)]. }
  destruct H2 as [M2 B2]. destruct (read_D_spec (i_dev y2)) as (_ & M3 & B3). rewrite M2 in B3. cbn [acks negb andb] in B3.
  rewrite negb_involutive in B3.
  assert (E2 : y2 = set_dev (i_dev y2) y) by (unfold y2, y1, C1_clear, C1_or; by destruct (1 <? len (rxl q))).
  assert (Hrl : rxl q = rx) by (unfold rxl; by rewrite Hrx).
  assert (Hne : (0 < length rx)%nat) by (destruct Hq as (_ & _ & Hr); rewrite Hrx in Hr; destruct rx; [done|cbn; lia]).
  eexists (Reading (fst (read_D (i_dev y2))) []), _. split; [done|].
  split; [|split; [by rewrite E2|split; [by rewrite E2|split; [cbn; rewrite Hrl; lia|done]]]].
  rewrite E2 in *. cbn [i_dev set_dev] in *. pose proof (as_bus _ _ _ _ Hy) as Hbus. destruct Hy. constructor; cbn; rewrite ?M3, ?M2, ?B3, ?B2; try done.
  - rewrite Hrl. split; [by eexists|done].
  - rewrite Hbus, <- app_assoc. cbn [stage_log]. by rewrite asked_nil.
  - by eexists.
Qed.

(** The place [length bs] of the buffer, after the bytes [bs]. *)
Lemma store_next (rx bs : list Z) b : (length bs < length rx)%nat ->
  store (bs ++ drop (length bs) rx) (len bs) b = Some ((bs ++ [b]) ++ drop (length (bs ++ [b])) rx).
Proof.
  intros Hl. unfold store, len. rewrite in_range by (rewrite length_app, length_drop; lia). rewrite Nat2Z.id. f_equal.
  destruct (drop (length bs) rx) as [|c r] eqn:Ed.
  - apply (f_equal length) in Ed. rewrite length_drop in Ed. cbn in Ed. lia.
  - rewrite insert_app_r_alt, Nat.sub_diag by done. cbn [list_insert insert]. rewrite length_app, <- app_assoc. cbn [length app]. do 2 f_equal.
    rewrite <- drop_drop, Ed. done.
Qed.

Lemma serve_recv_ok junk bs y : at_stage (Reading junk bs) y -> advances (Reading junk bs) y (serve_recv y).
Proof.
  intros Hy. unfold serve_recv. pose proof (as_fits _ _ _ _ Hy) as [[rx Hrx] Hl].
  assert (Hrl : rxl q = rx) by (unfold rxl; by rewrite Hrx). rewrite Hrl in *.
  destruct (as_mode _ _ _ _ Hy) as [ak Hm]. cbn [stage_mode] in Hm.
  pose proof (as_rxn _ _ _ _ Hy) as Rn. pose proof (as_rxi _ _ _ _ Hy) as Ri. pose proof (as_rx _ _ _ _ Hy) as Rb.
  rewrite Hrx in Rb. rewrite Hrl in Rn. cbn [stage_received] in Ri, Rb.
  destruct Hq as (_ & Hb & _). rewrite Hrl in Hb. unfold len in Hb.
  set (n := len rx) in *. assert (Hn : n = Z.of_nat (length rx)) by done.
  rewrite Rn, Ri.
  (* the acknowledge bit *)
  set (y1 := if 1 <? n then _ else _).
  assert (H1 : (exists ak', mode (i_dev y1) = (true, false, ak') /\ (1 < n -> ak' = (len bs =? n - 2))) /\ bus (i_dev y1) = bus (i_dev y)).
  { unfold y1. destruct (Z.ltb_spec 1 n) as [H1n|H1n]; [|split; [exists ak; split; [done|lia]|done]].
    rewrite u32_id by lia. destruct (len bs =? n - 2).
    - destruct (set_TXAK y true false ak Hm) as [M1 B1]. split; [by exists true|done].
    - destruct (clear_TXAK y true false ak Hm) as [M1 B1]. split; [by exists false|done]. }
  destruct H1 as [(ak' & M1 & Hak) B1].
  assert (E1 : y1 = set_dev (i_dev y1) y).
  { unfold y1, C1_clear, C1_or. destruct (1 <? n); [destruct (len bs =? u32 (n - 2)); done|by destruct y]. }
  change (i_rxidx (if 1 <? n then if len bs =? u32 (n - 2) then C1_or I2Cx_C1_TXAK y else C1_clear I2Cx_C1_TXAK y else y)) with (i_rxidx y1).
  replace (i_rxidx y1) with (len bs) by (rewrite E1; cbn; by rewrite Ri).
  replace (i_rxbytes y1) with n by (rewrite E1; cbn; by rewrite Rn).
  rewrite (u32_id (n - 1)) by lia.
  (* the stop *)
  set (y2 := if len bs =? n - 1 then _ else y1).
  assert (H2 : (mode (i_dev y2) = if len bs =? n - 1 then (false, false, ak') else (true, false, ak')) /\
    bus (i_dev y2) = bus (i_dev y) ++ if len bs =? n - 1 then [Stop] else []).
  { unfold y2. rewrite <- B1. destruct (len bs =? n - 1); [by apply (clear_master y1 true false ak')|by rewrite app_nil_r]. }
  destruct H2 as [M2 B2].
  assert (E2 : y2 = set_dev (i_dev y2) y).
  { unfold y2, C1_clear. destruct (len bs =? n - 1); [|exact E1]. by rewrite E1. }
  pose proof (read_D_spec (i_dev y2)) as Hr. destruct (read_D (i_dev y2)) as [b d]. cbn [fst snd] in Hr. destruct Hr as (_ & M3 & B3).
  replace (i_rxbuf y2) with (i_rxbuf y) by (by rewrite E2). replace (i_rxidx y2) with (len bs) by (rewrite E2; cbn; by rewrite Ri).
  replace (i_rxbytes y2) with n by (rewrite E2; cbn; by rewrite Rn). rewrite Rb, store_next by lia.
  cbn [i_rxidx set_rx i_rxbytes]. rewrite (u32_id (len bs + 1)) by (unfold len; lia).
  rewrite B2 in B3.
  assert (Hlog : bus d = L0 ++ read_head q ++ asked n junk (bs ++ [b])).
  { rewrite B3, (as_bus _ _ _ _ Hy). cbn [stage_log]. rewrite Hrl. fold n. unfold asked. rewrite reading_snoc, M2, Z.add_0_l.
    rewrite <- !app_assoc. cbn [app]. do 4 f_equal. destruct (Z.eqb_spec (len bs) (n - 1)) as [El|El]; cbn [acks negb andb app]; [done|].
    assert (Hlb : len bs = Z.of_nat (length bs)) by done.
    rewrite (Hak ltac:(lia)). destruct (Z.eqb_spec (len bs) (n - 2)), (Z.ltb_spec (len bs + 2) n); (done || lia). }
  assert (Hlen : length (bs ++ [b]) = S (length bs)) by (rewrite length_app; cbn; lia).
  assert (Hlz : len (bs ++ [b]) = len bs + 1) by (unfold len; lia).
  destruct (Z.eqb_spec (len bs + 1) n) as [Ef|Ef].
  - replace (len bs =? n - 1) with true in * by lia.
    eexists (Complete junk (bs ++ [b])), _. split; [done|].
    split; [|split; [by rewrite E2|split; [by rewrite E2|split; [cbn; rewrite Hrl; unfold len in *; lia|done]]]].
    rewrite E2. clear E1 E2 M1 B1 B2 B3. destruct Hy. constructor; cbn; try done.
    + rewrite Hrl, Hlen. split; [by eexists|unfold len in *; lia].
    + by rewrite Hrl.
    + exists ak'. by rewrite M3, M2.
    + by rewrite Hrx.
    + by rewrite Hrl.
  - replace (len bs =? n - 1) with false in * by lia.
    eexists (Reading junk (bs ++ [b])), _. split; [done|].
    split; [|split; [by rewrite E2|split; [by rewrite E2|split; [cbn; rewrite Hrl, Hlen; lia|done]]]].
    rewrite E2. clear E1 E2 M1 B1 B2 B3. destruct Hy. constructor; cbn; try done.
    + rewrite Hrl, Hlen. split; [by eexists|unfold len in *; lia].
    + by rewrite Hrl.
    + exists ak'. by rewrite M3, M2.
    + by rewrite Hrx.
    + by rewrite Hrl.
Qed.

(** No arbitration lost, and the byte was acknowledged. *)
Definition clean (d : D) : bool := negb (flag I2Cx_S_ARBL (SR d)) && negb (flag I2Cx_S_RXAK (SR d)).

Lemma serve_state_ok st y : at_stage st y ->
  exists st' y', serve_state y = Some y' /\ at_stage st' y' /\ same_call y y' /\ writing st' = writing st /\
    (i_errors y' = i_errors y /\ todo q st' = pred (todo q st) \/ clean (i_dev y) = false /\ st' = st /\ i_errors y' <> 0).
Proof.
  intros Hy. unfold serve_state, clean. pose proof (as_int _ _ _ _ Hy) as Ei. rewrite Ei.
  assert (Hor : forall e, e <> 0 -> Z.lor (i_errors y) e <> 0) by (intros e He [_ ?]%Z.lor_eq_0_iff; done).
  assert (Hadv : forall r, advances st y r -> exists st' y', r = Some y' /\ at_stage st' y' /\ same_call y y' /\ writing st' = writing st /\
    (i_errors y' = i_errors y /\ todo q st' = pred (todo q st) \/
     negb (flag I2Cx_S_ARBL (SR (i_dev y))) && negb (flag I2Cx_S_RXAK (SR (i_dev y))) = false /\ st' = st /\ i_errors y' <> 0)).
  { intros r (st' & y' & -> & H1 & H2 & H3 & H4 & H5). exists st', y'. split; [done|split; [done|split; [done|split; [done|by left]]]]. }
  destruct (flag I2Cx_S_ARBL (SR (i_dev y))) eqn:Ea.
  - eexists st, _. split; [done|]. split; [|split; [done|split; [done|right; split; [done|split; [done|cbn; by apply Hor]]]]].
    pose proof (write_SR_law (Z.lor (SR (i_dev y)) I2Cx_S_ARBL) (i_dev y)) as [E1 E2]%unchanged_mode. by apply (at_stage_same q L0 st y).
  - assert (Hack : flag I2Cx_S_RXAK (SR (i_dev y)) = true -> at_stage st (add_error I2C_ACK_FAILURE y) /\
      same_call y (add_error I2C_ACK_FAILURE y) /\ i_errors (add_error I2C_ACK_FAILURE y) <> 0).
    { intros _. split; [by apply (at_stage_same q L0 st y)|split; [done|]]. cbn. by apply Hor. }
    destruct st as [i| | |junk bs|junk bs]; cbn [stage_state Z.eqb].
    + change (STATE_SEND =? STATE_SEND) with true. cbv iota.
      destruct (flag I2Cx_S_RXAK (SR (i_dev y))) eqn:Er; [|by apply Hadv, serve_send_ok].
      unfold serve_send. rewrite Er. destruct (Hack eq_refl) as (H1 & H2 & H3).
      eexists _, _. split; [done|split; [exact H1|split; [done|split; [done|by right]]]].
    + change (STATE_STOP =? STATE_SEND) with false. exists Sent, y. split; [done|split; [done|split; [done|split; [done|by left]]]].
    + change (STATE_DUMMY =? STATE_SEND) with false. change (STATE_DUMMY =? STATE_DUMMY) with true. cbv iota.
      destruct (flag I2Cx_S_RXAK (SR (i_dev y))) eqn:Er; [|by apply Hadv, serve_dummy_ok].
      unfold serve_dummy. rewrite Er. destruct (Hack eq_refl) as (H1 & H2 & H3).
      eexists _, _. split; [done|split; [exact H1|split; [done|split; [done|by right]]]].
    + change (STATE_RECV =? STATE_SEND) with false. change (STATE_RECV =? STATE_DUMMY) with false.
      change (STATE_RECV =? STATE_RECV) with true. cbv iota. by apply Hadv, serve_recv_ok.
    + change (STATE_STOP =? STATE_SEND) with false. exists (Complete junk bs), y. split; [done|split; [done|split; [done|split; [done|by left]]]].
Qed.

Lemma stage_stop st y : at_stage st y -> (i_intstate y =? STATE_STOP) = (todo q st =? 0)%nat.
Proof.
  intros Hy. rewrite (as_int _ _ _ _ Hy). pose proof (as_fits _ _ _ _ Hy) as Hf.
  destruct st as [i| | |junk bs|junk bs]; cbn in *; try done. destruct Hf as [_ Hl].
  change (STATE_RECV =? STATE_STOP) with false. destruct (Nat.eqb_spec (length (rxl q) - length bs) 0); [lia|done].
Qed.
End Interrupt.

(** ** The kernel side *)

Section KernelSide.
Context (rlist idle : Z) (fuel : nat) (kind : gmap Z qkind) (thread : Z).
Notation kmid := (kmid rlist idle fuel kind).
Notation kernel_ok := (kernel_ok rlist idle fuel kind).

(** The references and the messages of the threads stay. *)
Definition same_refs (k k' : kernel) : Prop := tref k' = tref k /\ p_u k' = p_u k.

Lemma same_refs_trans k1 k2 k3 : same_refs k1 k2 -> same_refs k2 k3 -> same_refs k1 k3.
Proof. intros [A1 A2] [B1 B2]. split; congruence. Qed.

Lemma readyI_refs tp k k' : chSchReadyI rlist fuel tp k = Some k' -> same_refs k k'.
Proof. unfold chSchReadyI. destruct (prio_scan _ _ _ _); [|done]. by intros [= <-]. Qed.

Lemma timeout_resume_refs k : same_refs k (timeout_resume k).
Proof. unfold timeout_resume. by destruct (armed k (r_current k)). Qed.

Lemma ahead_refs k k' : chSchDoRescheduleAhead rlist fuel k = Some k' -> same_refs k k'.
Proof.
  unfold chSchDoRescheduleAhead, fifo_remove. destruct (queue_fifo_remove _ _) as [tp l].
  destruct (prio_scan _ _ _ _); [|done]. by intros [= <-].
Qed.

Lemma behind_refs k k' : chSchDoRescheduleBehind rlist fuel k = Some k' -> same_refs k k'.
Proof.
  unfold chSchDoRescheduleBehind, fifo_remove. destruct (queue_fifo_remove _ _) as [tp l].
  intros E%readyI_refs. exact E.
Qed.

Lemma epilogue_refs k k' : irq_epilogue rlist fuel k = Some k' -> same_refs k k'.
Proof.
  unfold irq_epilogue, chSchDoReschedule. destruct (chSchIsPreemptionRequired _ _); [|by intros [= <-]].
  destruct (_ =? 0); [apply behind_refs|apply ahead_refs].
Qed.

Lemma sleep_refs st k : same_refs k (chSchGoSleepS rlist st k).
Proof. unfold chSchGoSleepS, fifo_remove. by destruct (queue_fifo_remove _ _) as [tp l]. Qed.

(** A thread suspends itself on the reference. *)
Lemma suspend_refs k : let k' := timeout_resume (snd (chThdSuspendTimeoutS rlist thread TIME_INFINITE k)) in
  tref k' = upd thread (r_current k) (tref k) /\ p_u k' = upd (r_current k) thread (p_u k).
Proof.
  cbn zeta. unfold chThdSuspendTimeoutS. change (TIME_INFINITE =? TIME_IMMEDIATE) with false. cbv iota zeta. cbn [snd].
  unfold chSchGoSleepTimeoutS. change (TIME_INFINITE =? TIME_INFINITE) with true. cbn [negb].
  set (k1 := Sched.set_u _ _ _). destruct (sleep_refs CH_STATE_SUSPENDED k1) as [E1 E2].
  destruct (timeout_resume_refs (chSchGoSleepS rlist CH_STATE_SUSPENDED k1)) as [E3 E4]. by rewrite E3, E4, E1, E2.
Qed.

Lemma suspend_kernel T k : kernel_ok T k -> r_current k <> idle -> tref k thread = NULL ->
  kernel_ok T (timeout_resume (snd (chThdSuspendTimeoutS rlist thread TIME_INFINITE k))) /\ r_current k ∈ T /\ r_current k <> NULL.
Proof.
  intros (G & qs & Hk & Ht & Hq) Hi Hr. pose proof (km_run _ _ _ _ _ _ _ _ Hk) as (Hc & _).
  destruct (suspend_ok rlist idle fuel kind G T k qs thread TIME_INFINITE Hk Ht Hi Hr) as (k' & qs' & [= <-] & Hk' & Ht' & _).
  split; [exists G, qs'; by apply resume_ok|split; [done|]].
  by apply (ko_apart _ _ _ _ _ _ _ _ (km_ok _ _ _ _ _ _ _ _ Hk)).
Qed.

(** The interrupt resumes the thread, if one waits. *)
Lemma resumeI_kernel G T k qs msg : kmid G T None k qs -> quiet k ->
  exists k' qs', chThdResumeI rlist fuel thread msg k = Some k' /\ kmid G T None k' qs' /\ quiet k' /\
    tref k' thread = NULL /\
    p_u k' = if tref k thread =? NULL then p_u k else upd (tref k thread) msg (p_u k).
Proof.
  intros Hk Hq. destruct (chThdResumeI_ok rlist idle fuel kind G T k qs thread msg Hk) as (k' & qs' & E & Hk' & Hc & Ha & _).
  exists k', qs'. split; [done|split; [done|split; [unfold quiet in *; by rewrite Hc, Ha|]]]. unfold chThdResumeI in E.
  destruct (Z.eqb_spec (tref k thread) NULL) as [En|En]; cbn [negb] in E.
  - by injection E as <-.
  - apply readyI_refs in E as [-> ->]. split; [|done]. apply upd_eq.
Qed.

Lemma epilogue_kernel G T k qs : kmid G T None k qs ->
  exists k', irq_epilogue rlist fuel k = Some k' /\ kernel_ok T (timeout_resume k') /\ same_refs k (timeout_resume k').
Proof.
  intros Hk. destruct (epilogue_ok rlist idle fuel kind G T k qs Hk) as (k' & qs' & E & Hk' & Ht' & _).
  exists k'. split; [done|]. split; [exists G, qs'; by apply resume_ok|].
  apply (same_refs_trans k k'); [by apply epilogue_refs|apply timeout_resume_refs].
Qed.
End KernelSide.

(** ** Sequences of operations *)

(** The thread inside of a transfer: its request, whether it is past the first wait, and
    what was on the bus before. *)
Record call_info : Type := CallInfo { c_tp : Z; c_second : bool; c_request : request; c_start : list bus_event }.

Record isys (D : Type) : Type := ISys { drv : i2c D; caller : option call_info }.
#[global] Arguments ISys {D}.
#[global] Arguments drv {D}.
#[global] Arguments caller {D}.

(** A call that returned: the message, the buffer and the error flags, and the dialogue. *)
Record answer : Type := Answer { a_request : request; a_msg : Z; a_rx : option (list Z); a_errors : Z; a_bus : list bus_event }.

Inductive i2c_op (D : Type) : Type :=
  | OConfig (config : option Z) | OHalt | OBegin (q : request) | OContinue | OIrq | ODevice (d : D) | OEnv (k : kernel).
#[global] Arguments OConfig {D}.
#[global] Arguments OHalt {D}.
#[global] Arguments OBegin {D}.
#[global] Arguments OContinue {D}.
#[global] Arguments OIrq {D}.
#[global] Arguments ODevice {D}.
#[global] Arguments OEnv {D}.

Definition is_some {A} (o : option A) : bool := match o with Some _ => true | None => false end.

Section Runs.
Context (rlist idle : Z) (fuel : nat) (kind : gmap Z qkind) (thread : Z).
Context {D : Type} `{I2cBus D}.

Definition kern (s : isys D) : kernel := i_kern (drv s).
Definition wake (y : i2c D) : i2c D := set_kern (timeout_resume (i_kern y)) y.

Definition begin (q : request) (y : i2c D) : option (i2c D) :=
  match q with
  | QTransmit a tx rx => i2cMasterTransmit_begin rlist thread a (Some tx) (len tx) rx (bytes_of rx) y
  | QReceive a rx => i2cMasterReceive_begin rlist thread a (Some rx) (len rx) y
  end.

Definition continue (c : call_info) (y : i2c D) : option (option Z * i2c D) :=
  let msg := p_u (i_kern y) (r_current (i_kern y)) in
  if c_second c then txrx_end msg y
  else txrx_middle rlist thread (is_some (q_tx (c_request c))) (is_some (q_rx (c_request c))) msg y.

Definition run_i2c (o : i2c_op D) (s : isys D) : option (list answer * isys D) :=
  let y := drv s in
  match o with
  | OConfig config => match i2cStart config y with None => None | Some y => Some ([], ISys y (caller s)) end
  | OHalt => Some ([], ISys (i2cStop y) (caller s))
  | OBegin q =>
      match begin q y with
      | None => None
      | Some y' => Some ([], ISys (wake y') (Some (CallInfo (r_current (i_kern y)) false q (bus (i_dev y)))))
      end
  | OContinue =>
      match caller s with
      | None => None
      | Some c =>
          match continue c y with
          | None => None
          | Some (None, y) => Some ([], ISys (wake y) (Some (CallInfo (c_tp c) true (c_request c) (c_start c))))
          | Some (Some msg, y) =>
              Some ([Answer (c_request c) msg (i_rxbuf y) (i2cGetErrors y) (drop (length (c_start c)) (bus (i_dev y)))],
                    ISys (i2cMaster_end msg y) None)
          end
      end
  | OIrq => match Vector64 rlist fuel thread None None y with None => None | Some y => Some ([], ISys (wake y) (caller s)) end
  | ODevice d => Some ([], ISys (set_dev d y) (caller s))
  | OEnv k => Some ([], ISys (set_kern k y) (caller s))
  end.

Fixpoint run_i2cs (os : list (i2c_op D)) (s : isys D) : option (list answer * isys D) :=
  match os with
  | [] => Some ([], s)
  | o :: os =>
      match run_i2c o s with
      | None => None
      | Some (a, s) => match run_i2cs os s with None => None | Some (b, s) => Some (a ++ b, s) end
      end
  end.

(** The rest of the kernel does anything, but it does not use the driver's reference, and
    the message of the thread in the transfer stays until the thread runs. *)
Definition env_ok (s : isys D) (k : kernel) : Prop :=
  (exists T, kernel_ok rlist idle fuel kind T k /\ forall c, caller s = Some c -> c_tp c ∈ T) /\
  tref k thread = tref (kern s) thread /\ forall c, caller s = Some c -> p_u k (c_tp c) = p_u (kern s) (c_tp c).

(** The bus is taken by one thread at a time (i2cAcquireBus), and the driver is started; the
    module interrupts during a transfer only. *)
Definition valid_i2c (o : i2c_op D) (s : isys D) : Prop :=
  match o with
  | OConfig config => caller s = None /\ icr_divisor config <> None
  | OHalt => caller s = None
  | OBegin q => caller s = None /\ i_state (drv s) = I2C_READY /\ request_ok q /\ r_current (kern s) <> idle
  | OContinue => exists c, caller s = Some c /\ r_current (kern s) = c_tp c
  | OIrq => caller s <> None
  | ODevice d => device (i_dev (drv s)) d
  | OEnv k => env_ok s k
  end.

Fixpoint valid_i2cs (os : list (i2c_op D)) (s : isys D) : Prop :=
  match os with
  | [] => True
  | o :: os => valid_i2c o s /\ forall a s', run_i2c o s = Some (a, s') -> valid_i2cs os s'
  end.

(** What a call that returned has done: with MSG_OK, the whole dialogue, and the buffer
    holds the bytes received; with MSG_RESET, an error flag is set and the dialogue was
    stopped at some stage.  It returns nothing else. *)
Definition answer_ok (a : answer) : Prop :=
  (a_msg a = MSG_OK /\ exists junk bs, a_bus a = dialogue (a_request a) junk bs /\
     match q_rx (a_request a) with Some rx => a_rx a = Some bs /\ length bs = length rx | None => a_rx a = None end) \/
  (a_msg a = MSG_RESET /\ a_errors a <> I2C_NO_ERROR /\ exists st,
     a_bus a = stage_log (a_request a) st ++ match st with Complete _ _ => [] | _ => [Stop] end).

(** The stages of the two waits. *)
Definition stage_phase (c : call_info) (st : stage) : Prop :=
  c_second c = if writing st then false else is_some (q_tx (c_request c)).

(** The thread waits, or it has its message. *)
Definition waits (c : call_info) (st : stage) (y : i2c D) : Prop :=
  if tref (i_kern y) thread =? NULL
  then p_u (i_kern y) (c_tp c) = MSG_OK /\ todo (c_request c) st = O \/
       p_u (i_kern y) (c_tp c) = MSG_RESET /\ i_errors y <> 0
  else tref (i_kern y) thread = c_tp c /\ todo (c_request c) st <> O.

Definition call_at (c : call_info) (st : stage) (y : i2c D) : Prop :=
  at_stage (c_request c) (c_start c) st y /\ stage_phase c st /\ waits c st y.

Definition call_ok (c : call_info) : Prop := c_tp c <> idle /\ c_tp c <> NULL /\ request_ok (c_request c).

Definition sys_ok (s : isys D) : Prop :=
  (exists T, kernel_ok rlist idle fuel kind T (kern s) /\ forall c, caller s = Some c -> c_tp c ∈ T) /\
  match caller s with
  | None => MST (C1 (i_dev (drv s))) = false /\ tref (kern s) thread = NULL
  | Some c => call_ok c /\ exists st, call_at c st (drv s)
  end.
End Runs.

Section Correct.
Context (rlist idle : Z) (fuel : nat) (kind : gmap Z qkind) (thread : Z).
Context {D : Type} `{I2cLaws D}.
Notation kernel_ok := (kernel_ok rlist idle fuel kind).
Notation call_ok := (call_ok idle).
Notation call_at := (call_at thread).
Notation waits := (waits thread).

(** Only the module and the message matter to a call. *)
Lemma waits_same c st (y y' : i2c D) : waits c st y -> tref (i_kern y') thread = tref (i_kern y) thread ->
  p_u (i_kern y') (c_tp c) = p_u (i_kern y) (c_tp c) -> i_errors y' = i_errors y -> waits c st y'.
Proof. unfold I2c.waits. intros Hw -> -> ->. exact Hw. Qed.

Lemma at_stage_kern q L0 st (y : i2c D) k : at_stage q L0 st y -> at_stage q L0 st (set_kern k y).
Proof. intros Hy. by apply (at_stage_same q L0 st y). Qed.

Lemma call_kern c st (y : i2c D) k : call_at c st y -> tref k thread = tref (i_kern y) thread ->
  p_u k (c_tp c) = p_u (i_kern y) (c_tp c) -> call_at c st (set_kern k y).
Proof.
  intros (Hy & Hp & Hw) E1 E2. split; [by apply at_stage_kern|split; [done|]]. by apply (waits_same c st y).
Qed.

(** The beginning of a transfer up to its first wait. *)
Lemma txrx_begin_ok T q (y : i2c D) : request_ok q -> kernel_ok T (i_kern y) -> r_current (i_kern y) <> idle ->
  tref (i_kern y) thread = NULL -> MST (C1 (i_dev y)) = false ->
  let st := match q with QTransmit _ _ _ => Sending 0 | QReceive _ _ => Addressed end in
  i_intstate y = stage_state st ->
  exists y', txrx_begin rlist thread (q_addr q) (q_tx q) (len (txl q)) (q_rx q) (len (rxl q)) y = Some y' /\
    at_stage q (bus (i_dev y)) st y' /\
    i_kern y' = snd (chThdSuspendTimeoutS rlist thread TIME_INFINITE (i_kern y)) /\ i_errors y' = 0.
Proof.
  intros Hq Hk Hi Hr Hm st Hint. unfold txrx_begin.
  set (op := if i_intstate y =? STATE_SEND then 0 else 1). set (y0 := set_rx _ _ _ _).
  assert (M0 : mode (i_dev y0) = (false, TX (C1 (i_dev y)), TXAK (C1 (i_dev y)))) by (unfold mode; change (i_dev y0) with (i_dev y); by rewrite Hm).
  destruct (set_MST y0 _ _ _ M0) as [M1 B1]. set (y1 := C1_or I2Cx_C1_MST y0) in *.
  destruct (set_TX y1 _ _ _ M1) as [M2 B2]. set (y2 := C1_or I2Cx_C1_TX y1) in *.
  destruct (wait_bus_ok true (i_dev y2)) as (d & -> & [M3 B3]%unchanged_mode); [by injection M2|].
  destruct (write_D_spec (address (q_addr q) op) d) as [M4 B4]. rewrite M3, M2 in M4, B4. cbn [sends andb] in B4.
  eexists. split; [done|]. split; [|done].
  assert (Hlog : bus (write_D (address (q_addr q) op) d) = bus (i_dev y) ++ stage_log q st).
  { rewrite B4, B3, B2, B1, <- !app_assoc. cbn [edges app].
    assert (Eop : op = match q with QTransmit _ _ _ => 0 | QReceive _ _ => 1 end) by (unfold op; rewrite Hint; by destruct q).
    rewrite Eop. by destruct q. }
  destruct Hq as (Q1 & Q2 & Q3). unfold address in *. constructor; cbn; rewrite ?M4, ?Hlog; try done.
  - unfold st. destruct q; cbn; [split; [by eexists|lia]|by eexists].
  - eexists. by destruct q.
  - by destruct q.
  - by destruct q as [? ? [rx|]|? rx].
  - by destruct q.
Qed.

Lemma begin_ok T q (y : i2c D) : request_ok q -> kernel_ok T (i_kern y) -> r_current (i_kern y) <> idle ->
  tref (i_kern y) thread = NULL -> MST (C1 (i_dev y)) = false ->
  exists y', begin rlist thread q y = Some y' /\ kernel_ok T (i_kern (wake y')) /\ r_current (i_kern y) ∈ T /\
    let c := CallInfo (r_current (i_kern y)) false q (bus (i_dev y)) in call_ok c /\
    call_at c (match q with QTransmit _ _ _ => Sending 0 | QReceive _ _ => Addressed end) (wake y') /\ i_errors y' = 0.
Proof.
  intros Hq Hk Hi Hr Hm.
  destruct (suspend_kernel rlist idle fuel kind thread T (i_kern y) Hk Hi Hr) as (Hk' & Hc & Hn).
  destruct (suspend_refs rlist thread (i_kern y)) as [R1 R2].
  set (st := match q with QTransmit _ _ _ => Sending 0 | QReceive _ _ => Addressed end).
  assert (Hfin : forall y0, at_stage q (bus (i_dev y)) st y0 ->
    i_kern y0 = snd (chThdSuspendTimeoutS rlist thread TIME_INFINITE (i_kern y)) -> i_errors y0 = 0 ->
    kernel_ok T (i_kern (wake y0)) /\ r_current (i_kern y) ∈ T /\
    let c := CallInfo (r_current (i_kern y)) false q (bus (i_dev y)) in call_ok c /\ call_at c st (wake y0) /\ i_errors y0 = 0).
  { intros y0 Hs Ek Ee. cbn [i_kern wake set_kern]. rewrite Ek. split; [done|split; [done|]]. split; [done|]. split; [|done].
    split; [by apply at_stage_kern|]. split; [by destruct q|]. unfold I2c.waits. cbn [i_kern wake set_kern c_tp c_request].
    rewrite Ek, R1, upd_eq. destruct (Z.eqb_spec (r_current (i_kern y)) NULL); [done|]. split; [done|]. by destruct q. }
  destruct q as [a tx rx|a rx]; cbn [begin].
  - unfold i2cMasterTransmit_begin, i2c_lld_master_transmit_begin. set (y0 := set_intstate _ _).
    destruct (txrx_begin_ok T (QTransmit a tx rx) y0 Hq Hk Hi Hr Hm) as (y' & E & Hs & Ek & Ee); [done|].
    exists y'. split; [exact E|]. by apply Hfin.
  - unfold i2cMasterReceive_begin, i2c_lld_master_receive_begin. set (y0 := set_intstate _ _).
    destruct (txrx_begin_ok T (QReceive a rx) y0 Hq Hk Hi Hr Hm) as (y' & E & Hs & Ek & Ee); [done|].
    exists y'. split; [exact E|]. by apply Hfin.
Qed.

(** The waking part of the interrupt. *)
Lemma wakeup_part_ok G T qs c L0 st (y : i2c D) : at_stage (c_request c) L0 st y -> c_tp c <> NULL ->
  kmid rlist idle fuel kind G T None (i_kern y) qs -> quiet (i_kern y) ->
  (if tref (i_kern y) thread =? NULL
   then p_u (i_kern y) (c_tp c) = MSG_OK /\ todo (c_request c) st = O \/ p_u (i_kern y) (c_tp c) = MSG_RESET /\ i_errors y <> 0
   else tref (i_kern y) thread = c_tp c) ->
  exists k qs', (match (if negb (i_errors y =? I2C_NO_ERROR) then _i2c_wakeup_error_isr rlist fuel thread y else Some y) with
    | None => None
    | Some y => if i_intstate y =? STATE_STOP then _i2c_wakeup_isr rlist fuel thread y else Some y
    end) = Some (set_kern k y) /\ kmid rlist idle fuel kind G T None k qs' /\ waits c st (set_kern k y).
Proof.
  intros Hs Hn Hk Hq Hw. unfold _i2c_wakeup_error_isr, _i2c_wakeup_isr, resumeI, I2c.waits, I2C_NO_ERROR. cbn [i_kern i_errors set_kern].
  pose proof (stage_stop _ _ _ _ Hs) as Estop.
  assert (Hres : forall msg, exists k qs', chThdResumeI rlist fuel thread msg (i_kern y) = Some k /\ kmid rlist idle fuel kind G T None k qs' /\
    tref k thread = NULL /\ (tref (i_kern y) thread <> NULL /\ p_u k (c_tp c) = msg \/ tref (i_kern y) thread = NULL /\ p_u k = p_u (i_kern y))).
  { intros msg. destruct (resumeI_kernel rlist idle fuel kind thread G T (i_kern y) qs msg Hk Hq) as (k & qs' & E & Hk' & _ & E1 & E2).
    exists k, qs'. split; [done|split; [done|split; [done|]]]. rewrite E2.
    destruct (Z.eqb_spec (tref (i_kern y) thread) NULL) as [En|En]; [by right|left]. by rewrite Hw, upd_eq. }
  destruct (Z.eqb_spec (i_errors y) 0) as [E0|E0]; cbn [negb].
  - rewrite Estop. destruct (Nat.eqb_spec (todo (c_request c) st) 0) as [Et|Et].
    + destruct (Hres MSG_OK) as (k & qs' & -> & Hk' & E1 & E2). exists k, qs'. split; [done|split; [done|]]. rewrite E1. left. split; [|done].
      destruct E2 as [[_ ?]|[En ->]]; [done|]. rewrite En in Hw. by destruct Hw as [[]|[]].
    + exists (i_kern y), qs. split; [by destruct y|split; [done|]].
      destruct (_ =? NULL); [by destruct Hw as [[]|[]]|done].
  - destruct (Hres MSG_RESET) as (k & qs' & -> & Hk' & E1 & E2).
    assert (Hw' : p_u k (c_tp c) = MSG_OK /\ todo (c_request c) st = 0%nat \/ p_u k (c_tp c) = MSG_RESET /\ i_errors y <> 0).
    { destruct E2 as [[_ ?]|[En ->]]; [by right|]. by rewrite En in Hw. }
    exists k, qs'. assert (Hi : i_intstate (set_kern k y) = i_intstate y) by done. rewrite Hi, Estop, E1. cbn [i_kern set_kern].
    split; [|by split]. destruct (Nat.eqb _ _); [|done]. unfold chThdResumeI. by rewrite E1.
Qed.

(** An interrupt during a call. *)
Lemma isr_call_ok T c st (y : i2c D) : call_ok c -> call_at c st y -> kernel_ok T (i_kern y) ->
  exists st' y', Vector64 rlist fuel thread None None y = Some y' /\ kernel_ok T (i_kern (wake y')) /\ call_at c st' (wake y') /\
    (clean (i_dev y) = true -> i_errors y' = i_errors y /\ todo (c_request c) st' = pred (todo (c_request c) st)).
Proof.
  intros (H1 & H2 & H3) (Hs & Hp & Hw) (G & qs & Hk & _ & Hq). unfold Vector64, serve_interrupt.
  change (1 =? 0) with false. cbv iota.
  destruct (serve_state_ok (c_request c) H3 (c_start c) st y Hs) as (st' & y1 & -> & Hs1 & (K1 & K2 & K3) & Ewr & Hstep).
  set (y2 := SR_or I2Cx_S_IICIF y1).
  assert (Hs2 : at_stage (c_request c) (c_start c) st' y2) by (apply (at_stage_dev _ _ st' y1 _ Hs1); apply write_SR_law).
  assert (Ek2 : i_kern y2 = i_kern y) by done. assert (Ee2 : i_errors y2 = i_errors y1) by done.
  destruct (wakeup_part_ok G T qs c (c_start c) st' y2 Hs2 H2) as (k & qs' & -> & Hk' & Hw'); [by rewrite Ek2|by rewrite Ek2| |].
  { rewrite Ek2, Ee2. unfold I2c.waits in Hw. destruct (_ =? NULL); [|by destruct Hw].
    destruct Hstep as [[-> ->]|(_ & -> & He)].
    - destruct Hw as [[? ->]|?]; [by left|by right].
    - destruct Hw as [?|[? _]]; [by left|by right]. }
  destruct (epilogue_kernel rlist idle fuel kind G T k qs' Hk') as (k' & Ek & Hk3 & [R1 R2]).
  change (i_kern (set_kern k y2)) with k. rewrite Ek. exists st'. eexists. split; [done|]. split; [done|]. split.
  - apply (call_kern c st' (set_kern k y2)); [|cbn; by rewrite R1|cbn; by rewrite R2].
    split; [by apply at_stage_kern|split; [|done]]. unfold stage_phase. by rewrite Ewr.
  - intros Hc. change (i_errors y1 = i_errors y /\ todo (c_request c) st' = pred (todo (c_request c) st)). destruct Hstep as [?|(Hn & _)]; [done|congruence].
Qed.
End Correct.

Section Runs_ok.
Context (rlist idle : Z) (fuel : nat) (kind : gmap Z qkind) (thread : Z).
Context {D : Type} `{I2cLaws D}.
Notation kernel_ok := (kernel_ok rlist idle fuel kind).
Notation call_ok := (call_ok idle).
Notation call_at := (call_at thread).

(** A thread that runs was resumed. *)
Lemma current_resumed T c st (y : i2c D) : kernel_ok T (i_kern y) -> r_current (i_kern y) = c_tp c -> waits thread c st y ->
  tref (i_kern y) thread = NULL /\ (p_u (i_kern y) (c_tp c) = MSG_OK /\ todo (c_request c) st = O \/
    p_u (i_kern y) (c_tp c) = MSG_RESET /\ i_errors y <> 0).
Proof.
  intros (G & qs & Hk & _) Hc Hw. unfold I2c.waits in Hw. destruct (Z.eqb_spec (tref (i_kern y) thread) NULL) as [E|E]; [done|].
  destruct Hw as [Et _]. destruct (ko_tref _ _ _ _ _ _ _ _ (km_ok _ _ _ _ _ _ _ _ Hk) thread E) as (_ & _ & Hs & _).
  destruct (km_run _ _ _ _ _ _ _ _ Hk) as (_ & Hs' & _). rewrite Et, <- Hc in Hs. congruence.
Qed.

(** The stop condition, unless the interrupt has made it already. *)
Definition last_stop (st : stage) : list bus_event := match st with Complete _ _ => [] | _ => [Stop] end.

Lemma txrx_end_ok q L0 st msg (y : i2c D) : at_stage q L0 st y ->
  exists y', txrx_end msg y = Some (Some msg, y') /\ bus (i_dev y') = L0 ++ stage_log q st ++ last_stop st /\
    MST (C1 (i_dev y')) = false /\ i_kern y' = i_kern y /\ i_rxbuf y' = i_rxbuf y /\ i_errors y' = i_errors y.
Proof.
  intros Hs. unfold txrx_end. destruct (as_mode _ _ _ _ Hs) as [ak Hm].
  assert (Hm' : mode (i_dev y) = (match st with Complete _ _ => false | _ => true end,
    match st with Reading _ _ | Complete _ _ => false | _ => true end, ak)) by (rewrite Hm; by destruct st).
  destruct (clear_master y _ _ _ Hm') as [M1 B1]. set (y1 := C1_clear _ y) in *.
  destruct (wait_bus_ok false (i_dev y1)) as (d & -> & [M2 B2]%unchanged_mode); [by injection M1|].
  eexists. split; [done|]. cbn [i_dev set_dev]. rewrite M1 in M2. split; [|split; [by injection M2|done]].
  rewrite B2, B1, (as_bus _ _ _ _ Hs), <- app_assoc. by destruct st.
Qed.

(** The repeated start. *)
Lemma txrx_restart_ok T q L0 (y : i2c D) rx : at_stage q L0 Sent y -> q_rx q = Some rx -> kernel_ok T (i_kern y) ->
  r_current (i_kern y) <> idle -> tref (i_kern y) thread = NULL ->
  exists y', txrx_middle rlist thread true true MSG_OK y = Some (None, y') /\ kernel_ok T (i_kern (wake y')) /\
    tref (i_kern (wake y')) thread = r_current (i_kern y) /\ at_stage q L0 Addressed (wake y').
Proof.
  intros Hs Hrx Hk Hi Hr. unfold txrx_middle. change (MSG_OK =? MSG_OK) with true. cbn [andb].
  destruct (as_mode _ _ _ _ Hs) as [ak Hm]. cbn [stage_mode] in Hm. pose proof (as_fits _ _ _ _ Hs) as Hf.
  destruct q as [a tx rx'|a rx']; cbn in Hf; [|by destruct Hf].
  destruct (set_RSTA y true true ak Hm) as [M1 B1]. set (y1 := C1_or I2Cx_C1_RSTA y) in *.
  destruct (wait_bus_ok true (i_dev y1)) as (d & -> & [M2 B2]%unchanged_mode); [by injection M1|].
  change (i_addr (set_intstate STATE_DUMMY (set_dev d y1))) with (i_addr y). rewrite (as_addr _ _ _ _ Hs). cbn [q_addr].
  destruct (write_D_spec (address a 1) d) as [M3 B3]. rewrite M2, M1 in M3, B3. cbn [sends andb] in B3.
  destruct (suspend_kernel rlist idle fuel kind thread T (i_kern y) Hk Hi Hr) as (Hk' & _).
  destruct (suspend_refs rlist thread (i_kern y)) as [R1 _].
  eexists. split; [done|]. split; [done|]. split; [etrans; [exact (f_equal (fun f => f thread) R1)|apply upd_eq]|].
  pose proof (as_bus _ _ _ _ Hs) as Hb. unfold address in *. destruct Hs. constructor; cbn; rewrite ?M3; try done.
  - rewrite B3, B2, B1, Hb, <- !app_assoc. done.
  - by eexists.
Qed.

Lemma answer_reset q L0 st (y : i2c D) : at_stage q L0 st y -> i_errors y <> 0 ->
  forall y', bus (i_dev y') = L0 ++ stage_log q st ++ last_stop st -> i_errors y' = i_errors y ->
  answer_ok (Answer q MSG_RESET (i_rxbuf y') (i_errors y') (drop (length L0) (bus (i_dev y')))).
Proof.
  intros Hs He y' Eb Ee. right. cbn. split; [done|split; [by rewrite Ee|]]. exists st. rewrite Eb, drop_app_length. by destruct st.
Qed.

Lemma answer_done q L0 st (y : i2c D) : at_stage q L0 st y -> todo q st = O -> (writing st = true -> q_rx q = None) ->
  forall y', bus (i_dev y') = L0 ++ stage_log q st ++ last_stop st -> i_rxbuf y' = i_rxbuf y ->
  answer_ok (Answer q MSG_OK (i_rxbuf y') (i_errors y') (drop (length L0) (bus (i_dev y')))).
Proof.
  intros Hs Ht Hw y' Eb Er. left. cbn. split; [done|]. rewrite Eb, Er, drop_app_length, (as_rx _ _ _ _ Hs). unfold dialogue.
  pose proof (as_fits _ _ _ _ Hs) as Hf. destruct st as [i| | |junk bs|junk bs]; cbn in Ht, Hf; try lia.
  - rewrite (Hw eq_refl). by exists 0, [].
  - destruct Hf as [[rx Hrx] Hl]. assert (Hrl : rxl q = rx) by (unfold rxl; by rewrite Hrx). rewrite Hrl in Hl.
    exists junk, bs. rewrite Hrx. cbn [stage_log last_stop stage_received]. rewrite Hrl, app_nil_r. split; [done|].
    split; [|done]. by rewrite drop_ge, app_nil_r by lia.
Qed.

(** A resumed call goes on to its second wait, or returns. *)
Lemma continue_ok T c st (y : i2c D) : call_ok c -> call_at c st y -> kernel_ok T (i_kern y) -> r_current (i_kern y) = c_tp c ->
  exists r y', continue rlist thread c y = Some (r, y') /\
    match r with
    | None => kernel_ok T (i_kern (wake y')) /\ call_at (CallInfo (c_tp c) true (c_request c) (c_start c)) Addressed (wake y')
    | Some msg => answer_ok (Answer (c_request c) msg (i_rxbuf y') (i_errors y') (drop (length (c_start c)) (bus (i_dev y')))) /\
        MST (C1 (i_dev y')) = false /\ tref (i_kern y') thread = NULL /\ i_kern y' = i_kern y
    end.
Proof.
  intros (H1 & H2 & H3) (Hs & Hp & Hw) Hk Hc. destruct (current_resumed T c st y Hk Hc Hw) as [Hr Hu].
  unfold continue. rewrite Hc. set (q := c_request c) in *. set (L0 := c_start c) in *. set (msg := p_u (i_kern y) (c_tp c)) in *.
  assert (Hend : (msg = MSG_OK -> writing st = true -> q_rx q = None) ->
    exists r y', txrx_end msg y = Some (r, y') /\
    match r with
    | None => kernel_ok T (i_kern (wake y')) /\ call_at (CallInfo (c_tp c) true q L0) Addressed (wake y')
    | Some msg => answer_ok (Answer q msg (i_rxbuf y') (i_errors y') (drop (length L0) (bus (i_dev y')))) /\
        MST (C1 (i_dev y')) = false /\ tref (i_kern y') thread = NULL /\ i_kern y' = i_kern y
    end).
  { intros Hn. destruct (txrx_end_ok q L0 st msg y Hs) as (y' & E & Eb & Em & Ek & Er & Ee). exists (Some msg), y'. split; [done|].
    split; [|by rewrite Ek]. destruct Hu as [[Eu Et]|[Eu Et]]; rewrite Eu in *.
    - by apply (answer_done q L0 st y Hs Et (Hn eq_refl)).
    - by apply (answer_reset q L0 st y). }
  unfold stage_phase in Hp. fold q in Hp. destruct (c_second c) eqn:E2.
  - apply Hend. intros _ Hwr. by rewrite Hwr in Hp.
  - unfold txrx_middle. destruct ((msg =? MSG_OK) && is_some (q_tx q) && is_some (q_rx q)) eqn:Eb.
    + apply andb_prop in Eb as [[Em%Z.eqb_eq Etx]%andb_prop Erx].
      destruct (q_rx q) as [rx|] eqn:Hrx; [|done].
      assert (st = Sent) as ->.
      { destruct Hu as [[_ Et]|[Eu _]]; [|rewrite Eu in Em; done]. pose proof (as_fits _ _ _ _ Hs) as Hf.
        destruct st; cbn in Hp, Et, Hf; try congruence; lia. }
      destruct (txrx_restart_ok T q L0 y rx Hs Hrx Hk) as (y' & E & Hk' & Ht & Hs'); [by rewrite Hc|done|].
      exists None, y'. unfold txrx_middle in E. change (MSG_OK =? MSG_OK) with true in E. cbn [andb] in E.
      split; [exact E|split; [done|]]. split; [done|]. split; [symmetry; exact Etx|]. unfold I2c.waits. rewrite Ht, Hc. cbn [c_tp].
      destruct (Z.eqb_spec (c_tp c) NULL); [done|]. by split.
    + apply Hend. intros Em Hwr. rewrite Em in Eb. change (MSG_OK =? MSG_OK) with true in Eb. cbn [andb] in Eb.
      pose proof (as_fits _ _ _ _ Hs) as Hf. destruct (q_rx q); [|done].
      assert (Htx : is_Some (q_tx q)) by (destruct st; cbn in Hf, Hwr; (done || by destruct Hf)). by destruct Htx as [tx Htx]; rewrite Htx in Eb.
Qed.

Notation sys_ok := (sys_ok rlist idle fuel kind thread).

Lemma run_i2c_ok o (s : isys D) : sys_ok s -> valid_i2c rlist idle fuel kind thread o s ->
  exists a s', run_i2c rlist fuel thread o s = Some (a, s') /\ sys_ok s' /\ Forall answer_ok a.
Proof.
  intros [(T & Hk & HT) Hs] Hv. destruct o as [config| |q| | |d|k]; cbn [run_i2c valid_i2c] in *; unfold kern in *.
  - destruct Hv as [Hc Hd]. rewrite Hc in *. unfold i2cStart, i2c_lld_start, config_frequency, icr_index. cbn [i_state set_config].
    set (y1 := if _ =? _ then _ else _).
    assert (E1 : i_config y1 = config /\ i_kern y1 = i_kern (drv s) /\ MST (C1 (i_dev y1)) = false).
    { destruct Hs as [Hm Hr]. unfold y1. destruct (_ =? _); [|done]. cbn. by destruct (gate_law true (i_dev (drv s))) as [-> _]. }
    destruct E1 as (-> & Ek & Em). destruct (icr_divisor config) as [dv|]; [|done].
    generalize (icr_loop dv icr_table 0 (u16 (Z.lnot 0)) 0). intros index. eexists _, _. split; [done|]. split; [|done].
    set (y2 := set_dev _ y1). assert (M2 : mode (i_dev y2) = (false, TX (C1 (i_dev y1)), TXAK (C1 (i_dev y1)))).
    { unfold y2. cbn [i_dev set_dev]. destruct (unchanged_mode _ _ (write_F_law index (i_dev y1))) as [-> _].
      unfold mode. by rewrite Em. }
    destruct (enable y2 _ _ _ M2) as [M3 _]. split.
    + exists T. split; [|done]. cbn. by rewrite Ek.
    + cbn [caller]. destruct Hs as [_ Hr]. split; [injection M3; tauto|]. cbn. by rewrite Ek.
  - rewrite Hv in *. eexists _, _. split; [done|]. split; [|done]. unfold i2cStop, i2c_lld_stop.
    destruct (negb _); [|by split; [exists T|]]. split; [by exists T|]. cbn [caller drv]. destruct Hs as [Hm Hr]. split; [|done].
    cbn [i_dev set_dev I2c.set_state]. destruct (gate_law false (i_dev (C1_clear (Z.lor I2Cx_C1_IICEN I2Cx_C1_IICIE) (drv s)))) as [-> _].
    destruct (C1_clear_spec (Z.lor I2Cx_C1_IICEN I2Cx_C1_IICIE) (drv s)) as [Em _].
    etrans; [exact (f_equal (fun m => fst (fst m)) Em)|]. cbn [fst]. unfold MST in *. by rewrite Z.ldiff_spec, Hm.
  - destruct Hv as (Hc & _ & Hq & Hi). rewrite Hc in Hs. destruct Hs as [Hm Hr].
    destruct (begin_ok rlist idle fuel kind thread T q (drv s) Hq Hk Hi Hr Hm) as (y' & -> & Hk' & HT' & Hok & Hat & _).
    eexists _, _. split; [done|]. split; [|done]. split; [|split; [exact Hok|by eexists]].
    exists T. split; [exact Hk'|]. cbn. by intros c [= <-].
  - destruct Hv as (c & Hc & Hcur). rewrite Hc in *. destruct Hs as (Hok & st & Hat).
    destruct (continue_ok T c st (drv s) Hok Hat Hk Hcur) as ([msg|] & y' & -> & Hr).
    + destruct Hr as (Ha & Hm & Ht & Ek). eexists _, _. split; [done|]. split; [|by apply list.Forall_singleton].
      split; [exists T; split; [cbn; by rewrite Ek|done]|]. by split.
    + destruct Hr as [Hk' Hat']. eexists _, _. split; [done|]. split; [|done].
      split; [exists T; split; [exact Hk'|]; cbn; intros ? [= <-]; exact (HT c eq_refl)|]. split; [exact Hok|by eexists].
  - destruct (caller s) as [c|] eqn:Hc; [|done]. destruct Hs as (Hok & st & Hat).
    destruct (isr_call_ok rlist idle fuel kind thread T c st (drv s) Hok Hat Hk) as (st' & y' & -> & Hk' & Hat' & _).
    eexists _, _. split; [done|]. split; [|done]. split; [exists T; split; [exact Hk'|exact HT]|]. split; [done|by eexists].
  - eexists _, _. split; [done|]. split; [|done]. split; [by exists T|]. cbn [caller drv].
    pose proof (device_law _ _ Hv) as Hu. destruct (caller s) as [c|].
    + destruct Hs as (Hok & st & Hat & Hp & Hw). split; [done|]. exists st. split; [by apply at_stage_dev|by split].
    + destruct Hu as [Hu _], Hs as [Hm Hr]. split; [|done]. cbn. by rewrite Hu.
  - destruct Hv as ((T' & Hk' & HT') & Er & Eu). eexists _, _. split; [done|]. split; [|done]. split; [by exists T'|].
    cbn [caller drv]. unfold kern in *. destruct (caller s) as [c|].
    + destruct Hs as (Hok & st & Hat). split; [done|]. exists st. apply call_kern; [done|done|by apply Eu].
    + destruct Hs as [Hm Hr]. split; [done|]. cbn. by rewrite Er.
Qed.

Lemma run_i2cs_ok : forall os (s : isys D), sys_ok s -> valid_i2cs rlist idle fuel kind thread os s ->
  exists a s', run_i2cs rlist fuel thread os s = Some (a, s') /\ sys_ok s' /\ Forall answer_ok a.
Proof.
  induction os as [|o os IH]; intros s Hs Hv; cbn [run_i2cs]; [by exists [], s|]. destruct Hv as [Hv1 Hv2].
  destruct (run_i2c_ok o s Hs Hv1) as (a & s1 & E & Hs1 & Ha). rewrite E.
  destruct (IH s1 Hs1 (Hv2 a s1 E)) as (b & s2 & -> & Hs2 & Hb). exists (a ++ b), s2. split; [done|split; [done|]]. by apply list.Forall_app.
Qed.
End Runs_ok.

(** ** The theorems *)


(** *** Transfers without errors end *)

Definition waiting_op {D} (o : i2c_op D) : Prop := match o with OIrq | ODevice _ | OEnv _ => True | _ => False end.
Fixpoint irqs {D} (os : list (i2c_op D)) : nat :=
  match os with [] => O | OIrq :: os => S (irqs os) | _ :: os => irqs os end.

(** The interrupts of a request before the first and between the first and the second wait. *)
Definition first_irqs (q : request) : nat :=
  match q with QTransmit _ tx _ => S (length tx) | QReceive _ rx => S (length rx) end.
Definition second_irqs (q : request) : nat := S (length (rxl q)).

Section Completion.
Context (rlist idle : Z) (fuel : nat) (kind : gmap Z qkind) (thread : Z).
Context {D : Type} `{I2cLaws D}.
Notation run_i2c := (run_i2c rlist fuel thread).
Notation run_i2cs := (run_i2cs rlist fuel thread).
Notation valid_i2c := (valid_i2c rlist idle fuel kind thread).
Notation valid_i2cs := (valid_i2cs rlist idle fuel kind thread).

(** At every interrupt the byte was acknowledged and the arbitration not lost. *)
Fixpoint clean_run (os : list (i2c_op D)) (s : isys D) : Prop :=
  match os with
  | [] => True
  | o :: os => (o = OIrq -> clean (i_dev (drv s)) = true) /\ forall a s', run_i2c o s = Some (a, s') -> clean_run os s'
  end.

Lemma run_app os1 os2 s a s1 : run_i2cs os1 s = Some (a, s1) ->
  run_i2cs (os1 ++ os2) s = match run_i2cs os2 s1 with None => None | Some (b, s') => Some (a ++ b, s') end.
Proof.
  revert s a. induction os1 as [|o os1 IH]; intros s a; cbn [I2c.run_i2cs app].
  - intros [= <- <-]. by destruct (run_i2cs os2 s) as [[]|].
  - destruct (run_i2c o s) as [[a1 s2]|]; [|done]. destruct (run_i2cs os1 s2) as [[a2 s3]|] eqn:E; [|done].
    intros [= <- <-]. rewrite (IH s2 a2 E). destruct (run_i2cs os2 s3) as [[b s']|]; [|done]. by rewrite app_assoc.
Qed.

Lemma valid_app os1 os2 s a s1 : run_i2cs os1 s = Some (a, s1) -> valid_i2cs (os1 ++ os2) s -> valid_i2cs os2 s1.
Proof.
  revert s a. induction os1 as [|o os1 IH]; intros s a; cbn [I2c.run_i2cs app]; [by intros [= <- <-]|].
  destruct (run_i2c o s) as [[a1 s2]|] eqn:E1; [|done]. destruct (run_i2cs os1 s2) as [[a2 s3]|] eqn:E; [|done].
  intros [= <- <-] [_ Hv]. by apply (IH s2 a2 E), (Hv a1).
Qed.

Lemma clean_app os1 os2 s a s1 : run_i2cs os1 s = Some (a, s1) -> clean_run (os1 ++ os2) s -> clean_run os2 s1.
Proof.
  revert s a. induction os1 as [|o os1 IH]; intros s a; cbn [I2c.run_i2cs app]; [by intros [= <- <-]|].
  destruct (run_i2c o s) as [[a1 s2]|] eqn:E1; [|done]. destruct (run_i2cs os1 s2) as [[a2 s3]|] eqn:E; [|done].
  intros [= <- <-] [_ Hv]. by apply (IH s2 a2 E), (Hv a1).
Qed.

(** A call at a stage, without errors so far. *)
Definition waiting (c : call_info) (st : stage) (s : isys D) : Prop :=
  caller s = Some c /\ i_errors (drv s) = 0 /\ call_ok idle c /\ call_at thread c st (drv s) /\
  exists T, kernel_ok rlist idle fuel kind T (kern s) /\ c_tp c ∈ T.

Lemma waiting_sys c st s : waiting c st s -> sys_ok rlist idle fuel kind thread s.
Proof.
  intros (E & _ & Hok & Hat & T & Hk & HT). split; [exists T; split; [done|]; by intros c' E'; replace c' with c by congruence|].
  rewrite E. split; [done|by exists st].
Qed.

Lemma waiting_run c : forall os more s st, waiting c st s -> Forall waiting_op os -> valid_i2cs (os ++ more) s -> clean_run (os ++ more) s ->
  exists st' s', run_i2cs os s = Some ([], s') /\ waiting c st' s' /\ todo (c_request c) st' = (todo (c_request c) st - irqs os)%nat.
Proof.
  induction os as [|o os IH]; intros more s st Hw Ho Hv Hc; cbn [I2c.run_i2cs irqs].
  - exists st, s. split; [done|split; [done|lia]].
  - apply list.Forall_cons in Ho as [Ho1 Ho2]. destruct Hv as [Hv1 Hv2], Hc as [Hc1 Hc2].
    assert (Hstep : exists st1 s1, run_i2c o s = Some ([], s1) /\ waiting c st1 s1 /\
      todo (c_request c) st1 = (todo (c_request c) st - match o with OIrq => 1 | _ => 0 end)%nat).
    { destruct Hw as (E & He & Hok & Hat & T & Hk & HT). destruct o as [config| |q| | |d|k]; try done; cbn [I2c.run_i2c].
      - destruct (isr_call_ok rlist idle fuel kind thread T c st (drv s) Hok Hat Hk) as (st' & y' & -> & Hk' & Hat' & Hp).
        destruct (Hp (Hc1 eq_refl)) as [He' Ht]. exists st'. eexists. split; [done|]. split; [|lia].
        split; [done|split; [cbn; congruence|split; [done|split; [done|by exists T]]]].
      - exists st. eexists. split; [done|]. split; [|lia]. destruct Hat as (Hs & Hp & Hwt).
        split; [done|split; [done|split; [done|split; [|by exists T]]]]. split; [|by split]. by apply at_stage_dev, device_law.
      - destruct Hv1 as ((T' & Hk' & HT') & Er & Eu). exists st. eexists. split; [done|]. split; [|lia].
        split; [done|split; [done|split; [done|split; [|by exists T'; split; [|by apply HT']]]]].
        apply call_kern; [done|done|by apply Eu]. }
    destruct Hstep as (st1 & s1 & E1 & Hw1 & Ht1). rewrite E1.
    destruct (IH more s1 st1 Hw1 Ho2 (Hv2 _ _ E1) (Hc2 _ _ E1)) as (st' & s' & -> & Hw' & Ht'). exists st', s'.
    split; [done|split; [done|]]. rewrite Ht', Ht1. destruct o; lia.
Qed.

(** The thread has its message when nothing is left to do. *)
Lemma waiting_woken c st s : waiting c st s -> todo (c_request c) st = O -> tref (kern s) thread = NULL /\ p_u (kern s) (c_tp c) = MSG_OK.
Proof.
  intros (_ & He & _ & (_ & _ & Hw) & _) Ht. unfold waits in Hw. unfold kern.
  destruct (Z.eqb_spec (tref (i_kern (drv s)) thread) NULL) as [E|E]; [|by destruct Hw].
  split; [done|]. by destruct Hw as [[? _]|[_ ?]].
Qed.

Lemma continue_result c (y : i2c D) r y' : continue rlist thread c y = Some (r, y') -> i_errors y' = i_errors y /\
  let msg := p_u (i_kern y) (r_current (i_kern y)) in
  r = if negb (c_second c) && ((msg =? MSG_OK) && is_some (q_tx (c_request c)) && is_some (q_rx (c_request c))) then None else Some msg.
Proof.
  unfold continue, txrx_middle, txrx_end.
  destruct (c_second c); cbn [negb andb]; [|destruct ((_ =? _) && _ && _)]; destruct (wait_bus _ _ _); try done; by intros [= <- <-].
Qed.

(** The running thread goes on after a wait without errors. *)
Lemma continue_woken c st s : waiting c st s -> todo (c_request c) st = O -> r_current (kern s) = c_tp c ->
  let second := negb (c_second c) && (is_some (q_tx (c_request c)) && is_some (q_rx (c_request c))) in
  if second
  then exists s', run_i2c OContinue s = Some ([], s') /\
    waiting (CallInfo (c_tp c) true (c_request c) (c_start c)) Addressed s'
  else exists a s', run_i2c OContinue s = Some ([a], s') /\ a_request a = c_request c /\ a_msg a = MSG_OK /\ answer_ok a.
Proof.
  intros Hw Ht Hc second. destruct (waiting_woken c st s Hw Ht) as [_ Hu]. destruct Hw as (E & He & Hok & Hat & T & Hk & HT).
  destruct (continue_ok rlist idle fuel kind thread T c st (drv s) Hok Hat Hk Hc) as (r & y' & Ec & Hr).
  destruct (continue_result c (drv s) r y' Ec) as [Ee Er]. unfold kern in *. cbn zeta in Er. rewrite Hc, Hu in Er.
  change (MSG_OK =? MSG_OK) with true in Er. cbn [andb] in Er. fold second in Er. cbn [I2c.run_i2c]. rewrite E, Ec.
  destruct second; subst r.
  - eexists. split; [done|]. destruct Hr as [Hk' Hat']. split; [done|split; [cbn; congruence|split; [done|split; [done|by exists T]]]].
  - destruct Hr as (Ha & _). eexists _, _. by split.
Qed.
End Completion.


(** ** A module whose slave answers with a list of bytes *)

(** The control register, the error flags of the status register, what was done, and the
    bytes that the slave sends. *)
Record demo_i2c : Type := DemoI2c { di_C1 : Z; di_flags : Z; di_log : list bus_event; di_in : list Z }.

Definition di_push (l : list bus_event) (d : demo_i2c) : demo_i2c := DemoI2c (di_C1 d) (di_flags d) (di_log d ++ l) (di_in d).

#[export] Instance demo_I2cBus : I2cBus demo_i2c := {|
  C1 d := Z.ldiff (u8 (di_C1 d)) I2Cx_C1_RSTA;
  SR d := Z.lor (if flag I2Cx_C1_MST (Z.ldiff (u8 (di_C1 d)) I2Cx_C1_RSTA) then I2Cx_S_BUSY else 0)
                (if di_flags d =? 0 then 0 else if di_flags d =? 1 then I2Cx_S_RXAK else I2Cx_S_ARBL);
  write_C1 v d := DemoI2c v (di_flags d) (di_log d ++ edge (Z.ldiff (u8 (di_C1 d)) I2Cx_C1_RSTA) v) (di_in d);
  write_SR _ d := d;
  write_F _ d := d;
  read_D d :=
    let b := match di_in d with [] => 0 | b :: _ => u8 b end in
    let c := Z.ldiff (u8 (di_C1 d)) I2Cx_C1_RSTA in
    (b, di_push (Got b :: if flag I2Cx_C1_MST c && negb (flag I2Cx_C1_TX c) then [Ask (negb (flag I2Cx_C1_TXAK c))] else [])
          (DemoI2c (di_C1 d) (di_flags d) (di_log d) (tail (di_in d))));
  write_D b d :=
    let c := Z.ldiff (u8 (di_C1 d)) I2Cx_C1_RSTA in
    di_push (if flag I2Cx_C1_MST c && flag I2Cx_C1_TX c then [Send b] else []) d;
  gate _ d := d;
  bus := di_log;
  device d d' := exists f l, d' = DemoI2c (di_C1 d) f (di_log d) l;
  tick d := d;
  patience := 1
|}.

Lemma demo_busy d : flag I2Cx_S_BUSY (SR d) = flag I2Cx_C1_MST (C1 d).
Proof. cbn. by destruct (flag I2Cx_C1_MST _), (di_flags d =? 0), (di_flags d =? 1). Qed.

#[export] Instance demo_i2c_laws : I2cLaws demo_i2c.
Proof.
  constructor; try done.
  - intros d. split; [cbn; apply ldiff_u8, u8_range|]. rewrite flag_RSTA. cbn [C1 demo_I2cBus]. unfold I2Cx_C1_RSTA. c1_bits. done.
  - intros v d Hv. cbn. by rewrite u8_id.
  - intros d. cbn. split; [|done]. destruct (di_in d); [done|apply u8_range].
  - intros d d' (f & l & ->). done.
  - intros d E. exists O. split; [cbn; lia|]. by rewrite demo_busy.
  - intros d E. exists O. split; [cbn; lia|]. by rewrite demo_busy.
Qed.

(** ** A driver with two threads *)

Definition demo_y (k : kernel) : i2c demo_i2c :=
  I2c I2C_READY (Some 100000) 0 0 None 0 0 None 0 0 STATE_STOP (DemoI2c 0xC0 0 [] [17; 5; 6; 7]) k.
Definition demo_sys : isys demo_i2c :=
  ISys (demo_y (default blank (run_event 1000 4 (Call (Create 2100 64)) (sys_init 1000 2000 blank)))) None.

Lemma demo_i2c_kernel_ok : kernel_ok 1000 2000 4 (kinds 1000 []) {[2100; 2000]} (kern demo_sys).
Proof.
  assert (Hb : kernel_ok 1000 2000 4 (kinds 1000 []) {[2000]} (sys_init 1000 2000 blank)).
  { apply (boot_kernel_ok 1000 2000 4 [] blank); [|done|lia]. split; [apply NoDup_ListNoDup; repeat constructor; cbn; lia|split; [done|by intros ? ? []]]. }
  destruct (run_event_ok 1000 2000 4 (kinds 1000 []) {[2000]} _ (Call (Create 2100 64)) Hb) as (k & E & Hk).
  - split; [done|split; [set_solver|split; [by vm_compute|split; [done|]]]]. apply Nat.leb_le. by vm_compute.
  - unfold demo_sys, kern, demo_y. cbn [drv i_kern]. rewrite E. exact Hk.
Qed.

Lemma demo_sys_ok : sys_ok 1000 2000 4 (kinds 1000 []) 7000 demo_sys.
Proof. split; [exists {[2100; 2000]}; split; [apply demo_i2c_kernel_ok|done]|]. by vm_compute. Qed.

Lemma valid_i2c_step os o (s : isys demo_i2c) : valid_i2c 1000 2000 4 (kinds 1000 []) 7000 o s ->
  valid_i2cs 1000 2000 4 (kinds 1000 []) 7000 os (default s (snd <$> run_i2c 1000 4 7000 o s)) ->
  valid_i2cs 1000 2000 4 (kinds 1000 []) 7000 (o :: os) s.
Proof. intros H1 H2. split; [done|]. intros a s' E. by rewrite E in H2. Qed.

Lemma clean_step os o (s : isys demo_i2c) : (o = OIrq -> clean (i_dev (drv s)) = true) ->
  clean_run 1000 4 7000 os (default s (snd <$> run_i2c 1000 4 7000 o s)) -> clean_run 1000 4 7000 (o :: os) s.
Proof. intros H1 H2. split; [done|]. intros a s' E. by rewrite E in H2. Qed.

(** Thread 2100 writes two bytes to slave 0x50 and reads two. *)
Definition demo_request : request := QTransmit 0x50 [1; 2] (Some [0; 0]).
Definition demo_run : list (i2c_op demo_i2c) :=
  OBegin demo_request :: [OIrq; OIrq; OIrq] ++ OContinue :: [OIrq; OIrq; OIrq] ++ [OContinue].

Lemma demo_i2c_run_valid : valid_i2cs 1000 2000 4 (kinds 1000 []) 7000 demo_run demo_sys.
Proof.
  unfold demo_run. cbn [app].
  apply valid_i2c_step; [split; [done|split; [done|split; [|by vm_compute]]]; (split; [done|split; [done|done]])|].
  do 3 (apply valid_i2c_step; [by vm_compute|]). apply valid_i2c_step; [vm_compute; by eexists|].
  do 3 (apply valid_i2c_step; [by vm_compute|]). apply valid_i2c_step; [vm_compute; by eexists|]. exact I.
Qed.

Lemma demo_run_clean : clean_run 1000 4 7000 demo_run demo_sys.
Proof. unfold demo_run. cbn [app]. do 9 (apply clean_step; [by vm_compute|]). exact I. Qed.

(** The answer of a run, without the proofs' context. *)
Definition answers (r : option (list answer * isys demo_i2c)) : option (list answer) := fst <$> r.

Definition demo_dialogue : list bus_event :=
  [Start; Send 0xA0; Send 1; Send 2; Restart; Send 0xA1; Got 17; Ask true; Got 5; Ask false; Stop; Got 6].



(** ** Where the driver fails *)

(** The check of i2cMasterTransmitTimeout (enabled by the debug options only). *)
Definition i2cMasterTransmit_check (addr : Z) (txbuf : option (list Z)) (txbytes : Z) (rxbuf : option (list Z)) (rxbytes : Z) : bool :=
  negb (addr =? 0) && (0 <? txbytes) && is_some txbuf && ((rxbytes =? 0) || (0 <? rxbytes) && is_some rxbuf).


