(* ===== verification/SchedFrames.v ===== *)
(** What the operations of [Sched] leave alone: the timers that are armed, and the thread
    references, except those that an operation names. *)
From S2P Require Import Prelude Queues Sched SchedOk Kernel.
Local Open Scope Z_scope.

(** The time-out of a call that sleeps with one. *)
Definition time_of (c : syscall) : option Z :=
  match c with
  | SemWaitTimeout _ time | Sleep time | SuspendTimeout _ time | EnqueueTimeout _ time => Some time
  | _ => None
  end.

(** The reference that an operation uses. *)
Definition ref_of (c : syscall) : option Z :=
  match c with Suspend trp | SuspendTimeout trp _ | Resume trp _ => Some trp | _ => None end.
Definition isr_ref (k : kernel) (o : isr_op) : option Z :=
  match o with
  | IResume trp _ => Some trp
  | ITimeout tp => match p_state k tp with CH_STATE_SUSPENDED => Some (p_u k tp) | _ => None end
  | _ => None
  end.

(** [k'] differs from [k] neither in the armed timers nor in the references. *)
Definition frame (k k' : kernel) : Prop := armed k' = armed k /\ tref k' = tref k.
Definition framed (k : kernel) (r : option kernel) : Prop := forall k', r = Some k' -> frame k k'.

Lemma frame_trans k1 k2 k3 : frame k1 k2 -> frame k2 k3 -> frame k1 k3.
Proof. intros [A1 A2] [B1 B2]. split; congruence. Qed.

Lemma framed_some k k' : frame k k' -> framed k (Some k').
Proof. by intros H ? [= <-]. Qed.

Lemma framed_from k k1 r : frame k k1 -> framed k1 r -> framed k r.
Proof. intros H1 H2 k' E. by apply (frame_trans k k1), H2. Qed.

Section Frames.
Context (rlist : Z) (fuel : nat).

Lemma fifo_frame q k : frame k (snd (fifo_remove q k)).
Proof. unfold fifo_remove. by destruct (queue_fifo_remove q (lk k)). Qed.

Lemma lifo_frame q k : frame k (snd (lifo_remove q k)).
Proof. unfold lifo_remove. by destruct (queue_lifo_remove q (lk k)). Qed.

Lemma readyI_frame tp k : framed k (chSchReadyI rlist fuel tp k).
Proof. intros k' E. unfold chSchReadyI in E. destruct (prio_scan _ _ _ _); [|done]. by injection E as <-. Qed.

Lemma sleep_frame st k : frame k (chSchGoSleepS rlist st k).
Proof.
  unfold chSchGoSleepS. set (k1 := Sched.set_preempt _ _ _).
  pose proof (fifo_frame rlist k1) as H. by destruct (fifo_remove rlist k1).
Qed.

Lemma sleep_timeout_frame st time k : let k' := chSchGoSleepTimeoutS rlist st time k in
  tref k' = tref k /\ armed k' = if time =? TIME_INFINITE then armed k else upd (r_current k) true (armed k).
Proof.
  unfold chSchGoSleepTimeoutS. destruct (time =? TIME_INFINITE); cbn [negb].
  - by destruct (sleep_frame st k).
  - by destruct (sleep_frame st (Sched.set_armed (r_current k) true k)).
Qed.

Lemma wakeupS_frame ntp msg k : framed k (chSchWakeupS rlist fuel ntp msg k).
Proof.
  unfold chSchWakeupS. destruct (_ <=? _).
  - by apply (framed_from k (set_u ntp msg k)), readyI_frame.
  - intros k'. destruct (chSchReadyI rlist fuel (r_current (set_u ntp msg k)) (set_u ntp msg k)) as [k1|] eqn:E; [|done].
    intros [= <-]. by apply readyI_frame in E.
Qed.

Lemma behind_frame k : framed k (chSchDoRescheduleBehind rlist fuel k).
Proof.
  unfold chSchDoRescheduleBehind. pose proof (fifo_frame rlist k) as H. destruct (fifo_remove rlist k) as [tp k1].
  apply (framed_from k k1); [exact H|]. intros k' E. by apply readyI_frame in E.
Qed.

Lemma ahead_frame k : framed k (chSchDoRescheduleAhead rlist fuel k).
Proof.
  unfold chSchDoRescheduleAhead. pose proof (fifo_frame rlist k) as H. destruct (fifo_remove rlist k) as [tp k1].
  apply (framed_from k k1); [exact H|]. intros k'. destruct (prio_scan _ _ _ _); [|done]. by intros [= <-].
Qed.

Lemma reschedule_frame k : framed k (chSchRescheduleS rlist fuel k).
Proof. unfold chSchRescheduleS. destruct (chSchIsRescRequiredI _ _); [apply ahead_frame|by apply framed_some]. Qed.

Lemma do_reschedule_frame k : framed k (chSchDoReschedule rlist fuel k).
Proof. unfold chSchDoReschedule. destruct (_ =? 0); [apply behind_frame|apply ahead_frame]. Qed.

Lemma epilogue_frame k : framed k (irq_epilogue rlist fuel k).
Proof. unfold irq_epilogue. destruct (chSchIsPreemptionRequired _ _); [apply do_reschedule_frame|by apply framed_some]. Qed.

(** The first thread of a queue is taken and woken. *)
Lemma take_frame q (f : Z -> kernel -> option kernel) k : (forall tp k, framed k (f tp k)) ->
  framed k (let '(tp, k) := fifo_remove q k in f tp k).
Proof.
  intros Hf. pose proof (fifo_frame q k) as H. destruct (fifo_remove q k) as [tp k1]. by apply (framed_from k k1), Hf.
Qed.

Lemma ready_msg_frame msg tp k : framed k (chSchReadyI rlist fuel tp (set_u tp msg k)).
Proof. by apply (framed_from k (set_u tp msg k)), readyI_frame. Qed.

Lemma then_set_frame r k (g : kernel -> option kernel) : framed k r -> (forall k, framed k (g k)) ->
  framed k (match r with None => None | Some k => g k end).
Proof. intros Hr Hg. destruct r as [k1|]; [|done]. apply (framed_from k k1); [by apply Hr|apply Hg]. Qed.

Lemma set_u_frame tp msg k r : framed (set_u tp msg k) r -> framed k r.
Proof. intros H. by apply (framed_from k (set_u tp msg k)). Qed.

Lemma reset_loop_frame sp : forall n cnt k, framed k (reset_loop rlist fuel n sp cnt k).
Proof.
  induction n as [|n IH]; intros cnt k; cbn [reset_loop]; [done|]. destruct (_ <=? 0); [|by apply framed_some].
  pose proof (lifo_frame sp k) as H. destruct (lifo_remove sp k) as [tp k1]. apply (framed_from k k1); [exact H|].
  apply then_set_frame; [apply readyI_frame|]. intros k2. apply (set_u_frame tp MSG_RESET), IH.
Qed.

Lemma resetI_frame sp n k : framed k (chSemResetI rlist fuel sp n k).
Proof. unfold chSemResetI. by apply (framed_from k (set_cnt sp n k)), reset_loop_frame. Qed.

Lemma add_unit_frame sp k : framed k (add_unit rlist fuel sp k).
Proof.
  unfold add_unit. set (k1 := set_cnt _ _ k). apply (framed_from k k1); [done|]. destruct (_ <=? 0); [|by apply framed_some].
  apply (take_frame sp (fun tp k => match chSchReadyI rlist fuel tp k with None => None | Some k => Some (set_u tp MSG_OK k) end)).
  intros tp k2. apply then_set_frame; [apply readyI_frame|]. intros k3. by apply framed_some.
Qed.

Lemma add_loop_frame sp : forall n k, framed k (add_loop rlist fuel n sp k).
Proof.
  induction n as [|n IH]; intros k; cbn [add_loop]; [by apply framed_some|]. apply then_set_frame; [apply add_unit_frame|apply IH].
Qed.

Lemma broadcast_frame cp : forall n k, framed k (broadcast_loop rlist fuel n cp k).
Proof.
  induction n as [|n IH]; intros k; cbn [broadcast_loop]; [done|]. destruct (queue_notempty _ _); [|by apply framed_some].
  apply (take_frame cp (fun tp k => match chSchReadyI rlist fuel tp k with None => None | Some k => broadcast_loop rlist fuel n cp (set_u tp MSG_RESET k) end)).
  intros tp k1. apply then_set_frame; [apply readyI_frame|]. intros k2. apply (set_u_frame tp MSG_RESET), IH.
Qed.

Lemma dequeue_next_frame tqp msg k : framed k (chThdDoDequeueNextI rlist fuel tqp msg k).
Proof.
  unfold chThdDoDequeueNextI. apply (take_frame tqp (fun tp k => chSchReadyI rlist fuel tp (set_u tp msg k))).
  intros tp k1. apply ready_msg_frame.
Qed.

Lemma dequeue_all_frame tqp msg : forall n k, framed k (dequeue_all rlist fuel n tqp msg k).
Proof.
  induction n as [|n IH]; intros k; cbn [dequeue_all]; [done|]. destruct (queue_notempty _ _); [|by apply framed_some].
  apply then_set_frame; [apply dequeue_next_frame|apply IH].
Qed.

Lemma condBroadcast_frame cp k : framed k (chCondBroadcast rlist fuel cp k).
Proof. unfold chCondBroadcast. apply then_set_frame; [apply broadcast_frame|apply reschedule_frame]. Qed.

Lemma semSignal_frame sp k : framed k (chSemSignal rlist fuel sp k).
Proof.
  unfold chSemSignal. set (k1 := set_cnt _ _ k). apply (framed_from k k1); [done|]. destruct (_ <=? 0); [|by apply framed_some].
  apply (take_frame sp (fun tp k => chSchWakeupS rlist fuel tp MSG_OK k)). intros tp k2. apply wakeupS_frame.
Qed.

Lemma semSignalI_frame sp k : framed k (chSemSignalI rlist fuel sp k).
Proof.
  unfold chSemSignalI. set (k1 := set_cnt _ _ k). apply (framed_from k k1); [done|]. destruct (_ <=? 0); [|by apply framed_some].
  apply (take_frame sp (fun tp k => chSchReadyI rlist fuel tp (set_u tp MSG_OK k))). intros tp k2. apply ready_msg_frame.
Qed.

Lemma condSignal_frame cp k : framed k (chCondSignal rlist fuel cp k).
Proof.
  unfold chCondSignal. destruct (queue_notempty _ _); [|by apply framed_some].
  apply (take_frame cp (fun tp k => chSchWakeupS rlist fuel tp MSG_OK k)). intros tp k2. apply wakeupS_frame.
Qed.

Lemma condSignalI_frame cp k : framed k (chCondSignalI rlist fuel cp k).
Proof.
  unfold chCondSignalI. destruct (queue_notempty _ _); [|by apply framed_some].
  apply (take_frame cp (fun tp k => chSchReadyI rlist fuel tp (set_u tp MSG_OK k))). intros tp k2. apply ready_msg_frame.
Qed.

Lemma signalWait_frame sps spw k : framed k (snd_opt (chSemSignalWait rlist fuel sps spw k)).
Proof.
  unfold chSemSignalWait. destruct (add_unit rlist fuel sps k) as [k1|] eqn:E; [|done].
  apply add_unit_frame in E. apply (framed_from k k1); [exact E|]. set (k2 := set_cnt spw _ k1).
  destruct (_ <? 0); [|destruct (chSchRescheduleS rlist fuel k2) as [k3|] eqn:E3; [|done]; apply framed_some].
  - cbn [snd_opt]. apply framed_some. apply (frame_trans k1 (set_u (r_current k2) spw (sem_insert (r_current k2) spw k2))); [done|apply sleep_frame].
  - by apply reschedule_frame in E3.
Qed.

Lemma setPriority_frame prio k : framed k (snd_opt (chThdSetPriority rlist fuel prio k)).
Proof.
  unfold chThdSetPriority. set (k1 := set_realprio _ _ _). assert (H1 : frame k k1) by (unfold k1; by destruct (_ || _)).
  destruct (chSchRescheduleS rlist fuel k1) as [k2|] eqn:E; [|done]. apply framed_some. apply reschedule_frame in E.
  by apply (frame_trans k k1).
Qed.

(** *** System calls and interrupts *)

Lemma call_armed c k k' : run_call rlist fuel c k = Some k' -> armed k' = armed k \/
  exists time, time_of c = Some time /\ time <> TIME_INFINITE /\ time <> TIME_IMMEDIATE /\ armed k' = upd (r_current k) true (armed k) \/
  c = Sleep TIME_IMMEDIATE /\ armed k' = upd (r_current k) true (armed k).
Proof.
  assert (Hs : forall st time k1, armed k1 = armed k -> r_current k1 = r_current k -> armed (chSchGoSleepTimeoutS rlist st time k1) = armed k \/
    time <> TIME_INFINITE /\ armed (chSchGoSleepTimeoutS rlist st time k1) = upd (r_current k) true (armed k)).
  { intros st time k1 E1 E2. destruct (sleep_timeout_frame st time k1) as [_ ->]. rewrite E1, E2.
    destruct (Z.eqb_spec time TIME_INFINITE); [by left|by right]. }
  assert (Hf : forall r, framed k r -> r = Some k' -> armed k' = armed k) by (intros r Hr E; apply (Hr k' E)).
  destruct c as [sp|sp time|sp|sp n|sps spw| |time|prio|trp|trp time|trp msg|tqp time|cp|cp|tp prio]; cbn [run_call time_of]; intros E.
  - left. injection E as <-. unfold chSemWait, chSemWaitS. set (k1 := set_cnt _ _ k). destruct (_ <? 0); cbn [snd]; [|done].
    by destruct (sleep_frame CH_STATE_WTSEM (sem_insert (r_current (set_u (r_current k1) sp k1)) sp (set_u (r_current k1) sp k1))) as [-> _].
  - injection E as <-. unfold chSemWaitTimeout, chSemWaitTimeoutS. set (k1 := set_cnt _ _ k). destruct (_ <? 0); cbn [snd]; [|by left].
    destruct (Z.eqb_spec time TIME_IMMEDIATE) as [|Hi]; [by left|]. cbn [snd].
    destruct (Hs CH_STATE_WTSEM time (sem_insert (r_current (set_u (r_current k1) sp k1)) sp (set_u (r_current k1) sp k1)) eq_refl eq_refl) as [->|[? ->]]; [by left|].
    right. exists time. by left.
  - left. by apply (Hf _ (semSignal_frame sp k)).
  - left. refine (Hf _ _ E). unfold chSemReset. apply then_set_frame; [apply resetI_frame|apply reschedule_frame].
  - left. by apply (Hf _ (signalWait_frame sps spw k)).
  - left. refine (Hf _ _ E). unfold chThdYield, chSchDoYieldS. destruct (chSchCanYieldS _ _); [apply behind_frame|by apply framed_some].
  - injection E as <-. destruct (Hs CH_STATE_SLEEPING time k eq_refl eq_refl) as [?|[? E]]; [by left|]. right. exists time.
    destruct (decide (time = TIME_IMMEDIATE)) as [->|]; [by right|by left].
  - left. by apply (Hf _ (setPriority_frame prio k)).
  - left. injection E as <-. unfold chThdSuspendS.
    by destruct (sleep_frame CH_STATE_SUSPENDED (set_u (r_current k) trp (set_tref trp (r_current k) k))) as [-> _].
  - injection E as <-. unfold chThdSuspendTimeoutS. destruct (Z.eqb_spec time TIME_IMMEDIATE); [by left|]. cbn [snd].
    destruct (Hs CH_STATE_SUSPENDED time (set_u (r_current k) trp (set_tref trp (r_current k) k)) eq_refl eq_refl) as [->|[? ->]]; [by left|].
    right. exists time. by left.
  - left. unfold chThdResume, chThdResumeS in E. destruct (negb _); [|by injection E as <-].
    apply wakeupS_frame in E. by destruct E.
  - injection E as <-. unfold chThdEnqueueTimeoutS. destruct (Z.eqb_spec time TIME_IMMEDIATE); [by left|]. cbn [snd].
    destruct (Hs CH_STATE_QUEUED time (set_lk (queue_insert (r_current k) tqp (lk k)) k) eq_refl eq_refl) as [->|[? ->]]; [by left|].
    right. exists time. by left.
  - left. by apply (Hf _ (condSignal_frame cp k)).
  - left. by apply (Hf _ (condBroadcast_frame cp k)).
  - left. unfold chThdCreateStatic in E. apply wakeupS_frame in E. by destruct E.
Qed.

Lemma call_tref c k k' trp : run_call rlist fuel c k = Some k' -> ref_of c <> Some trp -> tref k' trp = tref k trp.
Proof.
  assert (Hs : forall st time k1, tref (chSchGoSleepTimeoutS rlist st time k1) = tref k1) by (intros; apply sleep_timeout_frame).
  assert (Hf : forall r, framed k r -> r = Some k' -> tref k' trp = tref k trp) by (intros r Hr E; by rewrite (proj2 (Hr k' E))).
  destruct c as [sp|sp time|sp|sp n|sps spw| |time|prio|trp'|trp' time|trp' msg|tqp time|cp|cp|tp prio]; cbn [run_call ref_of]; intros E Hn.
  - injection E as <-. unfold chSemWait, chSemWaitS. set (k1 := set_cnt _ _ k). destruct (_ <? 0); cbn [snd]; [|done].
    by destruct (sleep_frame CH_STATE_WTSEM (sem_insert (r_current (set_u (r_current k1) sp k1)) sp (set_u (r_current k1) sp k1))) as [_ ->].
  - injection E as <-. unfold chSemWaitTimeout, chSemWaitTimeoutS. set (k1 := set_cnt _ _ k). destruct (_ <? 0); cbn [snd]; [|done].
    destruct (time =? TIME_IMMEDIATE); [done|]. cbn [snd]. by rewrite Hs.
  - by apply (Hf _ (semSignal_frame sp k)).
  - refine (Hf _ _ E). unfold chSemReset. apply then_set_frame; [apply resetI_frame|apply reschedule_frame].
  - by apply (Hf _ (signalWait_frame sps spw k)).
  - refine (Hf _ _ E). unfold chThdYield, chSchDoYieldS. destruct (chSchCanYieldS _ _); [apply behind_frame|by apply framed_some].
  - injection E as <-. unfold chThdSleep, chThdSleepS. by rewrite Hs.
  - by apply (Hf _ (setPriority_frame prio k)).
  - injection E as <-. unfold chThdSuspendS.
    destruct (sleep_frame CH_STATE_SUSPENDED (set_u (r_current k) trp' (set_tref trp' (r_current k) k))) as [_ ->]. cbn. rewrite upd_ne; congruence.
  - injection E as <-. unfold chThdSuspendTimeoutS. destruct (time =? TIME_IMMEDIATE); [done|]. cbn [snd]. rewrite Hs. cbn. rewrite upd_ne; congruence.
  - unfold chThdResume, chThdResumeS in E. destruct (negb _); [|by injection E as <-].
    apply wakeupS_frame in E. destruct E as [_ ->]. cbn. rewrite upd_ne; congruence.
  - injection E as <-. unfold chThdEnqueueTimeoutS. destruct (time =? TIME_IMMEDIATE); [done|]. cbn [snd]. by rewrite Hs.
  - by apply (Hf _ (condSignal_frame cp k)).
  - by apply (Hf _ (condBroadcast_frame cp k)).
  - unfold chThdCreateStatic in E. apply wakeupS_frame in E. by destruct E as [_ ->].
Qed.

Lemma timeout_tref tp k k' trp : timeout rlist fuel tp k = Some k' -> isr_ref k (ITimeout tp) <> Some trp -> tref k' trp = tref k trp.
Proof.
  unfold timeout, wakeup. cbn [isr_ref]. change (p_state (set_armed tp false k) tp) with (p_state k tp).
  change (p_u (set_armed tp false k) tp) with (p_u k tp). intros E Hn.
  destruct (p_state k tp); try (by injection E as <-); apply readyI_frame in E; destruct E as [_ ->]; try done.
  cbn. rewrite upd_ne; congruence.
Qed.

Lemma isr_tref o k k' trp : run_isr rlist fuel o k = Some k' -> isr_ref k o <> Some trp -> tref k' trp = tref k trp.
Proof.
  assert (Hf : forall r, framed k r -> r = Some k' -> tref k' trp = tref k trp) by (intros r Hr E; by rewrite (proj2 (Hr k' E))).
  destruct o as [sp|sp n|sp n|trp' msg|tqp msg|tqp msg|cp|cp|tp|]; cbn [run_isr]; intros E Hn.
  - by apply (Hf _ (semSignalI_frame sp k)).
  - by apply (Hf _ (add_loop_frame sp (Z.to_nat n) k)).
  - by apply (Hf _ (resetI_frame sp n k)).
  - unfold chThdResumeI in E. destruct (negb _); [|by injection E as <-].
    apply readyI_frame in E. destruct E as [_ ->]. cbn in *. rewrite upd_ne; congruence.
  - refine (Hf _ _ E). unfold chThdDequeueNextI. destruct (queue_notempty _ _); [apply dequeue_next_frame|by apply framed_some].
  - by apply (Hf _ (dequeue_all_frame tqp msg fuel k)).
  - by apply (Hf _ (condSignalI_frame cp k)).
  - by apply (Hf _ (broadcast_frame cp fuel k)).
  - by apply (timeout_tref tp).
  - injection E as <-. unfold sys_tick. by destruct (_ <? _).
Qed.
End Frames.
