(* ===== verification/Clock.v ===== *)
(** Time: the kernel of [Kernel] with the virtual timers of [Timers] under it
    (chSchGoSleepTimeoutS and wakeup of os/rt/src/chschd.c, chSysTimerHandlerI of
    os/rt/src/chsys.c), the sleeps of os/rt/src/chthreads.c, the conversions of
    os/rt/include/chvt.h, and orchard/arduino-time.c.

    [Sched] abstracts the timer of a thread that sleeps with a time-out to a flag [armed],
    and lets it expire at any time.  Here the timer is a virtual timer, at the address
    [p_vt] of the thread; its function is [wakeup].  Other timers, with functions that set
    and reset such timers ([prog]), share the list.

    Proved, for any sequence of system calls, interrupts, ticks and calls for other timers
    from the start of the system: every step succeeds and is a sequence of steps of
    [Kernel], and a thread is [armed] exactly when its timer is; a thread that sleeps, with
    delay() or until a system time, is ready at the tick it asked for and not before; the
    clock of the Arduino layer counts the ticks; the values for which the conversions are
    exact; and what a delay of zero, or one that overflows to zero, does. *)
From S2P Require Import Prelude Timers Queues Sched SchedOk Kernel SchedFrames.
Local Open Scope Z_scope.

Definition CH_CFG_ST_FREQUENCY : Z := 1000.

(** ** Conversions

    Of a 32-bit argument; the sum of [ST2S] is one of 32 bits. *)

Definition S2ST (sec : Z) : Z := u32 (u32 sec * CH_CFG_ST_FREQUENCY).
Definition MS2ST (msec : Z) : Z := u32 (u32 (u32 msec * CH_CFG_ST_FREQUENCY) + 999) / 1000.
Definition US2ST (usec : Z) : Z := u32 (u32 (u32 usec * CH_CFG_ST_FREQUENCY) + 999999) / 1000000.
Definition ST2S (n : Z) : Z := u64 (u32 (n + CH_CFG_ST_FREQUENCY) - 1) / CH_CFG_ST_FREQUENCY.
Definition ST2MS (n : Z) : Z := u64 (n * 1000 + CH_CFG_ST_FREQUENCY - 1) / CH_CFG_ST_FREQUENCY.
Definition ST2US (n : Z) : Z := u64 (n * 1000000 + CH_CFG_ST_FREQUENCY - 1) / CH_CFG_ST_FREQUENCY.

(** ** The kernel with its timers *)

Record tkernel : Type := TK { tk : kernel; tv : vtimers }.

Section Clock.
Context (rlist : Z) (fuel vfuel : nat) (p_vt : Z -> Z) (wakeup_fn : Z) (prog : Z -> Z -> list vt_call).

(** The call of the function of a timer. *)
Definition vt_function (fn par : Z) (st : vtimers * kernel) : option (vtimers * kernel) :=
  let '(s, k) := st in
  if fn =? wakeup_fn then match timeout rlist fuel par k with None => None | Some k => Some (s, k) end
  else match run_calls vfuel (prog fn par) s with None => None | Some s => Some (s, k) end.

Definition chSysTimerHandlerI (st : tkernel) : option (list (Z * Z * Z) * tkernel) :=
  match chVTDoTickI vt_function vfuel (tv st, sys_tick (tk st)) with
  | None => None
  | Some ((s, k), fired) => Some (fired, TK k s)
  end.

(** The interrupt of the system timer. *)
Definition SysTick_Handler (st : tkernel) : option tkernel :=
  match chSysTimerHandlerI st with
  | None => None
  | Some (_, st) => match irq_epilogue rlist fuel (tk st) with None => None | Some k => Some (TK k (tv st)) end
  end.

(** chSchGoSleepTimeoutS: the timer is set before the switch to another thread... *)
Definition vt_start (time cur : Z) (s : vtimers) : option vtimers :=
  chVTDoSetI vfuel (p_vt cur) time wakeup_fn cur s.
(** ... and reset, if it is still armed, after the switch back. *)
Definition vt_resume (st : tkernel) : tkernel :=
  let cur := r_current (tk st) in
  TK (timeout_resume (tk st)) (if chVTIsArmedI (p_vt cur) (tv st) then chVTDoResetI (p_vt cur) (tv st) else tv st).

(** A system call, which has set the timer if the thread went to sleep with a time-out. *)
Definition timed_call (c : syscall) (st : tkernel) : option tkernel :=
  let cur := r_current (tk st) in
  match Kernel.run_call rlist fuel c (tk st) with
  | None => None
  | Some k =>
      match (match time_of c with
             | Some time => if armed k cur then vt_start time cur (tv st) else Some (tv st)
             | None => Some (tv st)
             end) with
      | None => None
      | Some s => Some (TK k s)
      end
  end.

Definition chThdSleepUntil (time : Z) (st : tkernel) : option tkernel :=
  let time := u32 (time - chVTGetSystemTimeX (tv st)) in
  if 0 <? time then timed_call (Sleep time) st else Some st.

Definition chThdSleepUntilWindowed (prev next : Z) (st : tkernel) : option (Z * tkernel) :=
  let time := chVTGetSystemTimeX (tv st) in
  match (if chVTIsTimeWithinX time prev next then timed_call (Sleep (u32 (next - time))) st else Some st) with
  | None => None
  | Some st => Some (next, st)
  end.

(** ** arduino-time.c *)

Definition millis (app_start_time : Z) (st : tkernel) : Z := u32 (ST2MS (chVTTimeElapsedSinceX app_start_time (tv st))).
Definition micros (app_start_time : Z) (st : tkernel) : Z := u32 (ST2US (chVTTimeElapsedSinceX app_start_time (tv st))).
Definition delay (msecs : Z) (st : tkernel) : option tkernel := timed_call (Sleep (MS2ST msecs)) st.
Definition delayMicroseconds (usecs : Z) (st : tkernel) : option tkernel := timed_call (Sleep (US2ST usecs)) st.

(** ** Sequences of events *)

Inductive tevent : Type := TCall (c : syscall) | TIrq (os : list isr_op) | TTick | TTimer (c : vt_call).

Definition run_tevent (e : tevent) (st : tkernel) : option tkernel :=
  match e with
  | TCall c => match timed_call c st with None => None | Some st => Some (vt_resume st) end
  | TIrq os =>
      match run_isrs rlist fuel os (tk st) with
      | None => None
      | Some k => match irq_epilogue rlist fuel k with None => None | Some k => Some (vt_resume (TK k (tv st))) end
      end
  | TTick => match SysTick_Handler st with None => None | Some st => Some (vt_resume st) end
  | TTimer c => match Timers.run_call vfuel c (tv st) with None => None | Some s => Some (TK (tk st) s) end
  end.

Fixpoint run_tevents (es : list tevent) (st : tkernel) : option tkernel :=
  match es with
  | [] => Some st
  | e :: es => match run_tevent e st with None => None | Some st => run_tevents es st end
  end.

Definition tthreads_after (e : tevent) (T : gset Z) : gset Z :=
  match e with TCall c => threads_after (Call c) T | _ => T end.
End Clock.

(** ** The timers that fire in a tick *)

(** The functions of timers preserve a property of timers and fire those that have it. *)
Lemma spec_fire_inv (P : timer -> Prop) prog : (forall fn par id d f p, In (CallSet id d f p) (prog fn par) -> P (Timer id d f p)) ->
  (forall id a b f p, P (Timer id a f p) -> P (Timer id b f p)) ->
  forall n l l' fired, (forall t, In t l -> P t) -> spec_fire prog n l = Some (l', fired) ->
  (forall t, In t l' -> P t) /\ forall i fn par, In (i, fn, par) fired -> P (Timer i 0 fn par).
Proof.
  intros Hprog Hleft. induction n as [|n IH]; cbn [spec_fire]; [done|]. intros [|t l] l' fired Hl E.
  - injection E as <- <-. done.
  - destruct (t_left t =? 0); [|by injection E as <- <-].
    destruct (spec_fire prog n _) as [[l2 f2]|] eqn:E2; [|done]. injection E as <- <-.
    assert (Hcs : forall cs l, (forall id d f p, In (CallSet id d f p) cs -> P (Timer id d f p)) -> (forall t, In t l -> P t) ->
      forall t, In t (fold_left spec_call cs l) -> P t).
    { clear. induction cs as [|c cs IH]; intros l Hc Hl; cbn; [done|]. apply IH; [intros; apply Hc; by right|].
      intros t Ht. destruct c as [id d f p|id]; cbn in Ht.
      - apply spec_insert_in in Ht as [->|[Ht _]%spec_reset_in]; [apply Hc; by left|by apply Hl].
      - apply spec_reset_in in Ht as [Ht _]. by apply Hl. }
    destruct (IH _ l2 f2 (Hcs _ _ (Hprog (t_func t) (t_par t)) (fun u Hu => Hl u (or_intror Hu))) E2) as [H1 H2].
    split; [done|]. intros i fn par [[= <- <- <-]|Hin]; [|by apply H2].
    apply (Hleft _ (t_left t)). destruct t. by apply Hl; left.
Qed.

Section Threads.
Context (p_vt : Z -> Z) (wakeup_fn : Z) (Hinj : forall a b, p_vt a = p_vt b -> a = b).

(** The threads whose timers fired. *)
Definition woken_by (fired : list (Z * Z * Z)) : list Z :=
  omap (fun f => if snd (fst f) =? wakeup_fn then Some (snd f) else None) fired.

Lemma woken_by_in fired x : In x (woken_by fired) <-> exists i, In (i, wakeup_fn, x) fired.
Proof.
  unfold woken_by. rewrite <- list_elem_of_In, list_elem_of_omap. split.
  - intros ([[i fn] p] & Hin & E). cbn in E. destruct (Z.eqb_spec fn wakeup_fn) as [->|]; [|done]. injection E as ->.
    exists i. by apply list_elem_of_In.
  - intros [i Hin]. exists (i, wakeup_fn, x). split; [by apply list_elem_of_In|]. cbn. by rewrite Z.eqb_refl.
Qed.

(** Each timer fires once, and the timers with the function [wakeup] are those of threads. *)
Definition once (fired : list (Z * Z * Z)) : Prop :=
  (forall i x, In (i, wakeup_fn, x) fired -> i = p_vt x) /\
  forall x, (length (fired_of (p_vt x) fired) <= 1)%nat.

Lemma once_nodup fired : once fired -> NoDup (woken_by fired).
Proof using Hinj.
  intros [H1 H2]. induction fired as [|[[i fn] p] fired IH]; [constructor|].
  assert (IH' : NoDup (woken_by fired)).
  { apply IH; [intros j x Hj; apply H1; by right|]. intros x. specialize (H2 x). unfold fired_of in *. cbn in H2. destruct (i =? p_vt x); cbn in H2; lia. }
  change (woken_by ((i, fn, p) :: fired)) with
    (match (if fn =? wakeup_fn then Some p else None) with Some x => x :: woken_by fired | None => woken_by fired end).
  destruct (Z.eqb_spec fn wakeup_fn) as [->|]; [|done]. apply list.NoDup_cons. split; [|done].
  rewrite list_elem_of_In, woken_by_in. intros [j Hj]. pose proof (H1 i p (or_introl eq_refl)) as ->.
  pose proof (H1 j p (or_intror Hj)) as ->. specialize (H2 p). unfold fired_of in H2. cbn in H2. rewrite Z.eqb_refl in H2. cbn in H2. fold (fired_of (p_vt p) fired) in H2.
  assert (Hin : In (p_vt p, wakeup_fn, p) (fired_of (p_vt p) fired)) by (apply filter_In; split; [done|cbn; by rewrite Z.eqb_refl]).
  destruct (fired_of (p_vt p) fired); [done|cbn in H2; lia].
Qed.

Context (T : gset Z) (pool : list Z).

(** The armed flags [a] of the threads agree with the list of timers. *)
Record timers_ok (a : Z -> bool) (s : vtimers) (l : list timer) : Prop := {
  to_implements : implements s l;
  to_wf : spec_wf pool l;
  to_positive : positive l;
  to_armed : forall x, x ∈ T -> a x = true <-> In (p_vt x) (ids l);
  to_wake : forall t, In t l -> t_func t = wakeup_fn -> exists x, x ∈ T /\ t_id t = p_vt x /\ t_par t = x;
  to_own : forall t x, In t l -> t_id t = p_vt x -> t_func t = wakeup_fn
}.

(** Calls for other timers. *)
Definition other_call (c : vt_call) : Prop :=
  Timers.valid_call pool c /\ (forall x, call_id c <> p_vt x) /\
  match c with CallSet _ _ fn _ => fn <> wakeup_fn | CallReset _ => True end.

Context (vfuel : nat) (Hpool : (length pool < vfuel)%nat).
Context (Hown : forall x, x ∈ T -> In (p_vt x) pool /\ p_vt x <> vtlist) (Hfn : wakeup_fn <> Timers.NULL).

(** The timer of a thread in the list. *)
Lemma own_timer a s l x : timers_ok a s l -> x ∈ T -> In (p_vt x) (ids l) ->
  exists m, In (Timer (p_vt x) m wakeup_fn x) l /\ 0 < m.
Proof using Hinj.
  intros Hl Hx (t & E & Ht)%in_map_iff. pose proof (to_own _ _ _ Hl t x Ht E) as Ef.
  destruct (to_wake _ _ _ Hl t Ht Ef) as (y & _ & E1 & E2). assert (y = x) as -> by (apply Hinj; congruence).
  exists (t_left t). destruct t as [i m f p]. cbn in *. subst. split; [done|]. by apply (to_positive _ _ _ Hl _ Ht).
Qed.

Lemma valid_own x time : x ∈ T -> 1 <= time < 4294967296 -> Timers.valid_call pool (CallSet (p_vt x) time wakeup_fn x).
Proof using Hown Hfn. intros Hx Ht. destruct (Hown x Hx). split; [done|split; [done|by split]]. Qed.

Lemma positive_call c l : Timers.valid_call pool c -> positive l -> positive (spec_call l c).
Proof.
  intros Hc Hl t Ht. destruct c as [i d f p|i]; cbn in Ht.
  - apply spec_insert_in in Ht as [->|[Ht _]%spec_reset_in]; [|by apply Hl]. destruct Hc as (_ & _ & Hd & _). cbn. lia.
  - apply spec_reset_in in Ht as [Ht _]. by apply Hl.
Qed.

Lemma spec_call_ids c l i : In i (ids (spec_call l c)) <->
  if i =? call_id c then match c with CallSet _ _ _ _ => True | CallReset _ => False end else In i (ids l).
Proof.
  split.
  - intros (t & <- & Ht)%in_map_iff. destruct c as [j d f p|j]; cbn [spec_call call_id] in *.
    + apply spec_insert_in in Ht as [->|[Ht Hne]%spec_reset_in]; [cbn; by rewrite Z.eqb_refl|].
      destruct (Z.eqb_spec (t_id t) j); [done|by apply in_ids].
    + apply spec_reset_in in Ht as [Ht Hne]. destruct (Z.eqb_spec (t_id t) j); [done|by apply in_ids].
  - destruct (Z.eqb_spec i (call_id c)) as [->|Hne].
    + destruct c as [j d f p|j]; [|done]. intros _. cbn. apply in_map_iff. exists (Timer j d f p). split; [done|].
      apply spec_insert_in. by left.
    + intros (t & <- & Ht)%in_map_iff. apply in_ids. apply spec_call_other; [unfold touches; congruence|done].
Qed.

(** A call keeps the agreement: for another timer, ... *)
Lemma other_call_ok a s l c : timers_ok a s l -> other_call c ->
  exists s', Timers.run_call vfuel c s = Some s' /\ timers_ok a s' (spec_call l c) /\
    forall x m, In (Timer (p_vt x) m wakeup_fn x) l -> In (Timer (p_vt x) m wakeup_fn x) (spec_call l c).
Proof using Hpool.
  intros Hl (Hv & Ho & Hf). destruct (run_call_ok pool vfuel Hpool c s l Hv (to_implements _ _ _ Hl) (to_wf _ _ _ Hl)) as (s' & E & H1 & H2 & _).
  exists s'. split; [done|]. split; [constructor; [done|done|by apply positive_call, (to_positive _ _ _ Hl)| | |]|].
  - intros x Hx. rewrite spec_call_ids. destruct (Z.eqb_spec (p_vt x) (call_id c)) as [E'|]; [by destruct (Ho x)|by apply (to_armed _ _ _ Hl)].
  - intros t Ht Ef. destruct c as [i d f p|i]; cbn in Ht, Hf.
    + apply spec_insert_in in Ht as [->|[Ht _]%spec_reset_in]; [done|by apply (to_wake _ _ _ Hl)].
    + apply spec_reset_in in Ht as [Ht _]. by apply (to_wake _ _ _ Hl).
  - intros t x Ht Ei. destruct c as [i d f p|i]; cbn in Ht.
    + apply spec_insert_in in Ht as [->|[Ht _]%spec_reset_in]; [by destruct (Ho x)|by apply (to_own _ _ _ Hl t x)].
    + apply spec_reset_in in Ht as [Ht _]. by apply (to_own _ _ _ Hl t x).
  - intros x m Ht. apply spec_call_other; [|done]. unfold touches. cbn. intros E'. by destruct (Ho x).
Qed.

(** ... the timer of a thread that goes to sleep, ... *)
Lemma set_timer_ok a s l x time : timers_ok a s l -> x ∈ T -> a x = false -> 1 <= time < 4294967296 ->
  exists s' l', vt_start vfuel p_vt wakeup_fn time x s = Some s' /\ timers_ok (upd x true a) s' l' /\
    In (Timer (p_vt x) time wakeup_fn x) l' /\
    forall y m, y <> x -> In (Timer (p_vt y) m wakeup_fn y) l -> In (Timer (p_vt y) m wakeup_fn y) l'.
Proof using Hpool Hown Hfn Hinj.
  intros Hl Hx Ha Ht. set (t := Timer (p_vt x) time wakeup_fn x).
  assert (Hni : ~ In (p_vt x) (ids l)) by (intros Hin; apply (to_armed _ _ _ Hl x Hx) in Hin; congruence).
  destruct (Hown x Hx) as [Hp Hv]. destruct (to_wf _ _ _ Hl) as [Hb Hi].
  pose proof (implements_length pool s l (to_implements _ _ _ Hl) Hi) as Hlen.
  destruct (chVTDoSetI_ok vfuel t s l (to_implements _ _ _ Hl)) as (s' & E & H1 & _); try done; [cbn; lia|lia|].
  exists s', (spec_insert t l). split; [exact E|]. split; [constructor|split].
  - done.
  - split; [intros u [->|Hu]%spec_insert_in; [cbn; lia|by apply Hb]|].
    intros i (u & <- & [->|Hu]%spec_insert_in)%in_map_iff; [done|]. by apply Hi, in_ids.
  - intros u [->|Hu]%spec_insert_in; [cbn; lia|by apply (to_positive _ _ _ Hl)].
  - intros y Hy. assert (Ei : In (p_vt y) (ids (spec_insert t l)) <-> y = x \/ In (p_vt y) (ids l)).
    { split.
      - intros (u & E' & [->|Hu]%spec_insert_in)%in_map_iff; [left; by apply Hinj|right; rewrite <- E'; by apply in_ids].
      - intros [->|(u & E' & Hu)%in_map_iff]; [apply (in_ids t), spec_insert_in; by left|]. rewrite <- E'. apply in_ids, spec_insert_in. by right. }
    rewrite Ei. unfold upd. destruct (Z.eqb_spec y x) as [->|Hne]; [tauto|]. rewrite (to_armed _ _ _ Hl y Hy). tauto.
  - intros u [->|Hu]%spec_insert_in Ef; [by exists x|by apply (to_wake _ _ _ Hl)].
  - intros u y [->|Hu]%spec_insert_in Ei; [done|by apply (to_own _ _ _ Hl u y)].
  - apply spec_insert_in. by left.
  - intros y m _ Hy. apply spec_insert_in. by right.
Qed.

(** ... and of a thread that runs again. *)
Lemma reset_ok a s l x : timers_ok a s l -> x ∈ T ->
  exists l', timers_ok (upd x false a) (if chVTIsArmedI (p_vt x) s then chVTDoResetI (p_vt x) s else s) l' /\
    forall y m, y <> x -> In (Timer (p_vt y) m wakeup_fn y) l -> In (Timer (p_vt y) m wakeup_fn y) l'.
Proof using Hpool Hown Hinj.
  intros Hl Hx. destruct (Hown x Hx) as [Hp Hv].
  assert (Hc : Timers.valid_call pool (CallReset (p_vt x))) by by repeat split.
  destruct (run_call_ok pool vfuel Hpool _ s l Hc (to_implements _ _ _ Hl) (to_wf _ _ _ Hl)) as (s' & [= <-] & H1 & H2 & _).
  exists (spec_call l (CallReset (p_vt x))). split; [constructor|].
  - exact H1.
  - exact H2.
  - by apply positive_call, (to_positive _ _ _ Hl).
  - intros y Hy. rewrite spec_call_ids. cbn [call_id]. unfold upd. destruct (Z.eqb_spec y x) as [->|Hne]; [by rewrite Z.eqb_refl|].
    destruct (Z.eqb_spec (p_vt y) (p_vt x)) as [E|]; [by apply Hinj in E|by apply (to_armed _ _ _ Hl)].
  - intros t [Ht _]%spec_reset_in. by apply (to_wake _ _ _ Hl).
  - intros t y [Ht _]%spec_reset_in. by apply (to_own _ _ _ Hl).
  - intros y m Hne Hy. apply spec_reset_in. split; [done|]. cbn. intros E. by apply Hinj in E.
Qed.

(** The flags after a tick. *)
Definition disarm (ws : list Z) (a : Z -> bool) : Z -> bool := fun x => if in_dec Z.eq_dec x ws then false else a x.

Lemma disarm_in ws a x : In x ws -> disarm ws a x = false.
Proof. intros H. unfold disarm. by destruct (in_dec _ x ws). Qed.
Lemma disarm_out ws a x : ~ In x ws -> disarm ws a x = a x.
Proof. intros H. unfold disarm. by destruct (in_dec _ x ws). Qed.

Context (prog : Z -> Z -> list vt_call) (Hprog : forall fn par, Forall other_call (prog fn par)).

(** The program of the other timers: that of a thread makes no timer calls. *)
Definition prog_of (fn par : Z) : list vt_call := if fn =? wakeup_fn then [] else prog fn par.

Lemma tick_timers_ok a s l : timers_ok a s l ->
  exists s' l' fired, chVTDoTickI (vt_callback prog_of vfuel) vfuel (s, tt) = Some (s', tt, fired) /\
    NoDup (woken_by fired) /\ (forall x, In x (woken_by fired) -> x ∈ T /\ a x = true) /\
    timers_ok (disarm (woken_by fired) a) s' l' /\
    forall x m, x ∈ T -> In (Timer (p_vt x) m wakeup_fn x) l ->
      if m =? 1 then In x (woken_by fired)
      else ~ In x (woken_by fired) /\ In (Timer (p_vt x) (m - 1) wakeup_fn x) l'.
Proof using Hinj Hown Hfn Hpool Hprog.
  intros Hl.
  assert (Hpv : forall fn par, Forall (Timers.valid_call pool) (prog_of fn par)).
  { intros fn par. unfold prog_of. destruct (_ =? _); [constructor|]. specialize (Hprog fn par).
    eapply List.Forall_impl; [|exact Hprog]. by intros c (? & _). }
  assert (Hpo : forall x fn par, Forall (fun c => ~ touches (p_vt x) c) (prog_of fn par)).
  { intros x fn par. unfold prog_of. destruct (_ =? _); [constructor|]. specialize (Hprog fn par).
    eapply List.Forall_impl; [|exact Hprog]. intros c (_ & Ho & _). apply Ho. }
  destruct (tick_ok prog_of pool vfuel Hpv Hpool s l (to_implements _ _ _ Hl) (to_wf _ _ _ Hl) (to_positive _ _ _ Hl))
    as (s' & l' & fired & E & Ef & H1 & H2 & H3 & _).
  set (P := fun t => (t_func t = wakeup_fn -> exists x, x ∈ T /\ t_id t = p_vt x /\ t_par t = x) /\
                     forall x, t_id t = p_vt x -> t_func t = wakeup_fn).
  assert (HP : (forall t, In t l' -> P t) /\ forall i fn par, In (i, fn, par) fired -> P (Timer i 0 fn par)).
  { apply (spec_fire_inv P prog_of) with (n := vfuel) (l := age 1 l); [| | |exact Ef].
    - intros fn par id d f p Hin. unfold prog_of in Hin. destruct (_ =? _); [done|]. specialize (Hprog fn par).
      rewrite List.Forall_forall in Hprog. destruct (Hprog _ Hin) as (_ & Ho & Hf). cbn in Ho, Hf. split; [done|]. cbn. intros x Ex. by destruct (Ho x).
    - done.
    - intros t (u & <- & Hu)%in_map_iff. split; [exact (to_wake _ _ _ Hl u Hu)|]. intros x. exact (to_own _ _ _ Hl u x Hu). }
  destruct HP as [P1 P2].
  assert (Hid : forall i x, In (i, wakeup_fn, x) fired -> x ∈ T /\ i = p_vt x).
  { intros i x Hin. destruct (proj1 (P2 _ _ _ Hin) eq_refl) as (y & Hy & Ei & Ep). cbn in *. by subst. }
  assert (Hnd : NoDup (ids (age 1 l))) by (rewrite ids_age; apply (im_nodup _ _ (to_implements _ _ _ Hl))).
  assert (Htrack : forall x m, x ∈ T -> In (Timer (p_vt x) m wakeup_fn x) l ->
    (In (Timer (p_vt x) (m - 1) wakeup_fn x) l' /\ fired_of (p_vt x) fired = []) \/
    (m = 1 /\ ~ In (p_vt x) (ids l') /\ fired_of (p_vt x) fired = [(p_vt x, wakeup_fn, x)])).
  { intros x m Hx Ht. assert (Ht' : In (Timer (p_vt x) (m - 1) wakeup_fn x) (age 1 l)) by (apply in_map_iff; by eexists; split; [|exact Ht]).
    destruct (spec_fire_track prog_of (p_vt x) (Hpo x) vfuel _ l' fired _ Hnd Ht' eq_refl Ef) as (_ & [[? ?]|(E0 & ? & ?)]); [by left|].
    right. cbn in E0. split; [lia|done]. }
  assert (Habs : forall x, ~ In (p_vt x) (ids l) -> ~ In (p_vt x) (ids l') /\ fired_of (p_vt x) fired = []).
  { intros x Hx. destruct (spec_fire_absent prog_of (p_vt x) (Hpo x) vfuel _ l' fired Hnd) as (_ & ? & ?); [by rewrite ids_age|done|done]. }
  assert (Hin : forall x, In x (woken_by fired) <-> x ∈ T /\ fired_of (p_vt x) fired <> []).
  { intros x. rewrite woken_by_in. split.
    - intros [i Hi]. destruct (Hid i x Hi) as [Hx ->]. split; [done|]. intros E0.
      assert (Hf : In (p_vt x, wakeup_fn, x) (fired_of (p_vt x) fired)) by (apply filter_In; split; [done|cbn; by rewrite Z.eqb_refl]).
      by rewrite E0 in Hf.
    - intros [Hx Hne]. destruct (in_dec Z.eq_dec (p_vt x) (ids l)) as [Hil|Hil]; [|by destruct (Habs x Hil)].
      destruct (own_timer a s l x Hl Hx Hil) as (m & Hm & _). destruct (Htrack x m Hx Hm) as [[_ ?]|(_ & _ & E1)]; [done|].
      exists (p_vt x). apply (filter_In (fun f => fst (fst f) =? p_vt x)). unfold fired_of in E1. rewrite E1. by left. }
  exists s', l', fired. split; [exact E|]. split; [|split; [|split; [constructor|]]].
  - apply once_nodup. split; [intros i x Hi; by destruct (Hid i x Hi)|]. intros x.
    destruct (in_dec Z.eq_dec (p_vt x) (ids l)) as [Hil|Hil]; [|destruct (Habs x Hil) as [_ ->]; cbn; lia].
    apply in_map_iff in Hil as (t & Et & Ht). pose proof (to_own _ _ _ Hl t x Ht Et) as Ef'.
    destruct (to_wake _ _ _ Hl t Ht Ef') as (y & Hy & E1 & E2). assert (y = x) as -> by (apply Hinj; congruence).
    destruct t as [i m f p]. cbn in *. subst. destruct (Htrack x m Hy Ht) as [[_ ->]|(_ & _ & ->)]; cbn; lia.
  - intros x Hx. apply Hin in Hx as [Hx Hne]. split; [done|]. apply (to_armed _ _ _ Hl x Hx).
    destruct (in_dec Z.eq_dec (p_vt x) (ids l)) as [Hil|Hil]; [done|by destruct (Habs x Hil)].
  - done.
  - done.
  - done.
  - intros x Hx. destruct (in_dec Z.eq_dec (p_vt x) (ids l)) as [Hil|Hil].
    + destruct (own_timer a s l x Hl Hx Hil) as (m & Hm & _). destruct (Htrack x m Hx Hm) as [[Hi E0]|(_ & Hi & E1)].
      * rewrite disarm_out by (rewrite Hin, E0; tauto). rewrite (to_armed _ _ _ Hl x Hx). split; [intros _; apply (in_ids _ _ Hi)|done].
      * rewrite disarm_in by (rewrite Hin, E1; done). done.
    + destruct (Habs x Hil) as [Hi E0]. rewrite disarm_out by (rewrite Hin, E0; tauto).
      rewrite (to_armed _ _ _ Hl x Hx). split; done.
  - intros t Ht. by apply (P1 t Ht).
  - intros t x Ht. by apply (P1 t Ht).
  - intros x m Hx Hm. destruct (Htrack x m Hx Hm) as [[Hi E0]|(-> & Hi & E1)].
    + pose proof (H3 _ Hi) as Hpos. cbn in Hpos. replace (m =? 1) with false by lia. split; [rewrite Hin, E0; tauto|done].
    + cbn. rewrite Hin, E1. done.
Qed.
End Threads.

(** ** The steps of the kernel *)

Section Steps.
Context (rlist idle : Z) (fuel vfuel : nat) (kind : gmap Z qkind) (p_vt : Z -> Z) (wakeup_fn : Z) (prog : Z -> Z -> list vt_call).
Context (pool : list Z) (Hinj : forall a b, p_vt a = p_vt b -> a = b) (Hpool : (length pool < vfuel)%nat)
  (Hfn : wakeup_fn <> Timers.NULL) (Hprog : forall fn par, Forall (other_call p_vt wakeup_fn pool) (prog fn par)).
Notation kmid := (kmid rlist idle fuel kind).
Notation kernel_ok := (kernel_ok rlist idle fuel kind).
Notation woken_by := (woken_by wakeup_fn).
Notation timers_ok := (timers_ok p_vt wakeup_fn).

(** The tick with the kernel is the tick of the timers and then the wake-ups, in order. *)
Lemma fire_split : forall n s s' fired, fire_loop (vt_callback (prog_of wakeup_fn prog) vfuel) n (s, tt) = Some (s', tt, fired) ->
  forall k, fire_loop (vt_function rlist fuel vfuel wakeup_fn prog) n (s, k) =
    match run_isrs rlist fuel (map ITimeout (woken_by fired)) k with None => None | Some k' => Some ((s', k'), fired) end.
Proof.
  induction n as [|n IH]; intros s s' fired; cbn [fire_loop]; [done|]. destruct (_ =? 0); [|by intros [= <- <-]].
  set (s1 := set_next _ _ _). set (fn := func s _). set (p := par s1 _). unfold vt_callback at 1. cbn [fst].
  destruct (run_calls vfuel (prog_of wakeup_fn prog fn p) s1) as [s2|] eqn:E1; [|done].
  destruct (fire_loop (vt_callback _ vfuel) n (s2, tt)) as [[[s3 []] f]|] eqn:E2; [|done]. intros [= <- <-] k.
  unfold vt_function at 1. unfold prog_of in E1.
  change (woken_by ((next s vtlist, fn, p) :: f)) with (match (if fn =? wakeup_fn then Some p else None) with Some x => x :: woken_by f | None => woken_by f end).
  destruct (fn =? wakeup_fn).
  - injection E1 as <-. cbn [map run_isrs run_isr]. destruct (timeout rlist fuel p k) as [k1|]; [|done].
    rewrite (IH _ _ _ E2). by destruct (run_isrs _ _ _ _).
  - rewrite E1, (IH _ _ _ E2). by destruct (run_isrs _ _ _ _).
Qed.

Lemma tick_split s s' fired k : chVTDoTickI (vt_callback (prog_of wakeup_fn prog) vfuel) vfuel (s, tt) = Some (s', tt, fired) ->
  chVTDoTickI (vt_function rlist fuel vfuel wakeup_fn prog) vfuel (s, k) =
    match run_isrs rlist fuel (map ITimeout (woken_by fired)) k with None => None | Some k' => Some ((s', k'), fired) end.
Proof.
  unfold chVTDoTickI. destruct (negb _); [intros E; by apply fire_split|]. by intros [= <- <-].
Qed.

(** The threads [ws] are timed out. *)
Lemma wakes_ok G T : forall ws k qs, kmid G T None k qs -> quiet k -> NoDup ws -> (forall x, In x ws -> armed k x = true) ->
  exists k' qs', run_isrs rlist fuel (map ITimeout ws) k = Some k' /\ valid_isrs rlist fuel kind k (map ITimeout ws) /\
    kmid G T None k' qs' /\ quiet k' /\ r_current k' = r_current k /\
    (forall x, armed k' x = disarm ws (armed k) x) /\
    forall x, if in_dec Z.eq_dec x ws then p_state k' x = CH_STATE_READY else p_state k' x = p_state k x.
Proof.
  induction ws as [|w ws IH]; intros k qs Hk Hq Hnd Ha; cbn [map run_isrs run_isr valid_isrs valid_isr].
  - exists k, qs. split; [done|split; [done|split; [done|split; [done|split; [done|split; [done|by intros x; destruct (in_dec _ x [])]]]]]].
  - apply list.NoDup_cons in Hnd as [Hw Hnd]. rewrite list_elem_of_In in Hw.
    destruct (timeout_ok rlist idle fuel kind G T k qs w Hk Hq (Ha w (or_introl eq_refl))) as (k1 & qs1 & E1 & Hk1 & R1 & _ & Hq1 & Hne & A1 & Ho).
    rewrite E1. destruct (IH k1 qs1 Hk1 Hq1 Hnd) as (k2 & qs2 & E2 & Hv & Hk2 & Hq2 & R2 & A2 & S2).
    { intros x Hx. rewrite A1. unfold upd. destruct (Z.eqb_spec x w) as [->|]; [done|]. apply Ha. by right. }
    exists k2, qs2. split; [done|split; [|split; [done|split; [done|split; [congruence|split]]]]].
    + split; [apply Ha; by left|]. intros k' [= <-]. exact Hv.
    + intros x. rewrite A2. unfold disarm. rewrite A1. unfold upd.
      destruct (in_dec _ x ws) as [Hi|Hi], (in_dec _ x (w :: ws)) as [Hj|Hj], (Z.eqb_spec x w) as [->|Hn]; try done;
        exfalso; cbn in Hj; intuition congruence.
    + intros x. specialize (S2 x). unfold timed_out in Ho.
      assert (S1 : p_state k1 x = if Z.eqb x w then CH_STATE_READY else p_state k x).
      { destruct (decide (p_state k w = CH_STATE_READY)) as [Er|]; destruct Ho as [-> _].
        - destruct (Z.eqb_spec x w) as [->|]; done.
        - done. }
      destruct (in_dec _ x ws) as [Hi|Hi], (in_dec _ x (w :: ws)) as [Hj|Hj]; try done.
      * destruct Hj. by right.
      * rewrite S2, S1. destruct Hj as [->|?]; [by rewrite Z.eqb_refl|done].
      * rewrite S2, S1. destruct (Z.eqb_spec x w) as [->|]; [destruct Hj; by left|done].
Qed.

Lemma timers_ok_ext T a a' s l : timers_ok T pool a s l -> (forall x, x ∈ T -> a' x = a x) -> timers_ok T pool a' s l.
Proof. intros [] E. constructor; try done. intros x Hx. rewrite E by done. by apply to_armed0. Qed.

(** A thread that is created has no timer. *)
Lemma timers_ok_create T a s l tp : timers_ok T pool a s l -> tp ∉ T -> a tp = false -> timers_ok ({[tp]} ∪ T) pool a s l.
Proof.
  intros Hl Hn Ha. constructor; try apply Hl.
  - intros x [->%elem_of_singleton|Hx]%elem_of_union; [|by apply (to_armed _ _ _ _ _ _ _ Hl)]. rewrite Ha.
    split; [done|]. intros (t & E & Ht)%in_map_iff. pose proof (to_own _ _ _ _ _ _ _ Hl t tp Ht E) as Ef.
    destruct (to_wake _ _ _ _ _ _ _ Hl t Ht Ef) as (y & Hy & E1 & _). assert (y = tp) as -> by (apply Hinj; congruence). done.
  - intros t Ht Ef. destruct (to_wake _ _ _ _ _ _ _ Hl t Ht Ef) as (y & Hy & E). exists y. split; [set_solver|done].
Qed.

(** The timers of the threads are at addresses of the pool. *)
Definition own_ok (T : gset Z) : Prop := forall x, x ∈ T -> In (p_vt x) pool /\ p_vt x <> vtlist.

Definition tk_ok (T : gset Z) (st : tkernel) (l : list timer) : Prop :=
  kernel_ok T (tk st) /\ timers_ok T pool (armed (tk st)) (tv st) l /\ own_ok T.

(** Calls as the documentation asks: a thread does not sleep for no time; interrupts do
    not fire timers themselves. *)
Definition valid_tevent (T : gset Z) (e : tevent) (st : tkernel) : Prop :=
  match e with
  | TCall c => Kernel.valid_call idle fuel kind T (tk st) c /\
      match time_of c with Some time => is_u32 time | None => True end /\ c <> Sleep TIME_IMMEDIATE /\
      match c with Create tp _ => In (p_vt tp) pool /\ p_vt tp <> vtlist | _ => True end
  | TIrq os => valid_isrs rlist fuel kind (tk st) os /\ Forall (fun o => forall tp, o <> ITimeout tp) os
  | TTick => True
  | TTimer c => other_call p_vt wakeup_fn pool c
  end.

Fixpoint valid_tevents (T : gset Z) (es : list tevent) (st : tkernel) : Prop :=
  match es with
  | [] => True
  | e :: es => valid_tevent T e st /\
      forall st', run_tevent rlist fuel vfuel p_vt wakeup_fn prog e st = Some st' -> valid_tevents (tthreads_after e T) es st'
  end.

(** What a step does to the timer of a sleeping thread. *)
Definition keeps_sleeping (x m : Z) (st : tkernel) (l : list timer) : Prop :=
  p_state (tk st) x = CH_STATE_SLEEPING /\ In (Timer (p_vt x) m wakeup_fn x) l.
Definition sleeps_on (e : tevent) (x m : Z) (st' : tkernel) (l' : list timer) : Prop :=
  match e with
  | TTick => if m =? 1 then runnable (p_state (tk st') x) = true else keeps_sleeping x (m - 1) st' l'
  | _ => keeps_sleeping x m st' l'
  end.

(** The switch back to a thread resets its timer. *)
Lemma vt_resume_ok G T st qs l : kmid G T None (tk st) qs -> top rlist (tk st) qs -> timers_ok T pool (armed (tk st)) (tv st) l -> own_ok T ->
  exists l', tk_ok T (vt_resume p_vt st) l' /\
    forall x m, x <> r_current (tk st) -> In (Timer (p_vt x) m wakeup_fn x) l -> In (Timer (p_vt x) m wakeup_fn x) l'.
Proof.
  intros Hk Ht Hl Ho. destruct (km_run _ _ _ _ _ _ _ _ Hk) as (Hc & _).
  destruct (reset_ok p_vt wakeup_fn Hinj T pool vfuel Hpool Ho _ _ l (r_current (tk st)) Hl Hc) as (l' & Hl' & Htr).
  exists l'. split; [|done]. split; [|split; [|done]].
  - exists G, qs. by apply resume_ok.
  - eapply timers_ok_ext; [exact Hl'|]. intros x Hx. cbn [tk vt_resume]. unfold timeout_resume.
    destruct (armed (tk st) (r_current (tk st))) eqn:E; cbn; [done|]. unfold upd. by destruct (Z.eqb_spec x (r_current (tk st))) as [->|].
Qed.

Lemma not_current T st l x : tk_ok T st l -> p_state (tk st) x = CH_STATE_SLEEPING -> x <> r_current (tk st).
Proof. intros ((G & qs & Hk & _) & _) Hs ->. destruct (km_run _ _ _ _ _ _ _ _ Hk) as (_ & Hc & _). congruence. Qed.

Lemma sleeping_same T c k k' x : moved_thread T c k k' x -> x ∈ T -> x <> c -> p_state k x = CH_STATE_SLEEPING -> p_state k' x = CH_STATE_SLEEPING.
Proof. intros H Hx Hc Hs. unfold moved_thread in H. rewrite Hs in H. by destruct H as [[_ [?|[? _]]]|[[? _]|[[? _]|[? _]]]]. Qed.

Lemma swapped_sleeping k k' x : swapped k k' -> p_state k x = CH_STATE_SLEEPING -> p_state k' x = CH_STATE_SLEEPING.
Proof. intros (_ & _ & H) Hs. destruct (H x) as [?|[H1 _]]; [congruence|]. by rewrite Hs in H1. Qed.

Lemma resumed_state st x : p_state (tk (vt_resume p_vt st)) x = p_state (tk st) x.
Proof. cbn. unfold timeout_resume. by destruct (armed (tk st) (r_current (tk st))). Qed.

Lemma sleeper_waits st x : p_state (tk st) x = CH_STATE_SLEEPING -> (exists G T qs, kmid G T None (tk st) qs) -> x <> r_current (tk st).
Proof. intros Hs (G & T & qs & Hk) ->. destruct (km_run _ _ _ _ _ _ _ _ Hk) as (_ & Hc & _). congruence. Qed.

Notation run_tevent := (run_tevent rlist fuel vfuel p_vt wakeup_fn prog).
Notation simulated := (fun T st st' es => run_events rlist fuel es (tk st) = Some (tk st') /\
  valid_events rlist idle fuel kind T (tk st) es).

Definition step_ok (T : gset Z) (e : tevent) (st : tkernel) (l : list timer) : Prop :=
  exists st' l' es, run_tevent e st = Some st' /\ tk_ok (tthreads_after e T) st' l' /\ simulated T st st' es /\
    fold_left (fun T e => threads_after e T) es T = tthreads_after e T /\
    forall x m, x ∈ T -> keeps_sleeping x m st l -> sleeps_on e x m st' l'.

Lemma one_event T k e k' : Kernel.valid_event rlist idle fuel kind T k e -> Kernel.run_event rlist fuel e k = Some k' ->
  run_events rlist fuel [e] k = Some k' /\ valid_events rlist idle fuel kind T k [e].
Proof. intros Hv E. cbn. rewrite E. by split. Qed.

(** A system call, up to the switch. *)
Lemma timed_call_mid T c st l : tk_ok T st l -> valid_tevent T (TCall c) st -> let cur := r_current (tk st) in
  let T' := threads_after (Call c) T in
  exists G k' qs' s' l', Kernel.run_call rlist fuel c (tk st) = Some k' /\ timed_call rlist fuel vfuel p_vt wakeup_fn c st = Some (TK k' s') /\ kmid G T' None k' qs' /\ top rlist k' qs' /\ moved T cur (tk st) k' /\ timers_ok T' pool (armed k') s' l' /\ own_ok T' /\ (forall x m, x <> cur -> In (Timer (p_vt x) m wakeup_fn x) l -> In (Timer (p_vt x) m wakeup_fn x) l') /\ (armed k' cur = true -> forall time, time_of c = Some time -> In (Timer (p_vt cur) time wakeup_fn cur) l').
Proof.
  intros Hst (Hv & Htime & Hns & Hcr) cur T'. pose proof Hst as ((G & qs & Hk & Htop & Hq) & Hl & Ho).
  destruct (km_run _ _ _ _ _ _ _ _ Hk) as (Hc & _).
  destruct (run_syscall_ok rlist idle fuel kind G T (tk st) qs c Hk Htop Hv) as (k' & qs' & E & Hk' & Htop' & Hm).
  pose proof (call_armed rlist fuel c (tk st) k' E) as Ha.
  assert (Hl' : timers_ok T' pool (armed (tk st)) (tv st) l).
  { unfold T'. destruct c; try exact Hl. cbn [threads_after]. destruct Hv as (_ & Hnt & _). apply timers_ok_create; [done|done|].
    destruct (armed (tk st) tp) eqn:Et; [|done]. by destruct (km_armed _ _ _ _ _ _ _ _ Hk tp Et). }
  assert (Ho' : own_ok T').
  { unfold T'. destruct c; try exact Ho. cbn [threads_after].
    intros x [->%elem_of_singleton|Hx]%elem_of_union; [exact Hcr|by apply Ho]. }
  assert (Hc' : cur ∈ T') by (unfold T'; destruct c; try exact Hc; cbn [threads_after]; by apply elem_of_union_r).
  eexists _, k', qs'. unfold timed_call. rewrite E. fold cur. unfold quiet in Hq. fold cur in Hq.
  destruct Ha as [Ha|(time & [(Et & Hi1 & Hi2 & Ha)|(-> & _)])]; [| |done].
  - exists (tv st), l. split; [done|]. rewrite Ha, Hq.
    split; [by destruct (time_of c)|split; [exact Hk'|split; [done|split; [done|split; [done|split; [done|by split]]]]]].
  - rewrite Et in *. rewrite Ha. fold cur. rewrite upd_eq.
    destruct (set_timer_ok p_vt wakeup_fn Hinj T' pool vfuel Hpool Ho' Hfn (armed (tk st)) (tv st) l cur time Hl' Hc' Hq) as (s' & l1 & -> & H1 & H2 & H3).
    { unfold TIME_IMMEDIATE in Hi2. lia. }
    exists s', l1. split; [done|split; [done|split; [exact Hk'|split; [done|split; [done|split; [exact H1|split; [done|split]]]]]]].
    + intros x m Hx. by apply H3.
    + by intros _ time' [= <-].
Qed.

Lemma timed_call_ok T c st l : tk_ok T st l -> valid_tevent T (TCall c) st -> step_ok T (TCall c) st l.
Proof.
  intros Hst Hv. destruct (timed_call_mid T c st l Hst Hv) as (G & k' & qs' & s' & l1 & E & E1 & Hk' & Htop' & Hm & Hl1 & Ho' & Htr & _).
  destruct (vt_resume_ok G _ (TK k' s') qs' l1 Hk' Htop' Hl1 Ho') as (l2 & Hok & Htr2).
  exists (vt_resume p_vt (TK k' s')), l2, [Call c]. cbn [Clock.run_tevent]. rewrite E1. split; [done|split; [done|split; [|split; [done|]]]].
  - apply one_event; [apply Hv|]. unfold Kernel.run_event. by rewrite E.
  - intros x m Hx [Hs Hin]. pose proof (not_current T st l x Hst Hs) as Hne.
    assert (Hs' : p_state k' x = CH_STATE_SLEEPING) by (by apply (sleeping_same T (r_current (tk st)) (tk st) k' x (proj2 (Hm x)))).
    split; [by rewrite resumed_state|]. apply Htr2; [|by apply Htr]. apply (sleeper_waits (TK k' s') x Hs'). by eexists _, _, _.
Qed.

(** A thread goes to sleep for [n] ticks. *)
Lemma sleep_step T n st l : tk_ok T st l -> valid_tevent T (TCall (Sleep n)) st -> n <> TIME_INFINITE ->
  exists st' l', run_tevent (TCall (Sleep n)) st = Some st' /\ tk_ok T st' l' /\ r_current (tk st) ∈ T /\ keeps_sleeping (r_current (tk st)) n st' l'.
Proof.
  intros Hst Hv Hn. set (cur := r_current (tk st)). pose proof Hst as ((G0 & qs & Hk & _) & _).
  destruct (timed_call_mid T (Sleep n) st l Hst Hv) as (G & k' & qs' & s' & l1 & E & E1 & Hk' & Htop' & _ & Hl1 & Ho' & _ & Hin). fold cur in Hin.
  destruct (km_run _ _ _ _ _ _ _ _ Hk) as (Hc & _). injection E as <-.
  destruct (kmid_current rlist idle fuel kind G0 T (tk st) qs Hk) as [Hcur _].
  destruct (sleep_timeout_gen rlist idle fuel kind G0 T (tk st) qs CH_STATE_SLEEPING n) as (_ & _ & _ & (_ & _ & Hne & _ & Es)); [|done|apply Hv|done|done| |].
  { apply rest_loose; [done|done|apply Hv|by left]. }
  { intros x Hx. destruct (km_armed _ _ _ _ _ _ _ _ Hk x Hx) as [? [?|?]]; [split; [done|by left]|split; [done|by right]]. }
  change (chSchGoSleepTimeoutS rlist CH_STATE_SLEEPING n (tk st)) with (chThdSleep rlist n (tk st)) in Hne, Es. set (k' := chThdSleep rlist n (tk st)) in *.
  assert (Ha : armed k' cur = true).
  { destruct (sleep_timeout_frame rlist CH_STATE_SLEEPING n (tk st)) as [_ E2]. unfold k', chThdSleep, chThdSleepS. rewrite E2.
    destruct (Z.eqb_spec n TIME_INFINITE); [done|]. apply upd_eq. }
  destruct (vt_resume_ok G T (TK k' s') qs' l1 Hk' Htop' Hl1 Ho') as (l2 & Hok & Htr2).
  exists (vt_resume p_vt (TK k' s')), l2. cbn [Clock.run_tevent]. rewrite E1. split; [done|split; [done|split; [done|split]]].
  - rewrite resumed_state. cbn [tk]. rewrite Es. fold cur. rewrite upd_ne by (intros E; by apply Hne). apply upd_eq.
  - apply Htr2; [cbn [tk]; intros E; by apply Hne|]. by apply (Hin Ha n).
Qed.

Lemma isrs_armed G T : forall os k qs, kmid G T None k qs -> quiet k -> valid_isrs rlist fuel kind k os ->
  Forall (fun o => forall tp, o <> ITimeout tp) os ->
  exists k' qs', run_isrs rlist fuel os k = Some k' /\ kmid G T None k' qs' /\ quiet k' /\ armed k' = armed k /\
    forall x, p_state k x = CH_STATE_SLEEPING -> p_state k' x = CH_STATE_SLEEPING.
Proof.
  induction os as [|o os IH]; intros k qs Hk Hq Hv Hn; cbn [run_isrs]; [by exists k, qs|].
  apply list.Forall_cons in Hn as [Hn1 Hn2]. destruct Hv as [Hv1 Hv2].
  destruct (run_isr_ok rlist idle fuel kind G T k qs o Hk Hq Hv1) as (k1 & qs1 & E & Hk1 & Hq1 & _ & Hm). rewrite E.
  assert (Hm' : armed k1 = armed k /\ calm (p_state k) (p_state k1) (p_u k) (p_u k1)) by (by destruct o as [| | | | | | | |tp|]; [..|destruct (Hn1 tp)|]).
  destruct Hm' as [Ea Hc]. destruct (IH k1 qs1 Hk1 Hq1 (Hv2 _ E) Hn2) as (k2 & qs2 & -> & H2 & H3 & H4 & H5).
  exists k2, qs2. split; [done|split; [done|split; [done|split; [congruence|]]]]. intros x Hs. apply H5.
  destruct (Hc x) as [[? _]|[Hh _]]; [congruence|]. by rewrite Hs in Hh.
Qed.

Lemma irq_ok T os st l : tk_ok T st l -> valid_tevent T (TIrq os) st -> step_ok T (TIrq os) st l.
Proof.
  intros Hst (Hv & Hn). pose proof Hst as ((G & qs & Hk & Htop & Hq) & Hl & Ho).
  destruct (isrs_armed G T os (tk st) qs Hk Hq Hv Hn) as (k1 & qs1 & E1 & Hk1 & Hq1 & Ea1 & Hs1).
  destruct (epilogue_ok rlist idle fuel kind G T k1 qs1 Hk1) as (k2 & qs2 & E2 & Hk2 & Htop2 & Hsw).
  assert (Hl2 : timers_ok T pool (armed (tk (TK k2 (tv st)))) (tv (TK k2 (tv st))) l) by (cbn; destruct Hsw as [-> _]; by rewrite Ea1).
  destruct (vt_resume_ok G T (TK k2 (tv st)) qs2 l Hk2 Htop2 Hl2 Ho) as (l2 & Hok & Htr).
  exists (vt_resume p_vt (TK k2 (tv st))), l2, [Irq os]. cbn [Clock.run_tevent]. rewrite E1, E2. split; [done|split; [done|split; [|split; [done|]]]].
  - apply one_event; [done|]. unfold Kernel.run_event. by rewrite E1, E2.
  - intros x m Hx [Hs Hin]. assert (Hs2 : p_state k2 x = CH_STATE_SLEEPING) by (apply (swapped_sleeping k1); auto).
    split; [by rewrite resumed_state|]. apply Htr; [|done]. apply (sleeper_waits (TK k2 (tv st)) x Hs2). by eexists _, _, _.
Qed.

Lemma tick_event_ok T st l : tk_ok T st l -> step_ok T TTick st l.
Proof.
  intros Hst. pose proof Hst as ((G & qs & Hk & Htop & Hq) & Hl & Ho).
  destruct (tick_timers_ok p_vt wakeup_fn Hinj T pool vfuel Hpool Ho Hfn prog Hprog _ _ l Hl) as (s' & l' & fired & Et & Hnd & Hws & Hl' & Htr).
  set (k0 := sys_tick (tk st)). set (ws := woken_by fired) in *.
  assert (Hk0 : kmid G T None k0 qs) by (unfold k0, sys_tick; destruct (_ <? _); [by apply kmid_preempt|done]).
  assert (E0 : armed k0 = armed (tk st) /\ p_state k0 = p_state (tk st) /\ quiet k0) by (unfold k0, sys_tick; by destruct (_ <? _)).
  destruct E0 as (Ea0 & Es0 & Hq0).
  destruct (wakes_ok G T ws k0 qs Hk0 Hq0 Hnd) as (k1 & qs1 & E1 & Hv1 & Hk1 & Hq1 & R1 & A1 & S1).
  { intros x Hx. rewrite Ea0. by apply Hws. }
  destruct (epilogue_ok rlist idle fuel kind G T k1 qs1 Hk1) as (k2 & qs2 & E2 & Hk2 & Htop2 & Hsw).
  assert (Hl2 : timers_ok T pool (armed (tk (TK k2 s'))) (tv (TK k2 s')) l').
  { cbn. destruct Hsw as [-> _]. eapply timers_ok_ext; [exact Hl'|]. intros x Hx. rewrite A1. unfold disarm. by rewrite Ea0. }
  destruct (vt_resume_ok G T (TK k2 s') qs2 l' Hk2 Htop2 Hl2 Ho) as (l2 & Hok & Htr2).
  exists (vt_resume p_vt (TK k2 s')), l2, [Irq (ITick :: map ITimeout ws)]. cbn [Clock.run_tevent]. unfold SysTick_Handler, chSysTimerHandlerI.
  fold k0. rewrite (tick_split _ _ _ k0 Et). fold ws. rewrite E1. cbn [tk tv]. rewrite E2. split; [done|split; [done|split; [|split; [done|]]]].
  - apply one_event; [split; [done|]; intros k' [= <-]; exact Hv1|]. unfold Kernel.run_event. cbn [run_isrs run_isr]. fold k0. by rewrite E1, E2.
  - intros x m Hx [Hs Hin]. specialize (Htr x m Hx Hin). specialize (S1 x). unfold sleeps_on. destruct (m =? 1).
    + rewrite resumed_state. cbn [tk]. destruct (in_dec _ x ws) as [Hi|Hi]; [|done]. destruct Hsw as (_ & _ & Hsw).
      destruct (Hsw x) as [->|[_ ?]]; [by rewrite S1|done].
    + destruct Htr as [Hni Hin']. destruct (in_dec _ x ws) as [Hi|Hi]; [done|].
      assert (Hs2 : p_state k2 x = CH_STATE_SLEEPING) by (apply (swapped_sleeping k1); [done|]; by rewrite S1, Es0).
      split; [by rewrite resumed_state|]. apply Htr2; [|done]. apply (sleeper_waits (TK k2 s') x Hs2). by eexists _, _, _.
Qed.

Lemma timer_call_ok T c st l : tk_ok T st l -> valid_tevent T (TTimer c) st -> step_ok T (TTimer c) st l.
Proof.
  intros (Hk & Hl & Ho) Hv. destruct (other_call_ok p_vt wakeup_fn T pool vfuel Hpool _ _ l c Hl Hv) as (s' & E & Hl' & Htr).
  exists (TK (tk st) s'), (spec_call l c), []. cbn [Clock.run_tevent]. rewrite E. split; [done|split; [by split|split; [done|split; [done|]]]].
  intros x m Hx [Hs Hin]. split; [done|by apply Htr].
Qed.

Lemma tevent_ok T e st l : tk_ok T st l -> valid_tevent T e st -> step_ok T e st l.
Proof.
  intros Hst Hv. destruct e as [c|os| |c]; [by apply timed_call_ok|by apply irq_ok|by apply tick_event_ok|by apply timer_call_ok].
Qed.
End Steps.

(** ** The system time *)

Definition tticks (es : list tevent) : Z :=
  Z.of_nat (length (List.filter (fun e => match e with TTick => true | _ => false end) es)).

Lemma tticks_nonneg es : 0 <= tticks es.
Proof. unfold tticks. lia. Qed.
Lemma tticks_cons e es : tticks (e :: es) = (match e with TTick => 1 | _ => 0 end) + tticks es.
Proof. unfold tticks. destruct e; cbn; lia. Qed.

Section SystemTime.
Context (rlist : Z) (fuel vfuel : nat) (p_vt : Z -> Z) (wakeup_fn : Z) (prog : Z -> Z -> list vt_call).
Notation time s := (chVTGetSystemTimeX s).

Lemma set_time n vtp d fn par s s' : chVTDoSetI n vtp d fn par s = Some s' -> time s' = time s.
Proof. unfold chVTDoSetI. destruct (scan _ _ _ _) as [[p d']|]; [|done]. by intros [= <-]. Qed.

Lemma vt_call_time c s s' : Timers.run_call vfuel c s = Some s' -> time s' = time s.
Proof.
  destruct c as [id d f p|id]; cbn.
  - unfold chVTSet, chVTSetI. intros E%set_time. rewrite E. unfold chVTResetI. by destruct (chVTIsArmedI id s).
  - intros [= <-]. unfold chVTReset, chVTResetI. by destruct (chVTIsArmedI id s).
Qed.

Lemma vt_calls_time cs : forall s s', run_calls vfuel cs s = Some s' -> time s' = time s.
Proof.
  induction cs as [|c cs IH]; intros s s'; cbn [run_calls]; [by intros [= <-]|].
  destruct (Timers.run_call vfuel c s) as [s1|] eqn:E; [|done]. intros H%IH. by rewrite H, (vt_call_time _ _ _ E).
Qed.

Lemma function_time fn par st st' : vt_function rlist fuel vfuel wakeup_fn prog fn par st = Some st' -> time (fst st') = time (fst st).
Proof.
  destruct st as [s k]. unfold vt_function. destruct (fn =? wakeup_fn).
  - destruct (timeout _ _ _ _); [|done]. by intros [= <-].
  - destruct (run_calls _ _ _) eqn:E; [|done]. intros [= <-]. by apply vt_calls_time in E.
Qed.

Lemma fire_time : forall n st st' fired, fire_loop (vt_function rlist fuel vfuel wakeup_fn prog) n st = Some (st', fired) -> time (fst st') = time (fst st).
Proof.
  induction n as [|n IH]; intros [s k] st' fired; cbn [fire_loop]; [done|]. destruct (_ =? 0); [|by intros [= <- <-]].
  destruct (vt_function _ _ _ _ _ _ _ _) as [st1|] eqn:E1; [|done]. destruct (fire_loop _ n st1) as [[st2 f]|] eqn:E2; [|done].
  intros [= <- <-]. rewrite (IH _ _ _ E2), (function_time _ _ _ _ E1). done.
Qed.

Lemma tick_time st st' fired : chVTDoTickI (vt_function rlist fuel vfuel wakeup_fn prog) vfuel st = Some (st', fired) ->
  time (fst st') = u32 (time (fst st) + 1).
Proof.
  destruct st as [s k]. unfold chVTDoTickI. destruct (negb _); [|by intros [= <- <-]].
  intros E. by rewrite (fire_time _ _ _ _ E).
Qed.

Lemma resume_time st : time (tv (vt_resume p_vt st)) = time (tv st).
Proof. cbn. by destruct (chVTIsArmedI _ _). Qed.

Lemma timed_call_time c st st' : timed_call rlist fuel vfuel p_vt wakeup_fn c st = Some st' -> time (tv st') = time (tv st).
Proof.
  unfold timed_call. destruct (Kernel.run_call _ _ _ _) as [k|]; [|done].
  destruct (time_of c) as [d|]; [|by intros [= <-]]. destruct (armed _ _); [|by intros [= <-]].
  destruct (vt_start _ _ _ _ _ _) as [s|] eqn:E; [|done]. intros [= <-]. by apply set_time in E.
Qed.

Lemma tevent_time e st st' : run_tevent rlist fuel vfuel p_vt wakeup_fn prog e st = Some st' ->
  time (tv st') = match e with TTick => u32 (time (tv st) + 1) | _ => time (tv st) end.
Proof.
  destruct e as [c|os| |c]; cbn [run_tevent].
  - destruct (timed_call _ _ _ _ _ _ _) as [st1|] eqn:E; [|done]. intros [= <-]. by rewrite resume_time, (timed_call_time _ _ _ E).
  - destruct (run_isrs _ _ _ _); [|done]. destruct (irq_epilogue _ _ _); [|done]. intros [= <-]. by rewrite resume_time.
  - unfold SysTick_Handler, chSysTimerHandlerI. destruct (chVTDoTickI _ _ _) as [[[s k] f]|] eqn:E; [|done]. destruct (irq_epilogue _ _ _); [|done].
    intros [= <-]. rewrite resume_time. by apply tick_time in E.
  - destruct (Timers.run_call _ _ _) as [s|] eqn:E; [|done]. intros [= <-]. by apply vt_call_time in E.
Qed.

(** The system time counts the ticks. *)
Lemma tevents_time : forall es st st', run_tevents rlist fuel vfuel p_vt wakeup_fn prog es st = Some st' -> is_u32 (time (tv st)) ->
  time (tv st') = u32 (time (tv st) + tticks es).
Proof.
  induction es as [|e es IH]; intros st st'; cbn [run_tevents].
  - intros [= <-] H. change (tticks []) with 0. by rewrite Z.add_0_r, u32_id.
  - destruct (run_tevent _ _ _ _ _ _ e st) as [st1|] eqn:E; [|done]. intros H Hu. pose proof (tevent_time _ _ _ E) as E1.
    rewrite (IH _ _ H), tticks_cons, E1.
    + destruct e; try done. unfold u32. rewrite Zplus_mod_idemp_l. f_equal. lia.
    + rewrite E1. by destruct e; [..|apply u32_range|].
Qed.
End SystemTime.

(** ** The runs from the start of the system *)

Section Runs.
Context (rlist idle : Z) (fuel vfuel : nat) (kind : gmap Z qkind) (p_vt : Z -> Z) (wakeup_fn : Z) (prog : Z -> Z -> list vt_call).
Context (pool : list Z) (Hinj : forall a b, p_vt a = p_vt b -> a = b) (Hpool : (length pool < vfuel)%nat)
  (Hfn : wakeup_fn <> Timers.NULL) (Hprog : forall fn par, Forall (other_call p_vt wakeup_fn pool) (prog fn par)).
Notation kernel_ok := (kernel_ok rlist idle fuel kind).
Notation tk_ok := (tk_ok rlist idle fuel kind p_vt wakeup_fn pool).
Notation valid_tevents := (valid_tevents rlist idle fuel vfuel kind p_vt wakeup_fn prog pool).
Notation run_tevents := (run_tevents rlist fuel vfuel p_vt wakeup_fn prog).
Notation keeps_sleeping := (keeps_sleeping p_vt wakeup_fn).
Definition all_after (es : list tevent) (T : gset Z) : gset Z := fold_left (fun T e => tthreads_after e T) es T.

Lemma run_tevents_app es1 es2 : forall st, run_tevents (es1 ++ es2) st =
  match run_tevents es1 st with None => None | Some st => run_tevents es2 st end.
Proof using. induction es1 as [|e es IH]; intros st; cbn; [done|]. by destruct (run_tevent _ _ _ _ _ _ _ _). Qed.

Lemma valid_tevents_app es1 es2 : forall T st, valid_tevents T (es1 ++ es2) st <->
  valid_tevents T es1 st /\ forall st', run_tevents es1 st = Some st' -> valid_tevents (all_after es1 T) es2 st'.
Proof using.
  induction es1 as [|e es IH]; intros T st; cbn [app Clock.valid_tevents Clock.run_tevents].
  - split; [by intros H; split; [|intros st' [= <-]]|intros [_ H]; by apply H].
  - split.
    + intros [H1 H2]. split; [split; [done|]|].
      * intros st1 E. by apply (IH _ st1), H2.
      * intros st' E. destruct (run_tevent _ _ _ _ _ _ e st) as [st1|]; [|done]. by apply (IH _ st1); [apply H2|].
    + intros [[H1 H2] H3]. split; [done|]. intros st1 E. apply IH. split; [by apply H2|]. rewrite E in H3. apply H3.
Qed.

Lemma run_events_join es1 es2 : forall k, run_events rlist fuel (es1 ++ es2) k =
  match run_events rlist fuel es1 k with None => None | Some k => run_events rlist fuel es2 k end.
Proof using. induction es1 as [|e es IH]; intros k; cbn; [done|]. by destruct (run_event _ _ _ _). Qed.

Lemma valid_events_join es1 es2 : forall T k, valid_events rlist idle fuel kind T k es1 ->
  (forall k', run_events rlist fuel es1 k = Some k' -> valid_events rlist idle fuel kind (fold_left (fun T e => threads_after e T) es1 T) k' es2) ->
  valid_events rlist idle fuel kind T k (es1 ++ es2).
Proof using.
  induction es1 as [|e es IH]; intros T k; cbn; [intros _ H; by apply H|].
  intros [H1 H2] H3. split; [done|]. intros k' E. rewrite E in H3. by apply IH; [apply H2|].
Qed.

Lemma tevents_ok : forall es T st l, tk_ok T st l -> valid_tevents T es st ->
  exists st' l' kes, run_tevents es st = Some st' /\ tk_ok (all_after es T) st' l' /\
    run_events rlist fuel kes (tk st) = Some (tk st') /\ valid_events rlist idle fuel kind T (tk st) kes /\
    fold_left (fun T e => threads_after e T) kes T = all_after es T.
Proof using Hinj Hpool Hfn Hprog.
  induction es as [|e es IH]; intros T st l Hst; cbn [Clock.valid_tevents Clock.run_tevents].
  - intros _. exists st, l, []. by split.
  - intros [Hv Hvs]. destruct (tevent_ok rlist idle fuel vfuel kind p_vt wakeup_fn prog pool Hinj Hpool Hfn Hprog T e st l Hst Hv)
      as (st1 & l1 & kes1 & E1 & Hst1 & [R1 V1] & F1 & _).
    rewrite E1. destruct (IH _ st1 l1 Hst1 (Hvs st1 E1)) as (st2 & l2 & kes2 & E2 & Hst2 & R2 & V2 & F2).
    exists st2, l2, (kes1 ++ kes2). split; [done|split; [done|split; [by rewrite run_events_join, R1|split]]].
    + apply valid_events_join; [done|]. intros k'. rewrite R1. intros [= <-]. by rewrite F1.
    + by rewrite fold_left_app, F1.
Qed.

(** A thread sleeps until its tick comes. *)
Lemma sleeps_until : forall es T st l x m, tk_ok T st l -> valid_tevents T es st -> x ∈ T -> keeps_sleeping x m st l -> tticks es < m ->
  exists st' l', run_tevents es st = Some st' /\ tk_ok (all_after es T) st' l' /\ x ∈ all_after es T /\ keeps_sleeping x (m - tticks es) st' l'.
Proof using Hinj Hpool Hfn Hprog.
  induction es as [|e es IH]; intros T st l x m Hst; cbn [Clock.valid_tevents Clock.run_tevents].
  - intros _ Hx Hs _. exists st, l. change (tticks []) with 0. by rewrite Z.sub_0_r.
  - intros [Hv Hvs] Hx Hs Hm. rewrite tticks_cons in *. pose proof (tticks_nonneg es).
    destruct (tevent_ok rlist idle fuel vfuel kind p_vt wakeup_fn prog pool Hinj Hpool Hfn Hprog T e st l Hst Hv)
      as (st1 & l1 & _ & E1 & Hst1 & _ & _ & Hk). specialize (Hk x m Hx Hs).
    assert (Hx1 : x ∈ tthreads_after e T) by (destruct e as [[]| | |]; cbn; try done; by apply elem_of_union_r).
    rewrite E1. set (d := match e with TTick => 1 | _ => 0 end) in *.
    assert (Hk1 : keeps_sleeping x (m - d) st1 l1).
    { unfold sleeps_on in Hk. destruct e; subst d; rewrite ?Z.sub_0_r; try done. by rewrite (proj2 (Z.eqb_neq m 1)) in Hk by lia. }
    destruct (IH _ st1 l1 x (m - d) Hst1 (Hvs st1 E1) Hx1 Hk1 ltac:(lia)) as (st2 & l2 & E2 & H1 & H2 & H3).
    exists st2, l2. rewrite Z.sub_add_distr. done.
Qed.

(** ... and is runnable at that tick. *)
Lemma wakes_at T st l x es : tk_ok T st l -> valid_tevents T (es ++ [TTick]) st -> x ∈ T -> keeps_sleeping x (tticks es + 1) st l ->
  exists st', run_tevents (es ++ [TTick]) st = Some st' /\ runnable (p_state (tk st') x) = true.
Proof using Hinj Hpool Hfn Hprog.
  intros Hst [Hv1 Hv2]%valid_tevents_app Hx Hs.
  destruct (sleeps_until es T st l x _ Hst Hv1 Hx Hs ltac:(lia)) as (st1 & l1 & E1 & Hst1 & Hx1 & Hs1).
  destruct (tevent_ok rlist idle fuel vfuel kind p_vt wakeup_fn prog pool Hinj Hpool Hfn Hprog _ TTick st1 l1 Hst1 I)
    as (st2 & l2 & _ & E2 & _ & _ & _ & Hk).
  specialize (Hk x _ Hx1 Hs1). unfold sleeps_on in Hk. replace (tticks es + 1 - tticks es =? 1) with true in Hk by lia.
  exists st2. rewrite run_tevents_app, E1. cbn [Clock.run_tevents]. by rewrite E2.
Qed.

Lemma tk_start T k s0 : kernel_ok T k -> (forall x, armed k x = false) -> unarmed s0 -> own_ok p_vt pool T -> tk_ok T (TK k (_vt_init s0)) [].
Proof using.
  intros Hk Ha Hu Ho. split; [done|split; [|done]]. constructor.
  - by apply init_implements.
  - split; [intros t []|intros i []].
  - intros t [].
  - intros x _. cbn. by rewrite Ha.
  - intros t [].
  - intros t x [].
Qed.

Lemma armed_agree T st l x : tk_ok T st l -> x ∈ T -> armed (tk st) x = chVTIsArmedI (p_vt x) (tv st).
Proof using.
  intros (_ & Hl & Ho) Hx. apply eq_iff_eq_true. rewrite (to_armed _ _ _ _ _ _ _ Hl x Hx).
  unfold chVTIsArmedI. rewrite negb_true_iff, Z.eqb_neq. split.
  - intros (t & <- & Ht)%in_map_iff. destruct (im_fields _ _ (to_implements _ _ _ _ _ _ _ Hl) t Ht) as (-> & _ & ?). done.
  - intros Hf. destruct (in_dec Z.eq_dec (p_vt x) (ids l)) as [|Hn]; [done|]. destruct Hf.
    by apply (im_unarmed _ _ (to_implements _ _ _ _ _ _ _ Hl)); [apply Ho|].
Qed.
End Runs.

(** ** Time in the Arduino layer *)

Local Ltac divs := Z.div_mod_to_equations; lia.

(** The time conversions are exact as long as the products fit in 32 bits: milliseconds
    below 4294967 (71.5 minutes), microseconds below 4293968 rounded up to ticks; the
    clock of the sketch is exact, modulo 2^32; milliseconds from 4294967 on are shortened,
    and the first value of each function that overflows becomes a sleep of 0 ticks. *)
Theorem time_conversions n : is_u32 n ->
  (n <= 4294966 -> MS2ST n = n /\ ST2MS (MS2ST n) = n) /\
  (4294967 <= n -> MS2ST n < n) /\ MS2ST 4294967 = 0 /\
  (n <= 4293967 -> US2ST n = (n + 999) / 1000 /\ n <= ST2US (US2ST n) < n + 1000) /\ US2ST 4293968 = 0 /\
  (n <= 4294966 -> S2ST n = 1000 * n /\ ST2S (S2ST n) = n) /\
  forall a st, is_u32 a -> chVTGetSystemTimeX (tv st) = u32 (a + n) -> millis a st = n /\ micros a st = u32 (1000 * n).
Proof.
  intros Hn. assert (Hms : forall m, is_u32 m -> ST2MS m = m).
  { intros m Hm. unfold ST2MS, CH_CFG_ST_FREQUENCY, u64. rewrite Z.mod_small by lia. divs. }
  assert (Hus : forall m, is_u32 m -> ST2US m = 1000 * m).
  { intros m Hm. unfold ST2US, CH_CFG_ST_FREQUENCY, u64. rewrite Z.mod_small by lia. divs. }
  assert (Em : n <= 4294966 -> MS2ST n = n).
  { intros H. unfold MS2ST, CH_CFG_ST_FREQUENCY. rewrite (u32_id n), (u32_id (n * 1000)), u32_id by lia. divs. }
  assert (Eu : n <= 4293967 -> US2ST n = (n + 999) / 1000).
  { intros H. unfold US2ST, CH_CFG_ST_FREQUENCY. rewrite (u32_id n), (u32_id (n * 1000)), u32_id by lia. divs. }
  split; [|split; [|split; [done|split; [|split; [done|split]]]]].
  - intros H. rewrite Em by done. split; [done|by apply Hms].
  - intros H. destruct (Z.eqb_spec n 4294967) as [->|]; [done|]. unfold MS2ST. set (q := u32 (_ + 999)). pose proof (u32_range (u32 (u32 n * CH_CFG_ST_FREQUENCY) + 999)) as Hq. fold q in Hq.
    apply Z.div_lt_upper_bound; lia.
  - intros H. rewrite Eu by done. split; [done|]. rewrite Hus by (divs). divs.
  - intros H. unfold ST2S, S2ST, CH_CFG_ST_FREQUENCY. rewrite (u32_id n), (u32_id (n * 1000)), u32_id by lia. split; [lia|].
    unfold u64. rewrite Z.mod_small by lia. divs.
  - intros a st Ha Es. unfold millis, micros, chVTTimeElapsedSinceX. rewrite Es.
    assert (E : u32 (u32 (a + n) - a) = n) by (unfold u32 in *; rewrite Zminus_mod_idemp_l; replace (a + n - a) with n by lia; by apply Z.mod_small).
    rewrite E, Hms, Hus by done. by rewrite u32_id.
Qed.

Lemma time_conversions_witness : MS2ST 250 = 250 /\ US2ST 1500 = 2 /\ S2ST 5 = 5000.
Proof.
  destruct (time_conversions 250 ltac:(lia)) as (H1 & _).
  destruct (time_conversions 1500 ltac:(lia)) as (_ & _ & _ & H2 & _).
  destruct (time_conversions 5 ltac:(lia)) as (_ & _ & _ & _ & _ & H3 & _).
  split; [apply H1; lia|split; [apply H2; lia|apply H3; lia]].
Defined.

(** The addresses of the timers of threads and the functions of the other timers. *)
Definition timers_set_up (vfuel : nat) (p_vt : Z -> Z) (wakeup_fn : Z) (prog : Z -> Z -> list vt_call) (pool : list Z) : Prop :=
  (forall a b, p_vt a = p_vt b -> a = b) /\ (length pool < vfuel)%nat /\ wakeup_fn <> Timers.NULL /\
  forall fn par, Forall (other_call p_vt wakeup_fn pool) (prog fn par).

Definition boot (rlist mainthread : Z) (objs : list (Z * object)) (k : kernel) (s : vtimers) : tkernel :=
  TK (init_objects objs (sys_init rlist mainthread k)) (_vt_init s).

Lemma boot_tk_ok rlist mainthread fuel p_vt wakeup_fn pool objs k s :
  objects_ok rlist mainthread objs -> blank_kernel k -> (1 < fuel)%nat -> unarmed s ->
  In (p_vt mainthread) pool -> p_vt mainthread <> vtlist ->
  tk_ok rlist mainthread fuel (kinds rlist objs) p_vt wakeup_fn pool {[mainthread]} (boot rlist mainthread objs k s) [].
Proof.
  intros Ho Hb Hf Hu Hp Hv. apply tk_start; [by apply boot_kernel_ok| |done|by intros x ->%elem_of_singleton].
  intros x. destruct (init_objects_same objs (sys_init rlist mainthread k)) as (_ & _ & _ & _ & _ & ->).
  by apply Hb.
Qed.

(** C15. The virtual timers implement the time-outs of the kernel.  From the start of the
    system, for any sequence of system calls, interrupts, ticks and calls for other
    timers (whose functions set and reset timers themselves): the kernel with its
    linked list of timers takes every step, each is a sequence of steps of the kernel in
    which time-outs are merely flags, and afterwards the flag of a thread is set exactly
    when its timer is in the list.  So what is proved of the kernel for time-outs that
    come at any time holds with the timers. *)
Theorem timers_implement_timeouts rlist mainthread fuel vfuel p_vt wakeup_fn prog pool objs k s es :
  objects_ok rlist mainthread objs -> blank_kernel k -> (1 < fuel)%nat -> unarmed s ->
  timers_set_up vfuel p_vt wakeup_fn prog pool -> In (p_vt mainthread) pool -> p_vt mainthread <> vtlist ->
  let st := boot rlist mainthread objs k s in
  valid_tevents rlist mainthread fuel vfuel (kinds rlist objs) p_vt wakeup_fn prog pool {[mainthread]} es st ->
  exists st' kes, run_tevents rlist fuel vfuel p_vt wakeup_fn prog es st = Some st' /\
    run_events rlist fuel kes (tk st) = Some (tk st') /\
    valid_events rlist mainthread fuel (kinds rlist objs) {[mainthread]} (tk st) kes /\
    chVTGetSystemTimeX (tv st') = u32 (tticks es) /\
    forall x, x ∈ all_after es {[mainthread]} -> armed (tk st') x = chVTIsArmedI (p_vt x) (tv st').
Proof.
  intros Ho Hb Hf Hu (Hinj & Hpool & Hfn & Hprog) Hp Hv st Hes.
  destruct (tevents_ok rlist mainthread fuel vfuel (kinds rlist objs) p_vt wakeup_fn prog pool Hinj Hpool Hfn Hprog es {[mainthread]} st []) as
    (st' & l' & kes & E & Hok & R & V & _); [by apply boot_tk_ok|done|].
  exists st', kes. split; [done|split; [done|split; [done|split]]].
  - by rewrite (tevents_time _ _ _ _ _ _ _ _ _ E).
  - intros x Hx. by apply (armed_agree _ _ _ _ _ _ _ _ _ _ _ Hok).
Qed.

(** ** Sleeps *)

Section Sleeps.
Context (rlist idle : Z) (fuel vfuel : nat) (kind : gmap Z qkind) (p_vt : Z -> Z) (wakeup_fn : Z) (prog : Z -> Z -> list vt_call).
Context (pool : list Z) (Hset : timers_set_up vfuel p_vt wakeup_fn prog pool).
Notation tk_ok := (tk_ok rlist idle fuel kind p_vt wakeup_fn pool).
Notation run_tevents := (run_tevents rlist fuel vfuel p_vt wakeup_fn prog).

(** From [st1], the thread [x] sleeps until the [n]-th tick. *)
Definition sleeps_for (T : gset Z) (x n : Z) (st1 : tkernel) : Prop :=
  forall es, valid_tevents rlist idle fuel vfuel kind p_vt wakeup_fn prog pool T es st1 ->
    exists st', run_tevents es st1 = Some st' /\
      (tticks es < n -> p_state (tk st') x = CH_STATE_SLEEPING) /\
      (forall es0, es = es0 ++ [TTick] -> tticks es = n -> runnable (p_state (tk st') x) = true).

Lemma tticks_app es1 es2 : tticks (es1 ++ es2) = tticks es1 + tticks es2.
Proof using. induction es1 as [|e es IH]; [done|]. cbn [app]. rewrite !tticks_cons, IH. lia. Qed.

Lemma timed_sleep T st l n : tk_ok T st l -> r_current (tk st) <> idle -> 1 <= n < TIME_INFINITE ->
  exists st1, timed_call rlist fuel vfuel p_vt wakeup_fn (Sleep n) st = Some st1 /\
    chVTGetSystemTimeX (tv (vt_resume p_vt st1)) = chVTGetSystemTimeX (tv st) /\
    sleeps_for T (r_current (tk st)) n (vt_resume p_vt st1).
Proof using Hset.
  destruct Hset as (Hinj & Hpool & Hfn & Hprog). unfold TIME_INFINITE. intros Hst Hi Hn.
  assert (Hv : valid_tevent rlist idle fuel kind p_vt wakeup_fn pool T (TCall (Sleep n)) st).
  { split; [done|split; [cbn; lia|split; [|done]]]. intros [= E]. unfold TIME_IMMEDIATE in E. lia. }
  destruct (sleep_step rlist idle fuel vfuel kind p_vt wakeup_fn prog pool Hinj Hpool Hfn Hprog T n st l Hst Hv) as
    (st' & l' & E & Hok & Hx & Hk); [unfold TIME_INFINITE; lia|].
  pose proof (tevent_time _ _ _ _ _ _ _ _ _ E) as Et. cbn [run_tevent] in E.
  destruct (timed_call _ _ _ _ _ (Sleep n) st) as [st1|]; [|done]. injection E as <-.
  exists st1. split; [done|split; [done|]]. intros es Hes.
  destruct (tevents_ok rlist idle fuel vfuel kind p_vt wakeup_fn prog pool Hinj Hpool Hfn Hprog es T _ l' Hok Hes) as (st2 & l2 & _ & E2 & _).
  exists st2. split; [done|split].
  - intros Hlt. destruct (sleeps_until rlist idle fuel vfuel kind p_vt wakeup_fn prog pool Hinj Hpool Hfn Hprog es T _ l' _ n Hok Hes Hx Hk Hlt)
      as (st3 & l3 & E3 & _ & _ & [Hs _]). rewrite E3 in E2. by injection E2 as <-.
  - intros es0 -> Ht. rewrite tticks_app in Ht. change (tticks [TTick]) with 1 in Ht. rewrite <- Ht in Hk.
    destruct (wakes_at rlist idle fuel vfuel kind p_vt wakeup_fn prog pool Hinj Hpool Hfn Hprog T _ l' _ es0 Hok Hes Hx Hk)
      as (st3 & E3 & Hr). rewrite E3 in E2. by injection E2 as <-.
Qed.
End Sleeps.

(** ** A delay of zero *)

(** [n] runs of the tick handler, with the timers that fired. *)
Fixpoint tick_handlers (rlist : Z) (fuel vfuel : nat) (wakeup_fn : Z) (prog : Z -> Z -> list vt_call) (n : nat) (st : tkernel)
    : option (list (Z * Z * Z) * tkernel) :=
  match n with
  | O => Some ([], st)
  | S n =>
      match chSysTimerHandlerI rlist fuel vfuel wakeup_fn prog st with
      | None => None
      | Some (fired, st) =>
          match tick_handlers rlist fuel vfuel wakeup_fn prog n st with
          | None => None
          | Some (fired', st) => Some (fired ++ fired', st)
          end
      end
  end.

Section ZeroDelay.
Context (rlist : Z) (fuel v : nat) (p_vt : Z -> Z) (wakeup_fn : Z) (prog : Z -> Z -> list vt_call).
Notation handlers := (tick_handlers rlist fuel (S v) wakeup_fn prog).

Lemma quiet_handler st a : next (tv st) vtlist = a -> a <> vtlist -> u32 (delta (tv st) a - 1) <> 0 ->
  exists st', chSysTimerHandlerI rlist fuel (S v) wakeup_fn prog st = Some ([], st') /\
    next (tv st') vtlist = a /\ delta (tv st') a = u32 (delta (tv st) a - 1).
Proof.
  intros Hn Ha Hd. destruct (quiet_tick (prog_of wakeup_fn prog) v (tv st) a Hn Ha Hd) as (s' & E & H1 & H2).
  exists (TK (sys_tick (tk st)) s'). split; [|done]. unfold chSysTimerHandlerI.
  by rewrite (tick_split rlist fuel (S v) wakeup_fn prog _ _ _ (sys_tick (tk st)) E).
Qed.

Lemma quiet_handlers a n : forall st, next (tv st) vtlist = a -> a <> vtlist -> is_u32 (delta (tv st) a) -> Z.of_nat n < delta (tv st) a ->
  exists st', handlers n st = Some ([], st').
Proof.
  induction n as [|n IH]; intros st Hn Ha Hd Hlt; cbn [tick_handlers]; [by exists st|].
  destruct (quiet_handler st a Hn Ha) as (st1 & -> & H1 & H2); [rewrite u32_id; lia|].
  destruct (IH st1 H1 Ha) as (st2 & ->); [rewrite H2, u32_id; lia|rewrite H2, u32_id; lia|]. by exists st2.
Qed.

(** A timer of 0 ticks at the head of the list. *)
Lemma zero_head_stalls st x n : next (tv st) vtlist = x -> x <> vtlist ->
  delta (tv st) x = 0 -> Z.of_nat n < 4294967296 ->
  exists st', handlers n st = Some ([], st').
Proof.
  intros Hn Hx Hd Hlt. destruct n as [|n]; cbn [tick_handlers]; [by exists st|].
  destruct (quiet_handler st x Hn Hx) as (st1 & -> & H1 & H2); [by rewrite Hd|]. rewrite Hd in H2. change (u32 (0 - 1)) with 4294967295 in H2.
  destruct (quiet_handlers x n st1 H1 Hx) as (st2 & ->); [rewrite H2; lia|rewrite H2; lia|]. by exists st2.
Qed.
End ZeroDelay.

Section Arduino.
Context (rlist mainthread : Z) (fuel vfuel : nat) (p_vt : Z -> Z) (wakeup_fn : Z) (prog : Z -> Z -> list vt_call) (pool : list Z)
  (objs : list (Z * object)) (k : kernel) (s : vtimers).

(** A system that starts, and the states it reaches. *)
Definition system_ok : Prop :=
  objects_ok rlist mainthread objs /\ blank_kernel k /\ (1 < fuel)%nat /\ unarmed s /\
  timers_set_up vfuel p_vt wakeup_fn prog pool /\ In (p_vt mainthread) pool /\ p_vt mainthread <> vtlist.
Definition reaches (es : list tevent) (st : tkernel) : Prop :=
  valid_tevents rlist mainthread fuel vfuel (kinds rlist objs) p_vt wakeup_fn prog pool {[mainthread]} es (boot rlist mainthread objs k s) /\
  run_tevents rlist fuel vfuel p_vt wakeup_fn prog es (boot rlist mainthread objs k s) = Some st.

Context (Hsys : system_ok).
Notation sleeps_for := (sleeps_for rlist mainthread fuel vfuel (kinds rlist objs) p_vt wakeup_fn prog pool).
Notation run_tevents := (run_tevents rlist fuel vfuel p_vt wakeup_fn prog).
Notation now st := (chVTGetSystemTimeX (tv st)).

Lemma reaches_ok es st : reaches es st ->
  (exists l, tk_ok rlist mainthread fuel (kinds rlist objs) p_vt wakeup_fn pool (all_after es {[mainthread]}) st l) /\ is_u32 (now st).
Proof using Hsys.
  destruct Hsys as (Ho & Hb & Hf & Hu & (Hinj & Hpool & Hfn & Hprog) & Hp & Hv). intros [Hes E].
  destruct (tevents_ok rlist mainthread fuel vfuel (kinds rlist objs) p_vt wakeup_fn prog pool Hinj Hpool Hfn Hprog es {[mainthread]} (boot rlist mainthread objs k s) [])
    as (st' & l' & _ & E' & Hok & _); [by apply boot_tk_ok|exact Hes|]. rewrite E in E'. injection E' as <-.
  split; [by exists l'|]. rewrite (tevents_time _ _ _ _ _ _ _ _ _ E) by done. apply u32_range.
Qed.

Lemma sleeping_call es st n : reaches es st -> r_current (tk st) <> mainthread -> 1 <= n < TIME_INFINITE ->
  exists st1, timed_call rlist fuel vfuel p_vt wakeup_fn (Sleep n) st = Some st1 /\
    sleeps_for (all_after es {[mainthread]}) (r_current (tk st)) n (vt_resume p_vt st1) /\
    forall es' st', run_tevents es' (vt_resume p_vt st1) = Some st' -> now st' = u32 (now st + tticks es').
Proof using Hsys.
  intros Hes Hi Hn. destruct (reaches_ok es st Hes) as [[l Hok] Hu]. pose proof Hsys as (_ & _ & _ & _ & Hset & _).
  destruct (timed_sleep rlist mainthread fuel vfuel (kinds rlist objs) p_vt wakeup_fn prog pool Hset _ st l n Hok Hi Hn)
    as (st1 & E & Et & Hs). exists st1. split; [done|split; [done|]]. intros es' st' E'.
  rewrite (tevents_time _ _ _ _ _ _ _ _ _ E'); by rewrite Et.
Qed.

(** A thread that goes to sleep. *)
Lemma sleep_call G T st qs n : kmid rlist mainthread fuel (kinds rlist objs) G T None (tk st) qs -> r_current (tk st) <> mainthread ->
  let k1 := chThdSleep rlist n (tk st) in
  exists qs1, kmid rlist mainthread fuel (kinds rlist objs) G T None k1 qs1 /\
    (armed k1 = if n =? TIME_INFINITE then armed (tk st) else upd (r_current (tk st)) true (armed (tk st))) /\
    p_state k1 = upd (r_current k1) CH_STATE_CURRENT (upd (r_current (tk st)) CH_STATE_SLEEPING (p_state (tk st))) /\
    r_current k1 <> r_current (tk st).
Proof using.
  intros Hk Hi k1. destruct (kmid_current rlist mainthread fuel (kinds rlist objs) G T (tk st) qs Hk) as [Hcur _].
  destruct (km_run _ _ _ _ _ _ _ _ Hk) as (Hc & _).
  destruct (sleep_timeout_gen rlist mainthread fuel (kinds rlist objs) G T (tk st) qs CH_STATE_SLEEPING n)
    as (qs1 & Hk1 & _ & (_ & _ & Hne & _ & Es)); [|done|done|done|done| |].
  { apply rest_loose; [done|done|done|by left]. }
  { intros x Hx. destruct (km_armed _ _ _ _ _ _ _ _ Hk x Hx) as [? [?|?]]; [split; [done|by left]|split; [done|by right]]. }
  destruct (sleep_timeout_frame rlist CH_STATE_SLEEPING n (tk st)) as [_ Ea]. by exists qs1.
Qed.

(** A sleep without a time-out. *)
Lemma sleep_forever es st : reaches es st -> r_current (tk st) <> mainthread ->
  exists st1, timed_call rlist fuel vfuel p_vt wakeup_fn (Sleep TIME_INFINITE) st = Some st1 /\
    p_state (tk st1) (r_current (tk st)) = CH_STATE_SLEEPING /\ armed (tk st1) (r_current (tk st)) = false /\ tv st1 = tv st.
Proof using Hsys.
  intros Hes Hi. destruct (reaches_ok es st Hes) as [(l & ((G & qs & Hk & Htop & Hq) & _)) _].
  destruct (sleep_call G _ st qs TIME_INFINITE Hk Hi) as (_ & _ & Ea & Es & Hne). cbv iota in Ea.
  change (TIME_INFINITE =? TIME_INFINITE) with true in Ea. cbv iota in Ea.
  unfold timed_call. cbn [Kernel.run_call time_of]. unfold quiet in Hq. rewrite Ea, Hq.
  eexists. split; [done|split; [|split; [|done]]]; cbn [tk]; [|by rewrite Ea].
  rewrite Es, upd_ne by congruence. apply upd_eq.
Qed.

(** C17. delay(msecs) on a thread other than the idle thread, in any state the system reaches:
    for 1 to 4294966 milliseconds the call returns, the thread sleeps until the tick
    [msecs] comes, and is ready or runs at that tick, whatever the threads, interrupts and
    timers of the system do meanwhile; and millis() shows the time that passed. *)
Theorem delay_wakes_on_time es st msecs : reaches es st -> r_current (tk st) <> mainthread -> 1 <= msecs <= 4294966 ->
  exists st1, delay rlist fuel vfuel p_vt wakeup_fn msecs st = Some st1 /\
    sleeps_for (all_after es {[mainthread]}) (r_current (tk st)) msecs (vt_resume p_vt st1) /\
    forall es' st' app_start_time, run_tevents es' (vt_resume p_vt st1) = Some st' ->
      millis app_start_time st' = u32 (millis app_start_time st + tticks es').
Proof using Hsys.
  intros Hes Hi Hm. destruct (time_conversions msecs ltac:(lia)) as ([Em _] & _); [lia|]. unfold delay. rewrite Em.
  destruct (sleeping_call es st msecs Hes Hi) as (st1 & E & Hs & Ht); [unfold TIME_INFINITE; lia|].
  exists st1. split; [done|split; [done|]]. intros es' st' a E'. specialize (Ht es' st' E').
  assert (Hms : forall u, u32 (ST2MS (chVTTimeElapsedSinceX a u)) = u32 (chVTGetSystemTimeX u - a)).
  { intros u. unfold chVTTimeElapsedSinceX. pose proof (u32_range (chVTGetSystemTimeX u - a)) as Hr. set (m := u32 (chVTGetSystemTimeX u - a)) in *.
    unfold ST2MS, CH_CFG_ST_FREQUENCY, u64. rewrite Z.mod_small by lia. replace (_ / _) with m by divs. by rewrite u32_id. }
  unfold millis. rewrite !Hms, Ht. unfold u32. rewrite Zminus_mod_idemp_l, Zplus_mod_idemp_l. f_equal. lia.
Qed.

(** chThdSleepUntil(time): the thread becomes ready exactly when the system time is
    [time]; a time that is now does not sleep; but the last tick, 2^32 - 1 ticks ahead,
    is the value TIME_INFINITE, and the thread sleeps without a timer, for ever. *)
Theorem sleep_until_wakes es st time : reaches es st -> r_current (tk st) <> mainthread -> is_u32 time ->
  let n := u32 (time - now st) in
  let call := chThdSleepUntil rlist fuel vfuel p_vt wakeup_fn time st in
  (n = 0 -> call = Some st) /\
  (1 <= n < TIME_INFINITE -> exists st1, call = Some st1 /\
     sleeps_for (all_after es {[mainthread]}) (r_current (tk st)) n (vt_resume p_vt st1) /\
     forall es' st', run_tevents es' (vt_resume p_vt st1) = Some st' -> tticks es' = n -> now st' = time) /\
  (n = TIME_INFINITE -> exists st1, call = Some st1 /\ p_state (tk st1) (r_current (tk st)) = CH_STATE_SLEEPING /\
     armed (tk st1) (r_current (tk st)) = false /\ tv st1 = tv st).
Proof using Hsys.
  intros Hes Hi Hti n call. unfold call, chThdSleepUntil. fold n. split; [|split].
  - intros ->. done.
  - intros Hn. replace (0 <? n) with true by lia. destruct (sleeping_call es st n Hes Hi Hn) as (st1 & E & Hs & Ht).
    exists st1. split; [done|split; [done|]]. intros es' st' E' En. rewrite (Ht es' st' E'), En.
    unfold n, u32. rewrite Zplus_mod_idemp_r. replace (now st + (time - now st)) with time by lia. by apply u32_id.
  - intros ->. by apply (sleep_forever es st).
Qed.

(** chThdSleepUntilWindowed sleeps until the deadline when called in time, and returns at
    once when called late. *)
Lemma sleep_windowed st prev next : is_u32 (now st) -> is_u32 next ->
  chThdSleepUntilWindowed rlist fuel vfuel p_vt wakeup_fn prev next st =
  if chVTIsTimeWithinX (now st) prev next then
    match chThdSleepUntil rlist fuel vfuel p_vt wakeup_fn next st with None => None | Some st => Some (next, st) end
  else Some (next, st).
Proof using.
  intros Hn Hx. unfold chThdSleepUntilWindowed, chThdSleepUntil. destruct (chVTIsTimeWithinX _ prev next) eqn:E; [|done].
  replace (0 <? u32 (next - now st)) with true; [done|]. symmetry. apply Z.ltb_lt. pose proof (u32_range (next - now st)).
  unfold chVTIsTimeWithinX in E. apply Z.ltb_lt in E. destruct (Z.eqb_spec (u32 (next - now st)) 0) as [E0|]; [|lia].
  assert (next = now st) as ->; [|lia]. unfold u32 in E0. apply Z.mod_divide in E0 as [q E0]; lia.
Qed.
(** C37. Nothing keeps delay(0), or a delay that overflows to 0 ticks such as delay(4294967),
    from the timer list: the call puts a timer of 0 ticks at its head, the next tick wraps
    it to 2^32 - 1, and neither the thread nor any other timer of the system is woken by
    the next 2^32 - 1 ticks (49 days). *)
Theorem delay_zero_stalls es st msecs n : reaches es st -> r_current (tk st) <> mainthread -> MS2ST msecs = 0 -> Z.of_nat n < 4294967296 ->
  exists st1 st2, delay rlist fuel vfuel p_vt wakeup_fn msecs st = Some st1 /\
    p_state (tk st1) (r_current (tk st)) = CH_STATE_SLEEPING /\
    tick_handlers rlist fuel vfuel wakeup_fn prog n (vt_resume p_vt st1) = Some ([], st2).
Proof using Hsys.
  intros Hes Hi Hm Hn. destruct (reaches_ok es st Hes) as [(l & ((G & qs & Hk & Htop & Hq) & Hl & Ho)) _].
  destruct Hsys as (_ & _ & _ & _ & (Hinj & Hpool & Hfn & Hprog) & _). unfold delay. rewrite Hm.
  set (x := r_current (tk st)) in *. set (T := all_after es {[mainthread]}) in *.
  destruct (sleep_call G T st qs 0 Hk Hi) as (qs1 & Hk1 & Ea & Es & Hne).
  change (0 =? TIME_INFINITE) with false in Ea. cbv iota in Ea. fold x in Ea, Es, Hne.
  set (k1 := chThdSleep rlist 0 (tk st)) in *.
  destruct (km_run _ _ _ _ _ _ _ _ Hk) as (Hc & _). destruct (Ho x Hc) as [Hp Hv].
  assert (Hni : ~ In (p_vt x) (ids l)) by (intros Hin; apply (to_armed _ _ _ _ _ _ _ Hl x Hc) in Hin; unfold quiet in Hq; fold x in Hq; congruence).
  destruct (chVTDoSetI_ok vfuel (Timer (p_vt x) 0 wakeup_fn x) (tv st) l (to_implements _ _ _ _ _ _ _ Hl)) as (s1 & E1 & H1 & _); try done.
  { pose proof (implements_length pool _ l (to_implements _ _ _ _ _ _ _ Hl) (proj2 (to_wf _ _ _ _ _ _ _ Hl))). lia. }
  assert (Hins : spec_insert (Timer (p_vt x) 0 wakeup_fn x) l = Timer (p_vt x) 0 wakeup_fn x :: l).
  { destruct l as [|t r]; [done|]. cbn [spec_insert t_left]. pose proof (to_positive _ _ _ _ _ _ _ Hl t (or_introl eq_refl)).
    by replace (t_left t <? 0) with false by lia. }
  rewrite Hins in H1. cbn [t_id t_left t_func t_par] in E1.
  unfold timed_call. cbn [Kernel.run_call time_of]. fold k1 x. rewrite Ea, upd_eq. unfold vt_start. rewrite E1.
  set (y := r_current k1) in *. destruct (km_run _ _ _ _ _ _ _ _ Hk1) as (Hc1 & _). fold y in Hc1. destruct (Ho y Hc1) as [_ Hvy].
  destruct (chVTReset_ok (p_vt y) s1 _ H1) as [H2 _]; [|done|].
  { intros t [<-|Ht]; [cbn; lia|]. by apply (proj1 (to_wf _ _ _ _ _ _ _ Hl)). }
  cbn [spec_reset List.filter t_id] in H2. rewrite (proj2 (Z.eqb_neq (p_vt x) (p_vt y))) in H2 by (intros E; apply Hinj in E; congruence).
  cbn [negb] in H2. fold (spec_reset (p_vt y) l) in H2.
  pose proof (proj1 (im_links _ _ H2)) as Hnx. destruct (im_deltas _ _ H2) as (_ & Hd & _). cbn [t_id t_left] in Hnx, Hd.
  change (tv (vt_resume p_vt (TK k1 s1))) with (chVTReset (p_vt y) s1) in *.
  destruct vfuel as [|v]; [lia|].
  destruct (zero_head_stalls rlist fuel v wakeup_fn prog (vt_resume p_vt (TK k1 s1)) (p_vt x) n Hnx Hv Hd Hn) as (st2 & E2).
  exists (TK k1 s1), st2. split; [done|split; [|done]]. cbn [tk]. rewrite Es, upd_ne by congruence. apply upd_eq.
Qed.
End Arduino.

(** ** A concrete system *)

Definition demo_vt (x : Z) : Z := x + 10000.

Lemma demo_system : system_ok 1000 2000 4 3 demo_vt 77 (fun _ _ => []) [12000; 12100] [] blank demo_memory.
Proof.
  split; [|split; [|split; [|split; [|split; [|split]]]]]; try done.
  - split; [apply NoDup_ListNoDup; repeat constructor; cbn; lia|split; [done|intros sp n []]].
  - lia.
  - split; [unfold demo_vt; lia|split; [cbn; lia|split; [done|constructor]]].
  - by left.
Qed.

(** The thread 2100 is created and runs; three ticks pass. *)
Definition demo_start : list tevent := [TCall (Create 2100 64); TTick; TTick; TTick].
Definition demo_state : tkernel :=
  default (TK blank demo_memory) (run_tevents 1000 4 3 demo_vt 77 (fun _ _ => []) demo_start (boot 1000 2000 [] blank demo_memory)).

Lemma ticks_are_valid rlist idle fuel vfuel kind p_vt wakeup_fn prog pool n : forall T st,
  valid_tevents rlist idle fuel vfuel kind p_vt wakeup_fn prog pool T (repeat TTick n) st.
Proof. induction n as [|n IH]; intros T st; [done|]. by split. Qed.

Lemma demo_start_valid :
  valid_tevents 1000 2000 4 3 (kinds 1000 []) demo_vt 77 (fun _ _ => []) [12000; 12100] {[2000]} demo_start (boot 1000 2000 [] blank demo_memory).
Proof.
  split; [split; [|split; [done|split; [done|]]]|].
  - split; [done|split; [set_solver|split; [by vm_compute|split; [done|]]]]. apply Nat.leb_le. by vm_compute.
  - split; [right; by left|done].
  - intros st' _. apply (ticks_are_valid _ _ _ _ _ _ _ _ _ 3).
Qed.

Lemma demo_reaches : reaches 1000 2000 4 3 demo_vt 77 (fun _ _ => []) [12000; 12100] [] blank demo_memory demo_start demo_state.
Proof. split; [exact demo_start_valid|by vm_compute]. Qed.

Lemma timers_implement_timeouts_witness :
  let st := boot 1000 2000 [] blank demo_memory in
  exists st' kes, run_tevents 1000 4 3 demo_vt 77 (fun _ _ => []) demo_start st = Some st' /\
    run_events 1000 4 kes (tk st) = Some (tk st') /\ chVTGetSystemTimeX (tv st') = 3.
Proof.
  destruct demo_system as (Ho & Hb & Hf & Hu & Hset & Hp & Hv).
  destruct (timers_implement_timeouts 1000 2000 4 3 demo_vt 77 (fun _ _ => []) [12000; 12100] [] blank demo_memory demo_start
    Ho Hb Hf Hu Hset Hp Hv demo_start_valid) as (st' & kes & H1 & H2 & _ & H3 & _).
  exists st', kes. split; [exact H1|split; [exact H2|exact H3]].
Defined.

Lemma delay_wakes_on_time_witness :
  let x := r_current (tk demo_state) in
  x = 2100 /\ exists st1 st', delay 1000 4 3 demo_vt 77 2 demo_state = Some st1 /\
    run_tevents 1000 4 3 demo_vt 77 (fun _ _ => []) [TTick; TTick] (vt_resume demo_vt st1) = Some st' /\
    runnable (p_state (tk st') x) = true /\ millis 0 st' = 5.
Proof.
  intros x. assert (Ex : x = 2100) by (by vm_compute). split; [exact Ex|].
  destruct (delay_wakes_on_time 1000 2000 4 3 demo_vt 77 (fun _ _ => []) [12000; 12100] [] blank demo_memory demo_system
    demo_start demo_state 2 demo_reaches) as (st1 & E & Hs & Hm); [by vm_compute|lia|].
  destruct (Hs [TTick; TTick] (ticks_are_valid _ _ _ _ _ _ _ _ _ 2 _ _)) as (st' & E' & _ & Hr).
  exists st1, st'. split; [exact E|split; [exact E'|split; [by apply (Hr [TTick])|]]].
  rewrite (Hm _ _ 0 E'). by vm_compute.
Defined.

Lemma sleep_until_wakes_witness :
  let x := r_current (tk demo_state) in
  exists st1 st', chThdSleepUntil 1000 4 3 demo_vt 77 5 demo_state = Some st1 /\
    run_tevents 1000 4 3 demo_vt 77 (fun _ _ => []) [TTick; TTick] (vt_resume demo_vt st1) = Some st' /\
    runnable (p_state (tk st') x) = true /\ chVTGetSystemTimeX (tv st') = 5.
Proof.
  intros x.
  destruct (sleep_until_wakes 1000 2000 4 3 demo_vt 77 (fun _ _ => []) [12000; 12100] [] blank demo_memory demo_system
    demo_start demo_state 5 demo_reaches) as (_ & H & _); [by vm_compute|lia|].
  assert (En : u32 (5 - chVTGetSystemTimeX (tv demo_state)) = 2) by (by vm_compute). rewrite En in H.
  destruct H as (st1 & E & Hs & Ht); [unfold TIME_INFINITE; lia|].
  destruct (Hs [TTick; TTick] (ticks_are_valid _ _ _ _ _ _ _ _ _ 2 _ _)) as (st' & E' & _ & Hr).
  exists st1, st'. split; [exact E|split; [exact E'|split; [by apply (Hr [TTick])|by apply (Ht _ _ E')]]].
Defined.

Lemma delay_zero_stalls_witness :
  exists st1 st2, delay 1000 4 3 demo_vt 77 4294967 demo_state = Some st1 /\ p_state (tk st1) 2100 = CH_STATE_SLEEPING /\
    tick_handlers 1000 4 3 77 (fun _ _ => []) 5000 (vt_resume demo_vt st1) = Some ([], st2).
Proof.
  assert (Ex : r_current (tk demo_state) = 2100) by (by vm_compute).
  destruct (delay_zero_stalls 1000 2000 4 3 demo_vt 77 (fun _ _ => []) [12000; 12100] [] blank demo_memory demo_system
    demo_start demo_state 4294967 5000 demo_reaches) as (st1 & st2 & H1 & H2 & H3); [by rewrite Ex|done|lia|].
  rewrite Ex in H2. exists st1, st2. exact (conj H1 (conj H2 H3)).
Defined.
