(* ===== verification/Serial.v ===== *)
(** The serial driver (os/hal/src/serial.c, os/hal/include/serial.h) with its low-level
    driver for the KL02 (os/hal/ports/KINETIS/KL02x/serial_lld.c): an input and an output
    queue between the threads and the interrupt of the UART, and a source of events.

    The UART is an interface ([Uart]): the registers the driver uses, the list of the
    bytes that were handed to the transmitter, and a relation [device] for what the
    hardware does by itself, with laws that the reference manual states ([UartLaws]).

    A sequence of operations interleaves the sections of threads (up to the point where
    they wait or release the lock), interrupts, the device, and arbitrary changes of the
    rest of the kernel.  Proved, for every such sequence: each operation returns; the
    bytes accepted from threads are the bytes sent followed by the contents of the output
    queue; the bytes that arrived and were not reported as overrun are the bytes delivered
    to threads followed by the contents of the input queue; and output that waits always
    has the transmit interrupt enabled. *)
From S2P Require Import Prelude Ring Queues Sched SchedOk Kernel IOQueues Events.
Local Open Scope Z_scope.

Definition SERIAL_BUFFERS_SIZE : Z := 16.
Definition SD_STOP : Z := 1.
Definition SD_READY : Z := 2.
Definition CHN_INPUT_AVAILABLE : Z := 4.
Definition CHN_OUTPUT_EMPTY : Z := 8.
Definition SD_OVERRUN_ERROR : Z := 128.

Definition UARTx_C2_TIE : Z := 0x80.
Definition UARTx_C2_RIE : Z := 0x20.
Definition UARTx_C2_TE : Z := 0x08.
Definition UARTx_C2_RE : Z := 0x04.
Definition UARTx_S1_TDRE : Z := 0x80.
Definition UARTx_S1_RDRF : Z := 0x20.
Definition UARTx_S1_IDLE : Z := 0x10.
Definition UARTx_S1_OR : Z := 0x08.
Definition UARTx_S1_NF : Z := 0x04.
Definition UARTx_S1_FE : Z := 0x02.
Definition UARTx_S1_PF : Z := 0x01.
Definition S1_errors : Z := Z.lor (Z.lor (Z.lor UARTx_S1_OR UARTx_S1_NF) UARTx_S1_FE) UARTx_S1_PF.

(** ** The UART *)

(** The registers that only the configuration writes. *)
Inductive uart_reg : Set := BDH | BDL | C1 | C3 | C4.

Class Uart (U : Type) := {
  S1 : U -> Z;
  C2 : U -> Z;
  write_S1 : Z -> U -> U;
  write_C2 : Z -> U -> U;
  read_D : U -> Z * U;
  write_D : Z -> U -> U;
  write_reg : uart_reg -> Z -> U -> U;
  sent : U -> list Z;
  device : U -> U -> Prop
}.

Definition TDRE `{Uart U} (u : U) : bool := negb (Z.land (S1 u) UARTx_S1_TDRE =? 0).
Definition RDRF `{Uart U} (u : U) : bool := negb (Z.land (S1 u) UARTx_S1_RDRF =? 0).
Definition TIE `{Uart U} (u : U) : bool := negb (Z.land (C2 u) UARTx_C2_TIE =? 0).

(** What a step leaves alone: the bytes sent and the control register; and the data
    register does not become full. *)
Definition tx_same `{Uart U} (u u' : U) : Prop := sent u' = sent u /\ C2 u' = C2 u /\ (TDRE u = true -> TDRE u' = true).

Class UartLaws (U : Type) `{Uart U} : Prop := {
  write_D_sent : forall b u, TDRE u = true -> sent (write_D b u) = sent u ++ [b] /\ C2 (write_D b u) = C2 u;
  write_C2_law : forall v u, is_u8 v -> C2 (write_C2 v u) = v /\ sent (write_C2 v u) = sent u /\ TDRE (write_C2 v u) = TDRE u;
  write_S1_law : forall v u, tx_same u (write_S1 v u);
  read_D_law : forall u, is_u8 (fst (read_D u)) /\ tx_same u (snd (read_D u));
  device_law : forall u u', device u u' -> tx_same u u';
  C2_range : forall u, is_u8 (C2 u)
}.

(** ** The driver *)

Section Driver.
Context (rlist : Z) (fuel : nat) (event : Z).
Context {U : Type} `{Uart U}.

Record serial : Type := Serial {
  sd_state : Z;
  sd_iq : io_queue;
  sd_oq : io_queue;
  sd_e : estate;
  sd_uart : U
}.
Definition set_state v y := Serial v (sd_iq y) (sd_oq y) (sd_e y) (sd_uart y).
Definition set_iq v y := Serial (sd_state y) v (sd_oq y) (sd_e y) (sd_uart y).
Definition set_oq v y := Serial (sd_state y) (sd_iq y) v (sd_e y) (sd_uart y).
Definition set_e v y := Serial (sd_state y) (sd_iq y) (sd_oq y) v (sd_uart y).
Definition set_uart v y := Serial (sd_state y) (sd_iq y) (sd_oq y) (sd_e y) v.
Definition kern (y : serial) : kernel := ek (sd_e y).
Definition set_kern (k : kernel) (y : serial) : serial := set_e (set_ek k (sd_e y)) y.

(** sdObjectInit, with the addresses of the two queues of waiting threads. *)
Definition sdObjectInit (iwait owait : Z) (ib ob : list Z) (y : serial) : serial :=
  let y := set_e (chEvtObjectInit event (sd_e y)) y in
  let y := set_state SD_STOP y in
  let '(q, k) := chIQObjectInit iwait ib (kern y) in
  let y := set_kern k (set_iq q y) in
  let '(q, k) := chOQObjectInit owait ob (kern y) in
  set_kern k (set_oq q y).

Definition chnAddFlagsI (flags : Z) (y : serial) : option serial :=
  match chEvtBroadcastFlagsI rlist fuel event flags (sd_e y) with None => None | Some e => Some (set_e e y) end.

Definition iqPutI (b : Z) (y : serial) : option (Z * serial) :=
  match chIQPutI rlist fuel b (sd_iq y) (kern y) with
  | None => None
  | Some (r, q, k) => Some (r, set_kern k (set_iq q y))
  end.
Definition oqGetI (y : serial) : option (Z * serial) :=
  match chOQGetI rlist fuel (sd_oq y) (kern y) with
  | None => None
  | Some (r, q, k) => Some (r, set_kern k (set_oq q y))
  end.

(** The byte comes from [rd], which is evaluated between the two tests of the queue. *)
Definition incoming (rd : U -> Z * U) (y : serial) : option serial :=
  match (if chIQIsEmptyI (sd_iq y) then chnAddFlagsI CHN_INPUT_AVAILABLE y else Some y) with
  | None => None
  | Some y =>
      let '(b, u) := rd (sd_uart y) in
      match iqPutI b (set_uart u y) with
      | None => None
      | Some (r, y) => if r <? Q_OK then chnAddFlagsI SD_OVERRUN_ERROR y else Some y
      end
  end.
Definition sdIncomingDataI (b : Z) : serial -> option serial := incoming (fun u => (b, u)).

Definition sdRequestDataI (y : serial) : option (Z * serial) :=
  match oqGetI y with
  | None => None
  | Some (b, y) =>
      if b <? Q_OK then match chnAddFlagsI CHN_OUTPUT_EMPTY y with None => None | Some y => Some (b, y) end
      else Some (b, y)
  end.

Definition sdPutWouldBlock (y : serial) : bool := chOQIsFullI (sd_oq y).
Definition sdGetWouldBlock (y : serial) : bool := chIQIsEmptyI (sd_iq y).

(** sdStop, after sd_lld_stop. *)
Definition sdStop (y : serial) : option serial :=
  let y := set_state SD_STOP y in
  match chOQResetI rlist fuel (sd_oq y) (kern y) with
  | None => None
  | Some (q, k) =>
      let y := set_kern k (set_oq q y) in
      match chIQResetI rlist fuel (sd_iq y) (kern y) with
      | None => None
      | Some (q, k) =>
          let y := set_kern k (set_iq q y) in
          match chSchRescheduleS rlist fuel (kern y) with
          | None => None
          | Some k => Some (set_kern k y)
          end
      end
  end.

(** ** serial_lld.c *)

Definition preload (y : serial) : option serial :=
  if TDRE (sd_uart y) then
    match oqGetI y with
    | None => None
    | Some (b, y) =>
        if b <? Q_OK then chnAddFlagsI CHN_OUTPUT_EMPTY y
        else
          let u := write_D b (sd_uart y) in
          Some (set_uart (write_C2 (Z.lor (C2 u) UARTx_C2_TIE) u) y)
    end
  else Some y.

Definition serve_receive (y : serial) : option serial :=
  if RDRF (sd_uart y) then incoming read_D y else Some y.

Definition serve_transmit (y : serial) : option serial :=
  if TDRE (sd_uart y) then
    match oqGetI y with
    | None => None
    | Some (b, y) =>
        if b <? Q_OK then
          match chnAddFlagsI CHN_OUTPUT_EMPTY y with
          | None => None
          | Some y => Some (set_uart (write_C2 (Z.ldiff (C2 (sd_uart y)) UARTx_C2_TIE) (sd_uart y)) y)
          end
        else Some (set_uart (write_D b (sd_uart y)) y)
    end
  else Some y.

(** The idle and the error flags are cleared by writing ones. *)
Definition serve_flags (u : U) : U :=
  let u := if negb (Z.land (S1 u) UARTx_S1_IDLE =? 0) then write_S1 UARTx_S1_IDLE u else u in
  if negb (Z.land (S1 u) S1_errors =? 0) then write_S1 S1_errors u else u.

Definition serve_interrupt (y : serial) : option serial :=
  match serve_receive y with
  | None => None
  | Some y =>
      match serve_transmit y with
      | None => None
      | Some y => Some (set_uart (serve_flags (sd_uart y)) y)
      end
  end.

(** The interrupt of UART0; a sketch may have installed functions of its own. *)
Definition Vector70 (serialFastISR : option (serial -> option (Z * serial)))
    (serialISR : option (serial -> option serial)) (y : serial) : option serial :=
  match match serialFastISR with None => Some (1, y) | Some f => f y end with
  | None => None
  | Some (more, y) =>
      if more =? 0 then Some y
      else
        match match serialISR with Some f => f y | None => serve_interrupt y end with
        | None => None
        | Some y => match irq_epilogue rlist fuel (kern y) with None => None | Some k => Some (set_kern k y) end
        end
  end.

(** [while (uart->S1 & UARTx_S1_RDRF) (void)uart->D;] *)
Fixpoint drain (n : nat) (u : U) : option U :=
  match n with
  | O => None
  | S n => if RDRF u then drain n (snd (read_D u)) else Some u
  end.

Definition configure_uart (n : nat) (uart_clock sc_speed : Z) (u : U) : option U :=
  let u := write_reg C1 0 u in
  let u := write_reg C3 0x0F u in
  let u := write_S1 (Z.lor UARTx_S1_IDLE S1_errors) u in
  match drain n u with
  | None => None
  | Some u =>
      let divisor := u16 (uart_clock / 16 / sc_speed) in
      let u := write_reg C4 (Z.land 0x1F (16 - 1)) u in
      let u := write_reg BDH (Z.land (Z.shiftr divisor 8) 0x1F) u in
      let u := write_reg BDL (Z.land divisor 0xFF) u in
      Some (write_C2 (Z.lor (Z.lor UARTx_C2_RE UARTx_C2_RIE) UARTx_C2_TE) u)
  end.

(** ** The queues seen from a thread *)

Definition out_world (y : serial) : world serial := World (sd_oq y) (kern y) y.
Definition out_serial (w : world serial) : serial := set_oq (w_q w) (set_kern (w_k w) (w_d w)).
Definition in_world (y : serial) : world serial := World (sd_iq y) (kern y) y.
Definition in_serial (w : world serial) : serial := set_iq (w_q w) (set_kern (w_k w) (w_d w)).

Definition notify1 (w : world serial) : option (world serial) :=
  match preload (out_serial w) with None => None | Some y => Some (out_world y) end.

Definition thread_out (f : world serial -> option (outcome * world serial)) (y : serial) : option (outcome * serial) :=
  match f (out_world y) with None => None | Some (o, w) => Some (o, out_serial w) end.
Definition thread_in (f : world serial -> option (outcome * world serial)) (y : serial) : option (outcome * serial) :=
  match f (in_world y) with None => None | Some (o, w) => Some (o, in_serial w) end.
Definition thread_out_n (f : world serial -> option (outcome * transfer * world serial)) (y : serial)
    : option (outcome * transfer * serial) :=
  match f (out_world y) with None => None | Some (o, t, w) => Some (o, t, out_serial w) end.
Definition thread_in_n (f : world serial -> option (outcome * transfer * world serial)) (y : serial)
    : option (outcome * transfer * serial) :=
  match f (in_world y) with None => None | Some (o, t, w) => Some (o, t, in_serial w) end.

Definition putt (b time : Z) := thread_out (chOQPutTimeout rlist (Some notify1) b time).
Definition put_resume (b time : Z) := thread_out (oq_put_resume rlist (Some notify1) b time).
Definition put (b : Z) := putt b TIME_INFINITE.
Definition gett (time : Z) := thread_in (chIQGetTimeout rlist None time).
Definition get_resume (time : Z) := thread_in (iq_get_resume rlist time).
Definition get := gett TIME_INFINITE.
Definition writet (bp : list Z) (time : Z) := thread_out_n (chOQWriteTimeout rlist (Some notify1) bp time).
Definition write_next (t : transfer) (time : Z) := thread_out_n (oq_write_loop rlist (Some notify1) time t).
Definition write_resume (t : transfer) (time : Z) := thread_out_n (oq_write_resume rlist (Some notify1) time t).
Definition write (bp : list Z) := writet bp TIME_INFINITE.
Definition readt (n time : Z) := thread_in_n (chIQReadTimeout rlist None n time).
Definition read_next (t : transfer) (time : Z) := thread_in_n (iq_read_next rlist None time t).
Definition read_resume (t : transfer) (time : Z) := thread_in_n (iq_read_resume rlist time t).
Definition read (n : Z) := readt n TIME_INFINITE.
End Driver.
#[global] Arguments serial : clear implicits.

(** ** The invariant *)

Section Correct.
Context (rlist idle : Z) (fuel : nat) (kind : gmap Z qkind) (event : Z).
Context {U : Type} `{UartLaws U}.

Section State.
Context (G : ghost) (T : gset Z) (R : gmap Z (list Z)).

(** The kernel and the queues; [ci] and [co] are the bytes in them. *)
Record driver_ok (y : serial U) (ci co : list Z) : Prop := {
  do_events : exists qs, events_ok rlist idle fuel kind G T R (sd_e y) qs;
  do_source : is_Some (R !! event);
  do_iq : ioq_ok kind true (sd_iq y) ci;
  do_oq : ioq_ok kind false (sd_oq y) co
}.

(** Output that waits, or that is on its way, has the interrupt enabled. *)
Definition tx_ok (u : U) (co : list Z) : Prop := TDRE u = false \/ co <> [] -> TIE u = true.

(** The state of the UART is not part of it. *)
Lemma driver_uart y u ci co : driver_ok y ci co -> driver_ok (set_uart u y) ci co.
Proof. by intros []. Qed.

Lemma driver_fine y ci co : driver_ok y ci co -> kernel_fine rlist idle fuel kind G T (kern y).
Proof. intros [(qs & Hs) _ _ _]. exists qs. apply (eo_mid _ _ _ _ _ _ _ _ _ Hs). Qed.

Lemma driver_kernel y ci co k : driver_ok y ci co -> kernel_fine rlist idle fuel kind G T k ->
  moved T (r_current (kern y)) (kern y) k ->
  exists qs, events_ok rlist idle fuel kind G T R (set_ek k (sd_e y)) qs.
Proof. intros [(qs & Hs) _ _ _] [qs' Hk] Hm. exists qs'. by apply (moved_eok rlist idle fuel kind G T R _ qs). Qed.

Lemma driver_isr y ci co k : driver_ok y ci co -> kernel_fine rlist idle fuel kind G T k -> same_run (kern y) k ->
  exists qs, events_ok rlist idle fuel kind G T R (set_ek k (sd_e y)) qs.
Proof. intros Hy Hk (_ & Ha & _ & _ & Hm). apply (driver_kernel y ci co); [done|done|]. by apply calm_moved. Qed.

Lemma chnAddFlagsI_ok flags (y : serial U) ci co : driver_ok y ci co ->
  exists y', chnAddFlagsI rlist fuel event flags y = Some y' /\ driver_ok y' ci co /\
    sd_uart y' = sd_uart y /\ sd_iq y' = sd_iq y /\ sd_oq y' = sd_oq y.
Proof.
  intros [(qs & Hs) Hr Hi Ho]. unfold chnAddFlagsI.
  destruct (broadcast_eok rlist idle fuel kind G T R (sd_e y) qs event flags Hs Hr) as (e' & qs' & -> & Hs' & _).
  eexists. split; [done|split; [|done]]. constructor; try done. by exists qs'.
Qed.

Lemma oqGetI_ok y ci co : driver_ok y ci co ->
  match co with
  | [] => oqGetI rlist fuel y = Some (Q_EMPTY, y)
  | b :: co => exists y', oqGetI rlist fuel y = Some (b, y') /\ driver_ok y' ci co /\ sd_uart y' = sd_uart y /\
      sd_iq y' = sd_iq y /\ is_u8 b
  end.
Proof.
  intros Hy. pose proof (chOQGetI_spec rlist idle fuel kind G T (sd_oq y) co (kern y) (do_oq _ _ _ Hy) (driver_fine _ _ _ Hy)) as Hg.
  unfold oqGetI. destruct co as [|b co].
  - rewrite Hg. by destruct y as [? ? ? [] ?].
  - destruct Hg as (q' & k' & -> & Hq' & Hk' & Hsr & _ & _ & Hb). eexists. split; [done|split; [|done]].
    destruct (driver_isr y ci (b :: co) k' Hy Hk' Hsr) as [qs' Hs']. destruct Hy. constructor; try done. by exists qs'.
Qed.

(** The bytes [x] leave the queue for the transmitter. *)
Definition passes (y y' : serial U) (co co' : list Z) : Prop :=
  exists x, co = x ++ co' /\ sent (sd_uart y') = sent (sd_uart y) ++ x.

Lemma passes_refl y y' co : sent (sd_uart y') = sent (sd_uart y) -> passes y y' co co.
Proof. intros E. exists []. by rewrite E, app_nil_r. Qed.

Lemma TIE_set v : is_u8 v -> negb (Z.land (Z.lor v UARTx_C2_TIE) UARTx_C2_TIE =? 0) = true /\ is_u8 (Z.lor v UARTx_C2_TIE).
Proof.
  intros Hv. split; [|by apply lor_u8]. rewrite Z.land_lor_distr_l. change (Z.land UARTx_C2_TIE UARTx_C2_TIE) with 128.
  destruct (Z.eqb_spec (Z.lor (Z.land v UARTx_C2_TIE) 128) 0) as [E|]; [|done]. apply Z.lor_eq_0_iff in E. by destruct E.
Qed.

Lemma ldiff_range v m : is_u8 v -> is_u8 (Z.ldiff v m).
Proof.
  intros Hv. apply (range_by_bits 8); [done|apply Z.ldiff_nonneg; lia|]. intros i Hi.
  by rewrite Z.ldiff_spec, (testbit_high 8 v) by lia.
Qed.

Lemma preload_ok y ci co : driver_ok y ci co -> (TDRE (sd_uart y) = false -> TIE (sd_uart y) = true) -> co <> [] ->
  exists y' co', preload rlist fuel event y = Some y' /\ driver_ok y' ci co' /\ passes y y' co co' /\
    tx_ok (sd_uart y') co' /\ sd_iq y' = sd_iq y.
Proof.
  intros Hy Ht Hn. unfold preload. destruct (TDRE (sd_uart y)) eqn:E.
  - destruct co as [|b co]; [done|]. destruct (oqGetI_ok y ci (b :: co) Hy) as (y1 & -> & Hy1 & Eu & Ei & Hb).
    replace (b <? Q_OK) with false by (unfold Q_OK, MSG_OK; lia). eexists _, co. split; [done|].
    split; [by apply driver_uart|]. cbn [sd_uart set_uart]. rewrite Eu. destruct (write_D_sent b (sd_uart y) E) as [W1 W2].
    rewrite W2. destruct (TIE_set (C2 (sd_uart y)) (C2_range _)) as [T1 T2].
    destruct (write_C2_law (Z.lor (C2 (sd_uart y)) UARTx_C2_TIE) (write_D b (sd_uart y)) T2) as (C1 & C3 & _).
    split; [|split; [|done]].
    + exists [b]. split; [done|]. cbn [sd_uart set_uart]. by rewrite C3, W1.
    + intros _. unfold TIE. by rewrite C1.
  - exists y, co. split; [done|split; [done|split; [by apply passes_refl|split; [|done]]]]. intros _. auto.
Qed.

(** The transmitter is served; an empty queue disables the interrupt. *)
Lemma serve_transmit_ok y ci co : driver_ok y ci co -> tx_ok (sd_uart y) co ->
  exists y' co', serve_transmit rlist fuel event y = Some y' /\ driver_ok y' ci co' /\ passes y y' co co' /\
    tx_ok (sd_uart y') co' /\ sd_iq y' = sd_iq y.
Proof.
  intros Hy Ht. unfold serve_transmit. destruct (TDRE (sd_uart y)) eqn:E.
  - pose proof (oqGetI_ok y ci co Hy) as Hg. destruct co as [|b co].
    + rewrite Hg. change (Q_EMPTY <? Q_OK) with true. cbv iota.
      destruct (chnAddFlagsI_ok CHN_OUTPUT_EMPTY y ci [] Hy) as (y1 & -> & Hy1 & Eu & Ei & _).
      eexists _, []. split; [done|split; [by apply driver_uart|]]. cbn [sd_uart set_uart]. rewrite Eu.
      destruct (write_C2_law (Z.ldiff (C2 (sd_uart y)) UARTx_C2_TIE) (sd_uart y)) as (C1 & C3 & C4);
        [apply ldiff_range, C2_range|].
      split; [by apply passes_refl|split; [|done]]. intros [Hf|Hf]; [|done]. by rewrite C4, E in Hf.
    + destruct Hg as (y1 & -> & Hy1 & Eu & Ei & Hb). replace (b <? Q_OK) with false by (unfold Q_OK, MSG_OK; lia).
      eexists _, co. split; [done|split; [by apply driver_uart|]]. cbn [sd_uart set_uart]. rewrite Eu.
      destruct (write_D_sent b (sd_uart y) E) as [W1 W2]. split; [|split; [|done]].
      * exists [b]. split; [done|]. cbn [sd_uart set_uart]. by rewrite W1.
      * intros _. unfold TIE. rewrite W2. apply Ht. by right.
  - exists y, co. split; [done|split; [done|split; [by apply passes_refl|split; [|done]]]]. intros _. apply Ht. by left.
Qed.

(** A byte arrives. *)
Definition arrives (q : io_queue) (b : Z) : list Z := if chIQIsFullI q then [] else [b].

Lemma incoming_ok rd y ci co : driver_ok y ci co -> is_u8 (fst (rd (sd_uart y))) ->
  exists y', incoming rlist fuel event rd y = Some y' /\
    driver_ok y' (ci ++ arrives (sd_iq y) (fst (rd (sd_uart y)))) co /\
    sd_uart y' = snd (rd (sd_uart y)) /\ sd_oq y' = sd_oq y.
Proof.
  intros Hy Hb. unfold incoming.
  assert (H1 : exists y1, (if chIQIsEmptyI (sd_iq y) then chnAddFlagsI rlist fuel event CHN_INPUT_AVAILABLE y else Some y) = Some y1 /\
    driver_ok y1 ci co /\ sd_uart y1 = sd_uart y /\ sd_iq y1 = sd_iq y /\ sd_oq y1 = sd_oq y).
  { destruct (chIQIsEmptyI _); [by apply chnAddFlagsI_ok|by exists y]. }
  destruct H1 as (y1 & -> & Hy1 & Eu1 & Ei1 & Eo1). rewrite Eu1. destruct (rd (sd_uart y)) as [b u] eqn:Erd. cbn [fst snd] in *.
  destruct (chIQPutI_spec rlist idle fuel kind G T (sd_iq y1) ci (kern y1) b (do_iq _ _ _ Hy1) (driver_fine _ _ _ Hy1) Hb)
    as (q' & k' & Hk' & Hsr & Ew & Es & Hput).
  unfold iqPutI, arrives, chIQIsFullI. rewrite (pointers_equal _ _ _ _ (do_iq _ _ _ Hy)), <- Ei1.
  change (chIQPutI rlist fuel b (sd_iq (set_uart u y1)) (kern (set_uart u y1))) with (chIQPutI rlist fuel b (sd_iq y1) (kern y1)).
  destruct (driver_isr y1 ci co k' Hy1 Hk' Hsr) as [qs' Hs'].
  case_bool_decide as Hf.
  - destruct Hput as (-> & -> & ->). change (Q_FULL <? Q_OK) with true. cbv iota. rewrite app_nil_r.
    destruct (chnAddFlagsI_ok SD_OVERRUN_ERROR (set_kern (kern y1) (set_iq (sd_iq y1) (set_uart u y1))) ci co) as (y2 & E2 & Hy2 & Eu2 & _ & Eo2).
    { destruct Hy1. constructor; try done. by exists qs'. }
    exists y2. split; [exact E2|split; [done|]]. by rewrite Eu2, Eo2.
  - destruct Hput as [-> Hq']. change (Q_OK <? Q_OK) with false. cbv iota. eexists. split; [done|split; [|done]].
    destruct Hy1. constructor; try done. by exists qs'.
Qed.

Lemma tx_same_trans (u1 u2 u3 : U) : tx_same u1 u2 -> tx_same u2 u3 -> tx_same u1 u3.
Proof. intros (A1 & A2 & A3) (B1 & B2 & B3). split; [congruence|split; [congruence|auto]]. Qed.
Lemma tx_same_ok (u u' : U) co : tx_same u u' -> tx_ok u co -> tx_ok u' co.
Proof.
  intros (_ & E & Ht) Hx Hc. unfold TIE. rewrite E. apply Hx. destruct Hc as [Hc|]; [left|by right].
  destruct (TDRE u); [|done]. by rewrite Ht in Hc.
Qed.

Lemma serve_flags_same (u : U) : tx_same u (serve_flags u).
Proof.
  unfold serve_flags. assert (Hr : forall u : U, tx_same u u) by done. cbv zeta.
  destruct (negb (Z.land (S1 u) UARTx_S1_IDLE =? 0)); cbv iota;
    match goal with |- tx_same _ (if ?c then _ else _) => destruct c end;
    eauto using tx_same_trans, write_S1_law.
Qed.

(** What an interrupt reads. *)
Definition isr_arrives (y : serial U) : list Z :=
  if RDRF (sd_uart y) then arrives (sd_iq y) (fst (read_D (sd_uart y))) else [].

Lemma serve_interrupt_ok y ci co : driver_ok y ci co -> tx_ok (sd_uart y) co ->
  exists y' co', serve_interrupt rlist fuel event y = Some y' /\ driver_ok y' (ci ++ isr_arrives y) co' /\
    passes y y' co co' /\ tx_ok (sd_uart y') co'.
Proof.
  intros Hy Ht. unfold serve_interrupt.
  assert (H1 : exists y1, serve_receive rlist fuel event y = Some y1 /\ driver_ok y1 (ci ++ isr_arrives y) co /\
    tx_same (sd_uart y) (sd_uart y1)).
  { unfold serve_receive, isr_arrives. destruct (RDRF (sd_uart y)).
    - destruct (read_D_law (sd_uart y)) as [Hb Hs]. destruct (incoming_ok read_D y ci co Hy Hb) as (y1 & E & Hy1 & Eu & _).
      exists y1. split; [done|split; [done|]]. by rewrite Eu.
    - exists y. by rewrite app_nil_r. }
  destruct H1 as (y1 & -> & Hy1 & Hs1). pose proof (tx_same_ok _ _ co Hs1 Ht) as Ht1.
  destruct (serve_transmit_ok y1 _ co Hy1 Ht1) as (y2 & co' & -> & Hy2 & (x & Ex & Es) & Ht2 & _).
  pose proof (serve_flags_same (sd_uart y2)) as Hs3. eexists _, co'. split; [done|split; [by apply driver_uart|split]].
  - exists x. split; [done|]. cbn [sd_uart set_uart]. destruct Hs3 as (-> & _). rewrite Es. by destruct Hs1 as (-> & _).
  - cbn [sd_uart set_uart]. by apply (tx_same_ok (sd_uart y2)).
Qed.

(** ** The sections of threads *)

Definition serial_ok (y : serial U) (ci co : list Z) : Prop := driver_ok y ci co /\ tx_ok (sd_uart y) co.

(** The bytes [a] are accepted, and [x] passed on to the transmitter. *)
Definition moves (y y' : serial U) (co a co' : list Z) : Prop :=
  exists x, co ++ a = x ++ co' /\ sent (sd_uart y') = sent (sd_uart y) ++ x.

Lemma moves_none (y y' : serial U) co : sent (sd_uart y') = sent (sd_uart y) -> moves y y' co [] co.
Proof. intros E. exists []. by rewrite E, !app_nil_r. Qed.

Lemma out_world_eta (y : serial U) : out_serial (out_world y) = y.
Proof. by destruct y as [? ? ? [] ?]. Qed.

(** The thread goes to sleep on the output queue, or finds its time over. *)
Lemma wait_out y ci co time ret : serial_ok y ci co -> r_current (kern y) <> idle ->
  exists y', thread_out (wait_queue_of rlist time ret) y =
      Some (if time =? TIME_IMMEDIATE then Returned (ret MSG_TIMEOUT) else Asleep, y') /\
    serial_ok y' ci co /\ sd_uart y' = sd_uart y.
Proof.
  intros [Hy Ht] Hi. unfold thread_out.
  destruct (wait_spec rlist idle fuel kind G T time ret (out_world y) (io_kind _ _ _ _ (do_oq _ _ _ Hy)) (driver_fine _ _ _ Hy) Hi)
    as (k' & Hk' & Hm & ->).
  eexists. split; [done|]. split; [|done]. split; [|done].
  destruct (driver_kernel y ci co k' Hy Hk' Hm) as [qs' Hs']. destruct Hy. constructor; try done. by exists qs'.
Qed.

Lemma wait_in y ci co time ret : serial_ok y ci co -> r_current (kern y) <> idle ->
  exists y', thread_in (wait_queue_of rlist time ret) y =
      Some (if time =? TIME_IMMEDIATE then Returned (ret MSG_TIMEOUT) else Asleep, y') /\
    serial_ok y' ci co /\ sd_uart y' = sd_uart y.
Proof.
  intros [Hy Ht] Hi. unfold thread_in.
  destruct (wait_spec rlist idle fuel kind G T time ret (in_world y) (io_kind _ _ _ _ (do_iq _ _ _ Hy)) (driver_fine _ _ _ Hy) Hi)
    as (k' & Hk' & Hm & ->).
  eexists. split; [done|]. split; [|done]. split; [|done].
  destruct (driver_kernel y ci co k' Hy Hk' Hm) as [qs' Hs']. destruct Hy. constructor; try done. by exists qs'.
Qed.

(** A byte is stored in the output queue, and the transmitter started. *)
Lemma store_ok y ci co b : serial_ok y ci co -> is_u8 b -> chOQIsFullI (sd_oq y) = false ->
  exists q' w', put_byte b (set_counter (u32 (q_counter (sd_oq y) - 1)) (sd_oq y)) = Some q' /\
    notify (Some (notify1 rlist fuel event)) (World q' (kern y) y) = Some w' /\
    exists co', serial_ok (out_serial w') ci co' /\ moves y (out_serial w') co [b] co'.
Proof.
  intros [Hy Ht] Hb Hf. pose proof (do_oq _ _ _ Hy) as Hq. pose proof (ioq_bounds _ _ _ _ Hq) as Hbd.
  unfold chOQIsFullI in Hf. rewrite (counter_zero _ _ _ _ Hq) in Hf. apply bool_decide_eq_false in Hf.
  destruct (ioq_put kind false (sd_oq y) co Hq b) as (q' & E & Hq' & _); [lia|done|].
  exists q'. change (q_counter (sd_oq y) - 1) with (q_counter (sd_oq y) + -1). rewrite E.
  set (y1 := set_oq q' (set_kern (kern y) y)).
  assert (Hy1 : driver_ok y1 ci (co ++ [b])).
  { destruct Hy as [(qs & Hs) Hr Hiq _]. constructor; try done. exists qs. by destruct y as [? ? ? [] ?]. }
  destruct (preload_ok y1 ci (co ++ [b]) Hy1) as (y2 & co' & E2 & Hy2 & (x & Ex & Es) & Ht2 & _).
  { intros Hd. apply Ht. by left. }
  { by destruct co. }
  exists (out_world y2). split; [done|]. unfold notify, notify1.
  change (out_serial (World q' (kern y) y)) with y1. rewrite E2. split; [done|].
  exists co'. rewrite out_world_eta. split; [by split|]. by exists x.
Qed.

(** What the return of a put accepted, and what that of a get delivered. *)
Definition accepted (o : outcome) (b : Z) : list Z := match o with Returned 0 => [b] | _ => [] end.
Definition delivered (o : outcome) : list Z := match o with Returned r => if 0 <=? r then [r] else [] | _ => [] end.

Lemma put_ok y ci co b time : serial_ok y ci co -> is_u8 b -> r_current (kern y) <> idle ->
  exists o y' co', putt rlist fuel event b time y = Some (o, y') /\ serial_ok y' ci co' /\
    moves y y' co (accepted o b) co'.
Proof.
  intros Hy Hb Hi. unfold putt, thread_out, chOQPutTimeout, oq_put_loop. cbn [w_q w_k w_d out_world].
  destruct (chOQIsFullI (sd_oq y)) eqn:Hf.
  - destruct (wait_out y ci co time (fun msg => msg) Hy Hi) as (y' & E & Hy' & Eu). unfold thread_out in E. rewrite E.
    eexists _, y', co. split; [done|split; [done|]].
    destruct (time =? TIME_IMMEDIATE); apply moves_none; by rewrite Eu.
  - destruct (store_ok y ci co b Hy Hb Hf) as (q' & w' & -> & -> & co' & Hy' & Hm). by eexists _, _, co'.
Qed.

Lemma put_resume_ok y ci co b time : serial_ok y ci co -> is_u8 b -> r_current (kern y) <> idle ->
  exists o y' co', put_resume rlist fuel event b time y = Some (o, y') /\ serial_ok y' ci co' /\
    moves y y' co (accepted o b) co'.
Proof.
  intros Hy Hb Hi. destruct (put_ok y ci co b time Hy Hb Hi) as (o & y' & co' & E & H1).
  unfold put_resume, putt, thread_out, oq_put_resume, chOQPutTimeout in *.
  destruct (Z.ltb_spec (wait_msg (out_world y)) Q_OK) as [Hm|]; [|by exists o, y', co'].
  eexists _, _, co. rewrite out_world_eta. split; [done|split; [done|]]. unfold Q_OK, MSG_OK in Hm.
  destruct (wait_msg (out_world y)); try lia. by apply moves_none.
Qed.

(** The bytes that a step of a transfer consumed. *)
Definition consumed (t t' : transfer) : list Z := take (length (t_buf t) - length (t_buf t')) (t_buf t).

Lemma consumed_same t : consumed t t = [].
Proof. unfold consumed. by rewrite Nat.sub_diag. Qed.

Lemma write_next_ok y ci co t time : serial_ok y ci co -> t_buf t <> [] -> Forall (fun b => is_u8 b) (t_buf t) ->
  r_current (kern y) <> idle ->
  exists o t' y' co', write_next rlist fuel event t time y = Some (o, t', y') /\ serial_ok y' ci co' /\
    moves y y' co (consumed t t') co'.
Proof.
  intros Hy Hn Hb Hi. unfold write_next, thread_out_n, oq_write_loop. cbn [w_q w_k w_d out_world].
  destruct (chOQIsFullI (sd_oq y)) eqn:Hf.
  - destruct (wait_out y ci co time (fun _ => t_r t) Hy Hi) as (y' & E & Hy' & Eu). unfold thread_out in E.
    destruct (wait_queue_of _ _ _ _) as [[o w]|]; [|done]. injection E as -> <-.
    eexists _, t, _, co. split; [done|split; [done|]]. rewrite consumed_same. apply moves_none. by rewrite Eu.
  - destruct t as [[|b bp] n r]; [done|]. cbn [t_buf] in *. apply list.Forall_cons in Hb as [Hb _].
    destruct (store_ok y ci co b Hy Hb Hf) as (q' & w' & -> & -> & co' & Hy' & Hm). eexists _, _, _, co'.
    split; [done|split; [done|]]. unfold consumed. cbn [t_buf length]. by replace (S (length bp) - length bp)%nat with 1%nat by lia.
Qed.

Lemma write_resume_ok y ci co t time : serial_ok y ci co -> t_buf t <> [] -> Forall (fun b => is_u8 b) (t_buf t) ->
  r_current (kern y) <> idle ->
  exists o t' y' co', write_resume rlist fuel event t time y = Some (o, t', y') /\ serial_ok y' ci co' /\
    moves y y' co (consumed t t') co'.
Proof.
  intros Hy Hn Hb Hi. destruct (write_next_ok y ci co t time Hy Hn Hb Hi) as (o & t' & y' & co' & E & H1).
  unfold write_resume, write_next, thread_out_n, oq_write_resume in *.
  destruct (negb _); [|by exists o, t', y', co']. eexists _, t, _, co. rewrite out_world_eta.
  split; [done|split; [done|]]. rewrite consumed_same. by apply moves_none.
Qed.

(** The first byte of the input queue. *)
Lemma take_ok y ci co : serial_ok y ci co -> chIQIsEmptyI (sd_iq y) = false ->
  exists b q' ci', ci = b :: ci' /\ is_u8 b /\
    get_byte (set_counter (u32 (q_counter (sd_iq y) - 1)) (sd_iq y)) = Some (b, q') /\
    serial_ok (in_serial (World q' (kern y) y)) ci' co.
Proof.
  intros [Hy Ht] Hf. pose proof (do_iq _ _ _ Hy) as Hq.
  unfold chIQIsEmptyI in Hf. rewrite (counter_zero _ _ _ _ Hq) in Hf. apply bool_decide_eq_false in Hf.
  destruct ci as [|b ci]; [done|]. destruct (ioq_get kind true (sd_iq y) b ci Hq) as (q' & E & Hq' & _ & _ & Hb).
  exists b, q', ci. split; [done|split; [done|split; [exact E|]]]. split; [|done].
  destruct Hy as [(qs & Hs) Hr _ Ho]. constructor; try done. exists qs. by destruct y as [? ? ? [] ?].
Qed.

Lemma get_loop_ok y ci co time : serial_ok y ci co -> r_current (kern y) <> idle ->
  exists o y' ci', thread_in (iq_get_loop rlist time) y = Some (o, y') /\ serial_ok y' ci' co /\
    ci = delivered o ++ ci' /\ sd_uart y' = sd_uart y.
Proof.
  intros Hy Hi. unfold thread_in, iq_get_loop. cbn [w_q w_k w_d in_world].
  destruct (chIQIsEmptyI (sd_iq y)) eqn:Hf.
  - destruct (wait_in y ci co time (fun msg => msg) Hy Hi) as (y' & E & Hy' & Eu). unfold thread_in in E. rewrite E.
    eexists _, y', ci. split; [done|split; [done|split; [|done]]]. by destruct (time =? TIME_IMMEDIATE).
  - destruct (take_ok y ci co Hy Hf) as (b & q' & ci' & -> & Hb & -> & Hy'). eexists _, _, ci'.
    split; [done|split; [done|split; [|done]]]. cbn. by replace (0 <=? b) with true by lia.
Qed.

Lemma in_world_eta (y : serial U) : in_serial (in_world y) = y.
Proof. by destruct y as [? ? ? [] ?]. Qed.

Lemma get_resume_ok y ci co time : serial_ok y ci co -> r_current (kern y) <> idle ->
  exists o y' ci', get_resume rlist time y = Some (o, y') /\ serial_ok y' ci' co /\
    ci = delivered o ++ ci' /\ sd_uart y' = sd_uart y.
Proof.
  intros Hy Hi. destruct (get_loop_ok y ci co time Hy Hi) as (o & y' & ci' & E & H1).
  unfold get_resume, thread_in, iq_get_resume in *.
  destruct (Z.ltb_spec (wait_msg (in_world y)) Q_OK) as [Hm|]; [|by exists o, y', ci'].
  eexists _, _, ci. rewrite in_world_eta. split; [done|split; [done|split; [|done]]]. unfold Q_OK, MSG_OK in Hm.
  cbn. by replace (0 <=? wait_msg (in_world y)) with false by lia.
Qed.

(** The bytes that a step of a transfer produced. *)
Definition produced (t t' : transfer) : list Z := drop (length (t_buf t)) (t_buf t').

Lemma produced_same t : produced t t = [].
Proof. apply drop_ge. lia. Qed.

Lemma read_loop_ok y ci co t time : serial_ok y ci co -> r_current (kern y) <> idle ->
  exists o t' y' ci', thread_in_n (iq_read_loop rlist time t) y = Some (o, t', y') /\ serial_ok y' ci' co /\
    ci = produced t t' ++ ci' /\ sd_uart y' = sd_uart y.
Proof.
  intros Hy Hi. unfold thread_in_n, iq_read_loop. cbn [w_q w_k w_d in_world].
  destruct (chIQIsEmptyI (sd_iq y)) eqn:Hf.
  - destruct (wait_in y ci co time (fun _ => t_r t) Hy Hi) as (y' & E & Hy' & Eu). unfold thread_in in E.
    destruct (wait_queue_of _ _ _ _) as [[o w]|]; [|done]. injection E as -> <-.
    eexists _, t, _, ci. split; [done|split; [done|split; [|done]]]. by rewrite produced_same.
  - destruct (take_ok y ci co Hy Hf) as (b & q' & ci' & -> & Hb & -> & Hy'). eexists _, _, _, ci'.
    split; [done|split; [done|split; [|done]]]. unfold produced. cbn [t_buf]. by rewrite drop_app_length.
Qed.

Lemma read_resume_ok y ci co t time : serial_ok y ci co -> r_current (kern y) <> idle ->
  exists o t' y' ci', read_resume rlist t time y = Some (o, t', y') /\ serial_ok y' ci' co /\
    ci = produced t t' ++ ci' /\ sd_uart y' = sd_uart y.
Proof.
  intros Hy Hi. destruct (read_loop_ok y ci co t time Hy Hi) as (o & t' & y' & ci' & E & H1).
  unfold read_resume, thread_in_n, iq_read_resume in *.
  destruct (negb _); [|by exists o, t', y', ci']. eexists _, t, _, ci. rewrite in_world_eta.
  split; [done|split; [done|split; [|done]]]. by rewrite produced_same.
Qed.
End State.
End Correct.

(** ** Sequences of operations *)

Inductive sd_op (U : Type) : Type :=
  | OPut (b time : Z) | OPutResume (b time : Z)
  | OWrite (t : transfer) (time : Z) | OWriteResume (t : transfer) (time : Z)
  | OGet (time : Z) | OGetResume (time : Z)
  | ORead (t : transfer) (time : Z) | OReadResume (t : transfer) (time : Z)
  | OIsr | ODevice (u : U) | OEnv (e : estate).
#[global] Arguments OPut {U}.
#[global] Arguments OPutResume {U}.
#[global] Arguments OWrite {U}.
#[global] Arguments OWriteResume {U}.
#[global] Arguments OGet {U}.
#[global] Arguments OGetResume {U}.
#[global] Arguments ORead {U}.
#[global] Arguments OReadResume {U}.
#[global] Arguments OIsr {U}.
#[global] Arguments ODevice {U}.
#[global] Arguments OEnv {U}.

(** The bytes that threads put and got and that arrived, in order. *)
Record traffic : Type := Traffic { tr_put : list Z; tr_got : list Z; tr_in : list Z }.
Definition quiet_line : traffic := Traffic [] [] [].
Definition join (a b : traffic) : traffic :=
  Traffic (tr_put a ++ tr_put b) (tr_got a ++ tr_got b) (tr_in a ++ tr_in b).

Section Runs.
Context (rlist idle : Z) (fuel : nat) (kind : gmap Z qkind) (event : Z).
Context {U : Type} `{UartLaws U}.

Definition put_traffic (b : Z) (r : option (outcome * serial U)) : option (traffic * serial U) :=
  match r with None => None | Some (o, y) => Some (Traffic (accepted o b) [] [], y) end.
Definition write_traffic (t : transfer) (r : option (outcome * transfer * serial U)) : option (traffic * serial U) :=
  match r with None => None | Some (_, t', y) => Some (Traffic (consumed t t') [] [], y) end.
Definition get_traffic (r : option (outcome * serial U)) : option (traffic * serial U) :=
  match r with None => None | Some (o, y) => Some (Traffic [] (delivered o) [], y) end.
Definition read_traffic (t : transfer) (r : option (outcome * transfer * serial U)) : option (traffic * serial U) :=
  match r with None => None | Some (_, t', y) => Some (Traffic [] (produced t t') [], y) end.

Definition run_sd (o : sd_op U) (y : serial U) : option (traffic * serial U) :=
  match o with
  | OPut b time => put_traffic b (putt rlist fuel event b time y)
  | OPutResume b time => put_traffic b (put_resume rlist fuel event b time y)
  | OWrite t time => write_traffic t (write_next rlist fuel event t time y)
  | OWriteResume t time => write_traffic t (write_resume rlist fuel event t time y)
  | OGet time => get_traffic (gett rlist time y)
  | OGetResume time => get_traffic (get_resume rlist time y)
  | ORead t time => read_traffic t (read_next rlist t time y)
  | OReadResume t time => read_traffic t (read_resume rlist t time y)
  | OIsr => match Vector70 rlist fuel event None None y with
            | None => None
            | Some y' => Some (Traffic [] [] (isr_arrives y), y')
            end
  | ODevice u => Some (quiet_line, set_uart u y)
  | OEnv e => Some (quiet_line, set_e e y)
  end.

Fixpoint run_sds (os : list (sd_op U)) (y : serial U) : option (traffic * serial U) :=
  match os with
  | [] => Some (quiet_line, y)
  | o :: os =>
      match run_sd o y with
      | None => None
      | Some (a, y) => match run_sds os y with None => None | Some (b, y) => Some (join a b, y) end
      end
  end.

(** The kernel with its events is well formed, and the event source of the driver is one
    of its sources. *)
Definition env_ok (e : estate) : Prop :=
  exists G T R qs, events_ok rlist idle fuel kind G T R e qs /\ is_Some (R !! event).

(** The idle thread does not wait; a transfer has bytes left; the device makes one of its
    steps; the rest of the kernel may do anything that keeps its invariant. *)
Definition valid_sd (o : sd_op U) (y : serial U) : Prop :=
  match o with
  | OPut b _ | OPutResume b _ => is_u8 b /\ r_current (kern y) <> idle
  | OWrite t _ | OWriteResume t _ =>
      t_buf t <> [] /\ Forall (fun b => is_u8 b) (t_buf t) /\ r_current (kern y) <> idle
  | OGet _ | OGetResume _ | ORead _ _ | OReadResume _ _ => r_current (kern y) <> idle
  | OIsr => True
  | ODevice u => device (sd_uart y) u
  | OEnv e => env_ok e
  end.

Fixpoint valid_sds (os : list (sd_op U)) (y : serial U) : Prop :=
  match os with
  | [] => True
  | o :: os => valid_sd o y /\ forall a y', run_sd o y = Some (a, y') -> valid_sds os y'
  end.

(** The driver in some state of the rest of the kernel. *)
Definition sd_ok (y : serial U) (ci co : list Z) : Prop :=
  exists G T R, serial_ok rlist idle fuel kind event G T R y ci co.

(** Output and input balance. *)
Definition balance (y y' : serial U) (a : traffic) (ci co ci' co' : list Z) : Prop :=
  moves y y' co (tr_put a) co' /\ ci ++ tr_in a = tr_got a ++ ci'.

Lemma moves_trans (y1 y2 y3 : serial U) c1 a c2 b c3 : moves y1 y2 c1 a c2 -> moves y2 y3 c2 b c3 -> moves y1 y3 c1 (a ++ b) c3.
Proof.
  intros (x1 & E1 & S1') (x2 & E2 & S2). exists (x1 ++ x2).
  rewrite S2, S1', !app_assoc. split; [|done]. rewrite E1, <- !app_assoc. by rewrite E2.
Qed.

Lemma balance_trans y1 y2 y3 a b ci1 co1 ci2 co2 ci3 co3 : balance y1 y2 a ci1 co1 ci2 co2 ->
  balance y2 y3 b ci2 co2 ci3 co3 -> balance y1 y3 (join a b) ci1 co1 ci3 co3.
Proof.
  intros [M1 E1] [M2 E2]. split; [by apply (moves_trans y1 y2 y3 co1 _ co2)|].
  cbn. rewrite app_assoc, E1, <- !app_assoc. by rewrite E2.
Qed.

Lemma balance_same y y' ci co : sent (sd_uart y') = sent (sd_uart y) -> balance y y' quiet_line ci co ci co.
Proof. intros E. split; [by apply moves_none|]. cbn. by rewrite app_nil_r. Qed.

Lemma run_sd_ok o y ci co : sd_ok y ci co -> valid_sd o y ->
  exists a y' ci' co', run_sd o y = Some (a, y') /\ sd_ok y' ci' co' /\ balance y y' a ci co ci' co'.
Proof.
  intros (G & T & R & Hy) Hv. unfold sd_ok.
  assert (Hput : forall b r, (exists o y' co', r = Some (o, y') /\ serial_ok rlist idle fuel kind event G T R y' ci co' /\
      moves y y' co (accepted o b) co') ->
    exists a y' ci' co', put_traffic b r = Some (a, y') /\
      (exists G T R, serial_ok rlist idle fuel kind event G T R y' ci' co') /\ balance y y' a ci co ci' co').
  { intros b r (o' & y' & co' & -> & H1 & H2). eexists _, y', ci, co'. split; [done|split; [by exists G, T, R|]].
    split; [done|]. cbn. by rewrite app_nil_r. }
  assert (Hwrite : forall t r, (exists o t' y' co', r = Some (o, t', y') /\ serial_ok rlist idle fuel kind event G T R y' ci co' /\
      moves y y' co (consumed t t') co') ->
    exists a y' ci' co', write_traffic t r = Some (a, y') /\
      (exists G T R, serial_ok rlist idle fuel kind event G T R y' ci' co') /\ balance y y' a ci co ci' co').
  { intros t r (o' & t' & y' & co' & -> & H1 & H2). eexists _, y', ci, co'. split; [done|split; [by exists G, T, R|]].
    split; [done|]. cbn. by rewrite app_nil_r. }
  assert (Hget : forall r, (exists o y' ci', r = Some (o, y') /\ serial_ok rlist idle fuel kind event G T R y' ci' co /\
      ci = delivered o ++ ci' /\ sd_uart y' = sd_uart y) ->
    exists a y' ci' co', get_traffic r = Some (a, y') /\
      (exists G T R, serial_ok rlist idle fuel kind event G T R y' ci' co') /\ balance y y' a ci co ci' co').
  { intros r (o' & y' & ci' & -> & H1 & E & Eu). eexists _, y', ci', co. split; [done|split; [by exists G, T, R|]].
    split; [apply moves_none; by rewrite Eu|]. cbn. by rewrite app_nil_r. }
  assert (Hread : forall t r, (exists o t' y' ci', r = Some (o, t', y') /\ serial_ok rlist idle fuel kind event G T R y' ci' co /\
      ci = produced t t' ++ ci' /\ sd_uart y' = sd_uart y) ->
    exists a y' ci' co', read_traffic t r = Some (a, y') /\
      (exists G T R, serial_ok rlist idle fuel kind event G T R y' ci' co') /\ balance y y' a ci co ci' co').
  { intros t r (o' & t' & y' & ci' & -> & H1 & E & Eu). eexists _, y', ci', co. split; [done|split; [by exists G, T, R|]].
    split; [apply moves_none; by rewrite Eu|]. cbn. by rewrite app_nil_r. }
  destruct o as [b time|b time|t time|t time|time|time|t time|t time| |u|e]; cbn [run_sd valid_sd] in *.
  - apply Hput. destruct Hv. by apply (put_ok rlist idle fuel kind event G T R).
  - apply Hput. destruct Hv. by apply (put_resume_ok rlist idle fuel kind event G T R).
  - apply Hwrite. destruct Hv as (? & ? & ?). by apply (write_next_ok rlist idle fuel kind event G T R).
  - apply Hwrite. destruct Hv as (? & ? & ?). by apply (write_resume_ok rlist idle fuel kind event G T R).
  - apply Hget. by apply (get_loop_ok rlist idle fuel kind event G T R).
  - apply Hget. by apply (get_resume_ok rlist idle fuel kind event G T R).
  - apply Hread. by apply (read_loop_ok rlist idle fuel kind event G T R).
  - apply Hread. by apply (read_resume_ok rlist idle fuel kind event G T R).
  - destruct Hy as [Hy Ht]. destruct (serve_interrupt_ok rlist idle fuel kind event G T R y ci co Hy Ht) as
      (y1 & co' & E & Hy1 & (x & Ex & Es) & Ht1).
    unfold Vector70. change (1 =? 0) with false. cbv iota. rewrite E.
    destruct (driver_fine _ _ _ _ _ _ _ _ _ _ _ Hy1) as [qs Hk].
    destruct (epilogue_ok rlist idle fuel kind G T (kern y1) qs Hk) as (k' & qs' & -> & Hk' & _ & Hsw).
    eexists _, _, _, co'. split; [done|split].
    + exists G, T, R. split; [|done].
      destruct (driver_kernel rlist idle fuel kind event G T R y1 _ co' k' Hy1) as [qs2 Hs2];
        [by exists qs'|by apply swapped_moved|]. destruct Hy1. constructor; try done. by exists qs2.
    + split; [|done]. exists x. by rewrite app_nil_r.
  - destruct (device_law (sd_uart y) u Hv) as (D1 & D2 & D3). eexists _, _, ci, co. split; [done|split].
    + exists G, T, R. destruct Hy as [Hy Ht]. split; [by apply driver_uart|]. by apply (tx_same_ok (sd_uart y)).
    + by apply balance_same.
  - destruct Hv as (G' & T' & R' & qs & He & HR). eexists _, _, ci, co. split; [done|split].
    + exists G', T', R'. destruct Hy as [[_ _ H1 H2] Ht]. split; [|done]. constructor; try done. by exists qs.
    + by apply balance_same.
Qed.

Lemma run_sds_ok : forall os y ci co, sd_ok y ci co -> valid_sds os y ->
  exists a y' ci' co', run_sds os y = Some (a, y') /\ sd_ok y' ci' co' /\ balance y y' a ci co ci' co'.
Proof.
  induction os as [|o os IH]; intros y ci co Hy Hv; cbn [run_sds].
  - eexists _, y, ci, co. split; [done|split; [done|]]. by apply balance_same.
  - destruct Hv as [Hv1 Hv2]. destruct (run_sd_ok o y ci co Hy Hv1) as (a & y1 & ci1 & co1 & E & Hy1 & B1). rewrite E.
    destruct (IH y1 ci1 co1 Hy1 (Hv2 _ _ E)) as (b & y' & ci' & co' & -> & Hy' & B2).
    eexists _, y', ci', co'. split; [done|split; [done|]]. by apply (balance_trans y y1 y' a b ci co ci1 co1).
Qed.

(** The bytes in the queues, read from the buffers. *)
Definition in_bytes (y : serial U) : list Z := contents (q_buffer (sd_iq y)) (q_rdptr (sd_iq y)) (q_counter (sd_iq y)).
Definition out_bytes (y : serial U) : list Z :=
  contents (q_buffer (sd_oq y)) (q_rdptr (sd_oq y)) (chQSizeX (sd_oq y) - q_counter (sd_oq y)).

Lemma sd_bytes y ci co : sd_ok y ci co -> in_bytes y = ci /\ out_bytes y = co /\
  (length ci <= Z.to_nat (chQSizeX (sd_iq y)))%nat /\ (length co <= Z.to_nat (chQSizeX (sd_oq y)))%nat /\ tx_ok (sd_uart y) co.
Proof.
  intros (G & T & R & [_ _ Hi Ho] & Ht). unfold in_bytes, out_bytes.
  rewrite (io_counter _ _ _ _ Hi), (io_counter _ _ _ _ Ho).
  replace (chQSizeX (sd_oq y) - (chQSizeX (sd_oq y) - len co)) with (len co) by lia.
  pose proof (ioq_bounds _ _ _ _ Hi). pose proof (ioq_bounds _ _ _ _ Ho).
  rewrite (ring_contents _ _ _ _ (io_ring _ _ _ _ Hi)), (ring_contents _ _ _ _ (io_ring _ _ _ _ Ho)).
  unfold len in *. repeat split; try lia. exact Ht.
Qed.
End Runs.

(** C19. The serial driver neither loses, invents nor reorders bytes.  For any interleaving
    of puts and gets, of single bytes or of transfers, by threads that may wait, with
    interrupts, steps of the UART and anything else in the kernel: every operation
    returns; the bytes the threads put are those handed to the transmitter followed by
    those in the output queue; the bytes that arrived while there was room are those the
    threads got followed by those in the input queue; and while there is output to send
    the transmit interrupt is enabled, so that it does not stall. *)
Theorem serial_in_order rlist idle fuel kind event {U : Type} `{UartLaws U} (os : list (sd_op U)) y ci co :
  sd_ok rlist idle fuel kind event y ci co -> valid_sds rlist idle fuel kind event os y ->
  exists a y', run_sds rlist fuel event os y = Some (a, y') /\
    sent (sd_uart y) ++ out_bytes y ++ tr_put a = sent (sd_uart y') ++ out_bytes y' /\
    in_bytes y ++ tr_in a = tr_got a ++ in_bytes y' /\
    (TDRE (sd_uart y') = false \/ out_bytes y' <> [] -> TIE (sd_uart y') = true) /\
    (length (in_bytes y') <= Z.to_nat (chQSizeX (sd_iq y')))%nat /\
    (length (out_bytes y') <= Z.to_nat (chQSizeX (sd_oq y')))%nat.
Proof.
  intros Hy Hv. destruct (run_sds_ok rlist idle fuel kind event os y ci co Hy Hv) as
    (a & y' & ci' & co' & E & Hy' & (x & Ex & Es) & Ei).
  exists a, y'. split; [done|].
  destruct (sd_bytes _ _ _ _ _ _ _ _ Hy) as (-> & -> & _). destruct (sd_bytes _ _ _ _ _ _ _ _ Hy') as (-> & -> & L1 & L2 & Ht).
  rewrite Es, Ex, app_assoc. split; [done|split; [done|split; [exact Ht|by split]]].
Qed.

(** ** A UART that is always ready, and a driver with one thread *)

(** The bytes to receive, the control register, the bytes sent; the transmitter is busy
    after a write until the device takes the byte. *)
Record demo_uart : Type := DemoUart { du_rx : list Z; du_busy : bool; du_C2 : Z; du_sent : list Z }.

#[export] Instance demo_Uart : Uart demo_uart := {|
  S1 u := Z.lor (if du_busy u then 0 else UARTx_S1_TDRE) (match du_rx u with [] => 0 | _ => UARTx_S1_RDRF end);
  C2 u := u8 (du_C2 u);
  write_S1 _ u := u;
  write_C2 v u := DemoUart (du_rx u) (du_busy u) v (du_sent u);
  read_D u := match du_rx u with [] => (0, u) | b :: rx => (u8 b, DemoUart rx (du_busy u) (du_C2 u) (du_sent u)) end;
  write_D b u := DemoUart (du_rx u) true (du_C2 u) (du_sent u ++ [b]);
  write_reg _ _ u := u;
  sent := du_sent;
  device u u' := exists rx, u' = DemoUart rx false (du_C2 u) (du_sent u)
|}.

Lemma demo_TDRE u : TDRE u = negb (du_busy u).
Proof. unfold TDRE. cbn. by destruct (du_busy u), (du_rx u). Qed.

#[export] Instance demo_laws : UartLaws demo_uart.
Proof.
  assert (Hsame : forall u u' : demo_uart, du_sent u' = du_sent u -> C2 u' = C2 u -> (du_busy u = false -> du_busy u' = false) ->
    tx_same u u').
  { intros u u' E1 E2 E3. split; [done|split; [done|]]. rewrite !demo_TDRE. destruct (du_busy u); [done|]. by rewrite E3. }
  constructor.
  - done.
  - intros v u Hv. rewrite !demo_TDRE. cbn. by rewrite u8_id.
  - intros v u. by apply Hsame.
  - intros u. destruct u as [[|b rx] busy c sn]; (split; [first [apply u8_range|done]|by apply Hsame]).
  - intros u u' [rx ->]. by apply Hsame.
  - intros u. apply u8_range.
Qed.

Definition demo_objs : list (Z * object) := [(3000, ThreadQueue); (3100, ThreadQueue)].

Lemma demo_objs_ok : objects_ok 1000 2000 demo_objs.
Proof. split; [apply NoDup_ListNoDup; repeat constructor; cbn; lia|split; [done|]]. by intros sp n [[=]|[[=]|[]]]. Qed.

(** A thread runs, the event source is initialised, the queues are empty. *)
Definition demo_serial : serial demo_uart :=
  Serial SD_READY (IOQueue 3000 0 (repeat 0 16) 0 0) (IOQueue 3100 16 (repeat 0 16) 0 0)
    (default eblank (run_eevents 1000 4 [ECall (EKernel (Create 2100 64)); ECall (EInit 5000)] (event_boot 1000 2000 demo_objs eblank)))
    (DemoUart [] false 0 []).

Lemma demo_queue_ok (input : bool) w : kinds 1000 demo_objs !! w = Some QThreads ->
  ioq_ok (kinds 1000 demo_objs) input (IOQueue w (if input then 0 else 16) (repeat 0 16) 0 0) [].
Proof. intros Hk. constructor; [by apply ring_empty|done|by destruct input|by constructor|done]. Qed.

Lemma demo_serial_ok : sd_ok 1000 2000 4 (kinds 1000 demo_objs) 5000 demo_serial [] [].
Proof.
  set (es := [ECall (EKernel (Create 2100 64)); ECall (EInit 5000)]).
  assert (Hv : valid_eevents 1000 2000 4 (kinds 1000 demo_objs) {[2000]} ∅ (event_boot 1000 2000 demo_objs eblank) es).
  { apply valid_estep; [|apply valid_estep; [|done]].
    - split; [done|split; [set_solver|split; [by vm_compute|split; [done|]]]]. apply Nat.leb_le. by vm_compute.
    - intros esp l Hl. cbn [sources_after] in Hl. by rewrite lookup_empty in Hl. }
  destruct (run_eevents_ok _ _ _ _ es _ _ _ (event_boot_ok 1000 2000 4 demo_objs eblank demo_objs_ok ltac:(done) ltac:(lia)) Hv)
    as (s' & E & G & qs & Hs & _).
  eexists G, _, _. split; [|by intros [|]]. constructor; cbn [sd_e sd_iq sd_oq demo_serial].
  - exists qs. unfold demo_serial. cbn [sd_e]. fold es. rewrite E. exact Hs.
  - by eexists.
  - apply (demo_queue_ok true). by vm_compute.
  - apply (demo_queue_ok false). by vm_compute.
Qed.

Lemma valid_sd_step os o y : valid_sd 1000 2000 4 (kinds 1000 demo_objs) 5000 o y ->
  valid_sds 1000 2000 4 (kinds 1000 demo_objs) 5000 os (default y (snd <$> run_sd 1000 4 5000 o y)) ->
  valid_sds 1000 2000 4 (kinds 1000 demo_objs) 5000 (o :: os) y.
Proof. intros H1 H2. split; [done|]. intros a y' E. by rewrite E in H2. Qed.

(** Two bytes are put, the first is sent at once, the second by the interrupt that also
    receives a byte, which the thread then gets. *)
Lemma serial_in_order_witness :
  exists a y', run_sds 1000 4 5000 [OPut 65 TIME_INFINITE; OPut 66 TIME_INFINITE; ODevice (DemoUart [7] false 128 [65]); OIsr;
      OGet TIME_INFINITE] demo_serial = Some (a, y') /\
    [65; 66] = sent (sd_uart y') ++ out_bytes y' /\ [7] = tr_got a ++ in_bytes y' /\
    (TDRE (sd_uart y') = false \/ out_bytes y' <> [] -> TIE (sd_uart y') = true).
Proof.
  set (os := [_; _; _; _; _]).
  assert (Hv : valid_sds 1000 2000 4 (kinds 1000 demo_objs) 5000 os demo_serial).
  { apply valid_sd_step; [split; [lia|by vm_compute]|]. apply valid_sd_step; [split; [lia|by vm_compute]|].
    apply valid_sd_step; [exists [7]; by vm_compute|]. apply valid_sd_step; [done|]. apply valid_sd_step; [by vm_compute|done]. }
  destruct (serial_in_order 1000 2000 4 (kinds 1000 demo_objs) 5000 os demo_serial [] [] demo_serial_ok Hv) as
    (a & y' & E & E1 & E2 & E3 & _).
  exists a, y'. split; [exact E|]. assert (Ea : tr_put a = [65; 66] /\ tr_in a = [7]).
  { assert (Eo : (fun r => (tr_put (fst r), tr_in (fst r))) <$> run_sds 1000 4 5000 os demo_serial = Some ([65; 66], [7])) by by vm_compute.
    rewrite E in Eo. clear - Eo. cbn in Eo. injection Eo as E1 E2. split; assumption. }
  destruct Ea as [Ep Ei]. rewrite Ep in E1. rewrite Ei in E2. split; [exact E1|split; [exact E2|exact E3]].
Defined.

(** ** A put that does not reschedule *)

(** Threads 2100 and 2200, of priorities 64 and 70, wait for room in an output queue of
    one byte; the main thread runs. *)
Definition crowded_run : list eevent :=
  [ECall (EInit 5000); ECall (EKernel (Create 2100 64)); ECall (EKernel (EnqueueTimeout 3100 TIME_INFINITE));
   ECall (EKernel (Create 2200 70)); ECall (EKernel (EnqueueTimeout 3100 TIME_INFINITE))].
Definition crowded : serial demo_uart :=
  Serial SD_READY (IOQueue 3000 0 [0] 0 0) (IOQueue 3100 0 [66] 0 0)
    (default eblank (run_eevents 1000 4 crowded_run (event_boot 1000 2000 demo_objs eblank)))
    (DemoUart [] false 128 [65]).

Lemma crowded_ok : sd_ok 1000 2000 4 (kinds 1000 demo_objs) 5000 crowded [] [66].
Proof.
  assert (Hv : valid_eevents 1000 2000 4 (kinds 1000 demo_objs) {[2000]} ∅ (event_boot 1000 2000 demo_objs eblank) crowded_run).
  { unfold crowded_run. apply valid_estep; [|apply valid_estep; [|apply valid_estep; [|apply valid_estep; [|apply valid_estep; [|done]]]]].
    - intros esp l Hl. cbn [sources_after] in Hl. by rewrite lookup_empty in Hl.
    - split; [done|split; [set_solver|split; [by vm_compute|split; [done|]]]]. apply Nat.leb_le. by vm_compute.
    - split; by vm_compute.
    - split; [done|split; [set_solver|split; [by vm_compute|split; [done|]]]]. apply Nat.leb_le. by vm_compute.
    - split; by vm_compute. }
  destruct (run_eevents_ok _ _ _ _ crowded_run _ _ _ (event_boot_ok 1000 2000 4 demo_objs eblank demo_objs_ok ltac:(done) ltac:(lia)) Hv)
    as (s' & E & G & qs & Hs & _).
  eexists G, _, _. split; [|by vm_compute]. constructor; cbn [sd_e sd_iq sd_oq crowded].
  - exists qs. unfold crowded. cbn [sd_e]. rewrite E. exact Hs.
  - by eexists.
  - constructor; [by apply ring_empty|done|done|by constructor|by vm_compute].
  - constructor; [|done|done|by apply list.Forall_singleton|by vm_compute].
    constructor; [by vm_compute|done|done|]. intros [|i] c Hc; cbn in Hc; [by injection Hc as <-|by destruct i].
Qed.

(** A put may leave a thread of higher priority waiting for the processor.  The
    callback of the output queue takes a byte out again when the transmitter is idle,
    which wakes the next writer, and the put returns without rescheduling: the thread 2200
    of priority 70 is ready, and 2100 of priority 64 goes on. *)
Theorem put_without_reschedule : exists (os : list (sd_op demo_uart)) a y',
  sd_ok 1000 2000 4 (kinds 1000 demo_objs) 5000 crowded [] [66] /\
  valid_sds 1000 2000 4 (kinds 1000 demo_objs) 5000 os crowded /\
  run_sds 1000 4 5000 os crowded = Some (a, y') /\ tr_put a = [67] /\
  r_current (kern y') = 2100 /\ p_prio (kern y') 2100 = 64 /\
  p_state (kern y') 2200 = CH_STATE_READY /\ p_prio (kern y') 2200 = 70.
Proof.
  set (os := [OIsr; ODevice (DemoUart [] false 128 [65; 66]); OPutResume 67 TIME_INFINITE]).
  assert (Hv : valid_sds 1000 2000 4 (kinds 1000 demo_objs) 5000 os crowded).
  { apply valid_sd_step; [done|]. apply valid_sd_step; [exists []; by vm_compute|].
    apply valid_sd_step; [split; [lia|by vm_compute]|done]. }
  destruct (run_sds 1000 4 5000 os crowded) as [[a y']|] eqn:E; [|by vm_compute in E].
  exists os, a, y'. split; [apply crowded_ok|split; [exact Hv|split; [exact E|]]]. clear Hv.
  assert (Eo : (fun r => (tr_put (fst r), r_current (kern (snd r)), p_prio (kern (snd r)) 2100, p_state (kern (snd r)) 2200,
    p_prio (kern (snd r)) 2200)) <$> run_sds 1000 4 5000 os crowded = Some ([67], 2100, 64, CH_STATE_READY, 70)) by by vm_compute.
  rewrite E in Eo. clear - Eo. cbn in Eo. injection Eo as E1 E2 E3 E4 E5. repeat split; assumption.
Qed.
