(* ===== verification/SchedCold.v ===== *)
(** Memory that the operations of [Sched] do not touch.

    The links of a thread are only used while it is in a queue, and a list of threads that
    wait for the end of another one uses them otherwise.  Let [C] be a set of addresses, such
    as those of these threads.  If no queue leads to [C] ([away]), and [C] holds neither the
    running thread, nor one with a timer or in a reference, then no system call and no
    interrupt changes the links, the state or the word [p_u] of an address in [C]; nor does
    any make a thread enter one of the states [ends] of threads that end. *)
From S2P Require Import Prelude Queues Sched SchedOk Kernel.
Local Open Scope Z_scope.

Section Cold.
Context (rlist idle : Z) (fuel : nat) (kind : gmap Z qkind) (C : Z -> Prop) (ends : tstate -> Prop).
Context (HE : forall st, ends st -> st = CH_STATE_WTEXIT \/ st = CH_STATE_FINAL).

(** The states in which a thread with a timer is in a queue. *)
Definition timed_queue (st : tstate) : Prop :=
  match st with CH_STATE_WTSEM | CH_STATE_QUEUED | CH_STATE_WTCOND => True | _ => False end.

(** The addresses [H], which the links of queues do not leave, and the threads that an
    operation may start from. *)
Record away (H : Z -> Prop) (k : kernel) : Prop := {
  aw_headers : forall q, is_Some (kind !! q) -> H q;
  aw_closed : forall y, H y -> ~ C y /\ H (p_next (lk k) y) /\ H (p_prev (lk k) y);
  aw_current : ~ C (r_current k);
  aw_tref : forall trp, tref k trp <> NULL -> ~ C (tref k trp);
  aw_armed : forall y, armed k y = true -> ~ C y /\ (timed_queue (p_state k y) -> H y)
}.

Definition same (k k' : kernel) : Prop :=
  (forall x, C x -> p_next (lk k') x = p_next (lk k) x /\ p_state k' x = p_state k x /\ p_u k' x = p_u k x) /\
  forall x, ends (p_state k' x) -> p_state k' x = p_state k x.

(** The step from [k] to [k'] stays away from [C]; it may put threads into queues. *)
Definition safe (H : Z -> Prop) (k k' : kernel) : Prop :=
  exists H', (forall y, H y -> H' y) /\ away H' k' /\ same k k'.
Definition safe_opt (H : Z -> Prop) (k : kernel) (r : option kernel) : Prop := forall k', r = Some k' -> safe H k k'.

Lemma same_trans k1 k2 k3 : same k1 k2 -> same k2 k3 -> same k1 k3.
Proof.
  intros [H1 H1'] [H2 H2']. split.
  - intros x Hx. destruct (H1 x Hx) as (? & ? & ?), (H2 x Hx) as (? & ? & ?). split; [congruence|split; congruence].
  - intros x Hx. rewrite (H2' x Hx). apply H1'. by rewrite <- (H2' x Hx).
Qed.

Lemma same_states k k' : (forall x, C x -> p_next (lk k') x = p_next (lk k) x /\ p_u k' x = p_u k x) -> p_state k' = p_state k -> same k k'.
Proof. intros H Es. split; [intros x Hx; destruct (H x Hx); by rewrite Es|by rewrite Es]. Qed.

Lemma safe_here H k k' : away H k' -> same k k' -> safe H k k'.
Proof. intros Ha Hs. by exists H. Qed.

Lemma safe_trans H k k1 k2 : safe H k k1 -> (forall H', (forall y, H y -> H' y) -> away H' k1 -> safe H' k1 k2) -> safe H k k2.
Proof.
  intros (H1 & S1 & A1 & E1) Hn. destruct (Hn H1 S1 A1) as (H2 & S2 & A2 & E2). exists H2.
  split; [auto|split; [done|by apply (same_trans k k1)]].
Qed.

Lemma opt_here H k k' : safe H k k' -> safe_opt H k (Some k').
Proof. by intros Hs ? [= <-]. Qed.

Lemma opt_trans H k k1 r : safe H k k1 -> (forall H', (forall y, H y -> H' y) -> away H' k1 -> safe_opt H' k1 r) -> safe_opt H k r.
Proof. intros H1 Hn k2 E. apply (safe_trans H k k1); [done|]. intros H' HS HA. by apply (Hn H' HS HA). Qed.

(** First one step, then another. *)
Lemma opt_bind H k r (g : kernel -> option kernel) : safe_opt H k r ->
  (forall H' k1, (forall y, H y -> H' y) -> away H' k1 -> safe_opt H' k1 (g k1)) ->
  safe_opt H k (match r with None => None | Some k => g k end).
Proof.
  intros Hr Hg. destruct r as [k1|]; [|done]. apply (opt_trans H k k1); [by apply Hr|]. intros H' HS HA. by apply Hg.
Qed.

(** ** The steps *)

(** Fields of threads outside of [C]. *)
Lemma fields_safe H k k' : away H k -> lk k' = lk k -> r_current k' = r_current k -> tref k' = tref k -> armed k' = armed k ->
  (forall x, C x -> p_state k' x = p_state k x /\ p_u k' x = p_u k x) ->
  (forall y, timed_queue (p_state k' y) -> timed_queue (p_state k y) \/ H y) ->
  (forall x, ends (p_state k' x) -> p_state k' x = p_state k x) -> safe H k k'.
Proof.
  intros [A1 A2 A3 A4 A5] E1 E2 E3 E4 E5 E6 E7. apply safe_here.
  - constructor; rewrite ?E1, ?E2, ?E3, ?E4; try done. intros y Hy. destruct (A5 y Hy) as [H1 H2]. split; [done|].
    intros Ht. destruct (E6 y Ht); auto.
  - split; [|done]. intros x Hx. rewrite E1. by destruct (E5 x Hx).
Qed.

Lemma state_safe H k tp st : away H k -> ~ C tp -> (timed_queue st -> H tp) -> ~ ends st -> safe H k (set_state tp st k).
Proof.
  intros Ha Hc Ht He. apply fields_safe; try done.
  - intros x Hx. cbn. split; [|done]. apply upd_ne. by intros ->.
  - intros y. cbn. unfold upd. destruct (Z.eqb_spec y tp) as [->|]; auto.
  - intros y. cbn. unfold upd. by destruct (Z.eqb_spec y tp) as [->|].
Qed.

Lemma not_ended st : runnable st = true -> ~ ends st.
Proof. intros Hr He. by destruct (HE st He) as [->| ->]. Qed.
#[local] Hint Resolve not_ended : core.

Lemma runs_safe H k tp st : away H k -> ~ C tp -> runnable st = true -> safe H k (set_state tp st k).
Proof. intros Ha Hc Hr. apply state_safe; [done|done|by destruct st|by apply not_ended]. Qed.

Lemma u_safe H k tp v : away H k -> ~ C tp -> safe H k (set_u tp v k).
Proof.
  intros Ha Hc. apply fields_safe; try done; [|by left]. intros x Hx. cbn. split; [done|]. apply upd_ne. by intros ->.
Qed.

Lemma cnt_safe H k sp v : away H k -> safe H k (set_cnt sp v k).
Proof. intros Ha. apply fields_safe; try done. by left. Qed.

Lemma tref_safe H k trp v : away H k -> (v <> NULL -> ~ C v) -> safe H k (set_tref trp v k).
Proof.
  intros [A1 A2 A3 A4 A5] Hv. apply safe_here; [|done]. constructor; try done.
  intros t. cbn. unfold upd. destruct (Z.eqb_spec t trp); [done|apply A4].
Qed.

Lemma current_safe H k tp : away H k -> ~ C tp -> safe H k (setcurrp tp k).
Proof. intros [] Hc. apply safe_here; [by constructor|done]. Qed.

(** The links. *)
Lemma links_safe (H H' : Z -> Prop) k m : away H k -> (forall y, H y -> H' y) ->
  (forall y, H' y -> ~ C y /\ H' (p_next m y) /\ H' (p_prev m y)) ->
  (forall x, C x -> p_next m x = p_next (lk k) x) -> away H' (set_lk m k) /\ same k (set_lk m k).
Proof.
  intros [A1 A2 A3 A4 A5] HS Hcl Hx. split; [|apply same_states; [intros x Hc; by split; [apply Hx|]|done]].
  constructor; try done; [by intros q Hq; apply HS, A1|]. intros y Hy. destruct (A5 y Hy). split; [done|auto].
Qed.

Lemma insert_safe H k cp tp : away H k -> H cp -> ~ C tp ->
  exists H', (forall y, H y -> H' y) /\ H' tp /\ away H' (set_lk (insert_before cp tp (lk k)) k) /\ same k (set_lk (insert_before cp tp (lk k)) k).
Proof.
  intros Ha Hcp Htp. pose proof (aw_closed _ _ Ha) as Hcl. destruct (Hcl cp Hcp) as (Hc1 & Hc2 & Hc3).
  exists (fun y => H y \/ y = tp). split; [by left|split; [by right|]]. apply (links_safe H); [done|by left| |].
  - intros y Hy. unfold insert_before, set_p_next, set_p_prev. cbn [p_next p_prev]. rewrite upd_eq.
    split; [destruct Hy as [Hy| ->]; [by apply Hcl|done]|]. unfold upd.
    split.
    + destruct (Z.eqb_spec y (p_prev (lk k) cp)); [by right|]. destruct (Z.eqb_spec y tp); [by left|].
      destruct Hy as [Hy|]; [|done]. left. by apply Hcl.
    + destruct (Z.eqb_spec y cp); [by right|]. destruct (Z.eqb_spec y tp); [by left|].
      destruct Hy as [Hy|]; [|done]. left. by apply Hcl.
  - intros x Hx. unfold insert_before, set_p_next, set_p_prev. cbn [p_next p_prev]. rewrite upd_eq.
    rewrite upd_ne; [apply upd_ne; by intros ->|]. intros ->. by apply (Hcl _ Hc3).
Qed.

Lemma fifo_safe H k q : away H k -> is_Some (kind !! q) -> let '(tp, k1) := fifo_remove q k in H tp /\ safe H k k1.
Proof.
  intros Ha Hq. pose proof (aw_closed _ _ Ha) as Hcl. pose proof (aw_headers _ _ Ha q Hq) as Hh.
  destruct (Hcl q Hh) as (Hq1 & Hq2 & _). destruct (Hcl _ Hq2) as (Hq3 & Hq4 & _).
  unfold fifo_remove. cbn [queue_fifo_remove]. split; [done|].
  assert (Hl : forall m, m = snd (queue_fifo_remove q (lk k)) -> away H (set_lk m k) /\ same k (set_lk m k)).
  { intros m ->. unfold queue_fifo_remove, set_p_next, set_p_prev. cbn [snd p_next p_prev]. rewrite upd_eq. apply (links_safe H); [done|done| |].
    - intros y Hy. cbn [p_next p_prev]. destruct (Hcl y Hy) as (? & ? & ?). split; [done|]. unfold upd.
      split; [by destruct (y =? q)|by destruct (y =? _)].
    - intros x Hx. cbn [p_next]. apply upd_ne. by intros ->. }
  destruct (Hl _ eq_refl) as [H1 H2]. exact (safe_here H k _ H1 H2).
Qed.

Lemma lifo_safe H k q : away H k -> is_Some (kind !! q) -> let '(tp, k1) := lifo_remove q k in H tp /\ safe H k k1.
Proof.
  intros Ha Hq. pose proof (aw_closed _ _ Ha) as Hcl. pose proof (aw_headers _ _ Ha q Hq) as Hh.
  destruct (Hcl q Hh) as (Hq1 & _ & Hq2). destruct (Hcl _ Hq2) as (Hq3 & _ & Hq4).
  unfold lifo_remove. cbn [queue_lifo_remove]. split; [done|].
  assert (Hl : forall m, m = snd (queue_lifo_remove q (lk k)) -> away H (set_lk m k) /\ same k (set_lk m k)).
  { intros m ->. unfold queue_lifo_remove, set_p_next, set_p_prev. cbn [snd p_next p_prev]. rewrite upd_eq. apply (links_safe H); [done|done| |].
    - intros y Hy. cbn [p_next p_prev]. destruct (Hcl y Hy) as (? & ? & ?). split; [done|]. unfold upd.
      split; [by destruct (y =? _)|by destruct (y =? q)].
    - intros x Hx. cbn [p_next]. apply upd_ne. intros ->. by apply (Hcl _ Hq4). }
  destruct (Hl _ eq_refl) as [H1 H2]. exact (safe_here H k _ H1 H2).
Qed.

Lemma dequeue_safe H k tp : away H k -> H tp -> safe H k (set_lk (queue_dequeue tp (lk k)) k).
Proof.
  intros Ha Hh. pose proof (aw_closed _ _ Ha) as Hcl. destruct (Hcl tp Hh) as (H1 & H2 & H3).
  destruct (links_safe H H k (queue_dequeue tp (lk k)) Ha) as [A B]; [done| | |exact (safe_here H k _ A B)].
  - assert (Hn : forall y, H y -> H (p_next (set_p_next (p_prev (lk k) tp) (p_next (lk k) tp) (lk k)) y)).
    { intros y Hy. cbn. unfold upd. destruct (y =? _); [done|by apply Hcl]. }
    intros y Hy. split; [by apply Hcl|]. split; [by apply Hn|]. unfold queue_dequeue. cbn [set_p_prev p_prev]. unfold upd at 1.
    destruct (y =? _); [exact H3|]. by apply Hcl.
  - intros x Hx. unfold queue_dequeue. cbn. apply upd_ne. intros ->. by apply (Hcl _ H3).
Qed.

Lemma scan_away H k more : away H k -> forall n y cp, H y -> prio_scan n more (lk k) y = Some cp -> H cp.
Proof.
  intros Ha. induction n as [|n IH]; intros y cp Hy; cbn [prio_scan]; [done|].
  assert (Hn : H (p_next (lk k) y)) by (by apply (aw_closed _ _ Ha)).
  destruct (more _); [by apply IH|by intros [= <-]].
Qed.

(** ** The operations *)

Context (Hrl : is_Some (kind !! rlist)).
Notation header q := (is_Some (kind !! q)).

Lemma take_safe H k q (f : Z -> kernel -> option kernel) : away H k -> header q ->
  (forall H' tp k, (forall y, H y -> H' y) -> H' tp -> away H' k -> safe_opt H' k (f tp k)) ->
  safe_opt H k (let '(tp, k) := fifo_remove q k in f tp k).
Proof.
  intros Ha Hq Hf. pose proof (fifo_safe H k q Ha Hq) as Hs. destruct (fifo_remove q k) as [tp k1]. destruct Hs as [Ht Hs].
  apply (opt_trans H k k1); [done|]. intros H' HS HA. apply Hf; auto.
Qed.

Lemma readyI_safe H k tp : away H k -> ~ C tp -> safe_opt H k (chSchReadyI rlist fuel tp k).
Proof.
  intros Ha Hc. unfold chSchReadyI. apply (opt_trans H k (set_state tp CH_STATE_READY k)); [by apply runs_safe|].
  intros H' HS HA. destruct (prio_scan _ _ _ _) as [cp|] eqn:E; [|done]. apply opt_here.
  assert (Hcp : H' cp) by (apply (scan_away H' _ _ HA _ _ _ (aw_headers _ _ HA rlist Hrl) E)).
  destruct (insert_safe H' _ cp tp HA Hcp Hc) as (H2 & S2 & _ & A2 & E2). by exists H2.
Qed.

Lemma then_u_safe H k tp v (g : kernel -> option kernel) : away H k -> ~ C tp ->
  (forall H' k, (forall y, H y -> H' y) -> away H' k -> safe_opt H' k (g k)) -> safe_opt H k (g (set_u tp v k)).
Proof. intros Ha Hc Hg. apply (opt_trans H k (set_u tp v k)); [by apply u_safe|]. intros H' HS HA. by apply Hg. Qed.

(** A thread that was taken from a queue is made ready, before or after its message is stored. *)
Lemma ready_msg_safe H k tp msg : away H k -> ~ C tp -> safe_opt H k (chSchReadyI rlist fuel tp (set_u tp msg k)).
Proof. intros Ha Hc. apply (then_u_safe H k tp msg (chSchReadyI rlist fuel tp)); [done|done|]. intros H' k' _ HA. by apply readyI_safe. Qed.

Lemma ready_then_safe H k tp msg (g : kernel -> option kernel) : away H k -> ~ C tp ->
  (forall H' k, (forall y, H y -> H' y) -> away H' k -> safe_opt H' k (g k)) ->
  safe_opt H k (match chSchReadyI rlist fuel tp k with None => None | Some k => g (set_u tp msg k) end).
Proof.
  intros Ha Hc Hg. apply (opt_bind H k _ (fun k => g (set_u tp msg k))); [by apply readyI_safe|]. intros H' k1 HS HA.
  apply (then_u_safe H' k1 tp msg g); [done|done|]. intros H2 k2 HS2 HA2. by apply Hg; auto.
Qed.

Lemma hot_cold H k tp : away H k -> H tp -> ~ C tp.
Proof. intros Ha Ht. by apply (aw_closed _ _ Ha). Qed.

Lemma goSleep_safe H k st : away H k -> (timed_queue st -> H (r_current k)) -> ~ ends st -> safe H k (chSchGoSleepS rlist st k).
Proof.
  intros Ha Ht He. unfold chSchGoSleepS. set (k1 := set_state (r_current k) st k).
  assert (S1 : safe H k k1) by (apply state_safe; [done|by apply (aw_current _ _ Ha)|done|done]).
  apply (safe_trans H k k1); [done|]. intros H1 HS1 A1. set (k2 := Sched.set_preempt _ _ _).
  assert (A2 : away H1 k2) by (by destruct A1; constructor).
  pose proof (fifo_safe H1 k2 rlist A2 Hrl) as S2. destruct (fifo_remove rlist k2) as [tp k3]. destruct S2 as [Htp S2].
  apply (safe_trans H1 k1 k3); [destruct S2 as (H' & ? & ? & ?); by exists H'|]. intros H3 HS3 A3.
  assert (Hc : ~ C tp) by (apply (hot_cold H3 k3); auto).
  apply (safe_trans H3 k3 (setcurrp tp k3)); [by apply current_safe|]. intros H4 HS4 A4. by apply runs_safe.
Qed.

Lemma sleep_timeout_safe H k st time : away H k -> (timed_queue st -> H (r_current k)) -> ~ ends st -> safe H k (chSchGoSleepTimeoutS rlist st time k).
Proof.
  intros Ha Ht He. unfold chSchGoSleepTimeoutS. destruct (negb _); [|by apply goSleep_safe].
  set (k1 := Sched.set_armed (r_current k) true k).
  (* the running thread enters the queue of its state, if its state has one, before its timer is of use *)
  pose proof Ha as [A1 A2 A3 A4 A5]. unfold chSchGoSleepS. cbn [r_current k1 Sched.set_armed].
  set (k2 := Sched.set_preempt (r_current k) CH_CFG_TIME_QUANTUM (set_state (r_current k) st k1)).
  assert (Ak2 : away H k2).
  { constructor; try done. intros y Hy. cbn in Hy |- *. unfold upd in Hy |- *. destruct (Z.eqb_spec y (r_current k)) as [E|]; [by rewrite E|by apply A5]. }
  assert (S2 : same k k2).
  { split.
    - intros x Hx. cbn. split; [done|split; [|done]]. apply upd_ne. by intros ->.
    - intros x. cbn. unfold upd. by destruct (x =? r_current k). }
  apply (safe_trans H k k2); [by apply safe_here|]. intros H1 HS1 A1'.
  pose proof (fifo_safe H1 k2 rlist A1' Hrl) as S3. destruct (fifo_remove rlist k2) as [tp k3]. destruct S3 as [Htp S3].
  apply (safe_trans H1 k2 k3); [done|]. intros H3 HS3 A3'. assert (Hc : ~ C tp) by (apply (hot_cold H3 k3); auto).
  apply (safe_trans H3 k3 (setcurrp tp k3)); [by apply current_safe|]. intros H4 HS4 A4'. by apply runs_safe.
Qed.

Lemma wakeupS_safe H k tp msg : away H k -> ~ C tp -> safe_opt H k (chSchWakeupS rlist fuel tp msg k).
Proof.
  intros Ha Hc. unfold chSchWakeupS. destruct (_ <=? _); [by apply ready_msg_safe|].
  apply (then_u_safe H k tp msg (fun k => match chSchReadyI rlist fuel (r_current k) k with
    | None => None | Some k => Some (set_state tp CH_STATE_CURRENT (setcurrp tp k)) end)); [done|done|].
  intros H1 k1 HS1 A1. apply (opt_bind H1 k1 _ (fun k => Some (set_state tp CH_STATE_CURRENT (setcurrp tp k)))).
  - apply readyI_safe; [done|by apply (aw_current _ _ A1)].
  - intros H2 k2 HS2 A2. apply opt_here. apply (safe_trans H2 k2 (setcurrp tp k2)); [by apply current_safe|].
    intros H3 HS3 A3. by apply runs_safe.
Qed.

Lemma preempt_safe H k a v : away H k -> safe H k (Sched.set_preempt a v k).
Proof. intros []. apply safe_here; [by constructor|done]. Qed.

Lemma behind_safe H k : away H k -> safe_opt H k (chSchDoRescheduleBehind rlist fuel k).
Proof.
  intros Ha. unfold chSchDoRescheduleBehind. pose proof (aw_current _ _ Ha) as Hcur.
  apply (take_safe H k rlist (fun tp k1 => chSchReadyI rlist fuel (r_current k) (Sched.set_preempt (r_current k) CH_CFG_TIME_QUANTUM
    (set_state (r_current (setcurrp tp k1)) CH_STATE_CURRENT (setcurrp tp k1))))); [done|done|].
  intros H1 tp k1 HS1 Ht A1. pose proof (hot_cold _ _ _ A1 Ht) as Hc.
  apply (opt_trans H1 k1 (setcurrp tp k1)); [by apply current_safe|]. intros H2 HS2 A2.
  apply (opt_trans H2 (setcurrp tp k1) (set_state tp CH_STATE_CURRENT (setcurrp tp k1))); [by apply runs_safe|].
  intros H3 HS3 A3. set (k2 := set_state tp _ _) in *.
  apply (opt_trans H3 k2 (Sched.set_preempt (r_current k) CH_CFG_TIME_QUANTUM k2)); [by apply preempt_safe|].
  intros H4 HS4 A4. by apply readyI_safe.
Qed.

Lemma ahead_safe H k : away H k -> safe_opt H k (chSchDoRescheduleAhead rlist fuel k).
Proof.
  intros Ha. unfold chSchDoRescheduleAhead. pose proof (aw_current _ _ Ha) as Hcur.
  apply (take_safe H k rlist (fun tp k1 =>
    let k2 := set_state (r_current k) CH_STATE_READY (set_state (r_current (setcurrp tp k1)) CH_STATE_CURRENT (setcurrp tp k1)) in
    match prio_scan fuel (fun cp => p_prio k2 (r_current k) <? p_prio k2 cp) (lk k2) rlist with
    | None => None | Some cp => Some (set_lk (insert_before cp (r_current k) (lk k2)) k2) end)); [done|done|].
  intros H1 tp k1 HS1 Ht A1. pose proof (hot_cold _ _ _ A1 Ht) as Hc. cbv zeta. cbn [r_current setcurrp].
  apply (opt_trans H1 k1 (setcurrp tp k1)); [by apply current_safe|]. intros H2 HS2 A2.
  apply (opt_trans H2 (setcurrp tp k1) (set_state tp CH_STATE_CURRENT (setcurrp tp k1))); [by apply runs_safe|]. intros H3 HS3 A3.
  set (k2 := set_state tp _ _) in *. apply (opt_trans H3 k2 (set_state (r_current k) CH_STATE_READY k2)); [by apply runs_safe|].
  intros H4 HS4 A4. destruct (prio_scan _ _ _ _) as [cp|] eqn:E; [|done]. apply opt_here.
  assert (Hcp : H4 cp) by (apply (scan_away H4 _ _ A4 _ _ _ (aw_headers _ _ A4 rlist Hrl) E)).
  destruct (insert_safe H4 _ cp (r_current k) A4 Hcp Hcur) as (H5 & S5 & _ & A5 & E5). by exists H5.
Qed.

Lemma here_opt H k : away H k -> safe_opt H k (Some k).
Proof. intros Ha. by apply opt_here, safe_here. Qed.

Lemma reschedule_safe H k : away H k -> safe_opt H k (chSchRescheduleS rlist fuel k).
Proof. intros Ha. unfold chSchRescheduleS. destruct (chSchIsRescRequiredI _ _); [by apply ahead_safe|by apply here_opt]. Qed.

Lemma epilogue_safe H k : away H k -> safe_opt H k (irq_epilogue rlist fuel k).
Proof.
  intros Ha. unfold irq_epilogue, chSchDoReschedule. destruct (chSchIsPreemptionRequired _ _); [|by apply here_opt].
  destruct (_ =? 0); [by apply behind_safe|by apply ahead_safe].
Qed.

Lemma reset_loop_safe sp : header sp -> forall n cnt H k, away H k -> safe_opt H k (reset_loop rlist fuel n sp cnt k).
Proof.
  intros Hsp. induction n as [|n IH]; intros cnt H k Ha; cbn [reset_loop]; [done|]. destruct (_ <=? 0); [|by apply here_opt].
  pose proof (lifo_safe H k sp Ha Hsp) as Hs. destruct (lifo_remove sp k) as [tp k1]. destruct Hs as [Ht Hs].
  apply (opt_trans H k k1); [done|]. intros H1 HS1 A1.
  apply (ready_then_safe H1 k1 tp MSG_RESET (reset_loop rlist fuel n sp (s32 (cnt + 1)))); [done|by apply (hot_cold H1 k1); auto|].
  intros H2 k2 HS2 A2. by apply IH.
Qed.

Lemma resetI_safe H k sp n : away H k -> header sp -> safe_opt H k (chSemResetI rlist fuel sp n k).
Proof.
  intros Ha Hsp. unfold chSemResetI. apply (opt_trans H k (set_cnt sp n k)); [by apply cnt_safe|]. intros H1 HS1 A1. by apply reset_loop_safe.
Qed.

(** One thread is taken from the queue of a semaphore. *)
Lemma signal_safe H k sp (f : Z -> kernel -> option kernel) : away H k -> header sp ->
  (forall H tp k, ~ C tp -> away H k -> safe_opt H k (f tp k)) ->
  let k1 := set_cnt sp (s32 (s_cnt k sp + 1)) k in
  safe_opt H k (if s_cnt k1 sp <=? 0 then let '(tp, k) := fifo_remove sp k1 in f tp k else Some k1).
Proof.
  intros Ha Hsp Hf k1. apply (opt_trans H k k1); [by apply cnt_safe|]. intros H1 HS1 A1. destruct (_ <=? 0); [|by apply here_opt].
  apply (take_safe H1 k1 sp f); [done|done|]. intros H2 tp k2 HS2 Ht A2. apply Hf; [|done]. by apply (hot_cold H2 k2).
Qed.

Lemma add_unit_safe H k sp : away H k -> header sp -> safe_opt H k (add_unit rlist fuel sp k).
Proof.
  intros Ha Hsp. apply (signal_safe H k sp (fun tp k => match chSchReadyI rlist fuel tp k with None => None | Some k => Some (set_u tp MSG_OK k) end)); [done|done|].
  intros H1 tp k1 Hc A1. apply (ready_then_safe H1 k1 tp MSG_OK Some); [done|done|]. intros H2 k2 _ A2. by apply here_opt.
Qed.

Lemma semSignal_safe H k sp : away H k -> header sp -> safe_opt H k (chSemSignal rlist fuel sp k).
Proof. intros Ha Hsp. apply (signal_safe H k sp (fun tp k => chSchWakeupS rlist fuel tp MSG_OK k)); [done|done|]. intros. by apply wakeupS_safe. Qed.

Lemma semSignalI_safe H k sp : away H k -> header sp -> safe_opt H k (chSemSignalI rlist fuel sp k).
Proof. intros Ha Hsp. apply (signal_safe H k sp (fun tp k => chSchReadyI rlist fuel tp (set_u tp MSG_OK k))); [done|done|]. intros. by apply ready_msg_safe. Qed.

Lemma add_loop_safe sp : header sp -> forall n H k, away H k -> safe_opt H k (add_loop rlist fuel n sp k).
Proof.
  intros Hsp. induction n as [|n IH]; intros H k Ha; cbn [add_loop]; [by apply here_opt|].
  apply (opt_bind H k _ (add_loop rlist fuel n sp)); [by apply add_unit_safe|]. intros H1 k1 _ A1. by apply IH.
Qed.

Lemma broadcast_safe cp : header cp -> forall n H k, away H k -> safe_opt H k (broadcast_loop rlist fuel n cp k).
Proof.
  intros Hcp. induction n as [|n IH]; intros H k Ha; cbn [broadcast_loop]; [done|]. destruct (queue_notempty _ _); [|by apply here_opt].
  apply (take_safe H k cp (fun tp k => match chSchReadyI rlist fuel tp k with None => None | Some k => broadcast_loop rlist fuel n cp (set_u tp MSG_RESET k) end)); [done|done|].
  intros H1 tp k1 HS1 Ht A1. apply (ready_then_safe H1 k1 tp MSG_RESET (broadcast_loop rlist fuel n cp)); [done|by apply (hot_cold H1 k1)|].
  intros H2 k2 _ A2. by apply IH.
Qed.

Lemma dequeue_next_safe H k tqp msg : away H k -> header tqp -> safe_opt H k (chThdDoDequeueNextI rlist fuel tqp msg k).
Proof.
  intros Ha Hq. apply (take_safe H k tqp (fun tp k => chSchReadyI rlist fuel tp (set_u tp msg k))); [done|done|].
  intros H1 tp k1 HS1 Ht A1. apply ready_msg_safe; [done|by apply (hot_cold H1 k1)].
Qed.

Lemma dequeue_all_safe tqp msg : header tqp -> forall n H k, away H k -> safe_opt H k (dequeue_all rlist fuel n tqp msg k).
Proof.
  intros Hq. induction n as [|n IH]; intros H k Ha; cbn [dequeue_all]; [done|]. destruct (queue_notempty _ _); [|by apply here_opt].
  apply (opt_bind H k _ (dequeue_all rlist fuel n tqp msg)); [by apply dequeue_next_safe|]. intros H1 k1 _ A1. by apply IH.
Qed.

(** The running thread enters a queue and sleeps. *)
Lemma enqueue_safe H k q : away H k -> header q ->
  exists H', (forall y, H y -> H' y) /\ H' (r_current k) /\ away H' (sem_insert (r_current k) q k) /\ same k (sem_insert (r_current k) q k).
Proof.
  intros Ha Hq. destruct (insert_safe H k q (r_current k) Ha (aw_headers _ _ Ha q Hq) (aw_current _ _ Ha)) as (H' & ? & ? & ? & ?). by exists H'.
Qed.

Lemma enqueue_then_safe H k q k' : away H k -> header q ->
  (forall H' k1, away H' k1 -> H' (r_current k1) -> k1 = sem_insert (r_current k) q k -> safe H' k1 k') -> safe H k k'.
Proof.
  intros Ha Hq Hs. destruct (enqueue_safe H k q Ha Hq) as (H1 & S1 & Ht & A1 & E1).
  destruct (Hs H1 _ A1 Ht eq_refl) as (H2 & S2 & A2 & E2).
  exists H2. split; [auto|split; [done|by apply (same_trans k (sem_insert (r_current k) q k))]].
Qed.

Lemma enqueue_sleep_safe H k q st : away H k -> header q -> ~ ends st -> safe H k (chSchGoSleepS rlist st (sem_insert (r_current k) q k)).
Proof. intros Ha Hq He. apply (enqueue_then_safe H k q); [done|done|]. intros H1 k1 A1 Ht <-. by apply goSleep_safe. Qed.

Lemma enqueue_timeout_safe H k q st time : away H k -> header q -> ~ ends st ->
  safe H k (chSchGoSleepTimeoutS rlist st time (sem_insert (r_current k) q k)).
Proof. intros Ha Hq He. apply (enqueue_then_safe H k q); [done|done|]. intros H1 k1 A1 Ht <-. by apply sleep_timeout_safe. Qed.

(** ** System calls and interrupts *)

Lemma armed_off_safe H k tp : away H k -> safe H k (Sched.set_armed tp false k).
Proof.
  intros [A1 A2 A3 A4 A5]. apply safe_here; [|done]. constructor; try done. intros y. cbn. unfold upd.
  destruct (y =? tp); [done|apply A5].
Qed.

Lemma timeout_safe H k tp : away H k -> armed k tp = true -> safe_opt H k (timeout rlist fuel tp k).
Proof.
  intros Ha Hr. destruct (aw_armed _ _ Ha tp Hr) as [Hc Hq]. unfold timeout.
  apply (opt_trans H k (Sched.set_armed tp false k)); [by apply armed_off_safe|]. intros H1 HS1 A1. set (k1 := Sched.set_armed tp false k) in *.
  unfold wakeup. change (p_state k1 tp) with (p_state k tp). change (p_u k1 tp) with (p_u k tp).
  assert (Hready : forall k2, safe H1 k1 k2 -> safe_opt H1 k1 (chSchReadyI rlist fuel tp (set_u tp MSG_TIMEOUT k2))).
  { intros k2 Hs. apply (opt_trans H1 k1 k2); [done|]. intros H2 HS2 A2. by apply ready_msg_safe. }
  assert (Hdeq : timed_queue (p_state k tp) -> forall H2 k2, (forall y, H1 y -> H2 y) -> away H2 k2 ->
    safe H2 k2 (set_lk (queue_dequeue tp (lk k2)) k2)) by (intros Ht H2 k2 HS2 A2; apply dequeue_safe; auto).
  destruct (p_state k tp); try (by apply here_opt); try (apply Hready); try (by apply safe_here); try (by apply Hdeq).
  - by apply tref_safe.
  - apply (safe_trans H1 k1 (chSemFastSignalI (p_u k tp) k1)); [by apply cnt_safe|]. intros H2 HS2 A2. by apply Hdeq.
Qed.

Lemma has_kind q kd : kind !! q = Some kd -> header q.
Proof. by intros ->. Qed.
#[local] Hint Resolve has_kind : core.

Lemma isr_safe H k o : away H k -> valid_isr kind k o -> safe_opt H k (run_isr rlist fuel o k).
Proof.
  intros Ha Hv. destruct o as [sp|sp n|sp n|trp msg|tqp msg|tqp msg|cp|cp|tp|]; cbn [run_isr valid_isr] in *.
  - destruct Hv. apply semSignalI_safe; eauto.
  - destruct Hv as (? & _). apply add_loop_safe; eauto.
  - destruct Hv as (? & _). apply resetI_safe; eauto.
  - unfold chThdResumeI. destruct (Z.eqb_spec (tref k trp) NULL) as [|Hn]; cbn [negb]; [by apply here_opt|].
    pose proof (aw_tref _ _ Ha trp Hn). apply (opt_trans H k (set_tref trp NULL k)); [by apply tref_safe|]. intros H1 HS1 A1. by apply ready_msg_safe.
  - unfold chThdDequeueNextI. destruct (queue_notempty _ _); [apply dequeue_next_safe; eauto|by apply here_opt].
  - apply dequeue_all_safe; eauto.
  - unfold chCondSignalI. destruct (queue_notempty _ _); [|by apply here_opt].
    apply (take_safe H k cp (fun tp k => chSchReadyI rlist fuel tp (set_u tp MSG_OK k))); eauto.
    intros H1 tp k1 HS1 Ht A1. apply ready_msg_safe; [done|by apply (hot_cold H1 k1)].
  - apply broadcast_safe; eauto.
  - by apply timeout_safe.
  - apply opt_here. unfold sys_tick. destruct (_ <? _); [by apply preempt_safe|by apply safe_here].
Qed.

Lemma isrs_safe : forall os H k, away H k -> valid_isrs rlist fuel kind k os -> safe_opt H k (run_isrs rlist fuel os k).
Proof.
  induction os as [|o os IH]; intros H k Ha; cbn [run_isrs valid_isrs]; [by intros _; apply here_opt|].
  intros [Hv Hvs]. pose proof (isr_safe H k o Ha Hv) as Hs. destruct (run_isr _ _ _ _) as [k1|]; [|done].
  apply (opt_trans H k k1); [by apply Hs|]. intros H1 _ A1. by apply IH; [|apply Hvs].
Qed.

Lemma call_safe H T k c : away H k -> valid_call idle fuel kind T k c -> (forall tp prio, c = Create tp prio -> ~ C tp) ->
  safe_opt H k (run_call rlist fuel c k).
Proof.
  intros Ha Hv Hcr. pose proof (aw_current _ _ Ha) as Hcur.
  assert (Hne : forall st, st <> CH_STATE_WTEXIT -> st <> CH_STATE_FINAL -> ~ ends st) by (intros st H1 H2 He; by destruct (HE st He)).
  destruct c as [sp|sp time|sp|sp n|sps spw| |time|prio|trp|trp time|trp msg|tqp time|cp|cp|tp prio]; cbn [run_call valid_call] in *.
  - destruct Hv as (Hk & _). apply opt_here. unfold chSemWait, chSemWaitS. set (k1 := set_cnt _ _ k).
    apply (safe_trans H k k1); [by apply cnt_safe|]. intros H1 HS1 A1. destruct (_ <? 0); cbn [snd]; [|by apply safe_here].
    apply (safe_trans H1 k1 (set_u (r_current k1) sp k1)); [by apply u_safe|]. intros H2 HS2 A2.
    apply (enqueue_sleep_safe H2 (set_u (r_current k1) sp k1) sp); eauto; by apply Hne.
  - destruct Hv as (Hk & _). apply opt_here. unfold chSemWaitTimeout, chSemWaitTimeoutS. set (k1 := set_cnt _ _ k).
    apply (safe_trans H k k1); [by apply cnt_safe|]. intros H1 HS1 A1. destruct (_ <? 0); cbn [snd]; [|by apply safe_here].
    destruct (time =? TIME_IMMEDIATE); cbn [snd]; [by apply cnt_safe|].
    apply (safe_trans H1 k1 (set_u (r_current k1) sp k1)); [by apply u_safe|]. intros H2 HS2 A2.
    apply (enqueue_timeout_safe H2 (set_u (r_current k1) sp k1) sp); eauto; by apply Hne.
  - destruct Hv. apply semSignal_safe; eauto.
  - destruct Hv as (? & _). unfold chSemReset. apply opt_bind; [apply resetI_safe; eauto|]. intros H1 k1 _ A1. by apply reschedule_safe.
  - destruct Hv as (H1 & H2 & _). unfold chSemSignalWait. pose proof (add_unit_safe H k sps Ha (has_kind _ _ H1)) as Hs.
    destruct (add_unit rlist fuel sps k) as [k1|]; [|done]. apply (opt_trans H k k1); [by apply Hs|]. intros H' HS' A'.
    set (k2 := set_cnt spw _ k1). apply (opt_trans H' k1 k2); [by apply cnt_safe|]. intros H3 HS3 A3.
    destruct (_ <? 0); cbn [snd_opt].
    + apply opt_here. apply (enqueue_then_safe H3 k2 spw); [done|by eauto|]. intros H4 k3 A4 Ht E. rewrite <- E.
      assert (Ec : r_current k2 = r_current k3) by (by rewrite E). rewrite Ec.
      apply (safe_trans H4 k3 (set_u (r_current k3) spw k3)); [by apply u_safe, (aw_current _ _ A4)|]. intros H5 HS5 A5. apply goSleep_safe; [done|auto|by apply Hne].
    + pose proof (reschedule_safe H3 k2 A3) as Hr. destruct (chSchRescheduleS rlist fuel k2) as [k3|]; [|done]. apply opt_here. by apply Hr.
  - unfold chThdYield, chSchDoYieldS. destruct (chSchCanYieldS _ _); [by apply behind_safe|by apply here_opt].
  - apply opt_here. apply sleep_timeout_safe; [done|done|by apply Hne].
  - unfold chThdSetPriority. set (k1 := set_realprio _ _ _).
    assert (S1 : safe H k k1) by (unfold k1; apply fields_safe; try done; destruct (_ || _); (by left) || done).
    apply (opt_trans H k k1); [done|]. intros H1 HS1 A1. pose proof (reschedule_safe H1 k1 A1) as Hr.
    destruct (chSchRescheduleS rlist fuel k1) as [k2|]; [|done]. apply opt_here. by apply Hr.
  - apply opt_here. unfold chThdSuspendS. apply (safe_trans H k (set_tref trp (r_current k) k)); [by apply tref_safe|]. intros H1 HS1 A1.
    apply (safe_trans H1 _ (set_u (r_current k) trp (set_tref trp (r_current k) k))); [by apply u_safe|]. intros H2 HS2 A2. apply goSleep_safe; [done|done|by apply Hne].
  - apply opt_here. unfold chThdSuspendTimeoutS. destruct (time =? TIME_IMMEDIATE); cbn [snd]; [by apply safe_here|].
    apply (safe_trans H k (set_tref trp (r_current k) k)); [by apply tref_safe|]. intros H1 HS1 A1.
    apply (safe_trans H1 _ (set_u (r_current k) trp (set_tref trp (r_current k) k))); [by apply u_safe|]. intros H2 HS2 A2. apply sleep_timeout_safe; [done|done|by apply Hne].
  - unfold chThdResume, chThdResumeS. destruct (Z.eqb_spec (tref k trp) NULL) as [|Hn]; cbn [negb]; [by apply here_opt|].
    pose proof (aw_tref _ _ Ha trp Hn). apply (opt_trans H k (set_tref trp NULL k)); [by apply tref_safe|]. intros H1 HS1 A1. by apply wakeupS_safe.
  - destruct Hv as (Hk & _). apply opt_here. unfold chThdEnqueueTimeoutS. destruct (time =? TIME_IMMEDIATE); cbn [snd]; [by apply safe_here|].
    apply (enqueue_timeout_safe H k tqp); eauto; by apply Hne.
  - unfold chCondSignal. destruct (queue_notempty _ _); [|by apply here_opt].
    apply (take_safe H k cp (fun tp k => chSchWakeupS rlist fuel tp MSG_OK k)); eauto.
    intros H1 tp k1 HS1 Ht A1. apply wakeupS_safe; [done|by apply (hot_cold H1 k1)].
  - unfold chCondBroadcast. apply opt_bind; [apply broadcast_safe; eauto|]. intros H1 k1 _ A1. by apply reschedule_safe.
  - pose proof (Hcr tp prio eq_refl) as Hc. unfold chThdCreateStatic. apply (opt_trans H k (chThdCreateI tp prio k)).
    + apply fields_safe; try done.
      * intros x Hx. cbn. split; [|done]. apply upd_ne. by intros ->.
      * intros y. cbn. unfold upd. destruct (y =? tp); [done|auto].
      * intros y. cbn. unfold upd. destruct (y =? tp); [|done]. intros He. by destruct (Hne CH_STATE_WTSTART).
    + intros H1 HS1 A1. by apply wakeupS_safe.
Qed.

Lemma resume_safe H k : away H k -> safe H k (timeout_resume k).
Proof. intros Ha. unfold timeout_resume. destruct (armed k (r_current k)); [by apply armed_off_safe|by apply safe_here]. Qed.

Lemma event_safe H T k e : away H k -> valid_event rlist idle fuel kind T k e -> (forall tp prio, e = Call (Create tp prio) -> ~ C tp) ->
  safe_opt H k (run_event rlist fuel e k).
Proof.
  intros Ha Hv Hcr. unfold run_event. apply (opt_bind H k _ (fun k => Some (timeout_resume k))).
  - destruct e as [c|os].
    + apply (call_safe H T); [done|done|]. intros tp prio ->. by apply (Hcr tp prio).
    + apply (opt_bind H k _ (irq_epilogue rlist fuel)); [by apply isrs_safe|]. intros H1 k1 _ A1. by apply epilogue_safe.
  - intros H1 k1 _ A1. by apply opt_here, resume_safe.
Qed.

(** Threads that are in no queue and have no timer, and memory that is no thread's. *)
Definition cold_now (T : gset Z) (k : kernel) : Prop := forall x, C x -> kind !! x = None /\
  (x ∈ T -> p_state k x = CH_STATE_WTEXIT \/ p_state k x = CH_STATE_FINAL).

Lemma away_now G T k qs : kmid rlist idle fuel kind G T None k qs -> cold_now T k ->
  away (fun y => exists h l, qs !! h = Some l /\ (y = h \/ In y l)) k.
Proof.
  intros Hk HC. pose proof Hk as [Hok (Hc & Hs & _) Har].
  assert (Hout : forall x, x ∈ T -> p_state k x <> CH_STATE_WTEXIT -> p_state k x <> CH_STATE_FINAL -> ~ C x).
  { intros x Hx H1 H2 Hcx. destruct (HC x Hcx) as [_ H]. by destruct (H Hx). }
  constructor.
  - intros q Hq. apply (ko_dom _ _ _ _ _ _ _ _ Hok) in Hq as [l Hl]. exists q, l. split; [done|by left].
  - intros y (h & l & Hl & Hy). pose proof (li_seg _ _ (ko_linked _ _ _ _ _ _ _ _ Hok) h l Hl) as Hseg.
    assert (Hn : exists kd, kind !! h = Some kd) by (apply (ko_dom _ _ _ _ _ _ _ _ Hok); by eexists). destruct Hn as [kd Hkd].
    split.
    + destruct Hy as [->|Hy]; [intros Hch; by destruct (HC h Hch) as [? _]; congruence|].
      destruct (ko_members _ _ _ _ _ _ _ _ Hok h kd l y Hkd Hl Hy) as (HyT & _ & Hw).
      apply Hout; [done| |]; intros E; destruct kd; cbn in Hw; rewrite E in Hw; first [done|by destruct Hw].
    + assert (Hr : forall l' a b, seg (lk k) a l' b -> forall y, y = a \/ In y l' -> p_next (lk k) y = b \/ In (p_next (lk k) y) l').
      { clear. induction l' as [|x r IH]; intros a b; cbn [seg].
        - intros [E _] y [->|[]]. by left.
        - intros (E1 & _ & Hs) y [->|Hy]; [rewrite E1; right; by left|]. destruct (IH x b Hs y) as [?|?]; [destruct Hy; auto| |]; [by left|right; by right]. }
      assert (Hl' : forall l' a b, seg (lk k) a l' b -> forall y, y = b \/ In y l' -> p_prev (lk k) y = a \/ In (p_prev (lk k) y) l').
      { clear. induction l' as [|x r IH]; intros a b; cbn [seg].
        - intros [_ E] y [->|[]]. by left.
        - intros (_ & E1 & Hs) y Hy. destruct (decide (y = x)) as [->|Hne]; [rewrite E1; by left|].
          destruct (IH x b Hs y) as [->|?]; [destruct Hy as [?|[?|?]]; [by left|congruence|by right]|right; by left|right; by right]. }
      split; exists h, l; (split; [done|]); [apply (Hr l h h Hseg y Hy)|apply (Hl' l h h Hseg y Hy)].
  - apply Hout; congruence.
  - intros trp Hn. destruct (ko_tref _ _ _ _ _ _ _ _ Hok trp Hn) as (Ht & _ & Hst & _). apply Hout; congruence.
  - intros y Hy. destruct (Har y Hy) as [HyT Hb]. split.
    + destruct Hb as [->|Hb]; [apply Hout; congruence|]. apply Hout; [done| |]; intros E; by rewrite E in Hb.
    + intros Ht. destruct (ko_threads _ _ _ _ _ _ _ _ Hok y HyT ltac:(done)) as [_ Hth].
      destruct (p_state k y); try done; cbn in Hth.
      * destruct Hth as (h & l & _ & Hl & Hin). exists h, l. split; [done|by right].
      * destruct Hth as (_ & l & Hl & Hin). eexists _, l. split; [done|by right].
      * destruct Hth as (_ & l & Hl & Hin). eexists _, l. split; [done|by right].
Qed.

Lemma event_cold G T k qs e k' : kmid rlist idle fuel kind G T None k qs -> cold_now T k ->
  valid_event rlist idle fuel kind T k e -> (forall tp prio, e = Call (Create tp prio) -> ~ C tp) ->
  run_event rlist fuel e k = Some k' -> same k k'.
Proof.
  intros Hk HC Hv Hcr E. by destruct (event_safe _ T k e (away_now G T k qs Hk HC) Hv Hcr k' E) as (_ & _ & _ & ?).
Qed.
End Cold.
