(* ===== verification/Lifecycle.v ===== *)
(** The life of threads: creation, termination, references, waiting for the end of a
    thread, and the registry (os/rt/src/chthreads.c, chdynamic.c, chregistry.c, with the
    macros of chregistry.h and the thread lists of chschd.h).

    [lstate] is the kernel of [Sched] with the fields of threads that these functions use,
    the links of the registry (a circular list through the header of the ready list), for
    every thread that is inside of chThdWait the thread it waits for ([joins]), and the
    memory that was given back ([freed]).  The list of the threads that wait for a thread is
    a field of it; [p_waiting] gives its address.  It is singly linked through the field
    [p_next] that the queues use too: [SchedCold] shows that the queues leave it alone.

    chThdWait is cut where the thread runs again: [wait_end].  chThdExit does not return.
    The memory of a thread from the heap is an argument of the function that creates it,
    the result of chHeapAlloc; memory that was given back is not used for another thread.

    Proved: every run of these functions and of anything else in the kernel is a run of the
    specification [life], in which a thread that waits for another one returns once, with
    the code that the other one passed to chThdExit; all threads that wait for a thread
    become ready when it ends; the memory of a thread is freed once, after its end, when
    nobody refers to it; and the registry is the list of the threads in the order of their
    creation.  A second theorem shows where the registry fails: threads that were created
    in static memory leave it although they are referred to. *)
From S2P Require Import Prelude Queues Sched SchedOk Kernel SchedCold.
Local Open Scope Z_scope.

Definition CH_FLAG_MODE_MASK : Z := 3.
Definition CH_FLAG_MODE_STATIC : Z := 0.
Definition CH_FLAG_MODE_HEAP : Z := 1.
Definition CH_FLAG_TERMINATE : Z := 4.

(** ** Thread lists *)

Definition list_init (tlp : Z) (m : links) : links := set_p_next tlp tlp m.
Definition list_notempty (tlp : Z) (m : links) : bool := negb (p_next m tlp =? tlp).
Definition list_insert (tp tlp : Z) (m : links) : links := set_p_next tlp tp (set_p_next tp (p_next m tlp) m).
Definition list_remove (tlp : Z) (m : links) : Z * links :=
  let tp := p_next m tlp in (tp, set_p_next tlp (p_next m tp) m).

(** ** State *)

(** In the links of the registry, [p_next] is the field [p_newer] and [p_prev] [p_older]. *)
Record lstate : Type := LS {
  kn : kernel;
  registry : links;
  p_refs : Z -> Z;
  p_flags : Z -> Z;
  joins : gmap Z Z;
  freed : list Z
}.
Definition set_kn v s := LS v (registry s) (p_refs s) (p_flags s) (joins s) (freed s).
Definition set_registry v s := LS (kn s) v (p_refs s) (p_flags s) (joins s) (freed s).
Definition set_refs tp v s := LS (kn s) (registry s) (upd tp v (p_refs s)) (p_flags s) (joins s) (freed s).
Definition set_flags tp v s := LS (kn s) (registry s) (p_refs s) (upd tp v (p_flags s)) (joins s) (freed s).
Definition set_joins v s := LS (kn s) (registry s) (p_refs s) (p_flags s) v (freed s).
Definition set_freed v s := LS (kn s) (registry s) (p_refs s) (p_flags s) (joins s) v.

Section Lifecycle.
Context (rlist : Z) (fuel : nat) (p_waiting : Z -> Z).

(** ** The registry *)

Definition REG_INSERT (tp : Z) (m : links) : links :=
  let m := set_p_next tp rlist m in
  let m := set_p_prev tp (p_prev m rlist) m in
  let m := set_p_next (p_prev m tp) tp m in
  set_p_prev rlist tp m.
Definition REG_REMOVE (tp : Z) (m : links) : links :=
  let m := set_p_next (p_prev m tp) (p_next m tp) m in
  set_p_prev (p_next m tp) (p_prev m tp) m.

(** ** References *)

Definition chThdAddRef (tp : Z) (s : lstate) : lstate := set_refs tp (u8 (p_refs s tp + 1)) s.

Definition chThdRelease (tp : Z) (s : lstate) : lstate :=
  let s := set_refs tp (u8 (p_refs s tp - 1)) s in
  let refs := p_refs s tp in
  if (refs =? 0) && match p_state (kn s) tp with CH_STATE_FINAL => true | _ => false end then
    if Z.land (p_flags s tp) CH_FLAG_MODE_MASK =? CH_FLAG_MODE_HEAP
    then set_freed (freed s ++ [tp]) (set_registry (REG_REMOVE tp (registry s)) s)
    else s
  else s.

Definition chRegFirstThread (s : lstate) : Z * lstate :=
  let tp := p_next (registry s) rlist in (tp, chThdAddRef tp s).

Definition chRegNextThread (tp : Z) (s : lstate) : option Z * lstate :=
  let ntp := p_next (registry s) tp in
  if ntp =? rlist then (None, chThdRelease tp s) else (Some ntp, chThdRelease tp (chThdAddRef ntp s)).

(** ** Creation and termination *)

(** _thread_init, with the fields that [Sched] leaves out; those that it clears for mutexes,
    events and messages are in [Mutex], [Events] and [Messages], the name is not modelled. *)
Definition _thread_init (tp prio : Z) (s : lstate) : lstate :=
  let s := set_kn (Sched._thread_init tp prio (kn s)) s in
  let s := set_flags tp CH_FLAG_MODE_STATIC s in
  let s := set_refs tp 1 s in
  let s := set_registry (REG_INSERT tp (registry s)) s in
  set_kn (set_lk (list_init (p_waiting tp) (lk (kn s))) (kn s)) s.
Definition chThdCreateI := _thread_init.

Definition wakeup_new (tp : Z) (s : lstate) : option lstate :=
  match chSchWakeupS rlist fuel tp MSG_OK (kn s) with None => None | Some k => Some (set_kn k s) end.

Definition chThdCreateStatic (tp prio : Z) (s : lstate) : option lstate := wakeup_new tp (chThdCreateI tp prio s).
Definition chThdCreateFromHeap (wsp : option Z) (prio : Z) (s : lstate) : option (option Z * lstate) :=
  match wsp with
  | None => Some (None, s)
  | Some tp =>
      let s := set_flags tp CH_FLAG_MODE_HEAP (chThdCreateI tp prio s) in
      match wakeup_new tp s with None => None | Some s => Some (Some tp, s) end
  end.

Definition chThdTerminate (tp : Z) (s : lstate) : lstate := set_flags tp (Z.lor (p_flags s tp) CH_FLAG_TERMINATE) s.
Definition chThdShouldTerminateX (s : lstate) : bool := negb (Z.land (p_flags s (r_current (kn s))) CH_FLAG_TERMINATE =? 0).
Definition chThdTerminatedX (tp : Z) (s : lstate) : bool := match p_state (kn s) tp with CH_STATE_FINAL => true | _ => false end.

(** [while (list_notempty(&tp->p_waiting)) chSchReadyI(list_remove(&tp->p_waiting))] *)
Fixpoint exit_loop (n : nat) (tp : Z) (k : kernel) : option kernel :=
  match n with
  | O => None
  | S n =>
      if list_notempty (p_waiting tp) (lk k) then
        let '(w, m) := list_remove (p_waiting tp) (lk k) in
        match chSchReadyI rlist fuel w (set_lk m k) with None => None | Some k => exit_loop n tp k end
      else Some k
  end.

Definition chThdExitS (msg : Z) (s : lstate) : option lstate :=
  let tp := r_current (kn s) in
  let s := set_kn (set_u tp msg (kn s)) s in
  match exit_loop fuel tp (kn s) with
  | None => None
  | Some k =>
      let s := set_kn k s in
      let s := if Z.land (p_flags s tp) CH_FLAG_MODE_MASK =? CH_FLAG_MODE_STATIC
               then set_registry (REG_REMOVE tp (registry s)) s else s in
      Some (set_kn (chSchGoSleepS rlist CH_STATE_FINAL (kn s)) s)
  end.
Definition chThdExit := chThdExitS.

(** From where the waiting thread runs again, or at once if the other one has ended. *)
Definition wait_end (tp : Z) (s : lstate) : Z * lstate :=
  let msg := p_u (kn s) tp in (msg, chThdRelease tp s).
Definition chThdWait (tp : Z) (s : lstate) : option Z * lstate :=
  match p_state (kn s) tp with
  | CH_STATE_FINAL => let '(msg, s) := wait_end tp s in (Some msg, s)
  | _ =>
      let k := set_lk (list_insert (r_current (kn s)) (p_waiting tp) (lk (kn s))) (kn s) in
      (None, set_kn (chSchGoSleepS rlist CH_STATE_WTEXIT k) s)
  end.

(** ** Runs *)

Inductive life_op : Type :=
  | LfCreate (tp prio : Z) | LfCreateHeap (wsp : option Z) (prio : Z) | LfExit (msg : Z) | LfWait (tp : Z) | LfResume
  | LfAddRef (tp : Z) | LfRelease (tp : Z) | LfTerminate (tp : Z) | LfFirst | LfNext (tp : Z) | LfKernel (e : event).

(** What happens: [w] returns from waiting for [tp] with [msg]; the registry gives [tp]. *)
Inductive life_event : Type :=
  | ECreate (tp : Z) (heap : bool) | EExit (tp msg : Z) | EWait (w tp : Z) | EJoin (w tp msg : Z)
  | ERef (tp : Z) | ERelease (tp : Z) | EFirst (tp : Z) | ENext (tp : Z) (ntp : option Z).

Definition resumed (s : lstate) : lstate := set_kn (timeout_resume (kn s)) s.

Definition run_life (o : life_op) (s : lstate) : option (list life_event * lstate) :=
  let cur := r_current (kn s) in
  match o with
  | LfCreate tp prio =>
      match chThdCreateStatic tp prio s with None => None | Some s => Some ([ECreate tp false], resumed s) end
  | LfCreateHeap wsp prio =>
      match chThdCreateFromHeap wsp prio s with
      | None => None
      | Some (None, s) => Some ([], s)
      | Some (Some tp, s) => Some ([ECreate tp true], resumed s)
      end
  | LfExit msg =>
      match chThdExit msg s with None => None | Some s => Some ([EExit cur msg], resumed s) end
  | LfWait tp =>
      match chThdWait tp s with
      | (None, s) => Some ([EWait cur tp], resumed (set_joins (<[cur := tp]> (joins s)) s))
      | (Some msg, s) => Some ([EWait cur tp; EJoin cur tp msg], s)
      end
  | LfResume =>
      match joins s !! cur with
      | None => None
      | Some tp => let '(msg, s) := wait_end tp s in Some ([EJoin cur tp msg], set_joins (delete cur (joins s)) s)
      end
  | LfAddRef tp => Some ([ERef tp], chThdAddRef tp s)
  | LfRelease tp => Some ([ERelease tp], chThdRelease tp s)
  | LfTerminate tp => Some ([], chThdTerminate tp s)
  | LfFirst => let '(tp, s) := chRegFirstThread s in Some ([EFirst tp], s)
  | LfNext tp => let '(ntp, s) := chRegNextThread tp s in Some ([ENext tp ntp], s)
  | LfKernel e =>
      match run_event rlist fuel e (kn s) with None => None | Some k => Some ([], set_kn k s) end
  end.

Fixpoint run_lifes (os : list life_op) (s : lstate) : option (list life_event * lstate) :=
  match os with
  | [] => Some ([], s)
  | o :: os =>
      match run_life o s with
      | None => None
      | Some (a, s) => match run_lifes os s with None => None | Some (b, s) => Some (a ++ b, s) end
      end
  end.
End Lifecycle.

(** ** Lists of threads in memory *)

(** A singly linked segment from [a] through [l] to [b]. *)
Fixpoint chain (n : Z -> Z) (a : Z) (l : list Z) (b : Z) : Prop :=
  match l with [] => n a = b | x :: r => n a = x /\ chain n x r b end.

Lemma waiters_frame n n' l : forall a b, (forall x, In x (a :: l) -> n' x = n x) -> chain n a l b -> chain n' a l b.
Proof.
  induction l as [|x l IH]; intros a b Hn; cbn [chain]; rewrite (Hn a) by (by left); [done|].
  intros [H1 H2]. split; [done|]. apply IH; [|done]. intros y Hy. apply Hn. by right.
Qed.

Lemma goSleep_next rlist st k x : x <> rlist -> p_next (lk (chSchGoSleepS rlist st k)) x = p_next (lk k) x.
Proof. intros Hx. unfold chSchGoSleepS, fifo_remove. cbn. by rewrite upd_ne. Qed.

Section KernelSide.
Context (rlist idle : Z) (fuel : nat) (kind : gmap Z qkind) (p_waiting : Z -> Z).
Notation kmid := (kmid rlist idle fuel kind).
Notation kok := (kok rlist idle fuel kind).

(** The lists of waiting threads are apart from the threads and the queues. *)
Definition heads_apart (T : gset Z) : Prop := forall x, x ∈ T -> p_waiting x ∉ T /\ kind !! p_waiting x = None.

(** Links outside of the queues. *)
Lemma kmid_links G T out k qs m : kmid G T out k qs ->
  (forall h l x, qs !! h = Some l -> In x (h :: l) -> p_next m x = p_next (lk k) x /\ p_prev m x = p_prev (lk k) x) ->
  kmid G T out (set_lk m k) qs.
Proof using.
  intros [Hok Hrun Har] Hm. constructor; [|done|done]. destruct Hok. constructor; try done.
  destruct ko_linked as [Hs Hn Ha]. constructor; [|done|done]. intros h l Hl. apply (seg_frame (lk k)); [| |by apply Hs].
  - intros x Hx. by apply (Hm h l).
  - intros x Hx. apply (Hm h l); [done|]. apply in_app_iff in Hx as [?|[?|[]]]; [by right|by left].
Qed.

Lemma unqueued_head T G out k qs h l x : kok G T out k qs -> x ∉ T -> kind !! x = None -> qs !! h = Some l -> ~ In x (h :: l).
Proof using.
  intros Hk Hx Hkd Hl [<-|Hin]; [destruct (proj1 (ko_dom _ _ _ _ _ _ _ _ Hk h)); [by eexists|congruence]|].
  by destruct (kok_queued _ _ _ _ _ _ _ _ Hk h l x Hl Hin).
Qed.

Lemma kmid_u_current G T k qs v : kmid G T None k qs -> kmid G T None (set_u (r_current k) v k) qs.
Proof using.
  intros [Hok (Hc & Hs & Hn) Har]. constructor; [|done|done].
  assert (Hu := kok_unqueued _ _ _ _ _ _ _ _ Hok (r_current k) Hc). unfold loose in Hu. rewrite Hs in Hu. specialize (Hu (or_intror I)).
  apply (kok_thread rlist idle fuel kind G T None None k _ qs (r_current k)); try done; auto.
  - intros x Hx. cbn. by rewrite upd_ne.
  - intros h l Hq Hin. apply (Hu h l Hq). by right.
  - intros trp E. cbn in E. exfalso. destruct (ko_tref _ _ _ _ _ _ _ _ Hok trp) as (_ & _ & Hs' & _); [|rewrite E in Hs'; congruence].
    rewrite E. by apply (ko_apart _ _ _ _ _ _ _ _ Hok).
  - intros _. destruct (ko_threads _ _ _ _ _ _ _ _ Hok (r_current k) Hc ltac:(done)) as [Hi _].
    split; [exact Hi|]. cbn. by rewrite Hs.
Qed.

(** The running thread ends, or waits for the end of another one. *)
Lemma end_sleep_ok G T k qs st : kmid G T None k qs -> quiet k -> r_current k <> idle -> In st [CH_STATE_FINAL; CH_STATE_WTEXIT] ->
  exists qs', let k' := chSchGoSleepS rlist st k in
    kmid G T None k' qs' /\ top rlist k' qs' /\ slept st k k'.
Proof using.
  intros Hk Hq Hi Hst. destruct (kmid_current rlist idle fuel kind G T k qs Hk) as [Ho _]. pose proof Hk as [Hok (Hc & Hs & _) Har].
  destruct (go_sleep_gen rlist idle fuel kind G T k qs st) as (qs' & H1 & H2 & _ & H3).
  - apply rest_loose; [done|done|done|]. destruct Hst as [<-|[<-|[]]]; by repeat (first [left; done|right]).
  - done.
  - done.
  - by destruct Hst as [<-|[<-|[]]].
  - by destruct Hst as [<-|[<-|[]]].
  - intros x Hx. destruct (Har x Hx) as [Hx1 Hx2]. split; [done|]. right.
    assert (x <> r_current k) by (intros ->; unfold quiet in Hq; congruence). split; [done|]. by destruct Hx2.
  - by exists qs'.
Qed.

(** The memory of threads that have ended or wait for an end, except those of [l]. *)
Definition at_rest (T : gset Z) (k : kernel) (l : list Z) (x : Z) : Prop :=
  ~ In x l /\ ((exists y, y ∈ T /\ x = p_waiting y) \/ x ∈ T /\ (p_state k x = CH_STATE_WTEXIT \/ p_state k x = CH_STATE_FINAL)).

Lemma at_rest_cold T k l : heads_apart T -> (forall x, x ∈ T -> kind !! x = None) -> cold_now kind (at_rest T k l) T k.
Proof using.
  intros Hw Ha x (_ & [(y & Hy & ->)|[Hx Hs]]); [|split; [by apply Ha|done]]. destruct (Hw y Hy). by split.
Qed.

(** One thread that waited is made ready. *)
Lemma ready_waiter G T k qs w : kmid G T None k qs -> quiet k -> heads_apart T -> w ∈ T -> p_state k w = CH_STATE_WTEXIT ->
  exists k' qs', chSchReadyI rlist fuel w k = Some k' /\ kmid G T None k' qs' /\ quiet k' /\ r_current k' = r_current k /\
    p_u k' = p_u k /\ p_state k' = upd w CH_STATE_READY (p_state k) /\
    forall x, at_rest T k [w] x -> p_next (lk k') x = p_next (lk k) x.
Proof using.
  intros Hk Hq Hw Ht Hs. pose proof Hk as [Hok (Hc & Hcs & _) Har].
  assert (Hne : w <> r_current k) by congruence.
  assert (Hk1 : kmid G T (Some w) k qs) by (apply kmid_loose; [done|done|done|by unfold loose; rewrite Hs|by rewrite Hs]).
  destruct (ready_mid rlist idle fuel kind G T k qs w Hk1 Ht) as (m & l & E & Hl & Hk2).
  eexists _, _. split; [exact E|]. split; [exact Hk2|]. repeat (split; [done|]).
  intros x Hx. assert (Hcold := at_rest_cold T k [w] Hw (fun x Hx => proj1 (ko_apart _ _ _ _ _ _ _ _ Hok x Hx))).
  assert (Haway := away_now rlist idle fuel kind _ G T k qs Hk Hcold).
  destruct (readyI_safe rlist fuel kind (at_rest T k [w]) (fun _ => False) (fun st H => match H with end)) with
    (H := fun y => exists h l, qs !! h = Some l /\ (y = h \/ In y l)) (k := k) (tp := w) (k' := set_lk m (set_state w CH_STATE_READY k))
    as (_ & _ & _ & [Hsame _]); [| |by intros [Hn _]; apply Hn; left|exact E|by destruct (Hsame x Hx)].
  - by rewrite (proj1 (ko_ready _ _ _ _ _ _ _ _ Hok)).
  - exact Haway.
Qed.

Lemma exit_loop_ok G T tp : heads_apart T -> tp ∈ T -> forall l n k qs, kmid G T None k qs -> quiet k ->
  chain (p_next (lk k)) (p_waiting tp) l (p_waiting tp) -> NoDup l -> (forall w, In w l -> w ∈ T /\ p_state k w = CH_STATE_WTEXIT) ->
  (length l < n)%nat ->
  exists k' qs', exit_loop rlist fuel p_waiting n tp k = Some k' /\ kmid G T None k' qs' /\ quiet k' /\ r_current k' = r_current k /\
    p_u k' = p_u k /\ (forall x, p_state k' x = if in_dec Z.eq_dec x l then CH_STATE_READY else p_state k x) /\
    p_next (lk k') (p_waiting tp) = p_waiting tp /\
    forall x, at_rest T k l x -> x <> p_waiting tp -> p_next (lk k') x = p_next (lk k) x.
Proof using.
  intros Hw HtpT. induction l as [|w r IH]; intros n k qs Hk Hq Hch Hnd Hl Hn; (destruct n as [|n]; [cbn in Hn; lia|]); cbn [exit_loop chain] in *.
  - unfold list_notempty. rewrite Hch, Z.eqb_refl. cbn [negb]. exists k, qs.
    split; [done|split; [done|split; [done|split; [done|split; [done|split; [|done]]]]]].
    intros x. by destruct (in_dec _ x []).
  - destruct Hch as [Hw1 Hch]. apply list.NoDup_cons in Hnd as [Hwr Hnd]. rewrite list_elem_of_In in Hwr.
    destruct (Hl w (or_introl eq_refl)) as [HwT Hws].
    assert (Hwp : forall y, y ∈ T -> w <> p_waiting y) by (intros y Hy ->; by apply (Hw y)).
    unfold list_notempty. rewrite Hw1. replace (w =? p_waiting tp) with false by (symmetry; apply Z.eqb_neq; by apply Hwp). cbn [negb list_remove].
    rewrite Hw1. set (m := set_p_next (p_waiting tp) (p_next (lk k) w) (lk k)). pose proof (km_ok _ _ _ _ _ _ _ _ Hk) as Hok.
    assert (Hm : forall x, x <> p_waiting tp -> p_next m x = p_next (lk k) x) by (intros x Hx; cbn; by rewrite upd_ne).
    assert (Hk1 : kmid G T None (set_lk m k) qs).
    { apply kmid_links; [done|]. intros h l x Hh Hx. split; [|done]. apply Hm. intros ->.
      destruct (Hw tp HtpT). by apply (unqueued_head T G None k qs h l (p_waiting tp) Hok). }
    destruct (ready_waiter G T (set_lk m k) qs w Hk1 Hq Hw HwT Hws) as (k2 & qs2 & -> & Hk2 & Hq2 & Hc2 & Hu2 & Hs2 & Hn2).
    assert (Hst2 : forall x, x <> w -> p_state k2 x = p_state k x) by (intros x Hx; rewrite Hs2; cbn; by rewrite upd_ne).
    assert (Hn2' : forall x, at_rest T k (w :: r) x -> p_next (lk k2) x = p_next m x).
    { intros x [Hx1 Hx2]. apply Hn2. split; [intros [<-|[]]; apply Hx1; by left|]. exact Hx2. }
    assert (Hpn : p_next (lk k2) (p_waiting tp) = p_next (lk k) w).
    { rewrite Hn2; [cbn; by rewrite upd_eq|]. split; [intros [E|[]]; by destruct (Hwp tp)|left; by exists tp]. }
    assert (Hch2 : chain (p_next (lk k2)) (p_waiting tp) r (p_waiting tp)).
    { assert (Hrk : forall x, In x r -> p_next (lk k2) x = p_next (lk k) x).
      { intros x Hx. destruct (Hl x (or_intror Hx)) as [HxT Hxs]. rewrite Hn2.
        - apply Hm. intros ->. by apply (Hw tp).
        - split; [intros [<-|[]]; done|]. right. by split; [|left]. }
      destruct r as [|y r']; cbn [chain] in *; [by rewrite Hpn|]. destruct Hch as [Hy Hch]. split; [by rewrite Hpn|].
      apply (waiters_frame (p_next (lk k))); [|done]. intros x Hx. by apply Hrk. }
    destruct (IH n k2 qs2 Hk2 Hq2 Hch2 Hnd) as (k3 & qs3 & E3 & Hk3 & Hq3 & Hc3 & Hu3 & Hs3 & Hp3 & Hn3).
    { intros x Hx. destruct (Hl x (or_intror Hx)) as [HxT Hxs]. split; [done|]. rewrite Hst2; [done|]. by intros ->. }
    { cbn in Hn. lia. }
    exists k3, qs3. split; [done|split; [done|split; [done|split; [by rewrite Hc3, Hc2|split; [by rewrite Hu3, Hu2|split; [|split; [done|]]]]]]].
    + intros x. rewrite Hs3. destruct (decide (x = w)) as [->|Hne].
      * destruct (in_dec _ w r), (in_dec _ w (w :: r)) as [|Hno]; try done; [by rewrite Hs2, upd_eq|]. destruct Hno. by left.
      * rewrite Hst2 by done. destruct (in_dec _ x r) as [Hi|Hi], (in_dec _ x (w :: r)) as [Hj|Hj]; try done.
        { destruct Hj. by right. }
        { by destruct Hj as [->|?]. }
    + intros x [Hx1 Hx2] Hx. rewrite Hn3; [rewrite Hn2' by done; by apply Hm| |done].
      split; [intros Hxr; apply Hx1; by right|]. destruct Hx2 as [?|[HxT Hxs]]; [by left|right]. split; [done|].
      rewrite Hst2; [done|]. intros ->. apply Hx1. by left.
Qed.
End KernelSide.

(** ** The specification *)

(** The registry, the references (a thread that waits owns one), the exit codes of the
    threads that have ended, the threads that wait, and the memory given back. *)
Record life : Type := Life {
  l_reg : list Z;
  l_heap : Z -> bool;
  l_refs : Z -> Z;
  l_codes : gmap Z Z;
  l_waits : gmap Z Z;
  l_freed : list Z
}.

Definition without (tp : Z) (l : list Z) : list Z := List.filter (fun x => negb (x =? tp)) l.

Fixpoint next_in (tp : Z) (l : list Z) : option Z :=
  match l with [] => None | x :: r => if x =? tp then hd_error r else next_in tp r end.

Definition ended (p : life) (tp : Z) : bool := match l_codes p !! tp with Some _ => true | None => false end.

Definition add_ref (tp : Z) (p : life) : life :=
  Life (l_reg p) (l_heap p) (upd tp (l_refs p tp + 1) (l_refs p)) (l_codes p) (l_waits p) (l_freed p).
Definition drop_ref (tp : Z) (p : life) : life :=
  let refs := upd tp (l_refs p tp - 1) (l_refs p) in
  if (refs tp =? 0) && ended p tp && l_heap p tp
  then Life (without tp (l_reg p)) (l_heap p) refs (l_codes p) (l_waits p) (l_freed p ++ [tp])
  else Life (l_reg p) (l_heap p) refs (l_codes p) (l_waits p) (l_freed p).

Definition life_step (e : life_event) (p : life) : option life :=
  match e with
  | ECreate tp heap =>
      Some (Life (l_reg p ++ [tp]) (fun x => if x =? tp then heap else l_heap p x) (upd tp 1 (l_refs p)) (l_codes p) (l_waits p) (l_freed p))
  | EExit tp msg =>
      if ended p tp then None
      else Some (Life (if l_heap p tp then l_reg p else without tp (l_reg p)) (l_heap p) (l_refs p) (<[tp := msg]> (l_codes p)) (l_waits p) (l_freed p))
  | EWait w tp =>
      match l_waits p !! w with
      | None => Some (Life (l_reg p) (l_heap p) (l_refs p) (l_codes p) (<[w := tp]> (l_waits p)) (l_freed p))
      | Some _ => None
      end
  | EJoin w tp msg =>
      match l_waits p !! w, l_codes p !! tp with
      | Some tp', Some msg' =>
          if (tp' =? tp) && (msg' =? msg)
          then Some (drop_ref tp (Life (l_reg p) (l_heap p) (l_refs p) (l_codes p) (delete w (l_waits p)) (l_freed p)))
          else None
      | _, _ => None
      end
  | ERef tp => Some (add_ref tp p)
  | ERelease tp => if 0 <? l_refs p tp then Some (drop_ref tp p) else None
  | EFirst tp => match l_reg p with x :: _ => if x =? tp then Some (add_ref tp p) else None | [] => None end
  | ENext tp ntp =>
      if decide (next_in tp (l_reg p) = ntp)
      then Some (drop_ref tp (match ntp with Some y => add_ref y p | None => p end))
      else None
  end.

Fixpoint life_run (es : list life_event) (p : life) : option life :=
  match es with
  | [] => Some p
  | e :: es => match life_step e p with None => None | Some p => life_run es p end
  end.

Lemma life_run_app es1 es2 p p1 p2 : life_run es1 p = Some p1 -> life_run es2 p1 = Some p2 -> life_run (es1 ++ es2) p = Some p2.
Proof.
  revert p. induction es1 as [|e es1 IH]; intros p; cbn; [by intros [= ->]|].
  destruct (life_step e p); [by apply IH|done].
Qed.

(** *** The registry as a list *)

Lemma without_in tp l x : In x (without tp l) <-> In x l /\ x <> tp.
Proof. unfold without. rewrite filter_In, negb_true_iff, Z.eqb_neq. tauto. Qed.

Lemma without_absent tp l : ~ In tp l -> without tp l = l.
Proof.
  intros Hn. unfold without. induction l as [|x l IH]; [done|]. cbn. destruct (Z.eqb_spec x tp) as [->|].
  - destruct Hn. by left.
  - cbn. f_equal. apply IH. intros ?. apply Hn. by right.
Qed.

Lemma without_split tp l1 l2 : NoDup (l1 ++ tp :: l2) -> without tp (l1 ++ tp :: l2) = l1 ++ l2.
Proof.
  intros (H1 & H2 & [H3 H4]%list.NoDup_cons)%list.NoDup_app. unfold without. rewrite List.filter_app. cbn. rewrite Z.eqb_refl. cbn.
  f_equal; [apply (without_absent tp l1)|apply (without_absent tp l2)]; rewrite <- list_elem_of_In; [|done].
  intros Hx. apply (H2 tp Hx). by left.
Qed.

Section Registry.
Context (h : Z) (m : links) (l : list Z) (Hl : linked m {[h := l]}).

Lemma reg_lookup : ({[h := l]} : gmap Z (list Z)) !! h = Some l.
Proof. apply lookup_singleton_eq. Qed.

Lemma reg_nodup : NoDup l /\ ~ In h l.
Proof using Hl.
  pose proof (li_nodup _ _ Hl h l reg_lookup) as [H1 H2]%list.NoDup_cons. split; [done|]. by rewrite <- list_elem_of_In.
Qed.

Lemma reg_insert tp : tp <> h -> ~ In tp l -> linked (REG_INSERT h tp m) {[h := l ++ [tp]]}.
Proof using Hl.
  intros H1 H2. change (REG_INSERT h tp m) with (insert_before (headh h []) tp m). rewrite <- (insert_singleton_eq h (l ++ [tp]) l).
  apply linked_insert; [done|rewrite app_nil_r; apply reg_lookup|]. by intros h' l' [<- <-]%lookup_singleton_Some [?|?].
Qed.

Lemma reg_remove tp : In tp l -> linked (REG_REMOVE tp m) {[h := without tp l]}.
Proof using Hl.
  intros (l1 & l2 & El)%in_split. destruct reg_nodup as [Hnd _]. rewrite El in Hnd |- *. rewrite without_split by done.
  pose proof Hl as Hl'. rewrite El in Hl'.
  change (REG_REMOVE tp m) with (queue_dequeue tp m). rewrite <- (insert_singleton_eq h (l1 ++ l2) (l1 ++ tp :: l2)).
  by apply linked_dequeue; [|apply lookup_singleton_eq].
Qed.

Lemma reg_first : p_next m h = match l with [] => h | x :: _ => x end.
Proof using Hl. pose proof (li_seg _ _ Hl h l reg_lookup) as Hs. apply seg_ends in Hs as [-> _]. by destruct l. Qed.

Lemma next_in_spec tp : In tp l -> p_next m tp = match next_in tp l with Some y => y | None => h end.
Proof using Hl.
  pose proof (li_seg _ _ Hl h l reg_lookup) as Hs. destruct reg_nodup as [Hnd _]. clear Hl. revert Hs Hnd.
  enough (H : forall a b, seg m a l b -> NoDup l -> In tp l -> p_next m tp = match next_in tp l with Some y => y | None => b end) by apply H.
  induction l as [|x r IH]; intros a b Hs Hnd Hin; [done|]. cbn [seg next_in] in *. destruct Hs as (_ & _ & Hs).
  apply list.NoDup_cons in Hnd as [Hx Hnd]. destruct (Z.eqb_spec x tp) as [->|Hne].
  - apply seg_ends in Hs as [-> _]. by destruct r.
  - destruct Hin as [?|Hin]; [done|]. by apply (IH x).
Qed.

Lemma next_in_in tp y : next_in tp l = Some y -> In y l.
Proof using.
  clear Hl. induction l as [|x r IH]; cbn [next_in]; [done|]. destruct (x =? tp).
  - destruct r as [|z r]; cbn; [done|]. intros [= E]. right. by left.
  - intros H. right. by apply IH.
Qed.
End Registry.

(** ** The invariant *)

(** The threads that are inside of chThdWait for [tp]. *)
Definition pending (j : gmap Z Z) (tp : Z) : nat := size (filter (fun x => snd x = tp) j).

Lemma pending_insert j w t tp : j !! w = None -> pending (<[w := t]> j) tp = ((if decide (t = tp) then 1 else 0) + pending j tp)%nat.
Proof.
  intros Hw. unfold pending. case_decide as Ht.
  - rewrite map_filter_insert_True by done. apply map_size_insert_None. apply map_lookup_filter_None. by left.
  - rewrite map_filter_insert_False by done. by rewrite delete_id.
Qed.

Lemma pending_delete j w t tp : j !! w = Some t -> pending j tp = ((if decide (t = tp) then 1 else 0) + pending (delete w j) tp)%nat.
Proof. intros Hw. rewrite <- (pending_insert (delete w j) w t tp) by apply lookup_delete_eq. by rewrite insert_delete_id. Qed.

Section Correct.
Context (rlist idle : Z) (fuel : nat) (kind : gmap Z qkind) (p_waiting : Z -> Z).
Context (Hinj : forall a b, p_waiting a = p_waiting b -> a = b).
Notation kernel_ok := (kernel_ok rlist idle fuel kind).
Notation heads_apart := (heads_apart kind p_waiting).
Notation at_rest := (at_rest p_waiting).
Notation run_life := (run_life rlist fuel p_waiting).

Record life_ok (T : gset Z) (s : lstate) (p : life) (wl : Z -> list Z) : Prop := {
  lo_kernel : kernel_ok T (kn s);
  lo_apart : heads_apart T;
  lo_chain : forall tp, tp ∈ T -> chain (p_next (lk (kn s))) (p_waiting tp) (wl tp) (p_waiting tp) /\ NoDup (wl tp);
  lo_lists : forall tp w, tp ∈ T -> In w (wl tp) <-> joins s !! w = Some tp /\ l_codes p !! tp = None;
  lo_joins : forall w tp, joins s !! w = Some tp -> w ∈ T /\ tp ∈ T /\ (l_codes p !! tp = None -> p_state (kn s) w = CH_STATE_WTEXIT);
  lo_wtexit : forall w, w ∈ T -> p_state (kn s) w = CH_STATE_WTEXIT -> exists tp, joins s !! w = Some tp /\ l_codes p !! tp = None;
  lo_waits : joins s = l_waits p;
  lo_codes : forall tp, tp ∈ T ->
    match l_codes p !! tp with Some c => p_state (kn s) tp = CH_STATE_FINAL /\ p_u (kn s) tp = c | None => p_state (kn s) tp <> CH_STATE_FINAL end;
  lo_known : forall tp c, l_codes p !! tp = Some c -> tp ∈ T;
  lo_registry : linked (registry s) {[rlist := l_reg p]};
  lo_listed : forall tp, In tp (l_reg p) <-> tp ∈ T /\ (l_codes p !! tp = None \/ l_heap p tp = true /\ ~ In tp (l_freed p));
  lo_refs : forall tp, tp ∈ T -> p_refs s tp = l_refs p tp /\ l_refs p tp <= 255 /\ Z.of_nat (pending (joins s) tp) <= l_refs p tp;
  lo_flags : forall tp, tp ∈ T -> Z.land (p_flags s tp) CH_FLAG_MODE_MASK = if l_heap p tp then CH_FLAG_MODE_HEAP else CH_FLAG_MODE_STATIC;
  lo_freed : freed s = l_freed p /\ NoDup (l_freed p) /\ forall tp, In tp (l_freed p) -> tp ∈ T /\ l_refs p tp = 0 /\ is_Some (l_codes p !! tp)
}.

(** What the rest of the kernel leaves alone. *)
Definition rests (T : gset Z) (k k' : kernel) : Prop :=
  (forall x, at_rest T k [] x -> p_next (lk k') x = p_next (lk k) x /\ p_state k' x = p_state k x /\ p_u k' x = p_u k x) /\
  forall x, p_state k' x = CH_STATE_WTEXIT \/ p_state k' x = CH_STATE_FINAL -> p_state k' x = p_state k x.

Section Facts.
Context (T : gset Z) (s : lstate) (p : life) (wl : Z -> list Z) (H : life_ok T s p wl).

Lemma lo_running : exists G qs, kmid rlist idle fuel kind G T None (kn s) qs /\ top rlist (kn s) qs /\ quiet (kn s) /\
  r_current (kn s) ∈ T /\ p_state (kn s) (r_current (kn s)) = CH_STATE_CURRENT.
Proof using H. destruct (lo_kernel _ _ _ _ H) as (G & qs & Hk & Ht & Hq). exists G, qs. destruct (km_run _ _ _ _ _ _ _ _ Hk) as (? & ? & _). exact (conj Hk (conj Ht (conj Hq (conj H0 H1)))). Qed.

Lemma lo_waiter tp w : tp ∈ T -> In w (wl tp) -> w ∈ T /\ p_state (kn s) w = CH_STATE_WTEXIT.
Proof using H. intros Ht [Hj Hc]%(lo_lists _ _ _ _ H); [|done]. destruct (lo_joins _ _ _ _ H w tp Hj) as (Hw & _ & Hs). by split; [|apply Hs]. Qed.

Lemma lo_length tp : tp ∈ T -> (length (wl tp) < fuel)%nat.
Proof using H.
  intros Ht. destruct lo_running as (G & qs & Hk & _). destruct (lo_chain _ _ _ _ H tp Ht) as [_ Hnd].
  assert (Hle : (size (list_to_set (wl tp) : gset Z) <= size T)%nat).
  { apply subseteq_size. intros x Hx. apply elem_of_list_to_set, list_elem_of_In in Hx. by apply (lo_waiter tp x). }
  rewrite size_list_to_set in Hle by done. pose proof (ko_fuel _ _ _ _ _ _ _ _ (km_ok _ _ _ _ _ _ _ _ Hk)). lia.
Qed.

Lemma lo_idle : idle ∈ T /\ l_codes p !! idle = None.
Proof using H.
  destruct lo_running as (G & qs & Hk & _). pose proof (km_ok _ _ _ _ _ _ _ _ Hk) as Hok.
  pose proof (ko_idle _ _ _ _ _ _ _ _ Hok) as Hi. split; [done|].
  destruct (ko_threads _ _ _ _ _ _ _ _ Hok idle Hi ltac:(done)) as [Hs _]. specialize (Hs eq_refl).
  pose proof (lo_codes _ _ _ _ H idle Hi) as Hc. destruct (l_codes p !! idle); [|done]. destruct Hc as [Hc _]. destruct Hs; congruence.
Qed.

Lemma rest_head tp : tp ∈ T -> at_rest T (kn s) [] (p_waiting tp).
Proof using. intros Ht. split; [by intros []|]. left. by exists tp. Qed.

Lemma rest_waiter tp w : tp ∈ T -> In w (wl tp) -> at_rest T (kn s) [] w.
Proof using H. intros Ht Hw. destruct (lo_waiter tp w Ht Hw). split; [by intros []|]. right. by split; [|left]. Qed.

(** Everything else in the kernel may go on. *)
Lemma keep_ok k' : rests T (kn s) k' -> kernel_ok T k' -> life_ok T (set_kn k' s) p wl.
Proof using H.
  intros [Hr1 Hr2] Hk. pose proof H as []. constructor; try done.
  - intros tp Ht. destruct (lo_chain0 tp Ht) as [Hc Hnd]. split; [|done].
    apply (waiters_frame (p_next (lk (kn s)))); [|done]. intros x [<-|Hx]; apply Hr1; [by apply rest_head|by apply (rest_waiter tp)].
  - intros w tp Hj. destruct (lo_joins0 w tp Hj) as (Hw & Ht & Hs). split; [done|split; [done|]]. intros Hc. specialize (Hs Hc).
    cbn. destruct (Hr1 w) as (_ & -> & _); [|done]. split; [by intros []|]. right. by split; [|left].
  - intros w Hw Hs. apply (lo_wtexit0 w Hw). cbn in Hs. by rewrite <- (Hr2 w (or_introl Hs)).
  - intros tp Ht. specialize (lo_codes0 tp Ht). cbn. destruct (l_codes p !! tp).
    + destruct lo_codes0 as [Hs Hu]. destruct (Hr1 tp) as (_ & -> & ->); [|done]. split; [by intros []|]. right. by split; [|right].
    + intros Hf. apply lo_codes0. rewrite <- Hf. symmetry. apply Hr2. by right.
Qed.
End Facts.

Lemma rests_resume T k k' : rests T k k' -> rests T k (timeout_resume k').
Proof. unfold timeout_resume. by destruct (armed k' (r_current k')). Qed.

Lemma life_kernel_resume T G k qs : kmid rlist idle fuel kind G T None k qs -> top rlist k qs -> kernel_ok T (timeout_resume k).
Proof. intros Hk Ht. exists G, qs. by apply resume_ok. Qed.

(** What is not a thread's end or memory list: everything [SchedCold] proves. *)
Lemma event_rests T G k qs e k' : kmid rlist idle fuel kind G T None k qs -> heads_apart T -> valid_event rlist idle fuel kind T k e ->
  (forall tp prio, e = Call (Create tp prio) -> tp ∉ T /\ forall x, x ∈ T -> p_waiting x <> tp) ->
  run_event rlist fuel e k = Some k' -> rests T k k'.
Proof.
  intros Hk Ha Hv Hcr E. pose proof (km_ok _ _ _ _ _ _ _ _ Hk) as Hok.
  destruct (event_cold rlist idle fuel kind (at_rest T k []) (fun st => st = CH_STATE_WTEXIT \/ st = CH_STATE_FINAL)) with
    (G := G) (T := T) (k := k) (qs := qs) (e := e) (k' := k') as [H1 H2]; try done.
  - by rewrite (proj1 (ko_ready _ _ _ _ _ _ _ _ Hok)).
  - apply (at_rest_cold kind p_waiting T k []); [done|]. intros x Hx. by apply (ko_apart _ _ _ _ _ _ _ _ Hok).
  - intros tp prio Ee [_ Hc]. destruct (Hcr tp prio Ee) as [Ht Hw]. destruct Hc as [(y & Hy & ->)|[? _]]; [by apply (Hw y)|done].
Qed.

(** ** References *)

Lemma set_joins_release tp j s : chThdRelease tp (set_joins j s) = set_joins j (chThdRelease tp s).
Proof.
  unfold chThdRelease. cbn. destruct (_ && _); [|done]. by destruct (_ =? CH_FLAG_MODE_HEAP).
Qed.

Lemma joins_release tp s : joins (chThdRelease tp s) = joins s.
Proof. unfold chThdRelease. destruct (_ && _); [|done]. by destruct (_ =? CH_FLAG_MODE_HEAP). Qed.

Lemma add_ref_ok T s p wl tp : life_ok T s p wl -> tp ∈ T -> ~ In tp (l_freed p) -> l_refs p tp < 255 ->
  life_ok T (chThdAddRef tp s) (add_ref tp p) wl.
Proof.
  intros H Ht Hf Hr. pose proof H as []. constructor; try done.
  - intros x Hx. destruct (lo_refs0 x Hx) as (E1 & E2 & E3). cbn. unfold upd. destruct (Z.eqb_spec x tp) as [->|]; [|done].
    rewrite E1. rewrite u8_id by lia. lia.
  - destruct lo_freed0 as (E1 & E2 & E3). split; [done|split; [done|]]. intros x Hx. destruct (E3 x Hx) as (? & ? & ?).
    split; [done|split; [|done]]. cbn. unfold upd. destruct (Z.eqb_spec x tp) as [->|]; done.
Qed.

Lemma life_release_ok T s p wl tp : life_ok T s p wl -> tp ∈ T -> Z.of_nat (pending (joins s) tp) < l_refs p tp ->
  life_ok T (chThdRelease tp s) (drop_ref tp p) wl.
Proof.
  intros H Ht Hp. pose proof H as []. destruct (lo_refs0 tp Ht) as (E1 & E2 & _).
  assert (Hnf : ~ In tp (l_freed p)) by (intros Hf; destruct (proj2 (proj2 lo_freed0) tp Hf) as (_ & ? & _); lia).
  assert (Hrefs : forall x, x ∈ T -> upd tp (u8 (p_refs s tp - 1)) (p_refs s) x = upd tp (l_refs p tp - 1) (l_refs p) x /\
    upd tp (l_refs p tp - 1) (l_refs p) x <= 255 /\ Z.of_nat (pending (joins s) x) <= upd tp (l_refs p tp - 1) (l_refs p) x).
  { intros x Hx. destruct (lo_refs0 x Hx) as (F1 & F2 & F3). unfold upd. destruct (Z.eqb_spec x tp) as [->|]; [|done].
    rewrite E1, u8_id by lia. lia. }
  assert (Hfr : forall x, In x (l_freed p) -> x ∈ T /\ upd tp (l_refs p tp - 1) (l_refs p) x = 0 /\ is_Some (l_codes p !! x)).
  { intros x Hx. destruct (proj2 (proj2 lo_freed0) x Hx) as (? & ? & ?). split; [done|split; [|done]]. unfold upd. destruct (Z.eqb_spec x tp) as [->|]; done. }
  unfold chThdRelease, drop_ref, ended. cbn [p_refs kn p_flags registry freed set_refs]. rewrite !upd_eq, E1, u8_id by lia.
  pose proof (lo_codes0 tp Ht) as Hc.
  assert (Ef : (match p_state (kn s) tp with CH_STATE_FINAL => true | _ => false end) = match l_codes p !! tp with Some _ => true | None => false end).
  { destruct (l_codes p !! tp); [by rewrite (proj1 Hc)|]. by destruct (p_state (kn s) tp). }
  rewrite Ef, (lo_flags0 tp Ht). rewrite E1, u8_id in Hrefs by lia.
  assert (Hsame : life_ok T (set_refs tp (l_refs p tp - 1) s) (Life (l_reg p) (l_heap p) (upd tp (l_refs p tp - 1) (l_refs p)) (l_codes p) (l_waits p) (l_freed p)) wl).
  { constructor; try done. destruct lo_freed0 as (? & ? & _). done. }
  destruct ((l_refs p tp - 1 =? 0) && match l_codes p !! tp with Some _ => true | None => false end) eqn:Eb; cbn [andb]; [|done].
  destruct (l_heap p tp) eqn:Eh; [|done]. change (CH_FLAG_MODE_HEAP =? CH_FLAG_MODE_HEAP) with true. cbv iota.
  apply andb_true_iff in Eb as [Ez Ee]. destruct (l_codes p !! tp) as [c|] eqn:Ec; [|done].
  assert (Hin : In tp (l_reg p)) by (apply lo_listed0; split; [done|right; done]).
  constructor; try done.
  - by apply reg_remove.
  - intros x. cbn [l_reg l_codes l_heap l_freed]. rewrite without_in, lo_listed0, in_app_iff. cbn [In].
    split; [intros ([Hx Hd] & Hne)|intros [Hx Hd]].
    + split; [done|]. destruct Hd as [?|[? ?]]; [by left|right; split; [done|]]. intros [?|[?|[]]]; congruence.
    + destruct (decide (x = tp)) as [->|Hne]; [|split; [split; [done|]|done]; destruct Hd as [?|[? Hn]]; [by left|right; split; [done|tauto]]].
      exfalso. destruct Hd as [?|[_ Hn]]; [congruence|]. apply Hn. right. by left.
  - destruct lo_freed0 as (F1 & F2 & F3). cbn. split; [by rewrite F1|split].
    + apply list.NoDup_app. split; [done|split; [|by apply list.NoDup_singleton]]. intros x Hx Hx'%list_elem_of_singleton. subst x.
      apply Hnf. by apply list_elem_of_In.
    + intros x [Hx|[<-|[]]]%in_app_iff; [by apply Hfr|]. split; [done|split; [rewrite upd_eq; lia|by rewrite Ec]].
Qed.

(** A thread whose wait is over gives up its reference. *)
Lemma join_ok T s p wl w tp c : life_ok T s p wl -> joins s !! w = Some tp -> l_codes p !! tp = Some c ->
  let j := delete w (joins s) in
  life_ok T (set_joins j s) (Life (l_reg p) (l_heap p) (l_refs p) (l_codes p) j (l_freed p)) wl /\
  Z.of_nat (pending j tp) < l_refs p tp.
Proof.
  intros H Hj Hc j. pose proof H as []. destruct (lo_joins0 w tp Hj) as (Hw & Ht & _).
  assert (Hd : forall x y, j !! x = Some y -> joins s !! x = Some y /\ x <> w).
  { intros x y Hx. unfold j in Hx. apply lookup_delete_Some in Hx as [? ?]. split; congruence. }
  assert (Hpd : forall x, pending (joins s) x = ((if decide (tp = x) then 1 else 0) + pending j x)%nat) by (intros x; by apply pending_delete).
  split.
  - constructor; try done.
    + intros t x Ht'. rewrite lo_lists0 by done. cbn. split; [intros [Hx Hn]|intros [Hx Hn]].
      * split; [|done]. unfold j. rewrite lookup_delete_ne; [done|]. intros <-. congruence.
      * split; [|done]. by apply Hd.
    + intros x y Hx. apply lo_joins0. by apply Hd.
    + intros x Hx Hs. destruct (lo_wtexit0 x Hx Hs) as (y & Hy & Hcy). exists y. split; [|done]. cbn. unfold j.
      rewrite lookup_delete_ne; [done|]. intros <-. congruence.
    + intros x Hx. destruct (lo_refs0 x Hx) as (? & ? & E). rewrite Hpd in E. cbn. split; [done|split; [done|]]. lia.
  - destruct (lo_refs0 tp Ht) as (_ & _ & E). rewrite Hpd in E. rewrite decide_True in E by done. lia.
Qed.

(** ** The operations *)

Definition new_thread (T : gset Z) (tp prio : Z) : Prop :=
  0 < prio /\ tp ∉ T /\ kind !! tp = None /\ tp <> NULL /\ (size ({[tp]} ∪ T) < fuel)%nat /\
  p_waiting tp ∉ ({[tp]} ∪ T) /\ kind !! p_waiting tp = None /\ forall x, x ∈ T -> p_waiting x <> tp.

(** What the documentation asks: a thread inside of chThdWait does nothing else; the
    caller of a function that gives up a reference owns one; the registry is walked from a
    thread that is in it. *)
Definition valid_life (T : gset Z) (o : life_op) (s : lstate) : Prop :=
  let cur := r_current (kn s) in
  match o with LfResume | LfKernel (Irq _) => True | _ => joins s !! cur = None end /\
  match o with
  | LfCreate tp prio | LfCreateHeap (Some tp) prio => new_thread T tp prio
  | LfCreateHeap None _ => True
  | LfExit _ => cur <> idle
  | LfWait tp => tp ∈ T /\ tp <> cur /\ cur <> idle /\ Z.of_nat (pending (joins s) tp) < p_refs s tp
  | LfResume => is_Some (joins s !! cur)
  | LfAddRef tp => tp ∈ T /\ 0 < p_refs s tp < 255
  | LfRelease tp => tp ∈ T /\ Z.of_nat (pending (joins s) tp) < p_refs s tp
  | LfTerminate tp => tp ∈ T
  | LfFirst => p_refs s (p_next (registry s) rlist) < 255
  | LfNext tp => tp ∈ T /\ Z.of_nat (pending (joins s) tp) < p_refs s tp /\
      (p_state (kn s) tp <> CH_STATE_FINAL \/ Z.land (p_flags s tp) CH_FLAG_MODE_MASK = CH_FLAG_MODE_HEAP) /\
      p_refs s (p_next (registry s) tp) < 255
  | LfKernel e => valid_event rlist idle fuel kind T (kn s) e /\ forall tp prio, e <> Call (Create tp prio)
  end.

Definition threads_then (o : life_op) (T : gset Z) : gset Z :=
  match o with LfCreate tp _ | LfCreateHeap (Some tp) _ => {[tp]} ∪ T | _ => T end.

Fixpoint valid_lifes (T : gset Z) (os : list life_op) (s : lstate) : Prop :=
  match os with
  | [] => True
  | o :: os => valid_life T o s /\ forall a s', run_life o s = Some (a, s') -> valid_lifes (threads_then o T) os s'
  end.

Definition step_ok (T : gset Z) (p : life) (r : option (list life_event * lstate)) : Prop :=
  exists a s' p' wl', r = Some (a, s') /\ life_run a p = Some p' /\ life_ok T s' p' wl'.

Lemma life_kernel_step T s p wl e : life_ok T s p wl -> valid_life T (LfKernel e) s -> step_ok T p (run_life (LfKernel e) s).
Proof.
  intros H (_ & Hv & Hcr). destruct (lo_running T s p wl H) as (G & qs & Hk & _).
  destruct (run_event_ok rlist idle fuel kind T (kn s) e (lo_kernel _ _ _ _ H) Hv) as (k' & E & Hk').
  cbn [Lifecycle.run_life]. rewrite E. exists [], (set_kn k' s), p, wl. split; [done|split; [done|]]. apply keep_ok; [done| |].
  - apply (event_rests T G (kn s) qs e); [done|by apply (lo_apart _ _ _ _ H)|done| |done]. by intros tp prio ->; destruct (Hcr tp prio).
  - destruct e as [[]|]; try exact Hk'. by destruct (Hcr tp prio).
Qed.

Lemma life_release_step T s p wl tp : life_ok T s p wl -> valid_life T (LfRelease tp) s -> step_ok T p (run_life (LfRelease tp) s).
Proof.
  intros H (_ & Ht & Hp). destruct (lo_refs _ _ _ _ H tp Ht) as (E & _). rewrite E in Hp.
  exists [ERelease tp], (chThdRelease tp s), (drop_ref tp p), wl. split; [done|split; [|by apply life_release_ok]].
  cbn. by replace (0 <? l_refs p tp) with true by lia.
Qed.

Lemma add_ref_step T s p wl tp : life_ok T s p wl -> valid_life T (LfAddRef tp) s -> step_ok T p (run_life (LfAddRef tp) s).
Proof.
  intros H (_ & Ht & Hp). destruct (lo_refs _ _ _ _ H tp Ht) as (E & _). rewrite E in Hp.
  exists [ERef tp], (chThdAddRef tp s), (add_ref tp p), wl. split; [done|split; [done|]]. apply add_ref_ok; [done|done| |lia].
  intros Hf. destruct (proj2 (proj2 (lo_freed _ _ _ _ H)) tp Hf) as (_ & ? & _). lia.
Qed.

Lemma terminate_step T s p wl tp : life_ok T s p wl -> tp ∈ T -> step_ok T p (run_life (LfTerminate tp) s).
Proof.
  intros H Ht. exists [], (chThdTerminate tp s), p, wl. split; [done|split; [done|]]. pose proof H as []. constructor; try done.
  intros x Hx. cbn. unfold upd. destruct (Z.eqb_spec x tp) as [->|]; [|by apply lo_flags0].
  rewrite Z.land_lor_distr_l. change (Z.land CH_FLAG_TERMINATE CH_FLAG_MODE_MASK) with 0. rewrite Z.lor_0_r. by apply lo_flags0.
Qed.

(** A thread of the registry. *)
Lemma listed_thread T s p wl tp : life_ok T s p wl -> In tp (l_reg p) -> tp ∈ T /\ ~ In tp (l_freed p).
Proof.
  intros H [Ht Hd]%(lo_listed _ _ _ _ H). split; [done|]. intros Hf.
  destruct (proj2 (proj2 (lo_freed _ _ _ _ H)) tp Hf) as (_ & _ & [c Hc]). destruct Hd as [?|[_ ?]]; [congruence|done].
Qed.

Lemma first_step T s p wl : life_ok T s p wl -> valid_life T LfFirst s -> step_ok T p (run_life LfFirst s).
Proof.
  intros H (_ & Hr). cbn [Lifecycle.run_life]. unfold chRegFirstThread. pose proof (lo_registry _ _ _ _ H) as Hreg.
  rewrite (reg_first _ _ _ Hreg) in Hr |- *.
  destruct (lo_idle T s p wl H) as [Hi Hci]. assert (Hin : In idle (l_reg p)) by (apply (lo_listed _ _ _ _ H); split; [done|by left]).
  destruct (l_reg p) as [|x r] eqn:Er; [done|]. assert (Hx : In x (l_reg p)) by (rewrite Er; by left).
  destruct (listed_thread T s p wl x H Hx) as [HxT Hxf]. destruct (lo_refs _ _ _ _ H x HxT) as (E & _). rewrite E in Hr.
  exists [EFirst x], (chThdAddRef x s), (add_ref x p), wl. split; [done|split; [|by apply add_ref_ok]].
  cbn. by rewrite Er, Z.eqb_refl.
Qed.

Lemma next_step T s p wl tp : life_ok T s p wl -> valid_life T (LfNext tp) s -> step_ok T p (run_life (LfNext tp) s).
Proof.
  intros H (_ & Ht & Hp & Hd & Hr). cbn [Lifecycle.run_life]. unfold chRegNextThread. pose proof (lo_registry _ _ _ _ H) as Hreg.
  destruct (lo_refs _ _ _ _ H tp Ht) as (E & _). rewrite E in Hp.
  assert (Hin : In tp (l_reg p)).
  { apply (lo_listed _ _ _ _ H). split; [done|]. pose proof (lo_codes _ _ _ _ H tp Ht) as Hc. destruct (l_codes p !! tp) as [c|] eqn:Ec; [right|by left].
    destruct Hd as [?|Hd]; [by destruct Hc|]. rewrite (lo_flags _ _ _ _ H tp Ht) in Hd. destruct (l_heap p tp); [|done]. split; [done|].
    intros Hf. destruct (proj2 (proj2 (lo_freed _ _ _ _ H)) tp Hf) as (_ & ? & _). lia. }
  rewrite (next_in_spec _ _ _ Hreg tp Hin) in Hr |- *. destruct (next_in tp (l_reg p)) as [y|] eqn:En.
  - pose proof (next_in_in (l_reg p) tp y En) as Hy. destruct (listed_thread T s p wl y H Hy) as [HyT Hyf].
    destruct (reg_nodup _ _ _ Hreg) as [_ Hnr]. assert (y <> rlist) by (intros ->; done).
    rewrite (proj2 (Z.eqb_neq y rlist)) by done. destruct (lo_refs _ _ _ _ H y HyT) as (Ey & _). rewrite Ey in Hr.
    assert (H1 : life_ok T (chThdAddRef y s) (add_ref y p) wl) by (by apply add_ref_ok).
    exists [ENext tp (Some y)], (chThdRelease tp (chThdAddRef y s)), (drop_ref tp (add_ref y p)), wl. split; [done|split].
    + cbn. by rewrite decide_True.
    + apply life_release_ok; [done|done|]. cbn. unfold upd. destruct (Z.eqb_spec tp y) as [->|]; lia.
  - rewrite Z.eqb_refl. exists [ENext tp None], (chThdRelease tp s), (drop_ref tp p), wl. split; [done|split; [|by apply life_release_ok]].
    cbn. by rewrite decide_True.
Qed.

Lemma life_resume_step T s p wl : life_ok T s p wl -> valid_life T LfResume s -> step_ok T p (run_life LfResume s).
Proof.
  intros H (_ & [tp Hj]). cbn [Lifecycle.run_life]. rewrite Hj. set (w := r_current (kn s)) in *. cbn [wait_end].
  destruct (lo_joins _ _ _ _ H w tp Hj) as (Hw & Ht & Hs). destruct (lo_running T s p wl H) as (_ & _ & _ & _ & _ & _ & Hcs). fold w in Hcs.
  pose proof (lo_codes _ _ _ _ H tp Ht) as Hc. destruct (l_codes p !! tp) as [c|] eqn:Ec; [|rewrite (Hs eq_refl) in Hcs; done].
  destruct Hc as [_ Hu]. destruct (join_ok T s p wl w tp c H Hj Ec) as [H1 Hp].
  eexists [EJoin w tp (p_u (kn s) tp)], _, _, wl. split; [done|split].
  - cbn. rewrite <- (lo_waits _ _ _ _ H), Hj, Ec, Hu, !Z.eqb_refl. done.
  - rewrite joins_release, <- set_joins_release. apply life_release_ok; [exact H1|done|exact Hp].
Qed.

(** *** Waiting *)

Lemma wait_sleeps T s p wl tp : life_ok T s p wl -> valid_life T (LfWait tp) s -> p_state (kn s) tp <> CH_STATE_FINAL ->
  step_ok T p (run_life (LfWait tp) s).
Proof.
  intros H (Hfree & Ht & Hne & Hi & Hp) Hs. cbn [Lifecycle.run_life]. set (w := r_current (kn s)) in *.
  destruct (lo_running T s p wl H) as (G & qs & Hk & Htop & Hq & Hw & Hws). fold w in Hw, Hws. pose proof (km_ok _ _ _ _ _ _ _ _ Hk) as Hok.
  destruct (lo_apart _ _ _ _ H tp Ht) as [Hpt Hpk]. assert (Hwk : kind !! w = None) by (by apply (ko_apart _ _ _ _ _ _ _ _ Hok)).
  pose proof (lo_codes _ _ _ _ H tp Ht) as Hc. destruct (l_codes p !! tp) as [c|] eqn:Ec; [by destruct Hc|].
  set (m := list_insert w (p_waiting tp) (lk (kn s))). set (k1 := set_lk m (kn s)).
  assert (Hm : forall x, x <> w -> x <> p_waiting tp -> p_next m x = p_next (lk (kn s)) x) by (intros x H1 H2; cbn; by rewrite !upd_ne).
  assert (Hk1 : kmid rlist idle fuel kind G T None k1 qs).
  { apply kmid_links; [done|]. intros h l x Hh Hx. split; [|done]. apply Hm; intros ->.
    - destruct (kok_unqueued _ _ _ _ _ _ _ _ Hok w Hw) with (h := h) (l := l); [|done|done]. right. unfold loose. by rewrite Hws.
    - by apply (unqueued_head rlist idle fuel kind T G None (kn s) qs h l (p_waiting tp) Hok). }
  destruct (end_sleep_ok rlist idle fuel kind G T k1 qs CH_STATE_WTEXIT Hk1 Hq Hi) as (qs2 & Hk2 & Htop2 & (_ & Hu2 & Hc2 & Hr2 & Hs2)); [right; by left|].
  set (k2 := chSchGoSleepS rlist CH_STATE_WTEXIT k1) in *. change (r_current k1) with w in *. change (p_state k1) with (p_state (kn s)) in *. change (p_u k1) with (p_u (kn s)) in Hu2.
  assert (Hrk : kind !! rlist = Some QReady) by (by apply (ko_ready _ _ _ _ _ _ _ _ Hok)).
  assert (Hnext : forall x, kind !! x = None -> p_next (lk k2) x = p_next m x) by (intros x Hx; apply goSleep_next; intros ->; congruence).
  assert (Hst : forall x, x <> w -> p_state (kn s) x <> CH_STATE_READY -> p_state k2 x = p_state (kn s) x).
  { intros x Hx Hr. rewrite Hs2, upd_ne by (intros ->; congruence). by rewrite upd_ne. }
  unfold chThdWait. fold w m k1. replace (match p_state (kn s) tp with CH_STATE_FINAL => _ | _ => _ end)
    with (@None Z, set_kn k2 s) by (by destruct (p_state (kn s) tp)).
  exists [EWait w tp], (resumed (set_joins (<[w := tp]> (joins s)) (set_kn k2 s))),
    (Life (l_reg p) (l_heap p) (l_refs p) (l_codes p) (<[w := tp]> (l_waits p)) (l_freed p)), (fun x => if x =? tp then w :: wl tp else wl x).
  split; [done|split; [cbn; by rewrite <- (lo_waits _ _ _ _ H), Hfree|]].
  assert (Eres : lk (timeout_resume k2) = lk k2 /\ p_state (timeout_resume k2) = p_state k2 /\ p_u (timeout_resume k2) = p_u k2)
    by (unfold timeout_resume; by destruct (armed k2 (r_current k2))).
  destruct Eres as (El & Es & Eu). pose proof H as [].
  assert (Hold : forall t x, t ∈ T -> In x (wl t) -> x <> w) by (intros t x Ht' [Hj _]%lo_lists0 ->; [congruence|done]).
  constructor; cbn [kn resumed set_kn set_joins joins registry p_refs p_flags freed l_reg l_heap l_refs l_codes l_waits l_freed]; rewrite ?El, ?Es, ?Eu; try done.
  - by apply (life_kernel_resume T G k2 qs2).
  - assert (Hkeep : forall x t, t ∈ T -> x = p_waiting t /\ t <> tp \/ In x (wl t) -> p_next (lk k2) x = p_next (lk (kn s)) x).
    { intros x t Ht' Hx. assert (Hx' : x <> w /\ x <> p_waiting tp /\ kind !! x = None).
      { destruct Hx as [[-> Ht2]|Hx].
        - destruct (lo_apart0 t Ht') as [H1 H2]. split; [by intros <-|split; [|done]]. intros E. by apply Ht2, Hinj.
        - destruct (lo_waiter T s p wl H t x Ht' Hx) as [HxT _]. split; [by apply (Hold t)|split; [by intros ->|]]. by apply (ko_apart _ _ _ _ _ _ _ _ Hok). }
      destruct Hx' as (H1 & H2 & H3). rewrite Hnext by done. by apply Hm. }
    intros t Ht'. destruct (lo_chain0 t Ht') as [Hch Hnd]. destruct (Z.eqb_spec t tp) as [->|Hnt].
    + split; [|apply list.NoDup_cons; split; [|done]; rewrite list_elem_of_In; intros Hx; by apply (Hold tp w)].
      cbn [chain]. split; [rewrite Hnext by done; cbn; by rewrite upd_eq|].
      assert (Hwn : p_next (lk k2) w = p_next (lk (kn s)) (p_waiting tp)).
      { rewrite Hnext by done. cbn. rewrite upd_ne by (intros ->; done). by rewrite upd_eq. }
      destruct (wl tp) as [|x r] eqn:Ewl; cbn [chain] in *; [by rewrite Hwn|]. destruct Hch as [E1 Hch]. split; [by rewrite Hwn|].
      apply (waiters_frame (p_next (lk (kn s)))); [|done]. intros y Hy. apply (Hkeep y tp Ht'). right. by rewrite Ewl.
    + split; [|done]. apply (waiters_frame (p_next (lk (kn s)))); [|done]. intros x [<-|Hx]; apply (Hkeep _ t Ht'); [by left|by right].
  - intros t x Ht'. destruct (Z.eqb_spec t tp) as [->|Hnt]; [cbn [In]; rewrite lo_lists0 by done|rewrite lo_lists0 by done].
    + destruct (decide (x = w)) as [->|Hx]; [rewrite lookup_insert_eq; split; [by intros _|by left]|].
      rewrite lookup_insert_ne by done. split; [intros [?|?]; [congruence|done]|by right].
    + destruct (decide (x = w)) as [->|Hx]; [rewrite lookup_insert_eq, Hfree; split; [by intros [? _]|intros [[= ?] _]; congruence]|].
      by rewrite lookup_insert_ne.
  - intros x t. destruct (decide (x = w)) as [->|Hx].
    + rewrite lookup_insert_eq. intros [= <-]. split; [done|split; [done|]]. intros _. rewrite Hs2, upd_ne by done. apply upd_eq.
    + rewrite lookup_insert_ne by done. intros Hj. destruct (lo_joins0 x t Hj) as (H1 & H2 & H3). split; [done|split; [done|]].
      intros Hct. specialize (H3 Hct). rewrite Hst; [done|done|by rewrite H3].
  - intros x Hx. rewrite Hs2. destruct (decide (x = w)) as [->|Hxw]; [exists tp; by rewrite lookup_insert_eq|].
    rewrite lookup_insert_ne by done. unfold upd. destruct (x =? r_current k2); [done|].
    rewrite (proj2 (Z.eqb_neq x w)) by done. by apply lo_wtexit0.
  - by rewrite lo_waits0.
  - intros t Ht'. specialize (lo_codes0 t Ht'). rewrite Hu2. destruct (l_codes p !! t).
    + destruct lo_codes0 as [H1 H2]. split; [|done]. rewrite Hst; [done| |by rewrite H1]. intros ->. congruence.
    + rewrite Hs2. unfold upd. destruct (Z.eqb_spec t (r_current k2)); [done|]. by destruct (Z.eqb_spec t w).
  - intros t Ht'. destruct (lo_refs0 t Ht') as (H1 & H2 & H3). split; [done|split; [done|]]. rewrite pending_insert by done.
    case_decide as E; [subst t; rewrite H1 in Hp; lia|lia].
Qed.

Lemma life_wait_step T s p wl tp : life_ok T s p wl -> valid_life T (LfWait tp) s -> step_ok T p (run_life (LfWait tp) s).
Proof.
  intros H Hv. destruct (decide (p_state (kn s) tp = CH_STATE_FINAL)) as [Hs|Hs]; [|by apply (wait_sleeps T s p wl)].
  destruct Hv as (Hfree & Ht & Hne & Hi & Hp). destruct (lo_refs _ _ _ _ H tp Ht) as (E & _). rewrite E in Hp.
  cbn [Lifecycle.run_life]. unfold chThdWait. rewrite Hs. cbn [wait_end].
  pose proof (lo_codes _ _ _ _ H tp Ht) as Hc. destruct (l_codes p !! tp) as [c|] eqn:Ec; [|done]. destruct Hc as [_ Hu].
  eexists _, (chThdRelease tp s), (drop_ref tp p), wl. split; [done|split; [|by apply life_release_ok]].
  rewrite (lo_waits _ _ _ _ H) in Hfree. cbn. rewrite Hfree. cbn. rewrite lookup_insert_eq, Ec, Hu, !Z.eqb_refl. cbn.
  rewrite delete_insert_id by done. by destruct p.
Qed.

(** *** Ending *)

Lemma exit_step T s p wl msg : life_ok T s p wl -> valid_life T (LfExit msg) s -> step_ok T p (run_life (LfExit msg) s).
Proof.
  intros H (Hfree & Hi). cbn [Lifecycle.run_life]. set (w := r_current (kn s)) in *.
  destruct (lo_running T s p wl H) as (G & qs & Hk & Htop & Hq & Hw & Hws). fold w in Hw, Hws. pose proof (km_ok _ _ _ _ _ _ _ _ Hk) as Hok.
  pose proof (lo_codes _ _ _ _ H w Hw) as Hc. destruct (l_codes p !! w) as [c|] eqn:Ec; [destruct Hc; congruence|]. clear Hc.
  destruct (lo_chain _ _ _ _ H w Hw) as [Hch Hnd].
  destruct (exit_loop_ok rlist idle fuel kind p_waiting G T w (lo_apart _ _ _ _ H) Hw (wl w) fuel (set_u w msg (kn s)) qs)
    as (k2 & qs2 & E2 & Hk2 & Hq2 & Hc2 & Hu2 & Hs2 & Hp2 & Hn2); [by apply kmid_u_current|done|exact Hch|exact Hnd|by intros x Hx; apply (lo_waiter T s p wl H w x)|by apply (lo_length T s p wl H w)|].
  change (r_current (set_u w msg (kn s))) with w in Hc2. change (p_state (set_u w msg (kn s))) with (p_state (kn s)) in Hs2.
  change (p_u (set_u w msg (kn s))) with (upd w msg (p_u (kn s))) in Hu2. change (lk (set_u w msg (kn s))) with (lk (kn s)) in Hn2.
  assert (Hww : ~ In w (wl w)) by (intros Hx%(lo_lists _ _ _ _ H); [|done]; destruct Hx; congruence).
  destruct (end_sleep_ok rlist idle fuel kind G T k2 qs2 CH_STATE_FINAL Hk2 Hq2) as (qs3 & Hk3 & Htop3 & (_ & Hu3 & Hc3 & Hr3 & Hs3)); [by rewrite Hc2|by left|].
  rewrite Hc2 in Hc3, Hs3. set (k3 := chSchGoSleepS rlist CH_STATE_FINAL k2) in *.
  assert (Hrk : kind !! rlist = Some QReady) by (by apply (ko_ready _ _ _ _ _ _ _ _ Hok)).
  assert (Hnext : forall x, kind !! x = None -> p_next (lk k3) x = p_next (lk k2) x) by (intros x Hx; apply goSleep_next; intros ->; congruence).
  assert (Hst : forall x, x <> w -> ~ In x (wl w) -> p_state (kn s) x <> CH_STATE_READY -> p_state k3 x = p_state (kn s) x).
  { intros x Hx Hxl Hr. assert (E : p_state k2 x = p_state (kn s) x) by (rewrite Hs2; by destruct (in_dec _ x (wl w))).
    rewrite Hs3, upd_ne by (intros ->; congruence). by rewrite upd_ne. }
  set (heap := l_heap p w). set (reg := if heap then registry s else REG_REMOVE w (registry s)).
  set (s' := LS (timeout_resume k3) reg (p_refs s) (p_flags s) (joins s) (freed s)).
  exists [EExit w msg], s', (Life (if heap then l_reg p else without w (l_reg p)) (l_heap p) (l_refs p) (<[w := msg]> (l_codes p)) (l_waits p) (l_freed p)),
    (fun x => if x =? w then [] else wl x).
  split; [|split; [cbn; unfold ended; by rewrite Ec|]].
  { unfold chThdExit, chThdExitS. fold w. cbn [kn set_kn]. rewrite E2. cbn [p_flags set_kn]. rewrite (lo_flags _ _ _ _ H w Hw). fold heap.
    unfold s', reg. by destruct heap. }
  assert (Eres : lk (timeout_resume k3) = lk k3 /\ p_state (timeout_resume k3) = p_state k3 /\ p_u (timeout_resume k3) = p_u k3)
    by (unfold timeout_resume; by destruct (armed k3 (r_current k3))).
  destruct Eres as (El & Es & Eu). pose proof H as [].
  assert (Hnf : ~ In w (l_freed p)) by (intros Hf; destruct (proj2 (proj2 lo_freed0) w Hf) as (_ & _ & [? ?]); congruence).
  assert (Hcode : forall x, <[w := msg]> (l_codes p) !! x = None -> x <> w /\ l_codes p !! x = None).
  { intros x Hx. apply lookup_insert_None in Hx as [? ?]. by split. }
  assert (Hcode' : forall x, x <> w -> <[w := msg]> (l_codes p) !! x = l_codes p !! x) by (intros x Hx; by rewrite lookup_insert_ne).
  constructor; cbn [kn s' joins registry p_refs p_flags freed l_reg l_heap l_refs l_codes l_waits l_freed]; rewrite ?El, ?Es, ?Eu; try done.
  - by apply (life_kernel_resume T G k3 qs3).
  - intros t Ht. destruct (lo_apart0 t Ht) as [Hpt Hpk]. destruct (Z.eqb_spec t w) as [->|Hne].
    + split; [|constructor]. cbn [chain]. by rewrite Hnext.
    + destruct (lo_chain0 t Ht) as [Hct Hndt]. split; [|done]. apply (waiters_frame (p_next (lk (kn s)))); [|done]. intros x [<-|Hx].
      * rewrite Hnext by done. apply Hn2; [|by intros E; apply Hne, Hinj]. split; [|left; by exists t].
        intros Hx. by destruct (lo_waiter T s p wl H w _ Hw Hx).
      * destruct (lo_waiter T s p wl H t x Ht Hx) as [HxT Hxs]. rewrite Hnext by (by apply (ko_apart _ _ _ _ _ _ _ _ Hok)).
        apply Hn2; [|intros ->; by destruct (lo_apart0 w Hw)]. split; [|right; by split; [|left]].
        intros Hx'. apply lo_lists0 in Hx as [Hj _]; [|done]. apply lo_lists0 in Hx' as [Hj' _]; [|done]. congruence.
  - intros t x Ht. destruct (Z.eqb_spec t w) as [->|Hne].
    + rewrite lookup_insert_eq. split; [by intros []|by intros [_ ?]].
    + rewrite Hcode' by done. by apply lo_lists0.
  - intros x t Hj. destruct (lo_joins0 x t Hj) as (H1 & H2 & H3). split; [done|split; [done|]]. intros [Hne Hct]%Hcode. specialize (H3 Hct).
    rewrite Hst; [done|intros ->; congruence| |by rewrite H3]. intros Hx'. apply lo_lists0 in Hx' as [Hj' _]; [|done]. congruence.
  - intros x Hx. rewrite Hs3. unfold upd. destruct (x =? r_current k3); [done|]. destruct (x =? w); [done|]. rewrite Hs2.
    destruct (in_dec _ x (wl w)) as [|Hxl]; [done|]. intros Hxs. destruct (lo_wtexit0 x Hx Hxs) as (y & Hy & Hcy). exists y. split; [done|].
    rewrite Hcode'; [done|]. intros ->. apply Hxl. by apply lo_lists0.
  - intros t Ht. rewrite Hu3, Hu2. destruct (decide (t = w)) as [->|Hne].
    + rewrite lookup_insert_eq. rewrite Hs3, upd_ne by done. by rewrite !upd_eq.
    + rewrite Hcode' by done. rewrite upd_ne by done. specialize (lo_codes0 t Ht). destruct (l_codes p !! t) as [c|] eqn:Ect.
      * destruct lo_codes0 as [H1 H2]. split; [|done]. rewrite Hst; [done|done| |by rewrite H1].
        intros Hx. destruct (lo_waiter T s p wl H w t Hw Hx). congruence.
      * rewrite Hs3. unfold upd. destruct (Z.eqb_spec t (r_current k3)); [done|]. destruct (Z.eqb_spec t w); [done|]. rewrite Hs2. by destruct (in_dec _ t (wl w)).
  - intros t c. destruct (decide (t = w)) as [->|Hne]; [done|]. rewrite Hcode' by done. apply lo_known0.
  - unfold reg. destruct heap; [done|]. apply reg_remove; [done|]. apply lo_listed0. split; [done|by left].
  - intros t. destruct (decide (t = w)) as [->|Hne].
    + rewrite lookup_insert_eq. fold heap. destruct heap.
      * split; [intros _; split; [done|by right]|]. intros _. apply lo_listed0. split; [done|by left].
      * rewrite without_in. split; [by intros [_ ?]|by intros [_ [?|[? _]]]].
    + rewrite Hcode' by done. destruct heap; [apply lo_listed0|]. rewrite without_in, lo_listed0. tauto.
  - destruct lo_freed0 as (F1 & F2 & F3). split; [done|split; [done|]]. intros t Hf. destruct (F3 t Hf) as (? & ? & ?). split; [done|split; [done|]].
    rewrite Hcode'; [done|]. by intros ->.
Qed.

(** *** Creation *)

Lemma pending_none j tp : (forall w, j !! w <> Some tp) -> pending j tp = O.
Proof.
  intros Hn. unfold pending. replace (filter _ j) with (∅ : gmap Z Z); [done|]. apply map_eq. intros w. rewrite lookup_empty.
  symmetry. apply map_lookup_filter_None. right. intros t Hw Ht. cbn in Ht. subst t. by apply (Hn w).
Qed.

(** The kernel's part of the creation, with the list of the threads that wait. *)
Lemma create_kernel T s p wl tp prio : life_ok T s p wl -> new_thread T tp prio ->
  let k1 := set_lk (list_init (p_waiting tp) (lk (kn s))) (kn s) in
  exists k', chSchWakeupS rlist fuel tp MSG_OK (set_lk (list_init (p_waiting tp) (lk (kn s))) (Sched._thread_init tp prio (kn s))) = Some k' /\
    kernel_ok ({[tp]} ∪ T) (timeout_resume k') /\ rests T k1 (timeout_resume k') /\
    runnable (p_state (timeout_resume k') tp) = true /\ p_next (lk (timeout_resume k')) (p_waiting tp) = p_waiting tp.
Proof.
  intros H (H1 & H2 & H3 & H4 & H5 & H6 & H7 & H8) k1. destruct (lo_running T s p wl H) as (G & qs & Hk & Htop & Hq & _).
  pose proof (km_ok _ _ _ _ _ _ _ _ Hk) as Hok. set (m := list_init (p_waiting tp) (lk (kn s))) in *.
  assert (Hk1 : kmid rlist idle fuel kind G T None k1 qs).
  { apply kmid_links; [done|]. intros h l x Hh Hx. split; [|done]. cbn. apply upd_ne. intros ->.
    apply (unqueued_head rlist idle fuel kind T G None (kn s) qs h l (p_waiting tp) Hok); try done. set_solver. }
  assert (Hv : valid_event rlist idle fuel kind T k1 (Call (Create tp prio))) by (exact (conj H1 (conj H2 (conj H3 (conj H4 H5))))).
  destruct (run_event_ok rlist idle fuel kind T k1 (Call (Create tp prio))) as (k' & E & Hk'); [by exists G, qs|done|].
  pose proof (event_cold rlist idle fuel kind (fun x => at_rest T k1 [] x \/ x = p_waiting tp) (fun st => st = CH_STATE_WTEXIT \/ st = CH_STATE_FINAL)
    (fun st Hst => Hst)) as Hcold. specialize (Hcold ltac:(by rewrite (proj1 (ko_ready _ _ _ _ _ _ _ _ Hok))) G T k1 qs (Call (Create tp prio)) k' Hk1).
  destruct Hcold as [C1 C2]; try done.
  { intros x [Hx| ->]; [|split; [done|set_solver]]. apply (at_rest_cold kind p_waiting T k1 []); [by apply (lo_apart _ _ _ _ H)| |done].
    intros y Hy. by apply (ko_apart _ _ _ _ _ _ _ _ Hok). }
  { intros tp' prio' [= <- <-] [(_ & [(y & Hy & Ey)|[? _]])|Ey]; [by destruct (H8 y)|done|]. rewrite <- Ey in H6. set_solver. }
  unfold Kernel.run_event in E. cbn [Kernel.run_call] in E. unfold Sched.chThdCreateStatic in E.
  change (Sched.chThdCreateI tp prio k1) with (set_lk m (Sched._thread_init tp prio (kn s))) in E.
  destruct (chSchWakeupS rlist fuel tp MSG_OK _) as [k2|] eqn:E2; [|done]. injection E as <-. exists k2. split; [done|split; [done|split; [|split]]].
  - split; [|exact C2]. intros x Hx. apply C1. by left.
  - apply wakeupS_runnable in E2. unfold timeout_resume. by destruct (armed k2 (r_current k2)).
  - destruct (C1 (p_waiting tp) (or_intror eq_refl)) as (-> & _). cbn. apply upd_eq.
Qed.

Lemma created_ok T s p wl tp prio (heap : bool) fl k' :
  (forall x, Z.land (fl x) CH_FLAG_MODE_MASK = if x =? tp then if heap then CH_FLAG_MODE_HEAP else CH_FLAG_MODE_STATIC else Z.land (p_flags s x) CH_FLAG_MODE_MASK) ->
  life_ok T s p wl -> new_thread T tp prio -> kernel_ok ({[tp]} ∪ T) k' ->
  rests T (set_lk (list_init (p_waiting tp) (lk (kn s))) (kn s)) k' -> runnable (p_state k' tp) = true -> p_next (lk k') (p_waiting tp) = p_waiting tp ->
  life_ok ({[tp]} ∪ T)
    (LS k' (REG_INSERT rlist tp (registry s)) (upd tp 1 (p_refs s)) fl (joins s) (freed s))
    (Life (l_reg p ++ [tp]) (fun x => if x =? tp then heap else l_heap p x) (upd tp 1 (l_refs p)) (l_codes p) (l_waits p) (l_freed p))
    (fun x => if x =? tp then [] else wl x).
Proof.
  intros Hfl H (N1 & N2 & N3 & N4 & N5 & N6 & N7 & N8) Hk' [R1 R2] Hrun Hnx. pose proof H as [].
  assert (Hne : forall x, x ∈ T -> x <> tp) by (intros x Hx ->; done).
  assert (Htp : l_codes p !! tp = None) by (destruct (l_codes p !! tp) eqn:E; [by apply lo_known0 in E|done]).
  assert (Hj : forall w t, joins s !! w = Some t -> w <> tp /\ t <> tp) by (intros w t Hj; destruct (lo_joins0 w t Hj) as (? & ? & _); auto).
  assert (Hrl : tp <> rlist).
  { intros ->. destruct (lo_running T s p wl H) as (G & qs & Hk & _). destruct (ko_ready _ _ _ _ _ _ _ _ (km_ok _ _ _ _ _ _ _ _ Hk)). congruence. }
  assert (Hrest : forall x, at_rest T (kn s) [] x -> x <> p_waiting tp -> p_next (lk k') x = p_next (lk (kn s)) x /\ p_state k' x = p_state (kn s) x /\ p_u k' x = p_u (kn s) x).
  { intros x Hx Hn. destruct (R1 x Hx) as (E1 & E2 & E3). split; [|done]. rewrite E1. cbn. by apply upd_ne. }
  constructor; cbn [kn joins registry p_refs p_flags freed l_reg l_heap l_refs l_codes l_waits l_freed]; try done.
  - intros x [->%elem_of_singleton|Hx]%elem_of_union; [done|]. destruct (lo_apart0 x Hx). split; [|done].
    intros [E%elem_of_singleton|?]%elem_of_union; [by apply (N8 x)|done].
  - intros x [->%elem_of_singleton|Hx]%elem_of_union; [rewrite Z.eqb_refl; split; [done|constructor]|].
    rewrite (proj2 (Z.eqb_neq x tp)) by auto. destruct (lo_chain0 x Hx) as [Hc Hnd]. split; [|done].
    apply (waiters_frame (p_next (lk (kn s)))); [|done]. intros y [<-|Hy]; apply Hrest.
    + by apply rest_head.
    + intros E. apply (Hne x Hx). by apply Hinj.
    + by apply (rest_waiter T s p wl H x).
    + destruct (lo_waiter T s p wl H x y Hx Hy). intros ->. set_solver.
  - intros t x Ht. destruct (Z.eqb_spec t tp) as [->|Htn]; [|apply lo_lists0; set_solver].
    split; [by intros []|]. intros [Hx _]. by destruct (Hj x tp Hx).
  - intros w t Hwt. destruct (lo_joins0 w t Hwt) as (H1 & H2 & H3). split; [set_solver|split; [set_solver|]]. intros Hc. specialize (H3 Hc).
    destruct (Hrest w) as (_ & -> & _); [|intros ->; set_solver|done]. split; [by intros []|right; by split; [|left]].
  - intros x [->%elem_of_singleton|Hx]%elem_of_union Hxs; [by rewrite Hxs in Hrun|]. apply (lo_wtexit0 x Hx).
    rewrite <- Hxs. symmetry. apply (R2 x). by left.
  - intros t [->%elem_of_singleton|Ht]%elem_of_union; [rewrite Htp; intros E; by rewrite E in Hrun|]. specialize (lo_codes0 t Ht). destruct (l_codes p !! t).
    + destruct lo_codes0 as [H1 H2]. destruct (Hrest t) as (_ & -> & ->); [|intros ->; set_solver|done]. split; [by intros []|right; by split; [|right]].
    + intros Hf. apply lo_codes0. rewrite <- Hf. symmetry. apply (R2 t). by right.
  - intros t c Hc. apply elem_of_union_r. by apply (lo_known0 t c).
  - apply reg_insert; [done|done|]. intros [Hin _]%lo_listed0. done.
  - intros t. rewrite in_app_iff. cbn [In]. rewrite lo_listed0. destruct (Z.eqb_spec t tp) as [->|Hn].
    + split; [intros _; split; [set_solver|by left]|by right; left].
    + split; [intros [[? ?]|[?|[]]]; [split; [set_solver|done]|congruence]|intros [Ht ?]; left; split; [set_solver|done]].
  - intros t Ht. unfold upd. destruct (Z.eqb_spec t tp) as [->|Hn]; [|apply lo_refs0; set_solver].
    split; [done|split; [lia|]]. rewrite pending_none; [lia|]. intros w Hw. by destruct (Hj w tp Hw).
  - intros t Ht. rewrite Hfl. destruct (Z.eqb_spec t tp) as [->|Hn]; [done|apply lo_flags0; set_solver].
  - destruct lo_freed0 as (F1 & F2 & F3). split; [done|split; [done|]]. intros t Hf. destruct (F3 t Hf) as (? & ? & ?).
    split; [set_solver|split; [|done]]. by rewrite upd_ne by auto.
Qed.

Lemma life_create_step T s p wl tp prio : life_ok T s p wl -> new_thread T tp prio -> step_ok ({[tp]} ∪ T) p (run_life (LfCreate tp prio) s).
Proof.
  intros H Hn. destruct (create_kernel T s p wl tp prio H Hn) as (k' & E & Hk' & Hr & Hrun & Hnx).
  assert (Hok := created_ok T s p wl tp prio false (upd tp CH_FLAG_MODE_STATIC (p_flags s)) _ ltac:(intros x; unfold upd; by destruct (x =? tp)) H Hn Hk' Hr Hrun Hnx).
  eexists [ECreate tp false], _, _, _. split; [|split; [done|exact Hok]].
  cbn [Lifecycle.run_life]. unfold chThdCreateStatic, wakeup_new, chThdCreateI, _thread_init. cbn [kn set_kn set_registry set_refs set_flags lk Sched._thread_init].
  change (lk (Sched._thread_init tp prio (kn s))) with (lk (kn s)). rewrite E. done.
Qed.

Lemma create_heap_step T s p wl wsp prio : life_ok T s p wl -> valid_life T (LfCreateHeap wsp prio) s ->
  step_ok (threads_then (LfCreateHeap wsp prio) T) p (run_life (LfCreateHeap wsp prio) s).
Proof.
  intros H [_ Hn]. destruct wsp as [tp|]; [|by exists [], s, p, wl]. cbn [threads_then].
  destruct (create_kernel T s p wl tp prio H Hn) as (k' & E & Hk' & Hr & Hrun & Hnx).
  assert (Hok := created_ok T s p wl tp prio true (upd tp CH_FLAG_MODE_HEAP (upd tp CH_FLAG_MODE_STATIC (p_flags s))) _
    ltac:(intros x; unfold upd; by destruct (x =? tp)) H Hn Hk' Hr Hrun Hnx).
  eexists [ECreate tp true], _, _, _. split; [|split; [done|exact Hok]].
  cbn [Lifecycle.run_life]. unfold chThdCreateFromHeap, wakeup_new, chThdCreateI, _thread_init. cbn [kn set_kn set_registry set_refs set_flags lk Sched._thread_init].
  change (lk (Sched._thread_init tp prio (kn s))) with (lk (kn s)). rewrite E. done.
Qed.

(** ** Runs *)

Lemma run_life_ok T s p wl o : life_ok T s p wl -> valid_life T o s -> step_ok (threads_then o T) p (run_life o s).
Proof.
  intros H Hv. destruct o; cbn [threads_then].
  - destruct Hv. by apply (life_create_step T s p wl).
  - by apply (create_heap_step T s p wl).
  - by apply (exit_step T s p wl).
  - by apply (life_wait_step T s p wl).
  - by apply (life_resume_step T s p wl).
  - by apply (add_ref_step T s p wl).
  - by apply (life_release_step T s p wl).
  - destruct Hv. by apply (terminate_step T s p wl).
  - by apply (first_step T s p wl).
  - by apply (next_step T s p wl).
  - by apply (life_kernel_step T s p wl).
Qed.

Definition life_threads (os : list life_op) (T : gset Z) : gset Z := fold_left (fun T o => threads_then o T) os T.

Lemma run_lifes_ok : forall os T s p wl, life_ok T s p wl -> valid_lifes T os s ->
  exists a s' p' wl', run_lifes rlist fuel p_waiting os s = Some (a, s') /\ life_run a p = Some p' /\ life_ok (life_threads os T) s' p' wl'.
Proof.
  induction os as [|o os IH]; intros T s p wl H; cbn [valid_lifes run_lifes]; [by intros _; exists [], s, p, wl|].
  intros [Hv Hvs]. destruct (run_life_ok T s p wl o H Hv) as (a & s1 & p1 & wl1 & E & Ep & H1). rewrite E.
  destruct (IH _ s1 p1 wl1 H1 (Hvs a s1 E)) as (b & s2 & p2 & wl2 & E2 & Ep2 & H2). rewrite E2.
  exists (a ++ b), s2, p2, wl2. split; [done|split; [by apply (life_run_app a b p p1)|done]].
Qed.
End Correct.

(** ** The start of the system *)

Section Start.
Context (rlist : Z) (p_waiting : Z -> Z).

Definition _scheduler_init (s : lstate) : lstate :=
  set_registry (queue_init rlist (registry s)) (set_kn (Sched._scheduler_init rlist (kn s)) s).

(** The threads part of chSysInit. *)
Definition sys_init (mainthread : Z) (s : lstate) : lstate :=
  let s := _thread_init rlist p_waiting mainthread IDLEPRIO (_scheduler_init s) in
  let s := set_kn (setcurrp mainthread (kn s)) s in
  set_kn (set_state (r_current (kn s)) CH_STATE_CURRENT (kn s)) s.

Definition boot (mainthread : Z) (objs : list (Z * object)) (s : lstate) : lstate :=
  let s := sys_init mainthread s in set_kn (init_objects objs (kn s)) s.
End Start.

Definition life_start (mainthread : Z) : life := Life [mainthread] (fun _ => false) (fun _ => 1) ∅ ∅ [].

(** A link that no object has stays. *)
Lemma init_objects_at a objs : ~ In a (map fst objs) -> forall k m,
  (forall x, x <> a -> p_next m x = p_next (lk k) x /\ p_prev m x = p_prev (lk k) x) ->
  exists m', init_objects objs (set_lk m k) = set_lk m' (init_objects objs k) /\ p_next m' a = p_next m a /\
    forall x, x <> a -> p_next m' x = p_next (lk (init_objects objs k)) x /\ p_prev m' x = p_prev (lk (init_objects objs k)) x.
Proof.
  induction objs as [|[h o] objs IH]; intros Ha k m Hm; cbn [init_objects map fst] in *; [by exists m|].
  replace (init_object h o (set_lk m k)) with (set_lk (queue_init h m) (init_object h o k)) by (by destruct o).
  destruct (IH ltac:(intros ?; apply Ha; by right) (init_object h o k) (queue_init h m)) as (m' & E & Ea & Hm').
  - intros x Hx. rewrite init_object_links. cbn. unfold upd. destruct (x =? h); [done|by apply Hm].
  - exists m'. split; [done|split; [|done]]. rewrite Ea. cbn. apply upd_ne. intros ->. apply Ha. by left.
Qed.

Lemma sys_init_fields rlist p_waiting mainthread s :
  let k := Sched.sys_init rlist mainthread (kn s) in
  sys_init rlist p_waiting mainthread s = LS (set_lk (list_init (p_waiting mainthread) (lk k)) k) (REG_INSERT rlist mainthread (queue_init rlist (registry s)))
    (upd mainthread 1 (p_refs s)) (upd mainthread CH_FLAG_MODE_STATIC (p_flags s)) (joins s) (freed s).
Proof. reflexivity. Qed.

Lemma boot_life_ok rlist mainthread fuel p_waiting objs s :
  (forall a b, p_waiting a = p_waiting b -> a = b) ->
  objects_ok rlist mainthread objs -> blank_kernel (kn s) -> (1 < fuel)%nat ->
  ~ In (p_waiting mainthread) (rlist :: mainthread :: map fst objs) -> joins s = ∅ -> freed s = [] ->
  life_ok rlist mainthread fuel (kinds rlist objs) p_waiting {[mainthread]} (boot rlist p_waiting mainthread objs s) (life_start mainthread) (fun _ => []).
Proof.
  intros Hinj Ho Hb Hf Hw Hj Hfr. destruct (boot_ok rlist mainthread fuel objs (kn s) Ho Hb Hf) as (qs & Hk & Htop & Hq & _).
  unfold boot. rewrite sys_init_fields. assert (Ecur : r_current (Sched.sys_init rlist mainthread (kn s)) = mainthread) by done.
  set (k0 := Sched.sys_init rlist mainthread (kn s)) in *. clearbody k0. set (m := list_init (p_waiting mainthread) (lk k0)).
  assert (Hwo : ~ In (p_waiting mainthread) (map fst objs)) by (intros ?; apply Hw; by right; right).
  destruct (init_objects_at (p_waiting mainthread) objs Hwo k0 m) as (m' & E & Ea & Hm').
  { intros x Hx. cbn. by rewrite upd_ne. }
  assert (Hwk : kinds rlist objs !! p_waiting mainthread = None).
  { apply eq_None_not_Some. rewrite kinds_dom. intros [Hx|?]; [|done]. apply Hw. by left. }
  assert (Hwm : p_waiting mainthread <> mainthread) by (intros Hx; apply Hw; right; by left).
  assert (Hk' : kmid rlist mainthread fuel (kinds rlist objs) (Ghost qs (p_prio (init_objects objs k0)) (p_realprio (init_objects objs k0)))
    {[mainthread]} None (set_lk m' (init_objects objs k0)) qs).
  { apply kmid_links; [done|]. intros h l x Hh Hx. apply Hm'. intros ->.
    apply (unqueued_head rlist mainthread fuel _ {[mainthread]} _ None _ qs h l (p_waiting mainthread) (km_ok _ _ _ _ _ _ _ _ Hk)); try done.
    by intros Hx'%elem_of_singleton. }
  destruct (km_run _ _ _ _ _ _ _ _ Hk') as (Hc & Hs & _). destruct (init_objects_same objs k0) as (_ & Est & _ & Ec & _).
  assert (Em : r_current (init_objects objs k0) = mainthread) by (by rewrite Ec, Ecur).
  assert (Hreg : linked (queue_init rlist (registry s)) {[rlist := []]}).
  { rewrite <- insert_empty. apply linked_init; [by constructor; intros *; rewrite lookup_empty|]. intros h l. by rewrite lookup_empty. }
  assert (Hmr : mainthread <> rlist) by (intros ->; destruct Ho as ([Hr _]%list.NoDup_cons & _); apply Hr; by left).
  unfold life_start. cbn [kn]. rewrite E.
  constructor; cbn [kn set_kn joins registry p_refs p_flags freed l_reg l_heap l_refs l_codes l_waits l_freed].
  - exists (Ghost qs (p_prio (init_objects objs k0)) (p_realprio (init_objects objs k0))), qs. split; [done|split; done].
  - intros x ->%elem_of_singleton. split; [by intros ?%elem_of_singleton|done].
  - intros tp ->%elem_of_singleton. split; [|constructor]. cbn [chain]. change (lk (set_lk m' (init_objects objs k0))) with m'. rewrite Ea. cbn. apply upd_eq.
  - intros tp w _. rewrite Hj, lookup_empty. split; [by intros []|by intros [? _]].
  - intros w tp. by rewrite Hj, lookup_empty.
  - intros w ->%elem_of_singleton Hx. rewrite <- Em in Hx. cbn in Hx, Hs. congruence.
  - done.
  - intros tp ->%elem_of_singleton. rewrite lookup_empty. rewrite <- Em. cbn in Hs |- *. congruence.
  - intros tp c. by rewrite lookup_empty.
  - apply (reg_insert rlist _ [] Hreg mainthread Hmr). by intros [].
  - intros tp. cbn [In]. rewrite elem_of_singleton, lookup_empty. split; [intros [->|[]]; split; [done|by left]|intros [-> _]; by left].
  - intros tp ->%elem_of_singleton. rewrite Hj. split; [apply upd_eq|split; [lia|]].
    rewrite pending_none; [lia|]. intros w. by rewrite lookup_empty.
  - intros tp ->%elem_of_singleton. by rewrite upd_eq.
  - split; [done|split; [constructor|by intros ? []]].
Qed.


(** A run of three threads: 2200 waits for the end of 2100, then ends and is freed. *)
Definition demo_waiting (tp : Z) : Z := tp + 50000.
Definition demo_memory : lstate := LS blank (Links (fun _ => 0) (fun _ => 0)) (fun _ => 0) (fun _ => 0) ∅ [].
Definition demo_boot : lstate := boot 1000 demo_waiting 2000 [] demo_memory.
Definition demo_life : list life_op :=
  [LfCreate 2100 64; LfCreateHeap (Some 2200) 70; LfWait 2100; LfAddRef 2200; LfFirst; LfNext 2000; LfTerminate 2100; LfRelease 2100;
   LfKernel (Irq [ITick]); LfExit 7; LfResume; LfExit 9; LfRelease 2200; LfRelease 2200].

Lemma valid_lifes_step idle fuel kind T o os s : valid_life 1000 idle fuel kind demo_waiting T o s ->
  valid_lifes 1000 idle fuel kind demo_waiting (threads_then o T) os (default s (snd <$> run_life 1000 fuel demo_waiting o s)) ->
  valid_lifes 1000 idle fuel kind demo_waiting T (o :: os) s.
Proof. intros H1 H2. split; [done|]. intros a s' E. by rewrite E in H2. Qed.

Lemma demo_new_thread fuel T tp prio : (forall x, x ∈ T -> 0 < x < 50000 /\ x <> tp) -> 0 < prio -> 1000 < tp < 50000 -> (size ({[tp]} ∪ T) < fuel)%nat ->
  new_thread fuel (kinds 1000 []) demo_waiting T tp prio.
Proof.
  intros HT Hp Htp Hs. unfold new_thread, demo_waiting. split; [done|split; [by intros [_ ?]%HT|]].
  assert (Hk : forall x, x <> 1000 -> kinds 1000 [] !! x = None) by (intros x Hx; unfold kinds; by rewrite lookup_insert_ne).
  split; [apply Hk; lia|split; [unfold NULL; lia|split; [done|split; [|split; [apply Hk; lia|]]]]].
  - intros [E%elem_of_singleton|[E _]%HT]%elem_of_union; lia.
  - intros x [E _]%HT. lia.
Qed.

Lemma demo_life_valid : valid_lifes 1000 2000 4 (kinds 1000 []) demo_waiting {[2000]} demo_life demo_boot.
Proof.
  unfold demo_life.
  apply valid_lifes_step; [split; [by vm_compute|]; apply demo_new_thread; [intros x ->%elem_of_singleton|..|apply Nat.leb_le; by vm_compute]; lia|].
  apply valid_lifes_step; [split; [by vm_compute|]; apply demo_new_thread; [cbn [threads_then]; set_unfold; intros x Hx|..|apply Nat.leb_le; by vm_compute]; lia|].
  cbn [threads_then].
  apply valid_lifes_step; [split; [by vm_compute|split; [set_solver|by vm_compute]]|].
  apply valid_lifes_step; [split; [by vm_compute|split; [set_solver|by vm_compute]]|].
  apply valid_lifes_step; [by vm_compute|].
  apply valid_lifes_step; [split; [by vm_compute|split; [set_solver|split; [by vm_compute|split; [left; by vm_compute|by vm_compute]]]]|].
  apply valid_lifes_step; [split; [by vm_compute|cbn; set_solver]|].
  apply valid_lifes_step; [split; [by vm_compute|split; [set_solver|by vm_compute]]|].
  apply valid_lifes_step; [split; [done|split; [split; [done|by intros k' _]|done]]|].
  apply valid_lifes_step; [by vm_compute|].
  apply valid_lifes_step; [split; [done|vm_compute; by eexists]|].
  apply valid_lifes_step; [by vm_compute|].
  do 2 (apply valid_lifes_step; [split; [by vm_compute|split; [set_solver|by vm_compute]]|]). exact I.
Qed.


(** The registry loses threads.  2300 walks it: it holds a reference to 2100, and waits for
    the end of 2100 and of 2200, which leave the registry as threads of static memory do. *)
Definition demo_walk : list life_op :=
  [LfCreate 2300 80; LfCreate 2100 64; LfCreate 2200 60; LfFirst; LfNext 2000; LfNext 2300;
   LfWait 2100; LfExit 0; LfResume; LfWait 2200; LfExit 0; LfResume].

Definition demo_walk_events : list life_event :=
  [ECreate 2300 false; ECreate 2100 false; ECreate 2200 false; EFirst 2000; ENext 2000 (Some 2300); ENext 2300 (Some 2100);
   EWait 2300 2100; EExit 2100 0; EJoin 2300 2100 0; EWait 2300 2200; EExit 2200 0; EJoin 2300 2200 0].

Lemma demo_walk_result :
  (fun r => (fst r, p_refs (snd r) 2100, p_refs (snd r) 2200, chThdTerminatedX 2200 (snd r),
    fst (chRegNextThread 1000 2100 (snd r)))) <$> run_lifes 1000 5 demo_waiting demo_walk demo_boot =
  Some (demo_walk_events, 1, 0, true, Some 2200).
Proof. by vm_compute. Qed.

