(* ===== verification/Sketch.v ===== *)
(** The system calls of the sketch (orchard/arduino-chibios.c), as far as they are not
    timer callbacks ([Callbacks]): threads, mutexes, the hook of the system tick, and the
    addresses of the system calls.

    Each passes its arguments on to the kernel, on the state of the component that has it.
    The kernel's checks of arguments are not compiled, and createThread adds none: proved is
    for which priorities it returns. *)
From S2P Require Import Prelude Queues Timers Sched SchedOk Kernel Mutex Clock SchedCold Lifecycle.
Local Open Scope Z_scope.

(** ** Threads *)

Section Threads.
Context (rlist : Z) (fuel : nat) (p_waiting : Z -> Z).

(** [prio] is an int; the parameter of chThdCreateStatic has the type tprio_t. *)
Definition createThread (stack prio : Z) (s : lstate) : option lstate := chThdCreateStatic rlist fuel p_waiting stack (u32 prio) s.
Definition waitThread (tp : Z) (s : lstate) : option Z * lstate := chThdWait rlist p_waiting tp s.
Definition exitThread (msg : Z) (s : lstate) : option lstate := chThdExit rlist fuel p_waiting msg s.

Definition suspendThreadS (trp : Z) (k : kernel) : kernel := chThdSuspendS rlist trp k.
Definition suspendThread (trp : Z) (k : kernel) : kernel := chThdSuspendS rlist trp k.
Definition suspendThreadTimeoutS (trp timeout : Z) (k : kernel) : option Z * kernel := chThdSuspendTimeoutS rlist trp timeout k.
Definition suspendThreadTimeout (trp timeout : Z) (k : kernel) : option Z * kernel := chThdSuspendTimeoutS rlist trp timeout k.
Definition resumeThread (trp msg : Z) (k : kernel) : option kernel := chThdResume rlist fuel trp msg k.
Definition resumeThreadI (trp msg : Z) (k : kernel) : option kernel := chThdResumeI rlist fuel trp msg k.
Definition yieldThread (k : kernel) : option kernel := chThdYield rlist fuel k.

Context (vfuel : nat) (p_vt : Z -> Z) (wakeup_fn : Z).

Definition threadSleep (time : Z) (st : tkernel) : option tkernel := timed_call rlist fuel vfuel p_vt wakeup_fn (Sleep time) st.
Definition threadSleepUntil (time : Z) (st : tkernel) : option tkernel := chThdSleepUntil rlist fuel vfuel p_vt wakeup_fn time st.

(** ** Mutexes *)

Definition mutexInit (mp : Z) (s : mkernel) : mkernel := chMtxObjectInit mp s.
Definition mutexLock (mp : Z) (s : mkernel) : option (bool * mkernel) := chMtxLock rlist fuel mp s.
Definition mutexTryLock (mp : Z) (s : mkernel) : bool * mkernel := chMtxTryLock mp s.
Definition mutexUnlock (mp : Z) (s : mkernel) : option mkernel := chMtxUnlock rlist fuel mp s.
End Threads.

(** ** The hook of the tick, and the table of system calls *)

(** The functions the hook calls, if it is set; the state is the variable sysTickHook. *)
Definition doSysTick (sysTickHook : Z) : list Z := if negb (sysTickHook =? 0) then [sysTickHook] else [].
Definition hookSysTick (newHook : Z) (sysTickHook : Z) : Z := newHook.

Definition getSyscallABI : Z := 2.
(** [calls]: the table of 16-bit addresses, in assembly; bit 0 selects Thumb code. *)
Definition getSyscallAddr (calls : Z -> Z) (sysCallNum : Z) : Z := Z.lor (calls sysCallNum) 1.

(** ** The priority of a new thread *)

(** The scan for a place never ends at the header, whose priority is 0 as well. *)
Lemma scan_forever m : forall n cp, prio_scan n (fun _ => true) m cp = None.
Proof. induction n as [|n IH]; intros cp; cbn [prio_scan]; [done|apply IH]. Qed.

Lemma prio_scan_ext more more' m : (forall x, more x = more' x) -> forall n cp, prio_scan n more m cp = prio_scan n more' m cp.
Proof. intros Hm. induction n as [|n IH]; intros cp; cbn [prio_scan]; [done|]. rewrite Hm. case_match; [apply IH|done]. Qed.

Lemma readyI_zero rlist fuel tp k : (forall x, 0 <= p_prio k x) -> p_prio k tp = 0 -> chSchReadyI rlist fuel tp k = None.
Proof.
  intros Hp H0. unfold chSchReadyI. cbv zeta. rewrite (prio_scan_ext _ (fun _ => true)), scan_forever; [done|].
  intros x. cbn. rewrite H0. apply Z.leb_le, Hp.
Qed.

(** C30. createThread returns exactly if the priority does not become 0.  With priority 0, the
    search of the place in the ready list passes the header of the list over and over, with
    the interrupts locked: whatever the bound, it does not end. *)
Theorem createThread_returns rlist idle fuel kind p_waiting T s p wl stack prio :
  (forall a b, p_waiting a = p_waiting b -> a = b) -> life_ok rlist idle fuel kind p_waiting T s p wl ->
  (forall x, 0 <= p_prio (kn s) x) -> new_thread fuel kind p_waiting T stack 1 ->
  (u32 prio <> 0 -> exists s', createThread rlist fuel p_waiting stack prio s = Some s') /\
  (u32 prio = 0 -> forall n, createThread rlist n p_waiting stack prio s = None).
Proof.
  intros Hinj H Hp (_ & Hn). split.
  - intros H0. pose proof (u32_range prio) as Hu. assert (Hn' : new_thread fuel kind p_waiting T stack (u32 prio)) by (split; [lia|exact Hn]).
    destruct (life_create_step rlist idle fuel kind p_waiting Hinj T s p wl stack (u32 prio) H Hn') as (a & s' & _ & _ & E & _).
    unfold createThread. cbn [run_life] in E. destruct (chThdCreateStatic _ _ _ _ _ s) as [s1|]; [by exists s1|done].
  - intros H0 n. unfold createThread. rewrite H0. unfold chThdCreateStatic, wakeup_new, chSchWakeupS. cbv zeta.
    set (k := set_u stack MSG_OK _). assert (Ek : forall x, p_prio k x = upd stack 0 (p_prio (kn s)) x) by done.
    assert (Hk : forall x, 0 <= p_prio k x) by (intros x; rewrite Ek; unfold upd; case_match; [done|apply Hp]).
    rewrite (Ek stack), upd_eq, (proj2 (Z.leb_le _ _) (Hk _)), readyI_zero; [done|done|]. by rewrite Ek, upd_eq.
Qed.

Lemma createThread_returns_witness :
  (exists s', createThread 1000 4 demo_waiting 2100 64 demo_boot = Some s') /\ createThread 1000 1000 demo_waiting 2100 0 demo_boot = None.
Proof.
  assert (Hi : forall a b, demo_waiting a = demo_waiting b -> a = b) by (unfold demo_waiting; lia).
  assert (H : life_ok 1000 2000 4 (kinds 1000 []) demo_waiting {[2000]} demo_boot (life_start 2000) (fun _ => [])).
  { apply boot_life_ok; try done; [|lia|cbn; unfold demo_waiting; lia].
    split; [apply NoDup_ListNoDup; repeat constructor; cbn; lia|split; [done|by intros ? ? []]]. }
  assert (Hp : forall x, 0 <= p_prio (kn demo_boot) x).
  { intros x. change (p_prio (kn demo_boot) x) with (upd 2000 IDLEPRIO (upd 1000 NOPRIO (fun _ => 0)) x). unfold upd.
    destruct (x =? 2000); [by vm_compute|]. by destruct (x =? 1000). }
  assert (Hn : new_thread 4 (kinds 1000 []) demo_waiting {[2000]} 2100 1).
  { apply demo_new_thread; [intros x ->%elem_of_singleton|..|apply Nat.leb_le; by vm_compute]; lia. }
  split.
  - apply (createThread_returns 1000 2000 4 (kinds 1000 []) demo_waiting {[2000]} demo_boot (life_start 2000) (fun _ => []) 2100 64 Hi H Hp Hn). by vm_compute.
  - apply (createThread_returns 1000 2000 4 (kinds 1000 []) demo_waiting {[2000]} demo_boot (life_start 2000) (fun _ => []) 2100 0 Hi H Hp Hn). by vm_compute.
Defined.
